(* ===== verification/_CoqProject ===== *)
-Q . S2P
Prelude.v
Riscv.v
Mem.v
Bytes.v
StringLib.v
Spinlock.v
Kalloc.v
Vm.v
PageTable.v
Uvm.v
UserCopy.v
Freewalk.v
VmSpec.v
Proc.v
ProcSpec.v
Kctx.v
ProcProps.v
SleepWake.v
State.v
Sleeplock.v
Bio.v
BioList.v
BioSpec.v
BioRun.v
RamDisk.v
Log.v
LogSpec.v
BioProps.v
LogProps.v
LogTx.v
Uart.v
Printf.v
Console.v
Fs.v
FsRun.v
FsBlocks.v
FsFile.v
FsIo.v
FsInode.v
FsProps.v
FsDir.v
FsPath.v
FsLink.v
FsTrunc.v
FsSample.v
File.v
FsWrite.v
FsThms.v
Mkfs.v
MkfsProps.v
MkfsThms.v
Exec.v
Syscall.v
ProcFs.v
Sysfile.v
Sysproc.v
Virtio.v
Trap.v
Asm.v
Start.v
Initcode.v
User.v
Ulib.v
Uprintf.v
Sh.v
ShLex.v
ShParse.v
ShGrammar.v
ShRefine.v
ShThms.v
ShRun.v
Filters.v
Progs.v
Umalloc.v
Grep.v
