(* ===== verification/Prelude.v ===== *)
(** * A verification of xv6-riscv

    xv6 is a small Unix for RISC-V machines: a kernel (src/kernel), the program that
    makes its disk image (src/mkfs) and user programs (src/user). This library
    translates the C and assembly code into Rocq functions and proves what the code
    promises. Definitions keep the names of the C functions, types and variables.

    ** How code is modelled

    A C integer is a [Z], with the conversions [u8] ... [i64] written where the code
    converts or where an operation can wrap. Memory is a map from addresses to bytes
    (Mem.v): page tables, the free list of the page allocator, user memory and the
    heap of user programs live in it. A disk block or a kernel buffer is a list of
    bytes (Bytes.v). Tables of structures are lists of records, and a pointer to an
    entry is its index (State.v).

    A C function is a function on the state, in the monad [M S A] of this file. Its
    outcome is a result with a new state ([Ok]), a call of panic or the end of a
    process ([Panic]), a wait that nothing ends ([Spin]), a switch to another thread,
    with what happens when it switches back ([Swtch]), or [NoFuel]. Components with
    a smaller state run inside larger ones through lenses. A loop that is not
    structural takes a bound on its turns; the bound is computed from the data (a
    length, a size, the number of entries) and the theorems prove the outcome [Ok],
    or say exactly which other outcome there is, so [NoFuel] is excluded where the
    code ends. Loops that wait for a device or another hart, and the endless loops
    of init and the shell, have their number of turns as a parameter ([Patience], or
    an argument [n]).

    Concurrency is modelled where code depends on it: Spinlock.v (Module [SMP]) runs
    acquire and release on any number of harts, one memory access at a time, and
    SleepWake.v interleaves the steps of sleep and wakeup. These steps are a second
    translation of the code; a lemma of Spinlock.v shows that a hart that runs alone
    and finds the lock free does what the functions acquire and release do. sleep,
    acquiresleep and begin_op are specified for whatever the other threads do while
    they sleep ([waits] of this file). The other theorems on code that can sleep are
    about runs in which it does not have to: the locks it takes are free, and the
    disk has the block when it is asked for it.

    ** Parameters

    The hardware is reached through interfaces: [Platform] (memory-mapped device
    registers), [Image] (the addresses that the linker gives), [KText] (trampoline
    and initcode), [Uninit] (contents of uninitialised variables), [BlockDev] (the
    disk as bio.c uses it, with the laws [BlockDevOk] and the instance RamDisk.v, a
    disk that can lose power at any write). [BlockDev] reads or writes one block at
    once and as a whole, which is what bio.c expects of virtio_disk_rw; the driver
    itself, with its descriptors and interrupts, is translated in Virtio.v, and that
    it implements [BlockDev] is not proved. User programs run in an environment,
    class [Os] of User.v; [FileIo] has an input, cut into reads by any schedule, and
    an output; [ProcEnv] of ShRun.v has file descriptors, forks and exec. mkfs takes
    the files of its host as a parameter.

    ** Files, components and theorems

    - The machine: Riscv.v (riscv.h, memlayout.h, param.h), Mem.v, Bytes.v,
      StringLib.v (string.c). Asm.v: trampoline.S, swtch.S, kernelvec.S and entry.S
      as lists of instructions on registers, memory and Sv39 translation; user
      registers survive a trap, a switch resumes the other thread, an interrupt in
      the kernel restores what it interrupted. Start.v: entry.S and start.c; every
      hart starts on a stack of its own. Initcode.v: the bytes of the first program,
      decoded and run, exec /init.
    - Locks: Spinlock.v (spinlock.c), mutual exclusion on any number of harts;
      Sleeplock.v (sleeplock.c).
    - Memory: Kalloc.v (kalloc.c), pages are conserved; Vm.v (vm.c), with PageTable.v
      (the map that a page table in memory stands for), Uvm.v, UserCopy.v and
      Freewalk.v (address spaces) and the theorems in VmSpec.v: mappages, uvmalloc,
      uvmcopy, uvmfree, copyout, copyin and copyinstr do what they say and restore
      what they took when they fail.
    - Processes: Proc.v and ProcFs.v (proc.c), ProcSpec.v, Kctx.v, and the theorems
      of ProcProps.v (scheduler, sleep, wakeup, kill) and SleepWake.v (no wakeup is
      lost).
    - Disk: Virtio.v (virtio_disk.c); Bio.v (bio.c) with BioList.v, BioSpec.v,
      BioRun.v and BioProps.v: the cache refines a map from blocks to contents.
      Log.v (log.c) with LogSpec.v, LogProps.v and LogTx.v: transactions are atomic
      whenever the power fails, recovery restores the committed state and can itself
      be interrupted, begin_op reserves room; commit can run out of buffers.
    - Files: Fs.v (fs.c) and File.v (file.c, pipe.c). FsRun.v is a Hoare logic for
      code inside a transaction; FsBlocks.v, FsFile.v, FsIo.v, FsInode.v, FsProps.v,
      FsDir.v, FsPath.v, FsLink.v, FsTrunc.v and FsWrite.v prove the operations
      against files as byte arrays and the tree of directories; FsThms.v has the
      theorems, FsSample.v the file system they are instantiated on: files refine
      byte arrays (reads and writes of kernel memory; filewrite copies from user
      memory), filewrite is crash safe, names resolve along the tree, dirlink
      and dirlookup agree, itrunc frees exactly the file's blocks, inodes survive
      being written and read, writei fits in a transaction.
    - Mkfs.v (mkfs.c), MkfsProps.v and MkfsThms.v: the image is a consistent file
      system with the given files under their names, and fsinit mounts it. This joins
      mkfs, the log and the file system.
    - System calls, traps and devices: Uart.v, Printf.v, Console.v, Exec.v, Syscall.v,
      Sysfile.v, Sysproc.v, Virtio.v, Trap.v (with plic.c and main.c), as definitions.
    - User programs: User.v (the system calls), Ulib.v (ulib.c), Uprintf.v (printf.c:
      it is type safe for exactly the arguments that suit the format), Umalloc.v
      (umalloc.c: blocks in use never overlap and keep their contents, for every
      sequence of calls), Sh.v with ShLex.v, ShParse.v, ShGrammar.v, ShRefine.v,
      ShThms.v and ShRun.v (sh.c: the parser decides the command language, reads and
      writes within its buffer and complains of anything else, and a line runs the processes it says, each with the right descriptors), Grep.v (grep.c:
      the matcher decides the patterns, grep prints the matching lines), Filters.v
      (cat.c, echo.c, wc.c: wc counts its whole input), Progs.v (the other programs,
      as definitions).

    Every property of the development is a theorem whose comment begins with C and
    its number; a theorem with hypotheses is followed by a lemma that applies it to
    a concrete state.

    ** Bounds

    Sizes of tables, blocks and files are those of the source (NPROC, NBUF, LOGSIZE,
    MAXFILE, NOFILE, MAXARGS and so on). The bound of a directory or file loop is one
    more than the entries or blocks there can be; that of the parser of the shell is
    four levels for each character; that of nulterminate and runcmd is the index of
    the structure, since structures only point to older ones.

    ** Not modelled

    user/usertests.c and all of user/grind.c but its random numbers: they issue
    system calls and compare results, and have no behaviour of their own to specify.
    The TLB (sfence.vma has no effect), the timing of devices, weak memory ordering
    (fences have no effect; the interleavings are sequentially consistent), the
    permission bits of pages in the assembly code (Asm.v; copyin, copyout and the
    other functions of vm.c do check them), the text
    of the messages of mkfs, the code under #if 0, the linker scripts beyond the
    addresses they give, user/usys.pl (which generates the system-call stubs) and
    kernel/defs.h (prototypes). The inline functions of riscv.h that read or write a
    register nobody in the model looks at are left out.

    This file has what the others share: integers, the monad and its rules, lenses,
    lemmas on lists, and the tactics and hints of the library. *)

From stdpp Require Export base gmap list strings sorting.
From Stdlib Require Export ZArith Lia Zbitwise.
#[export] Set Default Goal Selector "!".

Declare Scope kernel_scope.
Delimit Scope kernel_scope with K.
Open Scope Z_scope.
Open Scope kernel_scope.

(** ** Machine integers

    A C integer of width w is a [Z]; the conversions below are the C
    conversions to each type ([types.h]). *)

Definition u8 (x : Z) : Z := x mod 2^8.
Definition u16 (x : Z) : Z := x mod 2^16.
Definition u32 (x : Z) : Z := x mod 2^32.
Definition u64 (x : Z) : Z := x mod 2^64.
Definition i8 (x : Z) : Z := (x + 2^7) mod 2^8 - 2^7.
Definition i16 (x : Z) : Z := (x + 2^15) mod 2^16 - 2^15.
Definition i32 (x : Z) : Z := (x + 2^31) mod 2^32 - 2^31.
Definition i64 (x : Z) : Z := (x + 2^63) mod 2^64 - 2^63.

(** C truth values. *)
Definition b2z (b : bool) : Z := if b then 1 else 0.
Definition truthy (x : Z) : bool := negb (x =? 0).

(** ** Outcomes and the kernel monad

    Running kernel code from a state [s] either returns ([Ok]), stops the
    machine ([Panic]), busy-waits for another hart ([Spin]: nothing this hart
    does will ever make it return), gives up the hart at a [swtch] ([Swtch s k]:
    [s] is the state handed over, [k] what runs when the thread is resumed in a
    later state), or exhausts the fuel of a loop that has no bound of its own. *)

Inductive outcome (S A : Type) : Type :=
| Ok (a : A) (s : S)
| Panic (msg : string) (s : S)
| Spin (s : S)
| Swtch (s : S) (k : S -> outcome S A)
| NoFuel.
Arguments Ok {S A} a s.
Arguments Panic {S A} msg s.
Arguments Spin {S A} s.
Arguments Swtch {S A} s k.
Arguments NoFuel {S A}.

Definition M (S A : Type) : Type := S -> outcome S A.

Definition ret {S A} (a : A) : M S A := fun s => Ok a s.

Fixpoint obind {S A B} (o : outcome S A) (f : A -> M S B) : outcome S B :=
  match o with
  | Ok a s => f a s
  | Panic msg s => Panic msg s
  | Spin s => Spin s
  | Swtch s k => Swtch s (fun s' => obind (k s') f)
  | NoFuel => NoFuel
  end.

Definition bind {S A B} (m : M S A) (f : A -> M S B) : M S B :=
  fun s => obind (m s) f.

Definition panic {S A} (msg : string) : M S A := fun s => Panic msg s.
Definition spin {S A} : M S A := fun s => Spin s.
Definition get {S} : M S S := fun s => Ok s s.
Definition gets {S A} (f : S -> A) : M S A := fun s => Ok (f s) s.
Definition put {S} (s : S) : M S unit := fun _ => Ok tt s.
Definition modify {S} (f : S -> S) : M S unit := fun s => Ok tt (f s).
Definition when {S} (b : bool) (m : M S unit) : M S unit := if b then m else ret tt.

Arguments ret {S A} a s /.
Arguments bind {S A B} m f s /.
Arguments panic {S A} msg s /.
Arguments spin {S A} s /.
Arguments get {S} s /.
Arguments gets {S A} f s /.
Arguments put {S} s s' /.
Arguments modify {S} f s /.
Arguments when {S} b m /.

Notation "'let*' x ':=' m 'in' k" := (bind m (fun x => k))
  (at level 10, x binder, m at level 100, k at level 200) : kernel_scope.
Notation "m ;;; k" := (bind m (fun _ => k))
  (at level 100, right associativity) : kernel_scope.

(** The result of a computation that returns. *)
Definition returns {S A} (o : outcome S A) : Prop := exists a s, o = Ok a s.

(** ** Lenses: running a component's code inside a larger state *)

Record lens (S T : Type) : Type := Lens { lget : S -> T; lset : T -> S -> S }.
Arguments Lens {S T} _ _.
Arguments lget {S T} _ _.
Arguments lset {S T} _ _ _.

Class LensLaws {S T} (L : lens S T) : Prop := {
  lget_lset : forall t s, lget L (lset L t s) = t;
  lset_lget : forall s, lset L (lget L s) s = s;
  lset_lset : forall t t' s, lset L t (lset L t' s) = lset L t s }.

Fixpoint zoomo {S T A} (L : lens S T) (s : S) (o : outcome T A) : outcome S A :=
  match o with
  | Ok a t => Ok a (lset L t s)
  | Panic msg t => Panic msg (lset L t s)
  | Spin t => Spin (lset L t s)
  | Swtch t k => Swtch (lset L t s) (fun s' => zoomo L s' (k (lget L s')))
  | NoFuel => NoFuel
  end.

Definition zoom {S T A} (L : lens S T) (m : M T A) : M S A :=
  fun s => zoomo L s (m (lget L s)).

Definition lcomp {S T U} (L : lens S T) (K : lens T U) : lens S U :=
  Lens (fun s => lget K (lget L s)) (fun u s => lset L (lset K u (lget L s)) s).

#[global] Instance lcomp_laws {S T U} (L : lens S T) (K : lens T U) :
  LensLaws L -> LensLaws K -> LensLaws (lcomp L K).
Proof.
  intros [L1 L2 L3] [K1 K2 K3]. split; intros; simpl.
  - by rewrite L1, K1.
  - by rewrite K2, L2.
  - by rewrite L1, L3, K3.
Qed.

(** Giving up the CPU: the computation resumes in whatever state it is later
    switched back to in. *)
Definition swtch {S} : M S unit := fun s => Swtch s (fun s' => Ok tt s').
Arguments swtch {S} s /.

(** A thread that waits, under every behaviour of the other threads. [R s1 s2]: a
    thread that switched away in [s1] may be resumed in [s2]. [G s s1]: what holds
    when a thread that last got control in [s] switches away in [s1]. [Q s a s']:
    what holds when it last got control in [s] and returns [a] in [s']. The thread
    must not panic nor spin, and it switches away at most [n] times; the bound of
    the model is reached only after [n] times. *)
Fixpoint waits {X A} (R G : X -> X -> Prop) (Q : X -> A -> X -> Prop) (n : nat) (s : X) (o : outcome X A) {struct o} : Prop :=
  match o with
  | Ok a s' => Q s a s'
  | Panic _ _ | Spin _ => False
  | Swtch s1 k => match n with O => False | S n => G s s1 /\ forall s2, R s1 s2 -> waits R G Q n s2 (k s2) end
  | NoFuel => n = O
  end.

(** What follows a wait and does not wait itself. *)
Lemma waits_bind {X A B} (R G : X -> X -> Prop) (P : X -> A -> X -> Prop) (Q : X -> B -> X -> Prop) (f : A -> M X B) (o : outcome X A) :
  (forall s a s1, P s a s1 -> exists b s', f a s1 = Ok b s' /\ Q s b s') ->
  forall n s, waits R G P n s o -> waits R G Q n s (obind o f).
Proof.
  intros H. induction o as [a s1 | msg s1 | s1 | s1 k IH |]; intros n s; simpl; try done.
  - intros (b & s' & -> & HQ)%H. done.
  - destruct n as [| n]; [done |]. intros [HG Hk]. split; [done |]. intros s2 Hs2. by apply IH, Hk.
Qed.

(** ** Tactics and hint databases *)

Create HintDb kernel discriminated.
Create HintDb krun.

(** Close or simplify goals with [div]/[mod] by constants. *)
Ltac zlia := Z.div_mod_to_equations; lia.

(** Case analysis on the boolean integer tests of the code. *)
Ltac zcase :=
  match goal with
  | |- context [?a =? ?b] => destruct (Z.eqb_spec a b)
  | |- context [?a <? ?b] => destruct (Z.ltb_spec a b)
  | |- context [?a <=? ?b] => destruct (Z.leb_spec a b)
  end; try lia; try congruence.
Ltac zcases := repeat zcase; simpl; try done; try lia.

Ltac deex :=
  repeat match goal with
  | H : exists _, _ |- _ => destruct H
  | H : _ /\ _ |- _ => destruct H
  end.

(** ** Monad lemmas *)

Lemma bind_ok {S A B} (m : M S A) (f : A -> M S B) s a s' :
  m s = Ok a s' -> bind m f s = f a s'.
Proof. intros H. unfold bind. by rewrite H. Qed.

Lemma bind_panic {S A B} (m : M S A) (f : A -> M S B) s msg s' :
  m s = Panic msg s' -> bind m f s = Panic msg s'.
Proof. intros H. unfold bind. by rewrite H. Qed.

Lemma bind_ok_inv {S A B} (m : M S A) (f : A -> M S B) s b s' :
  bind m f s = Ok b s' -> exists a s1, m s = Ok a s1 /\ f a s1 = Ok b s'.
Proof. unfold bind. destruct (m s); simpl; intros; try discriminate. eauto. Qed.

Lemma zoom_ok {S T A} (L : lens S T) (m : M T A) s a t :
  m (lget L s) = Ok a t -> zoom L m s = Ok a (lset L t s).
Proof. intros H. unfold zoom. by rewrite H. Qed.

Lemma zoom_panic {S T A} (L : lens S T) (m : M T A) s msg t :
  m (lget L s) = Panic msg t -> zoom L m s = Panic msg (lset L t s).
Proof. intros H. unfold zoom. by rewrite H. Qed.

(** Step through a monadic body with a known equation for its first call. *)
Ltac mstep H := erewrite bind_ok; [| apply H; auto with kernel].

(** ** Arithmetic of machine integers *)

Lemma u64_small x : 0 <= x < 2^64 -> u64 x = x.
Proof. apply Z.mod_small. Qed.
Lemma u32_small x : 0 <= x < 2^32 -> u32 x = x.
Proof. apply Z.mod_small. Qed.
Lemma u8_small x : 0 <= x < 2^8 -> u8 x = x.
Proof. apply Z.mod_small. Qed.
Lemma u64_range x : 0 <= u64 x < 2^64.
Proof. apply Z.mod_pos_bound; lia. Qed.
Lemma u32_range x : 0 <= u32 x < 2^32.
Proof. apply Z.mod_pos_bound; lia. Qed.
Lemma u8_range x : 0 <= u8 x < 2^8.
Proof. apply Z.mod_pos_bound; lia. Qed.
Lemma i32_small x : - 2^31 <= x < 2^31 -> i32 x = x.
Proof. intros. unfold i32. rewrite Z.mod_small; lia. Qed.
Lemma i32_range x : - 2^31 <= i32 x < 2^31.
Proof. unfold i32. pose proof (Z.mod_pos_bound (x + 2^31) (2^32)). lia. Qed.
#[export] Hint Resolve u64_range u32_range u8_range i32_range : kernel.

(** ** Bits and arithmetic *)

Lemma testbit_mod0 a n i : 0 <= n -> a mod 2^n = 0 -> i < n -> Z.testbit a i = false.
Proof.
  intros Hn Ha Hi. rewrite <- (Z.mod_pow2_bits_low a n i) by lia.
  rewrite Ha. apply Z.testbit_0_l.
Qed.

Lemma testbit_small b n i : 0 <= n <= i -> 0 <= b < 2^n -> Z.testbit b i = false.
Proof.
  intros Hi Hb. rewrite <- (Z.mod_small b (2^n)) by lia.
  apply Z.mod_pow2_bits_high. lia.
Qed.

Lemma land_disjoint a b n :
  0 <= n -> a mod 2^n = 0 -> 0 <= b < 2^n -> Z.land a b = 0.
Proof.
  intros Hn Ha Hb. apply Z.bits_inj'. intros i Hi.
  rewrite Z.land_spec, Z.testbit_0_l.
  destruct (Z.lt_ge_cases i n).
  - rewrite (testbit_mod0 a n) by lia. done.
  - rewrite (testbit_small b n) by lia. apply andb_false_r.
Qed.

Lemma lor_disjoint a b n :
  0 <= n -> a mod 2^n = 0 -> 0 <= b < 2^n -> Z.lor a b = a + b.
Proof.
  intros Hn Ha Hb. rewrite <- Z.add_lor_land.
  rewrite (land_disjoint a b n) by done. lia.
Qed.

Lemma land_mask_down a n w :
  0 <= n <= w -> 0 <= a < 2^w -> Z.land a (2^w - 2^n) = a - a mod 2^n.
Proof.
  intros Hn Ha.
  assert (Hm : 2^w - 2^n = Z.ones (w - n) * 2^n).
  { rewrite Z.ones_equiv. replace w with ((w - n) + n) at 1 by lia.
    rewrite Z.pow_add_r by lia. lia. }
  assert (Hp : 0 < 2^n) by (apply Z.pow_pos_nonneg; lia).
  replace (a - a mod 2^n) with ((a / 2^n) * 2^n) by (pose proof (Z.div_mod a (2^n)); lia).
  rewrite Hm. apply Z.bits_inj'. intros i Hi.
  rewrite Z.land_spec, !Z.mul_pow2_bits by lia.
  destruct (Z.lt_ge_cases i n).
  - rewrite !(Z.testbit_neg_r _ (i - n)) by lia. apply andb_false_r.
  - rewrite Z.div_pow2_bits by lia. replace (i - n + n) with i by lia.
    rewrite Z.testbit_ones_nonneg by lia.
    destruct (Z.ltb_spec (i - n) (w - n)); [apply andb_true_r |].
    rewrite (testbit_small a w) by lia. done.
Qed.

Lemma land_bit_mod a n : 0 <= n -> Z.land a (2^n) = (a / 2^n) mod 2 * 2^n.
Proof.
  intros Hn. apply Z.bits_inj'. intros i Hi.
  rewrite Z.land_spec, Z.pow2_bits_eqb, Z.mul_pow2_bits by lia.
  change ((a / 2^n) mod 2) with ((a / 2^n) mod 2^1). rewrite Z.testbit_mod_pow2 by lia.
  destruct (Z.eqb_spec n i) as [-> | Hne].
  - rewrite Z.sub_diag, Z.div_pow2_bits by lia. simpl. by rewrite andb_true_r.
  - rewrite andb_false_r. destruct (Z.ltb_spec (i - n) 1); [| done].
    by rewrite (Z.testbit_neg_r _ (i - n)) by lia.
Qed.

Lemma land_1 a : Z.land a 1 = a mod 2.
Proof. apply (Z.land_ones a 1). lia. Qed.

Lemma lor_range a b n : 0 < n -> 0 <= a < 2^n -> 0 <= b < 2^n -> 0 <= Z.lor a b < 2^n.
Proof.
  intros Hn Ha Hb. assert (0 <= Z.lor a b) by (apply Z.lor_nonneg; lia). split; [done |].
  assert (Hl : forall x, 0 <= x < 2^n -> Z.log2 x < n).
  { intros x Hx. destruct (decide (x = 0)) as [-> |]; [done | apply Z.log2_lt_pow2; lia]. }
  destruct (decide (Z.lor a b = 0)) as [-> |]; [lia |].
  apply Z.log2_lt_pow2; [lia |]. rewrite Z.log2_lor by lia. apply Z.max_lub_lt; by apply Hl.
Qed.
