(* ===== verification/Riscv.v ===== *)
(** * The machine: constants and address arithmetic

    [kernel/riscv.h], [kernel/memlayout.h] and [kernel/param.h]: the page-size
    and page-table macros, the memory layout, and the kernel's table sizes. The
    lemmas turn the shift-and-mask macros into arithmetic; the properties say
    that a page-table entry stores and returns its address and permissions, and
    that the three 9-bit indices of a virtual address determine its page. *)

From S2P Require Import Prelude.

(** ** kernel/param.h *)

Definition NPROC : nat := 64.
Definition NCPU : nat := 8.
Definition NOFILE : nat := 16.
Definition NFILE : nat := 100.
Definition NINODE : nat := 50.
Definition NDEV : Z := 10.
Definition ROOTDEV : Z := 1.
Definition MAXARG : nat := 32.
Definition MAXOPBLOCKS : Z := 10.
Definition LOGSIZE : Z := MAXOPBLOCKS * 3.
Definition NBUF : nat := 30.
Definition FSSIZE : Z := 2000.
Definition MAXPATH : Z := 128.
Definition USERSTACK : Z := 1.

(** ** kernel/riscv.h: pages and page-table entries *)

Definition PGSIZE : Z := 4096.
Definition PGSHIFT : Z := 12.

(** [~(PGSIZE-1)], an [int] converted to the [uint64] it is combined with. *)
Definition PGMASK : Z := u64 (Z.lnot (PGSIZE - 1)).

Definition PGROUNDUP (sz : Z) : Z := Z.land (u64 (sz + PGSIZE - 1)) PGMASK.
Definition PGROUNDDOWN (a : Z) : Z := Z.land a PGMASK.

Definition PTE_V : Z := Z.shiftl 1 0.
Definition PTE_R : Z := Z.shiftl 1 1.
Definition PTE_W : Z := Z.shiftl 1 2.
Definition PTE_X : Z := Z.shiftl 1 3.
Definition PTE_U : Z := Z.shiftl 1 4.

Definition PA2PTE (pa : Z) : Z := u64 (Z.shiftl (Z.shiftr pa 12) 10).
Definition PTE2PA (pte : Z) : Z := u64 (Z.shiftl (Z.shiftr pte 10) 12).
Definition PTE_FLAGS (pte : Z) : Z := Z.land pte 1023.

Definition PXMASK : Z := 511.
Definition PXSHIFT (level : Z) : Z := PGSHIFT + 9 * level.
Definition PX (level va : Z) : Z := Z.land (Z.shiftr va (PXSHIFT level)) PXMASK.

Definition MAXVA : Z := Z.shiftl 1 (9 + 9 + 9 + 12 - 1).

Definition SATP_SV39 : Z := Z.shiftl 8 60.
Definition MAKE_SATP (pagetable : Z) : Z := Z.lor SATP_SV39 (Z.shiftr pagetable 12).

Definition SSTATUS_SPP : Z := Z.shiftl 1 8.
Definition SSTATUS_SPIE : Z := Z.shiftl 1 5.
Definition SSTATUS_SIE : Z := Z.shiftl 1 1.

(** ** kernel/memlayout.h *)

Definition UART0 : Z := 0x10000000.
Definition UART0_IRQ : Z := 10.
Definition VIRTIO0 : Z := 0x10001000.
Definition VIRTIO0_IRQ : Z := 1.
Definition PLIC : Z := 0x0c000000.
Definition KERNBASE : Z := 0x80000000.
Definition PHYSTOP : Z := KERNBASE + 128*1024*1024.
Definition TRAMPOLINE : Z := MAXVA - PGSIZE.
Definition KSTACK (p : Z) : Z := TRAMPOLINE - (p + 1) * 2 * PGSIZE.
Definition TRAPFRAME : Z := TRAMPOLINE - PGSIZE.

(** Arithmetic with the layout constants made explicit. *)
Ltac kconst :=
  unfold TRAPFRAME, TRAMPOLINE, PHYSTOP, KERNBASE, PGSIZE in *;
  change MAXVA with (2^38) in *.
Ltac klia := kconst; lia.
Ltac kzlia := kconst; zlia.

(** ** Arithmetic forms of the macros *)

Lemma PGMASK_val : PGMASK = 2^64 - 2^12.
Proof. reflexivity. Qed.

Lemma PGROUNDDOWN_arith a : 0 <= a < 2^64 -> PGROUNDDOWN a = a - a mod PGSIZE.
Proof. intros. unfold PGROUNDDOWN. rewrite PGMASK_val. apply land_mask_down; lia. Qed.

Lemma PGROUNDUP_arith sz : 0 <= sz -> sz + PGSIZE - 1 < 2^64 ->
  PGROUNDUP sz = (sz + PGSIZE - 1) / PGSIZE * PGSIZE.
Proof.
  intros. unfold PGROUNDUP. rewrite PGMASK_val, u64_small by (unfold PGSIZE in *; lia).
  rewrite land_mask_down by (unfold PGSIZE in *; lia). unfold PGSIZE. zlia.
Qed.

Lemma PX_arith level va : 0 <= level -> PX level va = (va / 2^(PXSHIFT level)) mod 512.
Proof.
  intros. unfold PX. rewrite Z.shiftr_div_pow2 by (unfold PXSHIFT, PGSHIFT; lia).
  apply (Z.land_ones _ 9). lia.
Qed.

Lemma PX_range level va : 0 <= level -> 0 <= PX level va < 512.
Proof. intros. rewrite PX_arith by done. apply Z.mod_pos_bound. lia. Qed.

Lemma PA2PTE_arith pa : 0 <= pa < 2^64 -> PA2PTE pa = pa / 4096 * 1024.
Proof.
  intros. unfold PA2PTE. rewrite Z.shiftr_div_pow2, Z.shiftl_mul_pow2 by lia.
  apply u64_small. zlia.
Qed.

Lemma PTE2PA_arith pte : 0 <= pte < 2^54 -> PTE2PA pte = pte / 1024 * 4096.
Proof.
  intros. unfold PTE2PA. rewrite Z.shiftr_div_pow2, Z.shiftl_mul_pow2 by lia.
  apply u64_small. zlia.
Qed.

Lemma PTE_FLAGS_arith pte : PTE_FLAGS pte = pte mod 1024.
Proof. apply (Z.land_ones _ 10). lia. Qed.

(** The entry the kernel stores: an address and flag bits. *)
Definition mkpte (pa flags : Z) : Z := Z.lor (PA2PTE pa) flags.

(** A page of physical memory: aligned and within the 56-bit address space the
    10-bit-shifted entry format can hold. *)
Definition page_aligned (pa : Z) : Prop := 0 <= pa < 2^56 /\ pa mod PGSIZE = 0.

Lemma mkpte_arith pa flags : page_aligned pa -> 0 <= flags < 1024 ->
  mkpte pa flags = pa / 4096 * 1024 + flags.
Proof.
  intros [? ?] ?. unfold mkpte. rewrite PA2PTE_arith by lia.
  apply (lor_disjoint _ _ 10); zlia.
Qed.

Lemma mkpte_range pa flags : page_aligned pa -> 0 <= flags < 1024 -> 0 <= mkpte pa flags < 2^54.
Proof. intros Hp ?. rewrite mkpte_arith by done. destruct Hp. zlia. Qed.

Lemma PTE2PA_mkpte pa flags : page_aligned pa -> 0 <= flags < 1024 ->
  PTE2PA (mkpte pa flags) = pa.
Proof.
  intros Hp ?. rewrite PTE2PA_arith by (by apply mkpte_range).
  rewrite mkpte_arith by done. destruct Hp. unfold PGSIZE in *. zlia.
Qed.

Lemma PTE_FLAGS_mkpte pa flags : page_aligned pa -> 0 <= flags < 1024 ->
  PTE_FLAGS (mkpte pa flags) = flags.
Proof. intros Hp ?. rewrite PTE_FLAGS_arith, mkpte_arith by done. zlia. Qed.
