(* ===== verification/Mem.v ===== *)
(** * Physical memory

    RAM as the kernel sees it through its direct map: a finite map from byte
    addresses to byte values, unmentioned bytes reading as 0. Page-table pages,
    the allocator's free list and user pages all live in it; 64-bit words are
    stored little-endian, as RISC-V does. *)

From S2P Require Import Prelude.

Abbreviation mem := (gmap Z Z).

Definition rd8 (m : mem) (a : Z) : Z := default 0 (m !! a).
Definition wr8 (m : mem) (a v : Z) : mem := <[a := u8 v]> m.

Fixpoint rd_le (n : nat) (m : mem) (a : Z) : Z :=
  match n with
  | O => 0
  | S n => rd8 m a + 256 * rd_le n m (a + 1)
  end.

Fixpoint wr_le (n : nat) (m : mem) (a v : Z) : mem :=
  match n with
  | O => m
  | S n => wr_le n (wr8 m a v) (a + 1) (v / 256)
  end.

Definition rd64 : mem -> Z -> Z := rd_le 8.
Definition wr64 : mem -> Z -> Z -> mem := wr_le 8.
Definition rd32 : mem -> Z -> Z := rd_le 4.
Definition wr32 : mem -> Z -> Z -> mem := wr_le 4.

(** The [n] bytes at [a], as a list. *)
Definition bytes (m : mem) (a : Z) (n : nat) : list Z :=
  (fun i => rd8 m (a + Z.of_nat i)) <$> seq 0 n.

(** Store a list of bytes: a copy from a kernel object outside RAM's pages. *)
Fixpoint wr_bytes (m : mem) (a : Z) (bs : list Z) : mem :=
  match bs with
  | [] => m
  | b :: bs => wr_bytes (wr8 m a b) (a + 1) bs
  end.

(** Every byte holds a byte value. *)
Definition mem_ok (m : mem) : Prop := forall a, 0 <= rd8 m a < 256.

(** Two memories agree on the bytes satisfying [P]. *)
Definition agree (P : Z -> Prop) (m m' : mem) : Prop := forall a, P a -> rd8 m' a = rd8 m a.

(** ** Bytes *)

Lemma rd8_wr8 m a v b : rd8 (wr8 m a v) b = if a =? b then u8 v else rd8 m b.
Proof.
  unfold rd8, wr8. rewrite lookup_insert. destruct (Z.eqb_spec a b); case_decide; simpl; congruence.
Qed.

Lemma rd8_wr8_eq m a v : rd8 (wr8 m a v) a = u8 v.
Proof. rewrite rd8_wr8, Z.eqb_refl. done. Qed.

Lemma rd8_wr8_ne m a v b : a <> b -> rd8 (wr8 m a v) b = rd8 m b.
Proof. intros. rewrite rd8_wr8. zcases. Qed.

Lemma mem_ok_wr8 m a v : mem_ok m -> mem_ok (wr8 m a v).
Proof.
  intros H b. rewrite rd8_wr8. case_match; [| apply H]. pose proof (u8_range v). lia.
Qed.

Lemma mem_ok_empty : mem_ok ∅.
Proof. intros a. unfold rd8. rewrite lookup_empty. simpl. lia. Qed.
#[export] Hint Resolve mem_ok_wr8 mem_ok_empty : kernel.

Lemma length_bytes m a n : length (bytes m a n) = n.
Proof. unfold bytes. rewrite length_fmap, length_seq. done. Qed.

Lemma bytes_lookup m a n i : (i < n)%nat -> bytes m a n !! i = Some (rd8 m (a + Z.of_nat i)).
Proof.
  intros. unfold bytes. rewrite list_lookup_fmap, lookup_seq_lt by done. done.
Qed.

Lemma bytes_ext m m' a a' n :
  (forall i, (i < n)%nat -> rd8 m (a + Z.of_nat i) = rd8 m' (a' + Z.of_nat i)) ->
  bytes m a n = bytes m' a' n.
Proof.
  intros H. apply (list_eq_same_length _ _ n); [by rewrite length_bytes.. |].
  intros i x y Hi. rewrite !bytes_lookup by done. intros [= <-] [= <-]. by apply H.
Qed.

Lemma bytes_app m a n k : bytes m a (n + k) = bytes m a n ++ bytes m (a + Z.of_nat n) k.
Proof.
  unfold bytes. rewrite seq_app, fmap_app. f_equal.
  apply list_eq. intros i. rewrite !list_lookup_fmap.
  destruct (decide (i < k)%nat).
  - rewrite !lookup_seq_lt by done. simpl. f_equal. f_equal. lia.
  - rewrite !lookup_seq_ge by lia. done.
Qed.

(** ** Little-endian words *)

Lemma rd8_wr_le_out n m a v x : (x < a \/ a + Z.of_nat n <= x) -> rd8 (wr_le n m a v) x = rd8 m x.
Proof.
  revert m a v. induction n as [| n IH]; intros m a v H; cbn [wr_le]; [done |].
  rewrite IH by lia. apply rd8_wr8_ne. lia.
Qed.

Lemma mem_ok_wr_le n m a v : mem_ok m -> mem_ok (wr_le n m a v).
Proof.
  revert m a v. induction n; intros; cbn [wr_le]; auto with kernel.
Qed.

Lemma rd_le_ext n m m' a :
  (forall x, a <= x < a + Z.of_nat n -> rd8 m x = rd8 m' x) -> rd_le n m a = rd_le n m' a.
Proof.
  revert a. induction n as [| n IH]; intros a H; cbn [rd_le]; [done |].
  rewrite (H a) by lia. rewrite IH; [done |]. intros. apply H. lia.
Qed.

Lemma rd_le_wr_le n m a v : rd_le n (wr_le n m a v) a = v mod 256 ^ Z.of_nat n.
Proof.
  revert m a v. induction n as [| n IH]; intros m a v; cbn [rd_le wr_le].
  { by rewrite Z.mod_1_r. }
  rewrite rd8_wr_le_out, rd8_wr8_eq, IH by lia. unfold u8.
  rewrite Nat2Z.inj_succ, Z.pow_succ_r by lia.
  rewrite Z.rem_mul_r by lia. done.
Qed.

Lemma rd_le_range n m a : mem_ok m -> 0 <= rd_le n m a < 256 ^ Z.of_nat n.
Proof.
  intros H. revert a. induction n as [| n IH]; intros a; cbn [rd_le]; [lia |].
  rewrite Nat2Z.inj_succ, Z.pow_succ_r by lia.
  specialize (IH (a + 1)). pose proof (H a). nia.
Qed.

Lemma rd64_wr64_eq m a v : 0 <= v < 2^64 -> rd64 (wr64 m a v) a = v.
Proof. intros. unfold rd64, wr64. rewrite rd_le_wr_le. apply Z.mod_small. lia. Qed.

Lemma rd64_ext m m' a :
  (forall x, a <= x < a + 8 -> rd8 m x = rd8 m' x) -> rd64 m a = rd64 m' a.
Proof. intros. apply rd_le_ext. auto. Qed.

Lemma rd8_wr64_out m a v x : (x < a \/ a + 8 <= x) -> rd8 (wr64 m a v) x = rd8 m x.
Proof. intros. apply rd8_wr_le_out. lia. Qed.

Lemma rd64_wr64_ne m a v b : (b + 8 <= a \/ a + 8 <= b) -> rd64 (wr64 m a v) b = rd64 m b.
Proof. intros. apply rd64_ext. intros. apply rd8_wr64_out. lia. Qed.

Lemma rd64_range m a : mem_ok m -> 0 <= rd64 m a < 2^64.
Proof. intros. apply (rd_le_range 8). done. Qed.

Lemma mem_ok_wr64 m a v : mem_ok m -> mem_ok (wr64 m a v).
Proof. apply mem_ok_wr_le. Qed.
#[export] Hint Resolve mem_ok_wr64 mem_ok_wr_le : kernel.

(** ** Byte lists *)

Definition is_byte (x : Z) : Prop := 0 <= x < 256.

Lemma rd8_wr_bytes_out m a bs x : (x < a \/ a + Z.of_nat (length bs) <= x) ->
  rd8 (wr_bytes m a bs) x = rd8 m x.
Proof.
  revert m a. induction bs as [| b bs IH]; intros m a Hx; simpl in *; [done |].
  rewrite IH by lia. apply rd8_wr8_ne. lia.
Qed.

Lemma rd8_wr_bytes_in m a bs i b : Forall is_byte bs -> bs !! i = Some b ->
  rd8 (wr_bytes m a bs) (a + Z.of_nat i) = b.
Proof.
  revert m a i. induction bs as [| c bs IH]; intros m a i Hb Hi; simpl in *; [done |].
  apply Forall_cons in Hb as [Hc Hb]. destruct i as [| i]; simpl in *.
  - simplify_eq. rewrite Z.add_0_r, rd8_wr_bytes_out by lia.
    rewrite rd8_wr8_eq. apply u8_small. unfold is_byte in Hc. lia.
  - rewrite <- (IH (wr8 m a c) (a + 1) i) by done. f_equal. lia.
Qed.

Lemma mem_ok_wr_bytes m a bs : mem_ok m -> mem_ok (wr_bytes m a bs).
Proof. revert m a. induction bs; intros; simpl; auto using mem_ok_wr8. Qed.

Lemma bytes_wr_bytes m a bs : Forall is_byte bs -> bytes (wr_bytes m a bs) a (length bs) = bs.
Proof.
  intros Hb. apply list_eq. intros i. destruct (decide (i < length bs)%nat) as [Hi | Hi].
  - rewrite bytes_lookup by done. destruct (lookup_lt_is_Some_2 bs i Hi) as [b Eb].
    rewrite Eb. f_equal. by apply rd8_wr_bytes_in.
  - rewrite !lookup_ge_None_2; [done | lia | rewrite length_bytes; lia].
Qed.

Lemma bytes_is_byte m a n : mem_ok m -> Forall is_byte (bytes m a n).
Proof. intros Hm. apply Forall_fmap, Forall_forall. intros i _. apply Hm. Qed.

#[export] Hint Resolve mem_ok_wr_bytes bytes_is_byte : kernel.

#[global] Opaque rd64 wr64.

(** ** Agreement *)

Lemma agree_refl P m : agree P m m.
Proof. by intros a _. Qed.
Lemma agree_trans P m1 m2 m3 : agree P m1 m2 -> agree P m2 m3 -> agree P m1 m3.
Proof. intros H1 H2 a Ha. rewrite H2, H1; done. Qed.
Lemma agree_mono (P Q : Z -> Prop) m m' :
  (forall a, Q a -> P a) -> agree P m m' -> agree Q m m'.
Proof. intros H Ha a Hq. apply Ha. auto. Qed.
Lemma agree_rd64 P m m' a :
  agree P m m' -> (forall x, a <= x < a + 8 -> P x) -> rd64 m' a = rd64 m a.
Proof. intros H HP. apply rd64_ext. intros. apply H. auto. Qed.
#[export] Hint Resolve agree_refl : kernel.
