(* ===== verification/Bytes.v ===== *)
(** * Blocks as lists of bytes

    Disk blocks and kernel buffers are lists of bytes. The kernel reads and writes
    the integers in them through casts ([(struct logheader * ) buf->data] and the
    like): [getle] and [putle] are such accesses, little-endian. *)

From S2P Require Import Prelude Mem.

Fixpoint le_bytes (n : nat) (v : Z) : list Z :=
  match n with O => [] | S n => v mod 256 :: le_bytes n (v / 256) end.

Fixpoint of_le (l : list Z) : Z :=
  match l with [] => 0 | b :: l => b + 256 * of_le l end.

(** The [n] bytes at [off]. *)
Definition slice {A} (off n : nat) (l : list A) : list A := take n (drop off l).
(** Overwrite the bytes at [off]. *)
Definition splice {A} (off : nat) (x : list A) (l : list A) : list A := list_inserts off x l.

Definition getle (n off : nat) (l : list Z) : Z := of_le (slice off n l).
Definition putle (n off : nat) (v : Z) (l : list Z) : list Z := splice off (le_bytes n v) l.

(** Array elements of the C types [int], [uint], [short], [ushort]. *)
Definition get_u32 (off : Z) (l : list Z) : Z := getle 4 (Z.to_nat off) l.
Definition get_i32 (off : Z) (l : list Z) : Z := i32 (getle 4 (Z.to_nat off) l).
Definition get_u16 (off : Z) (l : list Z) : Z := getle 2 (Z.to_nat off) l.
Definition get_i16 (off : Z) (l : list Z) : Z := i16 (getle 2 (Z.to_nat off) l).
Definition put_32 (off v : Z) (l : list Z) : list Z := putle 4 (Z.to_nat off) v l.
Definition put_16 (off v : Z) (l : list Z) : list Z := putle 2 (Z.to_nat off) v l.

Lemma length_le_bytes n : forall v, length (le_bytes n v) = n.
Proof. induction n; intros; simpl; congruence. Qed.

Lemma le_bytes_byte n : forall v, Forall is_byte (le_bytes n v).
Proof.
  induction n as [| n IH]; intros v; simpl; constructor; [| done].
  pose proof (Z.mod_pos_bound v 256). unfold is_byte. lia.
Qed.

Lemma of_le_bytes n : forall v, of_le (le_bytes n v) = v mod 2 ^ (8 * Z.of_nat n).
Proof.
  induction n as [| n IH]; intros v; [by rewrite Z.mod_1_r |].
  cbn [le_bytes of_le]. rewrite IH. replace (8 * Z.of_nat (S n)) with (8 + 8 * Z.of_nat n) by lia.
  rewrite Z.pow_add_r by lia. change (2 ^ 8) with 256.
  rewrite Z.rem_mul_r by lia. lia.
Qed.

Lemma of_le_range l : Forall is_byte l -> 0 <= of_le l < 2 ^ (8 * Z.of_nat (length l)).
Proof.
  induction 1 as [| b l Hb Hl IH]; cbn [of_le length]; [simpl; lia |].
  replace (8 * Z.of_nat (S (length l))) with (8 + 8 * Z.of_nat (length l)) by lia.
  rewrite Z.pow_add_r by lia. change (2 ^ 8) with 256. unfold is_byte in Hb. nia.
Qed.

Lemma le_bytes_of_le l : Forall is_byte l -> le_bytes (length l) (of_le l) = l.
Proof.
  induction 1 as [| b l Hb Hl IH]; [done |]. cbn [of_le length le_bytes]. unfold is_byte in Hb. f_equal.
  - zlia.
  - replace ((b + 256 * of_le l) / 256) with (of_le l) by zlia. done.
Qed.

Lemma length_slice {A} off n (l : list A) : length (slice off n l) = Nat.min n (length l - off).
Proof. unfold slice. by rewrite length_take, length_drop. Qed.

Lemma length_splice {A} off (x l : list A) : length (splice off x l) = length l.
Proof. apply length_inserts. Qed.

Lemma lookup_slice {A} off n (l : list A) i : (i < n)%nat -> slice off n l !! i = l !! (off + i)%nat.
Proof. intros. unfold slice. by rewrite lookup_take_lt, lookup_drop. Qed.

Lemma lookup_splice {A} off (x l : list A) i : (off + length x <= length l)%nat ->
  splice off x l !! i = if decide (off <= i < off + length x)%nat then x !! (i - off)%nat else l !! i.
Proof.
  intros Hl. unfold splice. case_decide as Hi.
  - apply list_lookup_inserts; lia.
  - destruct (decide (i < off)%nat); [by apply list_lookup_inserts_lt | apply list_lookup_inserts_ge; lia].
Qed.

Lemma slice_splice_eq {A} off (x l : list A) : (off + length x <= length l)%nat ->
  slice off (length x) (splice off x l) = x.
Proof.
  intros Hl. apply list_eq. intros i. destruct (decide (i < length x)%nat) as [Hi | Hi].
  - rewrite lookup_slice, lookup_splice, decide_True by lia. f_equal. lia.
  - rewrite !lookup_ge_None_2; [done | lia |]. rewrite length_slice, length_splice. lia.
Qed.

Lemma slice_splice_ne {A} off off' n (x l : list A) : (off + length x <= length l)%nat ->
  (off' + n <= off \/ off + length x <= off')%nat -> slice off' n (splice off x l) = slice off' n l.
Proof.
  intros Hl Hd. apply list_eq. intros i. destruct (decide (i < n)%nat) as [Hi | Hi].
  - rewrite !lookup_slice, lookup_splice, decide_False by lia. done.
  - rewrite !lookup_ge_None_2; [done | |]; rewrite length_slice, ?length_splice; lia.
Qed.

Lemma splice_byte off x l : Forall is_byte x -> Forall is_byte l -> Forall is_byte (splice off x l).
Proof.
  intros Hx Hl. apply Forall_lookup. intros i b Hb.
  apply list_lookup_inserts_Some in Hb as [[_ Hb] | (_ & _ & Hb)]; [by eapply (Forall_lookup_1 _ l) | by eapply (Forall_lookup_1 _ x)].
Qed.

Lemma getle_putle_eq n off v l : (off + n <= length l)%nat ->
  getle n off (putle n off v l) = v mod 2 ^ (8 * Z.of_nat n).
Proof.
  intros Hl. unfold getle, putle. rewrite <- (length_le_bytes n v) at 1.
  rewrite slice_splice_eq by (by rewrite length_le_bytes). apply of_le_bytes.
Qed.

Lemma getle_putle_ne n n' off off' v l : (off + n <= length l)%nat -> (off' + n' <= off \/ off + n <= off')%nat ->
  getle n' off' (putle n off v l) = getle n' off' l.
Proof. intros Hl Hd. unfold getle, putle. rewrite slice_splice_ne; rewrite ?length_le_bytes; done. Qed.

Lemma length_putle n off v l : length (putle n off v l) = length l.
Proof. apply length_splice. Qed.

Lemma length_put_32 off v l : length (put_32 off v l) = length l.
Proof. apply length_splice. Qed.

Lemma getle_range n off l : Forall is_byte l -> 0 <= getle n off l < 2 ^ (8 * Z.of_nat n).
Proof.
  intros Hl. assert (Hs : Forall is_byte (slice off n l)) by (by apply Forall_take, Forall_drop).
  pose proof (of_le_range _ Hs) as Hr. rewrite length_slice in Hr. unfold getle.
  split; [apply Hr |]. eapply Z.lt_le_trans; [apply Hr |]. apply Z.pow_le_mono_r; lia.
Qed.
