(* ===== verification/StringLib.v ===== *)
(** * kernel/string.c

    The C string and memory routines, over byte memory. Each loop of the source
    is a [Fixpoint] on the number of iterations it has left. *)

From S2P Require Import Prelude Mem.

(** [memset]: the loop runs with [k] bytes left, the next at [dst + i]. *)
Fixpoint memset_loop (k : nat) (m : mem) (dst c i : Z) : mem :=
  match k with
  | O => m
  | S k => memset_loop k (wr8 m (dst + i) c) dst c (i + 1)
  end.

Definition memset (m : mem) (dst c n : Z) : mem :=
  memset_loop (Z.to_nat (u32 n)) m dst c 0.

Fixpoint memcmp_loop (n : nat) (m : mem) (s1 s2 : Z) : Z :=
  match n with
  | O => 0
  | S n =>
      if negb (rd8 m s1 =? rd8 m s2) then rd8 m s1 - rd8 m s2
      else memcmp_loop n m (s1 + 1) (s2 + 1)
  end.

Definition memcmp (m : mem) (v1 v2 n : Z) : Z := memcmp_loop (Z.to_nat (u32 n)) m v1 v2.

(** [memmove]'s ascending loop ([*d++ = *s++]). *)
Fixpoint copy_up (n : nat) (m : mem) (d s : Z) : mem :=
  match n with
  | O => m
  | S n => copy_up n (wr8 m d (rd8 m s)) (d + 1) (s + 1)
  end.

(** [memmove]'s descending loop ([*--d = *--s]), [d] and [s] one past the end. *)
Fixpoint copy_down (n : nat) (m : mem) (d s : Z) : mem :=
  match n with
  | O => m
  | S n => copy_down n (wr8 m (d - 1) (rd8 m (s - 1))) (d - 1) (s - 1)
  end.

Definition memmove (m : mem) (dst src n : Z) : mem :=
  let n := u32 n in
  if n =? 0 then m
  else if (src <? dst) && (src + n >? dst)
  then copy_down (Z.to_nat n) m (dst + n) (src + n)
  else copy_up (Z.to_nat n) m dst src.

Definition memcpy (m : mem) (dst src n : Z) : mem := memmove m dst src n.

Fixpoint strncmp_loop (n : nat) (m : mem) (p q : Z) : Z :=
  match n with
  | O => 0
  | S n' =>
      if truthy (rd8 m p) && (rd8 m p =? rd8 m q)
      then strncmp_loop n' m (p + 1) (q + 1)
      else rd8 m p - rd8 m q
  end.

Definition strncmp (m : mem) (p q n : Z) : Z := strncmp_loop (Z.to_nat (u32 n)) m p q.

(** [strncpy]: copy up to and including the NUL, then zero the rest. *)
Fixpoint zero_fill (n : nat) (m : mem) (s : Z) : mem :=
  match n with
  | O => m
  | S n => zero_fill n (wr8 m s 0) (s + 1)
  end.

Fixpoint strncpy_loop (n : nat) (m : mem) (s t : Z) : mem :=
  match n with
  | O => m
  | S n' =>
      let c := rd8 m t in
      let m' := wr8 m s c in
      if c =? 0 then zero_fill n' m' (s + 1) else strncpy_loop n' m' (s + 1) (t + 1)
  end.

Definition strncpy (m : mem) (s t n : Z) : mem := strncpy_loop (Z.to_nat n) m s t.

(** [safestrcpy]: [k] is the value of [n] at the head of the loop, where it is
    decremented before the test; on the way out [*s = 0] is written at the
    pointer the loop left behind. *)
Fixpoint safestrcpy_loop (k : nat) (m : mem) (s t : Z) : mem :=
  match k with
  | O => m
  | S O => wr8 m s 0
  | S k' =>
      let c := rd8 m t in
      let m' := wr8 m s c in
      if c =? 0 then wr8 m' (s + 1) 0 else safestrcpy_loop k' m' (s + 1) (t + 1)
  end.

Definition safestrcpy (m : mem) (s t n : Z) : mem :=
  if n <=? 0 then m else safestrcpy_loop (Z.to_nat n) m s t.

(** [strlen] has no bound of its own: [None] when no NUL is met in [fuel] bytes. *)
Fixpoint strlen_loop (fuel : nat) (m : mem) (s n : Z) : option Z :=
  match fuel with
  | O => None
  | S fuel => if rd8 m (s + n) =? 0 then Some n else strlen_loop fuel m s (n + 1)
  end.

Definition strlen (fuel : nat) (m : mem) (s : Z) : option Z := strlen_loop fuel m s 0.

(** ** memset *)

Lemma memset_loop_spec k m dst c i x :
  rd8 (memset_loop k m dst c i) x =
  if (dst + i <=? x) && (x <? dst + i + Z.of_nat k) then u8 c else rd8 m x.
Proof.
  revert m i. induction k as [| k IH]; intros m i; cbn [memset_loop].
  - destruct (Z.leb_spec (dst + i) x), (Z.ltb_spec x (dst + i + Z.of_nat 0)); simpl; done || lia.
  - rewrite IH, rd8_wr8.
    destruct (Z.leb_spec (dst + (i + 1)) x), (Z.ltb_spec x (dst + (i + 1) + Z.of_nat k)),
      (Z.leb_spec (dst + i) x), (Z.ltb_spec x (dst + i + Z.of_nat (S k))),
      (Z.eqb_spec (dst + i) x); simpl; done || lia.
Qed.

Lemma rd8_memset m dst c n x : 0 <= n < 2^32 ->
  rd8 (memset m dst c n) x = if (dst <=? x) && (x <? dst + n) then u8 c else rd8 m x.
Proof.
  intros. unfold memset. rewrite memset_loop_spec, u32_small by done.
  replace (dst + 0) with dst by lia. rewrite Z2Nat.id by lia. done.
Qed.

Lemma rd8_memset_in m dst c n x : 0 <= n < 2^32 -> dst <= x < dst + n ->
  rd8 (memset m dst c n) x = u8 c.
Proof. intros. rewrite rd8_memset by done. zcases. Qed.

Lemma rd8_memset_out m dst c n x : 0 <= n < 2^32 -> (x < dst \/ dst + n <= x) ->
  rd8 (memset m dst c n) x = rd8 m x.
Proof. intros. rewrite rd8_memset by done. zcases. Qed.

Lemma mem_ok_memset m dst c n : mem_ok m -> mem_ok (memset m dst c n).
Proof.
  intros H x. unfold memset. rewrite memset_loop_spec. case_match; [| apply H].
  pose proof (u8_range c). lia.
Qed.
#[export] Hint Resolve mem_ok_memset : kernel.

(** A memory zeroed over a page reads zero words there. *)
Lemma rd64_memset0 m dst n a : 0 <= n < 2^32 -> dst <= a -> a + 8 <= dst + n ->
  rd64 (memset m dst 0 n) a = 0.
Proof.
  intros. transitivity (rd64 ∅ a); [| reflexivity].
  apply rd64_ext. intros. rewrite rd8_memset_in by lia.
  unfold rd8. by rewrite lookup_empty.
Qed.

(** ** memmove *)

Lemma copy_up_spec n m d s x : mem_ok m ->
  (d <= s \/ s + Z.of_nat n <= d) ->
  rd8 (copy_up n m d s) x =
  if (d <=? x) && (x <? d + Z.of_nat n) then rd8 m (s + (x - d)) else rd8 m x.
Proof.
  revert m d s. induction n as [| n IH]; intros m d s Hok Hov; cbn [copy_up].
  - destruct (Z.leb_spec d x), (Z.ltb_spec x (d + Z.of_nat 0)); simpl; done || lia.
  - rewrite IH by (auto with kernel; lia).
    rewrite !rd8_wr8, u8_small by (apply Hok).
    destruct (Z.leb_spec (d + 1) x), (Z.ltb_spec x (d + 1 + Z.of_nat n)),
      (Z.leb_spec d x), (Z.ltb_spec x (d + Z.of_nat (S n))),
      (Z.eqb_spec d x), (Z.eqb_spec d (s + 1 + (x - (d + 1)))); simpl; try lia;
      f_equal; lia.
Qed.

Lemma copy_down_spec n m d s x : mem_ok m -> s <= d ->
  rd8 (copy_down n m d s) x =
  if (d - Z.of_nat n <=? x) && (x <? d) then rd8 m (s + (x - d)) else rd8 m x.
Proof.
  revert m d s. induction n as [| n IH]; intros m d s Hok Hov; cbn [copy_down].
  - destruct (Z.leb_spec (d - Z.of_nat 0) x), (Z.ltb_spec x d); simpl; done || lia.
  - rewrite IH by (auto with kernel; lia).
    rewrite !rd8_wr8, u8_small by (apply Hok).
    destruct (Z.leb_spec (d - 1 - Z.of_nat n) x), (Z.ltb_spec x (d - 1)),
      (Z.leb_spec (d - Z.of_nat (S n)) x), (Z.ltb_spec x d),
      (Z.eqb_spec (d - 1) x), (Z.eqb_spec (d - 1) (s - 1 + (x - (d - 1)))); simpl; try lia;
      f_equal; lia.
Qed.

Lemma rd8_memmove m dst src n x : mem_ok m -> 0 <= n < 2^32 ->
  rd8 (memmove m dst src n) x =
  if (dst <=? x) && (x <? dst + n) then rd8 m (src + (x - dst)) else rd8 m x.
Proof.
  intros Hok Hn. unfold memmove. rewrite u32_small by done.
  destruct (Z.eqb_spec n 0) as [-> |].
  { destruct (Z.leb_spec dst x), (Z.ltb_spec x (dst + 0)); simpl; done || lia. }
  destruct (Z.ltb_spec src dst); simpl.
  - rewrite Z.gtb_ltb. destruct (Z.ltb_spec dst (src + n)).
    + rewrite copy_down_spec, Z2Nat.id by (done || lia).
      replace (dst + n - n) with dst by lia.
      replace (src + n + (x - (dst + n))) with (src + (x - dst)) by lia. done.
    + rewrite copy_up_spec, Z2Nat.id by (done || lia). done.
  - rewrite copy_up_spec, Z2Nat.id by (done || lia). done.
Qed.

Lemma rd8_memmove_in m dst src n x : mem_ok m -> 0 <= n < 2^32 -> dst <= x < dst + n ->
  rd8 (memmove m dst src n) x = rd8 m (src + (x - dst)).
Proof. intros. rewrite rd8_memmove by done. rewrite !(proj2 (Z.leb_le _ _)), !(proj2 (Z.ltb_lt _ _)) by lia. done. Qed.

Lemma rd8_memmove_out m dst src n x : mem_ok m -> 0 <= n < 2^32 -> (x < dst \/ dst + n <= x) ->
  rd8 (memmove m dst src n) x = rd8 m x.
Proof.
  intros. rewrite rd8_memmove by done. destruct (Z.leb_spec dst x), (Z.ltb_spec x (dst + n)); done || lia.
Qed.

Lemma mem_ok_memmove m dst src n : mem_ok m -> 0 <= n < 2^32 -> mem_ok (memmove m dst src n).
Proof. intros H Hn x. rewrite rd8_memmove by done. case_match; apply H. Qed.
#[export] Hint Resolve mem_ok_memmove : kernel.

Lemma bytes_memmove m dst src n : mem_ok m -> 0 <= n < 2^32 ->
  bytes (memmove m dst src n) dst (Z.to_nat n) = bytes m src (Z.to_nat n).
Proof.
  intros. apply bytes_ext. intros i Hi. rewrite rd8_memmove by done.
  destruct (Z.leb_spec dst (dst + Z.of_nat i)), (Z.ltb_spec (dst + Z.of_nat i) (dst + n));
    simpl; try lia. f_equal. lia.
Qed.

#[global] Opaque memset memmove.
