(* ===== verification/Spinlock.v ===== *)
(** * kernel/spinlock.c: spin locks and interrupt nesting

    The part of the machine that locking touches: the hart's [tp] and [sstatus]
    registers, the [cpus] array ([struct cpu] of kernel/proc.h) and the kernel's
    spin locks. A lock is named by the object that embeds it; its record is
    [struct spinlock].

    The first part is the sequential code as one hart runs it. The second part
    ([Module SMP]) runs the same code on any number of harts, one memory access
    at a time, and proves mutual exclusion. *)

From S2P Require Import Prelude Riscv.

(** ** State *)

Record spinlock := mkSpinlock { sl_locked : Z; sl_name : string; sl_cpu : option nat }.

(** [struct cpu], less the saved scheduler context. *)
Record cpu := mkCpu { cpu_proc : option nat; cpu_noff : Z; cpu_intena : Z }.
Definition cpu0 : cpu := mkCpu None 0 0.

(** The address of a lock: the global or struct that contains it. *)
Inductive lockid :=
| KmemLock | PidLock | WaitLock | TicksLock | BcacheLock | LogLock | ItableLock
| FtableLock | ConsLock | UartLock | PrLock | VdiskLock
| ProcLock (i : nat) | BufLk (i : nat) | InodeLk (i : nat) | PipeLock (pa : Z).

#[global] Instance lockid_eq_dec : EqDecision lockid.
Proof. solve_decision. Defined.

Definition lockid_code (l : lockid) : nat * Z :=
  match l with
  | KmemLock => (0%nat, 0) | PidLock => (0%nat, 1) | WaitLock => (0%nat, 2)
  | TicksLock => (0%nat, 3) | BcacheLock => (0%nat, 4) | LogLock => (0%nat, 5)
  | ItableLock => (0%nat, 6) | FtableLock => (0%nat, 7) | ConsLock => (0%nat, 8)
  | UartLock => (0%nat, 9) | PrLock => (0%nat, 10) | VdiskLock => (0%nat, 11)
  | ProcLock i => (1%nat, Z.of_nat i) | BufLk i => (2%nat, Z.of_nat i)
  | InodeLk i => (3%nat, Z.of_nat i) | PipeLock pa => (4%nat, pa)
  end.

Definition lockid_decode (c : nat * Z) : option lockid :=
  match c with
  | (0%nat, z) =>
      Some (if z =? 0 then KmemLock else if z =? 1 then PidLock else if z =? 2 then WaitLock
      else if z =? 3 then TicksLock else if z =? 4 then BcacheLock else if z =? 5 then LogLock
      else if z =? 6 then ItableLock else if z =? 7 then FtableLock else if z =? 8 then ConsLock
      else if z =? 9 then UartLock else if z =? 10 then PrLock else VdiskLock)
  | (1%nat, z) => Some (ProcLock (Z.to_nat z))
  | (2%nat, z) => Some (BufLk (Z.to_nat z))
  | (3%nat, z) => Some (InodeLk (Z.to_nat z))
  | (_, z) => Some (PipeLock z)
  end.

#[global] Instance lockid_countable : Countable lockid.
Proof.
  apply (inj_countable lockid_code lockid_decode).
  intros []; simpl; try done; by rewrite Nat2Z.id.
Defined.

Record hw := mkHw {
  hw_tp : nat;
  hw_sstatus : Z;
  hw_cpus : list cpu;
  hw_locks : gmap lockid spinlock }.

Definition set_sstatus (x : Z) (h : hw) : hw := mkHw (hw_tp h) x (hw_cpus h) (hw_locks h).
Definition set_cpus (x : list cpu) (h : hw) : hw := mkHw (hw_tp h) (hw_sstatus h) x (hw_locks h).
Definition set_locks (x : gmap lockid spinlock) (h : hw) : hw :=
  mkHw (hw_tp h) (hw_sstatus h) (hw_cpus h) x.

Definition set_noff (n : Z) (c : cpu) : cpu := mkCpu (cpu_proc c) n (cpu_intena c).
Definition set_intena (n : Z) (c : cpu) : cpu := mkCpu (cpu_proc c) (cpu_noff c) n.
Definition set_cproc (p : option nat) (c : cpu) : cpu := mkCpu p (cpu_noff c) (cpu_intena c).

Arguments set_sstatus x h /.
Arguments set_cpus x h /.
Arguments set_locks x h /.
Arguments set_noff n c /.
Arguments set_intena n c /.
Arguments set_cproc p c /.

Definition lock_at (h : hw) (lk : lockid) : spinlock :=
  default (mkSpinlock 0 "" None) (hw_locks h !! lk).

(** ** kernel/riscv.h: interrupt enable *)

Definition intr_on : M hw unit :=
  modify (fun h => set_sstatus (Z.lor (hw_sstatus h) SSTATUS_SIE) h).
Definition intr_off : M hw unit :=
  modify (fun h => set_sstatus (Z.land (hw_sstatus h) (u64 (Z.lnot SSTATUS_SIE))) h).
Definition intr_enabled (h : hw) : bool := truthy (Z.land (hw_sstatus h) SSTATUS_SIE).
Definition intr_get : M hw Z := gets (fun h => b2z (intr_enabled h)).

(** ** kernel/proc.c: cpuid, mycpu *)

Definition cpuid : M hw nat := gets hw_tp.
(** [mycpu] is the address of an entry of [cpus]: its index. *)
Definition mycpu : M hw nat := cpuid.
Definition cpu_at (h : hw) (i : nat) : cpu := default cpu0 (hw_cpus h !! i).
Definition upd_cpu (i : nat) (f : cpu -> cpu) : M hw unit :=
  modify (fun h => set_cpus (<[i := f (cpu_at h i)]> (hw_cpus h)) h).

(** ** kernel/spinlock.c *)

Definition initlock (lk : lockid) (name : string) : M hw unit :=
  modify (fun h => set_locks (<[lk := mkSpinlock 0 name None]> (hw_locks h)) h).

Definition holding (lk : lockid) : M hw bool :=
  let* c := mycpu in
  gets (fun h => truthy (sl_locked (lock_at h lk)) && bool_decide (sl_cpu (lock_at h lk) = Some c)).

Definition push_off : M hw unit :=
  let* old := intr_get in
  intr_off ;;;
  let* c := mycpu in
  let* noff := gets (fun h => cpu_noff (cpu_at h c)) in
  when (noff =? 0) (upd_cpu c (set_intena old)) ;;;
  upd_cpu c (fun x => set_noff (i32 (cpu_noff x + 1)) x).

Definition pop_off : M hw unit :=
  let* c := mycpu in
  let* en := intr_get in
  if truthy en then panic "pop_off - interruptible" else
  let* noff := gets (fun h => cpu_noff (cpu_at h c)) in
  if noff <? 1 then panic "pop_off" else
  upd_cpu c (fun x => set_noff (i32 (cpu_noff x - 1)) x) ;;;
  let* x := gets (fun h => cpu_at h c) in
  when ((cpu_noff x =? 0) && truthy (cpu_intena x)) intr_on.

Definition set_lock (lk : lockid) (f : spinlock -> spinlock) : M hw unit :=
  modify (fun h => set_locks (<[lk := f (lock_at h lk)]> (hw_locks h)) h).

(** The [__sync_lock_test_and_set] loop: with the lock held by another hart
    this hart spins. *)
Definition acquire (lk : lockid) : M hw unit :=
  push_off ;;;
  let* hd := holding lk in
  if hd : bool then panic "acquire" else
  let* was := gets (fun h => sl_locked (lock_at h lk)) in
  if truthy was then spin else
  set_lock lk (fun l => mkSpinlock 1 (sl_name l) (sl_cpu l)) ;;;
  let* c := mycpu in
  set_lock lk (fun l => mkSpinlock (sl_locked l) (sl_name l) (Some c)).

Definition release (lk : lockid) : M hw unit :=
  let* hd := holding lk in
  if negb hd then panic "release" else
  set_lock lk (fun l => mkSpinlock (sl_locked l) (sl_name l) None) ;;;
  set_lock lk (fun l => mkSpinlock 0 (sl_name l) (sl_cpu l)) ;;;
  pop_off.

Arguments intr_on h /.
Arguments intr_off h /.
Arguments intr_get h /.
Arguments cpuid h /.
Arguments mycpu h /.
Arguments upd_cpu i f h /.
Arguments set_lock lk f h /.
Arguments holding lk h /.

(** ** Invariant *)

Definition my (h : hw) : cpu := cpu_at h (hw_tp h).

(** This hart's interrupt-nesting state is consistent: inside any [push_off]
    interrupts are off; and at least [k] more [push_off]s can nest before the
    [int] counter overflows. *)
Record hw_ok (k : nat) (h : hw) : Prop := {
  hwo_tp : (hw_tp h < length (hw_cpus h))%nat;
  hwo_sstatus : 0 <= hw_sstatus h < 2^64;
  hwo_noff : 0 <= cpu_noff (my h);
  hwo_room : cpu_noff (my h) + Z.of_nat k < 2^31;
  hwo_off : 0 < cpu_noff (my h) -> intr_enabled h = false }.

(** The lock exists and nobody holds it. *)
Definition lock_free (h : hw) (lk : lockid) : Prop :=
  exists name, hw_locks h !! lk = Some (mkSpinlock 0 name None).

(** ** Interrupt bit *)

Lemma SIE_val : SSTATUS_SIE = 2^1. Proof. done. Qed.

Lemma intr_enabled_bit h : intr_enabled h = Z.testbit (hw_sstatus h) 1.
Proof.
  unfold intr_enabled. rewrite SIE_val, land_bit_mod by lia.
  rewrite <- Z.testbit_spec' by lia.
  unfold truthy. destruct (Z.testbit (hw_sstatus h) 1); done.
Qed.

Lemma sie_off_testbit x i : 0 <= x < 2^64 -> 0 <= i ->
  Z.testbit (Z.land x (u64 (Z.lnot SSTATUS_SIE))) i = negb (i =? 1) && Z.testbit x i.
Proof.
  intros Hx Hi. replace (u64 (Z.lnot SSTATUS_SIE)) with (Z.ldiff (Z.ones 64) 2) by done.
  rewrite Z.land_spec, Z.ldiff_spec, Z.testbit_ones_nonneg by lia.
  change 2 with (2^1). rewrite Z.pow2_bits_eqb by lia.
  destruct (Z.eqb_spec 1 i), (Z.eqb_spec i 1); try lia; simpl.
  destruct (Z.ltb_spec i 64); [apply andb_true_r |].
  rewrite (testbit_small x 64) by lia. done.
Qed.

Lemma sie_off_range x : 0 <= x < 2^64 -> 0 <= Z.land x (u64 (Z.lnot SSTATUS_SIE)) < 2^64.
Proof.
  intros. split; [apply Z.land_nonneg; lia |].
  destruct (Z.eq_dec (Z.land x (u64 (Z.lnot SSTATUS_SIE))) 0) as [-> |]; [lia |].
  apply Z.log2_lt_pow2; [pose proof (Z.land_nonneg x (u64 (Z.lnot SSTATUS_SIE))); lia |].
  eapply Z.le_lt_trans; [apply Z.log2_land; [lia | pose proof (u64_range (Z.lnot SSTATUS_SIE)); lia] |].
  apply Z.min_lt_iff. right. reflexivity.
Qed.

Lemma sie_on_off x : 0 <= x < 2^64 -> Z.testbit x 1 = true ->
  Z.lor (Z.land x (u64 (Z.lnot SSTATUS_SIE))) SSTATUS_SIE = x.
Proof.
  intros Hx Ht. apply Z.bits_inj'. intros i Hi.
  rewrite Z.lor_spec, sie_off_testbit, SIE_val, Z.pow2_bits_eqb by lia.
  destruct (Z.eqb_spec 1 i) as [<- |]; [by rewrite orb_true_r, Ht |].
  rewrite orb_false_r. destruct (Z.eqb_spec i 1); [lia | done].
Qed.

Lemma sie_off_id x : 0 <= x < 2^64 -> Z.testbit x 1 = false ->
  Z.land x (u64 (Z.lnot SSTATUS_SIE)) = x.
Proof.
  intros Hx Ht. apply Z.bits_inj'. intros i Hi. rewrite sie_off_testbit by lia.
  destruct (Z.eqb_spec i 1) as [-> |]; [by rewrite Ht | done].
Qed.

(** ** push_off and pop_off *)

(** What [intena] records when the nesting count leaves 0. *)
Definition saved_intena (h : hw) : Z :=
  if cpu_noff (my h) =? 0 then b2z (intr_enabled h) else cpu_intena (my h).

Definition pushed (h : hw) : hw :=
  mkHw (hw_tp h) (Z.land (hw_sstatus h) (u64 (Z.lnot SSTATUS_SIE)))
    (<[hw_tp h := mkCpu (cpu_proc (my h)) (cpu_noff (my h) + 1) (saved_intena h)]> (hw_cpus h))
    (hw_locks h).

(** A balanced [push_off]/[pop_off] leaves everything but [intena] unchanged. *)
Definition hw_cycle (h : hw) : hw :=
  set_cpus (<[hw_tp h := set_intena (saved_intena h) (my h)]> (hw_cpus h)) h.

Lemma cpu_at_insert l n s lks i x : (i < length l)%nat ->
  cpu_at (mkHw n s (<[i := x]> l) lks) i = x.
Proof. intros. unfold cpu_at. simpl. rewrite list_lookup_insert_eq by done. done. Qed.

Lemma cpu_at_eq n n' s s' l lks lks' i : cpu_at (mkHw n s l lks) i = cpu_at (mkHw n' s' l lks') i.
Proof. done. Qed.

Lemma push_off_ok k h : hw_ok (S k) h -> push_off h = Ok tt (pushed h).
Proof.
  destruct h as [tp ss cpus lks]. intros [Ht Hs Hn Hr Ho].
  unfold push_off, pushed, saved_intena, my in *. simpl in *.
  rewrite !(cpu_at_eq tp tp (Z.land _ _) ss cpus lks lks).
  set (c := cpu_at (mkHw tp ss cpus lks) tp) in *. simpl in Hn, Hr.
  destruct (Z.eqb_spec (cpu_noff c) 0); simpl.
  - rewrite cpu_at_insert, list_insert_insert_eq by done. simpl.
    rewrite !(cpu_at_eq tp tp (Z.land _ _) ss cpus lks lks). fold c.
    by rewrite i32_small by lia.
  - rewrite !(cpu_at_eq tp tp (Z.land _ _) ss cpus lks lks). fold c.
    by rewrite i32_small by lia.
Qed.

Lemma pushed_disabled k h : hw_ok k h -> intr_enabled (pushed h) = false.
Proof.
  intros H. rewrite intr_enabled_bit. unfold pushed. cbn [hw_sstatus].
  rewrite sie_off_testbit by (lia || apply H). done.
Qed.

Lemma my_pushed k h : hw_ok k h ->
  my (pushed h) = mkCpu (cpu_proc (my h)) (cpu_noff (my h) + 1) (saved_intena h).
Proof. intros H. apply cpu_at_insert. apply H. Qed.

Lemma hw_ok_pushed k h : hw_ok (S k) h -> hw_ok k (pushed h).
Proof.
  intros H. pose proof (my_pushed _ _ H) as Hm. constructor.
  - simpl. rewrite length_insert. apply H.
  - apply sie_off_range, H.
  - rewrite Hm. simpl. pose proof (hwo_noff _ _ H). lia.
  - rewrite Hm. simpl. pose proof (hwo_room _ _ H). lia.
  - intros _. eapply pushed_disabled, H.
Qed.

Definition popped (h : hw) : hw :=
  mkHw (hw_tp h)
    (if (cpu_noff (my h) =? 1) && truthy (cpu_intena (my h))
     then Z.lor (hw_sstatus h) SSTATUS_SIE else hw_sstatus h)
    (<[hw_tp h := set_noff (cpu_noff (my h) - 1) (my h)]> (hw_cpus h))
    (hw_locks h).

Lemma pop_off_ok h : (hw_tp h < length (hw_cpus h))%nat -> intr_enabled h = false ->
  1 <= cpu_noff (my h) < 2^31 -> pop_off h = Ok tt (popped h).
Proof.
  destruct h as [tp ss cpus lks]. unfold popped, my. simpl. intros Ht Hi Hn.
  unfold pop_off. simpl. rewrite Hi. simpl.
  set (c := cpu_at (mkHw tp ss cpus lks) tp) in *.
  destruct (Z.ltb_spec (cpu_noff c) 1); [lia |]. simpl. fold c.
  rewrite cpu_at_insert by done. simpl. rewrite i32_small by lia.
  destruct (Z.eqb_spec (cpu_noff c - 1) 0), (Z.eqb_spec (cpu_noff c) 1); try lia; simpl; [| done].
  destruct (truthy (cpu_intena c)); done.
Qed.

Lemma popped_pushed k h : hw_ok (S k) h -> popped (pushed h) = hw_cycle h.
Proof.
  intros H. pose proof (my_pushed _ _ H) as Hm. pose proof H as [Ht Hs Hn Hr Ho].
  unfold popped. rewrite Hm. unfold hw_cycle, pushed. simpl.
  rewrite list_insert_insert_eq. replace (cpu_noff (my h) + 1 - 1) with (cpu_noff (my h)) by lia.
  f_equal. unfold saved_intena.
  destruct (Z.eqb_spec (cpu_noff (my h)) 0) as [Hz | Hnz],
    (Z.eqb_spec (cpu_noff (my h) + 1) 1) as [? | ?]; try lia; cbn [andb].
  - rewrite intr_enabled_bit. destruct (Z.testbit (hw_sstatus h) 1) eqn:Ht1; cbn [b2z truthy negb].
    + by apply sie_on_off.
    + by apply sie_off_id.
  - apply sie_off_id; [done |]. rewrite <- intr_enabled_bit. apply Ho. lia.
Qed.

Lemma popped_locks lks h : popped (set_locks lks h) = set_locks lks (popped h).
Proof. done. Qed.

Lemma pop_off_pushed k h lks : hw_ok (S k) h ->
  pop_off (set_locks lks (pushed h)) = Ok tt (set_locks lks (hw_cycle h)).
Proof.
  intros H. pose proof (my_pushed _ _ H) as Hm. rewrite pop_off_ok.
  - rewrite popped_locks. by erewrite popped_pushed.
  - simpl. rewrite length_insert. apply H.
  - eapply (pushed_disabled _ _ H).
  - unfold my in *. simpl in Hm |- *.
    change (cpu_at (mkHw _ _ _ lks) (hw_tp h)) with (cpu_at (pushed h) (hw_tp h)).
    rewrite Hm. simpl. pose proof (hwo_noff _ _ H). pose proof (hwo_room _ _ H). unfold my in *. lia.
Qed.

(** ** acquire and release *)

Definition acquired (lk : lockid) (h : hw) : hw :=
  set_locks (<[lk := mkSpinlock 1 (sl_name (lock_at h lk)) (Some (hw_tp h))]> (hw_locks h)) (pushed h).

Lemma lock_at_insert tp ss cs m lk l : lock_at (mkHw tp ss cs (<[lk := l]> m)) lk = l.
Proof. unfold lock_at. simpl. rewrite lookup_insert_eq. done. Qed.

Lemma acquire_ok k h lk : hw_ok (S k) h -> lock_free h lk ->
  acquire lk h = Ok tt (acquired lk h).
Proof.
  intros H [name Hl]. unfold acquire. erewrite bind_ok by (by eapply push_off_ok).
  assert (Ha : lock_at (pushed h) lk = mkSpinlock 0 name None).
  { unfold lock_at. simpl. by rewrite Hl. }
  simpl. rewrite Ha. simpl. rewrite Ha. simpl. rewrite lock_at_insert. simpl.
  unfold acquired. simpl. rewrite insert_insert_eq. done.
Qed.

Lemma release_ok k h lk : hw_ok (S k) h -> lock_free h lk ->
  release lk (acquired lk h) = Ok tt (hw_cycle h).
Proof.
  intros H [name Hl]. unfold release.
  assert (Ha : lock_at (acquired lk h) lk = mkSpinlock 1 name (Some (hw_tp h))).
  { unfold acquired. simpl. rewrite lock_at_insert. unfold lock_at. by rewrite Hl. }
  simpl. rewrite Ha. simpl. rewrite bool_decide_eq_true_2 by done. simpl.
  rewrite Ha, lock_at_insert. simpl. rewrite !insert_insert_eq, (insert_id (hw_locks h)) by done.
  exact (pop_off_pushed k h (hw_locks h) H).
Qed.

(** [release] in any order, of any lock this hart holds. *)
Definition lock_mine (h : hw) (lk : lockid) : Prop :=
  exists name, hw_locks h !! lk = Some (mkSpinlock 1 name (Some (hw_tp h))).

Definition released (lk : lockid) (h : hw) : hw :=
  set_locks (<[lk := mkSpinlock 0 (sl_name (lock_at h lk)) None]> (hw_locks h)) (popped h).

Lemma release_held h lk : lock_mine h lk -> (hw_tp h < length (hw_cpus h))%nat ->
  intr_enabled h = false -> 1 <= cpu_noff (my h) < 2^31 -> release lk h = Ok tt (released lk h).
Proof.
  intros [name Hl] Ht Hi Hn. unfold release.
  assert (Ha : lock_at h lk = mkSpinlock 1 name (Some (hw_tp h))).
  { unfold lock_at. by rewrite Hl. }
  simpl. rewrite Ha. simpl. rewrite bool_decide_eq_true_2 by done. simpl.
  rewrite Ha, lock_at_insert. simpl. rewrite insert_insert_eq.
  unfold released. rewrite Ha, <- popped_locks. by apply pop_off_ok.
Qed.

Lemma my_cycle k h : hw_ok k h -> my (hw_cycle h) = set_intena (saved_intena h) (my h).
Proof. intros H. apply cpu_at_insert, H. Qed.

Lemma hw_ok_cycle k h : hw_ok k h -> hw_ok k (hw_cycle h).
Proof.
  intros H. pose proof (my_cycle _ _ H) as Hm. constructor.
  - simpl. rewrite length_insert. apply H.
  - apply H.
  - rewrite Hm. simpl. apply H.
  - rewrite Hm. simpl. apply H.
  - rewrite Hm. simpl. apply H.
Qed.

Lemma saved_intena_cycle k h : hw_ok k h -> saved_intena (hw_cycle h) = saved_intena h.
Proof.
  intros H. unfold saved_intena at 1. rewrite (my_cycle _ _ H). simpl.
  unfold saved_intena. destruct (cpu_noff (my h) =? 0); done.
Qed.

Lemma hw_cycle_idem k h : hw_ok k h -> hw_cycle (hw_cycle h) = hw_cycle h.
Proof.
  intros H. unfold hw_cycle at 1. rewrite (my_cycle _ _ H), (saved_intena_cycle _ _ H).
  unfold hw_cycle. simpl. by rewrite list_insert_insert_eq.
Qed.

(** Inside a critical section a nested balanced section changes nothing. *)
Lemma hw_cycle_nested k h : hw_ok k h -> 0 < cpu_noff (my h) -> hw_cycle h = h.
Proof.
  intros H Hn. unfold hw_cycle, saved_intena. destruct (Z.eqb_spec (cpu_noff (my h)) 0); [lia |].
  pose proof (hwo_tp _ _ H). unfold my, cpu_at.
  destruct (hw_cpus h !! hw_tp h) as [c |] eqn:E.
  - simpl. replace (mkCpu (cpu_proc c) (cpu_noff c) (cpu_intena c)) with c by (by destruct c).
    rewrite list_insert_id by done. by destruct h.
  - apply lookup_ge_None in E. lia.
Qed.

Lemma lock_free_cycle h lk : lock_free (hw_cycle h) lk <-> lock_free h lk.
Proof. done. Qed.

Lemma lock_free_acquired h lk lk' : lk <> lk' -> lock_free h lk' -> lock_free (acquired lk h) lk'.
Proof. intros Hne [n Hl]. exists n. simpl. by rewrite lookup_insert_ne. Qed.

Lemma hw_ok_acquired k h lk : hw_ok (S k) h -> hw_ok k (acquired lk h).
Proof. intros H%hw_ok_pushed. destruct H. by constructor. Qed.

Lemma hw_ok_mono k k' h : (k' <= k)%nat -> hw_ok k h -> hw_ok k' h.
Proof. intros Hk []. constructor; try done. lia. Qed.

#[export] Hint Resolve hw_ok_cycle hw_ok_acquired : kernel.

(** Keep these folded when stepping through code. *)
#[global] Arguments hw_cycle h : simpl never.
#[global] Arguments pushed h : simpl never.
#[global] Arguments popped h : simpl never.
#[global] Arguments my h : simpl never.
#[global] Arguments saved_intena h : simpl never.

(** ** The same code on several harts

    One lock shared by any number of harts, each of which repeatedly acquires
    it, is in its critical section for a while, and releases it. A step of a
    hart is at most one access to the shared [struct spinlock]; the rest of
    what it does touches only its own registers and its own entry of [cpus], so
    [push_off] and [pop_off] are the sequential code, run on the hart's view of
    the machine. *)

Module SMP.

(** Where a hart is in [acquire] and [release]; [AHold1]/[AHold2] and
    [RHold1]/[RHold2] are the two reads of [holding]. *)
Inductive pc :=
| Idle | AHold1 | AHold2 | ASwap | ASetCpu | Crit | RHold1 | RHold2 | RClrCpu | RUnlock | RPop
| Panicked (msg : string).

#[global] Instance pc_eq_dec : EqDecision pc.
Proof. solve_decision. Defined.

Record smp := mkSmp {
  g_pc : list pc;          (** one per hart *)
  g_sstatus : list Z;      (** one per hart *)
  g_cpus : list cpu;
  g_lock : spinlock }.

Definition pc_at (g : smp) (i : nat) : pc := default Idle (g_pc g !! i).

Section Steps.
Context (lk : lockid).

(** What hart [i] sees of the machine. *)
Definition view (i : nat) (g : smp) : hw :=
  mkHw i (default 0 (g_sstatus g !! i)) (g_cpus g) {[lk := g_lock g]}.

(** The effect on the whole machine of hart [i] running sequential code. *)
Definition unview (i : nat) (p : pc) (h : hw) (g : smp) : smp :=
  mkSmp (<[i := p]> (g_pc g)) (<[i := hw_sstatus h]> (g_sstatus g)) (hw_cpus h) (lock_at h lk).

Definition goto (i : nat) (p : pc) (g : smp) : smp :=
  mkSmp (<[i := p]> (g_pc g)) (g_sstatus g) (g_cpus g) (g_lock g).
Definition goto_lock (i : nat) (p : pc) (l : spinlock) (g : smp) : smp :=
  mkSmp (<[i := p]> (g_pc g)) (g_sstatus g) (g_cpus g) l.

Definition local (i : nat) (p : pc) (m : M hw unit) (g : smp) : option smp :=
  match m (view i g) with
  | Ok _ h => Some (unview i p h g)
  | Panic msg h => Some (unview i (Panicked msg) h g)
  | _ => None
  end.

Definition step (i : nat) (g : smp) : option smp :=
  let l := g_lock g in
  match g_pc g !! i with
  | None | Some (Panicked _) => None
  | Some Idle => local i AHold1 push_off g
  | Some AHold1 => Some (goto i (if truthy (sl_locked l) then AHold2 else ASwap) g)
  | Some AHold2 =>
      Some (goto i (if bool_decide (sl_cpu l = Some i) then Panicked "acquire" else ASwap) g)
  | Some ASwap =>
      Some (goto_lock i (if truthy (sl_locked l) then ASwap else ASetCpu)
              (mkSpinlock 1 (sl_name l) (sl_cpu l)) g)
  | Some ASetCpu => Some (goto_lock i Crit (mkSpinlock (sl_locked l) (sl_name l) (Some i)) g)
  | Some Crit => Some (goto i RHold1 g)
  | Some RHold1 =>
      Some (goto i (if truthy (sl_locked l) then RHold2 else Panicked "release") g)
  | Some RHold2 =>
      Some (goto i (if bool_decide (sl_cpu l = Some i) then RClrCpu else Panicked "release") g)
  | Some RClrCpu => Some (goto_lock i RUnlock (mkSpinlock (sl_locked l) (sl_name l) None) g)
  | Some RUnlock => Some (goto_lock i RPop (mkSpinlock 0 (sl_name l) (sl_cpu l)) g)
  | Some RPop => local i Idle pop_off g
  end.

(** Harts interleave arbitrarily. *)
Inductive reach : smp -> smp -> Prop :=
| reach_refl g : reach g g
| reach_step g g' g'' i : reach g g' -> step i g' = Some g'' -> reach g g''.

(** A given schedule. *)
Fixpoint run (sched : list nat) (g : smp) : option smp :=
  match sched with
  | [] => Some g
  | i :: sched => match step i g with Some g' => run sched g' | None => None end
  end.

(** [n] harts that have not touched the lock. *)
Definition init (ss : list Z) (cs : list cpu) (name : string) : smp :=
  mkSmp (replicate (length ss) Idle) ss cs (mkSpinlock 0 name None).

(** *** Invariant *)

Definition holder (p : pc) : bool :=
  match p with ASetCpu | Crit | RHold1 | RHold2 | RClrCpu | RUnlock => true | _ => false end.
Definition owner (p : pc) : bool :=
  match p with Crit | RHold1 | RHold2 | RClrCpu => true | _ => false end.
Definition panicked (p : pc) : bool :=
  match p with Panicked _ => true | _ => false end.

(** The lock word says exactly whether some hart holds it, and its [cpu] field
    exactly which, from the store that sets it to the one that clears it. *)
Record lock_inv (g : smp) : Prop := {
  li_holder : forall i j, holder (pc_at g i) = true -> holder (pc_at g j) = true -> i = j;
  li_locked : sl_locked (g_lock g) = 0 \/ sl_locked (g_lock g) = 1;
  li_word : sl_locked (g_lock g) = 1 <-> exists i, holder (pc_at g i) = true;
  li_cpu : forall i, sl_cpu (g_lock g) = Some i <-> owner (pc_at g i) = true;
  li_panic : forall i, panicked (pc_at g i) = false }.

(** Each hart's interrupts are off exactly while it is inside [acquire] ...
    [release], with the enable bit it came with waiting to be restored. *)
Definition hart_inv (ss : list Z) (g : smp) : Prop :=
  length (g_pc g) = length ss /\ length (g_sstatus g) = length ss /\
  (length ss <= length (g_cpus g))%nat /\
  forall i, (i < length ss)%nat ->
    if bool_decide (pc_at g i = Idle)
    then g_sstatus g !! i = ss !! i /\ cpu_noff (my (view i g)) = 0
    else hw_sstatus (view i g) = Z.land (default 0 (ss !! i)) (u64 (Z.lnot SSTATUS_SIE)) /\
         cpu_noff (my (view i g)) = 1 /\
         cpu_intena (my (view i g)) = b2z (truthy (Z.land (default 0 (ss !! i)) SSTATUS_SIE)).

(** *** The lock word *)

Lemma pc_at_insert ps ss cs l i j p : (i < length ps)%nat ->
  pc_at (mkSmp (<[i := p]> ps) ss cs l) j = if decide (i = j) then p else pc_at (mkSmp ps ss cs l) j.
Proof.
  intros Hi. unfold pc_at. simpl. case_decide as E.
  - subst. by rewrite list_lookup_insert_eq.
  - by rewrite list_lookup_insert_ne.
Qed.

(** A step of hart [i] from [p] to [q] that changes the lock from [l] to [l']
    keeps [lock_inv] when it changes lock and hart consistently. *)
Lemma lock_inv_move ps ss cs l ss' cs' l' i p q :
  ps !! i = Some p -> lock_inv (mkSmp ps ss cs l) -> panicked q = false ->
  (holder q = holder p /\ sl_locked l' = sl_locked l \/
   holder q = true /\ sl_locked l = 0 /\ sl_locked l' = 1 \/
   holder p = true /\ holder q = false /\ sl_locked l' = 0) ->
  (owner q = owner p /\ sl_cpu l' = sl_cpu l \/
   holder p = true /\ owner p = false /\ owner q = true /\ sl_cpu l' = Some i \/
   owner p = true /\ owner q = false /\ sl_cpu l' = None) ->
  lock_inv (mkSmp (<[i := q]> ps) ss' cs' l').
Proof.
  intros Hp [Hh Hl Hw Hc Hn] Hq Hlk Hcpu. pose proof (lookup_lt_Some _ _ _ Hp) as Hi.
  assert (Hpi : forall ss cs l, pc_at (mkSmp ps ss cs l) i = p).
  { intros. unfold pc_at. simpl. by rewrite Hp. }
  assert (Hpc : forall j, pc_at (mkSmp (<[i := q]> ps) ss' cs' l') j =
    if decide (i = j) then q else pc_at (mkSmp ps ss cs l) j).
  { intros j. rewrite pc_at_insert by done. done. }
  assert (Hoh : forall r, owner r = true -> holder r = true) by (by intros []).
  simpl in *. constructor; simpl.
  - intros j k. rewrite !Hpc. repeat case_decide; subst; try done; intros Hj Hk.
    + destruct Hlk as [[? ?] | [[? [? ?]] | [? [? ?]]]]; [apply Hh; congruence | | congruence].
      assert (sl_locked l = 1) by (apply Hw; eauto). lia.
    + destruct Hlk as [[? ?] | [[? [? ?]] | [? [? ?]]]]; [apply Hh; congruence | | congruence].
      assert (sl_locked l = 1) by (apply Hw; eauto). lia.
    + auto.
  - lia.
  - destruct Hlk as [[? ->] | [[? [? ->]] | [? [? ->]]]].
    + rewrite Hw. split; intros [j Hj]; exists j; revert Hj; rewrite Hpc; case_decide; subst;
        rewrite ?Hpi; congruence.
    + split; [| done]. intros _. exists i. rewrite Hpc. by rewrite decide_True.
    + split; [done |]. intros [j Hj]. rewrite Hpc in Hj. case_decide; [congruence |].
      assert (i = j) by (apply Hh; [by rewrite Hpi | done]). done.
  - intros j. rewrite Hpc. destruct Hcpu as [[? ->] | [[? [? [? ->]]] | [? [? ->]]]].
    + rewrite Hc. case_decide; subst; rewrite ?Hpi; [by replace (owner q) with (owner p) | done].
    + case_decide; [subst; split; congruence |]. split; [congruence |]. intros Ho.
      assert (i = j) by (apply Hh; [by rewrite Hpi | auto]). done.
    + case_decide; [subst; split; congruence |]. split; [done |]. intros Ho.
      assert (i = j) by (apply Hh; [rewrite Hpi |]; auto). done.
  - intros j. rewrite Hpc. by case_decide.
Qed.

Lemma pc_at_lookup g i p : g_pc g !! i = Some p -> pc_at g i = p.
Proof. intros H. unfold pc_at. by rewrite H. Qed.

Lemma hart_lookup ss g i : hart_inv ss g -> (i < length ss)%nat ->
  g_pc g !! i = Some (pc_at g i).
Proof.
  intros (Hl & _) Hi. unfold pc_at. destruct (g_pc g !! i) eqn:E; [done |].
  apply lookup_ge_None in E. lia.
Qed.

Lemma lock_at_view i g : lock_at (view i g) lk = g_lock g.
Proof. unfold lock_at. simpl. by rewrite lookup_singleton_eq. Qed.

Lemma my_view_insert i j g ps ss l c : (i < length (g_cpus g))%nat ->
  my (view j (mkSmp ps ss (<[i := c]> (g_cpus g)) l)) = if decide (i = j) then c else my (view j g).
Proof.
  intros Hi. unfold my, cpu_at. simpl. case_decide.
  - subst. by rewrite list_lookup_insert_eq.
  - by rewrite list_lookup_insert_ne.
Qed.

(** *** Interrupt state of the harts *)

Section Harts.
Context (ss : list Z) (Hss : Forall (fun x => 0 <= x < 2^64) ss).

Lemma ss_range i : 0 <= default 0 (ss !! i) < 2^64.
Proof.
  destruct (ss !! i) eqn:E; simpl; [| lia].
  by apply (Forall_lookup_1 _ _ _ _ Hss E).
Qed.

Lemma hart_idle_ok g i : hart_inv ss g -> (i < length ss)%nat -> pc_at g i = Idle ->
  hw_ok 1 (view i g) /\ hw_sstatus (view i g) = default 0 (ss !! i) /\ cpu_noff (my (view i g)) = 0.
Proof.
  intros (Hl & Hl' & Hlc & H) Hi Hp. specialize (H i Hi).
  rewrite bool_decide_eq_true_2 in H by done. destruct H as [Hs Hn].
  split; [| split; [| done]]; [| simpl; by rewrite Hs].
  pose proof (ss_range i). constructor; simpl; try lia. by rewrite Hs.
Qed.

Lemma hart_busy_off g i : hart_inv ss g -> (i < length ss)%nat -> pc_at g i <> Idle ->
  intr_enabled (view i g) = false /\ cpu_noff (my (view i g)) = 1 /\
  cpu_intena (my (view i g)) = b2z (truthy (Z.land (default 0 (ss !! i)) SSTATUS_SIE)) /\
  hw_sstatus (view i g) = Z.land (default 0 (ss !! i)) (u64 (Z.lnot SSTATUS_SIE)).
Proof.
  intros (Hl & Hl' & Hlc & H) Hi Hp. specialize (H i Hi).
  rewrite bool_decide_eq_false_2 in H by done. destruct H as (Hs & Hn & Hia).
  split_and!; try done. rewrite intr_enabled_bit, Hs, sie_off_testbit by (apply ss_range || lia).
  done.
Qed.

(** Moving between two points inside acquire ... release. *)
Lemma hart_inv_move g i p q l : hart_inv ss g -> g_pc g !! i = Some p -> p <> Idle -> q <> Idle ->
  hart_inv ss (mkSmp (<[i := q]> (g_pc g)) (g_sstatus g) (g_cpus g) l).
Proof.
  intros (Hl & Hl' & Hlc & H) Hp Hpi Hqi. split_and!; simpl; try done.
  { by rewrite length_insert. }
  intros j Hj. specialize (H j Hj). rewrite pc_at_insert by (eapply lookup_lt_Some, Hp).
  destruct (decide (i = j)); [subst | exact H]. rewrite (pc_at_lookup _ _ _ Hp) in H.
  rewrite bool_decide_eq_false_2 in H by done. by rewrite bool_decide_eq_false_2.
Qed.

Lemma hart_inv_local g i p h l : hart_inv ss g -> (i < length ss)%nat ->
  (exists c, hw_cpus h = <[i := c]> (g_cpus g)) ->
  (if bool_decide (p = Idle)
   then Some (hw_sstatus h) = ss !! i /\ cpu_noff (cpu_at h i) = 0
   else hw_sstatus h = Z.land (default 0 (ss !! i)) (u64 (Z.lnot SSTATUS_SIE)) /\
        cpu_noff (cpu_at h i) = 1 /\
        cpu_intena (cpu_at h i) = b2z (truthy (Z.land (default 0 (ss !! i)) SSTATUS_SIE))) ->
  hart_inv ss (mkSmp (<[i := p]> (g_pc g)) (<[i := hw_sstatus h]> (g_sstatus g)) (hw_cpus h) l).
Proof.
  intros (Hl & Hl' & Hlc & H) Hi [c Hc] Hnew. unfold cpu_at in Hnew. rewrite Hc in *.
  rewrite list_lookup_insert_eq in Hnew by lia. simpl in Hnew.
  split_and!; simpl; rewrite ?length_insert; try done.
  intros j Hj. specialize (H j Hj). rewrite pc_at_insert, my_view_insert by lia.
  destruct (decide (i = j)) as [<- | Hne].
  - rewrite list_lookup_insert_eq by lia. exact Hnew.
  - rewrite list_lookup_insert_ne by done. exact H.
Qed.

Lemma push_step g i : hart_inv ss g -> g_pc g !! i = Some Idle ->
  exists h, push_off (view i g) = Ok tt h /\ lock_at h lk = g_lock g /\
    hart_inv ss (mkSmp (<[i := AHold1]> (g_pc g)) (<[i := hw_sstatus h]> (g_sstatus g)) (hw_cpus h)
      (lock_at h lk)).
Proof.
  intros Hg Hp. pose proof (lookup_lt_Some _ _ _ Hp) as Hi. pose proof (proj1 Hg) as Hlen.
  rewrite Hlen in Hi. destruct (hart_idle_ok g i Hg Hi (pc_at_lookup _ _ _ Hp)) as (Hok & Hs & Hn).
  exists (pushed (view i g)). split; [by eapply push_off_ok |]. split; [apply lock_at_view |].
  apply hart_inv_local; [done | done | by eexists |]. rewrite bool_decide_eq_false_2 by done.
  change (cpu_at (pushed (view i g)) i) with (my (pushed (view i g))).
  rewrite (my_pushed _ _ Hok). unfold pushed, saved_intena.
  cbn [hw_sstatus cpu_noff cpu_intena]. rewrite Hn. unfold intr_enabled. rewrite Hs. done.
Qed.

Lemma pop_step g i : hart_inv ss g -> g_pc g !! i = Some RPop ->
  exists h, pop_off (view i g) = Ok tt h /\ lock_at h lk = g_lock g /\
    hart_inv ss (mkSmp (<[i := Idle]> (g_pc g)) (<[i := hw_sstatus h]> (g_sstatus g)) (hw_cpus h)
      (lock_at h lk)).
Proof.
  intros Hg Hp. pose proof (lookup_lt_Some _ _ _ Hp) as Hi. pose proof Hg as (Hlen & _ & Hlc & _).
  rewrite Hlen in Hi. destruct (hart_busy_off g i Hg Hi) as (Hoff & Hn & Hia & Hs).
  { by rewrite (pc_at_lookup _ _ _ Hp). }
  exists (popped (view i g)). split; [apply pop_off_ok; [simpl; lia | done | lia] |].
  split; [apply lock_at_view |].
  apply hart_inv_local; [done | done | by eexists |]. rewrite bool_decide_eq_true_2 by done.
  unfold popped. rewrite Hn, Hia, Hs. cbn [hw_sstatus hw_tp view andb Z.eqb].
  rewrite cpu_at_insert by (simpl; lia). split; [| done].
  destruct (ss !! i) as [x |] eqn:E; [| apply lookup_ge_None in E; lia]. simpl default. f_equal.
  pose proof (ss_range i) as Hx. rewrite E in Hx. simpl in Hx.
  pose proof (intr_enabled_bit (mkHw 0 x [] ∅)) as Hb. unfold intr_enabled in Hb. cbn [hw_sstatus] in Hb.
  rewrite Hb. destruct (Z.testbit x 1) eqn:Ht; cbn [b2z truthy negb Z.eqb].
  - by apply sie_on_off.
  - by apply sie_off_id.
Qed.

Lemma step_inv g g' i : lock_inv g -> hart_inv ss g -> step i g = Some g' ->
  lock_inv g' /\ hart_inv ss g'.
Proof.
  intros Hl Hg Hs. unfold step, local in Hs.
  destruct (g_pc g !! i) as [p |] eqn:Hp; [| done]. pose proof (pc_at_lookup _ _ _ Hp) as Hpa.
  pose proof Hl as [Hh Hlk Hw Hc Hn].
  destruct p; simplify_eq; unfold goto, goto_lock, unview, truthy in *.
  - destruct (push_step g i Hg Hp) as (h & Hr & Hlh & Hi). rewrite Hr in Hs. simplify_eq.
    split; [| done]. destruct g. eapply lock_inv_move; [done | done | done | |]; left; rewrite Hlh; done.
  - split; [| eapply hart_inv_move; try done; by destruct (sl_locked _ =? 0)].
    destruct g. by eapply lock_inv_move; [done | done | ..]; destruct (sl_locked _ =? 0); simpl; auto.
  - assert (sl_cpu (g_lock g) <> Some i) by (rewrite Hc, Hpa; done).
    rewrite bool_decide_eq_false_2 by done.
    split; [| by eapply hart_inv_move]. destruct g. eapply lock_inv_move; simpl; eauto.
  - destruct (Z.eqb_spec (sl_locked (g_lock g)) 0); simpl;
      (split; [| by eapply hart_inv_move]); destruct g; eapply lock_inv_move; simpl in *; eauto.
    left. split; [done | lia].
  - split; [| by eapply hart_inv_move]. destruct g. eapply lock_inv_move; simpl; eauto 8.
  - split; [| by eapply hart_inv_move]. destruct g. eapply lock_inv_move; simpl; eauto.
  - assert (sl_locked (g_lock g) = 1) as -> by (apply Hw; exists i; by rewrite Hpa).
    split; [| by eapply hart_inv_move]. destruct g. eapply lock_inv_move; simpl; eauto.
  - rewrite bool_decide_eq_true_2 by (rewrite Hc, Hpa; done).
    split; [| by eapply hart_inv_move]. destruct g. eapply lock_inv_move; simpl; eauto.
  - split; [| by eapply hart_inv_move]. destruct g. eapply lock_inv_move; simpl; eauto 8.
  - split; [| by eapply hart_inv_move]. destruct g. eapply lock_inv_move; simpl; eauto 8.
  - destruct (pop_step g i Hg Hp) as (h & Hr & Hlh & Hi). rewrite Hr in Hs. simplify_eq.
    split; [| done]. destruct g. eapply lock_inv_move; [done | done | done | |]; left; rewrite Hlh; done.
Qed.

End Harts.

(** [n] idle harts satisfy both invariants. *)
Lemma init_inv ss cs name : (length ss <= length cs)%nat -> Forall (fun c => cpu_noff c = 0) cs ->
  lock_inv (init ss cs name) /\ hart_inv ss (init ss cs name).
Proof.
  intros Hl Hc.
  assert (Hp : forall i, pc_at (init ss cs name) i = Idle).
  { intros i. unfold pc_at. simpl. destruct (replicate _ _ !! i) eqn:E; [| done].
    by apply lookup_replicate in E as [-> _]. }
  split.
  - constructor; simpl; intros; rewrite ?Hp in *; try done; auto.
    split; [done |]. intros [i Hi]. by rewrite Hp in Hi.
  - split_and!; simpl; rewrite ?length_replicate; try done. intros i Hi. rewrite Hp. simpl.
    split; [done |]. unfold my, cpu_at. simpl.
    destruct (cs !! i) eqn:E; simpl; [| done]. apply (Forall_lookup_1 _ _ _ _ Hc E).
Qed.

Lemma reach_inv ss g g' : Forall (fun x => 0 <= x < 2^64) ss ->
  reach g g' -> lock_inv g -> hart_inv ss g -> lock_inv g' /\ hart_inv ss g'.
Proof.
  intros Hss. induction 1 as [| g g' g'' i Hr IH Hs]; [done |].
  intros. destruct IH; [done | done |]. by eapply step_inv.
Qed.

Lemma reach_trans g g' g'' : reach g g' -> reach g' g'' -> reach g g''.
Proof. induction 2; eauto using reach_step. Qed.

Lemma run_reach sched g g' : run sched g = Some g' -> reach g g'.
Proof.
  revert g. induction sched as [| i sched IH]; intros g; simpl; [intros [= ->]; constructor |].
  destruct (step i g) as [g1 |] eqn:E; [| done]. intros H%IH.
  eapply reach_trans; [| done]. eapply reach_step; [constructor | done].
Qed.

Lemma hart_range ss g i : hart_inv ss g -> pc_at g i <> Idle -> (i < length ss)%nat.
Proof.
  intros (Hl & _) Hp. unfold pc_at in Hp. destruct (g_pc g !! i) eqn:E; [| done].
  apply lookup_lt_Some in E. lia.
Qed.

End Steps.

(** C14: Mutual exclusion of spin locks. However any number of harts interleave
    [acquire] and [release] of a lock: at most one is between the successful
    test-and-set and the store that frees the lock, so at most one is in its
    critical section; no hart ever reaches one of the code's three panics; the
    lock word is 0 whenever no hart holds it, so a waiting hart can then proceed;
    a hart inside has its interrupts off, and a hart outside has the [sstatus] it
    started with. *)
Theorem spinlock_mutual_exclusion (lk : lockid) (ss : list Z) (cs : list cpu) (name : string) (g : smp)
    (Hss : Forall (fun x => 0 <= x < 2^64) ss) (Hcs : (length ss <= length cs)%nat)
    (Hn : Forall (fun c => cpu_noff c = 0) cs) (Hr : reach lk (init ss cs name) g) :
  (forall i j, pc_at g i = Crit -> pc_at g j = Crit -> i = j) /\
  (forall i j, holder (pc_at g i) = true -> holder (pc_at g j) = true -> i = j) /\
  (forall i msg, pc_at g i <> Panicked msg) /\
  ((forall i, holder (pc_at g i) = false) -> sl_locked (g_lock g) = 0) /\
  (forall i, pc_at g i <> Idle -> intr_enabled (view lk i g) = false) /\
  (forall i, (i < length ss)%nat -> pc_at g i = Idle -> g_sstatus g !! i = ss !! i).
Proof.
  destruct (init_inv lk ss cs name Hcs Hn) as [Hl0 Hh0].
  destruct (reach_inv lk ss _ _ Hss Hr Hl0 Hh0) as [[Hh Hlk Hw _ Hp] Hi]. split_and!.
  - intros i j Hii Hjj. apply Hh; [by rewrite Hii | by rewrite Hjj].
  - done.
  - intros i msg E. specialize (Hp i). by rewrite E in Hp.
  - intros Hno. destruct Hlk as [| H1]; [done |]. apply Hw in H1 as [i Hi']. by rewrite Hno in Hi'.
  - intros i Hb. eapply hart_busy_off; [done | done | | done]. by eapply hart_range.
  - intros i Hlt Hid. destruct Hi as (_ & _ & _ & Hi). specialize (Hi i Hlt).
    rewrite bool_decide_eq_true_2 in Hi by done. apply Hi.
Qed.

(** Hart 0 takes the lock, hart 1 spins at the test-and-set. *)
Definition contended : smp :=
  mkSmp [Crit; ASwap] [0; 0] [mkCpu None 1 1; mkCpu None 1 1] (mkSpinlock 1 "kmem" (Some 0%nat)).

Lemma spinlock_mutual_exclusion_witness :
  (forall i j, pc_at contended i = Crit -> pc_at contended j = Crit -> i = j) /\
  intr_enabled (view KmemLock 0 contended) = false.
Proof.
  destruct (spinlock_mutual_exclusion KmemLock [2; 2] [cpu0; cpu0] "kmem" contended)
    as (H1 & _ & _ & _ & H5 & _).
  - repeat constructor; lia.
  - simpl. lia.
  - repeat constructor.
  - apply (run_reach KmemLock [0; 0; 0; 0; 1; 1; 1; 1]%nat). vm_compute. reflexivity.
  - split; [exact H1 | apply H5; discriminate].
Defined.

(** Unfold one step of hart [i], whose pc [Hpc] looks up. *)
Ltac hart_step Hpc :=
  unfold step at 1; cbn [g_pc g_lock g_sstatus g_cpus]; rewrite ?list_insert_insert_eq, Hpc;
  unfold goto, goto_lock; cbn [g_pc g_lock g_sstatus g_cpus sl_locked sl_cpu sl_name truthy negb Z.eqb];
  rewrite ?list_insert_insert_eq.

(** The interleaved model and the sequential code: a hart that is scheduled
    alone from an idle state with the lock free reaches its critical section in
    four steps, in the state [acquire] returns in; and six further steps are
    exactly [release]. *)
Theorem solo_steps_are_the_code (lk : lockid) (i : nat) (g : smp) (name : string)
    (Hp : g_pc g !! i = Some Idle) (Hs : (i < length (g_sstatus g))%nat)
    (Hl : g_lock g = mkSpinlock 0 name None) (Hok : hw_ok 1 (view lk i g)) :
  exists g1 g2, run lk (replicate 4 i) g = Some g1 /\ pc_at g1 i = Crit /\
    acquire lk (view lk i g) = Ok tt (view lk i g1) /\
    run lk (replicate 6 i) g1 = Some g2 /\ pc_at g2 i = Idle /\
    release lk (view lk i g1) = Ok tt (view lk i g2).
Proof.
  pose proof (lookup_lt_Some _ _ _ Hp) as Hi. destruct g as [ps ss cs l]. simpl in *. subst l.
  set (h := view lk i (mkSmp ps ss cs (mkSpinlock 0 name None))) in *.
  assert (Hf : lock_free h lk) by (exists name; apply lookup_singleton_eq).
  assert (Hll : forall l, lock_at (mkHw i (hw_sstatus (pushed h)) (hw_cpus (pushed h)) {[lk := l]}) lk = l).
  { intros l. unfold lock_at. simpl. by rewrite lookup_singleton_eq. }
  set (g1 := mkSmp (<[i := Crit]> ps) (<[i := hw_sstatus (pushed h)]> ss) (hw_cpus (pushed h))
    (mkSpinlock 1 name (Some i))).
  set (g2 := mkSmp (<[i := Idle]> ps) (<[i := hw_sstatus (hw_cycle h)]> ss) (hw_cpus (hw_cycle h))
    (mkSpinlock 0 name None)).
  assert (Hv1 : view lk i g1 = acquired lk h).
  { unfold view, g1, acquired. simpl. rewrite list_lookup_insert_eq, insert_singleton_eq by done.
    unfold lock_at. simpl. by rewrite lookup_singleton_eq. }
  assert (Hv2 : view lk i g2 = hw_cycle h).
  { unfold view, g2. simpl. by rewrite list_lookup_insert_eq by done. }
  assert (Hpc : forall p, <[i := p]> ps !! i = Some p) by (intros; by apply list_lookup_insert_eq).
  exists g1, g2. rewrite Hv1, Hv2.
  split; [| split; [by apply pc_at_lookup, Hpc | split; [by eapply acquire_ok |]]].
  - cbn [replicate run]. unfold step at 1. cbn [g_pc]. rewrite Hp. unfold local. fold h.
    erewrite push_off_ok by done. unfold unview.
    replace (lock_at (pushed h) lk) with (mkSpinlock 0 name None)
      by (unfold lock_at; simpl; by rewrite lookup_singleton_eq).
    do 3 hart_step Hpc. done.
  - split; [| split; [by apply pc_at_lookup, Hpc | by eapply release_ok]].
    cbn [replicate run]. unfold step at 1. cbn [g_pc g1]. rewrite Hpc.
    unfold goto, g1. do 4 (hart_step Hpc; rewrite ?bool_decide_eq_true_2 by done).
    unfold step. cbn [g_pc g_lock]. rewrite Hpc. unfold local.
    replace (view lk i _) with (set_locks {[lk := mkSpinlock 0 name None]} (pushed h))
      by (unfold view; simpl; by rewrite list_lookup_insert_eq by done).
    erewrite pop_off_pushed by done. unfold unview, g2. simpl.
    rewrite !list_insert_insert_eq. unfold lock_at. simpl. by rewrite lookup_singleton_eq.
Qed.

Lemma solo_steps_are_the_code_witness :
  exists g1 g2, run KmemLock (replicate 4 1%nat) (init [2; 2] [cpu0; cpu0] "kmem") = Some g1 /\
    pc_at g1 1 = Crit /\ run KmemLock (replicate 6 1%nat) g1 = Some g2 /\ pc_at g2 1 = Idle.
Proof.
  destruct (solo_steps_are_the_code KmemLock 1 (init [2; 2] [cpu0; cpu0] "kmem") "kmem")
    as (g1 & g2 & H1 & H2 & _ & H3 & H4 & _).
  - reflexivity.
  - simpl. lia.
  - reflexivity.
  - constructor; vm_compute; (intuition congruence) || lia.
  - exists g1, g2. split; [exact H1 |]. split; [exact H2 |]. split; [exact H3 | exact H4].
Defined.

End SMP.

(** Releasing the outer of two locks leaves the hart as if it had only taken the
    inner one. *)
Lemma release_outer k h a b : hw_ok (S (S k)) h -> a <> b -> lock_free h a -> lock_free h b ->
  release a (acquired b (acquired a h)) = Ok tt (acquired b h).
Proof.
  intros Hok Hab [na Ha] [nb Hb].
  pose proof (hw_ok_acquired _ _ a Hok) as Hok1. pose proof (hw_ok_acquired _ _ b Hok1) as Hok0.
  pose proof (hwo_noff _ _ Hok). pose proof (hwo_room _ _ Hok).
  assert (Hm1 : cpu_noff (my (acquired a h)) = cpu_noff (my h) + 1).
  { change (my (acquired a h)) with (my (pushed h)). by rewrite (my_pushed _ _ Hok). }
  assert (Hm2 : cpu_noff (my (acquired b (acquired a h))) = cpu_noff (my h) + 2).
  { change (my (acquired b (acquired a h))) with (my (pushed (acquired a h))).
    rewrite (my_pushed _ _ Hok1). simpl. lia. }
  assert (Hpop : popped (acquired b (acquired a h)) =
    set_locks (hw_locks (acquired b (acquired a h))) (acquired a h)).
  { unfold acquired at 1. rewrite popped_locks, (popped_pushed _ _ Hok1).
    by rewrite (hw_cycle_nested _ _ Hok1) by lia. }
  rewrite release_held.
  - f_equal. unfold released. rewrite Hpop. unfold acquired, lock_at. simpl. unfold set_locks. simpl.
    rewrite Ha, Hb, lookup_insert_ne by done. rewrite (lookup_insert_ne _ a b), Hb by done. simpl.
    rewrite lookup_insert_eq. simpl. f_equal.
    rewrite insert_insert_ne, insert_insert_eq by done. by rewrite (insert_id (hw_locks h) a).
  - exists na. simpl. rewrite lookup_insert_ne, lookup_insert_eq by done.
    unfold lock_at. by rewrite Ha.
  - apply Hok0.
  - eapply (pushed_disabled _ _ Hok1).
  - lia.
Qed.

#[global] Arguments acquired lk h : simpl never.
#[global] Arguments released lk h : simpl never.

(** Locks nest and may be released in either order: two critical sections
    taken in turn and released first-in first-out or last-in first-out, return
    without panicking, with the locks, the nesting count and the interrupt-enable
    bit back to what they were ([hw_cycle] differs from its argument only in the
    saved [intena]); in between interrupts are off. *)
Theorem nested_locks_restore (h : hw) (a b : lockid) (Hok : hw_ok 2 h) (Hab : a <> b)
    (Ha : lock_free h a) (Hb : lock_free h b) :
  (acquire a ;;; acquire b ;;; release b ;;; release a) h = Ok tt (hw_cycle h) /\
  (acquire a ;;; acquire b ;;; release a ;;; release b) h = Ok tt (hw_cycle h) /\
  (exists h2, (acquire a ;;; acquire b) h = Ok tt h2 /\ intr_enabled h2 = false /\
     cpu_noff (my h2) = cpu_noff (my h) + 2) /\
  cpu_noff (my (hw_cycle h)) = cpu_noff (my h) /\ hw_locks (hw_cycle h) = hw_locks h /\
  intr_enabled (hw_cycle h) = intr_enabled h.
Proof.
  pose proof (hw_ok_acquired _ _ a Hok) as Hok1. pose proof (hw_ok_acquired _ _ b Hok1) as Hok0.
  pose proof (lock_free_acquired h a b Hab Hb) as Hb1.
  assert (Hm1 : my (acquired a h) = my (pushed h)) by done.
  assert (Hm2 : my (acquired b (acquired a h)) = my (pushed (acquired a h))) by done.
  pose proof (hwo_noff _ _ Hok) as Hn0.
  pose proof (hwo_room _ _ Hok) as Hr0.
  rewrite (my_pushed _ _ Hok) in Hm1. rewrite (my_pushed _ _ Hok1), Hm1 in Hm2. simpl in Hm2.
  assert (Hc1 : hw_cycle (acquired a h) = acquired a h).
  { eapply hw_cycle_nested; [done |]. rewrite Hm1. simpl. lia. }
  split_and!.
  - rewrite (bind_ok _ _ _ _ _ (acquire_ok _ _ _ Hok Ha)), (bind_ok _ _ _ _ _ (acquire_ok _ _ _ Hok1 Hb1)).
    rewrite (bind_ok _ _ _ _ _ (release_ok _ _ _ Hok1 Hb1)), Hc1. by eapply release_ok.
  - rewrite (bind_ok _ _ _ _ _ (acquire_ok _ _ _ Hok Ha)), (bind_ok _ _ _ _ _ (acquire_ok _ _ _ Hok1 Hb1)).
    rewrite (bind_ok _ _ _ _ _ (release_outer _ _ _ _ Hok Hab Ha Hb)). by eapply release_ok.
  - exists (acquired b (acquired a h)). rewrite (bind_ok _ _ _ _ _ (acquire_ok _ _ _ Hok Ha)).
    split; [by eapply acquire_ok |]. split; [eapply (pushed_disabled _ _ Hok1) |]. rewrite Hm2. simpl. lia.
  - by rewrite (my_cycle _ _ Hok).
  - done.
  - done.
Qed.

Lemma nested_locks_restore_witness :
  let h := mkHw 0 2 [cpu0] {[BcacheLock := mkSpinlock 0 "bcache" None; LogLock := mkSpinlock 0 "log" None]} in
  (acquire BcacheLock ;;; acquire LogLock ;;; release BcacheLock ;;; release LogLock) h = Ok tt (hw_cycle h).
Proof.
  intros h. destruct (nested_locks_restore h BcacheLock LogLock) as (_ & H & _).
  - constructor; vm_compute; (intuition congruence) || lia.
  - discriminate.
  - exists "bcache". reflexivity.
  - exists "log". reflexivity.
  - exact H.
Defined.
