(* ===== verification/Kalloc.v ===== *)
(** * kernel/kalloc.c: the physical page allocator

    The free list is threaded through the free pages themselves: [kmem.freelist]
    is the address of the first free page and each free page begins with the
    address of the next ([struct run]). [kmem_inv s l] relates that memory to
    the list [l] of free pages; every operation is specified as an operation on
    [l]. *)

From S2P Require Import Prelude Riscv Mem StringLib Spinlock.

(** ** Addresses fixed by the linker script (kernel/kernel.ld) *)

Class Image := {
  kend : Z;        (** [end]: first address after the kernel *)
  etext : Z;       (** end of the kernel's code *)
  trampoline : Z   (** the page holding trampoline.S *) }.

(** What kernel.ld guarantees: the image is linked at [KERNBASE], the
    trampoline is the last page of the text, [etext] is page-aligned, and (given
    the machine's 128MB) the image leaves room in RAM. *)
Class ImageOk `{Image} : Prop := {
  kend_range : KERNBASE <= kend < PHYSTOP;
  etext_range : KERNBASE < etext < kend;
  etext_aligned : etext mod PGSIZE = 0;
  trampoline_range : KERNBASE <= trampoline;
  trampoline_page : trampoline + PGSIZE = etext }.

(** ** State: what kalloc.c and vm.c work on *)

Record mach := mkMach {
  m_hw : hw;          (** hart, cpus[], locks *)
  m_mem : mem;        (** RAM *)
  m_free : Z;         (** kmem.freelist *)
  m_kpt : Z;          (** kernel_pagetable *)
  m_satp : Z          (** the satp register *) }.

Definition set_hw (h : hw) (s : mach) : mach := mkMach h (m_mem s) (m_free s) (m_kpt s) (m_satp s).
Definition set_mem (m : mem) (s : mach) : mach := mkMach (m_hw s) m (m_free s) (m_kpt s) (m_satp s).
Definition set_free (f : Z) (s : mach) : mach := mkMach (m_hw s) (m_mem s) f (m_kpt s) (m_satp s).
Arguments set_hw h s /.
Arguments set_mem m s /.
Arguments set_free f s /.

Definition Lhw : lens mach hw := Lens m_hw set_hw.
#[global] Instance Lhw_laws : LensLaws Lhw.
Proof. split; intros; simpl; try done. by destruct s. Qed.

Section Kalloc.
Context `{Image}.

(** Free one page: fill it with junk, link it at the head of the list. *)
Definition kfree (pa : Z) : M mach unit :=
  if negb (pa mod PGSIZE =? 0) || (pa <? kend) || (PHYSTOP <=? pa) then panic "kfree" else
  modify (fun s => set_mem (memset (m_mem s) pa 1 PGSIZE) s) ;;;
  zoom Lhw (acquire KmemLock) ;;;
  modify (fun s => set_mem (wr64 (m_mem s) pa (m_free s)) s) ;;;
  modify (set_free pa) ;;;
  zoom Lhw (release KmemLock).

(** Allocate one page; 0 when none is left. *)
Definition kalloc : M mach Z :=
  zoom Lhw (acquire KmemLock) ;;;
  let* r := gets m_free in
  when (truthy r) (modify (fun s => set_free (rd64 (m_mem s) r) s)) ;;;
  zoom Lhw (release KmemLock) ;;;
  when (truthy r) (modify (fun s => set_mem (memset (m_mem s) r 5 PGSIZE) s)) ;;;
  ret r.

Fixpoint freerange_loop (fuel : nat) (p pa_end : Z) : M mach unit :=
  match fuel with
  | O => fun _ => NoFuel
  | S fuel =>
      if p + PGSIZE <=? pa_end then kfree p ;;; freerange_loop fuel (p + PGSIZE) pa_end
      else ret tt
  end.

(** The loop leaves [(pa_end - p) / PGSIZE] pages, so one more iteration than
    that reaches its exit. *)
Definition freerange (pa_start pa_end : Z) : M mach unit :=
  let p := PGROUNDUP pa_start in
  freerange_loop (Z.to_nat ((pa_end - p) / PGSIZE + 1)) p pa_end.

Definition kinit : M mach unit :=
  zoom Lhw (initlock KmemLock "kmem") ;;;
  freerange kend PHYSTOP.

(** ** Invariant *)

(** A page the allocator may hand out. *)
Definition page_in (p : Z) : Prop := kend <= p < PHYSTOP /\ p mod PGSIZE = 0.

(** The chain of [struct run]s starting at [r] is the list [l]. *)
Fixpoint chain (m : mem) (r : Z) (l : list Z) : Prop :=
  match l with
  | [] => r = 0
  | p :: l => r = p /\ chain m (rd64 m p) l
  end.

Record kmem_inv (s : mach) (l : list Z) : Prop := {
  ki_chain : chain (m_mem s) (m_free s) l;
  ki_pages : Forall page_in l;
  ki_nodup : NoDup l;
  ki_mem : mem_ok (m_mem s) }.

(** The hart may take the allocator's lock. *)
Record can_alloc (s : mach) : Prop := {
  ca_hw : hw_ok 1 (m_hw s);
  ca_lock : lock_free (m_hw s) KmemLock }.

End Kalloc.

(** Reference behaviour of [kalloc] and [kfree] on a known free list. *)
Definition alloc_state (l : list Z) (s : mach) : mach :=
  match l with
  | [] => set_hw (hw_cycle (m_hw s)) s
  | p :: l' =>
      mkMach (hw_cycle (m_hw s)) (memset (m_mem s) p 5 PGSIZE) (hd 0 l') (m_kpt s) (m_satp s)
  end.

Definition free_state (p : Z) (s : mach) : mach :=
  mkMach (hw_cycle (m_hw s)) (wr64 (memset (m_mem s) p 1 PGSIZE) p (m_free s)) p (m_kpt s) (m_satp s).

(** Project fields out of updated machines before comparing them. *)
Ltac msimpl :=
  cbn [m_hw m_mem m_free m_kpt m_satp set_mem set_hw set_free alloc_state free_state].
Tactic Notation "msimpl" "in" hyp(H) :=
  cbn [m_hw m_mem m_free m_kpt m_satp set_mem set_hw set_free alloc_state free_state] in H.

Section KallocFacts.
Context `{HI : Image} {HIO : ImageOk}.

Lemma page_in_pos p : page_in p -> KERNBASE <= p < PHYSTOP.
Proof. intros [? _]. pose proof kend_range. lia. Qed.

Lemma page_in_aligned p : page_in p -> page_aligned p.
Proof.
  intros Hp. pose proof (page_in_pos _ Hp). destruct Hp as [_ Hp].
  split; [klia | done].
Qed.

Lemma pages_disjoint p q : page_in p -> page_in q -> p <> q -> p + PGSIZE <= q \/ q + PGSIZE <= p.
Proof. intros [_ Hp] [_ Hq] Hne. kzlia. Qed.

(** The chain only depends on the first word of its pages. *)
Lemma chain_ext m m' r l :
  (forall p, p ∈ l -> rd64 m' p = rd64 m p) -> chain m r l -> chain m' r l.
Proof.
  revert r. induction l as [| p l IH]; intros r Hm; cbn [chain]; [done |].
  intros [-> Hc]. split; [done |]. rewrite Hm by set_solver. apply IH; [| done]. set_solver.
Qed.

Lemma chain_head m r l : chain m r l -> r = hd 0 l.
Proof. destruct l; simpl; [done | by intros [-> _]]. Qed.

Lemma chain_outside m m' r l P :
  chain m r l -> Forall page_in l -> agree P m m' ->
  (forall p x, p ∈ l -> p <= x < p + PGSIZE -> P x) -> chain m' r l.
Proof.
  intros Hc Hl Ha HP. eapply chain_ext; [| done].
  intros p Hp. eapply agree_rd64; [done |]. intros x Hx. eapply HP; [done |].
  klia.
Qed.

Lemma acquire_kmem s : can_alloc s ->
  zoom Lhw (acquire KmemLock) s = Ok tt (set_hw (acquired KmemLock (m_hw s)) s).
Proof. intros [Hh Hl]. apply zoom_ok. by eapply acquire_ok. Qed.

Lemma release_kmem s h : hw_ok 1 h -> lock_free h KmemLock -> m_hw s = acquired KmemLock h ->
  zoom Lhw (release KmemLock) s = Ok tt (set_hw (hw_cycle h) s).
Proof. intros Hh Hl Hs. apply zoom_ok. simpl. rewrite Hs. by eapply release_ok. Qed.

Lemma truthy_page p : page_in p -> truthy p = true.
Proof.
  intros Hp%page_in_pos. unfold truthy. destruct (Z.eqb_spec p 0); [klia | done].
Qed.

Lemma kalloc_run s l : kmem_inv s l -> can_alloc s -> kalloc s = Ok (hd 0 l) (alloc_state l s).
Proof.
  intros Hi Hc. pose proof (ki_chain _ _ Hi) as Hch. pose proof (chain_head _ _ _ Hch) as Hf.
  unfold kalloc. simpl. rewrite acquire_kmem by done. simpl. rewrite Hf.
  destruct l as [| p l]; simpl.
  - rewrite (release_kmem _ (m_hw s)); [by rewrite Hf | apply Hc | apply Hc | done].
  - destruct Hch as [_ Hch]. pose proof (ki_pages _ _ Hi) as [Hp _]%Forall_cons.
    rewrite truthy_page by done. simpl.
    rewrite (release_kmem _ (m_hw s)); [| apply Hc | apply Hc | done]. simpl.
    by rewrite (chain_head _ _ _ Hch).
Qed.

Lemma kfree_run s p : page_in p -> can_alloc s -> kfree p s = Ok tt (free_state p s).
Proof.
  intros [Hr Ha] Hc. unfold kfree. rewrite Ha.
  destruct (Z.ltb_spec p kend); [lia |]. destruct (Z.leb_spec PHYSTOP p); [lia |]. simpl.
  rewrite acquire_kmem by (destruct Hc; by constructor). simpl.
  rewrite (release_kmem _ (m_hw s)); [done | apply Hc | apply Hc | done].
Qed.

Lemma kfree_panics s p : ~ page_in p -> kfree p s = Panic "kfree" s.
Proof.
  intros Hp. unfold kfree, page_in in *.
  destruct (Z.eqb_spec (p mod PGSIZE) 0); cbn [negb orb]; [| done].
  destruct (Z.ltb_spec p kend); cbn [orb]; [done |].
  destruct (Z.leb_spec PHYSTOP p); cbn [orb]; [done |]. lia.
Qed.

Lemma can_alloc_alloc s l : can_alloc s -> can_alloc (alloc_state l s).
Proof. intros []. destruct l; constructor; simpl; auto with kernel. Qed.
Lemma can_alloc_free s p : can_alloc s -> can_alloc (free_state p s).
Proof. intros []. constructor; simpl; auto with kernel. Qed.

Lemma kmem_inv_alloc s p l : kmem_inv s (p :: l) -> kmem_inv (alloc_state (p :: l) s) l.
Proof.
  intros [Hc Hp Hn Hm]. apply Forall_cons in Hp as [Hp Hl]. apply NoDup_cons in Hn as [Hni Hn].
  destruct Hc as [_ Hc]. constructor; simpl; auto with kernel.
  rewrite (chain_head _ _ _ Hc) in Hc.
  eapply (chain_outside _ _ _ _ (fun x => x < p \/ p + PGSIZE <= x)); [done | done | |].
  - intros x Hx. apply rd8_memset_out; [klia | done].
  - intros q x Hq Hx. rewrite Forall_forall in Hl.
    pose proof (pages_disjoint p q Hp (Hl q Hq)) as Hd. destruct Hd; [congruence | lia | lia].
Qed.

Lemma kmem_inv_free s p l : page_in p -> p ∉ l -> kmem_inv s l -> kmem_inv (free_state p s) (p :: l).
Proof.
  intros Hp Hni [Hc Hl Hn Hm]. pose proof (page_in_pos _ Hp) as Hpp.
  constructor; simpl; [| by constructor | by constructor | auto with kernel].
  assert (Hf : 0 <= m_free s < 2^64).
  { rewrite (chain_head _ _ _ Hc). destruct l as [| q l]; simpl; [lia |].
    apply Forall_cons in Hl as [Hq _]. apply page_in_pos in Hq.
    klia. }
  split; [done |]. rewrite rd64_wr64_eq by done.
  eapply (chain_outside _ _ _ _ (fun x => x < p \/ p + PGSIZE <= x)); [done | done | |].
  - intros x Hx. rewrite rd8_wr64_out by (klia).
    apply rd8_memset_out; [klia | done].
  - intros q x Hq Hx. rewrite Forall_forall in Hl.
    pose proof (pages_disjoint p q Hp (Hl q Hq)) as Hd. destruct Hd; [congruence | lia | lia].
Qed.

(** Both operations leave memory outside the page alone. *)
Lemma alloc_state_mem s p l x : (x < p \/ p + PGSIZE <= x) ->
  rd8 (m_mem (alloc_state (p :: l) s)) x = rd8 (m_mem s) x.
Proof. intros. simpl. apply rd8_memset_out; [klia | done]. Qed.

Lemma free_state_mem s p x : (x < p \/ p + PGSIZE <= x) ->
  rd8 (m_mem (free_state p s)) x = rd8 (m_mem s) x.
Proof.
  intros. simpl. rewrite rd8_wr64_out by (klia).
  apply rd8_memset_out; [klia | done].
Qed.

(** ** freerange and kinit *)

(** The [n] pages from [p] on, last first: the order [freerange] leaves them in. *)
Fixpoint pages_down (n : nat) (p : Z) : list Z :=
  match n with
  | O => []
  | S n => pages_down n (p + PGSIZE) ++ [p]
  end.

Lemma elem_of_pages_down n p q :
  q ∈ pages_down n p <-> exists i : nat, (i < n)%nat /\ q = p + Z.of_nat i * PGSIZE.
Proof.
  revert p. induction n as [| n IH]; intros p; cbn [pages_down].
  - split; [set_solver | intros (i & ? & _); lia].
  - rewrite elem_of_app, IH, list_elem_of_singleton. split.
    + intros [(i & Hi & ->) | ->]; [exists (S i) | exists O]; lia.
    + intros ([| i] & Hi & ->); [right; lia | left; exists i; lia].
Qed.

Lemma freerange_loop_run n : forall p pa_end s l,
  p mod PGSIZE = 0 -> kend <= p -> pa_end <= PHYSTOP ->
  p + Z.of_nat n * PGSIZE <= pa_end < p + (Z.of_nat n + 1) * PGSIZE ->
  kmem_inv s l -> can_alloc s -> (forall q, q ∈ l -> q < p) ->
  exists s', freerange_loop (S n) p pa_end s = Ok tt s' /\
    kmem_inv s' (pages_down n p ++ l) /\ can_alloc s'.
Proof.
  induction n as [| n IH]; intros p pa_end s l Ha Hk He Hn Hi Hc Hl; cbn [freerange_loop].
  - destruct (Z.leb_spec (p + PGSIZE) pa_end); [klia |]. eauto.
  - destruct (Z.leb_spec (p + PGSIZE) pa_end); [| klia].
    assert (Hp : page_in p) by (split; [klia | done]).
    erewrite bind_ok by (by apply kfree_run).
    destruct (IH (p + PGSIZE) pa_end (free_state p s) (p :: l)) as (s' & Hs & Hi' & Hc').
    + kzlia.
    + klia.
    + done.
    + klia.
    + apply kmem_inv_free; [done | | done]. intros Hin%Hl. lia.
    + by apply can_alloc_free.
    + intros q [-> | Hq%Hl]%elem_of_cons; klia.
    + exists s'. split; [done |]. cbn [pages_down]. rewrite <- app_assoc. done.
Qed.

Lemma freerange_run a e s l :
  kend <= a <= PHYSTOP -> PGROUNDUP a <= e <= PHYSTOP -> kmem_inv s l -> can_alloc s ->
  (forall q, q ∈ l -> q < PGROUNDUP a) ->
  exists s', freerange a e s = Ok tt s' /\ can_alloc s' /\
    kmem_inv s' (pages_down (Z.to_nat ((e - PGROUNDUP a) / PGSIZE)) (PGROUNDUP a) ++ l).
Proof.
  intros Ha He Hi Hc Hl. pose proof kend_range as Hk.
  assert (Hup : PGROUNDUP a = (a + PGSIZE - 1) / PGSIZE * PGSIZE)
    by (apply PGROUNDUP_arith; klia).
  unfold freerange. set (p := PGROUNDUP a) in *.
  replace (Z.to_nat ((e - p) / PGSIZE + 1)) with (S (Z.to_nat ((e - p) / PGSIZE)))
    by (rewrite Z2Nat.inj_add by kzlia; lia).
  destruct (freerange_loop_run (Z.to_nat ((e - p) / PGSIZE)) p e s l)
    as (s' & Hs & Hi' & Hc'); [kzlia | kzlia | lia | | done | done | done | by exists s'].
  rewrite Z2Nat.id by kzlia. kzlia.
Qed.

(** The pages [kinit] frees are all the pages between the image and [PHYSTOP]. *)
Lemma kinit_run s :
  m_free s = 0 -> mem_ok (m_mem s) -> hw_ok 1 (m_hw s) ->
  exists s' l, kinit s = Ok tt s' /\ kmem_inv s' l /\ can_alloc s' /\
    (forall p, p ∈ l <-> page_in p).
Proof.
  intros Hf Hm Hh. pose proof kend_range as Hk. unfold kinit.
  set (s1 := set_hw (set_locks (<[KmemLock := mkSpinlock 0 "kmem" None]> (hw_locks (m_hw s))) (m_hw s)) s).
  assert (Hup : PGROUNDUP kend = (kend + PGSIZE - 1) / PGSIZE * PGSIZE)
    by (apply PGROUNDUP_arith; klia).
  destruct (freerange_run kend PHYSTOP s1 []) as (s' & Hs & Hc & Hi).
  - klia.
  - kzlia.
  - constructor; [done | by constructor | by constructor | done].
  - constructor; [by destruct Hh | exists "kmem"; simpl; apply lookup_insert_eq].
  - set_solver.
  - eexists s', _. split_and!; [exact Hs | exact Hi | exact Hc |].
    intros p. rewrite app_nil_r, elem_of_pages_down. unfold page_in. split.
    + intros (i & Hi' & ->). kzlia.
    + intros [Hr Ha]. exists (Z.to_nat ((p - PGROUNDUP kend) / PGSIZE)).
      rewrite Z2Nat.id by kzlia. split; [apply Z2Nat.inj_lt |]; kzlia.
Qed.

End KallocFacts.

(** ** Properties *)

(** An example image, and machines with a known number of free pages. *)
Definition image0 : Image := {| kend := 2147753984; etext := 2147516416; trampoline := 2147512320 |}.
#[local] Existing Instance image0.
Lemma image0_ok : ImageOk.
Proof. constructor; vm_compute; intuition congruence. Qed.
#[local] Existing Instance image0_ok.

Definition boot_mach : mach :=
  mkMach (mkHw 0 0 [cpu0] {[KmemLock := mkSpinlock 0 "kmem" None]}) ∅ 0 0 0.

(** The example machine after [kfree] of [n] pages, and its free list. *)
Fixpoint stocked (n : nat) : mach :=
  match n with
  | O => boot_mach
  | S n => free_state (2147753984 + Z.of_nat n * PGSIZE) (stocked n)
  end.
Fixpoint stock (n : nat) : list Z :=
  match n with
  | O => []
  | S n => (2147753984 + Z.of_nat n * PGSIZE) :: stock n
  end.

Lemma boot_mach_hw : hw_ok 1 (m_hw boot_mach).
Proof. constructor; vm_compute; (intuition congruence) || lia. Qed.
Lemma boot_mach_can_alloc : can_alloc boot_mach.
Proof. split; [apply boot_mach_hw | by exists "kmem"]. Qed.
Lemma boot_mach_inv : kmem_inv boot_mach [].
Proof. split; [done | by constructor | by constructor | apply mem_ok_empty]. Qed.

Lemma elem_of_stock n p : p ∈ stock n -> exists i : nat, (i < n)%nat /\ p = 2147753984 + Z.of_nat i * PGSIZE.
Proof.
  induction n as [| n IH]; cbn [stock]; [by intros ?%elem_of_nil |].
  intros [-> | (i & ? & ->)%IH]%elem_of_cons; [exists n | exists i]; lia.
Qed.

Lemma stocked_can_alloc n : can_alloc (stocked n).
Proof. induction n; cbn [stocked]; [apply boot_mach_can_alloc | by apply can_alloc_free]. Qed.

Lemma stocked_inv n : (n <= 1000)%nat -> kmem_inv (stocked n) (stock n).
Proof.
  induction n as [| n IH]; intros Hn; cbn [stocked stock]; [apply boot_mach_inv |].
  apply kmem_inv_free; [| | apply IH; lia].
  - split; [unfold kend; simpl; klia | kzlia].
  - intros (i & Hi & E)%elem_of_stock. klia.
Qed.

(** C26: [kinit], from a machine whose free list is empty, returns (the
    [freerange] loop terminates, no [kfree] panics) with a well-formed free list
    that holds every page between the end of the kernel and [PHYSTOP], each
    exactly once, and with the allocator's lock free. *)
Theorem kinit_frees_all_pages `{HIO : ImageOk} (s : mach)
    (Hf : m_free s = 0) (Hm : mem_ok (m_mem s)) (Hh : hw_ok 1 (m_hw s)) :
  exists s' l, kinit s = Ok tt s' /\ kmem_inv s' l /\ can_alloc s' /\
    (forall p, p ∈ l <-> page_in p).
Proof. by apply kinit_run. Qed.

Lemma kinit_frees_all_pages_witness :
  exists s' l, kinit boot_mach = Ok tt s' /\ kmem_inv s' l /\ can_alloc s' /\
    (forall p, p ∈ l <-> page_in p).
Proof.
  exact (kinit_frees_all_pages boot_mach eq_refl mem_ok_empty boot_mach_hw).
Defined.

(** [kalloc] pops the free list: it returns 0 exactly when no page is free;
    otherwise it returns a page that was free, is free no more, and is filled
    with junk (5); every other byte of memory is unchanged, and the interrupt
    state and the lock are as before. *)
Theorem kalloc_pops `{HIO : ImageOk} (s : mach) (l : list Z)
    (Hi : kmem_inv s l) (Hc : can_alloc s) :
  exists s', kalloc s = Ok (hd 0 l) s' /\ (hd 0 l = 0 <-> l = []) /\
    kmem_inv s' (tl l) /\ ~ (hd 0 l ∈ tl l) /\ can_alloc s' /\
    hw_sstatus (m_hw s') = hw_sstatus (m_hw s) /\ hw_locks (m_hw s') = hw_locks (m_hw s) /\
    forall x, rd8 (m_mem s') x =
      if negb (hd 0 l =? 0) && (hd 0 l <=? x) && (x <? hd 0 l + PGSIZE) then 5 else rd8 (m_mem s) x.
Proof.
  exists (alloc_state l s). split; [by apply kalloc_run |].
  destruct l as [| p l]; cbn [hd tl].
  - split; [done |]. split; [by destruct Hi |]. split; [apply not_elem_of_nil |].
    split; [by apply (can_alloc_alloc s []) |]. done.
  - pose proof (ki_pages _ _ Hi) as [Hp%page_in_pos _]%Forall_cons.
    pose proof (ki_nodup _ _ Hi) as [Hn _]%NoDup_cons.
    destruct (Z.eqb_spec p 0); [klia |].
    split; [done |]. split; [by apply kmem_inv_alloc |]. split; [done |].
    split; [by apply (can_alloc_alloc s (p :: l)) |]. split; [done |]. split; [done |].
    intros x. cbn [alloc_state m_mem]. rewrite rd8_memset by klia.
    destruct (Z.leb_spec p x), (Z.ltb_spec x (p + PGSIZE)); done.
Qed.

Lemma kalloc_pops_witness :
  exists s', kalloc (stocked 3) = Ok 2147762176 s' /\ kmem_inv s' [2147758080; 2147753984].
Proof.
  destruct (kalloc_pops (stocked 3) _ (stocked_inv 3 ltac:(lia)) (stocked_can_alloc 3)) as (s' & Hs & _ & Hi & _).
  exists s'. split; [exact Hs | exact Hi].
Defined.

(** A client of the allocator: it allocates pages and frees pages it holds. *)
Inductive aop := AAlloc | AFree (i : nat).

Fixpoint client `{Image} (ops : list aop) (held : list Z) : M mach (list Z) :=
  match ops with
  | [] => ret held
  | AAlloc :: ops =>
      let* p := kalloc in client ops (if p =? 0 then held else p :: held)
  | AFree i :: ops =>
      match held !! i with
      | Some p => kfree p ;;; client ops (delete i held)
      | None => client ops held
      end
  end.

(** C25: Conservation of pages. However a client interleaves allocations and
    frees of pages it holds, no call panics or blocks, the free list stays well
    formed, and the pages held together with the free pages are always a
    permutation of what they were: no page is handed out twice, lost or
    invented. *)
Theorem pages_conserved `{HIO : ImageOk} (ops : list aop) : forall (s : mach) (held l : list Z)
    (Hi : kmem_inv s l) (Hc : can_alloc s) (Hh : Forall page_in held) (Hn : NoDup (held ++ l)),
  exists s' held' l', client ops held s = Ok held' s' /\ kmem_inv s' l' /\ can_alloc s' /\
    Forall page_in held' /\ held' ++ l' ≡ₚ held ++ l.
Proof.
  induction ops as [| [| i] ops IH]; intros s held l Hi Hc Hh Hn; cbn [client].
  - by eexists _, _, _.
  - rewrite (bind_ok _ _ _ _ _ (kalloc_run _ _ Hi Hc)).
    destruct l as [| p l]; cbn [hd].
    + destruct (IH (alloc_state [] s) held []) as (s' & h' & l' & ?);
        [by destruct Hi | by apply (can_alloc_alloc s []) | done | done | eauto].
    + pose proof (ki_pages _ _ Hi) as [Hp _]%Forall_cons. pose proof (page_in_pos _ Hp).
      destruct (Z.eqb_spec p 0); [klia |].
      destruct (IH (alloc_state (p :: l) s) (p :: held) l) as (s' & h' & l' & ? & ? & ? & ? & Hp').
      * by apply kmem_inv_alloc.
      * by apply can_alloc_alloc.
      * by constructor.
      * by rewrite <- app_comm_cons, Permutation_middle.
      * exists s', h', l'. split_and!; try done. by rewrite Hp', <- Permutation_middle.
  - destruct (held !! i) as [p |] eqn:E; [| by apply IH].
    pose proof (Forall_lookup_1 _ _ _ _ Hh E) as Hp.
    pose proof (delete_Permutation _ _ _ E) as Hperm.
    rewrite Hperm in Hn. rewrite <- app_comm_cons, NoDup_cons in Hn. destruct Hn as [Hni Hn].
    rewrite (bind_ok _ _ _ _ _ (kfree_run _ _ Hp Hc)).
    destruct (IH (free_state p s) (delete i held) (p :: l)) as (s' & h' & l' & ? & ? & ? & ? & Hp').
    + apply kmem_inv_free; [done | set_solver | done].
    + by apply can_alloc_free.
    + by apply Forall_delete.
    + rewrite <- Permutation_middle. by constructor.
    + exists s', h', l'. split_and!; try done.
      rewrite Hp', <- Permutation_middle. by rewrite Hperm at 2.
Qed.

Lemma pages_conserved_witness :
  exists s' held' l', client [AAlloc; AAlloc; AFree 1; AAlloc] [] (stocked 3) = Ok held' s' /\
    held' ++ l' ≡ₚ stock 3.
Proof.
  destruct (pages_conserved [AAlloc; AAlloc; AFree 1; AAlloc] (stocked 3) [] _
    (stocked_inv 3 ltac:(lia)) (stocked_can_alloc 3)) as (s' & h & l & Hr & _ & _ & _ & Hp).
  - constructor.
  - exact (ki_nodup _ _ (stocked_inv 3 ltac:(lia))).
  - exists s', h, l. split; [exact Hr | exact Hp].
Defined.
