(* ===== verification/Vm.v ===== *)
(** * kernel/vm.c: page tables and user memory (definitions)

    The code of vm.c over the machine of [Kalloc]: page tables are 512-entry
    pages of RAM, walked and edited word by word. A buffer that belongs to the
    kernel ([src] of [copyout], [dst] of [copyin], the initcode array) is the list
    of its bytes; user memory and page tables are RAM. [sfence_vma] has no
    counterpart: the model has no TLB.

    [PageTable] and [Uvm] prove what these functions do. *)

From S2P Require Import Prelude Riscv Mem StringLib Spinlock Kalloc.

Definition set_kpt (x : Z) (s : mach) : mach := mkMach (m_hw s) (m_mem s) (m_free s) x (m_satp s).
Definition set_satp (x : Z) (s : mach) : mach := mkMach (m_hw s) (m_mem s) (m_free s) (m_kpt s) x.
Arguments set_kpt x s /.
Arguments set_satp x s /.

Definition load64 (a : Z) : M mach Z := gets (fun s => rd64 (m_mem s) a).
Definition store64 (a v : Z) : M mach unit := modify (fun s => set_mem (wr64 (m_mem s) a v) s).
Definition memset_m (dst c n : Z) : M mach unit :=
  modify (fun s => set_mem (memset (m_mem s) dst c n) s).
Definition memmove_m (dst src n : Z) : M mach unit :=
  modify (fun s => set_mem (memmove (m_mem s) dst src n) s).
Definition store_bytes (dst : Z) (bs : list Z) : M mach unit :=
  modify (fun s => set_mem (wr_bytes (m_mem s) dst bs) s).
Arguments load64 a s /.
Arguments store64 a v s /.
Arguments memset_m dst c n s /.
Arguments memmove_m dst src n s /.
Arguments store_bytes dst bs s /.

(** Does a flag of a PTE read as set? *)
Definition flag (pte f : Z) : bool := truthy (Z.land pte f).

Section Vm.
Context `{Image}.

(** ** walk *)

(** The loop of [walk], at [level]. *)
Fixpoint walk_loop (level : nat) (pagetable va : Z) (alloc : bool) : M mach Z :=
  match level with
  | O => ret (pagetable + 8 * PX 0 va)
  | S l =>
      let pte := pagetable + 8 * PX (Z.of_nat level) va in
      let* e := load64 pte in
      if flag e PTE_V then walk_loop l (PTE2PA e) va alloc
      else if negb alloc then ret 0
      else
        let* p := kalloc in
        if p =? 0 then ret 0
        else
          memset_m p 0 PGSIZE ;;;
          store64 pte (Z.lor (PA2PTE p) PTE_V) ;;;
          walk_loop l p va alloc
  end.

Definition walk (pagetable va : Z) (alloc : bool) : M mach Z :=
  if MAXVA <=? va then panic "walk" else walk_loop 2 pagetable va alloc.

Definition walkaddr (pagetable va : Z) : M mach Z :=
  if MAXVA <=? va then ret 0 else
  let* pte := walk pagetable va false in
  if pte =? 0 then ret 0 else
  let* e := load64 pte in
  if negb (flag e PTE_V) then ret 0 else
  if negb (flag e PTE_U) then ret 0 else
  ret (PTE2PA e).

(** ** mappages *)

Fixpoint mappages_loop (fuel : nat) (pagetable a last pa perm : Z) : M mach Z :=
  match fuel with
  | O => fun _ => NoFuel
  | S fuel =>
      let* pte := walk pagetable a true in
      if pte =? 0 then ret (-1) else
      let* e := load64 pte in
      if flag e PTE_V then panic "mappages: remap" else
      store64 pte (Z.lor (Z.lor (PA2PTE pa) perm) PTE_V) ;;;
      if a =? last then ret 0
      else mappages_loop fuel pagetable (u64 (a + PGSIZE)) last (u64 (pa + PGSIZE)) perm
  end.

(** The loop visits [size / PGSIZE] pages. *)
Definition mappages (pagetable va size pa perm : Z) : M mach Z :=
  if negb (va mod PGSIZE =? 0) then panic "mappages: va not aligned" else
  if negb (size mod PGSIZE =? 0) then panic "mappages: size not aligned" else
  if size =? 0 then panic "mappages: size" else
  mappages_loop (Z.to_nat (size / PGSIZE)) pagetable va (u64 (va + size - PGSIZE)) pa perm.

Definition kvmmap (kpgtbl va pa sz perm : Z) : M mach unit :=
  let* r := mappages kpgtbl va sz pa perm in
  if negb (r =? 0) then panic "kvmmap" else ret tt.

(** ** uvmunmap *)

Fixpoint uvmunmap_loop (fuel : nat) (pagetable a limit : Z) (do_free : bool) : M mach unit :=
  match fuel with
  | O => fun _ => NoFuel
  | S fuel =>
      if a <? limit then
        let* pte := walk pagetable a false in
        if pte =? 0 then panic "uvmunmap: walk" else
        let* e := load64 pte in
        if negb (flag e PTE_V) then panic "uvmunmap: not mapped" else
        if PTE_FLAGS e =? PTE_V then panic "uvmunmap: not a leaf" else
        when do_free (kfree (PTE2PA e)) ;;;
        store64 pte 0 ;;;
        uvmunmap_loop fuel pagetable (u64 (a + PGSIZE)) limit do_free
      else ret tt
  end.

Definition uvmunmap (pagetable va npages : Z) (do_free : bool) : M mach unit :=
  if negb (va mod PGSIZE =? 0) then panic "uvmunmap: not aligned" else
  uvmunmap_loop (S (Z.to_nat npages)) pagetable va (u64 (va + npages * PGSIZE)) do_free.

(** ** User address spaces *)

Definition uvmcreate : M mach Z :=
  let* pagetable := kalloc in
  if pagetable =? 0 then ret 0 else
  memset_m pagetable 0 PGSIZE ;;;
  ret pagetable.

Definition uvmfirst (pagetable : Z) (src : list Z) (sz : Z) : M mach unit :=
  if PGSIZE <=? sz then panic "uvmfirst: more than a page" else
  let* mem := kalloc in
  memset_m mem 0 PGSIZE ;;;
  let* _ := mappages pagetable 0 PGSIZE mem (Z.lor (Z.lor (Z.lor PTE_W PTE_R) PTE_X) PTE_U) in
  store_bytes mem (take (Z.to_nat sz) src).

Definition uvmdealloc (pagetable oldsz newsz : Z) : M mach Z :=
  if oldsz <=? newsz then ret oldsz else
  when (PGROUNDUP newsz <? PGROUNDUP oldsz)
    (let npages := i32 ((PGROUNDUP oldsz - PGROUNDUP newsz) / PGSIZE) in
     uvmunmap pagetable (PGROUNDUP newsz) (u64 npages) true) ;;;
  ret newsz.

Fixpoint uvmalloc_loop (fuel : nat) (pagetable a oldsz newsz xperm : Z) : M mach Z :=
  match fuel with
  | O => fun _ => NoFuel
  | S fuel =>
      if a <? newsz then
        let* mem := kalloc in
        if mem =? 0 then uvmdealloc pagetable a oldsz ;;; ret 0 else
        memset_m mem 0 PGSIZE ;;;
        let* r := mappages pagetable a PGSIZE mem (Z.lor (Z.lor PTE_R PTE_U) xperm) in
        if negb (r =? 0) then
          kfree mem ;;; uvmdealloc pagetable a oldsz ;;; ret 0
        else uvmalloc_loop fuel pagetable (u64 (a + PGSIZE)) oldsz newsz xperm
      else ret newsz
  end.

Definition uvmalloc (pagetable oldsz newsz xperm : Z) : M mach Z :=
  if newsz <? oldsz then ret oldsz else
  let oldsz := PGROUNDUP oldsz in
  uvmalloc_loop (S (Z.to_nat ((newsz - oldsz + PGSIZE - 1) / PGSIZE))) pagetable oldsz oldsz newsz xperm.

(** The loop of [freewalk] over the table's entries, [n] of them left to visit;
    [rec] is the recursive call. *)
Fixpoint freewalk_entries (rec : Z -> M mach unit) (pagetable : Z) (n : nat) (i : Z) : M mach unit :=
  match n with
  | O => ret tt
  | S n =>
      let* pte := load64 (pagetable + 8 * i) in
      (if flag pte PTE_V && (Z.land pte (Z.lor (Z.lor PTE_R PTE_W) PTE_X) =? 0) then
         rec (PTE2PA pte) ;;; store64 (pagetable + 8 * i) 0
       else if flag pte PTE_V then panic "freewalk: leaf" else ret tt) ;;;
      freewalk_entries rec pagetable n (i + 1)
  end.

Fixpoint freewalk (depth : nat) (pagetable : Z) : M mach unit :=
  match depth with
  | O => fun _ => NoFuel
  | S depth => freewalk_entries (freewalk depth) pagetable 512 0 ;;; kfree pagetable
  end.

(** Sv39 tables nest three deep. *)
Definition uvmfree (pagetable sz : Z) : M mach unit :=
  when (0 <? sz) (uvmunmap pagetable 0 (PGROUNDUP sz / PGSIZE) true) ;;;
  freewalk 3 pagetable.

Fixpoint uvmcopy_loop (fuel : nat) (old new i sz : Z) : M mach Z :=
  match fuel with
  | O => fun _ => NoFuel
  | S fuel =>
      if i <? sz then
        let* pte := walk old i false in
        if pte =? 0 then panic "uvmcopy: pte should exist" else
        let* e := load64 pte in
        if negb (flag e PTE_V) then panic "uvmcopy: page not present" else
        let pa := PTE2PA e in
        let flags := PTE_FLAGS e in
        let* mem := kalloc in
        if mem =? 0 then uvmunmap new 0 (i / PGSIZE) true ;;; ret (-1) else
        memmove_m mem pa PGSIZE ;;;
        let* r := mappages new i PGSIZE mem flags in
        if negb (r =? 0) then
          kfree mem ;;; uvmunmap new 0 (i / PGSIZE) true ;;; ret (-1)
        else uvmcopy_loop fuel old new (u64 (i + PGSIZE)) sz
      else ret 0
  end.

Definition uvmcopy (old new sz : Z) : M mach Z :=
  uvmcopy_loop (S (Z.to_nat ((sz + PGSIZE - 1) / PGSIZE))) old new 0 sz.

Definition uvmclear (pagetable va : Z) : M mach unit :=
  let* pte := walk pagetable va false in
  if pte =? 0 then panic "uvmclear" else
  let* e := load64 pte in
  store64 pte (Z.land e (u64 (Z.lnot PTE_U))).

(** ** Copies between kernel and user memory *)

(** The bytes a loop copies are spread over at most [len / PGSIZE + 2] pages. *)
Definition copy_fuel (len : Z) : nat := S (S (Z.to_nat (len / PGSIZE + 1))).

Fixpoint copyout_loop (fuel : nat) (pagetable dstva : Z) (src : list Z) (len : Z) : M mach Z :=
  match fuel with
  | O => fun _ => NoFuel
  | S fuel =>
      if 0 <? len then
        let va0 := PGROUNDDOWN dstva in
        if MAXVA <=? va0 then ret (-1) else
        let* pte := walk pagetable va0 false in
        if pte =? 0 then ret (-1) else
        let* e := load64 pte in
        if negb (flag e PTE_V) || negb (flag e PTE_U) || negb (flag e PTE_W) then ret (-1) else
        let pa0 := PTE2PA e in
        let n := PGSIZE - (dstva - va0) in
        let n := if len <? n then len else n in
        store_bytes (pa0 + (dstva - va0)) (take (Z.to_nat n) src) ;;;
        copyout_loop fuel pagetable (va0 + PGSIZE) (drop (Z.to_nat n) src) (len - n)
      else ret 0
  end.

(** [src] is the kernel object copied from; it has at least [len] bytes. *)
Definition copyout (pagetable dstva : Z) (src : list Z) (len : Z) : M mach Z :=
  copyout_loop (copy_fuel len) pagetable dstva src len.

(** The result, and the bytes stored at [dst] (some even when the copy fails). *)
Fixpoint copyin_loop (fuel : nat) (pagetable srcva len : Z) (dst : list Z) : M mach (Z * list Z) :=
  match fuel with
  | O => fun _ => NoFuel
  | S fuel =>
      if 0 <? len then
        let va0 := PGROUNDDOWN srcva in
        let* pa0 := walkaddr pagetable va0 in
        if pa0 =? 0 then ret (-1, dst) else
        let n := PGSIZE - (srcva - va0) in
        let n := if len <? n then len else n in
        let* chunk := gets (fun s => bytes (m_mem s) (pa0 + (srcva - va0)) (Z.to_nat n)) in
        copyin_loop fuel pagetable (u64 (va0 + PGSIZE)) (len - n) (dst ++ chunk)
      else ret (0, dst)
  end.

Definition copyin (pagetable srcva len : Z) : M mach (Z * list Z) :=
  copyin_loop (copy_fuel len) pagetable srcva len [].

(** Copy at most [n] bytes from [p]; stop after a NUL. Returns what was stored
    and whether the NUL was found. *)
Fixpoint copyinstr_page (n : nat) (m : mem) (p : Z) (dst : list Z) : list Z * bool :=
  match n with
  | O => (dst, false)
  | S n =>
      if rd8 m p =? 0 then (dst ++ [0], true)
      else copyinstr_page n m (p + 1) (dst ++ [rd8 m p])
  end.

Fixpoint copyinstr_loop (fuel : nat) (pagetable srcva max : Z) (dst : list Z) : M mach (Z * list Z) :=
  match fuel with
  | O => fun _ => NoFuel
  | S fuel =>
      if 0 <? max then
        let va0 := PGROUNDDOWN srcva in
        let* pa0 := walkaddr pagetable va0 in
        if pa0 =? 0 then ret (-1, dst) else
        let n := PGSIZE - (srcva - va0) in
        let n := if max <? n then max else n in
        let* m := gets m_mem in
        match copyinstr_page (Z.to_nat n) m (pa0 + (srcva - va0)) dst with
        | (dst, true) => ret (0, dst)
        | (dst, false) => copyinstr_loop fuel pagetable (u64 (va0 + PGSIZE)) (max - n) dst
        end
      else ret (-1, dst)
  end.

Definition copyinstr (pagetable srcva max : Z) : M mach (Z * list Z) :=
  copyinstr_loop (copy_fuel max) pagetable srcva max [].

(** ** The kernel's own page table *)

(** kernel/proc.c: a kernel stack for each of the [n] processes from [i] on. *)
Fixpoint proc_mapstacks_loop (n : nat) (kpgtbl i : Z) : M mach unit :=
  match n with
  | O => ret tt
  | S n =>
      let* pa := kalloc in
      if pa =? 0 then panic "kalloc" else
      kvmmap kpgtbl (KSTACK i) pa PGSIZE (Z.lor PTE_R PTE_W) ;;;
      proc_mapstacks_loop n kpgtbl (i + 1)
  end.

Definition proc_mapstacks (kpgtbl : Z) : M mach unit := proc_mapstacks_loop NPROC kpgtbl 0.

Definition kvmmake : M mach Z :=
  let* kpgtbl := kalloc in
  memset_m kpgtbl 0 PGSIZE ;;;
  kvmmap kpgtbl UART0 UART0 PGSIZE (Z.lor PTE_R PTE_W) ;;;
  kvmmap kpgtbl VIRTIO0 VIRTIO0 PGSIZE (Z.lor PTE_R PTE_W) ;;;
  kvmmap kpgtbl PLIC PLIC 0x4000000 (Z.lor PTE_R PTE_W) ;;;
  kvmmap kpgtbl KERNBASE KERNBASE (etext - KERNBASE) (Z.lor PTE_R PTE_X) ;;;
  kvmmap kpgtbl etext etext (PHYSTOP - etext) (Z.lor PTE_R PTE_W) ;;;
  kvmmap kpgtbl TRAMPOLINE trampoline PGSIZE (Z.lor PTE_R PTE_X) ;;;
  proc_mapstacks kpgtbl ;;;
  ret kpgtbl.

Definition kvminit : M mach unit :=
  let* p := kvmmake in modify (set_kpt p).

Definition kvminithart : M mach unit :=
  modify (fun s => set_satp (MAKE_SATP (m_kpt s)) s).

End Vm.
