(* ===== verification/PageTable.v ===== *)
(** * Page tables: the tree in memory and the map it stands for

    An abstract page table [pt] is a map from virtual page numbers to physical
    page and permissions, together with the page-table pages it is stored in.
    [repr m T] says that memory [m] holds [T], entry by entry. The lemmas show
    what [walk], [walkaddr], [mappages] and [uvmunmap] of kernel/vm.c do to [T]
    and to the allocator's free list. *)

From S2P Require Import Prelude Riscv Mem StringLib Spinlock Kalloc Vm.

(** ** Abstract page tables *)

(** [pt_tab] maps (level, prefix) to the page-table page for the virtual pages
    [v] with [v / 512^(level+1) = prefix]; [pt_map] maps virtual page numbers to
    (physical address, flags). *)
Record pt := mkPt { pt_root : Z; pt_tab : gmap (nat * Z) Z; pt_map : gmap Z (Z * Z) }.

(** The word a table at level [l] holds for the child (or page) [v]. *)
Definition entry (T : pt) (l : nat) (v : Z) : Z :=
  match l with
  | O => match pt_map T !! v with Some (pa, fl) => mkpte pa fl | None => 0 end
  | S l => match pt_tab T !! (l, v) with Some p => mkpte p PTE_V | None => 0 end
  end.

Definition repr (m : mem) (T : pt) : Prop :=
  forall l k p j, pt_tab T !! (l, k) = Some p -> 0 <= j < 512 ->
    rd64 m (p + 8 * j) = entry T l (k * 512 + j).

Definition tables (T : pt) : gset Z := map_img (pt_tab T).

(** The index of virtual page [v] in the level-[l] table on its path. *)
Definition idx (l : nat) (v : Z) : Z := v / 512 ^ Z.of_nat l.

(** Where the PTE of virtual page [v] is, 0 if its level-0 table is missing. *)
Definition leaf_addr (T : pt) (v : Z) : Z :=
  match pt_tab T !! (O, v / 512) with Some p => p + 8 * (v mod 512) | None => 0 end.

Section Inv.
Context `{Image}.

Record pt_ok (T : pt) : Prop := {
  po_root : pt_tab T !! (2%nat, 0) = Some (pt_root T);
  po_level : forall l k p, pt_tab T !! (l, k) = Some p -> (l <= 2)%nat /\ 0 <= k /\ (l = 2%nat -> k = 0);
  po_up : forall l k p, pt_tab T !! (l, k) = Some p -> (l < 2)%nat ->
    exists q, pt_tab T !! (S l, k / 512) = Some q;
  po_page : forall x p, pt_tab T !! x = Some p -> page_in p;
  po_inj : forall x y p, pt_tab T !! x = Some p -> pt_tab T !! y = Some p -> x = y;
  po_map : forall v pa fl, pt_map T !! v = Some (pa, fl) ->
    (exists p, pt_tab T !! (O, v / 512) = Some p) /\ page_aligned pa /\ 0 <= fl < 1024 /\ fl mod 2 = 1 }.

(** Memory holds the page table, and its pages are not free. *)
Record vm_inv (s : mach) (T : pt) (l : list Z) : Prop := {
  vi_kmem : kmem_inv s l;
  vi_ok : pt_ok T;
  vi_repr : repr (m_mem s) T;
  vi_disj : forall p, p ∈ l -> p ∉ tables T }.

End Inv.

(** ** Frames *)

Definition outside (ps : gset Z) (x : Z) : Prop := forall p, p ∈ ps -> x < p \/ p + PGSIZE <= x.

(** Interrupts toggled any number of times. *)
Definition hw_sim (h h' : hw) : Prop := h' = h \/ h' = hw_cycle h.

(** From [s] to [s'] only the pages [ps] (and the allocator) changed. *)
Record vm_frame (ps : gset Z) (s s' : mach) : Prop := {
  vf_hw : hw_sim (m_hw s) (m_hw s');
  vf_kpt : m_kpt s' = m_kpt s;
  vf_satp : m_satp s' = m_satp s;
  vf_mem : agree (outside ps) (m_mem s) (m_mem s') }.

Lemma hw_sim_trans k h1 h2 h3 : hw_ok k h1 -> hw_sim h1 h2 -> hw_sim h2 h3 -> hw_sim h1 h3.
Proof.
  intros Hok [-> | ->] [-> | ->]; unfold hw_sim; auto. rewrite (hw_cycle_idem _ _ Hok). auto.
Qed.

Lemma hw_sim_ok k h h' : hw_sim h h' -> hw_ok k h -> hw_ok k h'.
Proof. intros [-> | ->]; auto with kernel. Qed.

Lemma vm_frame_refl ps s : vm_frame ps s s.
Proof. split; try done. by left. Qed.

Lemma vm_frame_trans k ps qs s1 s2 s3 : hw_ok k (m_hw s1) ->
  vm_frame ps s1 s2 -> vm_frame qs s2 s3 -> vm_frame (ps ∪ qs) s1 s3.
Proof.
  intros Hok [H1 K1 P1 M1] [H2 K2 P2 M2]. split; [by eapply hw_sim_trans | congruence | congruence |].
  intros x Hx. unfold outside in Hx. rewrite M2, M1; [done | |]; intros p Hp; apply Hx; set_solver.
Qed.

Lemma vm_frame_mono ps qs s s' : ps ⊆ qs -> vm_frame ps s s' -> vm_frame qs s s'.
Proof. intros Hs [H K P M]. split; try done. intros x Hx. apply M. intros p Hp. apply Hx. set_solver. Qed.

Lemma elem_tables T p : p ∈ tables T <-> exists x, pt_tab T !! x = Some p.
Proof. apply elem_of_map_img. Qed.

(** ** Flags *)

Lemma land_mkpte pa fl f : page_aligned pa -> 0 <= fl < 1024 -> 0 <= f < 1024 ->
  Z.land (mkpte pa fl) f = Z.land fl f.
Proof.
  intros Hp Hf Hf'. unfold mkpte. rewrite Z.land_lor_distr_l.
  rewrite (land_disjoint _ f 10), Z.lor_0_l; [done | lia | | done].
  destruct Hp as [Hp _]. rewrite PA2PTE_arith by lia. apply Z.mod_mul. lia.
Qed.

Lemma flag_mkpte pa fl f : page_aligned pa -> 0 <= fl < 1024 -> 0 <= f < 1024 ->
  flag (mkpte pa fl) f = flag fl f.
Proof. intros. unfold flag. by rewrite land_mkpte. Qed.

Lemma flag_V fl : flag fl PTE_V = (fl mod 2 =? 1).
Proof. unfold flag, truthy. change PTE_V with 1. rewrite land_1. kzlia. Qed.

Lemma flag_0 f : flag 0 f = false.
Proof. unfold flag. by rewrite Z.land_0_l. Qed.

(** ** Index arithmetic *)

Lemma idx_0 v : idx 0 v = v.
Proof. unfold idx. simpl. apply Z.div_1_r. Qed.

Lemma idx_S l v : idx (S l) v = idx l v / 512.
Proof.
  unfold idx. rewrite Nat2Z.inj_succ, Z.pow_succ_r, Z.mul_comm by lia.
  rewrite Z.div_div; [done | apply Z.pow_nonzero; lia | lia].
Qed.

Lemma idx_nonneg l v : 0 <= v -> 0 <= idx l v.
Proof. intros. apply Z.div_pos; [done |]. apply Z.pow_pos_nonneg; lia. Qed.

Lemma PX_idx l va : 0 <= va -> PX (Z.of_nat l) va = idx l (va / PGSIZE) mod 512.
Proof.
  intros Hva. rewrite PX_arith by lia. unfold idx, PXSHIFT, PGSHIFT. f_equal.
  rewrite Z.div_div by (unfold PGSIZE; lia || apply Z.pow_pos_nonneg; lia).
  rewrite Z.pow_add_r, Z.pow_mul_r by lia. done.
Qed.

Lemma idx_split l v : idx l v = idx (S l) v * 512 + idx l v mod 512.
Proof. rewrite idx_S. zlia. Qed.

Lemma idx_top va : 0 <= va < MAXVA -> idx 3 (va / PGSIZE) = 0.
Proof.
  intros Hva. unfold idx. apply Z.div_small. change (512 ^ Z.of_nat 3) with 134217728. kzlia.
Qed.

Section Walk.
Context `{HI : Image} {HIO : ImageOk}.

Lemma table_aligned T x p : pt_ok T -> pt_tab T !! x = Some p -> page_aligned p.
Proof. intros Hok Hx. by eapply page_in_aligned, po_page. Qed.

(** A table exists only below its ancestors. *)
Lemma ancestors T v : pt_ok T -> forall l d, (l + d <= 2)%nat ->
  (exists p, pt_tab T !! (l, idx (S l) v) = Some p) ->
  exists p, pt_tab T !! (l + d, idx (S (l + d)) v)%nat = Some p.
Proof.
  intros Hok l d. revert l. induction d as [| d IH]; intros l Hl Hp.
  - by rewrite Nat.add_0_r.
  - destruct Hp as [p Hp]. destruct (po_up _ Hok _ _ _ Hp) as [q Hq]; [lia |].
    rewrite <- idx_S in Hq. replace (l + S d)%nat with (S l + d)%nat by lia. apply IH; [lia | eauto].
Qed.

Lemma leaf_addr_missing T v n : pt_ok T -> (n <= 2)%nat -> pt_tab T !! (n, idx (S n) v) = None ->
  leaf_addr T v = 0.
Proof.
  intros Hok Hn E. unfold leaf_addr.
  destruct (pt_tab T !! (O, v / 512)) as [r |] eqn:Er; [| done]. exfalso.
  destruct (ancestors T v Hok 0 n) as [q Hq]; [lia | | simpl in Hq; congruence].
  exists r. rewrite idx_S, idx_0. done.
Qed.

(** Step of the walk through an existing table. *)
Lemma walk_entry s T l p va : vm_inv s T l -> 0 <= va -> forall n,
  pt_tab T !! (n, idx (S n) (va / PGSIZE)) = Some p ->
  rd64 (m_mem s) (p + 8 * PX (Z.of_nat n) va) = entry T n (idx n (va / PGSIZE)).
Proof.
  intros Hi Hva n Hp. rewrite PX_idx by done. rewrite (vi_repr _ _ _ Hi _ _ _ _ Hp) by kzlia.
  by rewrite <- idx_split.
Qed.

Lemma entry_table T n v q : pt_ok T -> pt_tab T !! (n, v) = Some q ->
  flag (entry T (S n) v) PTE_V = true /\ PTE2PA (entry T (S n) v) = q.
Proof.
  intros Hok Hq. pose proof (table_aligned _ _ _ Hok Hq) as Ha. cbn [entry]. rewrite Hq.
  rewrite flag_mkpte by (done || by vm_compute). split; [done |]. by apply PTE2PA_mkpte.
Qed.

Lemma walk_loop_find s T l va : vm_inv s T l -> 0 <= va -> forall n p, (n <= 2)%nat ->
  pt_tab T !! (n, idx (S n) (va / PGSIZE)) = Some p ->
  walk_loop n p va false s = Ok (leaf_addr T (va / PGSIZE)) s.
Proof.
  intros Hi Hva. pose proof (vi_ok _ _ _ Hi) as Hok.
  induction n as [| n IH]; intros p Hn Hp; cbn [walk_loop].
  - cbn [ret]. unfold leaf_addr. rewrite idx_S, idx_0 in Hp. rewrite Hp.
    change 0 with (Z.of_nat 0). rewrite PX_idx by done. by rewrite idx_0.
  - cbn [bind]. unfold bind. cbn [load64 gets obind].
    unfold load64, gets. cbn [obind].
    rewrite (walk_entry _ _ _ _ _ Hi Hva (S n) Hp).
    destruct (pt_tab T !! (n, idx (S n) (va / PGSIZE))) as [q |] eqn:E.
    + destruct (entry_table _ _ _ _ Hok E) as [-> ->]. apply IH; [lia | done].
    + cbn [entry]. rewrite E, flag_0. cbn [negb ret]. unfold ret. f_equal.
      symmetry. apply (leaf_addr_missing _ _ n Hok); [lia | done].
Qed.

Lemma walk_find s T l va : vm_inv s T l -> 0 <= va < MAXVA ->
  walk (pt_root T) va false s = Ok (leaf_addr T (va / PGSIZE)) s.
Proof.
  intros Hi Hva. unfold walk. destruct (Z.leb_spec MAXVA va); [lia |].
  eapply walk_loop_find; [done | lia | lia |]. rewrite idx_top by done. apply Hi.
Qed.

(** The leaf PTE of a mapped page. *)
Lemma leaf_mapped s T l v pa fl : vm_inv s T l -> pt_map T !! v = Some (pa, fl) ->
  leaf_addr T v <> 0 /\ rd64 (m_mem s) (leaf_addr T v) = mkpte pa fl.
Proof.
  intros Hi Hm. destruct (po_map _ (vi_ok _ _ _ Hi) _ _ _ Hm) as [[p Hp] _].
  unfold leaf_addr. rewrite Hp. split.
  - pose proof (po_page _ (vi_ok _ _ _ Hi) _ _ Hp) as Hpp%page_in_pos. kzlia.
  - rewrite (vi_repr _ _ _ Hi _ _ _ _ Hp) by zlia. cbn [entry].
    replace (v / 512 * 512 + v mod 512) with v by zlia. by rewrite Hm.
Qed.

Lemma leaf_unmapped s T l v : vm_inv s T l -> pt_map T !! v = None ->
  leaf_addr T v <> 0 -> rd64 (m_mem s) (leaf_addr T v) = 0.
Proof.
  intros Hi Hm. unfold leaf_addr. destruct (pt_tab T !! (O, v / 512)) as [p |] eqn:Hp; [| done].
  intros _. rewrite (vi_repr _ _ _ Hi _ _ _ _ Hp) by zlia. cbn [entry].
  replace (v / 512 * 512 + v mod 512) with v by zlia. by rewrite Hm.
Qed.

(** ** walkaddr *)

(** What [walkaddr] should return. *)
Definition user_pa (T : pt) (va : Z) : Z :=
  if MAXVA <=? va then 0 else
  match pt_map T !! (va / PGSIZE) with
  | Some (pa, fl) => if flag fl PTE_U then pa else 0
  | None => 0
  end.

Lemma walkaddr_run s T l va : vm_inv s T l -> 0 <= va ->
  walkaddr (pt_root T) va s = Ok (user_pa T va) s.
Proof.
  intros Hi Hva. unfold walkaddr, user_pa. destruct (Z.leb_spec MAXVA va); [done |].
  unfold bind at 1. rewrite (walk_find _ _ _ _ Hi) by lia. cbn [obind].
  destruct (pt_map T !! (va / PGSIZE)) as [[pa fl] |] eqn:Hm.
  - destruct (leaf_mapped _ _ _ _ _ _ Hi Hm) as [Hn Hr]. apply Z.eqb_neq in Hn. rewrite Hn.
    destruct (po_map _ (vi_ok _ _ _ Hi) _ _ _ Hm) as (_ & Ha & Hf & Hv).
    simpl. rewrite Hr, !flag_mkpte by (done || by vm_compute).
    rewrite flag_V, Hv. simpl. destruct (flag fl PTE_U); simpl; [| done].
    by rewrite PTE2PA_mkpte.
  - destruct (Z.eqb_spec (leaf_addr T (va / PGSIZE)) 0); [done |].
    simpl. rewrite (leaf_unmapped _ _ _ _ Hi Hm) by done. by rewrite flag_0.
Qed.

End Walk.

(** ** Adding a page-table page *)

Definition add_table (n : nat) (k q : Z) (T : pt) : pt :=
  mkPt (pt_root T) (<[(n, k) := q]> (pt_tab T)) (pt_map T).

(** [T'] has the tables of [T] plus those of [new]. *)
Record pt_grows (new : list Z) (T T' : pt) : Prop := {
  pg_root : pt_root T' = pt_root T;
  pg_tab : pt_tab T ⊆ pt_tab T';
  pg_tables : tables T' = tables T ∪ list_to_set new }.

Lemma pt_grows_refl T : pt_grows [] T T.
Proof. split; try done. set_solver. Qed.

Lemma pt_grows_trans n1 n2 T1 T2 T3 : pt_grows n1 T1 T2 -> pt_grows n2 T2 T3 -> pt_grows (n1 ++ n2) T1 T3.
Proof.
  intros [R1 S1 E1] [R2 S2 E2]. split; [congruence | by etrans |].
  rewrite E2, E1, list_to_set_app_L. set_solver.
Qed.

Lemma add_table_grows n k q T : pt_tab T !! (n, k) = None -> pt_grows [q] T (add_table n k q T).
Proof.
  intros Hn. split; try done; [by apply insert_subseteq |].
  unfold tables. simpl. rewrite map_img_insert_notin_L by done. set_solver.
Qed.

Section Grow.
Context `{HI : Image} {HIO : ImageOk}.

Lemma add_table_ok n k q p T : pt_ok T -> page_in q -> q ∉ tables T -> (n < 2)%nat -> 0 <= k ->
  pt_tab T !! (n, k) = None -> pt_tab T !! (S n, k / 512) = Some p -> pt_ok (add_table n k q T).
Proof.
  intros Hok Hq Hqt Hn Hk HN HP. pose proof Hok as [Hr Hl Hu Hp Hj Hm].
  constructor; unfold add_table; cbn [pt_tab pt_root pt_map].
  - rewrite lookup_insert_ne; [done | intros [= ->]; lia].
  - intros l k' p' H'. apply lookup_insert_Some in H' as [[[= <- <-] <-] | [_ H']]; [lia | eauto].
  - intros l k' p' H' Hl2. apply lookup_insert_Some in H' as [[[= <- <-] <-] | [_ H']].
    + exists p. rewrite lookup_insert_ne; [done | intros [=]; lia].
    + destruct (Hu _ _ _ H' Hl2) as [q' Hq']. exists q'.
      rewrite lookup_insert_ne; [done | intros [=]; subst; congruence].
  - intros x p' H'. apply lookup_insert_Some in H' as [[<- <-] | [_ H']]; [done | eauto].
  - intros x y p' Hx Hy. apply lookup_insert_Some in Hx as [[<- <-] | [? Hx]];
      apply lookup_insert_Some in Hy as [[<- ?] | [? Hy]]; subst; try done; [| | eauto].
    + exfalso. apply Hqt, elem_tables. eauto.
    + exfalso. apply Hqt, elem_tables. eauto.
  - intros v pa fl Hv. destruct (Hm _ _ _ Hv) as [[p' Hp'] ?]. split; [| done].
    exists p'. rewrite lookup_insert_ne; [done | intros [=]; subst; congruence].
Qed.

(** Nothing hangs below a missing table. *)
Lemma entry_below_missing n k j T : pt_ok T -> pt_tab T !! (n, k) = None -> (n < 2)%nat -> 0 <= j < 512 ->
  entry T n (k * 512 + j) = 0.
Proof.
  intros Hok HN Hn Hj. assert (Hk : (k * 512 + j) / 512 = k) by zlia. destruct n as [| n]; cbn [entry].
  - destruct (pt_map T !! (k * 512 + j)) as [[pa fl] |] eqn:E; [| done].
    destruct (po_map _ Hok _ _ _ E) as [[p Hp] _]. rewrite Hk in Hp. congruence.
  - destruct (pt_tab T !! (n, k * 512 + j)) as [p |] eqn:E; [| done].
    destruct (po_up _ Hok _ _ _ E) as [q Hq]; [lia |]. rewrite Hk in Hq. congruence.
Qed.

Lemma table_pte_range q : page_in q -> 0 <= mkpte q PTE_V < 2^64.
Proof.
  intros Hq%page_in_aligned. pose proof (mkpte_range q PTE_V Hq) as Hr.
  assert (0 <= PTE_V < 1024) as Hv by (by vm_compute). specialize (Hr Hv). lia.
Qed.

(** The new table is a zeroed page [q] not among [T]'s tables; its parent's
    slot points to it. *)
Lemma add_table_repr n k q p T m : pt_ok T -> repr m T -> page_in q -> q ∉ tables T ->
  (n < 2)%nat -> 0 <= k -> pt_tab T !! (n, k) = None -> pt_tab T !! (S n, k / 512) = Some p ->
  repr (wr64 (memset m q 0 PGSIZE) (p + 8 * (k mod 512)) (mkpte q PTE_V)) (add_table n k q T).
Proof.
  intros Hok Hr Hq Hqt Hn Hk HN HP l k' p' j Hp' Hj.
  pose proof (po_page _ Hok _ _ HP) as Hpp.
  assert (Hpq : p <> q) by (intros ->; apply Hqt, elem_tables; eauto).
  pose proof (pages_disjoint _ _ Hpp Hq Hpq) as Hd1.
  pose proof (Z.mod_pos_bound k 512) as Hkm.
  cbn [add_table pt_tab] in Hp'. apply lookup_insert_Some in Hp' as [[[= <- <-] <-] | [Hne Hp']].
  - rewrite rd64_wr64_ne by klia. rewrite rd64_memset0 by klia.
    rewrite <- (entry_below_missing n k j T) by done. destruct n; cbn [entry add_table pt_tab pt_map]; [done |].
    rewrite lookup_insert_ne; [done | intros [=]; lia].
  - pose proof (po_page _ Hok _ _ Hp') as Hpp'.
    assert (Hpq' : p' <> q) by (intros ->; apply Hqt, elem_tables; eauto).
    pose proof (pages_disjoint _ _ Hpp' Hq Hpq') as Hd2.
    destruct (decide ((l, k' * 512 + j) = (S n, k))) as [[= -> Hkk] | Hsl].
    + assert (k' = k / 512 /\ j = k mod 512) as [-> ->] by zlia.
      assert (p' = p) as -> by congruence.
      rewrite rd64_wr64_eq by (by apply table_pte_range).
      cbn [entry add_table pt_tab]. by rewrite Hkk, lookup_insert_eq.
    + rewrite rd64_wr64_ne.
      * rewrite (rd64_ext (memset m q 0 PGSIZE) m) by (intros; apply rd8_memset_out; klia).
        rewrite (Hr _ _ _ _ Hp' Hj). destruct l as [| l]; cbn [entry add_table pt_tab pt_map]; [done |].
        rewrite lookup_insert_ne; [done | congruence].
      * destruct (decide (p' = p)) as [-> |].
        -- assert (Hx := po_inj _ Hok _ _ _ Hp' HP). injection Hx as -> ->.
           assert (j <> k mod 512) by (intros ->; apply Hsl; f_equal; zlia). lia.
        -- pose proof (pages_disjoint _ _ Hpp' Hpp ltac:(done)). klia.
Qed.

(** ** Frame lemmas *)

Lemma outside_page ps p x : (forall q, q ∈ ps -> page_in q) -> page_in p -> p ∉ ps ->
  p <= x < p + PGSIZE -> outside ps x.
Proof.
  intros Hps Hp Hn Hx q Hq.
  assert (q <> p) by (intros ->; done). pose proof (pages_disjoint q p (Hps q Hq) Hp ltac:(done)). lia.
Qed.

Lemma repr_agree P m m' T : pt_ok T -> repr m T -> agree P m m' ->
  (forall p x, p ∈ tables T -> p <= x < p + PGSIZE -> P x) -> repr m' T.
Proof.
  intros Hok Hr Ha HP l k p j Hp Hj. rewrite <- (Hr _ _ _ _ Hp Hj).
  apply (agree_rd64 P); [done |]. intros x Hx. apply (HP p); [apply elem_tables; eauto | klia].
Qed.

Lemma kmem_inv_agree P s s' l : kmem_inv s l -> m_free s' = m_free s -> mem_ok (m_mem s') ->
  agree P (m_mem s) (m_mem s') -> (forall p x, p ∈ l -> p <= x < p + PGSIZE -> P x) -> kmem_inv s' l.
Proof.
  intros [Hc Hp Hn Hm] Hf Hm' Ha HP. split; try done. rewrite Hf. by eapply chain_outside.
Qed.

Lemma can_alloc_hw s s' : m_hw s' = m_hw s -> can_alloc s -> can_alloc s'.
Proof. intros E [H1 H2]. split; by rewrite E. Qed.

Lemma can_alloc_sim s s' : hw_sim (m_hw s) (m_hw s') -> can_alloc s -> can_alloc s'.
Proof. intros [E | E] [H1 H2]; split; rewrite E; auto with kernel. Qed.

(** ** walk with allocation *)

Definition table_state (p slot q : Z) (s : mach) : mach :=
  set_mem (wr64 (memset (m_mem s) q 0 PGSIZE) (p + 8 * slot) (mkpte q PTE_V)) s.

(** Allocating one missing table on the path. *)
Lemma walk_grow s T q l n k p : vm_inv s T (q :: l) -> can_alloc s -> (n < 2)%nat -> 0 <= k ->
  pt_tab T !! (n, k) = None -> pt_tab T !! (S n, k / 512) = Some p ->
  let s1 := table_state p (k mod 512) q (alloc_state (q :: l) s) in
  let T1 := add_table n k q T in
  vm_inv s1 T1 l /\ can_alloc s1 /\ pt_grows [q] T T1 /\ vm_frame (tables T1) s s1.
Proof.
  intros [Hk Hok Hr Hd] Hca Hn Hk0 HN HP s1 T1.
  pose proof (ki_pages _ _ Hk) as [Hq Hl]%Forall_cons. rewrite Forall_forall in Hl.
  pose proof (ki_nodup _ _ Hk) as [Hql _]%NoDup_cons.
  assert (Hqt : q ∉ tables T) by (apply Hd; set_solver).
  pose proof (add_table_grows n k q T HN) as Hg. pose proof (pg_tables _ _ _ Hg) as Ht. simpl in Ht.
  assert (Hps : forall x, x ∈ tables T -> page_in x).
  { intros x [y Hy]%elem_tables. by eapply po_page. }
  assert (Hpt : p ∈ tables T) by (apply elem_tables; eauto).
  pose proof (Z.mod_pos_bound k 512) as Hkm.
  assert (Hag : agree (outside (tables T1)) (m_mem s) (m_mem s1)).
  { intros x Hx. unfold s1, table_state. cbn [set_mem m_mem].
    assert (x < q \/ q + PGSIZE <= x) by (apply Hx; set_solver).
    assert (x < p \/ p + PGSIZE <= x) by (apply Hx; set_solver).
    rewrite rd8_wr64_out, rd8_memset_out by klia. by apply alloc_state_mem. }
  split; [split |].
  - apply (kmem_inv_agree (outside {[q; p]}) (alloc_state (q :: l) s)).
    + by apply kmem_inv_alloc.
    + unfold s1, table_state. msimpl. done.
    + unfold s1, table_state. cbn [set_mem m_mem]. apply mem_ok_wr64, mem_ok_memset.
      apply (kmem_inv_alloc _ _ _ Hk).
    + intros x Hx. unfold s1, table_state. cbn [set_mem m_mem].
      assert (x < q \/ q + PGSIZE <= x) by (apply Hx; set_solver).
      assert (x < p \/ p + PGSIZE <= x) by (apply Hx; set_solver).
      by rewrite rd8_wr64_out, rd8_memset_out by klia.
    + intros r x Hrl Hx. apply (outside_page _ r); [| by apply Hl | | done].
      * intros y Hy. rewrite elem_of_union, !elem_of_singleton in Hy.
        destruct Hy as [-> | ->]; [done | by apply Hps].
      * rewrite elem_of_union, !elem_of_singleton. intros [-> | ->]; [done |].
        apply (Hd p); set_solver.
  - by eapply add_table_ok.
  - eapply add_table_repr; [done | | done..]. eapply (repr_agree (outside {[q]})); [done | done | |].
    + intros x Hx. apply alloc_state_mem, Hx. set_solver.
    + intros r x Hrt Hx. apply (outside_page _ r); [| by apply Hps | | done].
      * intros y ->%elem_of_singleton. done.
      * intros ->%elem_of_singleton. done.
  - intros r Hrl. unfold T1. rewrite Ht. specialize (Hd r). set_solver.
  - split; [| split; [done |]].
    + apply (can_alloc_sim s); [| done]. right. unfold s1, table_state. msimpl. done.
    + split; [right | | | exact Hag]; unfold s1, table_state; msimpl; done.
Qed.

Lemma walk_loop_alloc n : forall s T l p va, vm_inv s T l -> can_alloc s -> 0 <= va -> (n <= 2)%nat ->
  pt_tab T !! (n, idx (S n) (va / PGSIZE)) = Some p ->
  exists s' T' new l', walk_loop n p va true s = Ok (leaf_addr T' (va / PGSIZE)) s' /\
    vm_inv s' T' l' /\ can_alloc s' /\ l = new ++ l' /\ pt_grows new T T' /\ pt_map T' = pt_map T /\
    vm_frame (tables T') s s' /\ (leaf_addr T' (va / PGSIZE) = 0 -> l' = []) /\ (length new <= n)%nat.
Proof.
  induction n as [| n IH]; intros s T l p va Hi Hca Hva Hn Hp.
  - exists s, T, [], l. split_and!; try done; auto using pt_grows_refl, vm_frame_refl.
    + cbn [walk_loop]. unfold ret, leaf_addr. rewrite idx_S, idx_0 in Hp. rewrite Hp.
      change 0 with (Z.of_nat 0). rewrite PX_idx by done. by rewrite idx_0.
    + unfold leaf_addr. rewrite idx_S, idx_0 in Hp. rewrite Hp. intros Hz.
      pose proof (po_page _ (vi_ok _ _ _ Hi) _ _ Hp) as Hpp%page_in_pos. kzlia.
  - cbn [walk_loop]. unfold bind at 1, load64, gets. cbn [obind].
    rewrite (walk_entry _ _ _ _ _ Hi Hva (S n) Hp).
    destruct (pt_tab T !! (n, idx (S n) (va / PGSIZE))) as [q |] eqn:E.
    + destruct (entry_table _ _ _ _ (vi_ok _ _ _ Hi) E) as [-> ->].
      destruct (IH s T l q va Hi Hca Hva ltac:(lia) E) as (s' & T' & new & l' & Hw & H1 & H2 & H3 & H4 & H5 & H6 & H7 & H8).
      exists s', T', new, l'. split_and!; try assumption. lia.
    + cbn [entry]. rewrite E, flag_0. cbn [negb]. unfold bind at 1.
      rewrite (kalloc_run _ _ (vi_kmem _ _ _ Hi) Hca). cbn [obind].
      destruct l as [| q l]; cbn [hd].
      * exists (alloc_state [] s), T, [], []. rewrite (leaf_addr_missing _ _ n (vi_ok _ _ _ Hi)) by (lia || done).
        split; [done |]. split; [by destruct Hi as [[] ? ? ?] |]. split; [by apply can_alloc_alloc |].
        split; [done |]. split; [apply pt_grows_refl |]. split; [done |].
        split; [| split; [done | simpl; lia]]. split; [by right | done | done | done].
      * pose proof (ki_pages _ _ (vi_kmem _ _ _ Hi)) as [Hq%truthy_page _]%Forall_cons.
        unfold truthy in Hq. destruct (q =? 0); [done |].
        destruct (walk_grow s T q l n (idx (S n) (va / PGSIZE)) p Hi Hca) as (Hi1 & Hc1 & Hg1 & Hf1).
        { lia. } { apply idx_nonneg. kzlia. } { done. } { by rewrite <- idx_S. }
        rewrite PX_idx by done. revert Hi1 Hc1 Hf1. generalize (alloc_state (q :: l) s). intros s0 Hi1 Hc1 Hf1.
        destruct (IH _ _ l q va Hi1 Hc1 Hva) as (s' & T' & new & l' & Hw & Hi' & Hc' & -> & Hg' & Hm' & Hf' & Hz & Hln).
        { lia. } { simpl. apply lookup_insert_eq. }
        exists s', T', (q :: new), l'. split; [| do 3 (split; [done |]); split; [| split; [exact Hm' | split; [| split; [done | simpl; lia]]]]].
        -- exact Hw.
        -- by eapply (pt_grows_trans [q]).
        -- eapply vm_frame_mono; [| eapply (vm_frame_trans 1); [apply Hca | exact Hf1 | exact Hf']].
           rewrite (pg_tables _ _ _ Hg'). set_solver.
Qed.

Lemma walk_alloc s T l va : vm_inv s T l -> can_alloc s -> 0 <= va < MAXVA ->
  exists s' T' new l', walk (pt_root T) va true s = Ok (leaf_addr T' (va / PGSIZE)) s' /\
    vm_inv s' T' l' /\ can_alloc s' /\ l = new ++ l' /\ pt_grows new T T' /\ pt_map T' = pt_map T /\
    vm_frame (tables T') s s' /\ (leaf_addr T' (va / PGSIZE) = 0 -> l' = []) /\ (length new <= 2)%nat.
Proof.
  intros Hi Hca Hva. unfold walk. destruct (Z.leb_spec MAXVA va); [lia |].
  eapply walk_loop_alloc; [done | done | lia | lia |]. rewrite idx_top by done. apply Hi.
Qed.

(** ** Storing a leaf *)

Definition pte_of (o : option (Z * Z)) : Z := match o with Some (pa, fl) => mkpte pa fl | None => 0 end.

Definition set_leaf (v : Z) (o : option (Z * Z)) (T : pt) : pt :=
  mkPt (pt_root T) (pt_tab T) (partial_alter (fun _ => o) v (pt_map T)).

Definition leaf_ok (o : option (Z * Z)) : Prop :=
  match o with Some (pa, fl) => page_aligned pa /\ 0 <= fl < 1024 /\ fl mod 2 = 1 | None => True end.

Lemma pte_of_range o : leaf_ok o -> 0 <= pte_of o < 2^64.
Proof.
  destruct o as [[pa fl] |]; simpl; [| lia]. intros (Ha & Hf & _).
  pose proof (mkpte_range pa fl Ha Hf). lia.
Qed.

Lemma store_leaf s T l v o : vm_inv s T l -> leaf_addr T v <> 0 -> leaf_ok o ->
  let s' := set_mem (wr64 (m_mem s) (leaf_addr T v) (pte_of o)) s in
  vm_inv s' (set_leaf v o T) l /\ vm_frame (tables T) s s'.
Proof.
  intros [Hk Hok Hr Hd] Hv Ho s'. unfold leaf_addr in *.
  destruct (pt_tab T !! (O, v / 512)) as [p |] eqn:Hp; [| done].
  pose proof (Z.mod_pos_bound v 512) as Hvm.
  assert (Hps : forall x, x ∈ tables T -> page_in x).
  { intros x [y Hy]%elem_tables. by eapply po_page. }
  assert (Hpt : p ∈ tables T) by (apply elem_tables; eauto).
  assert (Hag : agree (outside (tables T)) (m_mem s) (m_mem s')).
  { intros x Hx. specialize (Hx p Hpt). apply rd8_wr64_out. klia. }
  split; [split |].
  - eapply kmem_inv_agree; [done | done | apply mem_ok_wr64, Hk | done |].
    intros q x Hq Hx. pose proof (ki_pages _ _ Hk) as Hl. rewrite Forall_forall in Hl.
    apply (outside_page _ q); auto.
  - destruct Hok as [H1 H2 H3 H4 H5 H6]. constructor; try done.
    intros w pa fl. cbn [set_leaf pt_map pt_tab]. destruct (decide (v = w)) as [<- |].
    + rewrite lookup_partial_alter_eq. intros ->. split; [eauto | done].
    + rewrite lookup_partial_alter_ne by done. apply H6.
  - intros n k q j Hq Hj. cbn [set_leaf pt_tab] in Hq. unfold s'. cbn [m_mem set_mem].
    destruct (decide (q + 8 * j = p + 8 * (v mod 512))) as [He | Hne].
    + assert (q = p) as ->.
      { destruct (decide (q = p)); [done |].
        pose proof (pages_disjoint _ _ (po_page _ Hok _ _ Hq) (po_page _ Hok _ _ Hp) ltac:(done)). klia. }
      pose proof (po_inj _ Hok _ _ _ Hq Hp) as [= -> ->].
      rewrite He, rd64_wr64_eq by (by apply pte_of_range). cbn [entry set_leaf pt_map].
      replace (v / 512 * 512 + j) with v by zlia. by rewrite lookup_partial_alter_eq.
    + rewrite rd64_wr64_ne.
      * rewrite (Hr _ _ _ _ Hq Hj). destruct n; cbn [entry set_leaf pt_map pt_tab]; [| done].
        rewrite lookup_partial_alter_ne; [done |]. intros Hvk.
        assert (k = v / 512 /\ j = v mod 512) as [-> ->] by zlia. congruence.
      * destruct (decide (q = p)) as [-> |]; [lia |].
        pose proof (pages_disjoint _ _ (po_page _ Hok _ _ Hq) (po_page _ Hok _ _ Hp) ltac:(done)). klia.
  - intros q Hq. by apply Hd.
  - split; [by left | done | done | done].
Qed.

End Grow.

(** ** mappages *)

(** [n] consecutive pages from [v] mapped to consecutive physical pages. *)
Fixpoint map_range (n : nat) (v pa fl : Z) (m : gmap Z (Z * Z)) : gmap Z (Z * Z) :=
  match n with
  | O => m
  | S n => map_range n (v + 1) (pa + PGSIZE) fl (<[v := (pa, fl)]> m)
  end.

Lemma lookup_map_range n v pa fl m w :
  map_range n v pa fl m !! w =
    if decide (v <= w < v + Z.of_nat n) then Some (pa + (w - v) * PGSIZE, fl) else m !! w.
Proof.
  revert v pa m. induction n as [| n IH]; intros v pa m; cbn [map_range].
  - by rewrite decide_False by lia.
  - rewrite IH. destruct (decide (w = v)) as [-> |].
    + rewrite decide_False, decide_True by lia. rewrite lookup_insert_eq. do 2 f_equal. lia.
    + rewrite lookup_insert_ne by done. do 2 case_decide; try lia; [| done]. do 2 f_equal. lia.
Qed.

Section Map.
Context `{HI : Image} {HIO : ImageOk}.

Lemma leaf_addr_grows new T T' v : pt_grows new T T' -> leaf_addr T v <> 0 -> leaf_addr T' v = leaf_addr T v.
Proof.
  intros Hg. unfold leaf_addr. destruct (pt_tab T !! _) eqn:E; [| done].
  by rewrite (lookup_weaken _ _ _ _ E (pg_tab _ _ _ Hg)).
Qed.

Lemma mkpte_perm pa perm : Z.lor (Z.lor (PA2PTE pa) perm) PTE_V = mkpte pa (Z.lor perm PTE_V).
Proof. unfold mkpte. by rewrite Z.lor_assoc. Qed.

Lemma perm_V perm : 0 <= perm < 1024 -> 0 <= Z.lor perm PTE_V < 1024 /\ Z.lor perm PTE_V mod 2 = 1.
Proof.
  intros Hp. change PTE_V with (2^0).
  assert (Hl : 0 <= Z.lor perm (2^0)) by (apply Z.lor_nonneg; lia).
  split.
  - split; [done |]. change 1024 with (2^10). apply Z.log2_lt_cancel.
    rewrite Z.log2_lor, !Z.log2_pow2 by lia.
    destruct (decide (perm = 0)) as [-> |]; [done |].
    apply Z.max_lub_lt; [apply Z.log2_lt_pow2; lia | done].
  - rewrite <- Z.bit0_mod, Z.lor_spec. rewrite (Z.pow2_bits_true 0) by lia. by rewrite orb_true_r.
Qed.

(** One iteration: the walk fails for want of memory, or the page is mapped. *)
Lemma mappages_iter fuel perm last s T l a pa : 0 <= perm < 1024 ->
  vm_inv s T l -> can_alloc s -> 0 <= a < MAXVA -> page_aligned pa -> pt_map T !! (a / PGSIZE) = None ->
  exists s1 T1 new l1, vm_inv s1 T1 l1 /\ can_alloc s1 /\ l = new ++ l1 /\ pt_grows new T T1 /\
    vm_frame (tables T1) s s1 /\ (length new <= 2)%nat /\
    (l1 = [] /\ pt_map T1 = pt_map T /\
       mappages_loop (S fuel) (pt_root T) a last pa perm s = Ok (-1) s1 \/
     pt_map T1 = <[a / PGSIZE := (pa, Z.lor perm PTE_V)]> (pt_map T) /\
       mappages_loop (S fuel) (pt_root T) a last pa perm s =
         (if a =? last then ret 0
          else mappages_loop fuel (pt_root T) (u64 (a + PGSIZE)) last (u64 (pa + PGSIZE)) perm) s1).
Proof.
  intros Hperm Hi Hca Ha Hpa Hno.
  destruct (walk_alloc s T l a Hi Hca Ha) as (s1 & T1 & new & l1 & Hw & Hi1 & Hc1 & -> & Hg & Hm & Hf & Hz & Hln).
  destruct (Z.eqb_spec (leaf_addr T1 (a / PGSIZE)) 0) as [Hz' | Hnz].
  { exists s1, T1, new, l1. split_and!; auto. left. split_and!; auto. cbn [mappages_loop].
    rewrite (bind_ok _ _ _ _ _ Hw). by rewrite Hz'. }
  destruct (perm_V perm Hperm) as [Hp1 Hp2].
  destruct (store_leaf s1 T1 l1 (a / PGSIZE) (Some (pa, Z.lor perm PTE_V)) Hi1 Hnz) as [Hi2 Hf2]; [done |].
  cbn [pte_of] in Hi2, Hf2.
  eexists _, (set_leaf (a / PGSIZE) (Some (pa, Z.lor perm PTE_V)) T1), new, l1.
  split; [exact Hi2 |]. split; [by apply (can_alloc_hw s1) |]. split; [done |].
  split; [by destruct Hg |]. split; [| split; [done |]].
  - eapply vm_frame_mono; [| eapply (vm_frame_trans 1); [apply Hca | exact Hf | exact Hf2]].
    unfold tables. simpl. set_solver.
  - right. split; [cbn [set_leaf pt_map]; by rewrite Hm |]. cbn [mappages_loop].
    rewrite (bind_ok _ _ _ _ _ Hw), (proj2 (Z.eqb_neq _ _) Hnz).
    unfold bind, load64, store64, gets, modify. cbn [obind]. rewrite mkpte_perm.
    rewrite (leaf_unmapped _ _ _ _ Hi1) by congruence.
    by rewrite flag_0.
Qed.

Lemma mappages_loop_run perm last : 0 <= perm < 1024 -> forall n s T l a pa,
  vm_inv s T l -> can_alloc s -> 0 <= a -> a mod PGSIZE = 0 ->
  last = a + Z.of_nat n * PGSIZE -> last < MAXVA ->
  page_aligned pa -> pa + (Z.of_nat n + 1) * PGSIZE <= 2^56 ->
  (forall w, a / PGSIZE <= w <= last / PGSIZE -> pt_map T !! w = None) ->
  exists r s' T' new l' k, mappages_loop (S n) (pt_root T) a last pa perm s = Ok r s' /\
    vm_inv s' T' l' /\ can_alloc s' /\ l = new ++ l' /\ pt_grows new T T' /\
    pt_map T' = map_range k (a / PGSIZE) pa (Z.lor perm PTE_V) (pt_map T) /\
    vm_frame (tables T') s s' /\ (length new <= 2 * S n)%nat /\
    (r = 0 /\ k = S n \/ r = -1 /\ (k < S n)%nat /\ l' = []).
Proof.
  intros Hperm. induction n as [| n IH]; intros s T l a pa Hi Hca Ha0 Ha Hlast Hmax Hpa Hpm Hno.
  - destruct (mappages_iter 0 perm last s T l a pa) as (s1 & T1 & new & l1 & Hi1 & Hc1 & -> & Hg & Hf & Hln & Hrun);
      try done; [klia | apply Hno; kzlia |].
    destruct Hrun as [(-> & Hm & Hrun) | (Hm & Hrun)].
    + exists (-1), s1, T1, new, [], O. eauto 12 with lia.
    + destruct (Z.eqb_spec a last); [| lia]. exists 0, s1, T1, new, l1, 1%nat. eauto 12.
  - destruct (mappages_iter (S n) perm last s T l a pa) as (s1 & T1 & new & l1 & Hi1 & Hc1 & -> & Hg & Hf & Hln & Hrun);
      try done; [klia | apply Hno; kzlia |].
    destruct Hrun as [(-> & Hm & Hrun) | (Hm & Hrun)].
    { exists (-1), s1, T1, new, [], O. eauto 12 with lia. }
    rewrite Hrun. destruct (Z.eqb_spec a last); [klia |].
    rewrite !u64_small, <- (pg_root _ _ _ Hg) by (destruct Hpa; klia).
    destruct (IH s1 T1 l1 (a + PGSIZE) (pa + PGSIZE))
      as (r & s3 & T3 & new3 & l3 & k & Hrun3 & Hi3 & Hc3 & -> & Hg3 & Hm3 & Hf3 & Hln3 & Hr); try done.
    + klia.
    + kzlia.
    + klia.
    + destruct Hpa. split; [klia | kzlia].
    + klia.
    + intros w Hwr. rewrite Hm, lookup_insert_ne by kzlia. apply Hno. kzlia.
    + exists r, s3, T3, (new ++ new3), l3, (S k).
      split; [done |]. split; [done |]. split; [done |]. split; [by rewrite app_assoc |].
      split; [by eapply pt_grows_trans |].
      split; [| split; [| split; [rewrite length_app; lia | naive_solver lia]]].
      * rewrite Hm3, Hm. cbn [map_range].
        by replace ((a + PGSIZE) / PGSIZE) with (a / PGSIZE + 1) by kzlia.
      * eapply vm_frame_mono; [| eapply (vm_frame_trans 1); [apply Hca | exact Hf | exact Hf3]].
        rewrite (pg_tables _ _ _ Hg3). set_solver.
Qed.

(** [n] pages from the page-aligned [va]. *)
Lemma mappages_run s T l va n pa perm : 0 <= perm < 1024 -> vm_inv s T l -> can_alloc s ->
  0 <= va -> va mod PGSIZE = 0 -> (0 < n)%nat -> va + Z.of_nat n * PGSIZE <= MAXVA ->
  page_aligned pa -> pa + Z.of_nat n * PGSIZE <= 2^56 ->
  (forall w, va / PGSIZE <= w < va / PGSIZE + Z.of_nat n -> pt_map T !! w = None) ->
  exists r s' T' new l' k, mappages (pt_root T) va (Z.of_nat n * PGSIZE) pa perm s = Ok r s' /\
    vm_inv s' T' l' /\ can_alloc s' /\ l = new ++ l' /\ pt_grows new T T' /\
    pt_map T' = map_range k (va / PGSIZE) pa (Z.lor perm PTE_V) (pt_map T) /\
    vm_frame (tables T') s s' /\ (length new <= 2 * n)%nat /\
    (r = 0 /\ k = n \/ r = -1 /\ (k < n)%nat /\ l' = []).
Proof.
  intros Hperm Hi Hca Hva Hal Hn Hmax Hpa Hpm Hno. unfold mappages. rewrite Hal. cbn [Z.eqb negb].
  rewrite Z.mod_mul by klia. cbn [Z.eqb negb].
  destruct (Z.eqb_spec (Z.of_nat n * PGSIZE) 0); [klia |].
  rewrite Z.div_mul, Nat2Z.id by klia. destruct n as [| n]; [lia |].
  rewrite u64_small by klia. apply mappages_loop_run; try done; try klia.
  intros w Hw. apply Hno. kzlia.
Qed.

End Map.

(** ** uvmunmap *)

Fixpoint unmap_range (n : nat) (v : Z) (m : gmap Z (Z * Z)) : gmap Z (Z * Z) :=
  match n with
  | O => m
  | S n => unmap_range n (v + 1) (delete v m)
  end.

(** The physical pages behind [n] virtual pages, in order. *)
Fixpoint range_pas (n : nat) (v : Z) (m : gmap Z (Z * Z)) : list Z :=
  match n with
  | O => []
  | S n => (default (0, 0) (m !! v)).1 :: range_pas n (v + 1) m
  end.

Lemma lookup_unmap_range n v m w :
  unmap_range n v m !! w = if decide (v <= w < v + Z.of_nat n) then None else m !! w.
Proof.
  revert v m. induction n as [| n IH]; intros v m; cbn [unmap_range].
  - by rewrite decide_False by lia.
  - rewrite IH. destruct (decide (w = v)) as [-> |].
    + rewrite decide_False, decide_True, lookup_delete_eq by lia. done.
    + rewrite lookup_delete_ne by done. do 2 case_decide; try lia; done.
Qed.

Lemma range_pas_ext n v m m' : (forall w, v <= w < v + Z.of_nat n -> m !! w = m' !! w) ->
  range_pas n v m = range_pas n v m'.
Proof.
  revert v. induction n as [| n IH]; intros v Hm; cbn [range_pas]; [done |].
  rewrite Hm, (IH (v + 1)) by lia || (intros; apply Hm; lia). done.
Qed.

Lemma elem_of_range_pas n v m pa :
  pa ∈ range_pas n v m <-> exists w, v <= w < v + Z.of_nat n /\ (default (0, 0) (m !! w)).1 = pa.
Proof.
  revert v. induction n as [| n IH]; intros v; cbn [range_pas].
  - split; [set_solver | intros (w & ? & _); lia].
  - rewrite elem_of_cons, IH. split.
    + intros [-> | (w & ? & ?)]; [exists v | exists w]; (split; [lia | done]).
    + intros (w & ? & ?). destruct (decide (w = v)) as [-> |]; [by left |].
      right. exists w. split; [lia | done].
Qed.

Section Unmap.
Context `{HI : Image} {HIO : ImageOk}.

Lemma vm_free s T l pa : vm_inv s T l -> page_in pa -> pa ∉ l -> pa ∉ tables T ->
  vm_inv (free_state pa s) T (pa :: l) /\ vm_frame {[pa]} s (free_state pa s).
Proof.
  intros [Hk Hok Hr Hd] Hp Hl Ht.
  assert (Ha : agree (outside {[pa]}) (m_mem s) (m_mem (free_state pa s))).
  { intros x Hx. apply free_state_mem, Hx. set_solver. }
  split; [split; [by apply kmem_inv_free | done | | set_solver] | split; [by right | done | done | done]].
  eapply repr_agree; [done | done | done |]. intros q x Hq Hx.
  apply (outside_page _ q); [| | | done].
  - by intros y ->%elem_of_singleton.
  - apply elem_tables in Hq as [y Hy]. by eapply po_page.
  - intros ->%elem_of_singleton. done.
Qed.

(** One page of [uvmunmap]. *)
Lemma unmap_iter fuel s T l a limit (do_free : bool) pa fl : vm_inv s T l -> can_alloc s ->
  0 <= a < MAXVA -> a < limit -> pt_map T !! (a / PGSIZE) = Some (pa, fl) -> fl <> PTE_V ->
  (do_free = true -> page_in pa /\ (pa ∉ l) /\ pa ∉ tables T) ->
  let T1 := set_leaf (a / PGSIZE) None T in
  exists s1, vm_inv s1 T1 ((if do_free then [pa] else []) ++ l) /\ can_alloc s1 /\
    vm_frame (tables T ∪ list_to_set (if do_free then [pa] else [])) s s1 /\
    uvmunmap_loop (S fuel) (pt_root T) a limit do_free s =
      uvmunmap_loop fuel (pt_root T) (u64 (a + PGSIZE)) limit do_free s1.
Proof.
  intros Hi Hca Ha Hlim Hm Hfl Hfree T1.
  destruct (leaf_mapped _ _ _ _ _ _ Hi Hm) as [Hnz Hrd].
  destruct (po_map _ (vi_ok _ _ _ Hi) _ _ _ Hm) as (_ & Hpa & Hf & HfV).
  cbn [uvmunmap_loop]. destruct (Z.ltb_spec a limit); [| lia].
  rewrite (bind_ok _ _ _ _ _ (walk_find _ _ _ _ Hi Ha)), (proj2 (Z.eqb_neq _ _) Hnz).
  rewrite (bind_ok (load64 _) _ s (mkpte pa fl) s) by (unfold load64, gets; by rewrite Hrd).
  rewrite flag_mkpte, flag_V, HfV by (done || by vm_compute). cbn [Z.eqb Pos.eqb negb].
  rewrite PTE_FLAGS_mkpte, PTE2PA_mkpte, (proj2 (Z.eqb_neq _ _) Hfl) by done.
  destruct do_free; cbn [when].
  - destruct (Hfree eq_refl) as (Hin & Hl & Ht).
    rewrite (bind_ok _ _ _ _ _ (kfree_run _ _ Hin Hca)).
    destruct (vm_free s T l pa Hi Hin Hl Ht) as [Hi1 Hf1].
    pose proof (can_alloc_free s pa Hca) as Hc1. revert Hi1 Hf1 Hc1.
    generalize (free_state pa s). intros s1 Hi1 Hf1 Hc1.
    destruct (store_leaf s1 T _ (a / PGSIZE) None Hi1 Hnz I) as [Hi2 Hf2].
    eexists. split; [exact Hi2 |]. split; [by apply (can_alloc_hw s1) |]. split; [| done].
    eapply vm_frame_mono; [| eapply (vm_frame_trans 1); [apply Hca | exact Hf1 | exact Hf2]].
    set_solver.
  - destruct (store_leaf s T _ (a / PGSIZE) None Hi Hnz I) as [Hi2 Hf2].
    eexists. split; [exact Hi2 |]. split; [by apply (can_alloc_hw s) |]. split; [| done].
    eapply vm_frame_mono; [| exact Hf2]. set_solver.
Qed.

(** What a caller of [uvmunmap] must ensure for the [n] pages from [v]. *)
Definition unmappable (n : nat) (v : Z) (do_free : bool) (T : pt) (l : list Z) : Prop :=
  (forall w, v <= w < v + Z.of_nat n -> exists pa fl, pt_map T !! w = Some (pa, fl) /\ fl <> PTE_V) /\
  (do_free = true ->
     NoDup (range_pas n v (pt_map T)) /\
     Forall (fun pa => page_in pa /\ (pa ∉ l) /\ pa ∉ tables T) (range_pas n v (pt_map T))).

Lemma uvmunmap_loop_run (do_free : bool) limit : forall n s T l a,
  vm_inv s T l -> can_alloc s -> 0 <= a -> a mod PGSIZE = 0 -> limit = a + Z.of_nat n * PGSIZE ->
  limit <= MAXVA -> unmappable n (a / PGSIZE) do_free T l ->
  let freed := if do_free then range_pas n (a / PGSIZE) (pt_map T) else [] in
  exists s' T', uvmunmap_loop (S n) (pt_root T) a limit do_free s = Ok tt s' /\
    vm_inv s' T' (rev freed ++ l) /\ can_alloc s' /\
    T' = mkPt (pt_root T) (pt_tab T) (unmap_range n (a / PGSIZE) (pt_map T)) /\
    vm_frame (tables T ∪ list_to_set freed) s s'.
Proof.
  induction n as [| n IH]; intros s T l a Hi Hca Ha0 Ha Hlim Hmax [Hmap Hfree] freed.
  { exists s, T. cbn [uvmunmap_loop]. destruct (Z.ltb_spec a limit); [lia |].
    split; [done |]. split; [by destruct do_free |]. split; [done |].
    split; [by destruct T | apply vm_frame_refl]. }
  destruct (Hmap (a / PGSIZE)) as (pa & fl & Hm & Hfl); [lia |].
  assert (Hv : (a + PGSIZE) / PGSIZE = a / PGSIZE + 1) by kzlia.
  assert (Hpas : range_pas (S n) (a / PGSIZE) (pt_map T) = pa :: range_pas n (a / PGSIZE + 1) (pt_map T)).
  { cbn [range_pas]. by rewrite Hm. }
  rewrite Hpas in *.
  assert (Hext : range_pas n (a / PGSIZE + 1) (pt_map (set_leaf (a / PGSIZE) None T)) =
    range_pas n (a / PGSIZE + 1) (pt_map T)).
  { apply range_pas_ext. intros w Hw. cbn [set_leaf pt_map]. by rewrite lookup_partial_alter_ne by lia. }
  destruct (unmap_iter (S n) s T l a limit do_free pa fl Hi Hca) as (s1 & Hi1 & Hc1 & Hf1 & Hrun);
    [klia | klia | done | done | |].
  { intros E. destruct (Hfree E) as [_ Hall]. by apply Forall_cons in Hall as [? _]. }
  rewrite Hrun, u64_small by klia.
  destruct (IH s1 _ _ (a + PGSIZE) Hi1 Hc1) as (s2 & T2 & Hrun2 & Hi2 & Hc2 & HT2 & Hf2).
  - klia.
  - kzlia.
  - klia.
  - done.
  - rewrite Hv. split.
    + intros w Hw. cbn [set_leaf pt_map]. rewrite lookup_partial_alter_ne by lia. apply Hmap. lia.
    + intros E. rewrite Hext. destruct (Hfree E) as [[Hnin Hnd]%NoDup_cons [_ Hall]%Forall_cons].
      split; [done |]. rewrite E. apply Forall_forall. intros q Hq. rewrite Forall_forall in Hall.
      destruct (Hall q Hq) as (? & ? & ?). split_and!; [done | set_solver | done].
  - rewrite Hv, Hext in *. exists s2, T2. split; [done |].
    split; [| split; [done | split; [by rewrite HT2 |]]].
    + subst freed. destruct do_free; [| done]. rewrite Hpas. cbn [rev]. by rewrite <- app_assoc.
    + eapply vm_frame_mono; [| eapply (vm_frame_trans 1); [apply Hca | exact Hf1 | exact Hf2]].
      subst freed. unfold tables. cbn [set_leaf pt_tab]. destruct do_free; [rewrite Hpas |]; set_solver.
Qed.

Lemma uvmunmap_run (do_free : bool) n s T l va :
  vm_inv s T l -> can_alloc s -> 0 <= va -> va mod PGSIZE = 0 -> va + Z.of_nat n * PGSIZE <= MAXVA ->
  unmappable n (va / PGSIZE) do_free T l ->
  let freed := if do_free then range_pas n (va / PGSIZE) (pt_map T) else [] in
  exists s' T', uvmunmap (pt_root T) va (Z.of_nat n) do_free s = Ok tt s' /\
    vm_inv s' T' (rev freed ++ l) /\ can_alloc s' /\
    T' = mkPt (pt_root T) (pt_tab T) (unmap_range n (va / PGSIZE) (pt_map T)) /\
    vm_frame (tables T ∪ list_to_set freed) s s'.
Proof.
  intros Hi Hca Hva Hal Hmax Hun freed. unfold uvmunmap. rewrite Hal. cbn [Z.eqb negb].
  rewrite Nat2Z.id, u64_small by klia. by apply uvmunmap_loop_run.
Qed.

End Unmap.
