(* ===== verification/Uvm.v ===== *)
(** * User address spaces

    What the user half of kernel/vm.c does to a process's memory. A process of
    [n] pages has virtual pages [0 .. n-1] mapped to distinct physical pages that
    belong to it alone ([uvm_inv]); the byte a user program sees at [va] is
    [uread]. The functions that create, grow, shrink, copy and free an address
    space, and those that copy between kernel and user memory, are specified by
    their effect on [uread] and on the allocator's pages. *)

From S2P Require Import Prelude Riscv Mem StringLib Spinlock Kalloc Vm PageTable.

(** The byte at user address [va]. *)
Definition uread (s : mach) (T : pt) (va : Z) : option Z :=
  match pt_map T !! (va / PGSIZE) with
  | Some (pa, _) => Some (rd8 (m_mem s) (pa + va mod PGSIZE))
  | None => None
  end.

(** Pages needed for [sz] bytes. *)
Definition npages (sz : Z) : nat := Z.to_nat ((sz + PGSIZE - 1) / PGSIZE).

(** The first virtual page above user memory. *)
Definition UTOP : Z := TRAPFRAME / PGSIZE.

Definition upages (n : nat) (T : pt) : list Z := range_pas n 0 (pt_map T).

Section Inv.
Context `{Image}.

Record uvm_inv (s : mach) (T : pt) (l : list Z) (n : nat) : Prop := {
  ui_vm : vm_inv s T l;
  ui_mapped : forall w, 0 <= w < Z.of_nat n -> exists pa fl, pt_map T !! w = Some (pa, fl) /\ fl <> PTE_V;
  ui_above : forall w, Z.of_nat n <= w < UTOP -> pt_map T !! w = None;
  ui_nodup : NoDup (upages n T);
  ui_owned : Forall (fun pa => page_in pa /\ (pa ∉ l) /\ pa ∉ tables T) (upages n T) }.

End Inv.

Lemma range_pas_snoc n v m : range_pas (S n) v m = range_pas n v m ++ range_pas 1 (v + Z.of_nat n) m.
Proof.
  revert v. induction n as [| n IH]; intros v; [cbn; by rewrite Z.add_0_r |].
  change (range_pas (S (S n)) v m) with ((default (0, 0) (m !! v)).1 :: range_pas (S n) (v + 1) m).
  rewrite IH. cbn [range_pas app]. by replace (v + 1 + Z.of_nat n) with (v + Z.of_nat (S n)) by lia.
Qed.

Lemma length_range_pas n v m : length (range_pas n v m) = n.
Proof. revert v. induction n; intros v; simpl; auto. Qed.

Section Uvm.
Context `{HI : Image} {HIO : ImageOk}.

Lemma PGROUNDUP_npages sz : 0 <= sz <= MAXVA -> PGROUNDUP sz = Z.of_nat (npages sz) * PGSIZE.
Proof. intros Hs. rewrite PGROUNDUP_arith by klia. unfold npages. rewrite Z2Nat.id by kzlia. done. Qed.

Lemma upage_in s T l n w pa fl : uvm_inv s T l n -> 0 <= w < Z.of_nat n ->
  pt_map T !! w = Some (pa, fl) -> pa ∈ upages n T.
Proof.
  intros Hu Hw Hm. apply elem_of_range_pas. exists w. split; [lia | by rewrite Hm].
Qed.

Lemma upage_owned s T l n w pa fl : uvm_inv s T l n -> 0 <= w < Z.of_nat n ->
  pt_map T !! w = Some (pa, fl) -> page_in pa /\ (pa ∉ l) /\ pa ∉ tables T.
Proof.
  intros Hu Hw Hm. pose proof (ui_owned _ _ _ _ Hu) as Ho. rewrite Forall_forall in Ho.
  apply Ho. by eapply upage_in.
Qed.

(** Distinct virtual pages have distinct physical pages. *)
Lemma upage_inj s T l n w w' pa fl fl' : uvm_inv s T l n ->
  0 <= w < Z.of_nat n -> 0 <= w' < Z.of_nat n ->
  pt_map T !! w = Some (pa, fl) -> pt_map T !! w' = Some (pa, fl') -> w = w'.
Proof.
  intros Hu Hw Hw' Hm Hm'. pose proof (ui_nodup _ _ _ _ Hu) as Hn.
  assert (Hlk : forall k v, (k < n)%nat -> range_pas n v (pt_map T) !! k =
    Some (default (0, 0) (pt_map T !! (v + Z.of_nat k))).1).
  { clear. induction n as [| n IH]; intros k v Hk; [lia |].
    destruct k as [| k]; cbn [range_pas]; [by rewrite Z.add_0_r |].
    change (range_pas n (v + 1) (pt_map T) !! k = Some (default (0, 0) (pt_map T !! (v + Z.of_nat (S k)))).1).
    rewrite IH by lia. by replace (v + 1 + Z.of_nat k) with (v + Z.of_nat (S k)) by lia. }
  assert (Z.to_nat w = Z.to_nat w'); [| lia].
  eapply NoDup_lookup; [exact Hn | |].
  - unfold upages. rewrite Hlk by lia. rewrite Z.add_0_l, Z2Nat.id, Hm by lia. done.
  - unfold upages. rewrite Hlk by lia. rewrite Z.add_0_l, Z2Nat.id, Hm' by lia. done.
Qed.

(** User memory is untouched by changes to other pages. *)
Lemma uread_frame ps s s' T l n va : uvm_inv s T l n -> 0 <= va < Z.of_nat n * PGSIZE ->
  agree (outside ps) (m_mem s) (m_mem s') -> (forall q, q ∈ ps -> page_in q) ->
  (forall pa fl, pt_map T !! (va / PGSIZE) = Some (pa, fl) -> pa ∉ ps) -> uread s' T va = uread s T va.
Proof.
  intros Hu Hva Ha Hps Hd. unfold uread.
  assert (Hw : 0 <= va / PGSIZE < Z.of_nat n) by kzlia.
  destruct (ui_mapped _ _ _ _ Hu _ Hw) as (pa & fl & Hm & _).
  rewrite Hm. f_equal. apply Ha.
  destruct (upage_owned _ _ _ _ _ _ _ Hu Hw Hm) as [Hp _].
  apply (outside_page _ pa); [done | done | by eapply Hd | kzlia].
Qed.

Lemma uread_map s T T' va : pt_map T' !! (va / PGSIZE) = pt_map T !! (va / PGSIZE) ->
  uread s T' va = uread s T va.
Proof. intros Hm. unfold uread. by rewrite Hm. Qed.

Lemma tables_page_in T p : pt_ok T -> p ∈ tables T -> page_in p.
Proof. intros Hok [x Hx]%elem_tables. by eapply po_page. Qed.

(** Growing the page table with pages of the free list keeps the invariant. *)
Lemma uvm_inv_grows s s' T T' l l' new n : uvm_inv s T l n -> vm_inv s' T' l' -> l = new ++ l' ->
  pt_grows new T T' -> pt_map T' = pt_map T -> uvm_inv s' T' l' n.
Proof.
  intros [Hv Hm Ha Hn Ho] Hv' -> Hg HM.
  assert (Hup : upages n T' = upages n T) by (unfold upages; by rewrite HM).
  split; rewrite ?HM, ?Hup; try done. eapply Forall_impl; [exact Ho |]. intros pa (? & ? & ?).
  rewrite (pg_tables _ _ _ Hg). split_and!; [done | set_solver | set_solver].
Qed.

(** ** Pages in and out of the allocator *)

Lemma vm_alloc s T q l : vm_inv s T (q :: l) -> can_alloc s ->
  vm_inv (alloc_state (q :: l) s) T l /\ can_alloc (alloc_state (q :: l) s) /\
  vm_frame {[q]} s (alloc_state (q :: l) s) /\ page_in q /\ (q ∉ l) /\ q ∉ tables T.
Proof.
  intros [Hk Hok Hr Hd] Hca.
  pose proof (ki_pages _ _ Hk) as [Hq _]%Forall_cons. pose proof (ki_nodup _ _ Hk) as [Hql _]%NoDup_cons.
  assert (Hqt : q ∉ tables T) by (apply Hd; set_solver).
  assert (Ha : agree (outside {[q]}) (m_mem s) (m_mem (alloc_state (q :: l) s))).
  { intros x Hx. apply alloc_state_mem, Hx. set_solver. }
  split; [| split; [by apply can_alloc_alloc | split; [split; [by right | done | done | done] | done]]].
  split; [by apply kmem_inv_alloc | done | | set_solver].
  eapply repr_agree; [done | done | done |]. intros p x Hp Hx.
  apply (outside_page _ p); [by intros y ->%elem_of_singleton | by eapply tables_page_in | | done].
  by intros ->%elem_of_singleton.
Qed.

(** Writing to a page that is neither free nor a table. *)
Lemma vm_write s T l q m : vm_inv s T l -> page_in q -> q ∉ l -> q ∉ tables T -> mem_ok m ->
  agree (outside {[q]}) (m_mem s) m ->
  vm_inv (set_mem m s) T l /\ vm_frame {[q]} s (set_mem m s).
Proof.
  intros [Hk Hok Hr Hd] Hq Hql Hqt Hm Ha.
  assert (Hout : forall p x, page_in p -> p <> q -> p <= x < p + PGSIZE -> outside {[q]} x).
  { intros p x Hp Hne Hx. apply (outside_page _ p); [by intros y ->%elem_of_singleton | done | | done].
    by intros ->%elem_of_singleton. }
  split; [split; [| done | | done] | split; [by left | done | done | done]].
  - eapply kmem_inv_agree; [done | done | done | exact Ha |]. intros p x Hp Hx.
    pose proof (ki_pages _ _ Hk) as Hl. rewrite Forall_forall in Hl.
    eapply Hout; [by apply Hl | by intros -> | done].
  - eapply repr_agree; [done | done | exact Ha |]. intros p x Hp Hx.
    eapply Hout; [by eapply tables_page_in | by intros -> | done].
Qed.

Lemma uvm_inv_alloc s T q l n : uvm_inv s T (q :: l) n -> can_alloc s ->
  uvm_inv (alloc_state (q :: l) s) T l n /\ q ∉ upages n T.
Proof.
  intros [Hv Hm Ha Hn Ho] Hca. destruct (vm_alloc _ _ _ _ Hv Hca) as (Hv1 & _).
  rewrite Forall_forall in Ho. split.
  - split; try done. apply Forall_forall. intros p Hp. destruct (Ho p Hp) as (? & ? & ?). set_solver.
  - intros Hin. destruct (Ho q Hin) as (_ & Hx & _). set_solver.
Qed.

Lemma uvm_inv_write s T l n q m : uvm_inv s T l n -> page_in q -> q ∉ l -> q ∉ tables T -> mem_ok m ->
  agree (outside {[q]}) (m_mem s) m -> uvm_inv (set_mem m s) T l n.
Proof. intros [Hv Hm Ha Hn Ho] ? ? ? ? ?. split; try done. by eapply vm_write. Qed.

Lemma upages_insert T T' n q fl : pt_map T' = <[Z.of_nat n := (q, fl)]> (pt_map T) ->
  upages (S n) T' = upages n T ++ [q].
Proof.
  intros HM. unfold upages. rewrite range_pas_snoc, Z.add_0_l, HM. cbn [range_pas].
  rewrite lookup_insert_eq. simpl. f_equal.
  apply range_pas_ext. intros w Hw. by rewrite lookup_insert_ne by lia.
Qed.

(** Freeing a page that is not part of the address space. *)
Lemma uvm_inv_free s T l n q : uvm_inv s T l n -> page_in q -> (q ∉ l) -> (q ∉ tables T) ->
  (q ∉ upages n T) -> uvm_inv (free_state q s) T (q :: l) n.
Proof.
  intros [Hv Hm Ha Hn Ho] Hq Hl Ht Hu. split; [by apply vm_free | exact Hm | exact Ha | exact Hn |].
  apply Forall_forall. intros p Hp. rewrite Forall_forall in Ho. destruct (Ho p Hp) as (? & ? & ?).
  split_and!; [done | set_solver | done].
Qed.

(** Mapping page [q] as the next user page. *)
Lemma map_user_page s T l n q perm : uvm_inv s T l n -> can_alloc s -> page_in q ->
  (q ∉ l) -> (q ∉ tables T) -> (q ∉ upages n T) -> Z.of_nat n < UTOP -> 0 <= perm < 1024 ->
  Z.lor perm PTE_V <> PTE_V ->
  exists r s' T' new l', mappages (pt_root T) (Z.of_nat n * PGSIZE) PGSIZE q perm s = Ok r s' /\
    can_alloc s' /\ l = new ++ l' /\ pt_grows new T T' /\ vm_frame (tables T') s s' /\ (q ∉ tables T') /\
    (length new <= 2)%nat /\
    (r = 0 /\ uvm_inv s' T' l' (S n) /\ pt_map T' = <[Z.of_nat n := (q, Z.lor perm PTE_V)]> (pt_map T) \/
     r = -1 /\ l' = [] /\ uvm_inv s' T' [] n /\ pt_map T' = pt_map T).
Proof.
  intros Hu Hca Hq Hql Hqt Hqu Hn Hperm HV. pose proof Hu as [Hv Hm Ha Hnd Ho].
  assert (Hvn : Z.of_nat n * PGSIZE / PGSIZE = Z.of_nat n) by kzlia.
  pose proof (page_in_aligned _ Hq) as Hqa. pose proof (page_in_pos _ Hq) as Hqp.
  unfold UTOP in *.
  destruct (mappages_run s T l (Z.of_nat n * PGSIZE) 1 q perm)
    as (r & s' & T' & new & l' & k & Hrun & Hv' & Hc' & -> & Hg & HM & Hf & Hln & Hr); try done; try kzlia.
  { intros w Hw. apply Ha. rewrite Hvn in Hw. lia. }
  assert (Hqt' : q ∉ tables T') by (rewrite (pg_tables _ _ _ Hg); set_solver).
  exists r, s', T', new, l'. rewrite Hvn in HM. do 7 (split; [done |]).
  destruct Hr as [[-> ->] | (-> & Hk & ->)]; [left | right].
  - cbn [map_range] in HM. split; [done |]. split; [| done].
    pose proof (upages_insert _ _ _ _ _ HM) as Hup.
    split; [done | | | |].
    + intros w Hw. rewrite HM. destruct (decide (w = Z.of_nat n)) as [-> |].
      * rewrite lookup_insert_eq. eauto.
      * rewrite lookup_insert_ne by done. apply Hm. lia.
    + intros w Hw. rewrite HM, lookup_insert_ne by lia. apply Ha. unfold UTOP in Hw. lia.
    + rewrite Hup. apply NoDup_app. split; [done |]. split; [set_solver | apply NoDup_singleton].
    + rewrite Hup. apply Forall_app. split.
      * eapply Forall_impl; [exact Ho |]. intros pa (? & ? & ?). rewrite (pg_tables _ _ _ Hg).
        split_and!; [done | set_solver | set_solver].
      * apply Forall_singleton. split_and!; [done | set_solver | done].
  - destruct k; [| lia]. cbn [map_range] in HM. split; [done |]. split; [done |]. split; [| done].
    by eapply uvm_inv_grows.
Qed.

(** ** What an operation may change *)

(** All pages of an address space of [n] pages and the free list. *)
Definition pool (T : pt) (n : nat) (l : list Z) : gset Z := tables T ∪ list_to_set (upages n T ++ l).

(** An operation that takes an address space of [n] pages to one of [n']:
    no page is lost or invented, no memory outside the pool is written, the
    mappings above user memory and the first [k] pages, with their contents, are
    unchanged. *)
Record uvm_rel (k : nat) (s : mach) (T : pt) (l : list Z) (n : nat)
    (s' : mach) (T' : pt) (l' : list Z) (n' : nat) : Prop := {
  ur_root : pt_root T' = pt_root T;
  ur_pool : pool T' n' l' = pool T n l;
  ur_frame : vm_frame (pool T n l) s s';
  ur_map : forall w, w < Z.of_nat k \/ UTOP <= w -> pt_map T' !! w = pt_map T !! w;
  ur_read : forall va, 0 <= va < Z.of_nat k * PGSIZE -> uread s' T' va = uread s T va }.

Lemma uvm_rel_refl k s T l n : uvm_rel k s T l n s T l n.
Proof. split; try done. apply vm_frame_refl. Qed.

Lemma uvm_rel_trans k j s1 T1 l1 n1 s2 T2 l2 n2 s3 T3 l3 n3 : hw_ok j (m_hw s1) ->
  uvm_rel k s1 T1 l1 n1 s2 T2 l2 n2 -> uvm_rel k s2 T2 l2 n2 s3 T3 l3 n3 ->
  uvm_rel k s1 T1 l1 n1 s3 T3 l3 n3.
Proof.
  intros Hh [R1 P1 F1 M1 U1] [R2 P2 F2 M2 U2]. split; [congruence | congruence | | |].
  - eapply vm_frame_mono; [| eapply vm_frame_trans; [exact Hh | exact F1 | exact F2]]. set_solver.
  - intros w Hw. rewrite M2 by done. by apply M1.
  - intros va Hva. rewrite U2 by done. by apply U1.
Qed.

Lemma uvm_rel_mono k k' s T l n s' T' l' n' : (k' <= k)%nat ->
  uvm_rel k s T l n s' T' l' n' -> uvm_rel k' s T l n s' T' l' n'.
Proof.
  intros Hk [R P F M U]. split; try done.
  - intros w [Hw | Hw]; apply M; [left; lia | by right].
  - intros va Hva. apply U. klia.
Qed.

Lemma pool_page_in s T l n p : uvm_inv s T l n -> p ∈ pool T n l -> page_in p.
Proof.
  intros [Hv _ _ _ Ho] Hp. unfold pool in Hp. rewrite Forall_forall in Ho.
  rewrite elem_of_union, elem_of_list_to_set, elem_of_app in Hp.
  destruct Hp as [Hp | [Hp | Hp]].
  - eapply tables_page_in; [apply Hv | done].
  - by apply Ho.
  - pose proof (ki_pages _ _ (vi_kmem _ _ _ Hv)) as Hl. rewrite Forall_forall in Hl. by apply Hl.
Qed.

(** ** Shrinking *)

Lemma elem_of_rev (x : Z) l : x ∈ rev l <-> x ∈ l.
Proof. rewrite !list_elem_of_In. symmetry. apply in_rev. Qed.

Lemma range_pas_app j k v m : range_pas (j + k) v m = range_pas j v m ++ range_pas k (v + Z.of_nat j) m.
Proof.
  revert v. induction j as [| j IH]; intros v; cbn [range_pas Nat.add app]; [by rewrite Z.add_0_r |].
  rewrite IH. by replace (v + 1 + Z.of_nat j) with (v + Z.of_nat (S j)) by lia.
Qed.

Lemma uvm_unmappable s T l n k : uvm_inv s T l n -> (k <= n)%nat ->
  unmappable (n - k) (Z.of_nat k) true T l.
Proof.
  intros [Hv Hm Ha Hn Ho] Hk. unfold upages in *.
  replace n with (k + (n - k))%nat in Hn, Ho by lia.
  rewrite range_pas_app, Z.add_0_l in Hn, Ho. apply NoDup_app in Hn as (_ & _ & Hn).
  apply Forall_app in Ho as [_ Ho]. split; [| done]. intros w Hw. apply Hm. lia.
Qed.

(** Unmapping and freeing the pages from [k] on. *)
Lemma uvm_shrink s T l n k : uvm_inv s T l n -> can_alloc s -> (k <= n)%nat -> Z.of_nat n <= UTOP ->
  exists s' T' l', uvmunmap (pt_root T) (Z.of_nat k * PGSIZE) (Z.of_nat (n - k)) true s = Ok tt s' /\
    can_alloc s' /\ uvm_inv s' T' l' k /\ uvm_rel k s T l n s' T' l' k /\ tables T' = tables T.
Proof.
  intros Hu Hca Hk Hn. pose proof Hu as [Hv Hm Ha Hnd Ho].
  assert (Hvk : Z.of_nat k * PGSIZE / PGSIZE = Z.of_nat k) by kzlia.
  destruct (uvmunmap_run true (n - k) s T l (Z.of_nat k * PGSIZE) Hv Hca)
    as (s' & T' & Hrun & Hv' & Hc' & HT' & Hf).
  { klia. } { kzlia. } { unfold UTOP in Hn. kzlia. } { rewrite Hvk. by eapply uvm_unmappable. }
  rewrite Hvk in *. set (fr := range_pas (n - k) (Z.of_nat k) (pt_map T)) in *.
  assert (Hups : upages n T = upages k T ++ fr).
  { unfold upages, fr. replace n with (k + (n - k))%nat at 1 by lia. by rewrite range_pas_app, Z.add_0_l. }
  assert (HM : forall w, w < Z.of_nat k \/ Z.of_nat n <= w -> pt_map T' !! w = pt_map T !! w).
  { intros w Hw. rewrite HT'. cbn [pt_map]. rewrite lookup_unmap_range, decide_False by lia. done. }
  assert (Hup' : upages k T' = upages k T) by (apply range_pas_ext; intros; apply HM; lia).
  rewrite Hups in Hnd, Ho. apply NoDup_app in Hnd as (Hnk & Hdj & Hnf).
  apply Forall_app in Ho as [Hok Hof]. assert (Htt : tables T' = tables T) by (by rewrite HT').
  exists s', T', (rev fr ++ l). split; [done |]. split; [done |]. split; [| split; [| done]].
  - split; [done | | | by rewrite Hup' |].
    + intros w Hw. rewrite HM by lia. apply Hm. lia.
    + intros w Hw. rewrite HT'. cbn [pt_map]. rewrite lookup_unmap_range. case_decide; [done |]. apply Ha. lia.
    + rewrite Hup', Htt. apply Forall_forall. intros p Hp. rewrite Forall_forall in Hok.
      destruct (Hok p Hp) as (? & ? & ?). split_and!; [done | | done].
      rewrite elem_of_app, elem_of_rev. intros [Hpf | ?]; [by eapply Hdj | done].
  - split; [by rewrite HT' | | | |].
    + unfold pool. rewrite Htt, Hup', Hups. apply set_eq. intros x.
      rewrite !elem_of_union, !elem_of_list_to_set, !elem_of_app, elem_of_rev. tauto.
    + eapply vm_frame_mono; [| exact Hf]. unfold pool. rewrite Hups. set_solver.
    + intros w Hw. apply HM. lia.
    + intros va Hva. rewrite (uread_map _ T) by (apply HM; left; kzlia).
      eapply uread_frame; [exact Hu | klia | apply Hf | |].
      * intros q Hq. eapply pool_page_in; [exact Hu |]. unfold pool. rewrite Hups. set_solver.
      * intros pa fl Hpa. rewrite Forall_forall in Hok.
        assert (Hin : pa ∈ upages k T).
        { apply elem_of_range_pas. exists (va / PGSIZE). split; [kzlia | by rewrite Hpa]. }
        destruct (Hok pa Hin) as (_ & _ & Hnt). specialize (Hdj pa Hin). set_solver.
Qed.

Lemma npages_mono a b : 0 <= a <= b -> (npages a <= npages b)%nat.
Proof. intros. unfold npages. apply Z2Nat.inj_le; kzlia. Qed.

Lemma npages_UTOP sz : 0 <= sz <= TRAPFRAME -> Z.of_nat (npages sz) <= UTOP.
Proof. intros. unfold npages, UTOP. rewrite Z2Nat.id by kzlia. kzlia. Qed.

Lemma uvmdealloc_run s T l oldsz newsz : uvm_inv s T l (npages oldsz) -> can_alloc s ->
  0 <= newsz -> 0 <= oldsz <= TRAPFRAME ->
  exists s' T' l', uvmdealloc (pt_root T) oldsz newsz s = Ok (Z.min oldsz newsz) s' /\ can_alloc s' /\
    uvm_inv s' T' l' (npages (Z.min oldsz newsz)) /\
    uvm_rel (npages (Z.min oldsz newsz)) s T l (npages oldsz) s' T' l' (npages (Z.min oldsz newsz)).
Proof.
  intros Hu Hca Hn Ho. unfold uvmdealloc. destruct (Z.leb_spec oldsz newsz) as [Hle | Hlt].
  { rewrite Z.min_l by done. exists s, T, l. split; [done |]. split; [done |]. split; [done |].
    apply uvm_rel_refl. }
  rewrite Z.min_r by lia. rewrite !PGROUNDUP_npages by klia.
  pose proof (npages_mono newsz oldsz ltac:(lia)) as Hm. pose proof (npages_UTOP oldsz Ho) as Ht.
  destruct (Z.ltb_spec (Z.of_nat (npages newsz) * PGSIZE) (Z.of_nat (npages oldsz) * PGSIZE)).
  - destruct (uvm_shrink s T l (npages oldsz) (npages newsz) Hu Hca Hm Ht)
      as (s' & T' & l' & Hrun & Hc' & Hu' & Hr' & _).
    exists s', T', l'. split; [| done]. cbn [when].
    replace (_ / PGSIZE) with (Z.of_nat (npages oldsz - npages newsz)) by kzlia.
    unfold UTOP in Ht. rewrite i32_small, u64_small by kzlia. by rewrite (bind_ok _ _ _ _ _ Hrun).
  - assert (Heq : npages newsz = npages oldsz) by klia. exists s, T, l. rewrite Heq. cbn [when].
    split; [done |]. split; [done |]. split; [done |]. apply uvm_rel_refl.
Qed.

(** ** Growing by one page *)

(** Page [q] has been allocated and filled (memory [m]); map it as user page
    [n], giving it back if that fails. *)
Lemma uvm_add_page s T q l n perm m : uvm_inv s T (q :: l) n -> can_alloc s ->
  mem_ok m -> agree (outside {[q]}) (m_mem (alloc_state (q :: l) s)) m ->
  Z.of_nat n < UTOP -> 0 <= perm < 1024 -> Z.lor perm PTE_V <> PTE_V ->
  exists r s' T', mappages (pt_root T) (Z.of_nat n * PGSIZE) PGSIZE q perm
      (set_mem m (alloc_state (q :: l) s)) = Ok r s' /\ can_alloc s' /\
    (r = 0 /\ (exists l', uvm_inv s' T' l' (S n) /\ uvm_rel n s T (q :: l) n s' T' l' (S n) /\
         (length l <= length l' + 2)%nat) /\
       pt_map T' !! Z.of_nat n = Some (q, Z.lor perm PTE_V) /\
       (forall x, q <= x < q + PGSIZE -> rd8 (m_mem s') x = rd8 m x) \/
     r = -1 /\ (length l <= 2)%nat /\ exists s'', kfree q s' = Ok tt s'' /\ can_alloc s'' /\ uvm_inv s'' T' [q] n /\
       uvm_rel n s T (q :: l) n s'' T' [q] n).
Proof.
  intros Hu Hca Hm Hag Hn Hperm HV.
  destruct (vm_alloc _ _ _ _ (ui_vm _ _ _ _ Hu) Hca) as (_ & Hc0 & Hf0 & Hq & Hql & Hqt).
  destruct (uvm_inv_alloc _ _ _ _ _ Hu Hca) as [Hu0 Hqu].
  revert Hag Hc0 Hf0 Hu0. generalize (alloc_state (q :: l) s). intros s0 Hag Hc0 Hf0 Hu0.
  pose proof (uvm_inv_write _ _ _ _ _ _ Hu0 Hq Hql Hqt Hm Hag) as Hu1.
  destruct (vm_write _ _ _ _ _ (ui_vm _ _ _ _ Hu0) Hq Hql Hqt Hm Hag) as [_ Hf1].
  destruct (map_user_page _ _ _ _ q perm Hu1 ltac:(by apply (can_alloc_hw s0)) Hq Hql Hqt Hqu Hn Hperm HV)
    as (r & s' & T' & new & l' & Hrun & Hc' & -> & Hg & Hf2 & Hqt' & Hln & Hr).
  set (P := pool T n (q :: new ++ l')).
  assert (Htp : tables T' ∪ {[q]} ⊆ P).
  { unfold P, pool. rewrite (pg_tables _ _ _ Hg). set_solver. }
  assert (Hf : vm_frame (tables T' ∪ {[q]}) s s').
  { eapply vm_frame_mono; [| eapply (vm_frame_trans 1); [apply Hca | eapply (vm_frame_trans 1);
      [apply Hca | exact Hf0 | exact Hf1] | exact Hf2]]. set_solver. }
  assert (Hrd : forall s2 va, vm_frame (tables T' ∪ {[q]}) s s2 -> 0 <= va < Z.of_nat n * PGSIZE ->
    uread s2 T va = uread s T va).
  { intros s2 va Hfr Hva. eapply uread_frame; [exact Hu | done | apply Hfr | |].
    - intros x Hx. eapply pool_page_in; [exact Hu |]. by apply Htp.
    - intros pa fl Hpa. assert (Hw : 0 <= va / PGSIZE < Z.of_nat n) by kzlia.
      destruct (upage_owned _ _ _ _ _ _ _ Hu Hw Hpa) as (_ & Hnl & Hnt).
      rewrite (pg_tables _ _ _ Hg). set_solver. }
  exists r, s', T'. split; [done |]. split; [done |].
  destruct Hr as [(-> & Hu' & HM) | (-> & -> & Hu' & HM)]; [left | right].
  - split; [done |]. split; [exists l'; split; [done |]; split; [| rewrite length_app; lia] | split].
    + split; [apply Hg | | by eapply vm_frame_mono | |].
      * unfold pool. rewrite (upages_insert _ _ _ _ _ HM), (pg_tables _ _ _ Hg). set_solver.
      * intros w Hw. rewrite HM, lookup_insert_ne by lia. done.
      * intros va Hva. rewrite (uread_map _ T); [by apply Hrd |]. rewrite HM, lookup_insert_ne by kzlia. done.
    + by rewrite HM, lookup_insert_eq.
    + intros x Hx. rewrite (vf_mem _ _ _ Hf2); [done |].
      apply (outside_page _ q); [| done | done | done].
      intros y Hy. eapply tables_page_in; [apply Hu' | done].
  - assert (Hup : upages n T' = upages n T) by (unfold upages; by rewrite HM).
    split; [done |]. split; [rewrite length_app; simpl; lia |].
    exists (free_state q s'). split; [by apply kfree_run |].
    split; [by apply can_alloc_free |].
    destruct (vm_free s' T' [] q (ui_vm _ _ _ _ Hu') Hq) as [_ Hf3]; [set_solver | done |].
    split; [apply uvm_inv_free; [done | done | set_solver | done | by rewrite Hup] |].
    assert (Hf' : vm_frame (tables T' ∪ {[q]}) s (free_state q s')).
    { eapply vm_frame_mono; [| eapply (vm_frame_trans 1); [apply Hca | exact Hf | exact Hf3]]. set_solver. }
    split; [apply Hg | | by eapply vm_frame_mono | |].
    * unfold pool. rewrite Hup, (pg_tables _ _ _ Hg). set_solver.
    * intros w Hw. by rewrite HM.
    * intros va Hva. rewrite (uread_map _ T); [by apply Hrd | by rewrite HM].
Qed.

(** ** uvmalloc *)

Lemma npages_mul n : npages (Z.of_nat n * PGSIZE) = n.
Proof. unfold npages. replace (_ / PGSIZE) with (Z.of_nat n) by kzlia. apply Nat2Z.id. Qed.

Lemma npages_spec sz n : 0 <= sz -> npages sz = n -> sz <= Z.of_nat n * PGSIZE < sz + PGSIZE.
Proof. intros ? <-. unfold npages. rewrite Z2Nat.id by kzlia. kzlia. Qed.

(** The permissions [uvmalloc] uses are those of a leaf. *)
Lemma uperm_ok xperm : 0 <= xperm < 1024 ->
  0 <= Z.lor (Z.lor PTE_R PTE_U) xperm < 1024 /\ Z.lor (Z.lor (Z.lor PTE_R PTE_U) xperm) PTE_V <> PTE_V.
Proof.
  intros Hx. split; [apply (lor_range _ _ 10); [lia | by vm_compute | exact Hx] |].
  intros E. apply (f_equal (fun z => Z.testbit z 1)) in E. rewrite !Z.lor_spec in E. done.
Qed.

Definition uflags (xperm : Z) : Z := Z.lor (Z.lor (Z.lor PTE_R PTE_U) xperm) PTE_V.

(** Undoing a partial growth from [n0] to [n] pages. *)
Lemma uvm_undo s T l n0 n : uvm_inv s T l n -> can_alloc s -> (n0 <= n)%nat -> Z.of_nat n <= UTOP ->
  exists s' T' l', (uvmdealloc (pt_root T) (Z.of_nat n * PGSIZE) (Z.of_nat n0 * PGSIZE) ;;; ret 0) s = Ok 0 s' /\
    can_alloc s' /\ uvm_inv s' T' l' n0 /\ uvm_rel n0 s T l n s' T' l' n0.
Proof.
  intros Hu Hca Hn Ht.
  destruct (uvmdealloc_run s T l (Z.of_nat n * PGSIZE) (Z.of_nat n0 * PGSIZE))
    as (s' & T' & l' & Hrun & Hc' & Hu' & Hr').
  - by rewrite npages_mul.
  - done.
  - klia.
  - unfold UTOP in Ht. kzlia.
  - rewrite Z.min_r in Hu', Hr' by klia. rewrite npages_mul in Hu'. rewrite !npages_mul in Hr'.
    exists s', T', l'. split; [by rewrite (bind_ok _ _ _ _ _ Hrun) | ]. split; [done |]. split; [exact Hu' | exact Hr'].
Qed.

(** An allocation that finds no page. *)
Lemma uvm_alloc_nil k s T n : uvm_inv s T [] n -> can_alloc s ->
  uvm_inv (alloc_state [] s) T [] n /\ can_alloc (alloc_state [] s) /\
  uvm_rel k s T [] n (alloc_state [] s) T [] n.
Proof.
  intros [[Hk ? ? ?] ? ? ? ?] Hca. split; [| split; [by apply can_alloc_alloc |]].
  - by destruct Hk.
  - split; try done. split; [by right | done | done | done].
Qed.

Lemma page_nonzero q : page_in q -> (q =? 0) = false.
Proof. intros Hq%truthy_page. unfold truthy in Hq. by destruct (q =? 0). Qed.

Lemma uvm_page_in s T q l n : uvm_inv s T (q :: l) n -> page_in q.
Proof. intros [[Hk _ _ _] _ _ _ _]. by pose proof (ki_pages _ _ Hk) as [? _]%Forall_cons. Qed.

Lemma uread_zero s T w q fl va : pt_map T !! w = Some (q, fl) -> va / PGSIZE = w ->
  (forall x, q <= x < q + PGSIZE -> rd8 (m_mem s) x = 0) -> uread s T va = Some 0.
Proof. intros Hm <- Hz. unfold uread. rewrite Hm, Hz; [done | kzlia]. Qed.

(** One iteration of [uvmalloc]: a zeroed page more, or everything undone. *)
Lemma uvmalloc_iter fuel n0 newsz xperm s T l n : 0 <= xperm < 1024 -> uvm_inv s T l n -> can_alloc s ->
  (n0 <= n)%nat -> Z.of_nat n < UTOP -> Z.of_nat n * PGSIZE < newsz ->
  let loop fuel n := uvmalloc_loop fuel (pt_root T) (Z.of_nat n * PGSIZE) (Z.of_nat n0 * PGSIZE) newsz xperm in
  exists s' T' l', can_alloc s' /\
    (loop (S fuel) n s = loop fuel (S n) s' /\ uvm_inv s' T' l' (S n) /\ uvm_rel n s T l n s' T' l' (S n) /\
       (exists pa, pt_map T' !! Z.of_nat n = Some (pa, uflags xperm)) /\
       (forall va, Z.of_nat n * PGSIZE <= va < Z.of_nat (S n) * PGSIZE -> uread s' T' va = Some 0) /\
       (length l <= length l' + 3)%nat \/
     loop (S fuel) n s = Ok 0 s' /\ uvm_inv s' T' l' n0 /\ uvm_rel n0 s T l n s' T' l' n0 /\
       (length l <= 3)%nat).
Proof.
  intros Hx Hu Hca Hn Ht Hlt loop. destruct (uperm_ok xperm Hx) as [Hp HV].
  assert (Hloop : loop (S fuel) n s = uvmalloc_loop (S fuel) (pt_root T) (Z.of_nat n * PGSIZE)
    (Z.of_nat n0 * PGSIZE) newsz xperm s) by done. revert Hloop. cbn [uvmalloc_loop].
  destruct (Z.ltb_spec (Z.of_nat n * PGSIZE) newsz); [| lia].
  rewrite (bind_ok _ _ _ _ _ (kalloc_run _ _ (vi_kmem _ _ _ (ui_vm _ _ _ _ Hu)) Hca)).
  destruct l as [| q l]; cbn [hd].
  { destruct (uvm_alloc_nil n0 s T n Hu Hca) as (Hu1 & Hc1 & Hr1).
    destruct (uvm_undo _ _ _ n0 n Hu1 Hc1 Hn) as (s' & T' & l' & Hrun & Hc' & Hu' & Hr'); [lia |].
    intros Hloop. exists s', T', l'. split; [done |]. right. split; [rewrite Hloop; exact Hrun |]. split; [done |].
    split; [eapply uvm_rel_trans; [apply Hca | exact Hr1 | exact Hr'] | simpl; lia]. }
  pose proof (uvm_page_in _ _ _ _ _ Hu) as Hq. rewrite (page_nonzero q Hq).
  set (m := memset (m_mem (alloc_state (q :: l) s)) q 0 PGSIZE).
  destruct (uvm_add_page s T q l n (Z.lor (Z.lor PTE_R PTE_U) xperm) m Hu Hca)
    as (r & s1 & T1 & Hrun1 & Hc1 & Hr1); [| | lia | done | done |].
  { apply mem_ok_memset. destruct (vm_alloc _ _ _ _ (ui_vm _ _ _ _ Hu) Hca) as [Hv _]. apply Hv. }
  { intros x Hxq. apply rd8_memset_out; [klia |]. apply Hxq. set_solver. }
  unfold bind at 1, memset_m, modify. cbn [obind]. fold m.
  rewrite (bind_ok _ _ _ _ _ Hrun1).
  destruct Hr1 as [(-> & (l1 & Hu1 & Hr1 & Hln) & Hm1 & Hz1) | (-> & Hln & s2 & Hk2 & Hc2 & Hu2 & Hr2)]; cbn [Z.eqb negb].
  - rewrite u64_small by (unfold UTOP in Ht; kzlia).
    replace (Z.of_nat n * PGSIZE + PGSIZE) with (Z.of_nat (S n) * PGSIZE) by lia.
    intros Hloop. exists s1, T1, l1. split; [done |]. left. split_and!; [done | done | done | by exists q | | simpl; lia].
    intros va Hva. eapply uread_zero; [exact Hm1 | kzlia |]. intros x Hxq. rewrite Hz1 by done.
    apply rd8_memset_in; [klia | done].
  - rewrite (bind_ok _ _ _ _ _ Hk2). pose proof (ur_root _ _ _ _ _ _ _ _ _ Hr2) as Hrt.
    destruct (uvm_undo _ _ _ n0 n Hu2 Hc2 Hn) as (s' & T' & l' & Hrun & Hc' & Hu' & Hr'); [lia |].
    rewrite Hrt in Hrun.
    intros Hloop. exists s', T', l'. split; [done |]. right. split; [rewrite Hloop; exact Hrun |]. split; [done |].
    split; [eapply uvm_rel_trans; [apply Hca | eapply uvm_rel_mono, Hr2; lia | exact Hr'] | simpl; lia].
Qed.

Lemma uvmalloc_loop_run n0 newsz xperm : 0 <= xperm < 1024 -> 0 <= newsz <= TRAPFRAME ->
  forall k s T l n, uvm_inv s T l n -> can_alloc s -> (n0 <= n)%nat -> npages newsz = (n + k)%nat ->
  exists r s' T' l', uvmalloc_loop (S k) (pt_root T) (Z.of_nat n * PGSIZE) (Z.of_nat n0 * PGSIZE) newsz xperm s
      = Ok r s' /\ can_alloc s' /\
    (r = newsz /\ uvm_inv s' T' l' (n + k) /\ uvm_rel n s T l n s' T' l' (n + k) /\
       (forall w, Z.of_nat n <= w < Z.of_nat (n + k) -> exists pa, pt_map T' !! w = Some (pa, uflags xperm)) /\
       (forall va, Z.of_nat n * PGSIZE <= va < Z.of_nat (n + k) * PGSIZE -> uread s' T' va = Some 0) /\
       (length l <= length l' + 3 * k)%nat \/
     r = 0 /\ uvm_inv s' T' l' n0 /\ uvm_rel n0 s T l n s' T' l' n0 /\ (length l <= 3 * k)%nat).
Proof.
  intros Hx Hsz. pose proof (npages_UTOP newsz Hsz) as Htop.
  induction k as [| k IH]; intros s T l n Hu Hca Hn Hk;
    pose proof (npages_spec newsz _ (proj1 Hsz) Hk) as Hsp.
  { exists newsz, s, T, l. cbn [uvmalloc_loop]. destruct (Z.ltb_spec (Z.of_nat n * PGSIZE) newsz); [klia |].
    rewrite Nat.add_0_r. split; [done |]. split; [done |]. left.
    split; [done |]. split; [done |]. split; [apply uvm_rel_refl |]. split_and!; intros; lia. }
  destruct (uvmalloc_iter (S k) n0 newsz xperm s T l n Hx Hu Hca Hn)
    as (s1 & T1 & l1 & Hc1 & [(Hrun & Hu1 & Hr1 & Hm1 & Hz1 & Hl1) | (Hrun & Hu1 & Hr1 & Hl1)]); [lia | klia | |].
  - rewrite Hrun, <- (ur_root _ _ _ _ _ _ _ _ _ Hr1).
    destruct (IH s1 T1 l1 (S n) Hu1 Hc1) as (r & s' & T' & l' & Hrun' & Hc' & Hr'); [lia | lia |].
    exists r, s', T', l'. split; [exact Hrun' |]. split; [done |].
    destruct Hr' as [(-> & Hu' & Hr' & Hfl & Hz & Hl') | (-> & Hu' & Hr' & Hl')]; [left | right].
    + replace (n + S k)%nat with (S n + k)%nat by lia. split; [done |]. split; [done |].
      split; [eapply uvm_rel_trans; [apply Hca | exact Hr1 | eapply uvm_rel_mono, Hr'; lia] |].
      split; [| split; [| lia]].
      * intros w Hw. destruct (decide (w = Z.of_nat n)) as [-> |]; [| apply Hfl; lia].
        rewrite (ur_map _ _ _ _ _ _ _ _ _ Hr') by lia. exact Hm1.
      * intros va Hva. destruct (decide (va < Z.of_nat (S n) * PGSIZE)); [| apply Hz; lia].
        rewrite (ur_read _ _ _ _ _ _ _ _ _ Hr') by klia. apply Hz1. klia.
    + split; [done |]. split; [done |].
      split; [eapply uvm_rel_trans; [apply Hca | eapply uvm_rel_mono, Hr1; lia | exact Hr'] | lia].
  - exists 0, s1, T1, l1. split; [exact Hrun |]. split; [done |]. right. do 3 (split; [done |]). lia.
Qed.

Lemma uvmalloc_run s T l oldsz newsz xperm : uvm_inv s T l (npages oldsz) -> can_alloc s ->
  0 <= xperm < 1024 -> 0 <= oldsz <= newsz -> newsz <= TRAPFRAME ->
  exists r s' T' l', uvmalloc (pt_root T) oldsz newsz xperm s = Ok r s' /\ can_alloc s' /\
    (r = newsz /\ uvm_inv s' T' l' (npages newsz) /\
       uvm_rel (npages oldsz) s T l (npages oldsz) s' T' l' (npages newsz) /\
       (forall w, Z.of_nat (npages oldsz) <= w < Z.of_nat (npages newsz) ->
          exists pa, pt_map T' !! w = Some (pa, uflags xperm)) /\
       (forall va, Z.of_nat (npages oldsz) * PGSIZE <= va < Z.of_nat (npages newsz) * PGSIZE ->
          uread s' T' va = Some 0) /\
       (length l <= length l' + 3 * (npages newsz - npages oldsz))%nat \/
     r = 0 /\ uvm_inv s' T' l' (npages oldsz) /\
       uvm_rel (npages oldsz) s T l (npages oldsz) s' T' l' (npages oldsz) /\
       (length l <= 3 * (npages newsz - npages oldsz))%nat).
Proof.
  intros Hu Hca Hx Hsz Htop. unfold uvmalloc. destruct (Z.ltb_spec newsz oldsz); [lia |].
  rewrite PGROUNDUP_npages by klia. pose proof (npages_mono oldsz newsz Hsz) as Hm.
  pose proof (npages_spec newsz _ ltac:(lia) eq_refl) as Hs.
  replace (S (Z.to_nat _)) with (S (npages newsz - npages oldsz)) by kzlia.
  destruct (uvmalloc_loop_run (npages oldsz) newsz xperm Hx ltac:(lia) (npages newsz - npages oldsz)
    s T l (npages oldsz) Hu Hca) as (r & s' & T' & l' & Hrun & Hc' & Hr); [lia | lia |].
  replace (npages oldsz + (npages newsz - npages oldsz))%nat with (npages newsz) in Hr by lia. eauto 10.
Qed.

End Uvm.
