(* ===== verification/UserCopy.v ===== *)
(** * Copies: uvmcopy, copyout, copyin, copyinstr

    [uvmcopy] duplicates an address space into another that shares no page with
    it; the copy functions move bytes between kernel buffers and user memory
    through the page table, page by page. *)

From S2P Require Import Prelude Riscv Mem StringLib Spinlock Kalloc Vm PageTable Uvm.

(** The pages an address space owns. *)
Definition own (T : pt) (n : nat) : gset Z := tables T ∪ list_to_set (upages n T).

Section UserCopy.
Context `{HI : Image} {HIO : ImageOk}.

Lemma own_page_in s T l n p : uvm_inv s T l n -> p ∈ own T n -> page_in p.
Proof. intros Hu Hp. eapply pool_page_in; [exact Hu |]. unfold pool, own in *. set_solver. Qed.

Lemma own_not_free s T l n p : uvm_inv s T l n -> p ∈ own T n -> p ∉ l.
Proof.
  intros [Hv _ _ _ Ho] Hp Hl. unfold own in Hp.
  rewrite elem_of_union, elem_of_list_to_set in Hp. destruct Hp as [Hp | Hp].
  - by eapply vi_disj.
  - rewrite Forall_forall in Ho. by destruct (Ho p Hp) as (_ & ? & _).
Qed.

(** An operation on one address space leaves another one intact. *)
Lemma other_space k s To l n T i s' T' l' i' :
  uvm_inv s To l n -> own To n ## own T i -> uvm_inv s T l i ->
  uvm_inv s' T' l' i' -> uvm_rel k s T l i s' T' l' i' ->
  uvm_inv s' To l' n /\ own To n ## own T' i' /\
  (forall va, 0 <= va < Z.of_nat n * PGSIZE -> uread s' To va = uread s To va).
Proof.
  intros Ho Hd Hu Hu' [_ Hp Hf _ _].
  assert (Hpool : own To n ## pool T i l).
  { intros p Hp1 Hp2. pose proof (own_not_free _ _ _ _ _ Ho Hp1). unfold pool in Hp2. unfold own in Hd, Hp1.
    set_solver. }
  assert (Hpool' : own To n ## pool T' i' l') by (by rewrite Hp).
  assert (Hps : forall q, q ∈ pool T i l -> page_in q) by (intros q Hq; exact (pool_page_in _ _ _ _ _ Hu Hq)).
  split; [| split].
  - destruct Ho as [[Hk Hok Hr Hdj] Hm Ha Hn Hown]. split; [| done | done | done |].
    + split; [apply Hu' | done | | unfold own, pool in Hpool'; set_solver].
      eapply repr_agree; [done | done | apply Hf |]. intros p x Hpt Hx.
      apply (outside_page _ p); [done | by eapply tables_page_in | | done]. unfold own in Hpool. set_solver.
    + apply Forall_forall. intros p Hpu. rewrite Forall_forall in Hown.
      destruct (Hown p Hpu) as (? & ? & ?). split_and!; [done | | done].
      unfold own, pool in Hpool'. set_solver.
  - unfold own, pool in *. set_solver.
  - intros va Hva. eapply uread_frame; [exact Ho | done | apply Hf | done |].
    intros pa fl Hm. assert (Hw : 0 <= va / PGSIZE < Z.of_nat n) by kzlia.
    pose proof (upage_in _ _ _ _ _ _ _ Ho Hw Hm) as Hin. unfold own in Hpool. set_solver.
Qed.

(** ** uvmcopy *)

(** [T'] has copies of the first [i] pages of [T]. *)
Definition copied (i : nat) (s : mach) (T : pt) (s' : mach) (T' : pt) : Prop :=
  (forall va, 0 <= va < Z.of_nat i * PGSIZE -> uread s' T' va = uread s T va) /\
  (forall w, 0 <= w < Z.of_nat i -> exists pa pa' fl,
     pt_map T !! w = Some (pa, fl) /\ pt_map T' !! w = Some (pa', fl)).

Lemma lor_V_id fl : fl mod 2 = 1 -> Z.lor fl PTE_V = fl.
Proof.
  intros Hf. apply Z.bits_inj'. intros i Hi. rewrite Z.lor_spec. change PTE_V with (2^0).
  rewrite Z.pow2_bits_eqb by lia. destruct (Z.eqb_spec 0 i) as [<- |]; [| apply orb_false_r].
  rewrite orb_true_r. rewrite Z.bit0_odd, Zodd_mod. by rewrite Hf.
Qed.

Lemma uvmunmap_undo s T l i : uvm_inv s T l i -> can_alloc s -> Z.of_nat i <= UTOP ->
  exists s' T' l', (uvmunmap (pt_root T) 0 (Z.of_nat i) true ;;; ret (-1)) s = Ok (-1) s' /\
    can_alloc s' /\ uvm_inv s' T' l' 0 /\ uvm_rel 0 s T l i s' T' l' 0.
Proof.
  intros Hu Hca Hi. destruct (uvm_shrink s T l i 0 Hu Hca) as (s' & T' & l' & Hrun & Hc' & Hu' & Hr' & _);
    [lia | done |]. exists s', T', l'. split; [| done].
  rewrite Nat.sub_0_r in Hrun. simpl in Hrun.
  by rewrite (bind_ok _ _ _ _ _ Hrun).
Qed.

Lemma uvmcopy_iter fuel sz s To T l n i : uvm_inv s To l n -> uvm_inv s T l i -> own To n ## own T i ->
  can_alloc s -> (i < n)%nat -> Z.of_nat n <= UTOP -> Z.of_nat i * PGSIZE < sz ->
  let loop fuel i := uvmcopy_loop fuel (pt_root To) (pt_root T) (Z.of_nat i * PGSIZE) sz in
  exists s' T' l', can_alloc s' /\
    (loop (S fuel) i s = loop fuel (S i) s' /\ uvm_inv s' T' l' (S i) /\ uvm_rel i s T l i s' T' l' (S i) /\
       (forall va, Z.of_nat i * PGSIZE <= va < Z.of_nat (S i) * PGSIZE -> uread s' T' va = uread s To va) /\
       (exists pa pa' fl, pt_map To !! Z.of_nat i = Some (pa, fl) /\ pt_map T' !! Z.of_nat i = Some (pa', fl)) /\
       (length l <= length l' + 3)%nat \/
     loop (S fuel) i s = Ok (-1) s' /\ uvm_inv s' T' l' 0 /\ uvm_rel 0 s T l i s' T' l' 0 /\
       (length l <= 3)%nat).
Proof.
  intros Ho Hu Hd Hca Hi Hn Hsz loop.
  destruct (ui_mapped _ _ _ _ Ho (Z.of_nat i)) as (pa & fl & Hm & Hfl); [lia |].
  assert (Hiw : 0 <= Z.of_nat i < Z.of_nat n) by lia.
  destruct (upage_owned _ _ _ _ _ _ _ Ho Hiw Hm) as (Hpa & Hpal & _).
  destruct (po_map _ (vi_ok _ _ _ (ui_vm _ _ _ _ Ho)) _ _ _ Hm) as (_ & Hpaa & Hflr & HflV).
  destruct (leaf_mapped _ _ _ _ _ _ (ui_vm _ _ _ _ Ho) Hm) as [Hnz Hrd].
  assert (Hvi : Z.of_nat i * PGSIZE / PGSIZE = Z.of_nat i) by kzlia.
  assert (Hloop : loop (S fuel) i s = uvmcopy_loop (S fuel) (pt_root To) (pt_root T)
    (Z.of_nat i * PGSIZE) sz s) by done. revert Hloop. cbn [uvmcopy_loop].
  destruct (Z.ltb_spec (Z.of_nat i * PGSIZE) sz); [| lia].
  erewrite bind_ok by (eapply walk_find; [apply Ho | unfold UTOP in Hn; kzlia]).
  rewrite Hvi, (proj2 (Z.eqb_neq _ _) Hnz).
  rewrite (bind_ok (load64 _) _ s (mkpte pa fl) s) by (unfold load64, gets; by rewrite Hrd).
  rewrite flag_mkpte, flag_V, HflV by (done || by vm_compute). cbn [Z.eqb Pos.eqb negb].
  rewrite PTE_FLAGS_mkpte, PTE2PA_mkpte by done.
  rewrite (bind_ok _ _ _ _ _ (kalloc_run _ _ (vi_kmem _ _ _ (ui_vm _ _ _ _ Hu)) Hca)).
  destruct l as [| q l]; cbn [hd].
  { destruct (uvm_alloc_nil 0 s T i Hu Hca) as (Hu1 & Hc1 & Hr1).
    destruct (uvmunmap_undo _ _ _ _ Hu1 Hc1) as (s' & T' & l' & Hrun & Hc' & Hu' & Hr'); [lia |].
    intros Hloop. exists s', T', l'. split; [done |]. right. split; [rewrite Hloop; exact Hrun |]. split; [done |].
    split; [eapply uvm_rel_trans; [apply Hca | exact Hr1 | exact Hr'] | simpl; lia]. }
  pose proof (uvm_page_in _ _ _ _ _ Hu) as Hq. rewrite (page_nonzero q Hq).
  destruct (vm_alloc _ _ _ _ (ui_vm _ _ _ _ Hu) Hca) as (Hv0 & _ & Hf0 & _).
  set (m := memmove (m_mem (alloc_state (q :: l) s)) q pa PGSIZE).
  assert (Hmo : mem_ok (m_mem (alloc_state (q :: l) s))) by apply Hv0.
  destruct (uvm_add_page s T q l i fl m Hu Hca) as (r & s1 & T1 & Hrun1 & Hc1 & Hr1);
    [apply mem_ok_memmove; [done | klia] | | lia | done | by rewrite lor_V_id |].
  { intros x Hxq. apply rd8_memmove_out; [done | klia |]. apply Hxq. set_solver. }
  unfold bind at 1, memmove_m, modify. cbn [obind]. fold m. rewrite (bind_ok _ _ _ _ _ Hrun1).
  destruct Hr1 as [(-> & (l1 & Hu1 & Hr1 & Hln) & Hm1 & Hz1) | (-> & Hln & s2 & Hk2 & Hc2 & Hu2 & Hr2)]; cbn [Z.eqb negb].
  - rewrite u64_small by (unfold UTOP in Hn; kzlia).
    replace (Z.of_nat i * PGSIZE + PGSIZE) with (Z.of_nat (S i) * PGSIZE) by lia. rewrite lor_V_id in Hm1 by done.
    intros Hloop. exists s1, T1, l1. split; [done |]. left. split_and!; [done | done | done | | by eexists _, _, _ | simpl; lia].
    intros va Hva. unfold uread. replace (va / PGSIZE) with (Z.of_nat i) by kzlia. rewrite Hm, Hm1. f_equal.
    assert (0 <= va mod PGSIZE < PGSIZE) by kzlia. rewrite Hz1 by lia. unfold m. rewrite rd8_memmove_in by (done || klia).
    replace (pa + (q + va mod PGSIZE - q)) with (pa + va mod PGSIZE) by lia.
    apply (vf_mem _ _ _ Hf0). apply (outside_page _ pa); [by intros y ->%elem_of_singleton | done | set_solver | lia].
  - rewrite (bind_ok _ _ _ _ _ Hk2). pose proof (ur_root _ _ _ _ _ _ _ _ _ Hr2) as Hrt.
    destruct (uvmunmap_undo _ _ _ _ Hu2 Hc2) as (s' & T' & l' & Hrun & Hc' & Hu' & Hr'); [lia |].
    rewrite Hrt in Hrun.
    intros Hloop. exists s', T', l'. split; [done |]. right. split; [rewrite Hloop; exact Hrun |]. split; [done |].
    split; [eapply uvm_rel_trans; [apply Hca | eapply uvm_rel_mono, Hr2; lia | exact Hr'] | simpl; lia].
Qed.

Lemma uvmcopy_loop_run sz : forall j s To T l n i, uvm_inv s To l n -> uvm_inv s T l i ->
  own To n ## own T i -> can_alloc s -> n = (i + j)%nat -> Z.of_nat n <= UTOP -> 0 <= sz -> npages sz = n ->
  copied i s To s T ->
  exists r s' T' l', uvmcopy_loop (S j) (pt_root To) (pt_root T) (Z.of_nat i * PGSIZE) sz s = Ok r s' /\
    can_alloc s' /\ uvm_inv s' To l' n /\
    (forall va, 0 <= va < Z.of_nat n * PGSIZE -> uread s' To va = uread s To va) /\
    (r = 0 /\ uvm_inv s' T' l' n /\ uvm_rel i s T l i s' T' l' n /\ own To n ## own T' n /\ copied n s To s' T' \/
     r = -1 /\ uvm_inv s' T' l' 0 /\ uvm_rel 0 s T l i s' T' l' 0 /\ (length l <= 3 * j)%nat).
Proof.
  induction j as [| j IH]; intros s To T l n i Ho Hu Hd Hca Hn Ht Hsz Hnp Hcp;
    pose proof (npages_spec sz n Hsz Hnp) as Hs.
  { exists 0, s, T, l. cbn [uvmcopy_loop].
    assert (n = i) as -> by lia.
    destruct (Z.ltb_spec (Z.of_nat i * PGSIZE) sz); [klia |].
    split_and!; try done. left. split_and!; try done. apply uvm_rel_refl. }
  destruct (uvmcopy_iter (S j) sz s To T l n i Ho Hu Hd Hca) as (s1 & T1 & l1 & Hc1 & Hr1); [lia | done | klia |].
  destruct Hr1 as [(Hrun & Hu1 & Hr1 & Hrd & Hfl & Hln) | (Hrun & Hu1 & Hr1 & Hln)].
  - destruct (other_space _ _ _ _ _ _ _ _ _ _ _ Ho Hd Hu Hu1 Hr1) as (Ho1 & Hd1 & Hro).
    rewrite Hrun, <- (ur_root _ _ _ _ _ _ _ _ _ Hr1).
    destruct (IH s1 To T1 l1 n (S i) Ho1 Hu1 Hd1 Hc1) as (r & s' & T' & l' & Hrun' & Hc' & Ho' & Hro' & Hr');
      [lia | done | done | done | |].
    + destruct Hcp as [Hc2 Hc3]. split.
      * intros va Hva. rewrite Hro by klia. destruct (decide (va < Z.of_nat i * PGSIZE)); [| apply Hrd; lia].
        rewrite (ur_read _ _ _ _ _ _ _ _ _ Hr1) by lia. apply Hc2. lia.
      * intros w Hw. destruct (decide (w = Z.of_nat i)) as [-> |]; [done |].
        rewrite (ur_map _ _ _ _ _ _ _ _ _ Hr1) by lia. apply Hc3. lia.
    + exists r, s', T', l'. split; [exact Hrun' |]. split; [done |]. split; [done |].
      split; [intros va Hva; rewrite Hro' by done; by apply Hro |].
      destruct Hr' as [(-> & Hu' & Hr' & Hd' & [Hq1 Hq2]) | (-> & Hu' & Hr' & Hln')]; [left | right].
      * split; [done |]. split; [done |].
        split; [eapply uvm_rel_trans; [apply Hca | exact Hr1 | eapply uvm_rel_mono, Hr'; lia] |].
        split; [done |]. split; [| done]. intros va Hva. rewrite Hq1 by done. by apply Hro.
      * split; [done |]. split; [done |].
        split; [eapply uvm_rel_trans; [apply Hca | eapply uvm_rel_mono, Hr1; lia | exact Hr'] | lia].
  - destruct (other_space _ _ _ _ _ _ _ _ _ _ _ Ho Hd Hu Hu1 Hr1) as (Ho1 & _ & Hro).
    exists (-1), s1, T1, l1. split; [exact Hrun |]. split_and!; try done. right. do 3 (split; [done |]). lia.
Qed.

Lemma uvmcopy_run s To T l sz : uvm_inv s To l (npages sz) -> uvm_inv s T l 0 ->
  own To (npages sz) ## own T 0 -> can_alloc s -> 0 <= sz <= TRAPFRAME ->
  let n := npages sz in
  exists r s' T' l', uvmcopy (pt_root To) (pt_root T) sz s = Ok r s' /\
    can_alloc s' /\ uvm_inv s' To l' n /\
    (forall va, 0 <= va < Z.of_nat n * PGSIZE -> uread s' To va = uread s To va) /\
    (r = 0 /\ uvm_inv s' T' l' n /\ uvm_rel 0 s T l 0 s' T' l' n /\ own To n ## own T' n /\ copied n s To s' T' \/
     r = -1 /\ uvm_inv s' T' l' 0 /\ uvm_rel 0 s T l 0 s' T' l' 0 /\ (length l <= 3 * n)%nat).
Proof.
  intros Ho Hu Hd Hca Hsz n. unfold uvmcopy. fold (npages sz).
  apply (uvmcopy_loop_run sz (npages sz) s To T l (npages sz) 0); try done; try lia.
  - by apply npages_UTOP.
  - split; intros; lia.
Qed.

(** ** User addresses the kernel may touch *)

(** The pages above user memory (trapframe, trampoline) are not user pages. *)
Definition top_ok (T : pt) : Prop :=
  forall w pa fl, UTOP <= w -> pt_map T !! w = Some (pa, fl) -> flag fl PTE_U = false.

Definition readable (T : pt) (va : Z) : bool :=
  (va <? MAXVA) &&
  match pt_map T !! (va / PGSIZE) with Some (_, fl) => flag fl PTE_U | None => false end.

Definition writable (T : pt) (va : Z) : bool :=
  readable T va &&
  match pt_map T !! (va / PGSIZE) with Some (_, fl) => flag fl PTE_W | None => false end.

Lemma readable_page s T l n va : uvm_inv s T l n -> top_ok T -> 0 <= va -> readable T va = true ->
  va < MAXVA /\ 0 <= va / PGSIZE < Z.of_nat n /\
  exists pa fl, pt_map T !! (va / PGSIZE) = Some (pa, fl) /\ flag fl PTE_U = true /\ page_in pa.
Proof.
  intros Hu Ht Hva Hr. unfold readable in Hr. apply andb_true_iff in Hr as [Hmax Hr].
  apply Z.ltb_lt in Hmax. destruct (pt_map T !! (va / PGSIZE)) as [[pa fl] |] eqn:Hm; [| done].
  assert (Hw : 0 <= va / PGSIZE < Z.of_nat n).
  { split; [kzlia |]. destruct (Z.lt_ge_cases (va / PGSIZE) (Z.of_nat n)); [done |]. exfalso.
    destruct (Z.lt_ge_cases (va / PGSIZE) UTOP).
    - rewrite (ui_above _ _ _ _ Hu) in Hm; [done | lia].
    - rewrite (Ht _ _ _ H0 Hm) in Hr. done. }
  split; [done |]. split; [done |]. exists pa, fl. split_and!; try done.
  by destruct (upage_owned _ _ _ _ _ _ _ Hu Hw Hm).
Qed.

(** Addresses of the same page have the same access. *)
Lemma same_page va va' : va / PGSIZE = va' / PGSIZE -> forall T,
  readable T va = readable T va' /\ writable T va = writable T va'.
Proof.
  intros E T. unfold writable, readable. rewrite E.
  replace (va <? MAXVA) with (va' <? MAXVA); [done |].
  destruct (Z.ltb_spec va' MAXVA), (Z.ltb_spec va MAXVA); try done; kzlia.
Qed.

(** ** copyout *)

(** The effect on user memory of storing [bs] within one user page. *)
Lemma uread_store s T l n w pa fl off bs : uvm_inv s T l n -> 0 <= w < Z.of_nat n ->
  pt_map T !! w = Some (pa, fl) -> 0 <= off -> off + Z.of_nat (length bs) <= PGSIZE -> Forall is_byte bs ->
  let s' := set_mem (wr_bytes (m_mem s) (pa + off) bs) s in
  uvm_inv s' T l n /\ vm_frame {[pa]} s s' /\
  forall va, 0 <= va < Z.of_nat n * PGSIZE -> uread s' T va =
    if decide (w * PGSIZE + off <= va < w * PGSIZE + off + Z.of_nat (length bs))
    then bs !! Z.to_nat (va - (w * PGSIZE + off)) else uread s T va.
Proof.
  intros Hu Hw Hm Ho Hlen Hb s'.
  destruct (upage_owned _ _ _ _ _ _ _ Hu Hw Hm) as (Hpa & Hl & Ht).
  assert (Ha : agree (outside {[pa]}) (m_mem s) (wr_bytes (m_mem s) (pa + off) bs)).
  { intros x Hx. apply rd8_wr_bytes_out. specialize (Hx pa ltac:(set_solver)). lia. }
  assert (Hok : mem_ok (wr_bytes (m_mem s) (pa + off) bs)) by (apply mem_ok_wr_bytes, Hu).
  split; [by eapply uvm_inv_write |].
  destruct (vm_write _ _ _ _ _ (ui_vm _ _ _ _ Hu) Hpa Hl Ht Hok Ha) as [_ Hf]. split; [done |].
  intros va Hva. assert (Hwv : 0 <= va / PGSIZE < Z.of_nat n) by kzlia.
  destruct (ui_mapped _ _ _ _ Hu _ Hwv) as (pa' & fl' & Hm' & _). unfold uread. rewrite Hm'. unfold s'. cbn [m_mem set_mem].
  assert (Hmod : 0 <= va mod PGSIZE < PGSIZE) by kzlia.
  destruct (decide (va / PGSIZE = w)) as [E | E].
  - rewrite E, Hm in Hm'. injection Hm' as <- <-. assert (Hva' : va = w * PGSIZE + va mod PGSIZE) by kzlia.
    case_decide as Hin.
    + destruct (lookup_lt_is_Some_2 bs (Z.to_nat (va - (w * PGSIZE + off)))) as [b Eb]; [lia |].
      rewrite Eb. f_equal. rewrite <- (rd8_wr_bytes_in (m_mem s) (pa + off) bs _ b Hb Eb). f_equal. lia.
    + f_equal. apply rd8_wr_bytes_out. lia.
  - rewrite decide_False by kzlia. f_equal. apply Ha.
    destruct (upage_owned _ _ _ _ _ _ _ Hu Hwv Hm') as (Hpa' & _).
    apply (outside_page _ pa'); [by intros y ->%elem_of_singleton | done | | lia].
    intros ->%elem_of_singleton. by apply E, (upage_inj _ _ _ _ _ _ _ _ _ Hu Hwv Hw Hm' Hm).
Qed.

(** [k] bytes of [src] have been stored at [dstva]. *)
Definition stored (k : Z) (src : list Z) (dstva : Z) (n : nat) (T : pt) (s s' : mach) : Prop :=
  forall va, 0 <= va < Z.of_nat n * PGSIZE -> uread s' T va =
    if decide (dstva <= va < dstva + k) then src !! Z.to_nat (va - dstva) else uread s T va.

(** The page table check of one iteration. *)
Lemma copyout_check s T l n va {A} (bad : M mach A) (k : Z -> M mach A) :
  uvm_inv s T l n -> top_ok T -> 0 <= va < MAXVA -> va mod PGSIZE = 0 ->
  (let* pte := walk (pt_root T) va false in
   if pte =? 0 then bad else
   let* e := load64 pte in
   if negb (flag e PTE_V) || negb (flag e PTE_U) || negb (flag e PTE_W) then bad else k (PTE2PA e)) s =
  (if writable T va then k (match pt_map T !! (va / PGSIZE) with Some (pa, _) => pa | None => 0 end) else bad) s.
Proof.
  intros Hu Ht Hva Hal. pose proof (ui_vm _ _ _ _ Hu) as Hv.
  rewrite (bind_ok _ _ _ _ _ (walk_find _ _ _ _ Hv Hva)). unfold writable, readable.
  destruct (Z.ltb_spec va MAXVA); [| lia]. cbn [andb].
  destruct (pt_map T !! (va / PGSIZE)) as [[pa fl] |] eqn:Hm.
  - destruct (leaf_mapped _ _ _ _ _ _ Hv Hm) as [Hnz Hrd].
    destruct (po_map _ (vi_ok _ _ _ Hv) _ _ _ Hm) as (_ & Hpa & Hfl & HV).
    rewrite (proj2 (Z.eqb_neq _ _) Hnz). unfold bind, load64, gets. cbn [obind].
    rewrite Hrd, !flag_mkpte, PTE2PA_mkpte, flag_V, HV by (done || by vm_compute). cbn [Z.eqb Pos.eqb negb orb].
    destruct (flag fl PTE_U), (flag fl PTE_W); done.
  - destruct (Z.eqb_spec (leaf_addr T (va / PGSIZE)) 0) as [_ | Hnz]; [done |].
    unfold bind, load64, gets. cbn [obind]. by rewrite (leaf_unmapped _ _ _ _ Hv Hm Hnz), flag_0.
Qed.

Lemma PGROUNDDOWN_page va : 0 <= va < 2^64 -> PGROUNDDOWN va = va / PGSIZE * PGSIZE.
Proof. intros. rewrite PGROUNDDOWN_arith by done. kzlia. Qed.

(** The outcome of copying [len] bytes: [k] of them were stored, up to the first
    page that is not writable. *)
Record copyout_post (T : pt) (l : list Z) (n : nat) (src : list Z) (dstva len : Z) (s : mach)
    (r : Z) (s' : mach) (k : Z) : Prop := {
  co_k : 0 <= k <= len;
  co_inv : uvm_inv s' T l n;
  co_rest : s' = set_mem (m_mem s') s;
  co_frame : agree (outside (list_to_set (upages n T))) (m_mem s) (m_mem s');
  co_stored : stored k src dstva n T s s';
  co_ok : forall va, dstva <= va < dstva + k -> writable T va = true;
  co_ret : r = 0 /\ k = len \/ r = -1 /\ k < len /\ writable T (dstva + k) = false }.

Lemma copyout_post_0 T l n src dstva len s r : uvm_inv s T l n -> 0 <= len ->
  (r = 0 /\ len = 0 \/ r = -1 /\ 0 < len /\ writable T dstva = false) ->
  copyout_post T l n src dstva len s r s 0.
Proof.
  intros Hu Hl Hr. split;
    [lia | done | by destruct s | done | | intros; lia | rewrite Z.add_0_r; intuition lia].
  intros va _. by rewrite decide_False by lia.
Qed.

(** Storing a chunk of [c] bytes that stays in its page, then the rest. *)
Lemma copyout_post_step T l n src dstva len s pa fl c r s' k :
  uvm_inv s T l n -> top_ok T -> 0 <= dstva -> writable T dstva = true ->
  pt_map T !! (dstva / PGSIZE) = Some (pa, fl) ->
  0 <= c <= len -> len <= Z.of_nat (length src) -> Forall is_byte src -> dstva mod PGSIZE + c <= PGSIZE ->
  copyout_post T l n (drop (Z.to_nat c) src) (dstva + c) (len - c)
    (set_mem (wr_bytes (m_mem s) (pa + dstva mod PGSIZE) (take (Z.to_nat c) src)) s) r s' k ->
  copyout_post T l n src dstva len s r s' (c + k).
Proof.
  intros Hu Ht Hd Hwr Hm Hc Hl Hb Hpg. pose proof Hwr as Hwr'. apply andb_true_iff in Hwr' as [Hrd _].
  destruct (readable_page _ _ _ _ _ Hu Ht Hd Hrd) as (_ & Hw & _).
  assert (Hlen : Z.of_nat (length (take (Z.to_nat c) src)) = c) by (rewrite length_take; lia).
  destruct (uread_store s T l n _ pa fl (dstva mod PGSIZE) (take (Z.to_nat c) src) Hu Hw Hm)
    as (Hu1 & Hf & Hst); [kzlia | by rewrite Hlen | by apply Forall_take |]. rewrite Hlen in Hst.
  replace (dstva / PGSIZE * PGSIZE + dstva mod PGSIZE) with dstva in Hst by kzlia.
  set (s1 := set_mem _ s) in *. intros [Hk Hu' Hrest Hfr Hst' Hok Hret].
  assert (Hpain : pa ∈ upages n T) by (by eapply upage_in).
  split; [lia | done | | | | | by replace (dstva + (c + k)) with (dstva + c + k) by lia; intuition lia].
  - by rewrite Hrest.
  - eapply agree_trans; [| exact Hfr]. eapply agree_mono; [| apply Hf]. intros x Hx p ->%elem_of_singleton.
    apply Hx. set_solver.
  - intros va Hva. rewrite Hst' by done. rewrite Hst by done.
    case_decide as H1; [rewrite decide_True by lia | case_decide as H2].
    + rewrite lookup_drop. f_equal. lia.
    + rewrite decide_True by lia. rewrite lookup_take_lt by lia. done.
    + by rewrite decide_False by lia.
  - intros va Hva. destruct (decide (va < dstva + c)); [| apply Hok; lia].
    destruct (same_page va dstva) with (T := T) as [_ ->]; [kzlia | done].
Qed.

Lemma copyout_loop_run T l n : top_ok T -> forall fuel s dstva src len,
  uvm_inv s T l n -> 0 <= dstva < 2^64 -> 0 <= len <= Z.of_nat (length src) -> Forall is_byte src ->
  (dstva mod PGSIZE + len + PGSIZE - 1) / PGSIZE < Z.of_nat fuel ->
  exists r s' k, copyout_loop fuel (pt_root T) dstva src len s = Ok r s' /\
    copyout_post T l n src dstva len s r s' k.
Proof.
  intros Ht. induction fuel as [| fuel IH]; intros s dstva src len Hu Hd Hlen Hb Hfuel; [kzlia |].
  cbn [copyout_loop]. destruct (Z.ltb_spec 0 len) as [Hpos | Hz].
  2: { exists 0, s, 0. split; [done |]. apply copyout_post_0; [done | lia | left; lia]. }
  rewrite PGROUNDDOWN_page by done. set (w := dstva / PGSIZE).
  assert (Hww : w * PGSIZE / PGSIZE = w) by kzlia. assert (Hw0 : 0 <= w) by (unfold w; kzlia).
  destruct (same_page (w * PGSIZE) dstva Hww T) as [_ Hsw].
  assert (Hbad : writable T dstva = false -> exists r s' k, @Ok mach Z (-1) s = Ok r s' /\
    copyout_post T l n src dstva len s r s' k).
  { intros Hnw. exists (-1), s, 0. split; [done |]. apply copyout_post_0; [done | lia | by right]. }
  destruct (Z.leb_spec MAXVA (w * PGSIZE)) as [Hge | Hlt].
  { apply Hbad. unfold writable, readable. destruct (Z.ltb_spec dstva MAXVA); [| done]. unfold w in Hge. kzlia. }
  replace (dstva - w * PGSIZE) with (dstva mod PGSIZE) by (unfold w; kzlia).
  set (c := if len <? PGSIZE - dstva mod PGSIZE then len else PGSIZE - dstva mod PGSIZE).
  pose proof (copyout_check s T l n (w * PGSIZE) (ret (-1)) (fun pa0 =>
    store_bytes (pa0 + dstva mod PGSIZE) (take (Z.to_nat c) src) ;;;
    copyout_loop fuel (pt_root T) (w * PGSIZE + PGSIZE) (drop (Z.to_nat c) src) (len - c)) Hu Ht) as Hck.
  cbv beta in Hck. rewrite Hck by kzlia. rewrite Hsw, Hww. clear Hck.
  destruct (writable T dstva) eqn:Hwr; [| by apply Hbad]. clear Hbad.
  pose proof Hwr as Hwr'. apply andb_true_iff in Hwr' as [Hrd _].
  destruct (readable_page _ _ _ _ _ Hu Ht (proj1 Hd) Hrd) as (Hmx & Hw & pa & fl & Hm & _).
  fold w in Hm. rewrite Hm.
  assert (Hc : c = Z.min len (PGSIZE - dstva mod PGSIZE)).
  { unfold c. destruct (Z.ltb_spec len (PGSIZE - dstva mod PGSIZE)); lia. } clearbody c.
  assert (Hmod : 0 <= dstva mod PGSIZE < PGSIZE) by kzlia.
  unfold bind, store_bytes, modify. cbn [obind].
  destruct (decide (c = len)) as [-> | Hne].
  - destruct fuel as [| fuel]; [kzlia |]. rewrite Z.sub_diag. cbn [copyout_loop Z.ltb Z.compare].
    eexists 0, _, (len + 0). split; [reflexivity |].
    eapply copyout_post_step; [done | done | lia | done | exact Hm | lia | lia | done | lia |].
    apply copyout_post_0; [| lia | left; lia].
    eapply (uread_store s T l n w); [done | done | exact Hm | lia | | by apply Forall_take].
    rewrite length_take. lia.
  - replace (w * PGSIZE + PGSIZE) with (dstva + c) by (unfold w; kzlia).
    destruct (uread_store s T l n w pa fl (dstva mod PGSIZE) (take (Z.to_nat c) src) Hu Hw Hm)
      as (Hu1 & _); [lia | rewrite length_take; lia | by apply Forall_take |].
    destruct (IH _ (dstva + c) (drop (Z.to_nat c) src) (len - c) Hu1) as (r & s' & k & Hrun & Hpost).
    + klia.
    + rewrite length_drop. lia.
    + by apply Forall_drop.
    + replace ((dstva + c) mod PGSIZE) with 0 by kzlia. kzlia.
    + exists r, s', (c + k). split; [exact Hrun |].
      eapply copyout_post_step; [done | done | lia | done | exact Hm | lia | lia | done | lia | exact Hpost].
Qed.

(** ** copyin *)

(** The [k] bytes of user memory at [va]. *)
Definition ureads (s : mach) (T : pt) (va : Z) (k : nat) : list Z :=
  (fun i => default 0 (uread s T (va + Z.of_nat i))) <$> seq 0 k.

Lemma length_ureads s T va k : length (ureads s T va k) = k.
Proof. unfold ureads. by rewrite length_fmap, length_seq. Qed.

Lemma lookup_ureads s T va k i : (i < k)%nat ->
  ureads s T va k !! i = Some (default 0 (uread s T (va + Z.of_nat i))).
Proof. intros Hi. unfold ureads. rewrite list_lookup_fmap, lookup_seq_lt by done. done. Qed.

Lemma ureads_app s T va j k : ureads s T va (j + k) = ureads s T va j ++ ureads s T (va + Z.of_nat j) k.
Proof.
  unfold ureads. rewrite seq_app, fmap_app. f_equal. rewrite Nat.add_0_l.
  rewrite <- (Nat.add_0_r j) at 1. rewrite <- fmap_add_seq, <- list_fmap_compose. apply list_fmap_ext.
  intros _ i _. simpl. do 2 f_equal. lia.
Qed.

(** Bytes of one page. *)
Lemma ureads_page s T va pa fl c : pt_map T !! (va / PGSIZE) = Some (pa, fl) ->
  va mod PGSIZE + Z.of_nat c <= PGSIZE -> bytes (m_mem s) (pa + va mod PGSIZE) c = ureads s T va c.
Proof.
  intros Hm Hc. apply list_eq. intros i. destruct (decide (i < c)%nat) as [Hi | Hi].
  - rewrite bytes_lookup, lookup_ureads by done. f_equal. unfold uread.
    replace ((va + Z.of_nat i) / PGSIZE) with (va / PGSIZE) by kzlia. rewrite Hm. simpl. f_equal.
    replace ((va + Z.of_nat i) mod PGSIZE) with (va mod PGSIZE + Z.of_nat i) by kzlia. lia.
  - rewrite !lookup_ge_None_2; rewrite ?length_bytes, ?length_ureads; (done || lia).
Qed.

(** [walkaddr] of the page of [va] finds it exactly when it is readable. *)
Lemma walkaddr_page s T l n va : uvm_inv s T l n -> top_ok T -> 0 <= va ->
  match readable T va with
  | true => exists pa fl, walkaddr (pt_root T) (va / PGSIZE * PGSIZE) s = Ok pa s /\ (pa =? 0) = false /\
      pt_map T !! (va / PGSIZE) = Some (pa, fl) /\ va < MAXVA
  | false => walkaddr (pt_root T) (va / PGSIZE * PGSIZE) s = Ok 0 s
  end.
Proof.
  intros Hu Ht Hva. rewrite (walkaddr_run _ _ _ _ (ui_vm _ _ _ _ Hu)) by kzlia. unfold user_pa.
  assert (Hdd : va / PGSIZE * PGSIZE / PGSIZE = va / PGSIZE) by kzlia. rewrite Hdd.
  destruct (readable T va) eqn:Hr.
  - destruct (readable_page _ _ _ _ _ Hu Ht Hva Hr) as (Hmx & Hw & pa & fl & Hm & HU & Hp).
    exists pa, fl. rewrite Hm, HU. destruct (Z.leb_spec MAXVA (va / PGSIZE * PGSIZE)); [kzlia |].
    by rewrite (page_nonzero pa Hp).
  - unfold readable in Hr. destruct (Z.leb_spec MAXVA (va / PGSIZE * PGSIZE)); [done |].
    destruct (Z.ltb_spec va MAXVA); [| kzlia]. cbn [andb] in Hr.
    destruct (pt_map T !! (va / PGSIZE)) as [[pa fl] |]; [by rewrite Hr | done].
Qed.

Lemma readable_range T va c : va mod PGSIZE + c <= PGSIZE -> 0 <= va -> readable T va = true ->
  forall a, va <= a < va + c -> readable T a = true.
Proof. intros Hc Hva Hr a Ha. destruct (same_page a va) with (T := T) as [-> _]; [kzlia | done]. Qed.

Lemma copyin_loop_run s T l n : uvm_inv s T l n -> top_ok T -> forall fuel srcva len dst,
  0 <= srcva < 2^64 -> 0 <= len -> (srcva mod PGSIZE + len + PGSIZE - 1) / PGSIZE < Z.of_nat fuel ->
  exists r k, copyin_loop fuel (pt_root T) srcva len dst s = Ok (r, dst ++ ureads s T srcva (Z.to_nat k)) s /\
    0 <= k <= len /\ (forall va, srcva <= va < srcva + k -> readable T va = true) /\
    (r = 0 /\ k = len \/ r = -1 /\ k < len /\ readable T (srcva + k) = false).
Proof.
  intros Hu Ht. induction fuel as [| fuel IH]; intros srcva len dst Hs Hlen Hfuel; [kzlia |].
  cbn [copyin_loop]. destruct (Z.ltb_spec 0 len) as [Hpos | Hz].
  2: { exists 0, 0. rewrite app_nil_r. split_and!; [done | lia | done | intros; lia | lia]. }
  rewrite PGROUNDDOWN_page by done. pose proof (walkaddr_page s T l n srcva Hu Ht (proj1 Hs)) as Hwa.
  destruct (readable T srcva) eqn:Hr.
  2: { rewrite (bind_ok _ _ _ _ _ Hwa). exists (-1), 0. rewrite app_nil_r, Z.add_0_r.
       split_and!; [done | lia | lia | intros; lia | by right]. }
  destruct Hwa as (pa & fl & Hwa & Hnz & Hm & Hmx). rewrite (bind_ok _ _ _ _ _ Hwa), Hnz.
  replace (srcva - srcva / PGSIZE * PGSIZE) with (srcva mod PGSIZE) by kzlia.
  set (c := if len <? PGSIZE - srcva mod PGSIZE then len else PGSIZE - srcva mod PGSIZE).
  assert (Hc : c = Z.min len (PGSIZE - srcva mod PGSIZE)).
  { unfold c. destruct (Z.ltb_spec len (PGSIZE - srcva mod PGSIZE)); lia. } clearbody c.
  assert (Hmod : 0 <= srcva mod PGSIZE < PGSIZE) by kzlia.
  unfold bind at 1, gets. cbn [obind].
  rewrite (ureads_page s T srcva pa fl _ Hm) by (rewrite Z2Nat.id; lia).
  destruct (decide (c = len)) as [-> | Hne].
  - destruct fuel as [| fuel]; [kzlia |]. rewrite Z.sub_diag. exists 0, len.
    split; [done |]. split; [lia |]. split; [| by left]. apply readable_range; lia || done.
  - rewrite u64_small by kzlia. replace (srcva / PGSIZE * PGSIZE + PGSIZE) with (srcva + c) by kzlia.
    destruct (IH (srcva + c) (len - c) (dst ++ ureads s T srcva (Z.to_nat c))) as (r & k & Hrun & Hk & Hrk & Hret).
    + klia.
    + lia.
    + replace ((srcva + c) mod PGSIZE) with 0 by kzlia. kzlia.
    + exists r, (c + k). split.
      * rewrite Hrun, <- app_assoc. rewrite (Z2Nat.inj_add c k), ureads_app, Z2Nat.id by lia. done.
      * split; [lia |]. replace (srcva + (c + k)) with (srcva + c + k) by lia. split; [| intuition lia].
        intros va Hva. destruct (decide (va < srcva + c)); [| apply Hrk; lia].
        eapply (readable_range T srcva c); (lia || done).
Qed.

(** ** copyinstr *)

Lemma copyinstr_page_run c : forall m p dst,
  exists k found, copyinstr_page c m p dst = (dst ++ bytes m p k ++ (if found : bool then [0] else []), found) /\
    (k <= c)%nat /\ Forall (fun b => b <> 0) (bytes m p k) /\
    (if found then (k < c)%nat /\ rd8 m (p + Z.of_nat k) = 0 else k = c).
Proof.
  induction c as [| c IH]; intros m p dst; cbn [copyinstr_page].
  { exists O, false. rewrite app_nil_r. by split_and!. }
  destruct (Z.eqb_spec (rd8 m p) 0) as [Hz | Hnz].
  { exists O, true. rewrite Z.add_0_r. split_and!; [done | lia | by constructor | lia | done]. }
  destruct (IH m (p + 1) (dst ++ [rd8 m p])) as (k & found & -> & Hk & Hnk & Hf).
  assert (Hb : bytes m p (S k) = rd8 m p :: bytes m (p + 1) k).
  { change (S k) with (1 + k)%nat. rewrite bytes_app. unfold bytes at 1. simpl. by rewrite Z.add_0_r. }
  exists (S k), found. rewrite Hb. split; [by rewrite <- app_assoc |]. split; [lia |].
  split; [by constructor |]. replace (p + Z.of_nat (S k)) with (p + 1 + Z.of_nat k) by lia.
  destruct found; [destruct Hf; split; [lia | done] | lia].
Qed.

(** The string at [srcva], of length [k], or the reason there is none within
    [max] bytes. *)
Definition instr_post (s : mach) (T : pt) (srcva max : Z) (r : Z) (out : list Z) (k : nat) : Prop :=
  Z.of_nat k <= max /\ (forall va, srcva <= va < srcva + Z.of_nat k -> readable T va = true) /\
  Forall (fun b => b <> 0) (ureads s T srcva k) /\
  (r = 0 /\ out = ureads s T srcva k ++ [0] /\ Z.of_nat k < max /\
     readable T (srcva + Z.of_nat k) = true /\ uread s T (srcva + Z.of_nat k) = Some 0 \/
   r = -1 /\ out = ureads s T srcva k /\ (Z.of_nat k = max \/ readable T (srcva + Z.of_nat k) = false)).

Lemma instr_post_step s T srcva max r out (c k : nat) :
  (forall a, srcva <= a < srcva + Z.of_nat c -> readable T a = true) ->
  Forall (fun b => b <> 0) (ureads s T srcva c) ->
  instr_post s T (srcva + Z.of_nat c) (max - Z.of_nat c) r out k ->
  instr_post s T srcva max r (ureads s T srcva c ++ out) (c + k).
Proof.
  intros Hrr Hnz (Hk & Hr & Hn & Hret). unfold instr_post. rewrite ureads_app.
  replace (srcva + Z.of_nat (c + k)) with (srcva + Z.of_nat c + Z.of_nat k) by lia.
  split; [lia |]. split; [| split; [by apply Forall_app |]].
  - intros va Hva. destruct (decide (va < srcva + Z.of_nat c)); [apply Hrr | apply Hr]; lia.
  - destruct Hret as [(-> & -> & ? & ? & ?) | (-> & -> & ?)]; [left | right].
    + split_and!; [done | by rewrite app_assoc | lia | done | done].
    + split_and!; [done | done | intuition lia].
Qed.

Lemma copyinstr_loop_run s T l n : uvm_inv s T l n -> top_ok T -> forall fuel srcva max dst,
  0 <= srcva < 2^64 -> 0 <= max -> (srcva mod PGSIZE + max + PGSIZE - 1) / PGSIZE < Z.of_nat fuel ->
  exists r out k, copyinstr_loop fuel (pt_root T) srcva max dst s = Ok (r, dst ++ out) s /\
    instr_post s T srcva max r out k.
Proof.
  intros Hu Ht. induction fuel as [| fuel IH]; intros srcva max dst Hs Hmax Hfuel; [kzlia |].
  cbn [copyinstr_loop]. destruct (Z.ltb_spec 0 max) as [Hpos | Hz].
  2: { exists (-1), [], O. rewrite app_nil_r. split; [done |].
       split_and!; [lia | intros; lia | by constructor | right; split_and!; [done | done | lia]]. }
  rewrite PGROUNDDOWN_page by done. pose proof (walkaddr_page s T l n srcva Hu Ht (proj1 Hs)) as Hwa.
  destruct (readable T srcva) eqn:Hr.
  2: { rewrite (bind_ok _ _ _ _ _ Hwa). exists (-1), [], O. rewrite app_nil_r. split; [done |].
       split_and!; [lia | intros; lia | by constructor | right; rewrite Z.add_0_r; split_and!; [done | done | by right]]. }
  destruct Hwa as (pa & fl & Hwa & Hnz & Hm & Hmx). rewrite (bind_ok _ _ _ _ _ Hwa), Hnz.
  replace (srcva - srcva / PGSIZE * PGSIZE) with (srcva mod PGSIZE) by kzlia.
  set (c := if max <? PGSIZE - srcva mod PGSIZE then max else PGSIZE - srcva mod PGSIZE).
  assert (Hc : c = Z.min max (PGSIZE - srcva mod PGSIZE)).
  { unfold c. destruct (Z.ltb_spec max (PGSIZE - srcva mod PGSIZE)); lia. } clearbody c.
  assert (Hmod : 0 <= srcva mod PGSIZE < PGSIZE) by kzlia.
  unfold bind at 1, gets. cbn [obind].
  destruct (copyinstr_page_run (Z.to_nat c) (m_mem s) (pa + srcva mod PGSIZE) dst) as (k & found & -> & Hk & Hnk & Hf).
  rewrite (ureads_page s T srcva pa fl k Hm) in * by lia.
  assert (Hrr : forall a, srcva <= a < srcva + c -> readable T a = true) by (apply readable_range; lia || done).
  destruct found.
  - destruct Hf as [Hkc H0]. exists 0, (ureads s T srcva k ++ [0]), k. split; [done |].
    split_and!; [lia | intros; apply Hrr; lia | done |]. left. split_and!; [done | done | lia | apply Hrr; lia |].
    unfold uread. replace ((srcva + Z.of_nat k) / PGSIZE) with (srcva / PGSIZE) by kzlia. rewrite Hm. f_equal.
    replace ((srcva + Z.of_nat k) mod PGSIZE) with (srcva mod PGSIZE + Z.of_nat k) by kzlia. by rewrite Z.add_assoc.
  - subst k. rewrite app_nil_r. destruct (decide (c = max)) as [-> | Hne].
    + destruct fuel as [| fuel]; [kzlia |]. rewrite Z.sub_diag. exists (-1), (ureads s T srcva (Z.to_nat max)), (Z.to_nat max).
      split; [done |]. split_and!; [lia | intros; apply Hrr; lia | done |]. right. split_and!; [done | done | lia].
    + rewrite u64_small by kzlia. replace (srcva / PGSIZE * PGSIZE + PGSIZE) with (srcva + c) by kzlia.
      destruct (IH (srcva + c) (max - c) (dst ++ ureads s T srcva (Z.to_nat c))) as (r & out & k & Hrun & Hpost).
      * klia.
      * lia.
      * replace ((srcva + c) mod PGSIZE) with 0 by kzlia. kzlia.
      * exists r, (ureads s T srcva (Z.to_nat c) ++ out), (Z.to_nat c + k)%nat.
        split; [by rewrite app_assoc |]. apply instr_post_step; rewrite ?Z2Nat.id by lia; done.
Qed.

End UserCopy.
