(* ===== verification/Freewalk.v ===== *)
(** * Creating and destroying address spaces: uvmcreate, freewalk, uvmfree

    [freewalk] is specified on the tree of page-table pages it walks ([tree]);
    every well-formed abstract page table with no leaf mappings is such a tree,
    so [uvmfree] returns every page of an address space to the allocator. *)

From S2P Require Import Prelude Riscv Mem StringLib Spinlock Kalloc Vm PageTable Uvm.

(** ** Lists built index by index *)

Lemma list_choice {A} (P : nat -> A -> Prop) N : (forall i, (i < N)%nat -> exists c, P i c) ->
  exists cs, length cs = N /\ forall i c, cs !! i = Some c -> P i c.
Proof.
  induction N as [| N IH]; intros H.
  - exists []. split; [done |]. intros i c Hc. by rewrite lookup_nil in Hc.
  - destruct IH as (cs & Hl & Hc); [intros; apply H; lia |]. destruct (H N) as [c Hn]; [lia |].
    exists (cs ++ [c]). split; [rewrite length_app; simpl; lia |]. intros i x Hx.
    apply lookup_app_Some in Hx as [Hx | [Hge Hx]]; [by apply Hc |].
    apply list_lookup_singleton_Some in Hx as [Hi <-]. by replace i with N by lia.
Qed.

Lemma elem_of_concat {A} (x : A) cs : x ∈ concat cs <-> exists i c, cs !! i = Some c /\ x ∈ c.
Proof.
  induction cs as [| c cs IH]; simpl.
  - split; [by intros ?%elem_of_nil | intros (i & c & Hc & _); by rewrite lookup_nil in Hc].
  - rewrite elem_of_app, IH. split.
    + intros [Hx | (i & c' & Hc & Hx)]; [by exists O, c | by exists (S i), c'].
    + intros ([| i] & c' & Hc & Hx); simplify_eq/=; [by left | right; eauto].
Qed.

Lemma NoDup_concat {A} (cs : list (list A)) : Forall NoDup cs ->
  (forall i j c c' x, cs !! i = Some c -> cs !! j = Some c' -> x ∈ c -> x ∈ c' -> i = j) ->
  NoDup (concat cs).
Proof.
  induction cs as [| c cs IH]; intros Hn Hd; simpl; [constructor |].
  apply Forall_cons in Hn as [Hc Hn]. apply NoDup_app. split; [done |]. split.
  - intros x Hx (i & c' & Hi & Hx')%elem_of_concat. by pose proof (Hd 0%nat (S i) c c' x eq_refl Hi Hx Hx').
  - apply IH; [done |]. intros i j c1 c2 x H1 H2 Hx1 Hx2. pose proof (Hd (S i) (S j) c1 c2 x H1 H2 Hx1 Hx2). lia.
Qed.

Section Freewalk.
Context `{HI : Image} {HIO : ImageOk}.

(** The pages of the page-table tree at [p], in the order [freewalk] frees
    them; leaf tables are empty. *)
Fixpoint tree (n : nat) (m : mem) (p : Z) (ps : list Z) : Prop :=
  page_in p /\
  match n with
  | O => (forall j, 0 <= j < 512 -> rd64 m (p + 8 * j) = 0) /\ ps = [p]
  | S n => exists cs, length cs = 512%nat /\ ps = concat cs ++ [p] /\
      forall i c, cs !! i = Some c ->
        rd64 m (p + 8 * Z.of_nat i) = 0 /\ c = [] \/
        exists q, rd64 m (p + 8 * Z.of_nat i) = mkpte q PTE_V /\ tree n m q c
  end.

Lemma tree_pages n : forall m p ps, tree n m p ps -> Forall page_in ps.
Proof.
  induction n as [| n IH]; intros m p ps [Hp H].
  - destruct H as [_ ->]. by apply Forall_singleton.
  - destruct H as (cs & _ & -> & Hc). apply Forall_app. split; [| by apply Forall_singleton].
    apply Forall_forall. intros x (i & c & Hi & Hx)%elem_of_concat.
    destruct (Hc i c Hi) as [[_ ->] | (q & _ & Ht)]; [by apply elem_of_nil in Hx |].
    apply IH in Ht. rewrite Forall_forall in Ht. by apply Ht.
Qed.

(** A tree depends only on its own pages. *)
Lemma tree_agree n : forall m m' p ps, tree n m p ps ->
  (forall x q, q ∈ ps -> q <= x < q + PGSIZE -> rd8 m' x = rd8 m x) -> tree n m' p ps.
Proof.
  induction n as [| n IH]; intros m m' p ps [Hp H] Ha; (split; [done |]).
  - destruct H as [H ->]. split; [| done]. intros j Hj. rewrite <- (H j Hj). apply rd64_ext.
    intros x Hx. apply (Ha _ p); [set_solver | klia].
  - destruct H as (cs & Hl & -> & Hc). exists cs. split; [done |]. split; [done |].
    intros i c Hi. pose proof (lookup_lt_Some _ _ _ Hi) as Hlt.
    replace (rd64 m' (p + 8 * Z.of_nat i)) with (rd64 m (p + 8 * Z.of_nat i)).
    + destruct (Hc i c Hi) as [? | (q & Hq & Ht)]; [by left | right]. exists q. split; [done |].
      eapply IH; [exact Ht |]. intros x y Hy Hx. apply (Ha _ y); [| done].
      apply elem_of_app. left. apply elem_of_concat. eauto.
    + symmetry. apply rd64_ext. intros x Hx. apply (Ha _ p); [set_solver | klia].
Qed.

(** What freeing the pages [ps] does. *)
Record freed (ps : list Z) (l : list Z) (s s' : mach) : Prop := {
  fr_inv : kmem_inv s' (rev ps ++ l);
  fr_can : can_alloc s';
  fr_frame : vm_frame (list_to_set ps) s s' }.

Definition freewalk_ok (n : nat) : Prop := forall s p ps l,
  tree n (m_mem s) p ps -> kmem_inv s l -> can_alloc s -> NoDup (ps ++ l) ->
  exists s', freewalk (S n) p s = Ok tt s' /\ freed ps l s s'.

Lemma tree_head n m p ps : tree n m p ps -> p ∈ ps.
Proof. destruct n; intros [_ H]; [destruct H as [_ ->] | destruct H as (cs & _ & -> & _)]; set_solver. Qed.

Lemma entries_zero rec p k : forall i s, (forall j, i <= j < i + Z.of_nat k -> rd64 (m_mem s) (p + 8 * j) = 0) ->
  freewalk_entries rec p k i s = Ok tt s.
Proof.
  induction k as [| k IH]; intros i s Hz; cbn [freewalk_entries]; [done |].
  unfold bind at 1, load64, gets. cbn [obind]. rewrite Hz, flag_0 by lia. cbn [andb].
  apply IH. intros j Hj. apply Hz. lia.
Qed.

(** [kfree] of the table itself. *)
Lemma kfree_freed p ps l s s1 : page_in p -> can_alloc s -> can_alloc s1 -> kmem_inv s1 (rev ps ++ l) ->
  (p ∉ ps ++ l) -> vm_frame ({[p]} ∪ list_to_set ps) s s1 ->
  exists s', kfree p s1 = Ok tt s' /\ freed (ps ++ [p]) l s s'.
Proof.
  intros Hp Hc Hc1 Hk Hn Hf. exists (free_state p s1). split; [by apply kfree_run |]. split.
  - rewrite rev_app_distr. cbn [rev app]. apply kmem_inv_free; [done | | done].
    rewrite elem_of_app, elem_of_rev, <- elem_of_app. done.
  - by apply can_alloc_free.
  - eapply (vm_frame_mono ({[p]} ∪ list_to_set ps ∪ {[p]})); [set_solver |].
    eapply (vm_frame_trans 1); [apply Hc | exact Hf |]. split; [by right | done | done |].
    intros x Hx. apply free_state_mem, Hx. set_solver.
Qed.

Definition entries_ok (n : nat) (m : mem) (p i : Z) (cs : list (list Z)) : Prop :=
  forall j c, cs !! j = Some c ->
    rd64 m (p + 8 * (i + Z.of_nat j)) = 0 /\ c = [] \/
    exists q, rd64 m (p + 8 * (i + Z.of_nat j)) = mkpte q PTE_V /\ tree n m q c.

Lemma entries_ok_tail n m m' p i c cs : page_in p -> 0 <= i -> i + Z.of_nat (length (c :: cs)) <= 512 ->
  entries_ok n m p i (c :: cs) ->
  (forall j, i < j < 512 -> rd64 m' (p + 8 * j) = rd64 m (p + 8 * j)) ->
  (forall x q, q ∈ concat cs -> q <= x < q + PGSIZE -> rd8 m' x = rd8 m x) ->
  entries_ok n m' p (i + 1) cs.
Proof.
  intros Hp Hi Hl He H1 H2 j d Hd. specialize (He (S j) d Hd). pose proof (lookup_lt_Some _ _ _ Hd).
  replace (i + Z.of_nat (S j)) with (i + 1 + Z.of_nat j) in He by lia. simpl in Hl. rewrite H1 by lia.
  destruct He as [? | (q & Hq & Ht)]; [by left | right]. exists q. split; [done |].
  eapply tree_agree; [exact Ht |]. intros x y Hy. apply H2. apply elem_of_concat. eauto.
Qed.

Lemma table_entry_child q : page_in q ->
  flag (mkpte q PTE_V) PTE_V && (Z.land (mkpte q PTE_V) (Z.lor (Z.lor PTE_R PTE_W) PTE_X) =? 0) = true /\
  PTE2PA (mkpte q PTE_V) = q.
Proof.
  intros Hq%page_in_aligned. rewrite flag_mkpte, land_mkpte, PTE2PA_mkpte by (done || by vm_compute). done.
Qed.

(** One entry that points to a child table: free the child, clear the entry. *)
Lemma entry_child_run n p q i c cs s l : freewalk_ok n -> page_in p -> 0 <= i < 512 ->
  tree n (m_mem s) q c -> kmem_inv s l -> can_alloc s ->
  NoDup (c ++ cs ++ l) -> (p ∉ c ++ cs ++ l) -> Forall page_in cs ->
  exists s', (freewalk (S n) q ;;; store64 (p + 8 * i) 0) s = Ok tt s' /\ kmem_inv s' (rev c ++ l) /\
    can_alloc s' /\ vm_frame ({[p]} ∪ list_to_set c) s s' /\
    (forall j, i < j < 512 -> rd64 (m_mem s') (p + 8 * j) = rd64 (m_mem s) (p + 8 * j)) /\
    (forall x y, y ∈ cs -> y <= x < y + PGSIZE -> rd8 (m_mem s') x = rd8 (m_mem s) x).
Proof.
  intros Hfw Hp Hi Ht Hk Hca Hnd Hnp Hcs. rewrite !elem_of_app in Hnp.
  pose proof (tree_pages _ _ _ _ Ht) as Hcp. rewrite Forall_forall in Hcp, Hcs.
  apply NoDup_app in Hnd as (Hndc & Hdj & Hndl). apply NoDup_app in Hndl as (_ & Hdj' & Hndl).
  destruct (Hfw s q c l Ht Hk Hca) as (s1 & Hrun & [Hk1 Hc1 Hf1]).
  { apply NoDup_app. split; [done |]. split; [| done]. intros x Hx Hxl.
    apply (Hdj x Hx), elem_of_app. by right. }
  exists (set_mem (wr64 (m_mem s1) (p + 8 * i) 0) s1).
  split; [by rewrite (bind_ok _ _ _ _ _ Hrun) |].
  assert (Hcp' : forall x, x ∈ (list_to_set c : gset Z) -> page_in x) by (intros x Hx%elem_of_list_to_set; by apply Hcp).
  assert (Hag : agree (outside {[p]}) (m_mem s1) (wr64 (m_mem s1) (p + 8 * i) 0)).
  { intros x Hx. specialize (Hx p (elem_of_singleton_2 _ _ eq_refl)). apply rd8_wr64_out. klia. }
  assert (Hpo : forall x r, page_in r -> r <> p -> r <= x < r + PGSIZE -> outside {[p]} x).
  { intros x r Hr Hne Hx. apply (outside_page _ r); [by intros y ->%elem_of_singleton | done | | done].
    by intros ->%elem_of_singleton. }
  split; [| split; [by apply (can_alloc_hw s1) | split; [| split]]].
  - eapply kmem_inv_agree; [exact Hk1 | done | apply mem_ok_wr64, Hk1 | exact Hag |].
    intros r x Hr Hx. pose proof (ki_pages _ _ Hk1) as Hpg. rewrite Forall_forall in Hpg.
    apply (Hpo x r); [by apply Hpg | | done]. intros ->. rewrite elem_of_app, elem_of_rev in Hr. tauto.
  - eapply vm_frame_mono; [| eapply (vm_frame_trans 1); [apply Hca | exact Hf1 |]];
      [| split; [by left | done | done | exact Hag]]. clear. set_solver.
  - intros j Hj. cbn [m_mem set_mem]. rewrite rd64_wr64_ne by lia. apply (agree_rd64 (outside (list_to_set c)));
      [apply Hf1 |]. intros x Hx. apply (outside_page _ p); [done | done | | klia].
    rewrite elem_of_list_to_set. tauto.
  - intros x y Hy Hx. cbn [m_mem set_mem]. rewrite Hag by (apply (Hpo x y); [by apply Hcs | intros ->; tauto | done]).
    apply (vf_mem _ _ _ Hf1). apply (outside_page _ y); [done | by apply Hcs | | done].
    intros Hyc%elem_of_list_to_set. apply (Hdj y Hyc), elem_of_app. by left.
Qed.

Lemma entries_run n p : freewalk_ok n -> page_in p -> forall k i cs s l,
  length cs = k -> 0 <= i -> i + Z.of_nat k <= 512 -> entries_ok n (m_mem s) p i cs ->
  kmem_inv s l -> can_alloc s -> NoDup (concat cs ++ l) -> (p ∉ concat cs ++ l) ->
  exists s', freewalk_entries (freewalk (S n)) p k i s = Ok tt s' /\ kmem_inv s' (rev (concat cs) ++ l) /\
    can_alloc s' /\ vm_frame ({[p]} ∪ list_to_set (concat cs)) s s'.
Proof.
  intros Hfw Hp. induction k as [| k IH]; intros i cs s l Hl Hi Hik He Hk Hca Hnd Hnp.
  { destruct cs; [| done]. exists s. split; [done |]. split; [done |]. split; [done | apply vm_frame_refl]. }
  destruct cs as [| c cs]; [done |]. cbn [freewalk_entries concat length] in *. rewrite <- app_assoc in Hnd, Hnp.
  pose proof (He O c eq_refl) as H0. rewrite Z.add_0_r in H0.
  unfold bind at 1, load64, gets. cbn [obind].
  destruct H0 as [[Hz ->] | (q & Hq & Ht)].
  { rewrite Hz, flag_0. cbn [andb]. unfold bind at 1, ret at 1. cbn [obind].
    apply (IH (i + 1) cs s l); [lia | lia | lia | | exact Hk | exact Hca | exact Hnd | exact Hnp].
    eapply entries_ok_tail; [exact Hp | exact Hi | | exact He | done | done]. cbn [length]. lia. }
  pose proof (tree_pages _ _ _ _ Ht) as Hcp. rewrite Forall_forall in Hcp.
  destruct (table_entry_child q (Hcp q (tree_head _ _ _ _ Ht))) as [Hfl Hpa]. rewrite Hq, Hfl, Hpa.
  assert (Hcs : Forall page_in (concat cs)).
  { apply Forall_forall. intros x (j & d & Hd & Hx)%elem_of_concat.
    destruct (He (S j) d Hd) as [[_ ->] | (r & _ & Hr)]; [by apply elem_of_nil in Hx |].
    apply tree_pages in Hr. rewrite Forall_forall in Hr. by apply Hr. }
  destruct (entry_child_run n p q i c (concat cs) s l Hfw Hp) as (s1 & Hrun & Hk1 & Hc1 & Hf1 & Hs1 & Hs2);
    [lia | exact Ht | exact Hk | exact Hca | exact Hnd | exact Hnp | exact Hcs |].
  rewrite (bind_ok _ _ _ _ _ Hrun).
  assert (Hperm : concat cs ++ rev c ++ l ≡ₚ c ++ concat cs ++ l).
  { rewrite <- (Permutation_rev c). apply Permutation_app_swap_app. }
  destruct (IH (i + 1) cs s1 (rev c ++ l)) as (s2 & Hrun2 & Hk2 & Hc2 & Hf2);
    [lia | lia | lia | | exact Hk1 | exact Hc1 | by rewrite Hperm | by rewrite Hperm |].
  { eapply entries_ok_tail; [exact Hp | exact Hi | | exact He | exact Hs1 | exact Hs2]. cbn [length]. lia. }
  exists s2. split; [exact Hrun2 |]. split; [by rewrite rev_app_distr, <- app_assoc |]. split; [exact Hc2 |].
  eapply vm_frame_mono; [| eapply (vm_frame_trans 1); [apply Hca | exact Hf1 | exact Hf2]]. clear. set_solver.
Qed.

Lemma freewalk_run n : freewalk_ok n.
Proof.
  induction n as [| n IH]; intros s p ps l [Hp H] Hk Hca Hnd; cbn [freewalk].
  - destruct H as [Hz ->]. rewrite (bind_ok _ _ s tt s) by (apply entries_zero; intros; apply Hz; lia).
    apply (kfree_freed p [] l s s); [done | done | done | done | | apply vm_frame_refl].
    by apply NoDup_cons in Hnd as [? _].
  - destruct H as (cs & Hl & -> & Hc). rewrite <- app_assoc in Hnd.
    assert (Hnp : (p ∉ concat cs ++ l) /\ NoDup (concat cs ++ l)).
    { change ([p] ++ l) with (p :: l) in Hnd. rewrite <- Permutation_middle in Hnd. by apply NoDup_cons in Hnd. }
    destruct (entries_run n p IH Hp 512 0 cs s l) as (s1 & Hrun & Hk1 & Hc1 & Hf1);
      [done | lia | lia | | done | done | apply Hnp | apply Hnp |].
    { intros j c Hj. rewrite Z.add_0_l. by apply Hc. }
    rewrite (bind_ok _ _ _ _ _ Hrun). apply (kfree_freed p (concat cs) l s s1); [done | done | done | done | apply Hnp | done].
Qed.

(** ** A page table without mappings is a tree *)

(** The tables at or below table [(n, k)]. *)
Definition below (T : pt) (n : nat) (k : Z) (q : Z) : Prop :=
  exists m j, (m <= n)%nat /\ pt_tab T !! (m, j) = Some q /\ idx (n - m) j = k.

Lemma below_child T n k q : pt_ok T -> (S n <= 2)%nat ->
  below T (S n) k q <-> pt_tab T !! (S n, k) = Some q \/
    exists i, 0 <= i < 512 /\ below T n (k * 512 + i) q.
Proof.
  intros Hok Hn. split.
  - intros (m & j & Hm & Hq & Hj). destruct (decide (m = S n)) as [-> | Hne].
    + left. rewrite Nat.sub_diag, idx_0 in Hj. by subst.
    + right. replace (S n - m)%nat with (S (n - m)) in Hj by lia. rewrite idx_S in Hj.
      exists (idx (n - m) j mod 512). split; [zlia |].
      exists m, j. split; [lia |]. split; [done |]. zlia.
  - intros [Hq | (i & Hi & m & j & Hm & Hq & Hj)].
    + exists (S n), k. split; [lia |]. split; [done |]. by rewrite Nat.sub_diag, idx_0.
    + exists m, j. split; [lia |]. split; [done |]. replace (S n - m)%nat with (S (n - m)) by lia.
      rewrite idx_S, Hj. zlia.
Qed.

Lemma up_chain T : pt_ok T -> forall d m j q, pt_tab T !! (m, j) = Some q -> (m + d <= 2)%nat ->
  exists r, pt_tab T !! (m + d, idx d j)%nat = Some r.
Proof.
  intros Hok. induction d as [| d IH]; intros m j q Hq Hd.
  - rewrite Nat.add_0_r, idx_0. eauto.
  - destruct (IH m j q Hq) as [r Hr]; [lia |]. rewrite Nat.add_succ_r, idx_S.
    apply (po_up _ Hok _ _ _ Hr). lia.
Qed.

Lemma below_inj T n a b q : pt_ok T -> below T n a q -> below T n b q -> a = b.
Proof.
  intros Hok (m & j & _ & Hq & <-) (m' & j' & _ & Hq' & <-).
  pose proof (po_inj _ Hok _ _ _ Hq Hq') as [= -> ->]. done.
Qed.

Lemma below_missing T n k q : pt_ok T -> (n <= 2)%nat -> pt_tab T !! (n, k) = None -> below T n k q -> False.
Proof.
  intros Hok Hn HN (m & j & Hm & Hq & Hj).
  destruct (up_chain T Hok (n - m) m j q Hq) as [r Hr]; [lia |].
  rewrite Hj in Hr. replace (m + (n - m))%nat with n in Hr by lia. congruence.
Qed.

Lemma tree_of_pt m T : pt_ok T -> repr m T -> (forall v, pt_map T !! v = None) ->
  forall n k p, (n <= 2)%nat -> pt_tab T !! (n, k) = Some p ->
  exists ps, tree n m p ps /\ NoDup ps /\ forall q, q ∈ ps <-> below T n k q.
Proof.
  intros Hok Hr Hm. induction n as [| n IH]; intros k p Hn Hp; pose proof (po_page _ Hok _ _ Hp) as Hpp.
  { exists [p]. split; [split; [done |]; split; [| done] | split; [apply NoDup_singleton |]].
    - intros j Hj. rewrite (Hr _ _ _ _ Hp Hj). cbn [entry]. by rewrite Hm.
    - intros q. rewrite list_elem_of_singleton. split.
      + intros ->. exists O, k. split; [lia |]. split; [done |]. by rewrite idx_0.
      + intros (m' & j & Hm' & Hq & Hj). assert (m' = O) as -> by lia. rewrite idx_0 in Hj. congruence. }
  destruct (list_choice (fun i c => NoDup c /\ (forall q, q ∈ c <-> below T n (k * 512 + Z.of_nat i) q) /\
    (rd64 m (p + 8 * Z.of_nat i) = 0 /\ c = [] \/
     exists q, rd64 m (p + 8 * Z.of_nat i) = mkpte q PTE_V /\ tree n m q c)) 512) as (cs & Hl & Hcs).
  { intros i Hi. rewrite (Hr _ _ _ (Z.of_nat i) Hp) by lia. cbn [entry].
    destruct (pt_tab T !! (n, k * 512 + Z.of_nat i)) as [q |] eqn:E.
    - destruct (IH _ q ltac:(lia) E) as (c & Ht & Hnd & Hq). exists c. split; [done |]. split; [done |]. eauto.
    - exists []. split; [constructor |]. split; [| by left]. intros q. split; [by intros ?%elem_of_nil |].
      intros Hb. exfalso. eapply below_missing; [done | | exact E | exact Hb]. lia. }
  assert (Hin : forall q, q ∈ concat cs <-> exists i, 0 <= i < 512 /\ below T n (k * 512 + i) q).
  { intros q. rewrite elem_of_concat. split.
    - intros (i & c & Hi & Hq). pose proof (lookup_lt_Some _ _ _ Hi). exists (Z.of_nat i). split; [lia |].
      by apply (Hcs i c Hi).
    - intros (i & Hi & Hb). destruct (lookup_lt_is_Some_2 cs (Z.to_nat i)) as [c Hc]; [lia |].
      exists (Z.to_nat i), c. split; [done |]. apply (Hcs _ _ Hc). by rewrite Z2Nat.id by lia. }
  exists (concat cs ++ [p]). split; [split; [done |] | split].
  - exists cs. split; [done |]. split; [done |]. intros i c Hi. by apply Hcs.
  - apply NoDup_app. split; [| split; [| apply NoDup_singleton]].
    + apply NoDup_concat; [apply Forall_lookup; intros i c Hi; by apply (Hcs i c Hi) |].
      intros i j c c' x Hi Hj Hx Hx'. apply (Hcs i c Hi) in Hx. apply (Hcs j c' Hj) in Hx'.
      pose proof (below_inj _ _ _ _ _ Hok Hx Hx'). lia.
    + intros x (i & Hi & m' & j & Hm' & Hq & _)%Hin ->%list_elem_of_singleton.
      pose proof (po_inj _ Hok _ _ _ Hp Hq) as Heq. injection Heq. lia.
  - intros q. rewrite elem_of_app, list_elem_of_singleton, Hin, (below_child T n k q Hok Hn).
    split; [intros [? | ->]; [by right | by left] | intros [Hq | ?]; [right; congruence | by left]].
Qed.

Lemma below_root T q : pt_ok T -> below T 2 0 q <-> q ∈ tables T.
Proof.
  intros Hok. rewrite elem_tables. split.
  - intros (m & j & _ & Hq & _). eauto.
  - intros [[m j] Hq]. destruct (po_level _ Hok _ _ _ Hq) as [Hm _]. exists m, j. split; [done |]. split; [done |].
    destruct (up_chain T Hok (2 - m) m j q Hq) as [r Hr]; [lia |].
    replace (m + (2 - m))%nat with 2%nat in Hr by lia. by apply (po_level _ Hok _ _ _ Hr).
Qed.

(** ** uvmfree *)

Lemma uvmfree_run s T l sz : uvm_inv s T l (npages sz) -> can_alloc s -> 0 <= sz <= TRAPFRAME ->
  (forall w, UTOP <= w \/ w < 0 -> pt_map T !! w = None) ->
  exists s' l', uvmfree (pt_root T) sz s = Ok tt s' /\ kmem_inv s' l' /\ can_alloc s' /\
    (forall p, p ∈ l' <-> p ∈ pool T (npages sz) l) /\ vm_frame (pool T (npages sz) l) s s'.
Proof.
  intros Hu Hca Hsz Htop. unfold uvmfree.
  assert (Hunmap : exists s1 T1 l1, when (0 <? sz) (uvmunmap (pt_root T) 0 (PGROUNDUP sz / PGSIZE) true) s = Ok tt s1 /\
    can_alloc s1 /\ uvm_inv s1 T1 l1 0 /\ uvm_rel 0 s T l (npages sz) s1 T1 l1 0).
  { destruct (Z.ltb_spec 0 sz) as [Hpos | Hz]; cbn [when].
    - destruct (uvm_shrink s T l (npages sz) 0 Hu Hca) as (s1 & T1 & l1 & Hrun & Hc1 & Hu1 & Hr1 & _);
        [lia | by apply npages_UTOP |].
      exists s1, T1, l1. split; [| done]. rewrite PGROUNDUP_npages, Z.div_mul by klia.
      by rewrite Nat.sub_0_r in Hrun.
    - exists s, T, l. assert (sz = 0) as -> by lia. split; [done |]. split; [done |]. split; [done | apply uvm_rel_refl]. }
  destruct Hunmap as (s1 & T1 & l1 & Hrun & Hc1 & Hu1 & Hr1). rewrite (bind_ok _ _ _ _ _ Hrun).
  pose proof (ui_vm _ _ _ _ Hu1) as [Hk1 Hok1 Hrep1 Hd1].
  assert (Hnone : forall w, pt_map T1 !! w = None).
  { intros w. destruct (decide (0 <= w < UTOP)) as [Hw | Hw]; [apply (ui_above _ _ _ _ Hu1); lia |].
    rewrite (ur_map _ _ _ _ _ _ _ _ _ Hr1) by lia. apply Htop. lia. }
  destruct (tree_of_pt _ _ Hok1 Hrep1 Hnone 2 0 (pt_root T1)) as (ps & Ht & Hnd & Hps); [lia | apply Hok1 |].
  assert (Hpt : forall q, q ∈ ps <-> q ∈ tables T1) by (intros q; rewrite Hps; by apply below_root).
  destruct (freewalk_run 2 s1 (pt_root T1) ps l1 Ht Hk1 Hc1) as (s2 & Hrun2 & [Hk2 Hc2 Hf2]).
  { apply NoDup_app. split; [done |]. split; [| apply Hk1]. intros q Hq%Hpt Hql. by eapply Hd1. }
  assert (Hpool : pool T1 0 l1 = pool T (npages sz) l) by apply Hr1.
  exists s2, (rev ps ++ l1). rewrite <- (ur_root _ _ _ _ _ _ _ _ _ Hr1).
  split; [exact Hrun2 |]. split; [done |]. split; [done |]. split.
  - intros p. rewrite <- Hpool. unfold pool. cbn [upages range_pas app].
    rewrite elem_of_app, elem_of_rev, Hpt, elem_of_union, elem_of_list_to_set. done.
  - eapply vm_frame_mono; [| eapply (vm_frame_trans 1); [apply Hca | apply Hr1 | exact Hf2]].
    rewrite <- Hpool. unfold pool. intros q. rewrite !elem_of_union, !elem_of_list_to_set, Hpt. tauto.
Qed.

(** ** uvmcreate *)

Definition empty_pt (root : Z) : pt := mkPt root {[(2%nat, 0) := root]} ∅.

Lemma empty_pt_ok q : page_in q -> pt_ok (empty_pt q).
Proof.
  intros Hq. constructor; cbn [empty_pt pt_tab pt_map pt_root].
  - apply lookup_singleton_eq.
  - intros l k p [[= <- <-] _]%lookup_singleton_Some. lia.
  - intros l k p [[= <- <-] _]%lookup_singleton_Some. lia.
  - by intros x p [_ <-]%lookup_singleton_Some.
  - by intros x y p [<- _]%lookup_singleton_Some [<- _]%lookup_singleton_Some.
  - intros v pa fl Hv. by rewrite lookup_empty in Hv.
Qed.

Lemma uvmcreate_run s q l : kmem_inv s (q :: l) -> can_alloc s ->
  exists s', uvmcreate s = Ok q s' /\ can_alloc s' /\ uvm_inv s' (empty_pt q) l 0 /\
    vm_frame {[q]} s s' /\ tables (empty_pt q) = {[q]}.
Proof.
  intros Hk Hca. pose proof (ki_pages _ _ Hk) as [Hq Hl]%Forall_cons. rewrite Forall_forall in Hl.
  pose proof (ki_nodup _ _ Hk) as [Hql _]%NoDup_cons.
  assert (Ht : tables (empty_pt q) = {[q]}) by (unfold tables; simpl; apply map_img_singleton_L).
  unfold uvmcreate. rewrite (bind_ok _ _ _ _ _ (kalloc_run _ _ Hk Hca)). cbn [hd]. rewrite (page_nonzero q Hq).
  unfold bind, memset_m, modify, ret. cbn [obind].
  pose proof (kmem_inv_alloc _ _ _ Hk) as Hk0. pose proof (can_alloc_alloc _ (q :: l) Hca) as Hc0.
  assert (Hf0 : vm_frame {[q]} s (alloc_state (q :: l) s)).
  { split; [by right | done | done |]. intros x Hx. apply alloc_state_mem, Hx. by apply elem_of_singleton. }
  revert Hk0 Hc0 Hf0. generalize (alloc_state (q :: l) s). intros s0 Hk0 Hc0 Hf0.
  set (m := memset (m_mem s0) q 0 PGSIZE).
  assert (Hag : agree (outside {[q]}) (m_mem s0) m).
  { intros x Hx. apply rd8_memset_out; [klia |]. apply Hx. by apply elem_of_singleton. }
  exists (set_mem m s0). split; [done |]. split; [by apply (can_alloc_hw s0) |]. split; [| split; [| done]].
  - split; [split | | | constructor | constructor].
    + eapply kmem_inv_agree; [exact Hk0 | done | apply mem_ok_memset, Hk0 | exact Hag |].
      intros p x Hp Hx. apply (outside_page _ p); [by intros y ->%elem_of_singleton | by apply Hl | | done].
      by intros ->%elem_of_singleton.
    + by apply empty_pt_ok.
    + intros n k p j Hp Hj. cbn [empty_pt pt_tab] in Hp. apply lookup_singleton_Some in Hp as [[= <- <-] <-]. unfold m. cbn [m_mem set_mem].
      rewrite rd64_memset0 by klia. cbn [entry empty_pt pt_tab]. by rewrite lookup_singleton_ne.
    + intros p Hp. rewrite Ht. by intros ->%elem_of_singleton.
    + intros w Hw. lia.
    + intros w Hw. apply lookup_empty.
  - eapply vm_frame_mono; [| eapply (vm_frame_trans 1); [apply Hca | exact Hf0 |]];
      [| split; [by left | done | done | exact Hag]]. clear. set_solver.
Qed.

(** Other address spaces are unaffected by taking page [q]. *)
Lemma uvm_inv_other s s' To q l n : uvm_inv s To (q :: l) n -> kmem_inv s' l -> vm_frame {[q]} s s' ->
  uvm_inv s' To l n /\ (forall va, 0 <= va < Z.of_nat n * PGSIZE -> uread s' To va = uread s To va) /\
  (q ∉ tables To) /\ (q ∉ upages n To).
Proof.
  intros Hu Hk' Hf. pose proof (uvm_page_in _ _ _ _ _ Hu) as Hq.
  assert (Hqp : forall y, y ∈ ({[q]} : gset Z) -> page_in y) by (by intros y ->%elem_of_singleton).
  pose proof Hu as [[Hk Hok Hr Hd] Hm Ha Hn Ho]. rewrite Forall_forall in Ho.
  assert (Hqt : q ∉ tables To) by (apply Hd; apply elem_of_cons; by left).
  assert (Hqu : q ∉ upages n To).
  { intros Hin. destruct (Ho q Hin) as (_ & Hx & _). apply Hx, elem_of_cons. by left. }
  split; [| split; [| done]].
  - split; [split; [done | done | |] | done | done | done |].
    + eapply repr_agree; [done | done | apply Hf |]. intros p x Hp Hx.
      apply (outside_page _ p); [done | by eapply tables_page_in | | done]. by intros ->%elem_of_singleton.
    + intros p Hp. apply Hd, elem_of_cons. by right.
    + apply Forall_forall. intros p Hp. destruct (Ho p Hp) as (? & Hl & ?). split_and!; [done | | done].
      intros Hpl. apply Hl, elem_of_cons. by right.
  - intros va Hva. eapply uread_frame; [exact Hu | done | apply Hf | done |].
    intros pa fl Hpa ->%elem_of_singleton. apply Hqu. eapply upage_in; [exact Hu | | exact Hpa]. kzlia.
Qed.

End Freewalk.
