(* ===== verification/VmSpec.v ===== *)
(** * What kernel/vm.c guarantees

    The theorems about page tables and user memory, each with an example of a
    machine on which its hypotheses hold. *)

From S2P Require Import Prelude Riscv Mem StringLib Spinlock Kalloc Vm PageTable Uvm UserCopy Freewalk.

#[local] Existing Instances image0 image0_ok.

(** ** Example address spaces *)

(** A two-page address space on a machine with 40 pages, most of them free. *)
Lemma example_space : exists s T l, uvm_inv s T l (npages 5000) /\ can_alloc s /\ top_ok T /\
  (forall w, UTOP <= w \/ w < 0 -> pt_map T !! w = None) /\
  (forall va, 0 <= va < 8192 -> writable T va = true) /\
  (forall va, 0 <= va < 8192 -> uread s T va = Some 0) /\ (20 <= length l)%nat.
Proof.
  destruct (uvmcreate_run (stocked 40) _ (stock 39) (stocked_inv 40 ltac:(lia)) (stocked_can_alloc 40))
    as (s1 & _ & Hc1 & Hu1 & _).
  destruct (uvmalloc_run s1 _ _ 0 5000 PTE_W Hu1 Hc1) as (r & s & T & l & _ & Hc & Hr);
    [by vm_compute | lia | by vm_compute |].
  destruct Hr as [(_ & Hu & Hrel & Hfl & Hz & Hl) | (_ & _ & _ & Hl)]; [| vm_compute in Hl; lia].
  assert (Htop : forall w, UTOP <= w \/ w < 0 -> pt_map T !! w = None).
  { intros w Hw. rewrite (ur_map _ _ _ _ _ _ _ _ _ Hrel) by lia. apply lookup_empty. }
  exists s, T, l. split; [done |]. split; [done |]. split; [| split; [done | split; [| split]]].
  - intros w pa fl Hw Hm. rewrite Htop in Hm by lia. done.
  - intros va Hva. unfold writable, readable. destruct (Z.ltb_spec va MAXVA); [| klia].
    destruct (Hfl (va / PGSIZE)) as [pa Hm]; [change (npages 5000) with 2%nat; change (npages 0) with O; kzlia |].
    rewrite Hm. done.
  - intros va Hva. apply Hz. change (npages 5000) with 2%nat. change (npages 0) with O. klia.
  - change (length (stock 39)) with 39%nat in Hl. change (npages 5000 - npages 0)%nat with 2%nat in Hl. lia.
Qed.

(** The same, and an empty address space beside it. *)
Lemma example_two_spaces : exists s T T' l, uvm_inv s T l (npages 5000) /\ uvm_inv s T' l 0 /\
  own T (npages 5000) ## own T' 0 /\ can_alloc s /\ (19 <= length l)%nat.
Proof.
  destruct example_space as (s & T & l & Hu & Hca & _ & _ & _ & _ & Hl).
  destruct l as [| q l]; [simpl in Hl; lia |].
  destruct (uvmcreate_run s q l (vi_kmem _ _ _ (ui_vm _ _ _ _ Hu)) Hca) as (s' & _ & Hc' & Hu' & Hf & Ht).
  destruct (uvm_inv_other s s' T q l _ Hu (vi_kmem _ _ _ (ui_vm _ _ _ _ Hu')) Hf) as (Ho & _ & Hqt & Hqu).
  exists s', T, (empty_pt q), l. split; [done |]. split; [done |]. split; [| split; [done | simpl in Hl; lia]].
  unfold own. rewrite Ht. cbn [upages range_pas list_to_set]. intros p Hp Hp'.
  rewrite union_empty_r_L, elem_of_singleton in Hp'. subst p.
  rewrite elem_of_union, elem_of_list_to_set in Hp. tauto.
Qed.

(** ** Page tables *)

(** C18: [mappages] on a page-aligned range of [n] unmapped pages. It never
    panics; it returns 0 when every page is mapped, and then [walk] finds for each
    page the PTE with the consecutive physical page and the permissions asked
    for; it returns -1 only when the allocator ran dry, with some first pages
    mapped. Other mappings are unchanged, the page-table pages it adds come from
    the free list, and no memory outside page-table pages is written. *)
Theorem mappages_correct `{HIO : ImageOk} (s : mach) (T : pt) (l : list Z) (va : Z) (n : nat) (pa perm : Z)
    (Hi : vm_inv s T l) (Hca : can_alloc s) (Hperm : 0 <= perm < 1024)
    (Hva : 0 <= va) (Hal : va mod PGSIZE = 0) (Hn : (0 < n)%nat) (Hmax : va + Z.of_nat n * PGSIZE <= MAXVA)
    (Hpa : page_aligned pa) (Hpm : pa + Z.of_nat n * PGSIZE <= 2^56)
    (Hno : forall w, va / PGSIZE <= w < va / PGSIZE + Z.of_nat n -> pt_map T !! w = None) :
  exists r s' T' new l', mappages (pt_root T) va (Z.of_nat n * PGSIZE) pa perm s = Ok r s' /\
    vm_inv s' T' l' /\ can_alloc s' /\ l = new ++ l' /\ tables T' = tables T ∪ list_to_set new /\
    vm_frame (tables T') s s' /\
    (forall w, ~ va / PGSIZE <= w < va / PGSIZE + Z.of_nat n -> pt_map T' !! w = pt_map T !! w) /\
    (r = 0 /\ (forall i, 0 <= i < Z.of_nat n -> exists a,
        walk (pt_root T) (va + i * PGSIZE) false s' = Ok a s' /\ a <> 0 /\
        rd64 (m_mem s') a = Z.lor (PA2PTE (pa + i * PGSIZE)) (Z.lor perm PTE_V)) \/
     r = -1 /\ l' = []).
Proof.
  destruct (mappages_run s T l va n pa perm) as
    (r & s' & T' & new & l' & k & Hrun & Hi' & Hc' & Hl & Hg & HM & Hf & Hlen & Hr); try done.
  exists r, s', T', new, l'. split; [done |]. do 3 (split; [done |]).
  split; [apply Hg |]. split; [done |]. split.
  - intros w Hw. rewrite HM, lookup_map_range, decide_False by lia. done.
  - destruct Hr as [[-> ->] | (-> & _ & ->)]; [left | by right]. split; [done |]. intros i Hi0.
    assert (Hvi : (va + i * PGSIZE) / PGSIZE = va / PGSIZE + i) by kzlia.
    assert (Hm : pt_map T' !! (va / PGSIZE + i) = Some (pa + i * PGSIZE, Z.lor perm PTE_V)).
    { rewrite HM, lookup_map_range, decide_True by lia. do 3 f_equal. lia. }
    destruct (leaf_mapped _ _ _ _ _ _ Hi' Hm) as [Hnz Hrd]. exists (leaf_addr T' (va / PGSIZE + i)).
    split; [| done]. rewrite <- (pg_root _ _ _ Hg), <- Hvi. eapply walk_find; [exact Hi' | klia].
Qed.

Lemma mappages_correct_witness : exists s T l s' r, vm_inv s T l /\
  mappages (pt_root T) (4 * PGSIZE) (3 * PGSIZE) PHYSTOP PTE_R s = Ok r s'.
Proof.
  destruct example_space as (s & T & l & Hu & Hca & _).
  destruct (mappages_correct s T l (4 * PGSIZE) 3 PHYSTOP PTE_R (ui_vm _ _ _ _ Hu) Hca) as (r & s' & _ & _ & _ & Hrun & _).
  - by vm_compute.
  - klia.
  - reflexivity.
  - lia.
  - by vm_compute.
  - by vm_compute.
  - by vm_compute.
  - intros w Hw. apply (ui_above _ _ _ _ Hu). change (npages 5000) with 2%nat.
    change (4 * PGSIZE / PGSIZE) with 4 in Hw. unfold UTOP. kzlia.
  - exists s, T, l, s', r. split; [exact (ui_vm _ _ _ _ Hu) | exact Hrun].
Defined.

(** ** Address spaces *)

(** C17: [uvmalloc] growing an address space from [oldsz] to [newsz]. It never
    panics. On success it returns [newsz], every new page is mapped with the
    permissions asked for and reads as zeros, and the old pages and their
    contents are unchanged. Otherwise it returns 0 with the old address space
    intact, which happens only when fewer than three free pages per page asked
    for are left. In both cases no page is lost: page-table pages, user pages and
    free pages together are what they were. *)
Theorem uvmalloc_correct `{HIO : ImageOk} (s : mach) (T : pt) (l : list Z) (oldsz newsz xperm : Z)
    (Hu : uvm_inv s T l (npages oldsz)) (Hca : can_alloc s) (Hx : 0 <= xperm < 1024)
    (Ho : 0 <= oldsz <= newsz) (Ht : newsz <= TRAPFRAME) :
  exists r s' T' l', uvmalloc (pt_root T) oldsz newsz xperm s = Ok r s' /\ can_alloc s' /\
    (r = newsz /\ uvm_inv s' T' l' (npages newsz) /\
       uvm_rel (npages oldsz) s T l (npages oldsz) s' T' l' (npages newsz) /\
       (forall w, Z.of_nat (npages oldsz) <= w < Z.of_nat (npages newsz) ->
          exists pa, pt_map T' !! w = Some (pa, uflags xperm)) /\
       (forall va, Z.of_nat (npages oldsz) * PGSIZE <= va < Z.of_nat (npages newsz) * PGSIZE ->
          uread s' T' va = Some 0) \/
     r = 0 /\ uvm_inv s' T' l' (npages oldsz) /\
       uvm_rel (npages oldsz) s T l (npages oldsz) s' T' l' (npages oldsz) /\
       (length l <= 3 * (npages newsz - npages oldsz))%nat).
Proof.
  destruct (uvmalloc_run s T l oldsz newsz xperm Hu Hca Hx Ho Ht) as (r & s' & T' & l' & Hrun & Hc' & Hr).
  exists r, s', T', l'. split; [done |]. split; [done |].
  destruct Hr as [(? & ? & ? & ? & ? & _) | ?]; [left | right]; auto.
Qed.

Lemma uvmalloc_correct_witness : exists s T l s' T' l', uvm_inv s T l (npages 5000) /\
  uvmalloc (pt_root T) 5000 9000 PTE_W s = Ok 9000 s' /\ uvm_inv s' T' l' (npages 9000) /\
  uread s' T' 8192 = Some 0.
Proof.
  destruct example_space as (s & T & l & Hu & Hca & _ & _ & _ & _ & Hl).
  destruct (uvmalloc_correct s T l 5000 9000 PTE_W Hu Hca) as (r & s' & T' & l' & Hrun & _ & Hr).
  - by vm_compute.
  - lia.
  - by vm_compute.
  - destruct Hr as [(-> & Hu' & _ & _ & Hz) | (_ & _ & _ & Hle)].
    + exists s, T, l, s', T', l'. split; [exact Hu |]. split; [exact Hrun |]. split; [exact Hu' |].
      apply Hz. by vm_compute.
    + change (npages 9000 - npages 5000)%nat with 1%nat in Hle. lia.
Defined.

(** C16: [uvmfree] of an address space of [sz] bytes (whose trampoline and
    trapframe have been unmapped) returns, and gives every page-table page and
    every user page back: afterwards the free list holds exactly the pages of
    the address space and the pages that were free before, each once. *)
Theorem uvmfree_correct `{HIO : ImageOk} (s : mach) (T : pt) (l : list Z) (sz : Z)
    (Hu : uvm_inv s T l (npages sz)) (Hca : can_alloc s) (Hsz : 0 <= sz <= TRAPFRAME)
    (Htop : forall w, UTOP <= w \/ w < 0 -> pt_map T !! w = None) :
  exists s' l', uvmfree (pt_root T) sz s = Ok tt s' /\ kmem_inv s' l' /\ can_alloc s' /\
    (forall p, p ∈ l' <-> p ∈ tables T \/ p ∈ upages (npages sz) T \/ p ∈ l).
Proof.
  destruct (uvmfree_run s T l sz Hu Hca Hsz Htop) as (s' & l' & Hrun & Hk & Hc & Hp & _).
  exists s', l'. do 3 (split; [done |]). intros p. rewrite Hp. unfold pool.
  by rewrite elem_of_union, elem_of_list_to_set, elem_of_app.
Qed.

Lemma uvmfree_correct_witness : exists s T s' l', uvmfree (pt_root T) 5000 s = Ok tt s' /\ kmem_inv s' l'.
Proof.
  destruct example_space as (s & T & l & Hu & Hca & _ & Htop & _).
  destruct (uvmfree_correct s T l 5000 Hu Hca) as (s' & l' & Hrun & Hk & _).
  - by vm_compute.
  - exact Htop.
  - exists s, T, s', l'. split; [exact Hrun | exact Hk].
Defined.

(** C15: [uvmcopy] of a parent address space of [sz] bytes into an empty child
    that shares no page with it. It never panics. On success the child has its
    own pages with the same contents and permissions; on failure (-1, only when
    fewer than three free pages per page are left) the child is empty again and
    every page that was allocated for it is free again or one of its page-table
    pages. In both cases the child keeps its root, no page is lost (the child's
    page-table and user pages and the free pages together are what they were),
    nothing outside those pages is written, and the parent's memory is unchanged. *)
Theorem uvmcopy_correct `{HIO : ImageOk} (s : mach) (T T0 : pt) (l : list Z) (sz : Z)
    (Hp : uvm_inv s T l (npages sz)) (Hc : uvm_inv s T0 l 0) (Hd : own T (npages sz) ## own T0 0)
    (Hca : can_alloc s) (Hsz : 0 <= sz <= TRAPFRAME) :
  let n := npages sz in
  exists r s' T' l', uvmcopy (pt_root T) (pt_root T0) sz s = Ok r s' /\ can_alloc s' /\ uvm_inv s' T l' n /\
    pt_root T' = pt_root T0 /\
    (forall va, 0 <= va < Z.of_nat n * PGSIZE -> uread s' T va = uread s T va) /\
    (r = 0 /\ uvm_inv s' T' l' n /\ uvm_rel 0 s T0 l 0 s' T' l' n /\ own T n ## own T' n /\
       (forall va, 0 <= va < Z.of_nat n * PGSIZE -> uread s' T' va = uread s T va) /\
       (forall w, 0 <= w < Z.of_nat n -> exists pa pa' fl,
          pt_map T !! w = Some (pa, fl) /\ pt_map T' !! w = Some (pa', fl)) \/
     r = -1 /\ uvm_inv s' T' l' 0 /\ uvm_rel 0 s T0 l 0 s' T' l' 0 /\
       (tables T' : gset Z) ∪ list_to_set l' = tables T0 ∪ list_to_set l /\ (length l <= 3 * n)%nat).
Proof.
  destruct (uvmcopy_run s T T0 l sz Hp Hc Hd Hca Hsz) as (r & s' & T' & l' & Hrun & Hc' & Hp' & Hrd & Hr).
  exists r, s', T', l'. do 3 (split; [done |]).
  destruct Hr as [(-> & Hu & Hrel & Ho & [Hq1 Hq2]) | (-> & Hu & Hrel & Hl)];
    (split; [apply Hrel |]; split; [done |]); [left; by split_and! | right].
  split_and!; try done. exact (ur_pool _ _ _ _ _ _ _ _ _ Hrel).
Qed.

Lemma uvmcopy_correct_witness : exists s T T0 s', uvmcopy (pt_root T) (pt_root T0) 5000 s = Ok 0 s'.
Proof.
  destruct example_two_spaces as (s & T & T0 & l & Hp & Hc & Hd & Hca & Hl).
  destruct (uvmcopy_correct s T T0 l 5000 Hp Hc Hd Hca) as (r & s' & T' & l' & Hrun & _ & _ & _ & _ & Hr).
  - by vm_compute.
  - destruct Hr as [(-> & _) | (_ & _ & _ & _ & Hle)].
    + exists s, T, T0, s'. exact Hrun.
    + change (npages 5000) with 2%nat in Hle. lia.
Defined.

(** ** Kernel and user memory *)

Lemma copy_fuel_ok va len : 0 <= len -> (va mod PGSIZE + len + PGSIZE - 1) / PGSIZE < Z.of_nat (copy_fuel len).
Proof. intros. unfold copy_fuel. kzlia. Qed.

(** C19: [copyout] of [len] bytes to any 64-bit address. It terminates, and
    stores exactly the first [k] bytes of the buffer at [dstva], nothing else:
    [k = len] and 0 is returned when the whole range is mapped writable by the
    user, and otherwise -1 is returned and [dstva + k] is the first address that is
    not. Only the process's own pages are written. *)
Theorem copyout_correct `{HIO : ImageOk} (s : mach) (T : pt) (l : list Z) (n : nat) (dstva len : Z) (src : list Z)
    (Hu : uvm_inv s T l n) (Ht : top_ok T) (Hd : 0 <= dstva < 2^64)
    (Hl : 0 <= len <= Z.of_nat (length src)) (Hb : Forall is_byte src) :
  exists r s' k, copyout (pt_root T) dstva src len s = Ok r s' /\ 0 <= k <= len /\
    uvm_inv s' T l n /\ s' = set_mem (m_mem s') s /\
    agree (outside (list_to_set (upages n T))) (m_mem s) (m_mem s') /\
    (forall va, 0 <= va < Z.of_nat n * PGSIZE -> uread s' T va =
       if decide (dstva <= va < dstva + k) then src !! Z.to_nat (va - dstva) else uread s T va) /\
    (forall va, dstva <= va < dstva + k -> writable T va = true) /\
    (r = 0 /\ k = len \/ r = -1 /\ k < len /\ writable T (dstva + k) = false).
Proof.
  destruct (copyout_loop_run T l n Ht (copy_fuel len) s dstva src len Hu Hd Hl Hb) as (r & s' & k & Hrun & Hp).
  - apply copy_fuel_ok. lia.
  - exists r, s', k. split; [exact Hrun |]. by destruct Hp.
Qed.

Lemma copyout_correct_witness : exists s T s' T' l, uvm_inv s T l 2 /\
  copyout (pt_root T) 4094 [1; 2; 3; 4] 4 s = Ok 0 s' /\ T' = T /\ uread s' T' 4096 = Some 3.
Proof.
  destruct example_space as (s & T & l & Hu & Hca & Ht & _ & Hw & _).
  destruct (copyout_correct s T l 2 4094 4 [1; 2; 3; 4] Hu Ht) as (r & s' & k & Hrun & Hk & _ & _ & _ & Hst & _ & Hr).
  - lia.
  - simpl. lia.
  - repeat constructor; lia.
  - destruct Hr as [(-> & ->) | (_ & Hlt & Hno)].
    + exists s, T, s', T, l. split; [exact Hu |]. split; [exact Hrun |]. split; [reflexivity |]. rewrite Hst; [reflexivity | klia].
    + rewrite Hw in Hno; [discriminate | lia].
Defined.

(** C20: Round trip: what [copyout] stores, [copyin] reads back. Bytes copied out
    to a writable user range are returned unchanged by [copyin] from that range;
    and a range containing an address the user may not access makes [copyin]
    return -1. *)
Theorem copyout_copyin `{HIO : ImageOk} (s : mach) (T : pt) (l : list Z) (n : nat) (va : Z) (src : list Z)
    (Hu : uvm_inv s T l n) (Ht : top_ok T) (Hd : 0 <= va < 2^64) (Hb : Forall is_byte src) :
  let len := Z.of_nat (length src) in
  ((forall a, va <= a < va + len -> writable T a = true) ->
     exists s', copyout (pt_root T) va src len s = Ok 0 s' /\ copyin (pt_root T) va len s' = Ok (0, src) s') /\
  ((exists a, va <= a < va + len /\ readable T a = false) ->
     exists dst, copyin (pt_root T) va len s = Ok (-1, dst) s).
Proof.
  intros len. split.
  - intros Hw. destruct (copyout_loop_run T l n Ht (copy_fuel len) s va src len Hu Hd) as
      (r & s' & k & Hrun & [Hk Hu' _ _ Hst _ Hr]); [lia | done | apply copy_fuel_ok; lia |].
    destruct Hr as [(-> & ->) | (_ & Hlt & Hno)]; [| rewrite Hw in Hno by lia; done].
    exists s'. split; [exact Hrun |].
    destruct (copyin_loop_run s' T l n Hu' Ht (copy_fuel len) va len []) as (r & k & Hin & Hk' & _ & Hr);
      [done | lia | apply copy_fuel_ok; lia |].
    destruct Hr as [(-> & ->) | (_ & Hlt & Hno)].
    2: { specialize (Hw (va + k) ltac:(lia)). unfold writable in Hw. by rewrite Hno in Hw. }
    unfold copyin. rewrite Hin. do 2 f_equal. simpl. apply list_eq. intros i.
    destruct (decide (i < length src)%nat) as [Hi | Hi].
    + unfold len. rewrite Nat2Z.id, lookup_ureads by done.
      specialize (Hw (va + Z.of_nat i) ltac:(lia)). apply andb_true_iff in Hw as [Hw _].
      assert (Hge : 0 <= va + Z.of_nat i) by lia.
      destruct (readable_page _ _ _ _ _ Hu' Ht Hge Hw) as (_ & Hp & _).
      rewrite Hst by kzlia. rewrite decide_True by lia.
      replace (Z.to_nat (va + Z.of_nat i - va)) with i by lia.
      destruct (lookup_lt_is_Some_2 src i Hi) as [b ->]. done.
    + rewrite !lookup_ge_None_2; [done | lia |]. rewrite length_ureads. lia.
  - intros (a & Ha & Hna). destruct (copyin_loop_run s T l n Hu Ht (copy_fuel len) va len []) as
      (r & k & Hin & Hk & Hok & Hr); [done | lia | apply copy_fuel_ok; lia |].
    destruct Hr as [(-> & ->) | (-> & _)]; [rewrite Hok in Hna by lia; done |]. eexists. exact Hin.
Qed.

Lemma copyout_copyin_witness : exists s T s',
  copyout (pt_root T) 4090 [104; 101; 108; 108; 111; 33; 0; 7] 8 s = Ok 0 s' /\
  copyin (pt_root T) 4090 8 s' = Ok (0, [104; 101; 108; 108; 111; 33; 0; 7]) s'.
Proof.
  destruct example_space as (s & T & l & Hu & _ & Ht & _ & Hw & _).
  destruct (copyout_copyin s T l 2 4090 [104; 101; 108; 108; 111; 33; 0; 7] Hu Ht) as [H _].
  - lia.
  - repeat constructor; lia.
  - destruct H as (s' & H1 & H2).
    + intros a Ha. apply Hw. simpl in Ha. lia.
    + exists s, T, s'. split; [exact H1 | exact H2].
Defined.

(** C21: [copyinstr] of a string of at most [max] bytes. It terminates and leaves
    memory alone; it returns 0 and the string with its NUL when the user range
    holds one of length less than [max], and otherwise -1, having met either
    [max] nonzero bytes or an address the user may not read. *)
Theorem copyinstr_correct `{HIO : ImageOk} (s : mach) (T : pt) (l : list Z) (n : nat) (srcva max : Z)
    (Hu : uvm_inv s T l n) (Ht : top_ok T) (Hs : 0 <= srcva < 2^64) (Hm : 0 <= max) :
  exists r out k, copyinstr (pt_root T) srcva max s = Ok (r, out) s /\ Z.of_nat k <= max /\
    (forall va, srcva <= va < srcva + Z.of_nat k -> readable T va = true) /\
    Forall (fun b => b <> 0) (ureads s T srcva k) /\
    (r = 0 /\ out = ureads s T srcva k ++ [0] /\ Z.of_nat k < max /\
       readable T (srcva + Z.of_nat k) = true /\ uread s T (srcva + Z.of_nat k) = Some 0 \/
     r = -1 /\ out = ureads s T srcva k /\ (Z.of_nat k = max \/ readable T (srcva + Z.of_nat k) = false)).
Proof.
  destruct (copyinstr_loop_run s T l n Hu Ht (copy_fuel max) srcva max []) as (r & out & k & Hrun & Hp);
    [done | lia | apply copy_fuel_ok; lia |].
  exists r, out, k. split; [exact Hrun | exact Hp].
Qed.

Lemma copyinstr_correct_witness : exists s T, copyinstr (pt_root T) 100 16 s = Ok (0, [0]) s.
Proof.
  destruct example_space as (s & T & l & Hu & _ & Ht & _ & Hw & Hz & _).
  destruct (copyinstr_correct s T l 2 100 16 Hu Ht) as (r & out & k & Hrun & Hk & _ & Hnz & Hr).
  - lia.
  - lia.
  - assert (Hk0 : k = O).
    { destruct k as [| k]; [reflexivity |]. exfalso. rewrite Forall_forall in Hnz.
      apply (Hnz 0); [| reflexivity]. apply list_elem_of_lookup. exists O.
      rewrite lookup_ureads by lia. rewrite Hz by lia. reflexivity. }
    subst k. destruct Hr as [(-> & -> & _) | (_ & _ & [Hx | Hx])].
    + exists s, T. exact Hrun.
    + simpl in Hx. lia.
    + specialize (Hw 100 ltac:(lia)). unfold writable in Hw.
      replace (100 + Z.of_nat 0) with 100 in Hx by lia. rewrite Hx in Hw. discriminate.
Defined.
