(* ===== verification/Proc.v ===== *)
(** * kernel/proc.c: processes, scheduling, sleep and wakeup (definitions)

    The process table and the part of proc.c that needs no files: allocation of
    processes and pids, address spaces, [sched]/[yield]/[sleep]/[wakeup], the
    scheduler, [kill], [wait]. The state is the machine of [Kalloc] and [Vm]
    together with the table; a process is named by its index in [proc]. A
    [swtch] ends the run with the outcome [Swtch]. *)

From S2P Require Import Prelude Riscv Mem StringLib Spinlock Kalloc Vm.

(** ** kernel/proc.h *)

Inductive procstate := UNUSED | USED | SLEEPING | RUNNABLE | RUNNING | ZOMBIE.
#[global] Instance procstate_eq_dec : EqDecision procstate.
Proof. solve_decision. Defined.

(** What a [void *chan] can point to. *)
Inductive chan :=
| ChNone | ChProc (i : nat) | ChTicks | ChSleep (l : lockid) | ChLog | ChConsR | ChUartTx
| ChDiskFree | ChBuf (i : nat) | ChPipeR (pa : Z) | ChPipeW (pa : Z).
#[global] Instance chan_eq_dec : EqDecision chan.
Proof. solve_decision. Defined.

(** Saved registers for kernel context switches; [ctx_s] are s0 .. s11. *)
Record context := mkContext { ctx_ra : Z; ctx_sp : Z; ctx_s : list Z }.
Definition context0 : context := mkContext 0 0 (replicate 12 0).

Record proc := mkProc {
  p_state : procstate; p_chan : chan; p_killed : Z; p_xstate : Z; p_pid : Z;
  p_parent : option nat;
  p_kstack : Z; p_sz : Z; p_pagetable : Z; p_trapframe : Z; p_context : context;
  p_ofile : list (option nat); p_cwd : option nat; p_name : list Z }.

Definition proc0 : proc :=
  mkProc UNUSED ChNone 0 0 0 None 0 0 0 0 context0 (replicate NOFILE None) None (replicate 16 0).

(** Offsets of the fields of [struct trapframe]. *)
Definition TF_kernel_satp : Z := 0.
Definition TF_kernel_sp : Z := 8.
Definition TF_kernel_trap : Z := 16.
Definition TF_epc : Z := 24.
Definition TF_kernel_hartid : Z := 32.
Definition TF_sp : Z := 48.
Definition TF_a (n : Z) : Z := 112 + 8 * n.

(** The size of [struct trapframe]. *)
Definition TF_size : Z := 288.

Definition set_state (x : procstate) (p : proc) : proc :=
  mkProc x (p_chan p) (p_killed p) (p_xstate p) (p_pid p) (p_parent p) (p_kstack p) (p_sz p)
    (p_pagetable p) (p_trapframe p) (p_context p) (p_ofile p) (p_cwd p) (p_name p).
Definition set_chan (x : chan) (p : proc) : proc :=
  mkProc (p_state p) x (p_killed p) (p_xstate p) (p_pid p) (p_parent p) (p_kstack p) (p_sz p)
    (p_pagetable p) (p_trapframe p) (p_context p) (p_ofile p) (p_cwd p) (p_name p).
Definition set_killed (x : Z) (p : proc) : proc :=
  mkProc (p_state p) (p_chan p) x (p_xstate p) (p_pid p) (p_parent p) (p_kstack p) (p_sz p)
    (p_pagetable p) (p_trapframe p) (p_context p) (p_ofile p) (p_cwd p) (p_name p).
Definition set_xstate (x : Z) (p : proc) : proc :=
  mkProc (p_state p) (p_chan p) (p_killed p) x (p_pid p) (p_parent p) (p_kstack p) (p_sz p)
    (p_pagetable p) (p_trapframe p) (p_context p) (p_ofile p) (p_cwd p) (p_name p).
Definition set_pid (x : Z) (p : proc) : proc :=
  mkProc (p_state p) (p_chan p) (p_killed p) (p_xstate p) x (p_parent p) (p_kstack p) (p_sz p)
    (p_pagetable p) (p_trapframe p) (p_context p) (p_ofile p) (p_cwd p) (p_name p).
Definition set_parent (x : option nat) (p : proc) : proc :=
  mkProc (p_state p) (p_chan p) (p_killed p) (p_xstate p) (p_pid p) x (p_kstack p) (p_sz p)
    (p_pagetable p) (p_trapframe p) (p_context p) (p_ofile p) (p_cwd p) (p_name p).
Definition set_kstack (x : Z) (p : proc) : proc :=
  mkProc (p_state p) (p_chan p) (p_killed p) (p_xstate p) (p_pid p) (p_parent p) x (p_sz p)
    (p_pagetable p) (p_trapframe p) (p_context p) (p_ofile p) (p_cwd p) (p_name p).
Definition set_sz (x : Z) (p : proc) : proc :=
  mkProc (p_state p) (p_chan p) (p_killed p) (p_xstate p) (p_pid p) (p_parent p) (p_kstack p) x
    (p_pagetable p) (p_trapframe p) (p_context p) (p_ofile p) (p_cwd p) (p_name p).
Definition set_pagetable (x : Z) (p : proc) : proc :=
  mkProc (p_state p) (p_chan p) (p_killed p) (p_xstate p) (p_pid p) (p_parent p) (p_kstack p) (p_sz p)
    x (p_trapframe p) (p_context p) (p_ofile p) (p_cwd p) (p_name p).
Definition set_trapframe (x : Z) (p : proc) : proc :=
  mkProc (p_state p) (p_chan p) (p_killed p) (p_xstate p) (p_pid p) (p_parent p) (p_kstack p) (p_sz p)
    (p_pagetable p) x (p_context p) (p_ofile p) (p_cwd p) (p_name p).
Definition set_context (x : context) (p : proc) : proc :=
  mkProc (p_state p) (p_chan p) (p_killed p) (p_xstate p) (p_pid p) (p_parent p) (p_kstack p) (p_sz p)
    (p_pagetable p) (p_trapframe p) x (p_ofile p) (p_cwd p) (p_name p).
Definition set_ofile (x : list (option nat)) (p : proc) : proc :=
  mkProc (p_state p) (p_chan p) (p_killed p) (p_xstate p) (p_pid p) (p_parent p) (p_kstack p) (p_sz p)
    (p_pagetable p) (p_trapframe p) (p_context p) x (p_cwd p) (p_name p).
Definition set_cwd (x : option nat) (p : proc) : proc :=
  mkProc (p_state p) (p_chan p) (p_killed p) (p_xstate p) (p_pid p) (p_parent p) (p_kstack p) (p_sz p)
    (p_pagetable p) (p_trapframe p) (p_context p) (p_ofile p) x (p_name p).
Definition set_name (x : list Z) (p : proc) : proc :=
  mkProc (p_state p) (p_chan p) (p_killed p) (p_xstate p) (p_pid p) (p_parent p) (p_kstack p) (p_sz p)
    (p_pagetable p) (p_trapframe p) (p_context p) (p_ofile p) (p_cwd p) x.

(** ** State *)

Record kst := mkKst {
  k_mach : mach;
  k_procs : list proc;
  k_nextpid : Z;
  k_initproc : option nat;
  k_ticks : Z }.

Definition set_kmach (x : mach) (s : kst) : kst :=
  mkKst x (k_procs s) (k_nextpid s) (k_initproc s) (k_ticks s).
Definition set_kprocs (x : list proc) (s : kst) : kst :=
  mkKst (k_mach s) x (k_nextpid s) (k_initproc s) (k_ticks s).
Definition set_nextpid (x : Z) (s : kst) : kst :=
  mkKst (k_mach s) (k_procs s) x (k_initproc s) (k_ticks s).
Definition set_initproc (x : option nat) (s : kst) : kst :=
  mkKst (k_mach s) (k_procs s) (k_nextpid s) x (k_ticks s).
Definition set_ticks (x : Z) (s : kst) : kst :=
  mkKst (k_mach s) (k_procs s) (k_nextpid s) (k_initproc s) x.
Arguments set_kmach x s /.
Arguments set_kprocs x s /.
Arguments set_nextpid x s /.
Arguments set_initproc x s /.
Arguments set_ticks x s /.

Definition Lmach : lens kst mach := Lens k_mach set_kmach.
#[global] Instance Lmach_laws : LensLaws Lmach.
Proof. split; intros; simpl; try done. by destruct s. Qed.

Definition Lkhw : lens kst hw := lcomp Lmach Lhw.

(** [acquire]/[release] of a lock, at this layer. *)
Definition acq (lk : lockid) : M kst unit := zoom Lkhw (acquire lk).
Definition rel (lk : lockid) : M kst unit := zoom Lkhw (release lk).

Definition proc_at (s : kst) (i : nat) : proc := default proc0 (k_procs s !! i).
Definition getp (i : nat) : M kst proc := gets (fun s => proc_at s i).
Definition updp (i : nat) (f : proc -> proc) : M kst unit :=
  modify (fun s => set_kprocs (<[i := f (proc_at s i)]> (k_procs s)) s).
Arguments getp i s /.
Arguments updp i f s /.

(** A null [struct proc *] is dereferenced: the hart faults. *)
Definition null_proc {A} : M kst A := panic "null proc".

(** ** myproc, pids *)

Definition myproc_hw : M hw (option nat) :=
  push_off ;;;
  let* c := mycpu in
  let* p := gets (fun h => cpu_proc (cpu_at h c)) in
  pop_off ;;;
  ret p.

Definition myproc : M kst (option nat) := zoom Lkhw myproc_hw.

Definition allocpid : M kst Z :=
  acq PidLock ;;;
  let* pid := gets k_nextpid in
  modify (fun s => set_nextpid (i32 (k_nextpid s + 1)) s) ;;;
  rel PidLock ;;;
  ret pid.

Fixpoint procinit_loop (n i : nat) : M kst unit :=
  match n with
  | O => ret tt
  | S n =>
      zoom Lkhw (initlock (ProcLock i) "proc") ;;;
      updp i (set_state UNUSED) ;;;
      updp i (set_kstack (KSTACK (Z.of_nat i))) ;;;
      procinit_loop n (S i)
  end.

Definition procinit : M kst unit :=
  zoom Lkhw (initlock PidLock "nextpid") ;;;
  zoom Lkhw (initlock WaitLock "wait_lock") ;;;
  procinit_loop NPROC 0.

(** ** Address spaces of processes *)

(** Addresses of kernel code that the C code stores in registers or memory. *)
Class KText := {
  forkret_pc : Z; usertrap_pc : Z; kernelvec_pc : Z;
  uservec_off : Z; userret_off : Z   (** offsets within the trampoline page *) }.

Section Proc.
Context `{HI : Image} `{HT : KText}.

Definition proc_pagetable (trapframe : Z) : M mach Z :=
  let* pagetable := uvmcreate in
  if pagetable =? 0 then ret 0 else
  let* r := mappages pagetable TRAMPOLINE PGSIZE trampoline (Z.lor PTE_R PTE_X) in
  if r <? 0 then uvmfree pagetable 0 ;;; ret 0 else
  let* r := mappages pagetable TRAPFRAME PGSIZE trapframe (Z.lor PTE_R PTE_W) in
  if r <? 0 then
    uvmunmap pagetable TRAMPOLINE 1 false ;;;
    uvmfree pagetable 0 ;;;
    ret 0
  else ret pagetable.

Definition proc_freepagetable (pagetable sz : Z) : M mach unit :=
  uvmunmap pagetable TRAMPOLINE 1 false ;;;
  uvmunmap pagetable TRAPFRAME 1 false ;;;
  uvmfree pagetable sz.

(** ** Allocation *)

Definition freeproc (i : nat) : M kst unit :=
  let* p := getp i in
  when (truthy (p_trapframe p)) (zoom Lmach (kfree (p_trapframe p))) ;;;
  updp i (set_trapframe 0) ;;;
  when (truthy (p_pagetable p)) (zoom Lmach (proc_freepagetable (p_pagetable p) (p_sz p))) ;;;
  updp i (set_pagetable 0) ;;;
  updp i (set_sz 0) ;;;
  updp i (set_pid 0) ;;;
  updp i (set_parent None) ;;;
  updp i (fun p => set_name (<[0%nat := 0]> (p_name p)) p) ;;;
  updp i (set_chan ChNone) ;;;
  updp i (set_killed 0) ;;;
  updp i (set_xstate 0) ;;;
  updp i (set_state UNUSED).

(** After [found:], with [p->lock] held. *)
Definition allocproc_found (i : nat) : M kst (option nat) :=
  let* pid := allocpid in
  updp i (set_pid pid) ;;;
  updp i (set_state USED) ;;;
  let* tf := zoom Lmach kalloc in
  updp i (set_trapframe tf) ;;;
  if tf =? 0 then freeproc i ;;; rel (ProcLock i) ;;; ret None else
  let* pt := zoom Lmach (proc_pagetable tf) in
  updp i (set_pagetable pt) ;;;
  if pt =? 0 then freeproc i ;;; rel (ProcLock i) ;;; ret None else
  updp i (fun p => set_context (mkContext forkret_pc (u64 (p_kstack p + PGSIZE)) (replicate 12 0)) p) ;;;
  ret (Some i).

Fixpoint allocproc_loop (n i : nat) : M kst (option nat) :=
  match n with
  | O => ret None
  | S n =>
      acq (ProcLock i) ;;;
      let* p := getp i in
      if bool_decide (p_state p = UNUSED) then allocproc_found i
      else rel (ProcLock i) ;;; allocproc_loop n (S i)
  end.

Definition allocproc : M kst (option nat) := allocproc_loop NPROC 0.

(** [n] is an int. *)
Definition growproc (n : Z) : M kst Z :=
  let* me := myproc in
  match me with
  | None => null_proc
  | Some i =>
      let* p := getp i in
      let sz := p_sz p in
      if 0 <? n then
        let* sz := zoom Lmach (uvmalloc (p_pagetable p) sz (u64 (sz + n)) PTE_W) in
        if sz =? 0 then ret (-1) else
        updp i (set_sz sz) ;;; ret 0
      else if n <? 0 then
        let* sz := zoom Lmach (uvmdealloc (p_pagetable p) sz (u64 (sz + n))) in
        updp i (set_sz sz) ;;; ret 0
      else updp i (set_sz sz) ;;; ret 0
  end.

(** ** Scheduling *)

(** [swtch] saves the thread's registers in its context; the model keeps the
    thread itself as the continuation. *)
Definition sched : M kst unit :=
  let* me := myproc in
  match me with
  | None => null_proc
  | Some i =>
      let* h := zoom Lkhw (holding (ProcLock i)) in
      if negb h then panic "sched p->lock" else
      let* c := gets (fun s => my (m_hw (k_mach s))) in
      if negb (cpu_noff c =? 1) then panic "sched locks" else
      let* p := getp i in
      if bool_decide (p_state p = RUNNING) then panic "sched running" else
      let* en := zoom Lkhw intr_get in
      if truthy en then panic "sched interruptible" else
      let intena := cpu_intena c in
      swtch ;;;
      zoom Lkhw (let* c := mycpu in upd_cpu c (set_intena intena))
  end.

Definition yield : M kst unit :=
  let* me := myproc in
  match me with
  | None => null_proc
  | Some i =>
      acq (ProcLock i) ;;;
      updp i (set_state RUNNABLE) ;;;
      sched ;;;
      rel (ProcLock i)
  end.

Definition sleep (ch : chan) (lk : lockid) : M kst unit :=
  let* me := myproc in
  match me with
  | None => null_proc
  | Some i =>
      acq (ProcLock i) ;;;
      rel lk ;;;
      updp i (set_chan ch) ;;;
      updp i (set_state SLEEPING) ;;;
      sched ;;;
      updp i (set_chan ChNone) ;;;
      rel (ProcLock i) ;;;
      acq lk
  end.

Fixpoint wakeup_loop (n i : nat) (ch : chan) : M kst unit :=
  match n with
  | O => ret tt
  | S n =>
      let* me := myproc in
      (if bool_decide (me = Some i) then ret tt else
       acq (ProcLock i) ;;;
       let* p := getp i in
       when (bool_decide (p_state p = SLEEPING) && bool_decide (p_chan p = ch))
         (updp i (set_state RUNNABLE)) ;;;
       rel (ProcLock i)) ;;;
      wakeup_loop n (S i) ch
  end.

Definition wakeup (ch : chan) : M kst unit := wakeup_loop NPROC 0 ch.

(** One pass of the scheduler's [for(;;)] over the table; returns [found]. *)
Fixpoint scheduler_scan (n i : nat) (c : nat) (found : bool) : M kst bool :=
  match n with
  | O => ret found
  | S n =>
      acq (ProcLock i) ;;;
      let* p := getp i in
      let* f := (if bool_decide (p_state p = RUNNABLE) then
                   updp i (set_state RUNNING) ;;;
                   zoom Lkhw (upd_cpu c (set_cproc (Some i))) ;;;
                   swtch ;;;
                   zoom Lkhw (upd_cpu c (set_cproc None)) ;;;
                   ret true
                 else ret found) in
      rel (ProcLock i) ;;;
      scheduler_scan n (S i) c f
  end.

(** [rounds] iterations; [wfi] waits for an interrupt. *)
Fixpoint scheduler_loop (rounds : nat) (c : nat) : M kst unit :=
  match rounds with
  | O => fun _ => NoFuel
  | S rounds =>
      zoom Lkhw intr_on ;;;
      let* found := scheduler_scan NPROC 0 c false in
      when (negb found) (zoom Lkhw intr_on) ;;;
      scheduler_loop rounds c
  end.

Definition scheduler (rounds : nat) : M kst unit :=
  let* c := zoom Lkhw mycpu in
  zoom Lkhw (upd_cpu c (set_cproc None)) ;;;
  scheduler_loop rounds c.

(** ** kill *)

Fixpoint kill_loop (n i : nat) (pid : Z) : M kst Z :=
  match n with
  | O => ret (-1)
  | S n =>
      acq (ProcLock i) ;;;
      let* p := getp i in
      if p_pid p =? pid then
        updp i (set_killed 1) ;;;
        when (bool_decide (p_state p = SLEEPING)) (updp i (set_state RUNNABLE)) ;;;
        rel (ProcLock i) ;;;
        ret 0
      else rel (ProcLock i) ;;; kill_loop n (S i) pid
  end.

Definition kill (pid : Z) : M kst Z := kill_loop NPROC 0 pid.

Definition setkilled (i : nat) : M kst unit :=
  acq (ProcLock i) ;;; updp i (set_killed 1) ;;; rel (ProcLock i).

Definition killed (i : nat) : M kst Z :=
  acq (ProcLock i) ;;;
  let* p := getp i in
  rel (ProcLock i) ;;;
  ret (p_killed p).

(** ** reparent and wait *)

Fixpoint reparent_loop (n i : nat) (p : nat) : M kst unit :=
  match n with
  | O => ret tt
  | S n =>
      let* pp := getp i in
      when (bool_decide (p_parent pp = Some p))
        (let* ip := gets k_initproc in
         updp i (set_parent ip) ;;;
         match ip with Some ip => wakeup (ChProc ip) | None => wakeup ChNone end) ;;;
      reparent_loop n (S i) p
  end.

Definition reparent (p : nat) : M kst unit := reparent_loop NPROC 0 p.

(** The four bytes of an int. *)
Definition int_bytes (x : Z) : list Z :=
  [x mod 256; (x / 256) mod 256; (x / 65536) mod 256; (x / 16777216) mod 256].

(** The scan of [wait] over the table: [inl r] returns [r] from [wait];
    [inr havekids] falls out of the loop. *)
Fixpoint wait_scan (n i : nat) (p : nat) (addr : Z) (havekids : bool) : M kst (Z + bool) :=
  match n with
  | O => ret (inr havekids)
  | S n =>
      let* pp := getp i in
      if bool_decide (p_parent pp = Some p) then
        acq (ProcLock i) ;;;
        let* pp := getp i in
        if bool_decide (p_state pp = ZOMBIE) then
          let pid := p_pid pp in
          let* me := getp p in
          let* r := (if truthy addr
                     then zoom Lmach (copyout (p_pagetable me) addr (int_bytes (p_xstate pp)) 4)
                     else ret 0) in
          if r <? 0 then
            rel (ProcLock i) ;;; rel WaitLock ;;; ret (inl (-1))
          else
            freeproc i ;;; rel (ProcLock i) ;;; rel WaitLock ;;; ret (inl pid)
        else
          rel (ProcLock i) ;;; wait_scan n (S i) p addr true
      else wait_scan n (S i) p addr havekids
  end.

(** [fuel] bounds how often [wait] is woken without finding a zombie. *)
Fixpoint wait_loop (fuel : nat) (p : nat) (addr : Z) : M kst Z :=
  match fuel with
  | O => fun _ => NoFuel
  | S fuel =>
      let* r := wait_scan NPROC 0 p addr false in
      match r with
      | inl r => ret r
      | inr havekids =>
          let* k := (if havekids : bool then killed p else ret 1) in
          if truthy k then rel WaitLock ;;; ret (-1)
          else sleep (ChProc p) WaitLock ;;; wait_loop fuel p addr
      end
  end.

Definition wait (fuel : nat) (addr : Z) : M kst Z :=
  let* me := myproc in
  match me with
  | None => null_proc
  | Some p => acq WaitLock ;;; wait_loop fuel p addr
  end.

(** ** Copies to and from either address space *)

(** The source of an [either_copyin]: a user address or a kernel buffer. *)
Inductive esrc := USrc (va : Z) | KSrc (bs : list Z).

(** Returns the status and what was stored in a kernel destination. *)
Definition either_copyout (user_dst : bool) (dst : Z) (src : list Z) (len : Z) : M kst (Z * list Z) :=
  let* me := myproc in
  if user_dst then
    match me with
    | None => null_proc
    | Some i =>
        let* p := getp i in
        let* r := zoom Lmach (copyout (p_pagetable p) dst src len) in
        ret (r, [])
    end
  else ret (0, take (Z.to_nat len) src).

Definition either_copyin (src : esrc) (len : Z) : M kst (Z * list Z) :=
  let* me := myproc in
  match src with
  | USrc va =>
      match me with
      | None => null_proc
      | Some i =>
          let* p := getp i in
          zoom Lmach (copyin (p_pagetable p) va len)
      end
  | KSrc bs => ret (0, take (Z.to_nat len) bs)
  end.

End Proc.
