(* ===== verification/ProcSpec.v ===== *)
(** * Processes: what the functions of kernel/proc.c do

    Run lemmas for the functions of [Proc] on a machine whose locks are free,
    and the properties of the process table they maintain. *)

From S2P Require Import Prelude Riscv Mem StringLib Spinlock Kalloc Vm Proc.

(** ** Locking at the process layer *)

Definition khw (s : kst) : hw := m_hw (k_mach s).
Definition set_khw (h : hw) (s : kst) : kst := set_kmach (set_hw h (k_mach s)) s.
Arguments set_khw h s /.

(** The hart may take the lock of any process. *)
Definition procs_free (h : hw) : Prop := forall i, (i < NPROC)%nat -> lock_free h (ProcLock i).

Lemma zoom_hw {A} (m : M hw A) s a h : m (khw s) = Ok a h -> zoom Lkhw m s = Ok a (set_khw h s).
Proof. intros H. by apply (zoom_ok Lkhw). Qed.

Lemma acq_run k s lk : hw_ok (S k) (khw s) -> lock_free (khw s) lk ->
  acq lk s = Ok tt (set_khw (acquired lk (khw s)) s).
Proof. intros. apply zoom_hw. by eapply acquire_ok. Qed.

Lemma rel_run k s h lk : hw_ok (S k) h -> lock_free h lk -> khw s = acquired lk h ->
  rel lk s = Ok tt (set_khw (hw_cycle h) s).
Proof. intros ? ? E. apply zoom_hw. rewrite E. by eapply release_ok. Qed.

Lemma set_khw_khw h h' s : set_khw h (set_khw h' s) = set_khw h s.
Proof. done. Qed.

Lemma myproc_hw_ok k h : hw_ok (S k) h -> myproc_hw h = Ok (cpu_proc (my h)) (hw_cycle h).
Proof.
  intros Hok. unfold myproc_hw. rewrite (bind_ok _ _ _ _ _ (push_off_ok _ _ Hok)). simpl.
  assert (Hm : cpu_at (pushed h) (hw_tp h) = my (pushed h)) by done.
  rewrite Hm, (my_pushed _ _ Hok). simpl.
  pose proof (pop_off_pushed k h (hw_locks h) Hok) as Hp.
  replace (set_locks (hw_locks h) (pushed h)) with (pushed h) in Hp by done. rewrite Hp. done.
Qed.

Lemma myproc_run k s : hw_ok (S k) (khw s) ->
  myproc s = Ok (cpu_proc (my (khw s))) (set_khw (hw_cycle (khw s)) s).
Proof. intros. apply zoom_hw. by eapply myproc_hw_ok. Qed.

Lemma khw_set h s : khw (set_khw h s) = h.
Proof. done. Qed.

Lemma my_acquired k h lk : hw_ok (S k) h -> my (acquired lk h) =
  mkCpu (cpu_proc (my h)) (cpu_noff (my h) + 1) (saved_intena h).
Proof. intros H. apply (my_pushed _ _ H). Qed.

(** Side conditions on the hart of an explicit state. *)
Ltac khw_solve :=
  unfold khw in *; cbn [k_mach m_hw set_hw set_khw set_kmach set_kprocs]; eauto with kernel.

Lemma lock_free_cycle' h lk : lock_free h lk -> lock_free (hw_cycle h) lk.
Proof. done. Qed.
#[export] Hint Resolve lock_free_cycle' : kernel.

(** ** A critical section on one process

    Lock process [i], replace its entry, unlock. *)

Definition put_proc (i : nat) (p : proc) (s : kst) : kst := set_kprocs (<[i := p]> (k_procs s)) s.
Arguments put_proc i p s /.

(** The state after any number of balanced critical sections that changed only
    the table. *)
Definition cycled (ps : list proc) (s : kst) : kst :=
  set_kprocs ps (set_khw (hw_cycle (khw s)) s).

Lemma cycled_cycled k ps ps' s : hw_ok k (khw s) -> cycled ps (cycled ps' s) = cycled ps s.
Proof.
  intros H. unfold cycled. simpl. unfold khw in *. simpl. by rewrite (hw_cycle_idem _ _ H).
Qed.

Lemma khw_cycled ps s : khw (cycled ps s) = hw_cycle (khw s).
Proof. done. Qed.

Lemma procs_free_cycle h : procs_free h -> procs_free (hw_cycle h).
Proof. intros H i Hi. by apply lock_free_cycle, H. Qed.

Lemma my_proc_cycle k h : hw_ok k h -> cpu_proc (my (hw_cycle h)) = cpu_proc (my h).
Proof. intros H. by rewrite (my_cycle _ _ H). Qed.

#[export] Hint Resolve procs_free_cycle hw_ok_cycle : kernel.

(** ** wakeup *)

Definition woken (me : option nat) (ch : chan) (i : nat) (p : proc) : proc :=
  if bool_decide (me = Some i) then p
  else if bool_decide (p_state p = SLEEPING) && bool_decide (p_chan p = ch) then set_state RUNNABLE p
  else p.

Lemma proc_at_lookup s i p : k_procs s !! i = Some p -> proc_at s i = p.
Proof. intros H. unfold proc_at. by rewrite H. Qed.

Lemma updp_run i f s p : k_procs s !! i = Some p -> updp i f s = Ok tt (put_proc i (f p) s).
Proof. intros H. unfold updp, modify. by rewrite (proc_at_lookup _ _ _ H). Qed.

Lemma put_proc_lookup i p q s : k_procs s !! i = Some q -> k_procs (put_proc i p s) !! i = Some p.
Proof. intros H%lookup_lt_Some. by apply list_lookup_insert_eq. Qed.

Lemma put_put i p q s : put_proc i p (put_proc i q s) = put_proc i p s.
Proof. simpl. by rewrite list_insert_insert_eq. Qed.

Lemma wakeup_iter {A} k s i ch (rest : M kst A) : hw_ok (S k) (khw s) -> procs_free (khw s) -> (i < NPROC)%nat ->
  (i < length (k_procs s))%nat ->
  (let* me := myproc in
   (if bool_decide (me = Some i) then ret tt else
    acq (ProcLock i) ;;;
    let* p := getp i in
    when (bool_decide (p_state p = SLEEPING) && bool_decide (p_chan p = ch))
      (updp i (set_state RUNNABLE)) ;;;
    rel (ProcLock i)) ;;; rest) s =
  rest (cycled (<[i := woken (cpu_proc (my (khw s))) ch i (proc_at s i)]> (k_procs s)) s).
Proof.
  intros Hok Hpf Hi Hl. destruct (lookup_lt_is_Some_2 _ _ Hl) as [p Hp].
  pose proof (Hpf i Hi) as Hf. simpl. rewrite (myproc_run k) by done. simpl.
  rewrite (proc_at_lookup _ i p) by done. unfold woken. case_bool_decide as Hme; simpl.
  - unfold cycled. rewrite list_insert_id by done. by destruct s.
  - rewrite (acq_run k) by khw_solve. simpl. rewrite (proc_at_lookup _ i p) by done.
    destruct (_ && _); simpl; erewrite (rel_run k _ (hw_cycle (khw s))) by khw_solve; simpl;
      rewrite (hw_cycle_idem _ _ Hok); unfold cycled; simpl.
    + rewrite (proc_at_lookup _ i p) by done. done.
    + rewrite list_insert_id by done. done.
Qed.

(** Apply [f] to the entries [i .. i+n-1] of a list. *)
Definition imap_range {A} (n i : nat) (f : nat -> A -> A) (l : list A) : list A :=
  imap (fun j x => if decide (i <= j < i + n)%nat then f j x else x) l.

Lemma lookup_imap_range {A} n i (f : nat -> A -> A) l j :
  imap_range n i f l !! j = (if decide (i <= j < i + n)%nat then f j else id) <$> l !! j.
Proof. unfold imap_range. rewrite list_lookup_imap. destruct (l !! j); simpl; [| done]. by case_decide. Qed.

Lemma imap_range_0 {A} i (f : nat -> A -> A) l : imap_range 0 i f l = l.
Proof.
  apply list_eq. intros j. rewrite lookup_imap_range, decide_False by lia. by destruct (l !! j).
Qed.

Lemma imap_range_S {A} n i (f : nat -> A -> A) l x : l !! i = Some x ->
  imap_range n (S i) f (<[i := f i x]> l) = imap_range (S n) i f l.
Proof.
  intros Hx. pose proof (lookup_lt_Some _ _ _ Hx). apply list_eq. intros j. rewrite !lookup_imap_range.
  destruct (decide (i = j)) as [<- | Hne].
  - rewrite list_lookup_insert_eq by done. rewrite decide_False, decide_True by lia. by rewrite Hx.
  - rewrite list_lookup_insert_ne by done. do 2 case_decide; try lia; done.
Qed.

Lemma imap_range_full {A} (f : nat -> A -> A) l : imap_range (length l) 0 f l = imap f l.
Proof.
  apply list_eq. intros j. rewrite lookup_imap_range, list_lookup_imap.
  destruct (l !! j) eqn:E; simpl; [| done]. apply lookup_lt_Some in E. by rewrite decide_True by lia.
Qed.

Lemma wakeup_loop_run k ch : forall n i s, hw_ok (S k) (khw s) -> procs_free (khw s) ->
  (i + n <= NPROC)%nat -> length (k_procs s) = NPROC -> (0 < n)%nat ->
  wakeup_loop n i ch s =
    Ok tt (cycled (imap_range n i (woken (cpu_proc (my (khw s))) ch) (k_procs s)) s).
Proof.
  induction n as [| n IH]; intros i s Hok Hpf Hin Hlen Hn; [lia |].
  cbn [wakeup_loop]. rewrite (wakeup_iter k) by (done || lia).
  destruct (lookup_lt_is_Some_2 (k_procs s) i) as [p Hp]; [lia |]. rewrite (proc_at_lookup _ _ _ Hp).
  destruct n as [| n].
  - cbn [wakeup_loop]. unfold ret. do 2 f_equal. rewrite <- (imap_range_S 0 i _ _ p) by done. by rewrite imap_range_0.
  - rewrite IH; [| by apply hw_ok_cycle | by apply procs_free_cycle | lia | unfold cycled; simpl; by rewrite length_insert | lia].
    rewrite khw_cycled, (my_proc_cycle _ _ Hok), (cycled_cycled _ _ _ _ Hok).
    do 2 f_equal. unfold cycled. simpl. by rewrite imap_range_S.
Qed.

Lemma wakeup_run k s ch : hw_ok (S k) (khw s) -> procs_free (khw s) -> length (k_procs s) = NPROC ->
  wakeup ch s = Ok tt (cycled (imap (woken (cpu_proc (my (khw s))) ch) (k_procs s)) s).
Proof.
  intros Hok Hpf Hlen. unfold wakeup. rewrite (wakeup_loop_run k) by (done || unfold NPROC; lia).
  by rewrite <- Hlen, imap_range_full.
Qed.

(** ** kill *)

Definition kill_proc (p : proc) : proc :=
  let p := set_killed 1 p in
  if bool_decide (p_state p = SLEEPING) then set_state RUNNABLE p else p.

(** The first process with a pid, from [i] on. *)
Fixpoint find_pid (pid : Z) (i : nat) (ps : list proc) : option nat :=
  match ps with
  | [] => None
  | p :: ps => if p_pid p =? pid then Some i else find_pid pid (S i) ps
  end.

Lemma kill_loop_run k pid : forall n i s, hw_ok (S k) (khw s) -> procs_free (khw s) ->
  (i + n = NPROC)%nat -> length (k_procs s) = NPROC -> (0 < n)%nat ->
  kill_loop n i pid s =
    match find_pid pid i (drop i (k_procs s)) with
    | Some j => Ok 0 (cycled (<[j := kill_proc (proc_at s j)]> (k_procs s)) s)
    | None => Ok (-1) (cycled (k_procs s) s)
    end.
Proof.
  induction n as [| n IH]; intros i s Hok Hpf Hin Hlen Hn; [lia |].
  destruct (lookup_lt_is_Some_2 (k_procs s) i) as [p Hp]; [lia |].
  pose proof (Hpf i ltac:(lia)) as Hf. rewrite (drop_S _ _ _ Hp). cbn [kill_loop find_pid].
  simpl. rewrite (acq_run k) by done. simpl. rewrite (proc_at_lookup _ i p) by done.
  destruct (Z.eqb_spec (p_pid p) pid) as [Hpid | Hpid]; simpl.
  - rewrite (proc_at_lookup s i p) by done. rewrite (proc_at_lookup _ i p) by done.
    destruct (bool_decide (p_state p = SLEEPING)) eqn:Hs; simpl.
    + erewrite (rel_run k _ (khw s)) by khw_solve. simpl. unfold cycled, kill_proc. simpl. rewrite Hs.
      rewrite (proc_at_lookup _ i (set_killed 1 p)) by (simpl; apply list_lookup_insert_eq; lia).
      by rewrite list_insert_insert_eq.
    + erewrite (rel_run k _ (khw s)) by khw_solve. simpl. unfold cycled, kill_proc. simpl. by rewrite Hs.
  - erewrite (rel_run k _ (khw s)) by khw_solve. simpl. destruct n as [| n].
    + rewrite drop_ge by lia. simpl. done.
    + rewrite IH; [| khw_solve | khw_solve | lia | done | lia]. simpl.
      pose proof (hw_cycle_idem _ _ Hok) as Hid.
      destruct (find_pid pid (S i) (drop (S i) (k_procs s))) as [j |]; unfold cycled; simpl;
        unfold khw in *; simpl; by rewrite Hid.
Qed.

Lemma kill_run k s pid : hw_ok (S k) (khw s) -> procs_free (khw s) -> length (k_procs s) = NPROC ->
  kill pid s =
    match find_pid pid 0 (k_procs s) with
    | Some j => Ok 0 (cycled (<[j := kill_proc (proc_at s j)]> (k_procs s)) s)
    | None => Ok (-1) (cycled (k_procs s) s)
    end.
Proof.
  intros. unfold kill. rewrite (kill_loop_run k) by (done || unfold NPROC; lia). by rewrite drop_0.
Qed.

Lemma find_pid_spec pid ps : forall i,
  match find_pid pid i ps with
  | Some j => (i <= j < i + length ps)%nat /\ (exists p, ps !! (j - i)%nat = Some p /\ p_pid p = pid) /\
      (forall m q, (m < j - i)%nat -> ps !! m = Some q -> p_pid q <> pid)
  | None => forall m q, ps !! m = Some q -> p_pid q <> pid
  end.
Proof.
  induction ps as [| p ps IH]; intros i; cbn [find_pid]; [intros m q Hq; by rewrite lookup_nil in Hq |].
  destruct (Z.eqb_spec (p_pid p) pid) as [Hp | Hp].
  - split; [simpl; lia |]. rewrite Nat.sub_diag. split; [by exists p | intros; lia].
  - specialize (IH (S i)). destruct (find_pid pid (S i) ps) as [j |].
    + destruct IH as (Hj & (q & Hq & Hpq) & Hmin). split; [simpl; lia |].
      replace (j - i)%nat with (S (j - S i)) by lia. split; [by exists q |].
      intros [| m] q' Hm Hq'; simpl in Hq'; [congruence |]. apply (Hmin m); [lia | done].
    + intros [| m] q Hq; simpl in Hq; [congruence | by eapply IH].
Qed.

(** ** sched, yield, sleep *)

Lemma intr_get_khw s : zoom Lkhw intr_get s = Ok (b2z (intr_enabled (khw s))) s.
Proof. unfold zoom. simpl. by destruct s as [[] ? ? ? ?]. Qed.

Lemma holding_run s lk : zoom Lkhw (holding lk) s =
  Ok (truthy (sl_locked (lock_at (khw s) lk)) && bool_decide (sl_cpu (lock_at (khw s) lk) = Some (hw_tp (khw s)))) s.
Proof. unfold zoom. simpl. by destruct s as [[] ? ? ? ?]. Qed.

(** The hart runs process [i], holds only its lock, with interrupts off. *)
Record in_sched (i : nat) (h : hw) : Prop := {
  is_ok : hw_ok 2 h;
  is_proc : cpu_proc (my h) = Some i;
  is_lock : lock_mine h (ProcLock i);
  is_noff : cpu_noff (my h) = 1 }.

Definition resume_intena (x : Z) (s : kst) : kst :=
  set_khw (set_cpus (<[hw_tp (khw s) := set_intena x (my (khw s))]> (hw_cpus (khw s))) (khw s)) s.

(** [sched] hands the CPU over; when resumed it restores [intena]. *)
Lemma sched_run i s : in_sched i (khw s) -> p_state (proc_at s i) <> RUNNING ->
  exists k, sched s = Swtch s k /\
    forall s', k s' = Ok tt (resume_intena (cpu_intena (my (khw s))) s').
Proof.
  intros [Hok Hpr [name Hlk] Hn] Hst. unfold sched.
  assert (Hcyc : hw_cycle (khw s) = khw s) by (eapply hw_cycle_nested; [done | lia]).
  assert (Hs : set_khw (hw_cycle (khw s)) s = s) by (rewrite Hcyc; by destruct s as [[] ? ? ? ?]).
  rewrite (bind_ok _ _ _ _ _ (myproc_run 1 s Hok)), Hs, Hpr.
  rewrite (bind_ok _ _ _ _ _ (holding_run s (ProcLock i))).
  assert (Hla : lock_at (khw s) (ProcLock i) = mkSpinlock 1 name (Some (hw_tp (khw s)))).
  { unfold lock_at. by rewrite Hlk. }
  rewrite Hla. cbn [sl_locked sl_cpu truthy Z.eqb negb andb]. rewrite bool_decide_eq_true_2 by done.
  cbn [negb]. unfold bind at 1, gets. cbn [obind]. fold (khw s). rewrite Hn. cbn [Z.eqb Pos.eqb negb].
  unfold bind at 1, getp, gets. cbn [obind]. rewrite bool_decide_eq_false_2 by done.
  rewrite (bind_ok _ _ _ _ _ (intr_get_khw s)), (hwo_off _ _ Hok) by lia. cbn [b2z truthy Z.eqb negb].
  eexists. split; [done |]. intros s'. done.
Qed.

Lemma my_released k h lk : hw_ok k h -> my (released lk h) = set_noff (cpu_noff (my h) - 1) (my h).
Proof. intros H. apply cpu_at_insert, H. Qed.

Lemma lor_SIE_range x : 0 <= x < 2^64 -> 0 <= Z.lor x SSTATUS_SIE < 2^64.
Proof. intros Hx. apply lor_range; [lia | done | by vm_compute]. Qed.

(** Releasing the last lock. *)
Lemma hw_ok_released k h lk : hw_ok k h -> cpu_noff (my h) = 1 -> hw_ok (S k) (released lk h).
Proof.
  intros H Hn. pose proof (my_released _ _ lk H) as Hm. constructor.
  - simpl. rewrite length_insert. apply H.
  - unfold released, popped. cbn [hw_sstatus set_locks].
    destruct (_ && _); [apply lor_SIE_range |]; apply H.
  - rewrite Hm. simpl. lia.
  - rewrite Hm. pose proof (hwo_room _ _ H). simpl. lia.
  - rewrite Hm. simpl. lia.
Qed.

Lemma intr_enabled_released h lk : cpu_noff (my h) = 1 -> intr_enabled h = false ->
  intr_enabled (released lk h) = truthy (cpu_intena (my h)).
Proof.
  intros Hn Hi. rewrite intr_enabled_bit in *. unfold released, popped. cbn [hw_sstatus set_locks].
  rewrite Hn. cbn [Z.eqb Pos.eqb andb]. destruct (truthy (cpu_intena (my h))); [| done].
  rewrite Z.lor_spec, SIE_val, Z.pow2_bits_true by lia. apply orb_true_r.
Qed.

Lemma lock_free_released h lk lk' : (lk = lk' /\ lock_mine h lk) \/ (lk <> lk' /\ lock_free h lk') ->
  lock_free (released lk h) lk'.
Proof.
  intros [[<- [name Hl]] | [Hne [name Hl]]]; exists name || idtac; unfold released; cbn [hw_locks set_locks].
  - rewrite lookup_insert_eq. unfold lock_at. by rewrite Hl.
  - by rewrite lookup_insert_ne.
Qed.

Lemma in_sched_acquired i h : hw_ok 3 h -> cpu_noff (my h) = 0 -> cpu_proc (my h) = Some i ->
  in_sched i (acquired (ProcLock i) h).
Proof.
  intros Hok Hn Hp. pose proof (my_acquired _ _ (ProcLock i) Hok) as Hm. split.
  - by apply hw_ok_acquired.
  - by rewrite Hm.
  - eexists. cbn [acquired hw_locks set_locks]. apply lookup_insert_eq.
  - rewrite Hm. simpl. lia.
Qed.

(** What a thread finds when [sleep] or [yield] resumes: it holds only its own
    lock. After restoring [intena] and releasing it, the other lock can be taken. *)
Lemma in_sched_intena i x h : in_sched i h ->
  in_sched i (set_cpus (<[hw_tp h := set_intena x (my h)]> (hw_cpus h)) h) /\
  cpu_intena (my (set_cpus (<[hw_tp h := set_intena x (my h)]> (hw_cpus h)) h)) = x.
Proof.
  intros [Hok Hp Hl Hn].
  assert (Hm : my (set_cpus (<[hw_tp h := set_intena x (my h)]> (hw_cpus h)) h) = set_intena x (my h)).
  { apply cpu_at_insert, Hok. }
  split; [| by rewrite Hm]. split; [| by rewrite Hm | done | by rewrite Hm].
  destruct Hok as [H1 H2 H3 H4 H5]. constructor; rewrite ?Hm; try done. simpl. by rewrite length_insert.
Qed.

Lemma hw_ok_shallow k n h : hw_ok k h -> cpu_noff (my h) + Z.of_nat n < 2^31 -> hw_ok n h.
Proof. intros [] ?. by constructor. Qed.

(** What a thread that holds no lock finds after [acquire] of its own lock in the
    scheduler, [resume_intena] and [release]: all locks that were free still are. *)
Record awake (i : nat) (h0 : hw) (en : bool) (h : hw) : Prop := {
  aw_ok : hw_ok 8 h;
  aw_noff : cpu_noff (my h) = 0;
  aw_proc : cpu_proc (my h) = Some i;
  aw_intr : intr_enabled h = en;
  aw_free : forall lk, lk = ProcLock i \/ lock_free h0 lk -> lock_free h lk }.

Lemma awake_released i x h : in_sched i h ->
  awake i h (truthy x) (released (ProcLock i) (set_cpus (<[hw_tp h := set_intena x (my h)]> (hw_cpus h)) h)).
Proof.
  intros Hin. destruct (in_sched_intena i x _ Hin) as [[Hok Hp Hl Hn] Hx].
  set (h1 := set_cpus _ _) in *.
  pose proof (my_released _ _ (ProcLock i) Hok) as Hm. split.
  - eapply hw_ok_shallow; [by eapply hw_ok_released |]. rewrite Hm. simpl. lia.
  - rewrite Hm. simpl. lia.
  - by rewrite Hm.
  - rewrite intr_enabled_released; [by rewrite Hx | done |]. apply (hwo_off _ _ Hok). lia.
  - intros lk [-> | Hf]; apply lock_free_released; [by left |]. right. split; [| done].
    intros <-. destruct (is_lock _ _ Hin) as [n Hm'], Hf as [n' Hf]. congruence.
Qed.

(** [release] of its own lock by a resumed thread. *)
Lemma rel_resumed i x s : in_sched i (khw s) ->
  exists h1, rel (ProcLock i) (resume_intena x s) = Ok tt (set_khw h1 s) /\ awake i (khw s) (truthy x) h1.
Proof.
  intros Hin. eexists. split; [| by apply awake_released].
  destruct (in_sched_intena i x _ Hin) as [[Hok Hp Hl Hn] Hx].
  apply (zoom_hw _ (resume_intena x s)). apply release_held; [done | apply Hok | | ].
  - apply (hwo_off _ _ Hok). lia.
  - change (khw (resume_intena x s)) with
      (set_cpus (<[hw_tp (khw s) := set_intena x (my (khw s))]> (hw_cpus (khw s))) (khw s)). lia.
Qed.

Lemma sleep_tail i en lk s p : in_sched i (khw s) -> lock_free (khw s) lk -> k_procs s !! i = Some p ->
  exists h1, (updp i (set_chan ChNone) ;;; rel (ProcLock i) ;;; acq lk) (resume_intena (b2z en) s) =
      Ok tt (put_proc i (set_chan ChNone p) (set_khw (acquired lk h1) s)) /\
    awake i (khw s) en h1.
Proof.
  intros Hin Hl Hp. rewrite (bind_ok _ _ _ _ _ (updp_run i _ (resume_intena (b2z en) s) p Hp)).
  destruct (rel_resumed i (b2z en) (put_proc i (set_chan ChNone p) s) Hin) as (h1 & E & Ha).
  change (put_proc i (set_chan ChNone p) (resume_intena (b2z en) s)) with
    (resume_intena (b2z en) (put_proc i (set_chan ChNone p) s)).
  rewrite (bind_ok _ _ _ _ _ E). exists h1. split; [| by destruct en].
  rewrite (acq_run 7); [done | apply Ha | apply Ha; by right].
Qed.

(** [sleep ch lk] by a thread that holds only [lk]: it hands the CPU over asleep
    on [ch], its own lock taken and [lk] released; whenever it is resumed, holding
    its own lock only and with [lk] free, it returns with [lk] taken and the
    process off the channel. *)
Lemma sleep_run i ch lk s h p : khw s = acquired lk h -> hw_ok 4 h -> cpu_noff (my h) = 0 ->
  cpu_proc (my h) = Some i -> lock_free h lk -> lock_free h (ProcLock i) -> lk <> ProcLock i ->
  k_procs s !! i = Some p ->
  exists k, sleep ch lk s =
      Swtch (put_proc i (set_state SLEEPING (set_chan ch p)) (set_khw (acquired (ProcLock i) h) s)) k /\
    forall s2 p2, in_sched i (khw s2) -> lock_free (khw s2) lk -> k_procs s2 !! i = Some p2 ->
      exists h1, k s2 = Ok tt (put_proc i (set_chan ChNone p2) (set_khw (acquired lk h1) s2)) /\
        awake i (khw s2) (intr_enabled h) h1.
Proof.
  intros Hs Hok Hn Hp Hl Hpl Hne Hpi. unfold sleep.
  pose proof (my_acquired _ _ lk Hok) as Hm. pose proof (hw_ok_acquired _ _ lk Hok) as Hok1.
  assert (Hcyc : hw_cycle (acquired lk h) = acquired lk h) by (eapply hw_cycle_nested; [done | rewrite Hm; simpl; lia]).
  rewrite <- Hs in Hok1, Hcyc, Hm.
  rewrite (bind_ok _ _ _ _ _ (myproc_run _ s Hok1)), Hm, Hcyc. cbn [cpu_proc]. rewrite Hp.
  assert (Hpl1 : lock_free (khw s) (ProcLock i)) by (rewrite Hs; by apply lock_free_acquired).
  replace (set_khw (khw s) s) with s by (by destruct s as [[] ? ? ? ?]).
  rewrite (bind_ok _ _ _ _ _ (acq_run _ s _ Hok1 Hpl1)), Hs.
  assert (Hrel : rel lk (set_khw (acquired (ProcLock i) (acquired lk h)) s) = Ok tt (set_khw (acquired (ProcLock i) h) s)).
  { apply (zoom_hw _ (set_khw (acquired (ProcLock i) (acquired lk h)) s)).
    by apply (release_outer 2). }
  rewrite (bind_ok _ _ _ _ _ Hrel).
  set (s0 := set_khw (acquired (ProcLock i) h) s). assert (Hp0 : k_procs s0 !! i = Some p) by done.
  rewrite (bind_ok _ _ _ _ _ (updp_run _ _ _ _ Hp0)).
  pose proof (put_proc_lookup i (set_chan ch p) p s0 Hp0) as Hp1.
  rewrite (bind_ok _ _ _ _ _ (updp_run _ _ _ _ Hp1)), put_put.
  pose proof (put_proc_lookup i (set_state SLEEPING (set_chan ch p)) p s0 Hp0) as Hp2.
  destruct (sched_run i (put_proc i (set_state SLEEPING (set_chan ch p)) s0)) as (k & Hsw & Hk).
  { eapply in_sched_acquired; [eapply hw_ok_mono, Hok; lia | done | done]. }
  { by rewrite (proc_at_lookup _ _ _ Hp2). }
  unfold bind at 1. rewrite Hsw. cbn [obind]. eexists. split; [reflexivity |].
  intros s2 p2 Hin Hfree Hps2. cbn beta. rewrite Hk. cbn [obind].
  change (khw (put_proc i (set_state SLEEPING (set_chan ch p)) s0)) with (acquired (ProcLock i) h).
  rewrite (my_acquired _ _ _ Hok). cbn [cpu_intena]. unfold saved_intena. rewrite Hn. cbn [Z.eqb].
  by apply sleep_tail.
Qed.

(** [yield] hands the CPU over runnable; when resumed it returns with no lock held. *)
Lemma yield_run i s p : hw_ok 4 (khw s) -> cpu_noff (my (khw s)) = 0 -> cpu_proc (my (khw s)) = Some i ->
  lock_free (khw s) (ProcLock i) -> k_procs s !! i = Some p ->
  exists k, yield s =
      Swtch (put_proc i (set_state RUNNABLE p) (set_khw (acquired (ProcLock i) (hw_cycle (khw s))) s)) k /\
    forall s2, in_sched i (khw s2) ->
      exists h1, k s2 = Ok tt (set_khw h1 s2) /\ awake i (khw s2) (intr_enabled (khw s)) h1.
Proof.
  intros Hok Hn Hp Hl Hpi. unfold yield.
  rewrite (bind_ok _ _ _ _ _ (myproc_run _ s Hok)), Hp.
  pose proof (hw_ok_cycle _ _ Hok) as Hokc. pose proof (lock_free_cycle' _ _ Hl) as Hlc.
  set (s0 := set_khw (hw_cycle (khw s)) s).
  rewrite (bind_ok _ _ _ _ _ (acq_run 3 s0 _ Hokc Hlc)).
  set (s1 := set_khw (acquired (ProcLock i) (khw s0)) s0). assert (Hp0 : k_procs s1 !! i = Some p) by done.
  rewrite (bind_ok _ _ _ _ _ (updp_run _ _ _ _ Hp0)).
  pose proof (put_proc_lookup i (set_state RUNNABLE p) p s1 Hp0) as Hp2.
  destruct (sched_run i (put_proc i (set_state RUNNABLE p) s1)) as (k & Hsw & Hk).
  { eapply in_sched_acquired; [eapply hw_ok_mono, Hokc; lia | |];
      change (khw s0) with (hw_cycle (khw s)); rewrite (my_cycle _ _ Hok); done. }
  { by rewrite (proc_at_lookup _ _ _ Hp2). }
  unfold bind at 1. rewrite Hsw. cbn [obind]. eexists. split; [reflexivity |].
  intros s2 Hin. cbn beta. rewrite Hk. cbn [obind].
  change (khw (put_proc i (set_state RUNNABLE p) s1)) with (acquired (ProcLock i) (hw_cycle (khw s))).
  rewrite (my_acquired _ _ _ Hokc). cbn [cpu_intena]. unfold saved_intena.
  rewrite (my_cycle _ _ Hok). cbn [cpu_noff set_intena]. rewrite Hn. cbn [Z.eqb].
  destruct (rel_resumed i (b2z (intr_enabled (hw_cycle (khw s)))) s2 Hin) as (h1 & E & Ha).
  exists h1. split; [exact E |].
  change (intr_enabled (hw_cycle (khw s))) with (intr_enabled (khw s)) in Ha. by destruct (intr_enabled (khw s)).
Qed.
