(* ===== verification/Kctx.v ===== *)
(** * The kernel in the context of a process

    System-call code runs on behalf of a process, with no spin lock held. This
    file gives the shape of such states ([kctx]), of the states inside a critical
    section ([locked]), the change a balanced piece of kernel code may make to
    machine and process table ([kframe]), and the equations of locking, [wakeup]
    and [myproc] in these terms. The layers above (sleep locks, buffer cache,
    log, files) reason with these only. *)

From S2P Require Import Prelude Riscv Mem StringLib Spinlock Kalloc Vm Proc ProcSpec.

(** The spin locks that exist from boot on. *)
Definition static_lock (lk : lockid) : bool :=
  match lk with
  | ProcLock i => (i <? NPROC)%nat
  | BufLk i => (i <? NBUF)%nat
  | InodeLk i => (i <? NINODE)%nat
  | PipeLock _ => false
  | _ => true
  end.

(** Process [i] executes a system call and holds no spin lock. *)
Record kctx (i : nat) (k : kst) : Prop := {
  kc_hw : hw_ok 8 (khw k);
  kc_noff : cpu_noff (my (khw k)) = 0;
  kc_free : forall lk, static_lock lk = true -> lock_free (khw k) lk;
  kc_me : cpu_proc (my (khw k)) = Some i;
  kc_len : length (k_procs k) = NPROC;
  kc_i : (i < NPROC)%nat }.

Definition locked (lk : lockid) (k : kst) : kst := set_khw (acquired lk (khw k)) k.
Definition cyc (k : kst) : kst := set_khw (hw_cycle (khw k)) k.
Definition wake (i : nat) (ch : chan) (k : kst) : kst :=
  set_kprocs (imap (woken (Some i) ch) (k_procs k)) k.

(** A process is as before, or has been woken. *)
Definition pwoken (p p' : proc) : Prop :=
  p' = p \/ (p_state p = SLEEPING /\ p' = set_state RUNNABLE p).

Record kframe (k k' : kst) : Prop := {
  kf_hw : khw k' = khw k \/ khw k' = hw_cycle (khw k);
  kf_mach : k_mach k' = set_hw (khw k') (k_mach k);
  kf_procs : Forall2 pwoken (k_procs k) (k_procs k');
  kf_pid : k_nextpid k' = k_nextpid k;
  kf_init : k_initproc k' = k_initproc k;
  kf_ticks : k_ticks k' = k_ticks k }.

Lemma pwoken_refl p : pwoken p p.
Proof. by left. Qed.
#[export] Hint Resolve pwoken_refl : kernel.

Lemma pwoken_trans p q r : pwoken p q -> pwoken q r -> pwoken p r.
Proof.
  intros [-> | [Hp ->]] [-> | [Hq ->]]; [by left | by right | by right |]. simpl in Hq. congruence.
Qed.

Lemma kframe_refl k : kframe k k.
Proof.
  constructor; try done; [by left | by destruct k as [[] ? ? ? ?] |].
  apply Forall_Forall2_diag, Forall_true. intros. apply pwoken_refl.
Qed.

Lemma kframe_trans n k1 k2 k3 : hw_ok n (khw k1) -> kframe k1 k2 -> kframe k2 k3 -> kframe k1 k3.
Proof.
  intros Hok [H1 H2 H3 H4 H5 H6] [G1 G2 G3 G4 G5 G6]. constructor; try congruence.
  - destruct H1 as [H1 | H1]; rewrite H1 in G1; [done |]. rewrite (hw_cycle_idem _ _ Hok) in G1. right. tauto.
  - rewrite G2, H2. done.
  - eapply Forall2_trans; [| done | done]. intros ? ? ?. apply pwoken_trans.
Qed.

Lemma kframe_cyc k : kframe k (cyc k).
Proof.
  constructor; try done; [by right |]. apply Forall_Forall2_diag, Forall_true. intros. apply pwoken_refl.
Qed.

Lemma woken_pwoken me ch i p : pwoken p (woken me ch i p).
Proof.
  unfold woken. case_bool_decide; [by left |].
  destruct (bool_decide (p_state p = SLEEPING)) eqn:E; simpl; [| by left].
  apply bool_decide_eq_true in E. case_bool_decide; [by right | by left].
Qed.

Lemma kframe_wake i ch k : kframe k (wake i ch k).
Proof.
  constructor; try done; [by left | by destruct k as [[] ? ? ? ?] |].
  unfold wake. simpl. apply Forall2_same_length_lookup_2; [by rewrite length_imap |].
  intros j p q Hp Hq. rewrite list_lookup_imap, Hp in Hq. simplify_eq/=. apply woken_pwoken.
Qed.
#[export] Hint Resolve kframe_refl kframe_cyc kframe_wake : kernel.

Lemma kctx_frame i k k' : kctx i k -> kframe k k' -> kctx i k'.
Proof.
  intros [H1 H0 H2 H3 H4 H5] [G1 G2 G3 G4 G5 G6]. constructor; try done.
  - destruct G1 as [-> | ->]; [done | by apply hw_ok_cycle].
  - destruct G1 as [-> | ->]; [done |]. by rewrite (my_cycle _ _ H1).
  - intros lk Hl. destruct G1 as [-> | ->]; [by apply H2 | by apply lock_free_cycle, H2].
  - destruct G1 as [-> | ->]; [done |]. by rewrite (my_proc_cycle _ _ H1).
  - by rewrite <- (Forall2_length _ _ _ G3).
Qed.

Lemma kctx_cyc i k : kctx i k -> kctx i (cyc k).
Proof. intros. eapply kctx_frame; [done | apply kframe_cyc]. Qed.
Lemma kctx_wake i j ch k : kctx i k -> kctx i (wake j ch k).
Proof. intros. eapply kctx_frame; [done | apply kframe_wake]. Qed.
#[export] Hint Resolve kctx_cyc kctx_wake : kernel.

(** The process whose entry changed keeps everything but its scheduling state. *)
Lemma kframe_lookup k k' j p : kframe k k' -> k_procs k !! j = Some p ->
  exists p', k_procs k' !! j = Some p' /\ pwoken p p'.
Proof.
  intros HF Hp. destruct (Forall2_lookup_l _ _ _ _ _ (kf_procs _ _ HF) Hp) as (p' & ? & ?). eauto.
Qed.

Lemma kframe_pid k k' j : kframe k k' -> p_pid (proc_at k' j) = p_pid (proc_at k j).
Proof.
  intros HF. unfold proc_at. destruct (k_procs k !! j) as [p |] eqn:E.
  - destruct (kframe_lookup _ _ _ _ HF E) as (p' & -> & [-> | [_ ->]]); done.
  - assert (k_procs k' !! j = None) as ->; [| done].
    apply lookup_ge_None. rewrite <- (Forall2_length _ _ _ (kf_procs _ _ HF)). by apply lookup_ge_None.
Qed.

(** ** Critical sections *)

Lemma locked_locks lk k lk' : lk <> lk' -> lock_free (khw k) lk' -> lock_free (khw (locked lk k)) lk'.
Proof. intros. by apply lock_free_acquired. Qed.

Lemma acq_locked i k lk : kctx i k -> static_lock lk = true -> acq lk k = Ok tt (locked lk k).
Proof. intros Hk Hl. apply (acq_run 7); [apply Hk | by apply Hk]. Qed.

(** Taking a second lock. *)
Lemma acq_locked2 i k lk lk' : kctx i k -> static_lock lk' = true -> lk <> lk' ->
  acq lk' (locked lk k) = Ok tt (locked lk' (locked lk k)).
Proof.
  intros Hk Hl Hne. apply (acq_run 6); [apply (hw_ok_acquired 7), Hk | apply locked_locks; [done | by apply Hk]].
Qed.

Lemma rel_locked i k lk : kctx i k -> static_lock lk = true -> rel lk (locked lk k) = Ok tt (cyc k).
Proof. intros Hk Hl. rewrite (rel_run 7 _ (khw k)); [done | apply Hk | by apply Hk | done]. Qed.

Lemma cyc_locked i k lk : kctx i k -> cyc (locked lk k) = locked lk k.
Proof.
  intros Hk. unfold cyc, locked. change (khw (set_khw (acquired lk (khw k)) k)) with (acquired lk (khw k)).
  rewrite (hw_cycle_nested 7); [done | by apply hw_ok_acquired, Hk |].
  rewrite (my_acquired 7) by apply Hk. pose proof (hwo_noff _ _ (kc_hw _ _ Hk)). simpl. lia.
Qed.

Lemma rel_locked2 i k lk lk' : kctx i k -> static_lock lk' = true -> lk <> lk' ->
  rel lk' (locked lk' (locked lk k)) = Ok tt (locked lk k).
Proof.
  intros Hk Hl Hne. rewrite (rel_run 6 _ (khw (locked lk k))); [| apply (hw_ok_acquired 7), Hk | | done].
  - f_equal. apply (cyc_locked i k lk Hk).
  - apply locked_locks; [done | by apply Hk].
Qed.

Lemma myproc_ctx i k : kctx i k -> myproc k = Ok (Some i) (cyc k).
Proof. intros Hk. rewrite (myproc_run 7) by apply Hk. by rewrite (kc_me _ _ Hk). Qed.

Lemma myproc_locked i k lk : kctx i k -> myproc (locked lk k) = Ok (Some i) (locked lk k).
Proof.
  intros Hk. rewrite (myproc_run 6) by (apply (hw_ok_acquired 7), Hk).
  f_equal; [| apply (cyc_locked i k lk Hk)].
  change (khw (locked lk k)) with (acquired lk (khw k)). rewrite (my_acquired 7) by apply Hk. apply Hk.
Qed.

Lemma wakeup_ctx i k ch : kctx i k -> wakeup ch k = Ok tt (cyc (wake i ch k)).
Proof.
  intros Hk. rewrite (wakeup_run 7); [| apply Hk | | apply Hk].
  - rewrite (kc_me _ _ Hk). done.
  - intros j Hj. apply Hk. simpl. by apply Nat.ltb_lt.
Qed.

Lemma wakeup_locked i k ch lk : kctx i k -> (forall j, lk <> ProcLock j) ->
  wakeup ch (locked lk k) = Ok tt (locked lk (wake i ch k)).
Proof.
  intros Hk Hlk. rewrite (wakeup_run 6); [| apply (hw_ok_acquired 7), Hk | | apply Hk].
  - f_equal. change (khw (locked lk k)) with (acquired lk (khw k)). rewrite (my_acquired 7) by apply Hk.
    cbn [cpu_proc]. rewrite (kc_me _ _ Hk). change (k_procs (locked lk k)) with (k_procs k).
    unfold cycled. fold (cyc (locked lk k)). by rewrite (cyc_locked i).
  - intros j Hj. apply locked_locks; [done |]. apply Hk. simpl. by apply Nat.ltb_lt.
Qed.

Lemma cyc_cyc i k : kctx i k -> cyc (cyc k) = cyc k.
Proof.
  intros Hk. unfold cyc. rewrite khw_set, set_khw_khw. by rewrite (hw_cycle_idem _ _ (kc_hw _ _ Hk)).
Qed.

(** ** Sleeping *)

(** The states in which the scheduler resumes process [i]: its hart holds only
    the lock of [i]. *)
Record resumable (i : nat) (k : kst) : Prop := {
  rs_sched : in_sched i (khw k);
  rs_free : forall lk, static_lock lk = true -> lk <> ProcLock i -> lock_free (khw k) lk;
  rs_len : length (k_procs k) = NPROC;
  rs_i : (i < NPROC)%nat }.

Lemma awake_ctx i k h p en : resumable i k -> awake i (khw k) en h ->
  kctx i (put_proc i p (set_khw h k)).
Proof.
  intros [H1 H2 H3 H4] [G1 G2 G3 G4 G5]. constructor; try done.
  - intros lk Hlk. apply G5. destruct (decide (lk = ProcLock i)) as [-> | Hne]; [by left |]. right. by apply H2.
  - simpl. by rewrite length_insert.
Qed.

(** [sleep] on a static lock, from the context of a process. *)
Lemma sleep_locked i ch lk k p : kctx i k -> static_lock lk = true -> lk <> ProcLock i ->
  k_procs k !! i = Some p ->
  exists kont, sleep ch lk (locked lk k) =
      Swtch (put_proc i (set_state SLEEPING (set_chan ch p)) (locked (ProcLock i) k)) kont /\
    forall k2 p2, resumable i k2 -> k_procs k2 !! i = Some p2 ->
      exists h, kont k2 = Ok tt (locked lk (put_proc i (set_chan ChNone p2) (set_khw h k2))) /\
        awake i (khw k2) (intr_enabled (khw k)) h.
Proof.
  intros Hk Hlk Hne Hp.
  destruct (sleep_run i ch lk (locked lk k) (khw k) p) as (kont & E & Hkont).
  - done.
  - eapply hw_ok_mono, Hk. lia.
  - apply Hk.
  - apply Hk.
  - by apply Hk.
  - apply Hk. simpl. apply Nat.ltb_lt, Hk.
  - done.
  - done.
  - exists kont. split; [rewrite E; done |]. intros k2 p2 Hr Hp2.
    destruct (Hkont k2 p2) as (h & Eh & Ha); [apply Hr | by apply Hr | done |]. exists h. split; [rewrite Eh; done | done].
Qed.

(** ** An example: process 0 in a system call, all locks free *)

Definition all_locks : list lockid :=
  [KmemLock; PidLock; WaitLock; TicksLock; BcacheLock; LogLock; ItableLock; FtableLock; ConsLock;
   UartLock; PrLock; VdiskLock] ++
  (ProcLock <$> seq 0 NPROC) ++ (BufLk <$> seq 0 NBUF) ++ (InodeLk <$> seq 0 NINODE).

Definition idle_locks : gmap lockid spinlock :=
  list_to_map ((fun lk => (lk, mkSpinlock 0 "" None)) <$> all_locks).

Lemma static_all lk : static_lock lk = true -> lk ∈ all_locks.
Proof.
  intros Hl. unfold all_locks. rewrite !elem_of_app, !list_elem_of_fmap. setoid_rewrite elem_of_seq.
  destruct lk; try (left; rewrite !elem_of_cons; tauto); simpl in Hl; try done;
    apply Nat.ltb_lt in Hl; right; [left | right; left | right; right]; exists i; (split; [done | lia]).
Qed.

Lemma idle_locks_free lk : static_lock lk = true -> idle_locks !! lk = Some (mkSpinlock 0 "" None).
Proof.
  intros Hl%static_all. apply elem_of_list_to_map_1'.
  - intros y (x & E & _)%list_elem_of_fmap. by injection E as -> ->.
  - apply list_elem_of_fmap. by exists lk.
Qed.

Definition idle_hw (p : option nat) : hw := mkHw 0 0 [mkCpu p 0 0] idle_locks.

(** [n] free pages; the process table is [ps]; [p] runs. *)
Definition idle_kst (n : nat) (p : option nat) (ps : list proc) : kst :=
  mkKst (set_hw (idle_hw p) (stocked n)) (ps ++ replicate (NPROC - length ps) proc0) 1 None 0.

Lemma idle_hw_ok p : hw_ok 8 (idle_hw p).
Proof. constructor; vm_compute; (intuition congruence) || lia. Qed.

Lemma idle_kctx n i ps : (i < NPROC)%nat -> (length ps <= NPROC)%nat -> kctx i (idle_kst n (Some i) ps).
Proof.
  intros Hi Hps. constructor; try done.
  - apply idle_hw_ok.
  - intros lk Hlk. exists "". by apply idle_locks_free.
  - cbn [idle_kst k_procs]. rewrite length_app, length_replicate. lia.
Qed.

Lemma idle_procs n p ps i q : ps !! i = Some q -> k_procs (idle_kst n p ps) !! i = Some q.
Proof. intros. cbn [idle_kst k_procs]. by apply lookup_app_l_Some. Qed.
