(* ===== verification/ProcProps.v ===== *)
(** * Properties of scheduling, sleep and wakeup (kernel/proc.c)

    The scheduler and the threads it switches to follow one protocol: at every
    [swtch], in both directions, the hart holds exactly the lock of the process
    concerned ([resumable]). This file proves both halves and states the
    properties of [wakeup], [kill], [sleep] and the scheduler. *)

From S2P Require Import Prelude Riscv Mem StringLib Spinlock Kalloc Vm Proc ProcSpec Kctx.

(** ** The scheduler's half *)

(** A hart in its scheduler, between two processes. *)
Record sched_ctx (c : nat) (k : kst) : Prop := {
  sx_hw : hw_ok 8 (khw k);
  sx_noff : cpu_noff (my (khw k)) = 0;
  sx_tp : hw_tp (khw k) = c;
  sx_free : forall lk, static_lock lk = true -> lock_free (khw k) lk;
  sx_len : length (k_procs k) = NPROC }.

Lemma sched_ctx_cyc c k : sched_ctx c k -> sched_ctx c (cyc k).
Proof.
  intros [H1 H2 H3 H4 H5]. constructor; try done.
  - by apply hw_ok_cycle.
  - unfold cyc. rewrite khw_set, (my_cycle _ _ H1). done.
Qed.

Lemma scan_skip c n i f s p : sched_ctx c s -> (i < NPROC)%nat -> k_procs s !! i = Some p ->
  p_state p <> RUNNABLE ->
  scheduler_scan (S n) i c f s = scheduler_scan n (S i) c f (cyc s).
Proof.
  intros [H1 H2 H3 H4 H5] Hi Hp Hst. cbn [scheduler_scan].
  assert (Hl : lock_free (khw s) (ProcLock i)) by (apply H4; simpl; by apply Nat.ltb_lt).
  rewrite (bind_ok _ _ _ _ _ (acq_run 7 s _ H1 Hl)). unfold bind at 1, getp, gets. cbn [obind].
  rewrite (proc_at_lookup (set_khw (acquired (ProcLock i) (khw s)) s) i p Hp), bool_decide_eq_false_2 by done.
  unfold bind at 1. cbn [obind ret].
  assert (Hr : rel (ProcLock i) (set_khw (acquired (ProcLock i) (khw s)) s) = Ok tt (cyc s)).
  { by rewrite (rel_run 7 _ (khw s)). }
  by rewrite (bind_ok _ _ _ _ _ Hr).
Qed.

Definition set_hproc (c : nat) (x : option nat) (h : hw) : hw :=
  set_cpus (<[c := set_cproc x (cpu_at h c)]> (hw_cpus h)) h.

Lemma my_set_hproc x h : (hw_tp h < length (hw_cpus h))%nat ->
  my (set_hproc (hw_tp h) x h) = set_cproc x (my h).
Proof. intros. by apply cpu_at_insert. Qed.

Lemma hw_ok_set_hproc n x h : hw_ok n h -> hw_ok n (set_hproc (hw_tp h) x h).
Proof.
  intros H. pose proof (my_set_hproc x h (hwo_tp _ _ H)) as Hm. destruct H.
  constructor; rewrite ?Hm; try done. simpl. by rewrite length_insert.
Qed.

(** When the scheduler switches to process [i], the state is one in which a
    thread of [i] can resume. *)
Lemma scan_resumable c i s p : sched_ctx c s -> (i < NPROC)%nat ->
  resumable i (put_proc i p (set_khw (set_hproc c (Some i) (acquired (ProcLock i) (khw s))) s)).
Proof.
  intros [H1 H2 <- H4 H5] Hi. pose proof (hw_ok_acquired _ _ (ProcLock i) H1) as Hok.
  pose proof (my_acquired _ _ (ProcLock i) H1) as Hm.
  pose proof (my_set_hproc (Some i) (acquired (ProcLock i) (khw s)) (hwo_tp _ _ Hok)) as Hm'.
  pose proof (hw_ok_set_hproc _ (Some i) _ Hok) as Hok'.
  change (hw_tp (acquired (ProcLock i) (khw s))) with (hw_tp (khw s)) in Hm', Hok'.
  split; [split | ..].
  - eapply hw_ok_mono; [| exact Hok']. lia.
  - change (khw _) with (set_hproc (hw_tp (khw s)) (Some i) (acquired (ProcLock i) (khw s))).
    by rewrite Hm'.
  - eexists. apply lookup_insert_eq.
  - change (khw _) with (set_hproc (hw_tp (khw s)) (Some i) (acquired (ProcLock i) (khw s))).
    rewrite Hm'. cbn [cpu_noff set_cproc]. rewrite Hm. simpl. lia.
  - intros lk Hlk Hne. change (lock_free (acquired (ProcLock i) (khw s)) lk).
    apply lock_free_acquired; [done |]. by apply H4.
  - simpl. by rewrite length_insert.
  - done.
Qed.

(** What the scheduler does when a process switches back to it. *)
Lemma scan_back c i s : resumable i s -> hw_tp (khw s) = c ->
  exists h, (zoom Lkhw (upd_cpu c (set_cproc None)) ;;; rel (ProcLock i)) s = Ok tt (set_khw h s) /\
    sched_ctx c (set_khw h s).
Proof.
  intros [[Hok Hp Hl Hn] H2 H3 H4] <-. set (h0 := set_hproc (hw_tp (khw s)) None (khw s)).
  assert (Hok0 : hw_ok 2 h0) by (by apply hw_ok_set_hproc).
  assert (Hm : my h0 = set_cproc None (my (khw s))) by (apply my_set_hproc, Hok).
  assert (E : zoom Lkhw (upd_cpu (hw_tp (khw s)) (set_cproc None)) s = Ok tt (set_khw h0 s)) by (by apply zoom_hw).
  rewrite (bind_ok _ _ _ _ _ E). exists (released (ProcLock i) h0).
  assert (Hn0 : cpu_noff (my h0) = 1) by (rewrite Hm; simpl; lia). split.
  - apply (zoom_hw _ (set_khw h0 s)). apply release_held; [done | apply Hok0 | | change (1 <= cpu_noff (my h0) < 2^31); lia].
    apply (hwo_off _ _ Hok0). lia.
  - pose proof (my_released _ _ (ProcLock i) Hok0) as Hmr. split; try done.
    + eapply hw_ok_shallow; [by eapply hw_ok_released |].
      change (cpu_noff (my (released (ProcLock i) h0)) + Z.of_nat 8 < 2^31). rewrite Hmr. simpl. lia.
    + change (cpu_noff (my (released (ProcLock i) h0)) = 0). rewrite Hmr. simpl. lia.
    + intros lk Hlk. apply (lock_free_released h0 (ProcLock i)).
      destruct (decide (lk = ProcLock i)) as [-> |]; [by left |]. right. split; [done |]. by apply H2.
Qed.

Lemma scan_switch c n i f s p : sched_ctx c s -> (i < NPROC)%nat -> k_procs s !! i = Some p ->
  p_state p = RUNNABLE ->
  exists s1 kont, scheduler_scan (S n) i c f s = Swtch s1 kont /\
    s1 = put_proc i (set_state RUNNING p) (set_khw (set_hproc c (Some i) (acquired (ProcLock i) (khw s))) s) /\
    forall s2, resumable i s2 -> hw_tp (khw s2) = c ->
      exists h, kont s2 = scheduler_scan n (S i) c true (set_khw h s2) /\ sched_ctx c (set_khw h s2).
Proof.
  intros [H1 H2 H3 H4 H5] Hi Hp Hst. cbn [scheduler_scan].
  assert (Hl : lock_free (khw s) (ProcLock i)) by (apply H4; simpl; by apply Nat.ltb_lt).
  rewrite (bind_ok _ _ _ _ _ (acq_run 7 s _ H1 Hl)).
  set (s0 := set_khw (acquired (ProcLock i) (khw s)) s). assert (Hp0 : k_procs s0 !! i = Some p) by done.
  unfold bind at 1, getp, gets. cbn [obind]. rewrite (proc_at_lookup s0 i p Hp0), bool_decide_eq_true_2 by done.
  eexists _, _. split; [| split].
  - unfold bind at 1. unfold bind at 1. rewrite (updp_run i _ s0 p Hp0). cbn [obind].
    unfold bind at 1. erewrite zoom_hw by reflexivity. cbn [obind]. reflexivity.
  - done.
  - intros s2 Hs2 Htp. destruct (scan_back c i s2 Hs2 Htp) as (h & E & Hx). exists h. split; [| done].
    cbn [obind]. unfold bind in E |- *. revert E. destruct (zoom Lkhw (upd_cpu c (set_cproc None)) s2); cbn [obind]; try done.
    unfold ret. cbn [obind]. intros ->. done.
Qed.

(** ** The search for a runnable process *)

Definition runnable (p : proc) : Prop := p_state p = RUNNABLE.
#[global] Instance runnable_dec p : Decision (runnable p).
Proof. unfold runnable. apply _. Defined.

Lemma scan_skips c f n : forall m i s, sched_ctx c s -> (i + m <= NPROC)%nat ->
  (forall j p, (i <= j < i + m)%nat -> k_procs s !! j = Some p -> ~ runnable p) ->
  exists s', scheduler_scan (m + n) i c f s = scheduler_scan n (i + m) c f s' /\
    sched_ctx c s' /\ kframe s s' /\ k_procs s' = k_procs s.
Proof.
  induction m as [| m IH]; intros i s Hs Him Hno.
  - exists s. rewrite Nat.add_0_r. eauto using kframe_refl.
  - destruct (lookup_lt_is_Some_2 (k_procs s) i) as [p Hp]; [rewrite (sx_len _ _ Hs); lia |].
    cbn [Nat.add]. rewrite (scan_skip c _ i f s p); [| done | lia | done |].
    + destruct (IH (S i) (cyc s)) as (s' & E & Hs' & HF & Hps); [by apply sched_ctx_cyc | lia | |].
      * intros j q Hj Hq. apply (Hno j); [lia | done].
      * exists s'. rewrite E, <- Nat.add_succ_comm. split_and!; try done.
        eapply kframe_trans; [apply Hs | apply kframe_cyc | done].
    + apply (Hno i); [lia | done].
Qed.

(** [intr_on] in the scheduler. *)
Lemma intr_on_sched c s : sched_ctx c s ->
  exists s', zoom Lkhw intr_on s = Ok tt s' /\ sched_ctx c s' /\ intr_enabled (khw s') = true /\
    k_procs s' = k_procs s.
Proof.
  intros [H1 H2 H3 H4 H5]. eexists. split; [by apply zoom_hw |].
  assert (Hm : forall x, my (set_sstatus x (khw s)) = my (khw s)) by done.
  split; [constructor |]; try done.
  - destruct H1. constructor; try done.
    + simpl. by apply lor_SIE_range.
    + intros Hn. change (0 < cpu_noff (my (khw s))) in Hn. lia.
  - split; [| done]. rewrite intr_enabled_bit. cbn [khw set_khw set_kmach k_mach m_hw set_hw hw_sstatus set_sstatus].
    rewrite Z.lor_spec, SIE_val, Z.pow2_bits_true by lia. apply orb_true_r.
Qed.

(** The rest of a round of the scheduler, once the entry [i] has been handled. *)
Definition scheduler_rest (r c i : nat) (f : bool) : M kst unit :=
  let* found := scheduler_scan (NPROC - i) i c f in
  when (negb found) (zoom Lkhw intr_on) ;;;
  scheduler_loop r c.

(** C22: The scheduler. A round turns interrupts on and goes through the table.
    If some process is runnable, the first one in table order is chosen: it is
    marked [RUNNING], becomes the hart's process, and the hart switches to it
    holding exactly its lock, with interrupts off: the state any thread of that
    process expects when it resumes. When the process switches back under the
    same protocol, the scheduler clears the hart's process, releases the lock
    and goes on with the next entry. If no process is runnable the round ends
    with the table unchanged and interrupts enabled. *)
Theorem scheduler_round (r c : nat) (s : kst) (Hs : sched_ctx c s) :
  match list_find runnable (k_procs s) with
  | Some (i, p) =>
      exists s1 k, scheduler_loop (S r) c s = Swtch s1 k /\ resumable i s1 /\
        k_procs s1 = <[i := set_state RUNNING p]> (k_procs s) /\
        forall s2, resumable i s2 -> hw_tp (khw s2) = c ->
          exists h, k s2 = scheduler_rest r c (S i) true (set_khw h s2) /\ sched_ctx c (set_khw h s2)
  | None =>
      exists s', scheduler_loop (S r) c s = scheduler_loop r c s' /\ sched_ctx c s' /\
        k_procs s' = k_procs s /\ intr_enabled (khw s') = true
  end.
Proof.
  destruct (intr_on_sched c s Hs) as (s0 & E0 & Hs0 & Hi0 & Hps0).
  cbn [scheduler_loop]. rewrite <- Hps0. pose proof (sx_len _ _ Hs0) as Hlen.
  destruct (list_find runnable (k_procs s0)) as [[i p] |] eqn:Hf.
  - apply list_find_Some in Hf as (Hp & Hr & Hfirst). pose proof (lookup_lt_Some _ _ _ Hp) as Hi. rewrite Hlen in Hi.
    rewrite (bind_ok _ _ _ _ _ E0).
    destruct (scan_skips c false (NPROC - i) i 0 s0) as (s' & E & Hs' & HF & Hps); [done | lia | |].
    { intros j q Hj Hq. apply (Hfirst j q Hq). lia. }
    replace (i + (NPROC - i))%nat with NPROC in E by lia. cbn [Nat.add] in E.
    destruct (scan_switch c (NPROC - S i) i false s' p) as (s1 & k & E1 & Hs1 & Hk); [done | done | by rewrite Hps | done |].
    exists s1. eexists. split; [| split; [rewrite Hs1; by apply scan_resumable | split]].
    + unfold bind at 1. rewrite E. replace (NPROC - i)%nat with (S (NPROC - S i)) by lia. rewrite E1. cbn [obind]. reflexivity.
    + rewrite Hs1. simpl. by rewrite Hps.
    + intros s2 Hs2 Htp. destruct (Hk s2 Hs2 Htp) as (h & Eh & Hx). exists h. split; [| done]. by rewrite Eh.
  - rewrite (bind_ok _ _ _ _ _ E0). rewrite list_find_None in Hf.
    destruct (scan_skips c false 0 NPROC 0 s0) as (s' & E & Hs' & HF & Hps); [done | lia | |].
    { intros j q _ Hq. rewrite Forall_lookup in Hf. by eapply Hf. }
    rewrite Nat.add_0_r in E. unfold bind at 1. rewrite E. cbn [scheduler_scan ret obind when negb].
    destruct (intr_on_sched c s' Hs') as (s2 & E2 & Hs2 & Hi2 & Hps2). exists s2.
    rewrite (bind_ok _ _ _ _ _ E2). split; [done |]. split; [done |]. split; [congruence | done].
Qed.

Lemma idle_sched n ps : (length ps <= NPROC)%nat -> sched_ctx 0 (idle_kst n None ps).
Proof.
  intros Hps. constructor; try done.
  - apply idle_hw_ok.
  - intros lk Hlk. exists "". by apply idle_locks_free.
  - cbn [idle_kst k_procs]. rewrite length_app, length_replicate. lia.
Qed.

(** Process 0 sleeps, process 1 is runnable. *)
Definition example_procs : list proc :=
  [set_pid 1 (set_chan (ChProc 0) (set_state SLEEPING proc0)); set_pid 2 (set_state RUNNABLE proc0)].

Lemma scheduler_round_witness :
  exists s1 k, scheduler_loop 1 0 (idle_kst 0 None example_procs) = Swtch s1 k /\ resumable 1 s1 /\
    p_state (proc_at s1 1) = RUNNING.
Proof.
  pose proof (scheduler_round 0 0 (idle_kst 0 None example_procs)
    (idle_sched 0 example_procs ltac:(vm_compute; lia))) as H.
  destruct H as (s1 & k & E & Hr & Hps & _).
  exists s1, k. split; [exact E |]. split; [exact Hr |]. unfold proc_at. rewrite Hps. reflexivity.
Defined.

(** C23: [sleep] is atomic with respect to the lock it is given. Called with only
    [lk] held, it switches away with the process asleep on [ch], [lk] free, and
    the process's own lock held: a [wakeup] can see the process only once it is
    asleep. Whenever the scheduler resumes it, it returns holding [lk] (and no
    other lock), off the channel, with the interrupt state it was called with. *)
Theorem sleep_correct (i : nat) (ch : chan) (lk : lockid) (k : kst) (p : proc)
    (Hk : kctx i k) (Hlk : static_lock lk = true) (Hne : lk <> ProcLock i)
    (Hp : k_procs k !! i = Some p) :
  exists s1 kont, sleep ch lk (locked lk k) = Swtch s1 kont /\
    resumable i s1 /\ lock_free (khw s1) lk /\
    k_procs s1 = <[i := set_state SLEEPING (set_chan ch p)]> (k_procs k) /\
    forall s2 p2, resumable i s2 -> k_procs s2 !! i = Some p2 ->
      exists k3, kont s2 = Ok tt (locked lk k3) /\ kctx i k3 /\
        k_procs k3 = <[i := set_chan ChNone p2]> (k_procs s2) /\
        intr_enabled (khw k3) = intr_enabled (khw k).
Proof.
  destruct (sleep_locked i ch lk k p Hk Hlk Hne Hp) as (kont & E & Hkont).
  eexists _, kont. split; [exact E |]. pose proof Hk as [H1 H2 H3 H4 H5 H6].
  assert (Hr : resumable i (put_proc i (set_state SLEEPING (set_chan ch p)) (locked (ProcLock i) k))).
  { split; try done.
    - apply in_sched_acquired; [eapply hw_ok_mono, H1; lia | done | done].
    - intros l Hl Hn. apply locked_locks; [done |]. by apply H3.
    - simpl. by rewrite length_insert. }
  split; [done |]. split; [by apply Hr |]. split; [done |].
  intros s2 p2 Hs2 Hp2. destruct (Hkont s2 p2 Hs2 Hp2) as (h & Eh & Ha).
  eexists. split; [exact Eh |]. split; [by eapply awake_ctx |]. split; [done |]. apply Ha.
Qed.

Lemma sleep_correct_witness :
  exists s1 kont, sleep ChTicks TicksLock (locked TicksLock (idle_kst 0 (Some 1%nat) example_procs)) = Swtch s1 kont /\
    p_state (proc_at s1 1) = SLEEPING.
Proof.
  destruct (sleep_correct 1 ChTicks TicksLock (idle_kst 0 (Some 1%nat) example_procs)
    (set_pid 2 (set_state RUNNABLE proc0))) as (s1 & kont & E & _ & _ & Hps & _).
  - apply idle_kctx; vm_compute; lia.
  - reflexivity.
  - discriminate.
  - reflexivity.
  - exists s1, kont. split; [exact E |]. unfold proc_at. rewrite Hps. reflexivity.
Defined.

(** C24: [wakeup] makes runnable exactly the processes that sleep on [ch], the
    caller excepted; every other entry, the pid counter, memory and the locks are
    as before, and the caller's context is preserved. *)
Theorem wakeup_correct (i : nat) (ch : chan) (k : kst) (Hk : kctx i k) :
  exists k', wakeup ch k = Ok tt k' /\ kctx i k' /\ kframe k k' /\
    forall j p, k_procs k !! j = Some p ->
      k_procs k' !! j = Some (if bool_decide (j <> i /\ p_state p = SLEEPING /\ p_chan p = ch)
                              then set_state RUNNABLE p else p).
Proof.
  exists (cyc (wake i ch k)). split; [by apply wakeup_ctx |]. split; [auto with kernel |].
  split; [eapply kframe_trans; [apply Hk | apply kframe_wake | apply kframe_cyc] |].
  intros j p Hp. cbn [cyc wake k_procs set_kprocs set_khw set_kmach]. rewrite list_lookup_imap, Hp. simpl. f_equal.
  unfold woken. case_bool_decide as Hme; [simplify_eq; by rewrite bool_decide_eq_false_2 by tauto |].
  rewrite <- bool_decide_and. repeat case_bool_decide; try done; exfalso; intuition congruence.
Qed.

Lemma wakeup_correct_witness :
  exists k', wakeup (ChProc 0) (idle_kst 0 (Some 1%nat) example_procs) = Ok tt k' /\
    p_state (proc_at k' 0) = RUNNABLE.
Proof.
  destruct (wakeup_correct 1 (ChProc 0) (idle_kst 0 (Some 1%nat) example_procs)) as (k' & E & _ & _ & H).
  - apply idle_kctx; vm_compute; lia.
  - exists k'. split; [exact E |]. unfold proc_at. erewrite (H 0%nat) by reflexivity. reflexivity.
Defined.

(** [kill] marks the first process with the given pid as killed and, if it
    sleeps, makes it runnable (so that it can notice); it returns 0. If no entry
    has the pid it returns -1 and changes no entry. *)
Theorem kill_correct (i : nat) (pid : Z) (k : kst) (Hk : kctx i k) :
  exists r k', kill pid k = Ok r k' /\ kctx i k' /\
    match find_pid pid 0 (k_procs k) with
    | Some j => exists p, r = 0 /\ k_procs k !! j = Some p /\ p_pid p = pid /\
        (forall m q, (m < j)%nat -> k_procs k !! m = Some q -> p_pid q <> pid) /\
        k_procs k' = <[j := set_killed 1 (if bool_decide (p_state p = SLEEPING)
                                          then set_state RUNNABLE p else p)]> (k_procs k)
    | None => r = -1 /\ k_procs k' = k_procs k /\ (forall m q, k_procs k !! m = Some q -> p_pid q <> pid)
    end.
Proof.
  pose proof (kill_run 7 k pid) as E. pose proof (find_pid_spec pid (k_procs k) 0) as Hf.
  rewrite E; [| apply Hk | intros j Hj; apply Hk; simpl; by apply Nat.ltb_lt | apply Hk].
  destruct (find_pid pid 0 (k_procs k)) as [j |].
  - destruct Hf as (_ & (p & Hp & Hpid) & Hmin). rewrite Nat.sub_0_r in Hp, Hmin.
    eexists _, _. split; [done |]. split.
    + eapply (kctx_frame i (cyc (set_kprocs _ k))); [apply kctx_cyc | apply kframe_refl].
      destruct Hk. constructor; try done. simpl. by rewrite length_insert.
    + exists p. split_and!; try done. rewrite (proc_at_lookup _ _ _ Hp). cbn. unfold kill_proc.
      cbn [p_state set_killed]. by case_bool_decide.
  - eexists _, _. split; [done |]. split; [| done]. apply (kctx_cyc i k) in Hk. by destruct k.
Qed.

Lemma kill_correct_witness :
  exists k', kill 1 (idle_kst 0 (Some 1%nat) example_procs) = Ok 0 k' /\ p_state (proc_at k' 0) = RUNNABLE.
Proof.
  destruct (kill_correct 1 1 (idle_kst 0 (Some 1%nat) example_procs)) as (r & k' & E & _ & p & -> & Hp & _ & _ & Hps).
  - apply idle_kctx; vm_compute; lia.
  - exists k'. split; [exact E |]. unfold proc_at. rewrite Hps. injection Hp as <-. reflexivity.
Defined.
