(* ===== verification/SleepWake.v ===== *)
(** * No lost wakeups (kernel/proc.c: sleep and wakeup, interleaved)

    [sleep] and [wakeup] written as sequences of the steps between which other
    harts can run: lock operations and accesses to the process table. The
    sequences, run alone, are the functions [Proc.sleep] and [Proc.wakeup]
    ([sleep_code_ok], [wakeup_code_ok]). Any number of threads then run two
    programs, their steps interleaved arbitrarily: a waiter, which holds a lock
    and sleeps until a condition it protects is true (the pattern of pipes, the
    log, sleep locks and the console), and a waker, which makes the condition
    true and calls [wakeup]. *)

From S2P Require Import Prelude Riscv Mem StringLib Spinlock Kalloc Vm Proc ProcSpec Kctx.

(** ** The steps *)

Inductive instr :=
| IAcquire (l : lockid)
| IRelease (l : lockid)
| ISetChan (i : nat) (c : chan)
| ISetState (i : nat) (x : procstate)
| IWakeIf (j : nat) (c : chan)      (** under [p->lock]: test and make runnable *)
| ISched                            (** switch to the scheduler *)
| INop                              (** [p == myproc()] *)
| IIfCond (target : nat)            (** jump if the condition holds *)
| IGoto (target : nat)
| ISetCond (b : bool).

(** The kernel code of the steps of [sleep] and [wakeup]. *)
Definition interp (i : instr) : M kst unit :=
  match i with
  | IAcquire l => acq l
  | IRelease l => rel l
  | ISetChan i c => updp i (set_chan c)
  | ISetState i x => updp i (set_state x)
  | IWakeIf j c =>
      let* p := getp j in
      when (bool_decide (p_state p = SLEEPING) && bool_decide (p_chan p = c)) (updp j (set_state RUNNABLE))
  | ISched => sched
  | _ => ret tt
  end.

Fixpoint runs (l : list instr) : M kst unit :=
  match l with
  | [] => ret tt
  | [i] => interp i
  | i :: l => interp i ;;; runs l
  end.

Definition sleep_code (i : nat) (ch : chan) (lk : lockid) : list instr :=
  [IAcquire (ProcLock i); IRelease lk; ISetChan i ch; ISetState i SLEEPING; ISched;
   ISetChan i ChNone; IRelease (ProcLock i); IAcquire lk].

Definition visit (me : nat) (ch : chan) (j : nat) : list instr :=
  if bool_decide (j = me) then [INop; INop; INop]
  else [IAcquire (ProcLock j); IWakeIf j ch; IRelease (ProcLock j)].

Definition wakeup_code (me : nat) (ch : chan) (n i : nat) : list instr := flat_map (visit me ch) (seq i n).

Lemma sleep_code_ok i ch lk k : kctx i k -> sleep ch lk (locked lk k) = runs (sleep_code i ch lk) (locked lk k).
Proof.
  intros Hk. unfold sleep. rewrite (bind_ok _ _ _ _ _ (myproc_locked _ _ _ Hk)). done.
Qed.

Lemma runs_step i l s s' : interp i s = Ok tt s' -> runs (i :: l) s = runs l s'.
Proof. intros E. destruct l; [done |]. cbn [runs]. by rewrite (bind_ok _ _ _ _ _ E). Qed.

(** The entry [j] after the caller [me] has visited it. *)
Definition visited (me : nat) (ch : chan) (j : nat) (k : kst) : kst :=
  put_proc j (woken (Some me) ch j (proc_at k j)) k.

Lemma kctx_put i j p k : kctx i k -> kctx i (put_proc j p k).
Proof. intros []. constructor; try done. simpl. by rewrite length_insert. Qed.

Lemma put_proc_at k j : (j < length (k_procs k))%nat -> put_proc j (proc_at k j) k = k.
Proof.
  intros [p Hp]%lookup_lt_is_Some_2. rewrite (proc_at_lookup _ _ _ Hp). simpl.
  rewrite list_insert_id by done. by destruct k.
Qed.

Lemma runs_visit me ch j lk k l : kctx me k -> (forall x, lk <> ProcLock x) -> (j < NPROC)%nat ->
  runs (visit me ch j ++ l) (locked lk k) = runs l (locked lk (visited me ch j k)).
Proof.
  intros Hk Hlk Hj. assert (Hj' : (j < length (k_procs k))%nat) by (rewrite (kc_len _ _ Hk); lia).
  destruct (lookup_lt_is_Some_2 _ _ Hj') as [p Hp].
  unfold visit, visited, woken. case_bool_decide as Hme.
  - rewrite bool_decide_eq_true_2 by congruence. rewrite put_proc_at by done.
    cbn [app]. by rewrite !(runs_step INop _ _ _ eq_refl).
  - rewrite bool_decide_eq_false_2 by congruence. cbn [app].
    assert (Hl : static_lock (ProcLock j) = true) by (by apply Nat.ltb_lt).
    rewrite (runs_step _ _ _ (locked (ProcLock j) (locked lk k))) by (by eapply acq_locked2).
    rewrite (proc_at_lookup _ _ _ Hp).
    set (p' := if _ && _ then set_state RUNNABLE p else p).
    rewrite (runs_step _ _ _ (locked (ProcLock j) (locked lk (put_proc j p' k)))).
    + rewrite (runs_step _ _ _ (locked lk (put_proc j p' k))); [done |].
      eapply rel_locked2; [by apply kctx_put | done | done].
    + cbn [interp]. unfold bind, getp, gets. cbn [obind].
      rewrite (proc_at_lookup (locked (ProcLock j) (locked lk k)) j p Hp). unfold p'.
      destruct (_ && _); cbn [when].
      * rewrite (updp_run j _ (locked (ProcLock j) (locked lk k)) p Hp). done.
      * unfold ret. rewrite <- (proc_at_lookup _ _ _ Hp), put_proc_at by done. done.
Qed.

Lemma wakeup_loop_code me ch lk : forall n i k, kctx me k -> (forall x, lk <> ProcLock x) -> (i + n <= NPROC)%nat ->
  wakeup_loop n i ch (locked lk k) = runs (wakeup_code me ch n i) (locked lk k).
Proof.
  induction n as [| n IH]; intros i k Hk Hlk Hn; [done |].
  change (wakeup_code me ch (S n) i) with (visit me ch i ++ wakeup_code me ch n (S i)).
  rewrite runs_visit by (done || lia). cbn [wakeup_loop].
  rewrite (wakeup_iter 6).
  - rewrite <- IH; [| by apply kctx_put | done | lia]. f_equal.
    change (khw (locked lk k)) with (acquired lk (khw k)). rewrite (my_acquired 7) by apply Hk. cbn [cpu_proc].
    rewrite (kc_me _ _ Hk). unfold cycled. fold (cyc (locked lk k)). by rewrite (cyc_locked me).
  - apply (hw_ok_acquired 7), Hk.
  - intros j Hj. apply locked_locks; [done |]. apply Hk. simpl. by apply Nat.ltb_lt.
  - lia.
  - change (k_procs (locked lk k)) with (k_procs k). rewrite (kc_len _ _ Hk). lia.
Qed.

Lemma wakeup_code_ok me ch lk k : kctx me k -> (forall x, lk <> ProcLock x) ->
  wakeup ch (locked lk k) = runs (wakeup_code me ch NPROC 0) (locked lk k).
Proof. intros. by apply wakeup_loop_code. Qed.

(** ** Threads *)

Section Threads.
Context (ch : chan) (lk : lockid).

Definition waiter_prog (t : nat) : list instr :=
  [IAcquire lk; IIfCond 11] ++ sleep_code t ch lk ++ [IGoto 1; ISetCond false; IRelease lk].

Definition waker_prog (t : nat) : list instr :=
  [IAcquire lk; ISetCond true] ++ wakeup_code t ch NPROC 0 ++ [IRelease lk].

(** Thread [t] is the kernel thread of process [t]. It is parked between its
    [ISched] and the scheduler's switching back to it. *)
Record thread := mkThread { th_waits : bool; th_pc : nat; th_parked : bool }.

Record sys := mkSys {
  sy_own : gmap lockid nat;      (** which thread holds a lock *)
  sy_procs : list proc;
  sy_cond : bool;
  sy_threads : list thread }.

Definition prog (t : nat) (th : thread) : list instr :=
  if th_waits th then waiter_prog t else waker_prog t.

(** The effect of a step of thread [t] at [pc]; [None]: it cannot proceed. *)
Definition exec (t : nat) (i : instr) (pc : nat) (s : sys) :
    option (gmap lockid nat * list proc * bool * nat * bool) :=
  let own := sy_own s in let ps := sy_procs s in let c := sy_cond s in
  match i with
  | IAcquire l => if bool_decide (own !! l = None) then Some (<[l := t]> own, ps, c, S pc, false) else None
  | IRelease l => if bool_decide (own !! l = Some t) then Some (delete l own, ps, c, S pc, false) else None
  | ISetChan i x => Some (own, alter (set_chan x) i ps, c, S pc, false)
  | ISetState i x => Some (own, alter (set_state x) i ps, c, S pc, false)
  | IWakeIf j x =>
      Some (own, alter (fun p => if bool_decide (p_state p = SLEEPING) && bool_decide (p_chan p = x)
                                 then set_state RUNNABLE p else p) j ps, c, S pc, false)
  | ISched => Some (delete (ProcLock t) own, ps, c, S pc, true)
  | INop => Some (own, ps, c, S pc, false)
  | IIfCond n => Some (own, ps, c, if c then n else S pc, false)
  | IGoto n => Some (own, ps, c, n, false)
  | ISetCond b => Some (own, ps, b, S pc, false)
  end.

(** The scheduler resumes a parked thread whose process is runnable, taking the
    process's lock on its behalf. *)
Definition resume (t : nat) (th : thread) (s : sys) :
    option (gmap lockid nat * list proc * bool * nat * bool) :=
  match sy_procs s !! t with
  | Some p =>
      if bool_decide (sy_own s !! ProcLock t = None) && bool_decide (p_state p = RUNNABLE)
      then Some (<[ProcLock t := t]> (sy_own s), alter (set_state RUNNING) t (sy_procs s), sy_cond s, th_pc th, false)
      else None
  | None => None
  end.

Definition tstep (t : nat) (s : sys) : option sys :=
  match sy_threads s !! t with
  | None => None
  | Some th =>
      match (if th_parked th then resume t th s
             else match prog t th !! th_pc th with Some i => exec t i (th_pc th) s | None => None end) with
      | Some (own, ps, c, pc, pk) =>
          Some (mkSys own ps c (<[t := mkThread (th_waits th) pc pk]> (sy_threads s)))
      | None => None
      end
  end.

Definition sys0 (ws : list bool) (c : bool) : sys :=
  mkSys ∅ (replicate NPROC (set_state RUNNING proc0)) c ((fun w => mkThread w 0 false) <$> ws).

Inductive reachable : sys -> Prop :=
| reach_init ws c : (length ws <= NPROC)%nat -> reachable (sys0 ws c)
| reach_step s t s' : reachable s -> tstep t s = Some s' -> reachable s'.

(** ** The invariant *)

(** The locks a thread holds at a program point. *)
Definition holds (t : nat) (th : thread) (l : lockid) : Prop :=
  let pc := th_pc th in
  if th_waits th then
    th_parked th = false /\
    ((l = lk /\ (pc = 1 \/ pc = 2 \/ pc = 3 \/ pc = 10 \/ pc = 11 \/ pc = 12)%nat) \/
     (l = ProcLock t /\ (3 <= pc <= 8)%nat))
  else
    (l = lk /\ (1 <= pc <= 2 + 3 * NPROC)%nat) \/
    (exists j, l = ProcLock j /\ j <> t /\ (j < NPROC)%nat /\ (pc = 2 + 3 * j + 1 \/ pc = 2 + 3 * j + 2)%nat).

(** The state of a thread's process at a program point. *)
Definition local (th : thread) (p : proc) : Prop :=
  let pc := th_pc th in
  (th_parked th = true -> th_waits th = true /\ pc = 7%nat /\ (p_state p = SLEEPING \/ p_state p = RUNNABLE)) /\
  (th_parked th = false -> if bool_decide (th_waits th = true /\ pc = 6%nat) then p_state p = SLEEPING else p_state p = RUNNING) /\
  (th_waits th = true -> (5 <= pc <= 7)%nat -> p_chan p = ch).

(** A waiter that has seen the condition false and has not been woken since. *)
Definition dozing (th : thread) (p : proc) : Prop :=
  th_waits th = true /\
  ((4 <= th_pc th <= 6)%nat \/ (th_parked th = true /\ p_state p = SLEEPING)).

(** A waker that has set the condition and has yet to visit process [t]. *)
Definition will_visit (t : nat) (th : thread) : Prop :=
  th_waits th = false /\ (2 <= th_pc th <= 2 + 3 * t + 1)%nat.

Record inv (s : sys) : Prop := {
  iv_len : length (sy_procs s) = NPROC;
  iv_threads : (length (sy_threads s) <= NPROC)%nat;
  iv_own : forall l t, sy_own s !! l = Some t <-> exists th, sy_threads s !! t = Some th /\ holds t th l;
  iv_local : forall t th p, sy_threads s !! t = Some th -> sy_procs s !! t = Some p -> local th p;
  iv_test : forall t th, sy_threads s !! t = Some th -> th_waits th = true ->
    (th_pc th = 2 \/ th_pc th = 3)%nat -> sy_cond s = false;
  iv_key : forall t th p, sy_threads s !! t = Some th -> sy_procs s !! t = Some p -> dozing th p ->
    sy_cond s = true -> exists w thw, sy_threads s !! w = Some thw /\ will_visit t thw }.

Context (Hlk : forall x, lk <> ProcLock x).

(** How a step of [t] may change the ownership of locks. *)
Inductive own_rel (t : nat) (th th' : thread) (own : gmap lockid nat) : gmap lockid nat -> Prop :=
| or_same : (forall x, holds t th' x <-> holds t th x) -> own_rel t th th' own own
| or_acquire l : own !! l = None -> (forall x, holds t th' x <-> x = l \/ holds t th x) ->
    own_rel t th th' own (<[l := t]> own)
| or_release l : holds t th l -> (forall x, holds t th' x <-> x <> l /\ holds t th x) ->
    own_rel t th th' own (delete l own).

Lemma own_step s t th th' own' : inv s -> sy_threads s !! t = Some th ->
  own_rel t th th' (sy_own s) own' ->
  forall l u, own' !! l = Some u <-> exists thu, <[t := th']> (sy_threads s) !! u = Some thu /\ holds u thu l.
Proof.
  intros Hi Ht Ho l u. pose proof (iv_own _ Hi) as HO. pose proof (lookup_lt_Some _ _ _ Ht) as Hlt.
  assert (Hme : forall x, sy_own s !! x = Some t <-> holds t th x).
  { intros x. rewrite HO. split; [intros (? & ? & ?); by simplify_eq | eauto]. }
  destruct (decide (u = t)) as [-> | Hne].
  - rewrite list_lookup_insert_eq by done. transitivity (holds t th' l); [| split; [eauto | intros (? & ? & ?); by simplify_eq]].
    destruct Ho as [H | l' Hn H | l' Hl H]; rewrite H, <- ?Hme; [done | ..].
    + destruct (decide (l = l')) as [-> |]; [rewrite lookup_insert_eq; tauto |]. rewrite lookup_insert_ne by done. tauto.
    + destruct (decide (l = l')) as [-> |]; [rewrite lookup_delete_eq; naive_solver |]. rewrite lookup_delete_ne by done. tauto.
  - rewrite list_lookup_insert_ne by done. rewrite <- HO.
    destruct Ho as [H | l' Hn H | l' Hl H]; [done | ..].
    + destruct (decide (l = l')) as [-> |]; [rewrite lookup_insert_eq; naive_solver |]. by rewrite lookup_insert_ne.
    + apply Hme in Hl. destruct (decide (l = l')) as [-> |]; [rewrite lookup_delete_eq; naive_solver |].
      by rewrite lookup_delete_ne.
Qed.

(** A step of [t] that touches only its own process. *)
Lemma inv_upd s t th th' own' p p' c' : inv s -> sy_threads s !! t = Some th -> th_waits th' = th_waits th ->
  own_rel t th th' (sy_own s) own' -> sy_procs s !! t = Some p -> local th' p' ->
  (c' = sy_cond s \/ holds t th lk) ->
  (th_waits th = true -> (th_pc th' = 2 \/ th_pc th' = 3)%nat -> c' = false) ->
  (dozing th' p' -> c' = true -> dozing th p /\ sy_cond s = true) ->
  (c' = true -> sy_cond s = true \/ (th_waits th = false /\ th_pc th' = 2%nat)) ->
  (forall u thu, sy_threads s !! u = Some thu -> th_waits thu = true -> will_visit u th -> will_visit u th') ->
  inv (mkSys own' (<[t := p']> (sy_procs s)) c' (<[t := th']> (sy_threads s))).
Proof.
  intros Hi Ht Hw Ho Hp Hl Hc Htest Hdz Hset Hv. pose proof (lookup_lt_Some _ _ _ Ht) as Hlt.
  pose proof (lookup_lt_Some _ _ _ Hp) as Hlp. split; cbn [sy_procs sy_own sy_threads sy_cond].
  - rewrite length_insert. apply Hi.
  - rewrite length_insert. apply Hi.
  - by eapply own_step.
  - intros u thu pu. destruct (decide (u = t)) as [-> |].
    + rewrite !list_lookup_insert_eq by done. intros. by simplify_eq.
    + rewrite !list_lookup_insert_ne by done. apply Hi.
  - intros u thu. destruct (decide (u = t)) as [-> | Hne].
    + rewrite list_lookup_insert_eq by done. intros ? Hwu Hpc. simplify_eq. apply Htest; [congruence | done].
    + rewrite list_lookup_insert_ne by done. intros Hu Hwu Hpc. pose proof (iv_test _ Hi _ _ Hu Hwu Hpc).
      destruct Hc as [-> | Hh]; [done |]. exfalso. apply Hne.
      assert (sy_own s !! lk = Some t) by (apply (iv_own _ Hi); eauto).
      assert (sy_own s !! lk = Some u); [| congruence]. apply (iv_own _ Hi). exists thu. split; [done |].
      unfold holds. rewrite Hwu. destruct (iv_local _ Hi u thu) with (p := default p (sy_procs s !! u)) as (Hpk & _ & _);
        [done | destruct (sy_procs s !! u) eqn:E; [done |] | destruct (th_parked thu); [lia | tauto]].
      apply lookup_ge_None in E. pose proof (lookup_lt_Some _ _ _ Hu). pose proof (iv_threads _ Hi).
      rewrite (iv_len _ Hi) in E. lia.
  - intros u thu pu Hu Hpu Hd Hct.
    assert (Hold : exists thu0 pu0, sy_threads s !! u = Some thu0 /\ sy_procs s !! u = Some pu0 /\
      th_waits thu0 = true /\ (sy_cond s = true -> dozing thu0 pu0)).
    { destruct (decide (u = t)) as [-> |].
      - rewrite list_lookup_insert_eq in Hu by done. rewrite list_lookup_insert_eq in Hpu by done. simplify_eq. exists th, p. split_and!; try done.
        + rewrite <- Hw. apply Hd.
        + intros _. by apply Hdz.
      - rewrite list_lookup_insert_ne in Hu by done. rewrite list_lookup_insert_ne in Hpu by done. exists thu, pu. split_and!; try done. apply Hd. }
    destruct Hold as (thu0 & pu0 & Hu0 & Hpu0 & Hwu0 & Hd0).
    destruct (Hset Hct) as [Hcs | [Hwf Hpc2]].
    + destruct (iv_key _ Hi u thu0 pu0 Hu0 Hpu0 (Hd0 Hcs) Hcs) as (w & thw & Hthw & Hvis).
      destruct (decide (w = t)) as [-> |].
      * exists t, th'. rewrite list_lookup_insert_eq by done. split; [done |]. simplify_eq. by eapply Hv.
      * exists w, thw. by rewrite list_lookup_insert_ne.
    + exists t, th'. rewrite list_lookup_insert_eq by done. split; [done |]. split; [congruence | lia].
Qed.

Lemma alter_id_list {A} (l : list A) t x : l !! t = Some x -> <[t := x]> l = l.
Proof. apply list_insert_id. Qed.

Lemma alter_insert_list {A} (f : A -> A) (l : list A) t x : l !! t = Some x -> alter f t l = <[t := f x]> l.
Proof.
  intros H. pose proof (lookup_lt_Some _ _ _ H). apply list_eq. intros j. destruct (decide (t = j)) as [<- |].
  - by rewrite list_lookup_alter_eq, H, list_lookup_insert_eq.
  - by rewrite list_lookup_alter_ne, list_lookup_insert_ne.
Qed.

(** Case analysis on program points. *)
Ltac pc_solve :=
  simpl in *; intuition (try congruence; try lia;
    try match goal with H : _ -> _ -> p_chan _ = _ |- p_chan _ = _ => apply H; lia end).

Ltac own_solve t :=
  let x := fresh "x" in let Hx := fresh "Hx" in
  intros x; pose proof (Hlk t) as Hx; clear - Hx; unfold holds; pc_solve.

(** The side conditions of [inv_upd] for a step of a waiter. *)
Ltac upd_solve :=
  lazymatch goal with
  | |- own_rel ?t _ _ _ (<[_ := _]> _) => apply or_acquire; [done | own_solve t]
  | |- own_rel ?t _ _ _ (delete _ _) => apply or_release; [unfold holds; pc_solve | own_solve t]
  | |- own_rel ?t _ _ _ _ => apply or_same; own_solve t
  | Hloc : local _ _ |- local _ _ => clear - Hloc; unfold local in *; pc_solve
  | |- dozing _ _ -> _ => unfold dozing; pc_solve
  | |- forall u thu, _ -> _ -> will_visit _ _ -> _ => unfold will_visit; pc_solve
  | |- _ => unfold holds; pc_solve
  end.

(** The steps of a waiter. *)
Lemma waiter_inv s t th s' : inv s -> sy_threads s !! t = Some th -> th_waits th = true ->
  tstep t s = Some s' -> inv s'.
Proof.
  intros Hi Ht Hw Hst. unfold tstep in Hst. rewrite Ht in Hst.
  destruct (lookup_lt_is_Some_2 (sy_procs s) t) as [p Hp].
  { rewrite (iv_len _ Hi). pose proof (lookup_lt_Some _ _ _ Ht). pose proof (iv_threads _ Hi). lia. }
  pose proof (iv_local _ Hi t th p Ht Hp) as Hloc. pose proof (iv_test _ Hi t th Ht Hw) as Htest.
  pose proof (iv_own _ Hi) as HO.
  assert (Hdz : dozing th p -> dozing th p) by done.
  destruct th as [w pc pk]. cbn [th_waits th_parked th_pc] in *. subst w.
  destruct pk.
  - unfold resume in Hst. rewrite Hp in Hst. pose proof Hloc as (Hpk & _ & Hch). simpl in Hpk, Hch.
    destruct (Hpk eq_refl) as (_ & -> & _).
    case_bool_decide as Ho; [| done]. case_bool_decide as Hr; [| done]. simplify_eq/=.
    rewrite (alter_insert_list _ _ _ _ Hp). eapply inv_upd; [done | done | done | | exact Hp | ..].
    all: upd_solve.
  - clear Hdz. unfold prog in Hst. cbn [th_waits] in Hst.
    destruct pc as [|[|[|[|[|[|[|[|[|[|[|[|[| pc]]]]]]]]]]]]]; cbn in Hst; try discriminate Hst;
      try (case_bool_decide; [| discriminate Hst]); injection Hst as <-;
      (rewrite (alter_insert_list _ _ _ _ Hp) || rewrite <- (alter_id_list _ _ _ Hp));
      try destruct (sy_cond s) eqn:Hc;
      (eapply inv_upd; [done | done | done | | exact Hp | ..]); rewrite ?Hc.
    all: upd_solve.
Qed.

(** ** The steps of a waker *)

Lemma length_visit me j : length (visit me ch j) = 3%nat.
Proof. unfold visit. by case_bool_decide. Qed.

Lemma wakeup_code_lookup me : forall n i j ph, (j < n)%nat -> (ph < 3)%nat ->
  wakeup_code me ch n i !! (3 * j + ph)%nat = visit me ch (i + j) !! ph.
Proof.
  induction n as [| n IH]; intros i j ph Hj Hph; [lia |].
  change (wakeup_code me ch (S n) i) with (visit me ch i ++ wakeup_code me ch n (S i)).
  destruct j as [| j].
  - rewrite lookup_app_l by (rewrite length_visit; lia). by rewrite Nat.add_0_r.
  - rewrite lookup_app_r by (rewrite length_visit; lia). rewrite length_visit.
    replace (3 * S j + ph - 3)%nat with (3 * j + ph)%nat by lia. rewrite IH by lia. by rewrite Nat.add_succ_r.
Qed.

Lemma length_wakeup_code me : forall n i, length (wakeup_code me ch n i) = (3 * n)%nat.
Proof.
  induction n as [| n IH]; intros i; [done |].
  change (wakeup_code me ch (S n) i) with (visit me ch i ++ wakeup_code me ch n (S i)).
  rewrite length_app, length_visit, IH. lia.
Qed.

(** The program points of a waker. *)
Inductive kpoint (t pc : nat) (i : instr) : Prop :=
| kp_acquire : pc = 0%nat -> i = IAcquire lk -> kpoint t pc i
| kp_set : pc = 1%nat -> i = ISetCond true -> kpoint t pc i
| kp_visit j ph : pc = (2 + 3 * j + ph)%nat -> (j < NPROC)%nat -> (ph < 3)%nat ->
    visit t ch j !! ph = Some i -> kpoint t pc i
| kp_release : pc = (2 + 3 * NPROC)%nat -> i = IRelease lk -> kpoint t pc i.

Lemma waker_fetch t pc i : waker_prog t !! pc = Some i -> kpoint t pc i.
Proof.
  intros H. destruct pc as [| [| pc]]; [injection H as <-; by apply kp_acquire | injection H as <-; by apply kp_set |].
  unfold waker_prog in H. rewrite lookup_app_r in H by (simpl; lia). simpl length in H.
  replace (S (S pc) - 2)%nat with pc in H by lia.
  destruct (decide (pc < 3 * NPROC)%nat) as [Hlt | Hge].
  - rewrite lookup_app_l in H by (by rewrite length_wakeup_code).
    pose proof (Nat.div_mod_eq pc 3) as E. pose proof (Nat.mod_upper_bound pc 3).
    assert (Hj : (pc / 3 < NPROC)%nat) by (apply Nat.Div0.div_lt_upper_bound; lia).
    rewrite E, wakeup_code_lookup in H by lia. apply (kp_visit t _ i (pc / 3) (pc mod 3)); [lia | done | lia | done].
  - rewrite lookup_app_r, length_wakeup_code in H by (rewrite length_wakeup_code; lia).
    apply list_lookup_singleton_Some in H as [Hz <-]. apply kp_release; [lia | done].
Qed.

Lemma holds_waker t pc l : holds t (mkThread false pc false) l <->
  (l = lk /\ (1 <= pc <= 2 + 3 * NPROC)%nat) \/
  (exists j, l = ProcLock j /\ j <> t /\ (j < NPROC)%nat /\ (pc = 2 + 3 * j + 1 \/ pc = 2 + 3 * j + 2)%nat).
Proof. done. Qed.

(** Waking a process whose lock is held by somebody else. *)
Lemma wake_local th p : local th p ->
  (th_waits th = true -> (3 <= th_pc th <= 8)%nat -> th_parked th = true) ->
  local th (if bool_decide (p_state p = SLEEPING) && bool_decide (p_chan p = ch) then set_state RUNNABLE p else p).
Proof.
  intros Hl Hf. case_bool_decide as Hs; [| done]. case_bool_decide as Hc; [| done]. simpl.
  destruct Hl as (H1 & H2 & H3). split; [| split].
  - intros Hpk. destruct (H1 Hpk) as (? & ? & ?). simpl. tauto.
  - intros Hpk. exfalso. specialize (H2 Hpk). case_bool_decide as Hb; [| congruence].
    destruct Hb as [Hw Hpc]. rewrite Hf in Hpk; [done | done | lia].
  - done.
Qed.

Lemma wake_not_dozing th p : local th p ->
  (th_waits th = true -> (3 <= th_pc th <= 8)%nat -> th_parked th = true) ->
  ~ dozing th (if bool_decide (p_state p = SLEEPING) && bool_decide (p_chan p = ch) then set_state RUNNABLE p else p).
Proof.
  intros (H1 & H2 & H3) Hf [Hw Hd].
  assert (Hpk : th_parked th = true) by (destruct Hd as [? | [? _]]; [apply Hf; [done | lia] | done]).
  destruct (H1 Hpk) as (_ & Hpc & _). destruct Hd as [? | [_ Hs]]; [lia |].
  rewrite (bool_decide_eq_true_2 (p_chan p = ch)) in Hs by (apply H3; [done | lia]).
  case_bool_decide; simpl in Hs; congruence.
Qed.

(** The visit of process [j], whose lock the waker holds. *)
Lemma wakeif_inv s t j : inv s -> sy_threads s !! t = Some (mkThread false (2 + 3 * j + 1) false) ->
  (j < NPROC)%nat -> j <> t ->
  inv (mkSys (sy_own s)
    (alter (fun p => if bool_decide (p_state p = SLEEPING) && bool_decide (p_chan p = ch)
                     then set_state RUNNABLE p else p) j (sy_procs s))
    (sy_cond s) (<[t := mkThread false (2 + 3 * j + 2) false]> (sy_threads s))).
Proof.
  intros Hi Ht Hj Hne. set (f := fun p : proc => _). pose proof (lookup_lt_Some _ _ _ Ht) as Hlt.
  assert (Hown : sy_own s !! ProcLock j = Some t).
  { apply (iv_own _ Hi). eexists. split; [done |]. apply holds_waker. right. exists j. split_and!; (done || lia). }
  assert (Hfree : forall th, sy_threads s !! j = Some th -> th_waits th = true -> (3 <= th_pc th <= 8)%nat -> th_parked th = true).
  { intros th Hth Hw Hpc. destruct (th_parked th) eqn:E; [done |].
    assert (sy_own s !! ProcLock j = Some j); [| congruence]. apply (iv_own _ Hi). exists th. split; [done |].
    unfold holds. rewrite Hw, E. tauto. }
  split; cbn [sy_procs sy_own sy_threads sy_cond].
  - rewrite length_alter. apply Hi.
  - rewrite length_insert. apply Hi.
  - eapply own_step; [done | done |]. apply or_same. intros x. rewrite !holds_waker. naive_solver lia.
  - intros u th p Hu Hp. destruct (decide (u = t)) as [-> | Hut].
    + rewrite list_lookup_insert_eq in Hu by done. rewrite list_lookup_alter_ne in Hp by done. simplify_eq.
      pose proof (iv_local _ Hi _ _ _ Ht Hp) as Hl. unfold local in *. pc_solve.
    + rewrite list_lookup_insert_ne in Hu by done. destruct (decide (u = j)) as [-> | Huj].
      * rewrite list_lookup_alter_eq in Hp. destruct (sy_procs s !! j) as [p0 |] eqn:E; [| done]. simplify_eq/=.
        pose proof (iv_local _ Hi _ _ _ Hu E) as Hl. apply wake_local; [done |]. by apply Hfree.
      * rewrite list_lookup_alter_ne in Hp by done. by eapply (iv_local _ Hi).
  - intros u th Hu Hw Hpc. destruct (decide (u = t)) as [-> | Hut].
    + rewrite list_lookup_insert_eq in Hu by done. by simplify_eq.
    + rewrite list_lookup_insert_ne in Hu by done. by eapply (iv_test _ Hi).
  - intros u th p Hu Hp Hd Hc. destruct (decide (u = t)) as [-> | Hut].
    { rewrite list_lookup_insert_eq in Hu by done. simplify_eq. by destruct Hd. }
    rewrite list_lookup_insert_ne in Hu by done. destruct (decide (u = j)) as [-> | Huj].
    + exfalso. rewrite list_lookup_alter_eq in Hp. destruct (sy_procs s !! j) as [p0 |] eqn:E; [| done]. simplify_eq/=.
      pose proof (iv_local _ Hi _ _ _ Hu E) as Hl. by eapply wake_not_dozing, Hd; [| apply Hfree].
    + rewrite list_lookup_alter_ne in Hp by done.
      destruct (iv_key _ Hi u th p Hu Hp Hd Hc) as (w & thw & Hthw & Hv).
      destruct (decide (w = t)) as [-> |].
      * eexists t, _. rewrite list_lookup_insert_eq by done. split; [done |]. simplify_eq.
        destruct Hv as [_ Hv]. split; [done |]. simpl in *. lia.
      * exists w, thw. by rewrite list_lookup_insert_ne.
Qed.

Lemma waker_upd s t pc pc' own' c' p : inv s -> sy_threads s !! t = Some (mkThread false pc false) ->
  sy_procs s !! t = Some p ->
  own_rel t (mkThread false pc false) (mkThread false pc' false) (sy_own s) own' ->
  (c' = sy_cond s \/ (c' = true /\ pc = 1 /\ pc' = 2))%nat ->
  (forall u thu, sy_threads s !! u = Some thu -> th_waits thu = true ->
    (2 <= pc <= 2 + 3 * u + 1 -> 2 <= pc' <= 2 + 3 * u + 1)%nat) ->
  inv (mkSys own' (sy_procs s) c' (<[t := mkThread false pc' false]> (sy_threads s))).
Proof.
  intros Hi Ht Hp Ho Hc Hv. pose proof (iv_local _ Hi _ _ _ Ht Hp) as Hloc.
  rewrite <- (alter_id_list (sy_procs s) _ _ Hp).
  eapply inv_upd; [done | exact Ht | done | exact Ho | exact Hp | ..].
  - unfold local in *. pc_solve.
  - destruct Hc as [-> | (_ & -> & _)]; [by left |]. right. apply holds_waker. left. split; [done | lia].
  - done.
  - by intros [? _].
  - intros ->. destruct Hc as [<- | (_ & _ & ->)]; [by left | by right].
  - intros u thu Hu Hw [_ Hpc]. split; [done |]. by eapply Hv.
Qed.

(** The locks of a waker before and after a step. *)
Ltac kfin :=
  exfalso; first
  [ by eapply Hlk | lia | congruence
  | match goal with H : ProcLock _ <> ProcLock _ |- _ => apply H; f_equal; lia end ].
Ltac kgo :=
  first
  [ done | lia | f_equal; lia | intros ?; simplify_eq; lia
  | split; kgo
  | left; kgo
  | right; kgo
  | eexists; split_and!; [done | (done || congruence) | done | lia] ].
Ltac kown :=
  intros x; rewrite !holds_waker; unfold NPROC in *; split; intros;
  repeat match goal with
  | H : exists _, _ |- _ => destruct H
  | H : _ /\ _ |- _ => destruct H
  | H : _ \/ _ |- _ => destruct H
  end; simplify_eq; try kfin; try kgo.

(** The steps of a waker. *)
Lemma waker_inv s t th s' : inv s -> sy_threads s !! t = Some th -> th_waits th = false ->
  tstep t s = Some s' -> inv s'.
Proof.
  intros Hi Ht Hw Hst. unfold tstep in Hst. rewrite Ht in Hst.
  destruct (lookup_lt_is_Some_2 (sy_procs s) t) as [p Hp].
  { rewrite (iv_len _ Hi). pose proof (lookup_lt_Some _ _ _ Ht). pose proof (iv_threads _ Hi). lia. }
  pose proof (iv_local _ Hi t th p Ht Hp) as Hloc. destruct th as [w pc pk]. simpl in Hw. subst w.
  assert (pk = false) as -> by (destruct pk; [destruct Hloc as [H _]; by destruct H | done]).
  cbn [th_parked th_waits th_pc prog] in Hst.
  assert (Hu : forall u thu, sy_threads s !! u = Some thu -> th_waits thu = true -> (u < NPROC)%nat /\ u <> t).
  { intros u thu Hu Hwu. split; [| intros ->; by simplify_eq]. pose proof (lookup_lt_Some _ _ _ Hu).
    pose proof (iv_threads _ Hi). lia. }
  destruct (waker_prog t !! pc) as [i |] eqn:Hi0; [| done]. apply waker_fetch in Hi0.
  destruct Hi0 as [-> -> | -> -> | j ph -> Hj Hph Hv | -> ->].
  - cbn in Hst. case_bool_decide; [| done]. injection Hst as <-.
    eapply waker_upd; [done | done | done | | by left | lia].
    apply or_acquire; [done |]. kown.
  - injection Hst as <-. eapply waker_upd; [done | done | done | | by right | lia].
    apply or_same. kown.
  - unfold visit in Hv. case_bool_decide as Hjt.
    + subst j. assert (i = INop) as -> by (destruct ph as [| [| [|]]]; by simplify_eq/=). injection Hst as <-.
      eapply waker_upd; [done | done | done | | by left |].
      * apply or_same. kown.
      * intros u thu Hthu Hwu. destruct (Hu u thu Hthu Hwu). lia.
    + destruct ph as [| [| [| ph]]]; [| | | lia]; injection Hv as <-; unfold exec in Hst.
      * case_bool_decide; [| done]. injection Hst as <-. eapply waker_upd; [done | done | done | | by left | lia].
        apply or_acquire; [done |]. kown.
      * replace (S (2 + 3 * j + 1))%nat with (2 + 3 * j + 2)%nat in Hst by lia. simplify_eq. by apply wakeif_inv.
      * case_bool_decide; [| done]. injection Hst as <-. eapply waker_upd; [done | done | done | | by left | ].
        -- apply or_release; [apply holds_waker; naive_solver lia |]. kown.
        -- intros u thu Hthu Hwu. destruct (Hu u thu Hthu Hwu). lia.
  - unfold exec in Hst. case_bool_decide; [| done]. injection Hst as <-.
    eapply waker_upd; [done | done | done | | by left |].
    + apply or_release; [apply holds_waker; left; split; [done | lia] |]. kown.
    + intros u thu Hthu Hwu. destruct (Hu u thu Hthu Hwu). lia.
Qed.

Lemma sys0_inv ws c : (length ws <= NPROC)%nat -> inv (sys0 ws c).
Proof.
  intros Hlen. unfold sys0. split; cbn [sy_procs sy_own sy_threads sy_cond].
  - apply length_replicate.
  - by rewrite length_fmap.
  - intros l t. rewrite lookup_empty. split; [done |]. intros (th & Hth & Hh).
    apply list_lookup_fmap_Some in Hth as (w & -> & _). exfalso. destruct w; unfold holds in Hh; simpl in Hh; [lia |].
    destruct Hh as [[_ ?] | (j & _ & _ & _ & ?)]; lia.
  - intros t th p Hth Hp. apply list_lookup_fmap_Some in Hth as (w & -> & _).
    apply lookup_replicate in Hp as [-> _]. unfold local. simpl. rewrite bool_decide_eq_false_2 by (intros [_ ?]; lia).
    split_and!; [done | done | lia].
  - intros t th Hth _ Hpc. apply list_lookup_fmap_Some in Hth as (w & -> & _). simpl in Hpc. lia.
  - intros t th p Hth Hp [_ Hd]. apply list_lookup_fmap_Some in Hth as (w & -> & _). simpl in Hd. intuition lia.
Qed.

Lemma reachable_inv s : reachable s -> inv s.
Proof.
  induction 1 as [ws c Hlen | s t s' Hs IH Hst]; [by apply sys0_inv |].
  destruct (sy_threads s !! t) as [th |] eqn:Ht; [| unfold tstep in Hst; by rewrite Ht in Hst].
  destruct (th_waits th) eqn:Hw; [by eapply waiter_inv | by eapply waker_inv].
Qed.

(** What the code of a thread holds when it releases a lock or calls [sched]. *)
Lemma release_holds t th l : th_parked th = false -> prog t th !! th_pc th = Some (IRelease l) -> holds t th l.
Proof.
  destruct th as [[] pc pk]; cbn [th_waits th_pc th_parked prog]; intros -> Hf.
  - destruct pc as [|[|[|[|[|[|[|[|[|[|[|[|[| pc]]]]]]]]]]]]]; simplify_eq/=; unfold holds; simpl; intuition lia.
  - apply holds_waker. apply waker_fetch in Hf as [? E | ? E | j ph -> Hj Hph Hv | -> E]; simplify_eq.
    + unfold visit in Hv. case_bool_decide; destruct ph as [| [| [| ph]]]; simplify_eq/=.
      right. exists j. split_and!; (done || lia).
    + left. split; [done | lia].
Qed.

Lemma sched_holds t th l : th_parked th = false -> prog t th !! th_pc th = Some ISched ->
  holds t th l <-> l = ProcLock t.
Proof.
  destruct th as [[] pc pk]; cbn [th_waits th_pc th_parked prog]; intros -> Hf.
  - destruct pc as [|[|[|[|[|[|[|[|[|[|[|[|[| pc]]]]]]]]]]]]]; simplify_eq/=; unfold holds; simpl; intuition lia.
  - apply waker_fetch in Hf as [? E | ? E | j ph -> Hj Hph Hv | -> E]; simplify_eq.
    unfold visit in Hv. case_bool_decide; destruct ph as [| [| [| ph]]]; simplify_eq/=.
Qed.

Lemma will_visit_code t w thw : will_visit t thw -> (t < NPROC)%nat -> t <> w ->
  IWakeIf t ch ∈ drop (th_pc thw) (prog w thw).
Proof.
  intros [Hk Hpc] Ht Hne. unfold prog. rewrite Hk. apply list_elem_of_lookup.
  exists (2 + 3 * t + 1 - th_pc thw)%nat. rewrite lookup_drop.
  replace (th_pc thw + (2 + 3 * t + 1 - th_pc thw))%nat with (2 + (3 * t + 1))%nat by lia.
  unfold waker_prog. rewrite lookup_app_r by (simpl; lia). simpl length.
  replace (2 + (3 * t + 1) - 2)%nat with (3 * t + 1)%nat by lia.
  rewrite lookup_app_l by (rewrite length_wakeup_code; lia). rewrite wakeup_code_lookup by lia.
  unfold visit. by rewrite bool_decide_eq_false_2.
Qed.

End Threads.

(** Run a schedule: the listed threads step in turn. *)
Fixpoint schedule (ch : chan) (lk : lockid) (ts : list nat) (s : sys) : option sys :=
  match ts with
  | [] => Some s
  | t :: ts => match tstep ch lk t s with Some s' => schedule ch lk ts s' | None => None end
  end.

Lemma schedule_reachable ch lk ts : forall s s', reachable ch lk s -> schedule ch lk ts s = Some s' -> reachable ch lk s'.
Proof.
  induction ts as [| t ts IH]; intros s s' Hs; cbn [schedule]; [by intros [= <-] |].
  destruct (tstep ch lk t s) as [s1 |] eqn:E; [| done]. apply IH. by eapply reach_step.
Qed.

(** A waiter has gone to sleep and a waker has just set the condition. *)
Definition example_sys : sys :=
  default (sys0 [] false)
    (schedule ChTicks TicksLock (replicate 7 0%nat ++ [1; 1; 1]%nat) (sys0 [true; false] false)).

Lemma example_reachable : reachable ChTicks TicksLock example_sys.
Proof.
  apply (schedule_reachable _ _ (replicate 7 0%nat ++ [1; 1; 1]%nat) (sys0 [true; false] false)).
  - apply reach_init. vm_compute. lia.
  - vm_compute. reflexivity.
Qed.

(** C13: No wakeup is lost. In every state that any number of waiters and wakers
    can reach, on any number of harts and in any interleaving: a waiter that is
    asleep although the condition holds is still to be visited by a waker, which
    has set the condition and holds the lock. So once the lock is free nobody
    sleeps on a true condition. Moreover every [release] is executed by the
    holder of the lock, and a thread enters the scheduler holding exactly the
    lock of its process. *)
Theorem no_lost_wakeup (ch : chan) (lk : lockid) (Hlk : forall x, lk <> ProcLock x) (s : sys)
    (Hs : reachable ch lk s) (t : nat) (th : thread) (p : proc)
    (Ht : sy_threads s !! t = Some th) (Hp : sy_procs s !! t = Some p) :
  (th_parked th = true -> p_state p = SLEEPING -> sy_cond s = true ->
     exists w thw, sy_threads s !! w = Some thw /\ th_waits thw = false /\
       sy_own s !! lk = Some w /\ IWakeIf t ch ∈ drop (th_pc thw) (prog ch lk w thw)) /\
  (forall l, th_parked th = false -> prog ch lk t th !! th_pc th = Some (IRelease l) -> sy_own s !! l = Some t) /\
  (th_parked th = false -> prog ch lk t th !! th_pc th = Some ISched ->
     forall l, sy_own s !! l = Some t <-> l = ProcLock t).
Proof.
  pose proof (reachable_inv ch lk Hlk s Hs) as Hi. split_and!.
  - intros Hpk Hst Hc. destruct (iv_key _ _ _ Hi t th p Ht Hp) as (w & thw & Hw & Hk & Hpc).
    + split; [| by right]. destruct (iv_local _ _ _ Hi _ _ _ Ht Hp) as [H _]. by apply H.
    + done.
    + exists w, thw. split_and!; [done | done | |].
      * apply (iv_own _ _ _ Hi). exists thw. split; [done |]. unfold holds. rewrite Hk. left. split; [done |].
        pose proof (lookup_lt_Some _ _ _ Hp). rewrite (iv_len _ _ _ Hi) in *. lia.
      * apply will_visit_code; [done | rewrite <- (iv_len _ _ _ Hi); by eapply lookup_lt_Some |].
        intros ->. simplify_eq. destruct (iv_local _ _ _ Hi _ _ _ Ht Hp) as [H _]. destruct (H Hpk). congruence.
  - intros l Hpk Hf. apply (iv_own _ _ _ Hi). exists th. split; [done |]. by eapply release_holds.
  - intros Hpk Hf l. rewrite (iv_own _ _ _ Hi). split.
    + intros (th' & Ht' & Hh). simplify_eq. by eapply sched_holds.
    + intros ->. exists th. split; [done |]. by eapply sched_holds.
Qed.

Lemma no_lost_wakeup_witness :
  exists w thw, sy_threads example_sys !! w = Some thw /\ th_waits thw = false /\ sy_own example_sys !! TicksLock = Some w.
Proof.
  destruct (no_lost_wakeup ChTicks TicksLock ltac:(discriminate) example_sys example_reachable 0%nat
    (mkThread true 7 true) (set_state SLEEPING (set_chan ChTicks (set_state RUNNING proc0))))
    as [H _]; [vm_compute; reflexivity | vm_compute; reflexivity |].
  destruct H as (w & thw & H1 & H2 & H3 & _); [reflexivity | reflexivity | vm_compute; reflexivity |].
  exists w, thw. split; [exact H1 |]. split; [exact H2 | exact H3].
Defined.
