(* ===== verification/State.v ===== *)
(** * The kernel's global variables

    Everything above the process table: the buffer cache (kernel/bio.c), the log
    (kernel/log.c), the super block and inode table (kernel/fs.c), open files and
    pipes (kernel/file.c, kernel/pipe.c), console, UART and printf state
    (kernel/console.c, kernel/uart.c, kernel/printf.c), and the disk driver
    (kernel/virtio_disk.c). A pointer to an element of a table is its index. The
    platform's devices are a parameter, reached through memory-mapped registers. *)

From S2P Require Import Prelude Riscv Mem StringLib Spinlock Kalloc Vm Proc.

(** ** Devices *)

(** The devices of the platform, and what a load or store of one of their
    registers does. *)
Class Platform := {
  dev : Type;
  mmio_rd : Z -> dev -> Z * dev;
  mmio_wr : Z -> Z -> dev -> dev }.

(** How many times a loop that waits may go round before the model gives up. *)
Class Patience := patience : nat.

(** What an uninitialised local array of [n] elements holds. *)
Class Uninit := uninit : nat -> list Z.

(** ** File-system constants (kernel/fs.h) *)

Definition ROOTINO : Z := 1.
Definition BSIZE : Z := 1024.
Definition FSMAGIC : Z := 0x10203040.
Definition NDIRECT : Z := 12.
Definition NINDIRECT : Z := BSIZE / 4.
Definition MAXFILE : Z := NDIRECT + NINDIRECT.
Definition dinode_size : Z := 64.
Definition IPB : Z := BSIZE / dinode_size.
Definition BPB : Z := BSIZE * 8.
Definition DIRSIZ : Z := 14.
Definition dirent_size : Z := 16.

(** ** Sleep locks and buffers *)

(** kernel/sleeplock.h; the spin lock [lk] in it is named by its owner. *)
Record sleeplock := mkSleeplock {
  sk_locked : Z;
  sk_name : string;
  sk_pid : Z }.
Definition set_sk_locked (x : Z) (s : sleeplock) : sleeplock :=
  mkSleeplock x (sk_name s) (sk_pid s).
Definition set_sk_name (x : string) (s : sleeplock) : sleeplock :=
  mkSleeplock (sk_locked s) x (sk_pid s).
Definition set_sk_pid (x : Z) (s : sleeplock) : sleeplock :=
  mkSleeplock (sk_locked s) (sk_name s) x.
Arguments set_sk_locked x s /.
Arguments set_sk_name x s /.
Arguments set_sk_pid x s /.

(** kernel/buf.h. [b_prev] and [b_next] are indices into the cache; index [NBUF] is [bcache.head]. *)
Record buf := mkBuf {
  b_valid : Z;
  b_disk : Z;
  b_dev : Z;
  b_blockno : Z;
  b_lock : sleeplock;
  b_refcnt : Z;
  b_prev : nat;
  b_next : nat;
  b_data : list Z }.
Definition set_b_valid (x : Z) (s : buf) : buf :=
  mkBuf x (b_disk s) (b_dev s) (b_blockno s) (b_lock s) (b_refcnt s) (b_prev s) (b_next s) (b_data s).
Definition set_b_disk (x : Z) (s : buf) : buf :=
  mkBuf (b_valid s) x (b_dev s) (b_blockno s) (b_lock s) (b_refcnt s) (b_prev s) (b_next s) (b_data
    s).
Definition set_b_dev (x : Z) (s : buf) : buf :=
  mkBuf (b_valid s) (b_disk s) x (b_blockno s) (b_lock s) (b_refcnt s) (b_prev s) (b_next s) (b_data
    s).
Definition set_b_blockno (x : Z) (s : buf) : buf :=
  mkBuf (b_valid s) (b_disk s) (b_dev s) x (b_lock s) (b_refcnt s) (b_prev s) (b_next s) (b_data s).
Definition set_b_lock (x : sleeplock) (s : buf) : buf :=
  mkBuf (b_valid s) (b_disk s) (b_dev s) (b_blockno s) x (b_refcnt s) (b_prev s) (b_next s) (b_data
    s).
Definition set_b_refcnt (x : Z) (s : buf) : buf :=
  mkBuf (b_valid s) (b_disk s) (b_dev s) (b_blockno s) (b_lock s) x (b_prev s) (b_next s) (b_data s).
Definition set_b_prev (x : nat) (s : buf) : buf :=
  mkBuf (b_valid s) (b_disk s) (b_dev s) (b_blockno s) (b_lock s) (b_refcnt s) x (b_next s) (b_data
    s).
Definition set_b_next (x : nat) (s : buf) : buf :=
  mkBuf (b_valid s) (b_disk s) (b_dev s) (b_blockno s) (b_lock s) (b_refcnt s) (b_prev s) x (b_data
    s).
Definition set_b_data (x : list Z) (s : buf) : buf :=
  mkBuf (b_valid s) (b_disk s) (b_dev s) (b_blockno s) (b_lock s) (b_refcnt s) (b_prev s) (b_next s)
    x.
Arguments set_b_valid x s /.
Arguments set_b_disk x s /.
Arguments set_b_dev x s /.
Arguments set_b_blockno x s /.
Arguments set_b_lock x s /.
Arguments set_b_refcnt x s /.
Arguments set_b_prev x s /.
Arguments set_b_next x s /.
Arguments set_b_data x s /.
Definition sleeplock0 : sleeplock := mkSleeplock 0 "" 0.
Definition buf0 : buf := mkBuf 0 0 0 0 sleeplock0 0 0 0 (replicate (Z.to_nat BSIZE) 0).

(** ** Log, super block, inodes *)

(** [struct log] of kernel/log.c, with its header [lh]. *)
Record log := mkLog {
  lg_start : Z;
  lg_size : Z;
  lg_outstanding : Z;
  lg_committing : Z;
  lg_dev : Z;
  lh_n : Z;
  lh_block : list Z }.
Definition set_lg_start (x : Z) (s : log) : log :=
  mkLog x (lg_size s) (lg_outstanding s) (lg_committing s) (lg_dev s) (lh_n s) (lh_block s).
Definition set_lg_size (x : Z) (s : log) : log :=
  mkLog (lg_start s) x (lg_outstanding s) (lg_committing s) (lg_dev s) (lh_n s) (lh_block s).
Definition set_lg_outstanding (x : Z) (s : log) : log :=
  mkLog (lg_start s) (lg_size s) x (lg_committing s) (lg_dev s) (lh_n s) (lh_block s).
Definition set_lg_committing (x : Z) (s : log) : log :=
  mkLog (lg_start s) (lg_size s) (lg_outstanding s) x (lg_dev s) (lh_n s) (lh_block s).
Definition set_lg_dev (x : Z) (s : log) : log :=
  mkLog (lg_start s) (lg_size s) (lg_outstanding s) (lg_committing s) x (lh_n s) (lh_block s).
Definition set_lh_n (x : Z) (s : log) : log :=
  mkLog (lg_start s) (lg_size s) (lg_outstanding s) (lg_committing s) (lg_dev s) x (lh_block s).
Definition set_lh_block (x : list Z) (s : log) : log :=
  mkLog (lg_start s) (lg_size s) (lg_outstanding s) (lg_committing s) (lg_dev s) (lh_n s) x.
Arguments set_lg_start x s /.
Arguments set_lg_size x s /.
Arguments set_lg_outstanding x s /.
Arguments set_lg_committing x s /.
Arguments set_lg_dev x s /.
Arguments set_lh_n x s /.
Arguments set_lh_block x s /.
Definition log0 : log := mkLog 0 0 0 0 0 0 (replicate (Z.to_nat LOGSIZE) 0).

Record superblock := mkSb {
  sb_magic : Z;
  sb_size : Z;
  sb_nblocks : Z;
  sb_ninodes : Z;
  sb_nlog : Z;
  sb_logstart : Z;
  sb_inodestart : Z;
  sb_bmapstart : Z }.
Definition set_sb_magic (x : Z) (s : superblock) : superblock :=
  mkSb x (sb_size s) (sb_nblocks s) (sb_ninodes s) (sb_nlog s) (sb_logstart s) (sb_inodestart s)
    (sb_bmapstart s).
Definition set_sb_size (x : Z) (s : superblock) : superblock :=
  mkSb (sb_magic s) x (sb_nblocks s) (sb_ninodes s) (sb_nlog s) (sb_logstart s) (sb_inodestart s)
    (sb_bmapstart s).
Definition set_sb_nblocks (x : Z) (s : superblock) : superblock :=
  mkSb (sb_magic s) (sb_size s) x (sb_ninodes s) (sb_nlog s) (sb_logstart s) (sb_inodestart s)
    (sb_bmapstart s).
Definition set_sb_ninodes (x : Z) (s : superblock) : superblock :=
  mkSb (sb_magic s) (sb_size s) (sb_nblocks s) x (sb_nlog s) (sb_logstart s) (sb_inodestart s)
    (sb_bmapstart s).
Definition set_sb_nlog (x : Z) (s : superblock) : superblock :=
  mkSb (sb_magic s) (sb_size s) (sb_nblocks s) (sb_ninodes s) x (sb_logstart s) (sb_inodestart s)
    (sb_bmapstart s).
Definition set_sb_logstart (x : Z) (s : superblock) : superblock :=
  mkSb (sb_magic s) (sb_size s) (sb_nblocks s) (sb_ninodes s) (sb_nlog s) x (sb_inodestart s)
    (sb_bmapstart s).
Definition set_sb_inodestart (x : Z) (s : superblock) : superblock :=
  mkSb (sb_magic s) (sb_size s) (sb_nblocks s) (sb_ninodes s) (sb_nlog s) (sb_logstart s) x
    (sb_bmapstart s).
Definition set_sb_bmapstart (x : Z) (s : superblock) : superblock :=
  mkSb (sb_magic s) (sb_size s) (sb_nblocks s) (sb_ninodes s) (sb_nlog s) (sb_logstart s)
    (sb_inodestart s) x.
Arguments set_sb_magic x s /.
Arguments set_sb_size x s /.
Arguments set_sb_nblocks x s /.
Arguments set_sb_ninodes x s /.
Arguments set_sb_nlog x s /.
Arguments set_sb_logstart x s /.
Arguments set_sb_inodestart x s /.
Arguments set_sb_bmapstart x s /.
Definition sb0 : superblock := mkSb 0 0 0 0 0 0 0 0.

(** The in-memory inode of kernel/file.h. *)
Record inode := mkInode {
  i_dev : Z;
  i_inum : Z;
  i_ref : Z;
  i_lock : sleeplock;
  i_valid : Z;
  i_type : Z;
  i_major : Z;
  i_minor : Z;
  i_nlink : Z;
  i_size : Z;
  i_addrs : list Z }.
Definition set_i_dev (x : Z) (s : inode) : inode :=
  mkInode x (i_inum s) (i_ref s) (i_lock s) (i_valid s) (i_type s) (i_major s) (i_minor s) (i_nlink s)
    (i_size s) (i_addrs s).
Definition set_i_inum (x : Z) (s : inode) : inode :=
  mkInode (i_dev s) x (i_ref s) (i_lock s) (i_valid s) (i_type s) (i_major s) (i_minor s) (i_nlink s)
    (i_size s) (i_addrs s).
Definition set_i_ref (x : Z) (s : inode) : inode :=
  mkInode (i_dev s) (i_inum s) x (i_lock s) (i_valid s) (i_type s) (i_major s) (i_minor s) (i_nlink s)
    (i_size s) (i_addrs s).
Definition set_i_lock (x : sleeplock) (s : inode) : inode :=
  mkInode (i_dev s) (i_inum s) (i_ref s) x (i_valid s) (i_type s) (i_major s) (i_minor s) (i_nlink s)
    (i_size s) (i_addrs s).
Definition set_i_valid (x : Z) (s : inode) : inode :=
  mkInode (i_dev s) (i_inum s) (i_ref s) (i_lock s) x (i_type s) (i_major s) (i_minor s) (i_nlink s)
    (i_size s) (i_addrs s).
Definition set_i_type (x : Z) (s : inode) : inode :=
  mkInode (i_dev s) (i_inum s) (i_ref s) (i_lock s) (i_valid s) x (i_major s) (i_minor s) (i_nlink s)
    (i_size s) (i_addrs s).
Definition set_i_major (x : Z) (s : inode) : inode :=
  mkInode (i_dev s) (i_inum s) (i_ref s) (i_lock s) (i_valid s) (i_type s) x (i_minor s) (i_nlink s)
    (i_size s) (i_addrs s).
Definition set_i_minor (x : Z) (s : inode) : inode :=
  mkInode (i_dev s) (i_inum s) (i_ref s) (i_lock s) (i_valid s) (i_type s) (i_major s) x (i_nlink s)
    (i_size s) (i_addrs s).
Definition set_i_nlink (x : Z) (s : inode) : inode :=
  mkInode (i_dev s) (i_inum s) (i_ref s) (i_lock s) (i_valid s) (i_type s) (i_major s) (i_minor s) x
    (i_size s) (i_addrs s).
Definition set_i_size (x : Z) (s : inode) : inode :=
  mkInode (i_dev s) (i_inum s) (i_ref s) (i_lock s) (i_valid s) (i_type s) (i_major s) (i_minor s)
    (i_nlink s) x (i_addrs s).
Definition set_i_addrs (x : list Z) (s : inode) : inode :=
  mkInode (i_dev s) (i_inum s) (i_ref s) (i_lock s) (i_valid s) (i_type s) (i_major s) (i_minor s)
    (i_nlink s) (i_size s) x.
Arguments set_i_dev x s /.
Arguments set_i_inum x s /.
Arguments set_i_ref x s /.
Arguments set_i_lock x s /.
Arguments set_i_valid x s /.
Arguments set_i_type x s /.
Arguments set_i_major x s /.
Arguments set_i_minor x s /.
Arguments set_i_nlink x s /.
Arguments set_i_size x s /.
Arguments set_i_addrs x s /.
Definition inode0 : inode := mkInode 0 0 0 sleeplock0 0 0 0 0 0 0 (replicate 13 0).

(** ** Open files and pipes (kernel/file.h, kernel/pipe.c) *)

Inductive ftype := FD_NONE | FD_PIPE | FD_INODE | FD_DEVICE.
#[global] Instance ftype_eq_dec : EqDecision ftype.
Proof. solve_decision. Defined.

Record file := mkFile {
  f_type : ftype;
  f_ref : Z;
  f_readable : Z;
  f_writable : Z;
  f_pipe : Z;
  f_ip : option nat;
  f_off : Z;
  f_major : Z }.
Definition set_f_type (x : ftype) (s : file) : file :=
  mkFile x (f_ref s) (f_readable s) (f_writable s) (f_pipe s) (f_ip s) (f_off s) (f_major s).
Definition set_f_ref (x : Z) (s : file) : file :=
  mkFile (f_type s) x (f_readable s) (f_writable s) (f_pipe s) (f_ip s) (f_off s) (f_major s).
Definition set_f_readable (x : Z) (s : file) : file :=
  mkFile (f_type s) (f_ref s) x (f_writable s) (f_pipe s) (f_ip s) (f_off s) (f_major s).
Definition set_f_writable (x : Z) (s : file) : file :=
  mkFile (f_type s) (f_ref s) (f_readable s) x (f_pipe s) (f_ip s) (f_off s) (f_major s).
Definition set_f_pipe (x : Z) (s : file) : file :=
  mkFile (f_type s) (f_ref s) (f_readable s) (f_writable s) x (f_ip s) (f_off s) (f_major s).
Definition set_f_ip (x : option nat) (s : file) : file :=
  mkFile (f_type s) (f_ref s) (f_readable s) (f_writable s) (f_pipe s) x (f_off s) (f_major s).
Definition set_f_off (x : Z) (s : file) : file :=
  mkFile (f_type s) (f_ref s) (f_readable s) (f_writable s) (f_pipe s) (f_ip s) x (f_major s).
Definition set_f_major (x : Z) (s : file) : file :=
  mkFile (f_type s) (f_ref s) (f_readable s) (f_writable s) (f_pipe s) (f_ip s) (f_off s) x.
Arguments set_f_type x s /.
Arguments set_f_ref x s /.
Arguments set_f_readable x s /.
Arguments set_f_writable x s /.
Arguments set_f_pipe x s /.
Arguments set_f_ip x s /.
Arguments set_f_off x s /.
Arguments set_f_major x s /.
Definition file0 : file := mkFile FD_NONE 0 0 0 0 None 0 0.

Definition PIPESIZE : Z := 512.
(** A pipe; it occupies a page from [kalloc], whose address names it. *)
Record pipe := mkPipe {
  pi_data : list Z;
  pi_nread : Z;
  pi_nwrite : Z;
  pi_readopen : Z;
  pi_writeopen : Z }.
Definition set_pi_data (x : list Z) (s : pipe) : pipe :=
  mkPipe x (pi_nread s) (pi_nwrite s) (pi_readopen s) (pi_writeopen s).
Definition set_pi_nread (x : Z) (s : pipe) : pipe :=
  mkPipe (pi_data s) x (pi_nwrite s) (pi_readopen s) (pi_writeopen s).
Definition set_pi_nwrite (x : Z) (s : pipe) : pipe :=
  mkPipe (pi_data s) (pi_nread s) x (pi_readopen s) (pi_writeopen s).
Definition set_pi_readopen (x : Z) (s : pipe) : pipe :=
  mkPipe (pi_data s) (pi_nread s) (pi_nwrite s) x (pi_writeopen s).
Definition set_pi_writeopen (x : Z) (s : pipe) : pipe :=
  mkPipe (pi_data s) (pi_nread s) (pi_nwrite s) (pi_readopen s) x.
Arguments set_pi_data x s /.
Arguments set_pi_nread x s /.
Arguments set_pi_nwrite x s /.
Arguments set_pi_readopen x s /.
Arguments set_pi_writeopen x s /.
Definition pipe0 : pipe := mkPipe (replicate (Z.to_nat PIPESIZE) 5) 0 0 0 0.

(** ** Console, UART, printf, disk driver *)

Definition INPUT_BUF_SIZE : Z := 128.
Definition UART_TX_BUF_SIZE : Z := 32.

Record cons := mkCons {
  c_buf : list Z;
  c_r : Z;
  c_w : Z;
  c_e : Z }.
Definition set_c_buf (x : list Z) (s : cons) : cons :=
  mkCons x (c_r s) (c_w s) (c_e s).
Definition set_c_r (x : Z) (s : cons) : cons :=
  mkCons (c_buf s) x (c_w s) (c_e s).
Definition set_c_w (x : Z) (s : cons) : cons :=
  mkCons (c_buf s) (c_r s) x (c_e s).
Definition set_c_e (x : Z) (s : cons) : cons :=
  mkCons (c_buf s) (c_r s) (c_w s) x.
Arguments set_c_buf x s /.
Arguments set_c_r x s /.
Arguments set_c_w x s /.
Arguments set_c_e x s /.
Definition cons0 : cons := mkCons (replicate (Z.to_nat INPUT_BUF_SIZE) 0) 0 0 0.

Record uart := mkUart {
  tx_buf : list Z;
  tx_w : Z;
  tx_r : Z }.
Definition set_tx_buf (x : list Z) (s : uart) : uart :=
  mkUart x (tx_w s) (tx_r s).
Definition set_tx_w (x : Z) (s : uart) : uart :=
  mkUart (tx_buf s) x (tx_r s).
Definition set_tx_r (x : Z) (s : uart) : uart :=
  mkUart (tx_buf s) (tx_w s) x.
Arguments set_tx_buf x s /.
Arguments set_tx_w x s /.
Arguments set_tx_r x s /.
Definition uart0 : uart := mkUart (replicate (Z.to_nat UART_TX_BUF_SIZE) 0) 0 0.

(** The addresses a descriptor can hold: a command header, a buffer's data, a
    status byte. *)
Inductive daddr := ANull | AOps (i : Z) | ABuf (b : nat) | AStatus (i : Z).

Record virtq_desc := mkDesc {
  d_addr : daddr;
  d_len : Z;
  d_flags : Z;
  d_next : Z }.
Definition set_d_addr (x : daddr) (s : virtq_desc) : virtq_desc :=
  mkDesc x (d_len s) (d_flags s) (d_next s).
Definition set_d_len (x : Z) (s : virtq_desc) : virtq_desc :=
  mkDesc (d_addr s) x (d_flags s) (d_next s).
Definition set_d_flags (x : Z) (s : virtq_desc) : virtq_desc :=
  mkDesc (d_addr s) (d_len s) x (d_next s).
Definition set_d_next (x : Z) (s : virtq_desc) : virtq_desc :=
  mkDesc (d_addr s) (d_len s) (d_flags s) x.
Arguments set_d_addr x s /.
Arguments set_d_len x s /.
Arguments set_d_flags x s /.
Arguments set_d_next x s /.

(** [struct disk] of kernel/virtio_disk.c with the rings it points to. *)
Record vdisk := mkVdisk {
  vd_desc : list virtq_desc;
  vd_avail_idx : Z;
  vd_avail_ring : list Z;
  vd_used_idx_dev : Z;   (** [used->idx], written by the device *)
  vd_used_ring : list Z;   (** the [id]s in the used ring, written by the device *)
  vd_free : list Z;
  vd_used_idx : Z;   (** [disk.used_idx] *)
  vd_info_b : list (option nat);
  vd_info_status : list Z;
  vd_op_type : list Z;
  vd_op_reserved : list Z;
  vd_op_sector : list Z }.
Definition set_vd_desc (x : list virtq_desc) (s : vdisk) : vdisk :=
  mkVdisk x (vd_avail_idx s) (vd_avail_ring s) (vd_used_idx_dev s) (vd_used_ring s) (vd_free s)
    (vd_used_idx s) (vd_info_b s) (vd_info_status s) (vd_op_type s) (vd_op_reserved s) (vd_op_sector
    s).
Definition set_vd_avail_idx (x : Z) (s : vdisk) : vdisk :=
  mkVdisk (vd_desc s) x (vd_avail_ring s) (vd_used_idx_dev s) (vd_used_ring s) (vd_free s)
    (vd_used_idx s) (vd_info_b s) (vd_info_status s) (vd_op_type s) (vd_op_reserved s) (vd_op_sector
    s).
Definition set_vd_avail_ring (x : list Z) (s : vdisk) : vdisk :=
  mkVdisk (vd_desc s) (vd_avail_idx s) x (vd_used_idx_dev s) (vd_used_ring s) (vd_free s) (vd_used_idx
    s) (vd_info_b s) (vd_info_status s) (vd_op_type s) (vd_op_reserved s) (vd_op_sector s).
Definition set_vd_used_idx_dev (x : Z) (s : vdisk) : vdisk :=
  mkVdisk (vd_desc s) (vd_avail_idx s) (vd_avail_ring s) x (vd_used_ring s) (vd_free s) (vd_used_idx
    s) (vd_info_b s) (vd_info_status s) (vd_op_type s) (vd_op_reserved s) (vd_op_sector s).
Definition set_vd_used_ring (x : list Z) (s : vdisk) : vdisk :=
  mkVdisk (vd_desc s) (vd_avail_idx s) (vd_avail_ring s) (vd_used_idx_dev s) x (vd_free s)
    (vd_used_idx s) (vd_info_b s) (vd_info_status s) (vd_op_type s) (vd_op_reserved s) (vd_op_sector
    s).
Definition set_vd_free (x : list Z) (s : vdisk) : vdisk :=
  mkVdisk (vd_desc s) (vd_avail_idx s) (vd_avail_ring s) (vd_used_idx_dev s) (vd_used_ring s) x
    (vd_used_idx s) (vd_info_b s) (vd_info_status s) (vd_op_type s) (vd_op_reserved s) (vd_op_sector
    s).
Definition set_vd_used_idx (x : Z) (s : vdisk) : vdisk :=
  mkVdisk (vd_desc s) (vd_avail_idx s) (vd_avail_ring s) (vd_used_idx_dev s) (vd_used_ring s) (vd_free
    s) x (vd_info_b s) (vd_info_status s) (vd_op_type s) (vd_op_reserved s) (vd_op_sector s).
Definition set_vd_info_b (x : list (option nat)) (s : vdisk) : vdisk :=
  mkVdisk (vd_desc s) (vd_avail_idx s) (vd_avail_ring s) (vd_used_idx_dev s) (vd_used_ring s) (vd_free
    s) (vd_used_idx s) x (vd_info_status s) (vd_op_type s) (vd_op_reserved s) (vd_op_sector s).
Definition set_vd_info_status (x : list Z) (s : vdisk) : vdisk :=
  mkVdisk (vd_desc s) (vd_avail_idx s) (vd_avail_ring s) (vd_used_idx_dev s) (vd_used_ring s) (vd_free
    s) (vd_used_idx s) (vd_info_b s) x (vd_op_type s) (vd_op_reserved s) (vd_op_sector s).
Definition set_vd_op_type (x : list Z) (s : vdisk) : vdisk :=
  mkVdisk (vd_desc s) (vd_avail_idx s) (vd_avail_ring s) (vd_used_idx_dev s) (vd_used_ring s) (vd_free
    s) (vd_used_idx s) (vd_info_b s) (vd_info_status s) x (vd_op_reserved s) (vd_op_sector s).
Definition set_vd_op_reserved (x : list Z) (s : vdisk) : vdisk :=
  mkVdisk (vd_desc s) (vd_avail_idx s) (vd_avail_ring s) (vd_used_idx_dev s) (vd_used_ring s) (vd_free
    s) (vd_used_idx s) (vd_info_b s) (vd_info_status s) (vd_op_type s) x (vd_op_sector s).
Definition set_vd_op_sector (x : list Z) (s : vdisk) : vdisk :=
  mkVdisk (vd_desc s) (vd_avail_idx s) (vd_avail_ring s) (vd_used_idx_dev s) (vd_used_ring s) (vd_free
    s) (vd_used_idx s) (vd_info_b s) (vd_info_status s) (vd_op_type s) (vd_op_reserved s) x.
Arguments set_vd_desc x s /.
Arguments set_vd_avail_idx x s /.
Arguments set_vd_avail_ring x s /.
Arguments set_vd_used_idx_dev x s /.
Arguments set_vd_used_ring x s /.
Arguments set_vd_free x s /.
Arguments set_vd_used_idx x s /.
Arguments set_vd_info_b x s /.
Arguments set_vd_info_status x s /.
Arguments set_vd_op_type x s /.
Arguments set_vd_op_reserved x s /.
Arguments set_vd_op_sector x s /.
Definition desc0 : virtq_desc := mkDesc ANull 0 0 0.
Definition vdisk0 : vdisk :=
  mkVdisk (replicate 8 desc0) 0 (replicate 8 0) 0 (replicate 8 0) (replicate 8 0) 0
    (replicate 8 None) (replicate 8 0) (replicate 8 0) (replicate 8 0) (replicate 8 0).

(** The control registers the trap code uses (kernel/riscv.h). *)
Record csr := mkCsr {
  r_stvec : Z;
  r_sepc : Z;
  r_scause : Z;
  r_stval : Z;
  r_stimecmp : Z;
  r_time : Z }.
Definition set_r_stvec (x : Z) (s : csr) : csr :=
  mkCsr x (r_sepc s) (r_scause s) (r_stval s) (r_stimecmp s) (r_time s).
Definition set_r_sepc (x : Z) (s : csr) : csr :=
  mkCsr (r_stvec s) x (r_scause s) (r_stval s) (r_stimecmp s) (r_time s).
Definition set_r_scause (x : Z) (s : csr) : csr :=
  mkCsr (r_stvec s) (r_sepc s) x (r_stval s) (r_stimecmp s) (r_time s).
Definition set_r_stval (x : Z) (s : csr) : csr :=
  mkCsr (r_stvec s) (r_sepc s) (r_scause s) x (r_stimecmp s) (r_time s).
Definition set_r_stimecmp (x : Z) (s : csr) : csr :=
  mkCsr (r_stvec s) (r_sepc s) (r_scause s) (r_stval s) x (r_time s).
Definition set_r_time (x : Z) (s : csr) : csr :=
  mkCsr (r_stvec s) (r_sepc s) (r_scause s) (r_stval s) (r_stimecmp s) x.
Arguments set_r_stvec x s /.
Arguments set_r_sepc x s /.
Arguments set_r_scause x s /.
Arguments set_r_stval x s /.
Arguments set_r_stimecmp x s /.
Arguments set_r_time x s /.
Definition csr0 : csr := mkCsr 0 0 0 0 0 0.

Record iost := mkIo {
  io_files : list file;
  io_pipes : gmap Z pipe;
  io_cons : cons;
  io_uart : uart;
  io_panicked : Z;
  io_locking : Z;   (** [pr.locking] *)
  io_vd : vdisk;
  io_devsw : list bool;   (** is [devsw[i]] connected (to the console) *)
  io_first : Z;   (** the static variable of [forkret] *)
  io_started : Z;   (** [started] of kernel/main.c *)
  io_csr : csr }.
Definition set_io_files (x : list file) (s : iost) : iost :=
  mkIo x (io_pipes s) (io_cons s) (io_uart s) (io_panicked s) (io_locking s) (io_vd s) (io_devsw s)
    (io_first s) (io_started s) (io_csr s).
Definition set_io_pipes (x : gmap Z pipe) (s : iost) : iost :=
  mkIo (io_files s) x (io_cons s) (io_uart s) (io_panicked s) (io_locking s) (io_vd s) (io_devsw s)
    (io_first s) (io_started s) (io_csr s).
Definition set_io_cons (x : cons) (s : iost) : iost :=
  mkIo (io_files s) (io_pipes s) x (io_uart s) (io_panicked s) (io_locking s) (io_vd s) (io_devsw s)
    (io_first s) (io_started s) (io_csr s).
Definition set_io_uart (x : uart) (s : iost) : iost :=
  mkIo (io_files s) (io_pipes s) (io_cons s) x (io_panicked s) (io_locking s) (io_vd s) (io_devsw s)
    (io_first s) (io_started s) (io_csr s).
Definition set_io_panicked (x : Z) (s : iost) : iost :=
  mkIo (io_files s) (io_pipes s) (io_cons s) (io_uart s) x (io_locking s) (io_vd s) (io_devsw s)
    (io_first s) (io_started s) (io_csr s).
Definition set_io_locking (x : Z) (s : iost) : iost :=
  mkIo (io_files s) (io_pipes s) (io_cons s) (io_uart s) (io_panicked s) x (io_vd s) (io_devsw s)
    (io_first s) (io_started s) (io_csr s).
Definition set_io_vd (x : vdisk) (s : iost) : iost :=
  mkIo (io_files s) (io_pipes s) (io_cons s) (io_uart s) (io_panicked s) (io_locking s) x (io_devsw s)
    (io_first s) (io_started s) (io_csr s).
Definition set_io_devsw (x : list bool) (s : iost) : iost :=
  mkIo (io_files s) (io_pipes s) (io_cons s) (io_uart s) (io_panicked s) (io_locking s) (io_vd s) x
    (io_first s) (io_started s) (io_csr s).
Definition set_io_first (x : Z) (s : iost) : iost :=
  mkIo (io_files s) (io_pipes s) (io_cons s) (io_uart s) (io_panicked s) (io_locking s) (io_vd s)
    (io_devsw s) x (io_started s) (io_csr s).
Definition set_io_started (x : Z) (s : iost) : iost :=
  mkIo (io_files s) (io_pipes s) (io_cons s) (io_uart s) (io_panicked s) (io_locking s) (io_vd s)
    (io_devsw s) (io_first s) x (io_csr s).
Definition set_io_csr (x : csr) (s : iost) : iost :=
  mkIo (io_files s) (io_pipes s) (io_cons s) (io_uart s) (io_panicked s) (io_locking s) (io_vd s)
    (io_devsw s) (io_first s) (io_started s) x.
Arguments set_io_files x s /.
Arguments set_io_pipes x s /.
Arguments set_io_cons x s /.
Arguments set_io_uart x s /.
Arguments set_io_panicked x s /.
Arguments set_io_locking x s /.
Arguments set_io_vd x s /.
Arguments set_io_devsw x s /.
Arguments set_io_first x s /.
Arguments set_io_started x s /.
Arguments set_io_csr x s /.
Definition io0 : iost :=
  mkIo (replicate NFILE file0) ∅ cons0 uart0 0 0 vdisk0 (replicate (Z.to_nat NDEV) false) 1 0 csr0.

(** ** The state of the kernel *)

Section Kern.
Context `{PF : Platform}.

Record kern := mkKern {
  kn_k : kst;
  kn_bufs : list buf;
  kn_log : log;
  kn_sb : superblock;
  kn_inodes : list inode;
  kn_io : iost;
  kn_dev : dev }.
Definition set_kn_k (x : kst) (s : kern) : kern :=
  mkKern x (kn_bufs s) (kn_log s) (kn_sb s) (kn_inodes s) (kn_io s) (kn_dev s).
Definition set_kn_bufs (x : list buf) (s : kern) : kern :=
  mkKern (kn_k s) x (kn_log s) (kn_sb s) (kn_inodes s) (kn_io s) (kn_dev s).
Definition set_kn_log (x : log) (s : kern) : kern :=
  mkKern (kn_k s) (kn_bufs s) x (kn_sb s) (kn_inodes s) (kn_io s) (kn_dev s).
Definition set_kn_sb (x : superblock) (s : kern) : kern :=
  mkKern (kn_k s) (kn_bufs s) (kn_log s) x (kn_inodes s) (kn_io s) (kn_dev s).
Definition set_kn_inodes (x : list inode) (s : kern) : kern :=
  mkKern (kn_k s) (kn_bufs s) (kn_log s) (kn_sb s) x (kn_io s) (kn_dev s).
Definition set_kn_io (x : iost) (s : kern) : kern :=
  mkKern (kn_k s) (kn_bufs s) (kn_log s) (kn_sb s) (kn_inodes s) x (kn_dev s).
Definition set_kn_dev (x : dev) (s : kern) : kern :=
  mkKern (kn_k s) (kn_bufs s) (kn_log s) (kn_sb s) (kn_inodes s) (kn_io s) x.
Arguments set_kn_k x s /.
Arguments set_kn_bufs x s /.
Arguments set_kn_log x s /.
Arguments set_kn_sb x s /.
Arguments set_kn_inodes x s /.
Arguments set_kn_io x s /.
Arguments set_kn_dev x s /.

Definition Lk : lens kern kst := Lens kn_k set_kn_k.
#[global] Instance Lk_laws : LensLaws Lk.
Proof. split; intros; simpl; try done. by destruct s. Qed.

(** Kernel code of the lower layers. *)
Definition lk_ {A} (m : M kst A) : M kern A := zoom Lk m.

Definition buf_at (s : kern) (i : nat) : buf := default buf0 (kn_bufs s !! i).
Definition upd_buf (i : nat) (f : buf -> buf) : M kern unit :=
  modify (fun s => set_kn_bufs (<[i := f (buf_at s i)]> (kn_bufs s)) s).
Definition getb (i : nat) : M kern buf := gets (fun s => buf_at s i).

Definition inode_at (s : kern) (i : nat) : inode := default inode0 (kn_inodes s !! i).
Definition upd_inode (i : nat) (f : inode -> inode) : M kern unit :=
  modify (fun s => set_kn_inodes (<[i := f (inode_at s i)]> (kn_inodes s)) s).
Definition geti (i : nat) : M kern inode := gets (fun s => inode_at s i).

Definition getlog : M kern log := gets kn_log.
Definition upd_log (f : log -> log) : M kern unit := modify (fun s => set_kn_log (f (kn_log s)) s).

Definition getio : M kern iost := gets kn_io.
Definition upd_io (f : iost -> iost) : M kern unit := modify (fun s => set_kn_io (f (kn_io s)) s).

(** Device registers. *)
Definition mmio_read (a : Z) : M kern Z :=
  fun s => let '(v, d) := mmio_rd a (kn_dev s) in Ok v (set_kn_dev d s).
Definition mmio_write (a v : Z) : M kern unit :=
  modify (fun s => set_kn_dev (mmio_wr a v (kn_dev s)) s).

(** An access outside an array: undefined in C, an outcome of its own here. *)
Definition undef {A} : M kern A := panic "undefined behaviour".
(** A load or store through a null pointer in the kernel: the address is not mapped,
    and [kerneltrap] panics. *)
Definition kfault {A} : M kern A := panic "kerneltrap".
Definition arr_get {A} (l : list A) (i : Z) : M kern A :=
  if i <? 0 then undef else match l !! Z.to_nat i with Some x => ret x | None => undef end.
Definition arr_set {A} (l : list A) (i : Z) (x : A) : M kern (list A) :=
  if (i <? 0) || (Z.of_nat (length l) <=? i) then undef else ret (<[Z.to_nat i := x]> l).

(** [myproc()->...] *)
Definition my_index : M kern nat :=
  let* me := lk_ myproc in
  match me with Some i => ret i | None => panic "null proc" end.

Definition my_proc : M kern proc := let* i := my_index in lk_ (getp i).

End Kern.
Arguments lk_ {PF A} m s : simpl never.
