(* ===== verification/Sleeplock.v ===== *)
(** * kernel/sleeplock.c: long-term locks

    A sleep lock lives in a buffer or an inode; the spin lock inside it is named
    by that object. [acquiresleep] waits in [sleep] while the lock is taken. *)

From S2P Require Import Prelude Riscv Mem StringLib Spinlock Kalloc Vm Proc ProcSpec Kctx State.

Section Sleeplock.
Context `{PF : Platform} `{PA : Patience}.

(** [&b->lock] or [&ip->lock]. *)
Inductive slref := SBuf (i : nat) | SInode (i : nat).

Definition sl_lk (r : slref) : lockid := match r with SBuf i => BufLk i | SInode i => InodeLk i end.

Definition sl_get (r : slref) (s : kern) : sleeplock :=
  match r with SBuf i => b_lock (buf_at s i) | SInode i => i_lock (inode_at s i) end.
Definition sl_set (r : slref) (x : sleeplock) (s : kern) : kern :=
  match r with
  | SBuf i => set_kn_bufs (<[i := set_b_lock x (buf_at s i)]> (kn_bufs s)) s
  | SInode i => set_kn_inodes (<[i := set_i_lock x (inode_at s i)]> (kn_inodes s)) s
  end.
Definition sl_upd (r : slref) (f : sleeplock -> sleeplock) : M kern unit :=
  modify (fun s => sl_set r (f (sl_get r s)) s).

Definition initsleeplock (r : slref) (name : string) : M kern unit :=
  lk_ (zoom Lkhw (initlock (sl_lk r) "sleep lock")) ;;;
  sl_upd r (set_sk_name name) ;;;
  sl_upd r (set_sk_locked 0) ;;;
  sl_upd r (set_sk_pid 0).

Fixpoint acquiresleep_loop (n : nat) (r : slref) : M kern unit :=
  match n with
  | O => fun _ => NoFuel
  | S n =>
      let* l := gets (sl_get r) in
      if truthy (sk_locked l) then
        lk_ (sleep (ChSleep (sl_lk r)) (sl_lk r)) ;;; acquiresleep_loop n r
      else ret tt
  end.

Definition acquiresleep (r : slref) : M kern unit :=
  lk_ (acq (sl_lk r)) ;;;
  acquiresleep_loop (S patience) r ;;;
  sl_upd r (set_sk_locked 1) ;;;
  let* p := my_proc in
  sl_upd r (set_sk_pid (p_pid p)) ;;;
  lk_ (rel (sl_lk r)).

Definition releasesleep (r : slref) : M kern unit :=
  lk_ (acq (sl_lk r)) ;;;
  sl_upd r (set_sk_locked 0) ;;;
  sl_upd r (set_sk_pid 0) ;;;
  lk_ (wakeup (ChSleep (sl_lk r))) ;;;
  lk_ (rel (sl_lk r)).

Definition holdingsleep (r : slref) : M kern bool :=
  lk_ (acq (sl_lk r)) ;;;
  let* l := gets (sl_get r) in
  let* h := (if truthy (sk_locked l) then
               let* p := my_proc in ret (sk_pid l =? p_pid p)
             else ret false) in
  lk_ (rel (sl_lk r)) ;;;
  ret h.

(** ** Running them *)

(** The lock exists. *)
Definition sl_ok (r : slref) (s : kern) : Prop :=
  match r with
  | SBuf i => (i < NBUF)%nat /\ (i < length (kn_bufs s))%nat
  | SInode i => (i < NINODE)%nat /\ (i < length (kn_inodes s))%nat
  end.

Lemma sl_static r s : sl_ok r s -> static_lock (sl_lk r) = true.
Proof. destruct r; intros [? _]; by apply Nat.ltb_lt. Qed.

Lemma sl_lk_proc r x : sl_lk r <> ProcLock x.
Proof. by destruct r. Qed.

Lemma sl_get_k r k s : sl_get r (set_kn_k k s) = sl_get r s.
Proof. by destruct r. Qed.

Lemma sl_set_k r x k s : sl_set r x (set_kn_k k s) = set_kn_k k (sl_set r x s).
Proof. by destruct r. Qed.

Lemma sl_get_set r x s : sl_ok r s -> sl_get r (sl_set r x s) = x.
Proof.
  destruct r; intros [_ Hl]; simpl; unfold buf_at, inode_at; simpl; by rewrite list_lookup_insert_eq.
Qed.

Lemma sl_set_set r x y s : sl_ok r s -> sl_set r x (sl_set r y s) = sl_set r x s.
Proof.
  destruct r; intros [_ Hl]; simpl; unfold buf_at, inode_at; simpl; rewrite list_lookup_insert_eq by done; simpl;
    by rewrite list_insert_insert_eq.
Qed.

Lemma sl_set_get r s : sl_ok r s -> sl_set r (sl_get r s) s = s.
Proof.
  destruct r as [i | i]; intros [_ Hl]; simpl; unfold buf_at, inode_at;
    destruct (lookup_lt_is_Some_2 _ _ Hl) as [x Hx]; rewrite Hx; simpl;
    rewrite list_insert_id by (rewrite Hx; by destruct x); by destruct s.
Qed.

Lemma kn_k_sl_set r x s : kn_k (sl_set r x s) = kn_k s.
Proof. by destruct r. Qed.

Lemma sl_ok_set r r' x s : sl_ok r s -> sl_ok r (sl_set r' x s).
Proof. destruct r, r'; simpl; by rewrite ?length_insert. Qed.

Lemma lk_ok {A} (m : M kst A) s a k : m (kn_k s) = Ok a k -> lk_ m s = Ok a (set_kn_k k s).
Proof. intros H. unfold lk_. by rewrite (zoom_ok Lk _ _ _ _ H). Qed.

Lemma set_kn_k_k k k' s : set_kn_k k (set_kn_k k' s) = set_kn_k k s.
Proof. done. Qed.
Lemma set_kn_k_id s : set_kn_k (kn_k s) s = s.
Proof. by destruct s. Qed.

(** Locking and waking, in the whole kernel state. *)
Lemma acq_k i lk s : kctx i (kn_k s) -> static_lock lk = true ->
  lk_ (acq lk) s = Ok tt (set_kn_k (locked lk (kn_k s)) s).
Proof. intros Hk Hl. apply lk_ok. by eapply acq_locked. Qed.

Lemma rel_k i lk k s : kctx i k -> static_lock lk = true ->
  lk_ (rel lk) (set_kn_k (locked lk k) s) = Ok tt (set_kn_k (cyc k) s).
Proof. intros Hk Hl. apply (lk_ok _ (set_kn_k (locked lk k) s)). by eapply rel_locked. Qed.

Lemma wakeup_k i ch lk k s : kctx i k -> (forall x, lk <> ProcLock x) ->
  lk_ (wakeup ch) (set_kn_k (locked lk k) s) = Ok tt (set_kn_k (locked lk (wake i ch k)) s).
Proof. intros Hk Hl. apply (lk_ok _ (set_kn_k (locked lk k) s)). by apply wakeup_locked. Qed.

(** [myproc()->pid] while a spin lock is held. *)
Lemma my_proc_locked i lk k s : kctx i k -> kn_k s = locked lk k -> my_proc s = Ok (proc_at k i) s.
Proof.
  intros Hk E. unfold my_proc, my_index. unfold bind at 1. unfold bind at 1.
  rewrite (lk_ok _ _ (Some i) (locked lk k)) by (rewrite E; by apply myproc_locked).
  rewrite <- E, set_kn_k_id. cbn [obind ret].
  rewrite (lk_ok _ s (proc_at (kn_k s) i) (kn_k s)) by done. rewrite set_kn_k_id, E. done.
Qed.

Lemma acquiresleep_run i r s : kctx i (kn_k s) -> sl_ok r s -> sk_locked (sl_get r s) = 0 ->
  acquiresleep r s = Ok tt (set_kn_k (cyc (kn_k s))
    (sl_set r (mkSleeplock 1 (sk_name (sl_get r s)) (p_pid (proc_at (kn_k s) i))) s)).
Proof.
  intros Hk Hr Hl. unfold acquiresleep. pose proof (sl_static _ _ Hr) as Hst.
  rewrite (bind_ok _ _ _ _ _ (acq_k i _ _ Hk Hst)).
  set (s1 := set_kn_k (locked (sl_lk r) (kn_k s)) s).
  assert (E1 : acquiresleep_loop (S patience) r s1 = Ok tt s1).
  { cbn [acquiresleep_loop]. unfold bind, gets. cbn [obind]. unfold s1. by rewrite sl_get_k, Hl. }
  rewrite (bind_ok _ _ _ _ _ E1). unfold bind at 1, sl_upd at 1, modify. cbn [obind].
  unfold s1. rewrite sl_get_k, sl_set_k.
  rewrite (bind_ok _ _ _ _ _ (my_proc_locked i (sl_lk r) (kn_k s) (set_kn_k (locked (sl_lk r) (kn_k s)) _) Hk eq_refl)).
  unfold bind at 1, sl_upd at 1, modify. cbn [obind].
  rewrite sl_get_k, sl_get_set, sl_set_k, sl_set_set by done. cbn [set_sk_pid set_sk_locked sk_locked sk_name].
  by rewrite (rel_k i _ _ _ Hk Hst).
Qed.

Lemma releasesleep_run i r s : kctx i (kn_k s) -> sl_ok r s ->
  releasesleep r s = Ok tt (set_kn_k (cyc (wake i (ChSleep (sl_lk r)) (kn_k s)))
    (sl_set r (mkSleeplock 0 (sk_name (sl_get r s)) 0) s)).
Proof.
  intros Hk Hr. unfold releasesleep. pose proof (sl_static _ _ Hr) as Hst.
  rewrite (bind_ok _ _ _ _ _ (acq_k i _ _ Hk Hst)).
  unfold bind at 1, sl_upd at 1, modify. cbn [obind]. rewrite sl_get_k, sl_set_k.
  unfold bind at 1, sl_upd at 1, modify. cbn [obind].
  rewrite sl_get_k, sl_get_set, sl_set_k, sl_set_set by done. cbn [set_sk_pid set_sk_locked sk_locked sk_name].
  rewrite (bind_ok _ _ _ _ _ (wakeup_k i _ _ _ _ Hk (sl_lk_proc r))).
  by rewrite (rel_k i _ _ _ (kctx_wake _ _ _ _ Hk) Hst).
Qed.

Lemma holdingsleep_run i r s : kctx i (kn_k s) -> sl_ok r s ->
  holdingsleep r s = Ok (truthy (sk_locked (sl_get r s)) && (sk_pid (sl_get r s) =? p_pid (proc_at (kn_k s) i)))
    (set_kn_k (cyc (kn_k s)) s).
Proof.
  intros Hk Hr. unfold holdingsleep. pose proof (sl_static _ _ Hr) as Hst.
  rewrite (bind_ok _ _ _ _ _ (acq_k i _ _ Hk Hst)).
  set (s1 := set_kn_k (locked (sl_lk r) (kn_k s)) s).
  unfold bind at 1, gets. cbn [obind]. unfold s1. rewrite sl_get_k. fold s1.
  destruct (truthy (sk_locked (sl_get r s))); cbn [andb].
  - unfold bind at 1. rewrite (bind_ok _ _ _ _ _ (my_proc_locked i (sl_lk r) (kn_k s) s1 Hk eq_refl)).
    unfold ret at 1. cbn [obind].
    unfold s1. by rewrite (bind_ok _ _ _ _ _ (rel_k i _ _ _ Hk Hst)).
  - unfold bind at 1. unfold ret at 1. cbn [obind].
    unfold s1. by rewrite (bind_ok _ _ _ _ _ (rel_k i _ _ _ Hk Hst)).
Qed.

(** ** Contention *)

(** The process is resumed by the scheduler; the other threads may have done
    anything to the lock. *)
Definition resumed (i : nat) (r : slref) (s s' : kern) : Prop := resumable i (kn_k s') /\ sl_ok r s'.

(** The process that got control in [s] has gone to sleep on [ch] in [s1], and has
    changed nothing but its process state and the processor's. *)
Definition asleep (i : nat) (ch : chan) (s s1 : kern) : Prop :=
  s1 = set_kn_k (kn_k s1) s /\ p_state (proc_at (kn_k s1) i) = SLEEPING /\ p_chan (proc_at (kn_k s1) i) = ch.

(** The lock is free in [s] and held by the process in [s']; the rest is as in [s]. *)
Definition taken (i : nat) (r : slref) (s s' : kern) : Prop :=
  sk_locked (sl_get r s) = 0 /\ kctx i (kn_k s') /\
  s' = set_kn_k (kn_k s') (sl_set r (mkSleeplock 1 (sk_name (sl_get r s)) (p_pid (proc_at (kn_k s) i))) s).

Lemma lk_swtch {A} (m : M kst A) s k f : m (kn_k s) = Swtch k f ->
  lk_ m s = Swtch (set_kn_k k s) (fun s' => zoomo Lk s' (f (kn_k s'))).
Proof. intros H. unfold lk_, zoom. cbn [lget Lk]. by rewrite H. Qed.

(** A wait: [sleep] in a loop that tests a condition under the lock. *)
Lemma sleep_k_waits {A} (R G : kern -> kern -> Prop) (Q : kern -> A -> kern -> Prop) i ch lk n k s (f : unit -> M kern A) :
  kctx i k -> static_lock lk = true -> lk <> ProcLock i -> (forall s s', R s s' -> resumable i (kn_k s')) ->
  (forall s1, asleep i ch s s1 -> G s s1) ->
  (forall s1 s2 k2, R s1 s2 -> kctx i k2 -> p_pid (proc_at k2 i) = p_pid (proc_at (kn_k s2) i) ->
     waits R G Q n s2 (f tt (set_kn_k (locked lk k2) s2))) ->
  waits R G Q (S n) s (bind (lk_ (sleep ch lk)) f (set_kn_k (locked lk k) s)).
Proof.
  intros Hk Hst Hne HR HG Hf. unfold bind.
  destruct (lookup_lt_is_Some_2 (k_procs k) i) as [p Hp]; [rewrite (kc_len _ _ Hk); apply Hk |].
  destruct (sleep_locked i ch lk k p Hk Hst Hne Hp) as (g & Eg & Hg).
  rewrite (lk_swtch _ (set_kn_k (locked lk k) s) _ _ Eg). cbn [obind waits]. split.
  { apply HG. split; [done |]. cbn [kn_k set_kn_k].
    rewrite (proc_at_lookup _ i (set_state SLEEPING (set_chan ch p))) by (eapply put_proc_lookup, Hp). done. }
  intros s2 Hs2. pose proof (HR _ _ Hs2) as Hres.
  destruct (lookup_lt_is_Some_2 (k_procs (kn_k s2)) i) as [p' Hp']; [rewrite (rs_len _ _ Hres); apply Hres |].
  destruct (Hg (kn_k s2) p' Hres Hp') as (h & Eh & Ha). rewrite Eh. cbn [zoomo obind lset Lk].
  eapply Hf; [exact Hs2 | by eapply awake_ctx |].
  rewrite (proc_at_lookup _ i (set_chan ChNone p')) by (eapply put_proc_lookup, Hp').
  by rewrite (proc_at_lookup _ _ _ Hp').
Qed.

(** What [acquiresleep] does when it finds the lock held. *)
Definition awaits (i : nat) (r : slref) (s s1 : kern) : Prop :=
  sk_locked (sl_get r s) <> 0 /\ asleep i (ChSleep (sl_lk r)) s s1.

Lemma acquiresleep_loop_waits i r : forall n k s, kctx i k -> sl_ok r s -> p_pid (proc_at k i) = p_pid (proc_at (kn_k s) i) ->
  waits (resumed i r) (awaits i r)
    (fun s _ s2 => exists k2, s2 = set_kn_k (locked (sl_lk r) k2) s /\ kctx i k2 /\ sl_ok r s /\
       sk_locked (sl_get r s) = 0 /\ p_pid (proc_at k2 i) = p_pid (proc_at (kn_k s) i))
    n s (acquiresleep_loop n r (set_kn_k (locked (sl_lk r) k) s)).
Proof.
  induction n as [| n IH]; intros k s Hk Hr Hpid; [done |]. cbn [acquiresleep_loop].
  unfold bind at 1, gets. cbn [obind]. rewrite sl_get_k.
  destruct (Z.eqb_spec (sk_locked (sl_get r s)) 0) as [E | E]; unfold truthy.
  - rewrite E. cbn [Z.eqb negb ret waits]. by exists k.
  - rewrite (proj2 (Z.eqb_neq _ _) E). cbn [negb].
    apply (sleep_k_waits _ _ _ i (ChSleep (sl_lk r))); [done | by eapply sl_static | apply sl_lk_proc | by intros ? ? [? _] | by split |].
    intros s1 s2 k2 [_ Hr2] Hk2 Ep. by apply IH.
Qed.

Lemma acquiresleep_waits i r s : kctx i (kn_k s) -> sl_ok r s ->
  waits (resumed i r) (awaits i r) (fun s _ s' => taken i r s s') (S patience) s (acquiresleep r s).
Proof.
  intros Hk Hr. unfold acquiresleep. pose proof (sl_static _ _ Hr) as Hst.
  rewrite (bind_ok _ _ _ _ _ (acq_k i _ _ Hk Hst)).
  eapply waits_bind; [| by apply acquiresleep_loop_waits].
  intros s0 _ s2 (k2 & -> & Hk2 & Hr0 & Hl0 & Hpid). eexists tt, _. split.
  - unfold bind at 1, sl_upd at 1, modify. cbn [obind]. rewrite sl_get_k, sl_set_k.
    rewrite (bind_ok _ _ _ _ _ (my_proc_locked i (sl_lk r) k2 (set_kn_k (locked (sl_lk r) k2) _) Hk2 eq_refl)).
    unfold bind at 1, sl_upd at 1, modify. cbn [obind].
    rewrite sl_get_k, sl_get_set, sl_set_k, sl_set_set by done. cbn [set_sk_pid set_sk_locked sk_locked sk_name].
    rewrite (rel_k i _ _ _ Hk2 Hst), Hpid. reflexivity.
  - split_and!; [done | by apply kctx_cyc | done].
Qed.

End Sleeplock.

(** ** Properties *)

(** A kernel with empty caches and tables. *)
Definition idle_kern `{PF : Platform} (d : dev) (k : kst) : kern :=
  mkKern k (replicate (S NBUF) buf0) log0 sb0 (replicate NINODE inode0) io0 d.

(** A platform without devices. *)
Definition no_devices : Platform := {| dev := unit; mmio_rd _ d := (0, d); mmio_wr _ _ d := d |}.


(** An inode's lock is held by process 7; process 0 wants it. *)
Definition contended : @kern no_devices :=
  sl_set (PF := no_devices) (SInode 3) (mkSleeplock 1 "inode" 7)
    (idle_kern (PF := no_devices) tt (idle_kst 0 (Some 0%nat) [set_pid 1 (set_state RUNNING proc0)])).

