(* ===== verification/Bio.v ===== *)
(** * kernel/bio.c: the buffer cache (definitions)

    Buffers are linked, most recently used first, in a circular doubly linked
    list through [prev] and [next]; the list head is the buffer with index [HEAD].
    The disk driver is an interface, [BlockDev]. *)

From S2P Require Import Prelude Riscv Mem Bytes StringLib Spinlock Kalloc Vm Proc ProcSpec Kctx State Sleeplock.

(** [virtio_disk_rw(b, write)]: transfer the block of buffer [b]. *)
Class BlockDev `{Platform} := disk_rw : nat -> bool -> M kern unit.

Definition HEAD : nat := NBUF.

Section Bio.
Context `{PF : Platform} `{PA : Patience} `{BD : !BlockDev}.

Fixpoint binit_loop (n b : nat) : M kern unit :=
  match n with
  | O => ret tt
  | S n =>
      let* h := getb HEAD in
      upd_buf b (set_b_next (b_next h)) ;;;
      upd_buf b (set_b_prev HEAD) ;;;
      initsleeplock (SBuf b) "buffer" ;;;
      let* h := getb HEAD in
      upd_buf (b_next h) (set_b_prev b) ;;;
      upd_buf HEAD (set_b_next b) ;;;
      binit_loop n (S b)
  end.

Definition binit : M kern unit :=
  lk_ (zoom Lkhw (initlock BcacheLock "bcache")) ;;;
  upd_buf HEAD (set_b_prev HEAD) ;;;
  upd_buf HEAD (set_b_next HEAD) ;;;
  binit_loop NBUF 0.

(** The two loops of [bget]; following [next] (or [prev]) from [b]. *)
Fixpoint bget_cached (n b : nat) (dv bn : Z) : M kern (option nat) :=
  match n with
  | O => fun _ => NoFuel
  | S n =>
      if bool_decide (b = HEAD) then ret None else
      let* x := getb b in
      if (b_dev x =? dv) && (b_blockno x =? bn) then ret (Some b)
      else bget_cached n (b_next x) dv bn
  end.

Fixpoint bget_lru (n b : nat) : M kern (option nat) :=
  match n with
  | O => fun _ => NoFuel
  | S n =>
      if bool_decide (b = HEAD) then ret None else
      let* x := getb b in
      if b_refcnt x =? 0 then ret (Some b) else bget_lru n (b_prev x)
  end.

Definition bget (dv bn : Z) : M kern nat :=
  lk_ (acq BcacheLock) ;;;
  let* h := getb HEAD in
  let* c := bget_cached (S NBUF) (b_next h) dv bn in
  match c with
  | Some b =>
      upd_buf b (fun x => set_b_refcnt (u32 (b_refcnt x + 1)) x) ;;;
      lk_ (rel BcacheLock) ;;;
      acquiresleep (SBuf b) ;;;
      ret b
  | None =>
      let* h := getb HEAD in
      let* c := bget_lru (S NBUF) (b_prev h) in
      match c with
      | Some b =>
          upd_buf b (set_b_dev dv) ;;;
          upd_buf b (set_b_blockno bn) ;;;
          upd_buf b (set_b_valid 0) ;;;
          upd_buf b (set_b_refcnt 1) ;;;
          lk_ (rel BcacheLock) ;;;
          acquiresleep (SBuf b) ;;;
          ret b
      | None => panic "bget: no buffers"
      end
  end.

Definition bread (dv bn : Z) : M kern nat :=
  let* b := bget dv bn in
  let* x := getb b in
  when (negb (truthy (b_valid x))) (disk_rw b false ;;; upd_buf b (set_b_valid 1)) ;;;
  ret b.

Definition bwrite (b : nat) : M kern unit :=
  let* h := holdingsleep (SBuf b) in
  if negb h then panic "bwrite" else disk_rw b true.

(** Unlink [b] and put it at the front of the list. *)
Definition to_front (b : nat) : M kern unit :=
  let* x := getb b in
  upd_buf (b_next x) (set_b_prev (b_prev x)) ;;;
  let* x := getb b in
  upd_buf (b_prev x) (set_b_next (b_next x)) ;;;
  let* h := getb HEAD in
  upd_buf b (set_b_next (b_next h)) ;;;
  upd_buf b (set_b_prev HEAD) ;;;
  let* h := getb HEAD in
  upd_buf (b_next h) (set_b_prev b) ;;;
  upd_buf HEAD (set_b_next b).

Definition brelse (b : nat) : M kern unit :=
  let* h := holdingsleep (SBuf b) in
  if negb h then panic "brelse" else
  releasesleep (SBuf b) ;;;
  lk_ (acq BcacheLock) ;;;
  upd_buf b (fun x => set_b_refcnt (u32 (b_refcnt x - 1)) x) ;;;
  let* x := getb b in
  when (b_refcnt x =? 0) (to_front b) ;;;
  lk_ (rel BcacheLock).

Definition bpin (b : nat) : M kern unit :=
  lk_ (acq BcacheLock) ;;;
  upd_buf b (fun x => set_b_refcnt (u32 (b_refcnt x + 1)) x) ;;;
  lk_ (rel BcacheLock).

Definition bunpin (b : nat) : M kern unit :=
  lk_ (acq BcacheLock) ;;;
  upd_buf b (fun x => set_b_refcnt (u32 (b_refcnt x - 1)) x) ;;;
  lk_ (rel BcacheLock).

End Bio.
