(* ===== verification/BioList.v ===== *)
(** * The LRU list of the buffer cache

    The pointer structure of kernel/bio.c: circular doubly linked lists through
    [next] and [prev], the effect of unlinking and of linking at the front, and
    the refinement of the pointer code by operations on a list of buffers. *)

From S2P Require Import Prelude Riscv Mem Bytes StringLib Spinlock Kalloc Vm Proc ProcSpec Kctx State Sleeplock Bio.

(** ** Doubly linked segments *)

Definition upd (f : nat -> nat) (x y : nat) : nat -> nat := fun i => if decide (i = x) then y else f i.

Lemma upd_eq f x y : upd f x y x = y.
Proof. unfold upd. by rewrite decide_True. Qed.
Lemma upd_ne f x y i : i <> x -> upd f x y i = f i.
Proof. intros. unfold upd. by rewrite decide_False. Qed.

(** From [a] through the elements of [l] to [z]. *)
Fixpoint seg (nx pv : nat -> nat) (a : nat) (l : list nat) (z : nat) : Prop :=
  match l with
  | [] => nx a = z /\ pv z = a
  | b :: l => nx a = b /\ pv b = a /\ seg nx pv b l z
  end.

Lemma seg_ext nx pv nx' pv' z : forall l a,
  (forall x, x ∈ a :: l -> nx' x = nx x) -> (forall x, x ∈ l ++ [z] -> pv' x = pv x) ->
  seg nx pv a l z -> seg nx' pv' a l z.
Proof.
  induction l as [| b l IH]; intros a Hn Hp; cbn [seg].
  - rewrite Hn, Hp by set_solver. done.
  - rewrite (Hn a), (Hp b) by set_solver. intros (H1 & H2 & H3). split_and!; [done | done |].
    apply IH; [intros; apply Hn; set_solver | intros; apply Hp; set_solver | done].
Qed.

Lemma seg_prev_in nx pv b l2 z : forall l1 a, seg nx pv a (l1 ++ b :: l2) z -> pv b ∈ a :: l1.
Proof.
  induction l1 as [| c l1 IH]; intros a; cbn [app seg].
  - intros (_ & -> & _). set_solver.
  - intros (_ & _ & H%IH). set_solver.
Qed.

Lemma seg_next_in nx pv b l2 z : forall l1 a, seg nx pv a (l1 ++ b :: l2) z -> nx b ∈ l2 ++ [z].
Proof.
  induction l1 as [| c l1 IH]; intros a; cbn [app seg].
  - intros (_ & _ & H). destruct l2; cbn [seg app] in *; destruct H as [-> _]; set_solver.
  - intros (_ & _ & H%IH). done.
Qed.

Lemma seg_next_head nx pv a l z : seg nx pv a l z -> nx a ∈ l ++ [z].
Proof. destruct l; cbn [seg app]; intros [-> _]; set_solver. Qed.

Lemma seg_unlink nx pv b l2 z : forall l1 a,
  seg nx pv a (l1 ++ b :: l2) z -> NoDup (a :: l1 ++ b :: l2) -> z ∉ l1 ++ b :: l2 ->
  seg (upd nx (pv b) (nx b)) (upd pv (nx b) (pv b)) a (l1 ++ l2) z.
Proof.
  induction l1 as [| c l1 IH]; intros a Hs Hnd Hz; cbn [app] in *.
  - destruct Hs as (H1 & H2 & H3). rewrite H2. destruct l2 as [| c l2]; cbn [seg] in *.
    + destruct H3 as [<- _]. by rewrite !upd_eq.
    + destruct H3 as (-> & H4 & H5). rewrite !upd_eq. split_and!; [done | done |].
      apply NoDup_cons in Hnd as [Ha Hnd]. apply NoDup_cons in Hnd as [_ Hnd]. apply NoDup_cons in Hnd as [Hc _].
      eapply seg_ext, H5; intros x Hx; apply upd_ne; set_solver.
  - pose proof (seg_prev_in _ _ b l2 z (c :: l1) a Hs) as Hp. pose proof (seg_next_in _ _ b l2 z (c :: l1) a Hs) as Hn.
    destruct Hs as (H1 & H2 & H3). apply NoDup_cons in Hnd as [Ha Hnd].
    pose proof (seg_prev_in _ _ b l2 z l1 c H3) as Hp'. cbn [seg].
    split_and!; [| | apply IH; [done | done | set_solver]].
    + rewrite upd_ne; [done |]. intros ->. set_solver.
    + rewrite upd_ne; [done |]. intros ->. apply NoDup_cons in Hnd as [Hc _]. set_solver.
Qed.

Lemma seg_push nx pv h b l : seg nx pv h l h -> NoDup (h :: l) -> b ∉ h :: l ->
  seg (upd (upd nx b (nx h)) h b) (upd (upd pv b h) (nx h) b) h (b :: l) h.
Proof.
  intros Hs Hnd Hb. pose proof (seg_next_head _ _ _ _ _ Hs) as Hn. apply NoDup_cons in Hnd as [Hh Hnd]. cbn [seg].
  split_and!; [by rewrite upd_eq | |].
  - rewrite upd_ne, upd_eq; [done |]. intros ->. set_solver.
  - destruct l as [| c l]; cbn [seg] in *.
    + destruct Hs as [E _]. rewrite E, upd_ne, !upd_eq by set_solver. done.
    + destruct Hs as (-> & H2 & H3). rewrite upd_ne, !upd_eq by set_solver. split_and!; [done | done |].
      apply NoDup_cons in Hnd as [Hc Hnd].
      eapply seg_ext, H3; intros x Hx; rewrite !upd_ne; set_solver.
Qed.

(** ** The list in the cache *)

Definition nxf (bs : list buf) (i : nat) : nat := b_next (default buf0 (bs !! i)).
Definition pvf (bs : list buf) (i : nat) : nat := b_prev (default buf0 (bs !! i)).

(** [l] is the order of the buffers, most recently used first. *)
Record lru (bs : list buf) (l : list nat) : Prop := {
  lru_len : length bs = S NBUF;
  lru_perm : l ≡ₚ seq 0 NBUF;
  lru_seg : seg (nxf bs) (pvf bs) HEAD l HEAD }.

Lemma lru_nodup bs l : lru bs l -> NoDup (HEAD :: l).
Proof.
  intros H. rewrite (lru_perm _ _ H). apply NoDup_cons. split; [| apply NoDup_seq].
  rewrite elem_of_seq. unfold HEAD. lia.
Qed.

Lemma lru_elem bs l i : lru bs l -> i ∈ l <-> (i < NBUF)%nat.
Proof. intros H. rewrite (lru_perm _ _ H), elem_of_seq. lia. Qed.

(** Changes that leave the links alone. *)
Lemma lru_same bs bs' l : lru bs l -> length bs' = length bs ->
  (forall i, nxf bs' i = nxf bs i /\ pvf bs' i = pvf bs i) -> lru bs' l.
Proof.
  intros [H1 H2 H3] Hl Hf. split; [congruence | done |]. eapply seg_ext, H3; intros; by apply Hf.
Qed.

Lemma nxf_insert bs i b j : (i < length bs)%nat -> nxf (<[i := b]> bs) j = if decide (j = i) then b_next b else nxf bs j.
Proof.
  intros Hi. unfold nxf. case_decide as E; [subst; by rewrite list_lookup_insert_eq | by rewrite list_lookup_insert_ne].
Qed.
Lemma pvf_insert bs i b j : (i < length bs)%nat -> pvf (<[i := b]> bs) j = if decide (j = i) then b_prev b else pvf bs j.
Proof.
  intros Hi. unfold pvf. case_decide as E; [subst; by rewrite list_lookup_insert_eq | by rewrite list_lookup_insert_ne].
Qed.

Lemma lru_insert bs l i b x : lru bs l -> bs !! i = Some x -> b_next b = b_next x -> b_prev b = b_prev x ->
  lru (<[i := b]> bs) l.
Proof.
  intros H Hx Hn Hp. pose proof (lookup_lt_Some _ _ _ Hx). apply (lru_same bs); [done | by rewrite length_insert |].
  intros j. rewrite nxf_insert, pvf_insert by done. unfold nxf, pvf. case_decide; subst; by rewrite ?Hx.
Qed.

Definition setnx (x y : nat) (bs : list buf) : list buf := <[x := set_b_next y (default buf0 (bs !! x))]> bs.
Definition setpv (x y : nat) (bs : list buf) : list buf := <[x := set_b_prev y (default buf0 (bs !! x))]> bs.

Lemma length_setnx x y bs : length (setnx x y bs) = length bs.
Proof. apply length_insert. Qed.
Lemma length_setpv x y bs : length (setpv x y bs) = length bs.
Proof. apply length_insert. Qed.

Lemma nxf_setnx x y bs i : (x < length bs)%nat -> nxf (setnx x y bs) i = upd (nxf bs) x y i.
Proof. intros. unfold setnx. by rewrite nxf_insert. Qed.
Lemma pvf_setnx x y bs i : (x < length bs)%nat -> pvf (setnx x y bs) i = pvf bs i.
Proof. intros. unfold setnx. rewrite pvf_insert by done. case_decide; by subst. Qed.
Lemma nxf_setpv x y bs i : (x < length bs)%nat -> nxf (setpv x y bs) i = nxf bs i.
Proof. intros. unfold setpv. rewrite nxf_insert by done. case_decide; by subst. Qed.
Lemma pvf_setpv x y bs i : (x < length bs)%nat -> pvf (setpv x y bs) i = upd (pvf bs) x y i.
Proof. intros. unfold setpv. by rewrite pvf_insert. Qed.

(** A buffer without its links. *)
Definition unlinked (b : buf) : buf := set_b_next 0 (set_b_prev 0 b).

Lemma insert_same_list {A} (l : list A) i : forall x, l !! i = Some x -> <[i := x]> l = l.
Proof. intros. by apply list_insert_id. Qed.

Lemma unlinked_setnx x y bs : unlinked <$> setnx x y bs = unlinked <$> bs.
Proof.
  unfold setnx. rewrite list_fmap_insert. destruct (bs !! x) as [b |] eqn:E.
  - apply list_insert_id. rewrite list_lookup_fmap, E. by destruct b.
  - apply list_insert_ge. rewrite length_fmap. by apply lookup_ge_None.
Qed.
Lemma unlinked_setpv x y bs : unlinked <$> setpv x y bs = unlinked <$> bs.
Proof.
  unfold setpv. rewrite list_fmap_insert. destruct (bs !! x) as [b |] eqn:E.
  - apply list_insert_id. rewrite list_lookup_fmap, E. by destruct b.
  - apply list_insert_ge. rewrite length_fmap. by apply lookup_ge_None.
Qed.

(** The pointer code of [brelse]. *)
Definition front (b : nat) (bs : list buf) : list buf :=
  let bs1 := setpv (nxf bs b) (pvf bs b) bs in
  let bs2 := setnx (pvf bs1 b) (nxf bs1 b) bs1 in
  let bs3 := setnx b (nxf bs2 HEAD) bs2 in
  let bs4 := setpv b HEAD bs3 in
  let bs5 := setpv (nxf bs4 HEAD) b bs4 in
  setnx HEAD b bs5.

Lemma to_front_run `{PF : Platform} b s : to_front b s = Ok tt (set_kn_bufs (front b (kn_bufs s)) s).
Proof. done. Qed.

Lemma front_unlinked b bs : unlinked <$> front b bs = unlinked <$> bs.
Proof. unfold front. by rewrite !unlinked_setnx, !unlinked_setpv, !unlinked_setnx, !unlinked_setpv. Qed.

Lemma front_links b bs (nx2 := upd (nxf bs) (pvf bs b) (nxf bs b)) (pv2 := upd (pvf bs) (nxf bs b) (pvf bs b)) :
  (pvf bs b < length bs)%nat -> (nxf bs b < length bs)%nat -> (b < length bs)%nat -> (HEAD < length bs)%nat ->
  (nx2 HEAD < length bs)%nat -> nxf bs b <> b -> b <> HEAD ->
  forall i, nxf (front b bs) i = upd (upd nx2 b (nx2 HEAD)) HEAD b i /\
            pvf (front b bs) i = upd (upd pv2 b HEAD) (nx2 HEAD) b i.
Proof.
  intros Hp Hn Hb Hh Hm Hne HbH. unfold front.
  set (bs1 := setpv (nxf bs b) (pvf bs b) bs).
  assert (L1 : length bs1 = length bs) by apply length_setpv.
  assert (N1 : forall i, nxf bs1 i = nxf bs i) by (intros; by apply nxf_setpv).
  assert (P1 : forall i, pvf bs1 i = pv2 i) by (intros; by apply pvf_setpv).
  assert (Pb : pvf bs1 b = pvf bs b) by (rewrite P1; by apply upd_ne).
  rewrite Pb, N1. set (bs2 := setnx (pvf bs b) (nxf bs b) bs1).
  assert (L2 : length bs2 = length bs) by (unfold bs2; by rewrite length_setnx).
  assert (N2 : forall i, nxf bs2 i = nx2 i).
  { intros i. unfold bs2. rewrite nxf_setnx by lia. unfold nx2, upd. case_decide; [done | apply N1]. }
  assert (P2 : forall i, pvf bs2 i = pv2 i) by (intros i; unfold bs2; rewrite pvf_setnx by lia; apply P1).
  rewrite N2. set (bs3 := setnx b (nx2 HEAD) bs2).
  assert (L3 : length bs3 = length bs) by (unfold bs3; by rewrite length_setnx).
  assert (N3 : forall i, nxf bs3 i = upd nx2 b (nx2 HEAD) i).
  { intros i. unfold bs3. rewrite nxf_setnx by lia. unfold upd at 1 2. case_decide; [done | apply N2]. }
  assert (P3 : forall i, pvf bs3 i = pv2 i) by (intros i; unfold bs3; rewrite pvf_setnx by lia; apply P2).
  set (bs4 := setpv b HEAD bs3).
  assert (L4 : length bs4 = length bs) by (unfold bs4; by rewrite length_setpv).
  assert (N4 : forall i, nxf bs4 i = upd nx2 b (nx2 HEAD) i) by (intros i; unfold bs4; rewrite nxf_setpv by lia; apply N3).
  assert (P4 : forall i, pvf bs4 i = upd pv2 b HEAD i).
  { intros i. unfold bs4. rewrite pvf_setpv by lia. unfold upd at 1 2. case_decide; [done | apply P3]. }
  rewrite N4, upd_ne by done. intros i. split.
  - rewrite nxf_setnx by (rewrite length_setpv; lia). unfold upd at 1 2. case_decide; [done |].
    rewrite nxf_setpv by lia. apply N4.
  - rewrite pvf_setnx by (rewrite length_setpv; lia). rewrite pvf_setpv by lia. unfold upd at 1 2.
    case_decide; [done | apply P4].
Qed.

(** Moving a buffer to the front of the list, by its pointers. *)
Lemma front_lru b bs l1 l2 : lru bs (l1 ++ b :: l2) -> lru (front b bs) (b :: l1 ++ l2).
Proof.
  intros H. pose proof (lru_nodup _ _ H) as Hnd. pose proof H as [Hlen Hperm Hs].
  assert (Hin : forall x, x ∈ HEAD :: l1 ++ b :: l2 -> (x < length bs)%nat).
  { intros x [-> | Hx]%elem_of_cons; [rewrite Hlen; unfold HEAD; lia |]. apply (lru_elem _ _ _ H) in Hx. lia. }
  pose proof (seg_prev_in _ _ _ _ _ _ _ Hs) as Hp. pose proof (seg_next_in _ _ _ _ _ _ _ Hs) as Hn.
  assert (Hpl : (pvf bs b < length bs)%nat) by (apply Hin; set_solver).
  assert (Hnl : (nxf bs b < length bs)%nat) by (apply Hin; set_solver).
  assert (Hbl : (b < length bs)%nat) by (apply Hin; set_solver).
  assert (HHl : (HEAD < length bs)%nat) by (apply Hin; set_solver).
  assert (Hz : HEAD ∉ l1 ++ b :: l2) by (by apply NoDup_cons in Hnd as [? _]).
  assert (Hnb : nxf bs b <> b).
  { intros E. rewrite E in Hn. apply NoDup_cons in Hnd as [Hh Hnd]. apply NoDup_app in Hnd as (_ & _ & Hnd).
    apply NoDup_cons in Hnd as [? _]. set_solver. }
  pose proof (seg_unlink _ _ _ _ _ _ _ Hs Hnd Hz) as Hu.
  assert (Hnd' : NoDup (HEAD :: l1 ++ l2)).
  { eapply sublist_NoDup; [exact Hnd |]. apply sublist_skip, sublist_app; [done | by apply sublist_cons]. }
  assert (Hb' : b ∉ HEAD :: l1 ++ l2).
  { assert (P : HEAD :: l1 ++ b :: l2 ≡ₚ b :: HEAD :: l1 ++ l2) by solve_Permutation.
    rewrite P in Hnd. by apply NoDup_cons in Hnd as [? _]. }
  pose proof (seg_push _ _ _ _ _ Hu Hnd' Hb') as Hpush.
  assert (Hh : (upd (nxf bs) (pvf bs b) (nxf bs b) HEAD < length bs)%nat).
  { apply seg_next_head in Hu. apply Hin. set_solver. }
  pose proof (front_links b bs Hpl Hnl Hbl HHl Hh Hnb ltac:(set_solver)) as Hf. split.
  - unfold front. by rewrite !length_setnx, !length_setpv, !length_setnx, !length_setpv.
  - rewrite <- Hperm. solve_Permutation.
  - eapply seg_ext, Hpush; intros x _; by apply Hf.
Qed.
