(* ===== verification/BioSpec.v ===== *)
(** * The buffer cache as a view of the disk

    What kernel/bio.c promises to its clients. The cache presents a view of the
    disk's blocks ([v] below): the contents of cached blocks, and of the disk for
    the others. A process holds some blocks ([h] maps a held block to its buffer)
    and the log pins some ([pin]). Buffers that are neither held nor pinned agree
    with the disk, so recycling them does not change the view. *)

From S2P Require Import Prelude Riscv Mem Bytes StringLib Spinlock Kalloc Vm Proc ProcSpec Kctx State Sleeplock Bio BioList.

(** ** The disk *)

Definition io_same (io io' : iost) : Prop := io' = set_io_vd (io_vd io') io.

(** A well-behaved block device: reads return the block, writes replace it. A
    write may instead find that the power is gone, with the disk as it was. *)
Class BlockDevOk `{PF : Platform} (BD : BlockDev) := {
  dview : dev -> Z -> list Z;
  nblocks : Z;
  disk_ok : kern -> Prop;
  disk_ok_frame : forall s s', disk_ok s -> io_vd (kn_io s') = io_vd (kn_io s) -> kn_dev s' = kn_dev s -> disk_ok s';
  dview_len : forall d b, length (dview d b) = Z.to_nat BSIZE;
  disk_read : forall me s i x, kctx me (kn_k s) -> disk_ok s -> kn_bufs s !! i = Some x -> (i < NBUF)%nat ->
    b_disk x = 0 -> 0 <= b_blockno x < nblocks ->
    exists k' io' d', disk_rw i false s = Ok tt (mkKern k'
        (<[i := set_b_data (dview (kn_dev s) (b_blockno x)) x]> (kn_bufs s)) (kn_log s) (kn_sb s) (kn_inodes s) io' d') /\
      kframe (kn_k s) k' /\ io_same (kn_io s) io' /\ (forall b, dview d' b = dview (kn_dev s) b) /\
      disk_ok (mkKern k' (kn_bufs s) (kn_log s) (kn_sb s) (kn_inodes s) io' d');
  disk_write : forall me s i x, kctx me (kn_k s) -> disk_ok s -> kn_bufs s !! i = Some x -> (i < NBUF)%nat ->
    b_disk x = 0 -> 0 <= b_blockno x < nblocks -> length (b_data x) = Z.to_nat BSIZE ->
    (exists k' io' d', disk_rw i true s = Ok tt (mkKern k' (kn_bufs s) (kn_log s) (kn_sb s) (kn_inodes s) io' d') /\
      kframe (kn_k s) k' /\ io_same (kn_io s) io' /\
      (forall b, dview d' b = if b =? b_blockno x then b_data x else dview (kn_dev s) b) /\
      disk_ok (mkKern k' (kn_bufs s) (kn_log s) (kn_sb s) (kn_inodes s) io' d')) \/
    (exists s', disk_rw i true s = Panic "power off" s' /\ forall b, dview (kn_dev s') b = dview (kn_dev s) b) }.

(** ** The cache *)

Definition is_held (h : gmap Z nat) (b : Z) (i : nat) : bool := bool_decide (h !! b = Some i).
Definition count (b : bool) : Z := if b then 1 else 0.

(** Buffer [i]: free ([b_dev] is 0), or holding a block of the root device. *)
Record buf_ok (nb : Z) (v d : Z -> list Z) (h : gmap Z nat) (pin : gset Z) (pid : Z) (i : nat) (x : buf) : Prop := {
  bk_disk : b_disk x = 0;
  bk_len : length (b_data x) = Z.to_nat BSIZE;
  bk_free : b_dev x = 0 -> b_refcnt x = 0 /\ sk_locked (b_lock x) = 0;
  bk_dev : b_dev x = 0 \/ b_dev x = ROOTDEV;
  bk_used : b_dev x = ROOTDEV ->
    b_valid x = 1 /\ 0 <= b_blockno x < nb /\ b_data x = v (b_blockno x) /\
    b_refcnt x = count (is_held h (b_blockno x) i) + count (bool_decide (b_blockno x ∈ pin)) /\
    (if is_held h (b_blockno x) i then sk_locked (b_lock x) = 1 /\ sk_pid (b_lock x) = pid
     else sk_locked (b_lock x) = 0) /\
    (b_blockno x ∉ pin -> is_held h (b_blockno x) i = false -> b_data x = d (b_blockno x)) }.

Definition holds_block (bs : list buf) (b : Z) (i : nat) : Prop :=
  (i < NBUF)%nat /\ exists x, bs !! i = Some x /\ b_dev x = ROOTDEV /\ b_blockno x = b.

Record cache (nb : Z) (bs : list buf) (v d : Z -> list Z) (h : gmap Z nat) (pin : gset Z) (pid : Z) : Prop := {
  ca_uniq : forall b i j, holds_block bs b i -> holds_block bs b j -> i = j;
  ca_buf : forall i x, (i < NBUF)%nat -> bs !! i = Some x -> buf_ok nb v d h pin pid i x;
  ca_held : forall b i, h !! b = Some i -> holds_block bs b i;
  ca_pin : forall b, b ∈ pin -> exists i, holds_block bs b i;
  ca_view : forall b, 0 <= b < nb -> (forall i, ~ holds_block bs b i) -> v b = d b;
  ca_vlen : forall b, 0 <= b < nb -> length (v b) = Z.to_nat BSIZE }.

(** ** Searching *)

Lemma seg_rev nx pv z : forall l a, seg nx pv a l z <-> seg pv nx z (reverse l) a.
Proof.
  assert (Happ : forall nx pv l a b z, seg nx pv a (l ++ [b]) z <-> seg nx pv a l b /\ nx b = z /\ pv z = b).
  { clear. intros nx pv. induction l as [| c l IH]; intros a b z; cbn [app seg]; [tauto |]. rewrite IH. tauto. }
  induction l as [| b l IH]; intros a; cbn [seg]; [rewrite reverse_nil; cbn [seg]; split; (intros [? ?]; split; done) |].
  rewrite reverse_cons, Happ, <- IH. tauto.
Qed.

Section Search.
Context `{PF : Platform} `{PA : Patience}.

Definition bmatch (s : kern) (dv bn : Z) (i : nat) : Prop := b_dev (buf_at s i) = dv /\ b_blockno (buf_at s i) = bn.
#[global] Instance bmatch_dec s dv bn i : Decision (bmatch s dv bn i).
Proof. unfold bmatch. apply _. Defined.

Lemma bget_cached_run s dv bn : forall l a n, seg (nxf (kn_bufs s)) (pvf (kn_bufs s)) a l HEAD -> HEAD ∉ l ->
  (length l < n)%nat ->
  bget_cached n (nxf (kn_bufs s) a) dv bn s = Ok (snd <$> list_find (bmatch s dv bn) l) s.
Proof.
  induction l as [| b l IH]; intros a n Hs Hh Hn; (destruct n as [| n]; [simpl in Hn; lia |]); cbn [seg] in Hs; cbn [bget_cached].
  - destruct Hs as [-> _]. by rewrite bool_decide_eq_true_2.
  - destruct Hs as (-> & _ & Hs). rewrite bool_decide_eq_false_2 by set_solver.
    unfold bind, getb, gets. cbn [obind list_find]. unfold bmatch at 1.
    destruct (Z.eqb_spec (b_dev (buf_at s b)) dv) as [E1 | E1], (Z.eqb_spec (b_blockno (buf_at s b)) bn) as [E2 | E2];
      cbn [andb]; [by rewrite decide_True | rewrite decide_False by (by intros [? ?])..].
    all: change (b_next (buf_at s b)) with (nxf (kn_bufs s) b); rewrite IH; [| done | set_solver | simpl in Hn; lia].
    all: f_equal; destruct (list_find (bmatch s dv bn) l) as [[]|]; done.
Qed.

Lemma bget_lru_run s : forall l a n, seg (pvf (kn_bufs s)) (nxf (kn_bufs s)) a l HEAD -> HEAD ∉ l ->
  (length l < n)%nat ->
  bget_lru n (pvf (kn_bufs s) a) s = Ok (snd <$> list_find (fun i => b_refcnt (buf_at s i) = 0) l) s.
Proof.
  induction l as [| b l IH]; intros a n Hs Hh Hn; (destruct n as [| n]; [simpl in Hn; lia |]); cbn [seg] in Hs; cbn [bget_lru].
  - destruct Hs as [-> _]. by rewrite bool_decide_eq_true_2.
  - destruct Hs as (-> & _ & Hs). rewrite bool_decide_eq_false_2 by set_solver.
    unfold bind, getb, gets. cbn [obind list_find].
    destruct (Z.eqb_spec (b_refcnt (buf_at s b)) 0) as [E | E]; [by rewrite decide_True | rewrite decide_False by done].
    change (b_prev (buf_at s b)) with (pvf (kn_bufs s) b). rewrite IH; [| done | set_solver | simpl in Hn; lia].
    f_equal. destruct (list_find (fun i => b_refcnt (buf_at s i) = 0) l) as [[]|]; done.
Qed.

End Search.

(** ** Changing one buffer *)

Lemma holds_insert bs b i j x' : (i < length bs)%nat ->
  holds_block (<[i := x']> bs) b j <->
  (j < NBUF)%nat /\ if decide (j = i) then b_dev x' = ROOTDEV /\ b_blockno x' = b else holds_block bs b j.
Proof.
  intros Hi. unfold holds_block. case_decide as E; [subst j |].
  - rewrite list_lookup_insert_eq by done. naive_solver.
  - rewrite list_lookup_insert_ne by done. naive_solver.
Qed.

(** Buffer [i] comes to hold block [b]; what is known of other blocks stays. The
    block it held before, if another, was neither held nor pinned. *)
Lemma cache_upd nb bs i x x' b v d h pin v' d' h' pin' pid : cache nb bs v d h pin pid ->
  (i < NBUF)%nat -> bs !! i = Some x -> b_dev x' = ROOTDEV -> b_blockno x' = b ->
  (forall j, holds_block bs b j -> j = i) ->
  buf_ok nb v' d' h' pin' pid i x' ->
  (forall c, c <> b -> v' c = v c /\ d' c = d c /\ h' !! c = h !! c /\ (c ∈ pin' <-> c ∈ pin)) ->
  (b_dev x = 0 \/ b_blockno x = b \/ b_refcnt x = 0) ->
  (forall j, h' !! b = Some j -> j = i) ->
  cache nb (<[i := x']> bs) v' d' h' pin' pid.
Proof.
  intros [U B H P V L] Hi Hx Hd' Hb' Hbi Hx' Hc Hold Hhb. pose proof (lookup_lt_Some _ _ _ Hx) as Hl.
  assert (Hgone : forall c, b_dev x = ROOTDEV -> b_blockno x = c -> c <> b ->
    (c ∉ pin) /\ (forall j, h !! c <> Some j) /\ v c = d c).
  { intros c Hdx Hcx Hcb. destruct (B i x Hi Hx) as [_ _ _ _ Hu]. destruct (Hu Hdx) as (_ & _ & Hv & Hr & _ & Hcl).
    rewrite Hcx in *. destruct Hold as [? | [? | Hr0]]; [unfold ROOTDEV in *; congruence | congruence |].
    assert (is_held h c i = false /\ (c ∉ pin)) as [Hh Hp].
    { rewrite Hr0 in Hr. destruct (is_held h c i), (bool_decide_reflect (c ∈ pin)); simpl in Hr; try lia. done. }
    split_and!; [done | | rewrite <- Hv; by apply Hcl].
    intros j Hj. apply bool_decide_eq_false in Hh.
    assert (j = i); [| congruence]. apply (U c); [by apply H |]. split; [done |]. eauto. }
  split.
  - intros c j k. rewrite !holds_insert by done. intros [Hj1 Hj] [Hk1 Hk].
    destruct (decide (j = i)) as [Ej | Ej], (decide (k = i)) as [Ek | Ek]; [congruence | | | by eapply U].
    + exfalso. apply Ek, Hbi. destruct Hj as [_ Ec]. by rewrite <- Hb', Ec.
    + exfalso. apply Ej, Hbi. destruct Hk as [_ Ec]. by rewrite <- Hb', Ec.
  - intros j y Hj Hy. destruct (decide (j = i)) as [-> | Hne].
    + rewrite list_lookup_insert_eq in Hy by done. by simplify_eq.
    + rewrite list_lookup_insert_ne in Hy by done. destruct (B j y Hj Hy) as [H1 H2 H3 H4 H5]. split; try done.
      intros Hdy. assert (Hyb : b_blockno y <> b) by (intros <-; apply Hne, Hbi; split; eauto).
      destruct (Hc _ Hyb) as (-> & -> & Hh & Hp). unfold is_held. rewrite Hh, (bool_decide_ext _ _ Hp), Hp. by apply H5.
  - intros c j Hj. apply holds_insert; [done |]. destruct (decide (c = b)) as [-> | Hcb].
    + rewrite (Hhb j Hj). by rewrite decide_True.
    + destruct (Hc c Hcb) as (_ & _ & Hh & _). rewrite Hh in Hj. pose proof (H _ _ Hj) as Hhj.
      split; [apply Hhj |]. case_decide as E; [subst j | done]. exfalso.
      destruct Hhj as (_ & y & Hy & Hdy & Hby). simplify_eq. by destruct (Hgone _ Hdy eq_refl Hcb) as (_ & Hno & _); eapply Hno.
  - intros c Hcp. destruct (decide (c = b)) as [-> | Hcb].
    + exists i. apply holds_insert; [done |]. by rewrite decide_True.
    + destruct (Hc c Hcb) as (_ & _ & _ & Hp). apply Hp in Hcp. destruct (P c Hcp) as [j Hj]. exists j.
      apply holds_insert; [done |]. split; [apply Hj |]. case_decide as E; [subst j | done]. exfalso.
      destruct Hj as (_ & y & Hy & Hdy & Hby). simplify_eq. by destruct (Hgone _ Hdy eq_refl Hcb) as (? & _ & _).
  - intros c Hcn Hno. destruct (decide (c = b)) as [-> | Hcb].
    + exfalso. apply (Hno i), holds_insert; [done |]. by rewrite decide_True.
    + destruct (Hc c Hcb) as (-> & -> & _ & _).
      destruct (decide (b_dev x = ROOTDEV /\ b_blockno x = c)) as [[Hdx Hcx] | Hnx]; [by apply Hgone |].
      apply V; [done |]. intros j Hj. apply (Hno j), holds_insert; [done |]. split; [apply Hj |].
      case_decide as E; [subst j | done]. exfalso. apply Hnx. destruct Hj as (_ & y & Hy & ? & ?). by simplify_eq.
  - intros c Hcn. destruct (decide (c = b)) as [-> | Hcb]; [| destruct (Hc c Hcb) as (-> & _); by apply L].
    destruct Hx' as [_ Hlen _ _ Hu]. destruct (Hu Hd') as (_ & _ & Hv & _). rewrite Hb' in Hv. by rewrite <- Hv.
Qed.

(** Links do not matter. *)
Lemma unlinked_lookup (bs bs' : list buf) i x : unlinked <$> bs' = unlinked <$> bs -> bs' !! i = Some x ->
  exists y, bs !! i = Some y /\ unlinked x = unlinked y.
Proof.
  intros E Hx. assert (E' : (unlinked <$> bs') !! i = (unlinked <$> bs) !! i) by (by rewrite E).
  rewrite !list_lookup_fmap, Hx in E'. destruct (bs !! i) as [y |]; [| discriminate E'].
  exists y. split; [done |]. by apply (inj Some) in E'.
Qed.

Lemma unlinked_fields x y : unlinked x = unlinked y ->
  b_valid x = b_valid y /\ b_disk x = b_disk y /\ b_dev x = b_dev y /\ b_blockno x = b_blockno y /\
  b_lock x = b_lock y /\ b_refcnt x = b_refcnt y /\ b_data x = b_data y.
Proof. destruct x, y. unfold unlinked. simpl. intros [= -> -> -> -> -> -> ->]. done. Qed.

Lemma holds_unlinked (bs bs' : list buf) b i : unlinked <$> bs' = unlinked <$> bs -> holds_block bs' b i -> holds_block bs b i.
Proof.
  intros E (Hi & x & Hx & Hd & Hb). split; [done |]. destruct (unlinked_lookup _ _ _ _ E Hx) as (y & Hy & Exy).
  destruct (unlinked_fields _ _ Exy) as (? & ? & ? & ? & ? & ? & ?). exists y. split_and!; congruence.
Qed.

Lemma cache_unlinked nb (bs bs' : list buf) v d h pin pid : unlinked <$> bs' = unlinked <$> bs ->
  cache nb bs v d h pin pid -> cache nb bs' v d h pin pid.
Proof.
  intros E [U B H P V L]. assert (Hh : forall b i, holds_block bs' b i <-> holds_block bs b i).
  { intros b i. split; by apply holds_unlinked. }
  split; [setoid_rewrite Hh; done | | setoid_rewrite Hh; done | setoid_rewrite Hh; done | setoid_rewrite Hh; done | done].
  intros i x Hi Hx. destruct (unlinked_lookup _ _ _ _ E Hx) as (y & Hy & Exy). destruct (B i y Hi Hy) as [H1 H2 H3 H4 H5].
  destruct (unlinked_fields _ _ Exy) as (E1 & E2 & E3 & E4 & E5 & E6 & E7). split; rewrite ?E1, ?E2, ?E3, ?E4, ?E5, ?E6, ?E7; done.
Qed.

(** ** The operations on the cache *)

Section Ops.
Context (nb : Z) (bs : list buf) (v d : Z -> list Z) (h : gmap Z nat) (pin : gset Z) (pid : Z).
Context (Hc : cache nb bs v d h pin pid).

Lemma cache_block i x : (i < NBUF)%nat -> bs !! i = Some x -> b_dev x = ROOTDEV -> holds_block bs (b_blockno x) i.
Proof. intros. split; [done |]. eauto. Qed.

Lemma is_held_insert b i : is_held (<[b := i]> h) b i = true.
Proof. unfold is_held. rewrite lookup_insert_eq. by apply bool_decide_eq_true_2. Qed.

(** A cached block is taken. *)
Lemma cache_take i x b n : bs !! i = Some x -> holds_block bs b i -> h !! b = None ->
  cache nb (<[i := set_b_lock (mkSleeplock 1 n pid) (set_b_refcnt (b_refcnt x + 1) x)]> bs) v d (<[b := i]> h) pin pid.
Proof.
  intros Hx Hb Hh. destruct Hb as (Hi & y & Hy & Hd & Hbn). simplify_eq.
  destruct (ca_buf _ _ _ _ _ _ _ Hc i x Hi Hx) as [H1 H2 H3 H4 H5]. destruct (H5 Hd) as (K1 & K2 & K3 & K4 & K5 & K6).
  eapply (cache_upd nb bs i x); try done.
  - intros j Hj. eapply (ca_uniq _ _ _ _ _ _ _ Hc); [exact Hj | by apply (cache_block i x)].
  - assert (E : is_held h (b_blockno x) i = false) by (unfold is_held; rewrite Hh; by apply bool_decide_eq_false_2).
    split; try done; [unfold ROOTDEV in *; simpl; congruence |]. intros _. cbn. rewrite is_held_insert, K4, E. split_and!; try done; simpl; lia.
  - intros c Hne. rewrite lookup_insert_ne by done. done.
  - by right; left.
  - intros j. rewrite lookup_insert_eq. congruence.
Qed.

(** An unused buffer is recycled for an uncached block. *)
Lemma cache_recycle i x b n : (i < NBUF)%nat -> bs !! i = Some x -> b_refcnt x = 0 -> 0 <= b < nb ->
  (forall j, ~ holds_block bs b j) ->
  cache nb (<[i := mkBuf 1 0 ROOTDEV b (mkSleeplock 1 n pid) 1 (b_prev x) (b_next x) (d b)]> bs) v d (<[b := i]> h) pin pid.
Proof.
  intros Hi Hx Hr Hb Hno.
  assert (Hp : b ∉ pin) by (intros Hp; destruct (ca_pin _ _ _ _ _ _ _ Hc b Hp) as [j Hj]; by eapply Hno).
  pose proof (ca_view _ _ _ _ _ _ _ Hc b Hb Hno) as Hv.
  eapply (cache_upd nb bs i x); try done.
  - intros j Hj. by destruct (Hno j).
  - split; try done.
    + simpl. rewrite <- Hv. by apply (ca_vlen _ _ _ _ _ _ _ Hc).
    + by right.
    + intros _. cbn. rewrite is_held_insert, bool_decide_eq_false_2 by done. split_and!; try done; simpl; lia.
  - intros c Hne. rewrite lookup_insert_ne by done. done.
  - by right; right.
  - intros j. rewrite lookup_insert_eq. congruence.
Qed.

Lemma cache_held_buf b i x : h !! b = Some i -> bs !! i = Some x ->
  (i < NBUF)%nat /\ b_dev x = ROOTDEV /\ b_blockno x = b /\ b_valid x = 1 /\ 0 <= b < nb /\ b_data x = v b /\
  b_refcnt x = 1 + count (bool_decide (b ∈ pin)) /\ sk_locked (b_lock x) = 1 /\ sk_pid (b_lock x) = pid /\
  b_disk x = 0 /\ length (b_data x) = Z.to_nat BSIZE.
Proof.
  intros Hh Hx. destruct (ca_held _ _ _ _ _ _ _ Hc b i Hh) as (Hi & y & Hy & Hd & Hb). simplify_eq.
  destruct (ca_buf _ _ _ _ _ _ _ Hc i x Hi Hx) as [H1 H2 H3 H4 H5]. destruct (H5 Hd) as (K1 & K2 & K3 & K4 & K5 & K6).
  assert (E : is_held h (b_blockno x) i = true) by (by apply bool_decide_eq_true_2).
  rewrite E in K4, K5. destruct K5. done.
Qed.

(** The holder of a block changes its contents. *)
Lemma cache_set_data b i x y : h !! b = Some i -> bs !! i = Some x -> length y = Z.to_nat BSIZE ->
  cache nb (<[i := set_b_data y x]> bs) (fun c => if c =? b then y else v c) d h pin pid.
Proof.
  intros Hh Hx Hy. destruct (cache_held_buf b i x Hh Hx) as (Hi & Hd & Hb & Hv & Hbn & Hdat & Hr & Hl & Hpd & Hdk & Hln).
  assert (E : is_held h b i = true) by (by apply bool_decide_eq_true_2).
  eapply (cache_upd nb bs i x _ b); try done.
  - intros j Hj. eapply (ca_uniq _ _ _ _ _ _ _ Hc); [exact Hj |]. rewrite <- Hb. by apply (cache_block i x).
  - split; try done; [unfold ROOTDEV in *; simpl; congruence | by right |].
    intros _. cbn. rewrite Hb, E, Z.eqb_refl. split_and!; done || lia.
  - intros c Hne. destruct (Z.eqb_spec c b); done.
  - by right; left.
  - intros j. congruence.
Qed.

(** A held block reaches the disk. *)
Lemma cache_write b i : h !! b = Some i -> cache nb bs v (fun c => if c =? b then v b else d c) h pin pid.
Proof.
  intros Hh. destruct (ca_held _ _ _ _ _ _ _ Hc b i Hh) as (Hi & x & Hx & Hd & Hb).
  destruct (ca_buf _ _ _ _ _ _ _ Hc i x Hi Hx) as [H1 H2 H3 H4 H5]. destruct (H5 Hd) as (K1 & K2 & K3 & K4 & K5 & K6).
  rewrite <- (list_insert_id bs i x Hx). eapply (cache_upd nb bs i x _ b); try done.
  - intros j Hj. eapply (ca_uniq _ _ _ _ _ _ _ Hc); [exact Hj |]. rewrite <- Hb. by apply (cache_block i x).
  - split; try done. intros _. split_and!; try done; [apply K2 | apply K2 |]. intros _ _. rewrite Hb, Z.eqb_refl. congruence.
  - intros c Hne. destruct (Z.eqb_spec c b); done.
  - by right; left.
  - intros j. congruence.
Qed.

(** A block is released: it is pinned, or agrees with the disk. *)
Lemma cache_release b i x n : h !! b = Some i -> bs !! i = Some x -> b ∈ pin \/ v b = d b ->
  cache nb (<[i := set_b_lock (mkSleeplock 0 n 0) (set_b_refcnt (b_refcnt x - 1) x)]> bs) v d (delete b h) pin pid.
Proof.
  intros Hh Hx Hp. destruct (cache_held_buf b i x Hh Hx) as (Hi & Hd & Hb & Hv & Hbn & Hdat & Hr & Hl & Hpd & Hdk & Hln).
  assert (E : is_held (delete b h) b i = false) by (apply bool_decide_eq_false_2; by rewrite lookup_delete_eq).
  eapply (cache_upd nb bs i x _ b); try done.
  - intros j Hj. eapply (ca_uniq _ _ _ _ _ _ _ Hc); [exact Hj |]. rewrite <- Hb. by apply (cache_block i x).
  - split; try done; [unfold ROOTDEV in *; simpl; congruence | by right |].
    intros _. cbn. rewrite Hb, E. split_and!; try done; [lia | lia | simpl; lia |]. intros Hnp _. destruct Hp; [done | congruence].
  - intros c Hne. rewrite lookup_delete_ne by done. done.
  - by right; left.
  - intros j. rewrite lookup_delete_eq. congruence.
Qed.

Lemma cache_do_pin b i x : h !! b = Some i -> bs !! i = Some x -> b ∉ pin ->
  cache nb (<[i := set_b_refcnt (b_refcnt x + 1) x]> bs) v d h ({[b]} ∪ pin) pid.
Proof.
  intros Hh Hx Hp. destruct (cache_held_buf b i x Hh Hx) as (Hi & Hd & Hb & Hv & Hbn & Hdat & Hr & Hl & Hpd & Hdk & Hln).
  assert (E : is_held h b i = true) by (by apply bool_decide_eq_true_2).
  rewrite bool_decide_eq_false_2 in Hr by done.
  eapply (cache_upd nb bs i x _ b); try done.
  - intros j Hj. eapply (ca_uniq _ _ _ _ _ _ _ Hc); [exact Hj |]. rewrite <- Hb. by apply (cache_block i x).
  - split; try done; [unfold ROOTDEV in *; simpl; congruence | by right |].
    intros _. cbn. rewrite Hb, E, bool_decide_eq_true_2 by set_solver. split_and!; try done; simpl in *; lia.
  - intros c Hne. set_solver.
  - by right; left.
  - intros j. congruence.
Qed.

Lemma cache_unpin b i x : h !! b = Some i -> bs !! i = Some x -> b ∈ pin ->
  cache nb (<[i := set_b_refcnt (b_refcnt x - 1) x]> bs) v d h (pin ∖ {[b]}) pid.
Proof.
  intros Hh Hx Hp. destruct (cache_held_buf b i x Hh Hx) as (Hi & Hd & Hb & Hv & Hbn & Hdat & Hr & Hl & Hpd & Hdk & Hln).
  assert (E : is_held h b i = true) by (by apply bool_decide_eq_true_2).
  rewrite bool_decide_eq_true_2 in Hr by done.
  eapply (cache_upd nb bs i x _ b); try done.
  - intros j Hj. eapply (ca_uniq _ _ _ _ _ _ _ Hc); [exact Hj |]. rewrite <- Hb. by apply (cache_block i x).
  - split; try done; [unfold ROOTDEV in *; simpl; congruence | by right |].
    intros _. cbn. rewrite Hb, E, bool_decide_eq_false_2 by set_solver. split_and!; try done; simpl in *; lia.
  - intros c Hne. set_solver.
  - by right; left.
  - intros j. congruence.
Qed.

(** If fewer than [NBUF] blocks are held or pinned, some buffer is unused. *)
Lemma cache_room : length bs = S NBUF -> (size (dom h ∪ pin) < NBUF)%nat ->
  exists i x, (i < NBUF)%nat /\ bs !! i = Some x /\ b_refcnt x = 0.
Proof.
  intros Hlen Hsz. destruct (decide (Forall (fun x => b_refcnt x <> 0) (take NBUF bs))) as [Hall | Hex].
  - exfalso. set (bl := b_blockno <$> take NBUF bs).
    assert (Hblk : forall i x, take NBUF bs !! i = Some x -> (i < NBUF)%nat /\ bs !! i = Some x /\ b_dev x = ROOTDEV).
    { intros i x Hix. pose proof (Forall_lookup_1 _ _ _ _ Hall Hix) as Hr. apply lookup_take_Some in Hix as [Hix Hi].
      split_and!; [done | done |]. destruct (ca_buf _ _ _ _ _ _ _ Hc i x Hi Hix) as [_ _ H3 H4 _]. destruct H4 as [H4 | H4]; [| done].
      destruct (H3 H4). done. }
    assert (Hnd : NoDup bl).
    { apply NoDup_alt. intros i j b Hi Hj. apply list_lookup_fmap_Some in Hi as (x & -> & Hx).
      apply list_lookup_fmap_Some in Hj as (y & Exy & Hy).
      destruct (Hblk i x Hx) as (Hi & Hx' & Hdx), (Hblk j y Hy) as (Hj & Hy' & Hdy).
      eapply (ca_uniq _ _ _ _ _ _ _ Hc (b_blockno x)); [by apply cache_block | rewrite Exy; by apply cache_block]. }
    assert (Hsub : (list_to_set bl : gset Z) ⊆ dom h ∪ pin).
    { intros b Hb. apply elem_of_list_to_set, list_elem_of_fmap in Hb as (x & -> & Hx). apply list_elem_of_lookup in Hx as [i Hx].
      pose proof (Forall_lookup_1 _ _ _ _ Hall Hx) as Hr. destruct (Hblk i x Hx) as (Hi & Hx' & Hdx).
      destruct (ca_buf _ _ _ _ _ _ _ Hc i x Hi Hx') as [_ _ _ _ H5]. destruct (H5 Hdx) as (_ & _ & _ & K4 & _).
      destruct (bool_decide_reflect (b_blockno x ∈ pin)); [set_solver |]. unfold is_held in K4.
      destruct (bool_decide_reflect (h !! b_blockno x = Some i)) as [Hh | Hh]; [| cbn beta in Hr; by rewrite K4 in Hr].
      apply elem_of_union_l, elem_of_dom. eauto. }
    apply subseteq_size in Hsub. rewrite size_list_to_set in Hsub by done. unfold bl in Hsub.
    rewrite length_fmap, length_take in Hsub. lia.
  - apply not_Forall_Exists in Hex; [| intros ?; apply _]. apply Exists_exists in Hex as (x & Hx & Hr).
    apply list_elem_of_lookup in Hx as [i Hx]. apply lookup_take_Some in Hx as [Hx Hi]. exists i, x. split_and!; try done.
    by destruct (decide (b_refcnt x = 0)).
Qed.

End Ops.
