(* ===== verification/BioRun.v ===== *)
(** * Running the buffer cache

    [bread], [bwrite], [brelse], [bpin] and [bunpin] maintain the view of
    [BioSpec] and do to it what their clients expect. *)

From S2P Require Import Prelude Riscv Mem Bytes StringLib Spinlock Kalloc Vm Proc ProcSpec Kctx State Sleeplock Bio BioList BioSpec.

(** Compute with explicit kernel states. *)
Ltac ksimpl :=
  cbn [kn_k kn_bufs kn_log kn_sb kn_inodes kn_io kn_dev set_kn_k set_kn_bufs set_kn_log set_kn_sb
       set_kn_inodes set_kn_io set_kn_dev sl_get sl_set sl_lk obind].

(** Normal form of explicit states: one update per component, in a fixed order. *)
Section Norm.
Context `{PF : Platform}.
Implicit Types s : kern.
Lemma set_bufs_bufs b b' s : set_kn_bufs b (set_kn_bufs b' s) = set_kn_bufs b s.
Proof. done. Qed.
Lemma set_bufs_k b k s : set_kn_bufs b (set_kn_k k s) = set_kn_k k (set_kn_bufs b s).
Proof. done. Qed.
Lemma set_log_log b b' s : set_kn_log b (set_kn_log b' s) = set_kn_log b s.
Proof. done. Qed.
Lemma set_log_k b k s : set_kn_log b (set_kn_k k s) = set_kn_k k (set_kn_log b s).
Proof. done. Qed.
Lemma set_log_bufs b k s : set_kn_log b (set_kn_bufs k s) = set_kn_bufs k (set_kn_log b s).
Proof. done. Qed.
Lemma set_inodes_inodes b b' s : set_kn_inodes b (set_kn_inodes b' s) = set_kn_inodes b s.
Proof. done. Qed.
Lemma set_inodes_k b k s : set_kn_inodes b (set_kn_k k s) = set_kn_k k (set_kn_inodes b s).
Proof. done. Qed.
End Norm.
Create Rewrite HintDb kern.
#[export] Hint Rewrite @set_kn_k_k @set_bufs_bufs @set_bufs_k @set_log_log @set_log_k @set_log_bufs
  @set_inodes_inodes @set_inodes_k : kern.
Ltac knorm := autorewrite with kern.

Section Run.
Context `{PF : Platform} `{PA : Patience} `{BD : !BlockDev} `{BO : !BlockDevOk BD}.

Definition dv (s : kern) : Z -> list Z := dview (kn_dev s).

Record bio (me : nat) (s : kern) (v : Z -> list Z) (h : gmap Z nat) (pin : gset Z) : Prop := {
  bo_ctx : kctx me (kn_k s);
  bo_disk : disk_ok s;
  bo_lru : exists l, lru (kn_bufs s) l;
  bo_cache : cache nblocks (kn_bufs s) v (dv s) h pin (p_pid (proc_at (kn_k s) me)) }.

(** What the cache leaves alone. *)
Record bframe (s s' : kern) : Prop := {
  bf_k : kframe (kn_k s) (kn_k s');
  bf_log : kn_log s' = kn_log s;
  bf_sb : kn_sb s' = kn_sb s;
  bf_inodes : kn_inodes s' = kn_inodes s;
  bf_io : io_same (kn_io s) (kn_io s') }.

Lemma io_same_refl io : io_same io io.
Proof. by destruct io. Qed.
Lemma io_same_trans a b c : io_same a b -> io_same b c -> io_same a c.
Proof. unfold io_same. intros H1 H2. rewrite H2, H1. done. Qed.

Lemma bframe_refl s : bframe s s.
Proof. split; try done; [apply kframe_refl | apply io_same_refl]. Qed.

Lemma bframe_trans me s1 s2 s3 : kctx me (kn_k s1) -> bframe s1 s2 -> bframe s2 s3 -> bframe s1 s3.
Proof.
  intros Hk [A1 A2 A3 A4 A5] [B1 B2 B3 B4 B5]. split; try congruence; [| by eapply io_same_trans].
  by eapply (kframe_trans 8); [apply Hk | |].
Qed.

(** The view does not depend on the extension of the functions. *)
Lemma cache_ext nb bs v v' d d' h pin pid : (forall b, v' b = v b) -> (forall b, d' b = d b) ->
  cache nb bs v d h pin pid -> cache nb bs v' d' h pin pid.
Proof.
  intros Hv Hd [U B H P V L]. split; try done.
  - intros i x Hi Hx. destruct (B i x Hi Hx) as [H1 H2 H3 H4 H5]. split; try done. intros Hdx. rewrite Hv, Hd. by apply H5.
  - intros b Hb Hno. rewrite Hv, Hd. by apply V.
  - intros b Hb. rewrite Hv. by apply L.
Qed.

Lemma bio_ext me s v v' h pin : (forall b, v' b = v b) -> bio me s v h pin -> bio me s v' h pin.
Proof. intros Hv []. split; try done. by eapply cache_ext. Qed.

Lemma bcache_free i k : kctx i k -> lock_free (khw k) BcacheLock.
Proof. intros H. by apply H. Qed.

Lemma lookup_head s l : lru (kn_bufs s) l -> exists x, kn_bufs s !! HEAD = Some x.
Proof. intros H. apply lookup_lt_is_Some_2. rewrite (lru_len _ _ H). unfold HEAD. lia. Qed.

(** ** bget *)

(** The first half of [bget], up to the release of the cache lock. *)
Definition bget_find (s : kern) (l : list nat) (bn : Z) : option nat :=
  snd <$> list_find (bmatch s ROOTDEV bn) l.

Lemma bmatch_holds s l bn i : lru (kn_bufs s) l -> i ∈ l -> bmatch s ROOTDEV bn i <-> holds_block (kn_bufs s) bn i.
Proof.
  intros Hl Hi. apply (lru_elem _ _ _ Hl) in Hi. unfold bmatch, holds_block, buf_at.
  destruct (lookup_lt_is_Some_2 (kn_bufs s) i) as [x Hx]; [rewrite (lru_len _ _ Hl); lia |]. rewrite Hx. simpl. naive_solver.
Qed.

Lemma bget_find_spec s l bn : lru (kn_bufs s) l ->
  match bget_find s l bn with
  | Some i => holds_block (kn_bufs s) bn i
  | None => forall j, ~ holds_block (kn_bufs s) bn j
  end.
Proof.
  intros Hl. unfold bget_find. destruct (list_find (bmatch s ROOTDEV bn) l) as [[n i] |] eqn:E; simpl.
  - apply list_find_Some in E as (Hi & Hm & _). apply (bmatch_holds s l); [done | | done]. by eapply list_elem_of_lookup_2.
  - intros j Hj. apply list_find_None in E. rewrite Forall_forall in E. assert (Hjl : j ∈ l) by (apply (lru_elem _ _ _ Hl), Hj).
    apply (E j Hjl). by apply (bmatch_holds s l).
Qed.

Lemma cached_run s l bn : lru (kn_bufs s) l ->
  bget_cached (S NBUF) (b_next (buf_at s HEAD)) ROOTDEV bn s = Ok (bget_find s l bn) s.
Proof.
  intros Hl. apply (bget_cached_run s ROOTDEV bn l HEAD); [apply Hl | |].
  - pose proof (lru_nodup _ _ Hl) as H. by apply NoDup_cons in H as [? _].
  - rewrite (lru_perm _ _ Hl), length_seq. lia.
Qed.

Lemma lru_run s l : lru (kn_bufs s) l -> (exists i x, (i < NBUF)%nat /\ kn_bufs s !! i = Some x /\ b_refcnt x = 0) ->
  exists i x, bget_lru (S NBUF) (b_prev (buf_at s HEAD)) s = Ok (Some i) s /\
    (i < NBUF)%nat /\ kn_bufs s !! i = Some x /\ b_refcnt x = 0.
Proof.
  intros Hl (j & y & Hj & Hy & Hr).
  rewrite (bget_lru_run s (reverse l) HEAD).
  - destruct (list_find (fun i => b_refcnt (buf_at s i) = 0) (reverse l)) as [[n i] |] eqn:E; simpl.
    + apply list_find_Some in E as (Hi & Hz & _). apply list_elem_of_lookup_2 in Hi. rewrite elem_of_reverse in Hi.
      apply (lru_elem _ _ _ Hl) in Hi. destruct (lookup_lt_is_Some_2 (kn_bufs s) i) as [x Hx]; [rewrite (lru_len _ _ Hl); lia |].
      exists i, x. split_and!; try done. unfold buf_at in Hz. by rewrite Hx in Hz.
    + exfalso. apply list_find_None in E. rewrite Forall_forall in E. apply (E j).
      * rewrite elem_of_reverse. by apply (lru_elem _ _ _ Hl).
      * unfold buf_at. by rewrite Hy.
  - apply seg_rev. rewrite reverse_involutive. apply Hl.
  - rewrite elem_of_reverse. pose proof (lru_nodup _ _ Hl) as H. by apply NoDup_cons in H as [? _].
  - rewrite length_reverse, (lru_perm _ _ Hl), length_seq. lia.
Qed.

Lemma buf_at_lookup s i x : kn_bufs s !! i = Some x -> buf_at s i = x.
Proof. intros H. unfold buf_at. by rewrite H. Qed.

Lemma upd_buf_run s i x f : kn_bufs s !! i = Some x ->
  upd_buf i f s = Ok tt (set_kn_bufs (<[i := f x]> (kn_bufs s)) s).
Proof. intros H. unfold upd_buf, modify. by rewrite (buf_at_lookup _ _ _ H). Qed.

(** [acquiresleep] on buffer [i]. *)
Lemma acquiresleep_buf me s i x : kctx me (kn_k s) -> (i < NBUF)%nat -> kn_bufs s !! i = Some x ->
  sk_locked (b_lock x) = 0 ->
  acquiresleep (SBuf i) s = Ok tt (set_kn_k (cyc (kn_k s)) (set_kn_bufs
    (<[i := set_b_lock (mkSleeplock 1 (sk_name (b_lock x)) (p_pid (proc_at (kn_k s) me))) x]> (kn_bufs s)) s)).
Proof.
  intros Hk Hi Hx Hl. rewrite (acquiresleep_run me).
  - cbn [sl_set sl_get]. by rewrite (buf_at_lookup _ _ _ Hx).
  - done.
  - split; [done | by eapply lookup_lt_Some].
  - cbn [sl_get]. by rewrite (buf_at_lookup _ _ _ Hx).
Qed.

Lemma proc_at_cyc k i : proc_at (cyc k) i = proc_at k i.
Proof. done. Qed.
Lemma proc_at_locked lk k i : proc_at (locked lk k) i = proc_at k i.
Proof. done. Qed.

Lemma bget_hit me s l bn i x : kctx me (kn_k s) -> lru (kn_bufs s) l -> kn_bufs s !! i = Some x ->
  bget_find s l bn = Some i -> (i < NBUF)%nat -> sk_locked (b_lock x) = 0 -> 0 <= b_refcnt x < 2^31 ->
  bget ROOTDEV bn s = Ok i (set_kn_k (cyc (kn_k s)) (set_kn_bufs (<[i :=
      set_b_lock (mkSleeplock 1 (sk_name (b_lock x)) (p_pid (proc_at (kn_k s) me)))
        (set_b_refcnt (b_refcnt x + 1) x)]> (kn_bufs s)) s)).
Proof.
  intros Hk Hl Hx Hf Hi Hlk Hr. unfold bget.
  rewrite (bind_ok _ _ _ _ _ (acq_k me BcacheLock s Hk eq_refl)).
  set (s1 := set_kn_k (locked BcacheLock (kn_k s)) s). unfold bind at 1, getb at 1, gets. cbn [obind].
  rewrite (bind_ok _ _ _ _ _ (cached_run s1 l bn Hl)).
  change (bget_find s1 l bn) with (bget_find s l bn). rewrite Hf.
  rewrite (bind_ok _ _ _ _ _ (upd_buf_run s1 i x _ Hx)).
  unfold u32. rewrite Z.mod_small by lia.
  unfold s1. knorm.
  rewrite (bind_ok _ _ _ _ _ (rel_k me BcacheLock _ _ Hk eq_refl)).
  assert (Hlt : (i < length (kn_bufs s))%nat) by (by eapply lookup_lt_Some).
  erewrite (bind_ok (acquiresleep (SBuf i))).
  2: { apply (acquiresleep_buf me _ i (set_b_refcnt (b_refcnt x + 1) x)).
       - by apply kctx_cyc.
       - done.
       - by apply list_lookup_insert_eq.
       - done. }
  unfold ret. ksimpl. rewrite list_insert_insert_eq, proc_at_cyc. by rewrite (cyc_cyc _ _ Hk).
Qed.

Lemma bget_miss me s l bn : kctx me (kn_k s) -> lru (kn_bufs s) l -> bget_find s l bn = None ->
  (exists i x, (i < NBUF)%nat /\ kn_bufs s !! i = Some x /\ b_refcnt x = 0) ->
  (forall i x, (i < NBUF)%nat -> kn_bufs s !! i = Some x -> b_refcnt x = 0 -> sk_locked (b_lock x) = 0) ->
  exists i x, (i < NBUF)%nat /\ kn_bufs s !! i = Some x /\ b_refcnt x = 0 /\
    bget ROOTDEV bn s = Ok i (set_kn_k (cyc (kn_k s)) (set_kn_bufs (<[i :=
      mkBuf 0 (b_disk x) ROOTDEV bn (mkSleeplock 1 (sk_name (b_lock x)) (p_pid (proc_at (kn_k s) me))) 1
        (b_prev x) (b_next x) (b_data x)]> (kn_bufs s)) s)).
Proof.
  intros Hk Hl Hf Hroom Hfree. unfold bget.
  rewrite (bind_ok _ _ _ _ _ (acq_k me BcacheLock s Hk eq_refl)).
  set (s1 := set_kn_k (locked BcacheLock (kn_k s)) s). unfold bind at 1, getb at 1, gets. cbn [obind].
  rewrite (bind_ok _ _ _ _ _ (cached_run s1 l bn Hl)).
  change (bget_find s1 l bn) with (bget_find s l bn). rewrite Hf.
  unfold bind at 1, getb at 1, gets. cbn [obind].
  destruct (lru_run s1 l Hl Hroom) as (i & x & E & Hi & Hx & Hr). exists i, x. split_and!; try done.
  rewrite (bind_ok _ _ _ _ _ E).
  assert (Hlt : (i < length (kn_bufs s))%nat) by (by eapply lookup_lt_Some).
  rewrite (bind_ok _ _ _ _ _ (upd_buf_run s1 i x _ Hx)).
  set (s2 := set_kn_bufs _ s1).
  assert (H2 : kn_bufs s2 !! i = Some (set_b_dev ROOTDEV x)) by (by apply list_lookup_insert_eq).
  rewrite (bind_ok _ _ _ _ _ (upd_buf_run s2 i _ _ H2)). set (s3 := set_kn_bufs _ s2).
  assert (H3 : kn_bufs s3 !! i = Some (set_b_blockno bn (set_b_dev ROOTDEV x))).
  { apply list_lookup_insert_eq. cbn. by rewrite length_insert. }
  rewrite (bind_ok _ _ _ _ _ (upd_buf_run s3 i _ _ H3)). set (s4 := set_kn_bufs _ s3).
  assert (H4 : kn_bufs s4 !! i = Some (set_b_valid 0 (set_b_blockno bn (set_b_dev ROOTDEV x)))).
  { apply list_lookup_insert_eq. cbn. by rewrite !length_insert. }
  rewrite (bind_ok _ _ _ _ _ (upd_buf_run s4 i _ _ H4)).
  unfold s4, s3, s2, s1. knorm. ksimpl. rewrite !list_insert_insert_eq.
  rewrite (bind_ok _ _ _ _ _ (rel_k me BcacheLock _ _ Hk eq_refl)).
  erewrite (bind_ok (acquiresleep (SBuf i))).
  2: { apply (acquiresleep_buf me _ i); [by apply kctx_cyc | done | by apply list_lookup_insert_eq |].
       cbn. by apply (Hfree i x). }
  unfold ret. ksimpl. rewrite list_insert_insert_eq, proc_at_cyc, (cyc_cyc _ _ Hk). done.
Qed.

(** ** bread *)

Lemma refcnt_small nb v d h pin pid i x : buf_ok nb v d h pin pid i x -> 0 <= b_refcnt x <= 2.
Proof.
  intros [_ _ H3 H4 H5]. destruct H4 as [H4 | H4]; [destruct (H3 H4); lia |].
  destruct (H5 H4) as (_ & _ & _ & -> & _). unfold count. repeat case_match; lia.
Qed.

Lemma unused_unlocked nb v d h pin pid i x : buf_ok nb v d h pin pid i x -> b_refcnt x = 0 -> sk_locked (b_lock x) = 0.
Proof.
  intros [_ _ H3 H4 H5] Hr. destruct H4 as [H4 | H4]; [by destruct (H3 H4) |].
  destruct (H5 H4) as (_ & _ & _ & Hc & Hl & _). unfold count in Hc. repeat case_match; (done || lia).
Qed.

Lemma disk_ok_same s s' : disk_ok s -> kn_io s' = kn_io s -> kn_dev s' = kn_dev s -> disk_ok s'.
Proof. intros H E1 E2. eapply disk_ok_frame; [done | congruence | done]. Qed.

Lemma pid_frame me k k' : kframe k k' -> p_pid (proc_at k' me) = p_pid (proc_at k me).
Proof. apply kframe_pid. Qed.

(** [bread] returns a buffer with the view's contents of the block, and takes
    the block. It needs a free buffer unless the block is cached. *)
Lemma bread_run me s v h pin b : bio me s v h pin -> 0 <= b < nblocks -> h !! b = None ->
  (exists j, holds_block (kn_bufs s) b j) \/ (size (dom h ∪ pin) < NBUF)%nat ->
  exists i s', bread ROOTDEV b s = Ok i s' /\ bio me s' v (<[b := i]> h) pin /\ bframe s s' /\
    (forall c, dv s' c = dv s c).
Proof.
  intros [Hk Hd [l Hl] Hc] Hb Hh Hroom. unfold bread. pose proof (bget_find_spec s l b Hl) as Hf.
  destruct (bget_find s l b) as [i |] eqn:E.
  - destruct Hf as (Hi & x & Hx & Hdx & Hbx). pose proof (ca_buf _ _ _ _ _ _ _ Hc i x Hi Hx) as Hok.
    pose proof (refcnt_small _ _ _ _ _ _ _ _ Hok) as Hr.
    destruct Hok as [K1 K2 K3 K4 K5]. destruct (K5 Hdx) as (Hv & _ & _ & _ & Hlock & _).
    assert (Hnh : is_held h (b_blockno x) i = false) by (unfold is_held; rewrite Hbx, Hh; by apply bool_decide_eq_false_2).
    rewrite Hnh in Hlock.
    rewrite (bind_ok _ _ _ _ _ (bget_hit me s l b i x Hk Hl Hx E Hi Hlock ltac:(lia))).
    set (x1 := set_b_lock _ _). assert (Hv1 : b_valid x1 = 1) by done.
    unfold bind at 1, getb, gets. cbn [obind].
    erewrite buf_at_lookup by (apply list_lookup_insert_eq; by eapply lookup_lt_Some).
    rewrite Hv1. cbn [truthy Z.eqb negb when].
    eexists i, _. split; [done |]. split; [| split; [split; try done; [apply kframe_cyc | apply io_same_refl] | done]].
    split; [by apply kctx_cyc | by eapply disk_ok_same | exists l | ].
    + eapply lru_insert; [done | done | done | done].
    + rewrite (pid_frame _ _ _ (kframe_cyc (kn_k s))). eapply cache_take; [done | done | | done].
      split; [done |]. eauto.
  - assert (Hex : exists i x, (i < NBUF)%nat /\ kn_bufs s !! i = Some x /\ b_refcnt x = 0).
    { destruct Hroom as [[j Hj] | Hsz]; [by destruct (Hf j) |]. eapply cache_room; [done | apply Hl | done]. }
    destruct (bget_miss me s l b Hk Hl E Hex) as (i & x & Hi & Hx & Hr & Eg).
    { intros j y Hj Hy. by eapply unused_unlocked, (ca_buf _ _ _ _ _ _ _ Hc). }
    rewrite (bind_ok _ _ _ _ _ Eg). set (x1 := mkBuf 0 _ _ _ _ _ _ _ _). set (s1 := set_kn_k _ _).
    pose proof (lookup_lt_Some _ _ _ Hx) as Hlt.
    assert (Hx1 : kn_bufs s1 !! i = Some x1) by (by apply list_lookup_insert_eq).
    assert (Hdk : b_disk x = 0) by (apply (ca_buf _ _ _ _ _ _ _ Hc i x Hi Hx)).
    unfold bind at 1, getb, gets. cbn [obind]. rewrite (buf_at_lookup _ _ _ Hx1). cbn [b_valid x1 truthy Z.eqb negb when].
    destruct (disk_read me s1 i x1) as (k' & io' & d' & Er & HF & Hio & Hdv & Hok); try done.
    { by apply kctx_cyc. }
    { by eapply disk_ok_same. }
    unfold bind at 1. rewrite (bind_ok _ _ _ _ _ Er). set (s2 := mkKern _ _ _ _ _ _ _).
    assert (Hx2 : kn_bufs s2 !! i = Some (set_b_data (dview (kn_dev s1) b) x1)).
    { apply list_lookup_insert_eq. by eapply lookup_lt_Some. }
    rewrite (upd_buf_run s2 i _ _ Hx2). cbn [obind].
    assert (HF' : kframe (kn_k s) k') by (eapply kframe_trans; [apply Hk | apply kframe_cyc | exact HF]).
    eexists i, _. split; [done |]. split; [| split; [split; done | exact Hdv]].
    split; [by eapply kctx_frame | by eapply disk_ok_same | exists l |].
    + unfold s2, s1. ksimpl. rewrite !list_insert_insert_eq. by eapply lru_insert.
    + unfold s2, s1. ksimpl. rewrite !list_insert_insert_eq. rewrite (pid_frame _ _ _ HF').
      eapply cache_ext; [done | exact Hdv |].
      pose proof (cache_recycle _ _ _ _ _ _ _ Hc i x b (sk_name (b_lock x)) Hi Hx Hr Hb Hf) as Hfin.
      rewrite <- Hdk in Hfin. exact Hfin.
Qed.

(** ** What a holder of a block can do *)

Lemma held_lookup me s v h pin b i : bio me s v h pin -> h !! b = Some i ->
  exists x, kn_bufs s !! i = Some x /\ (i < NBUF)%nat /\ b_blockno x = b /\ b_data x = v b /\ 0 <= b < nblocks /\
    b_refcnt x = 1 + count (bool_decide (b ∈ pin)) /\ sk_locked (b_lock x) = 1 /\
    sk_pid (b_lock x) = p_pid (proc_at (kn_k s) me) /\ b_disk x = 0 /\ length (b_data x) = Z.to_nat BSIZE.
Proof.
  intros Hb Hh. pose proof (bo_cache _ _ _ _ _ Hb) as Hc. destruct (ca_held _ _ _ _ _ _ _ Hc b i Hh) as (Hi & x & Hx & _).
  destruct (cache_held_buf _ _ _ _ _ _ _ Hc b i x Hh Hx) as (? & ? & ? & ? & ? & ? & ? & ? & ? & ? & ?). by exists x.
Qed.

Lemma held_data me s v h pin b i : bio me s v h pin -> h !! b = Some i -> b_data (buf_at s i) = v b.
Proof. intros Hb Hh. destruct (held_lookup _ _ _ _ _ _ _ Hb Hh) as (x & Hx & _ & _ & ? & _). by rewrite (buf_at_lookup _ _ _ Hx). Qed.

Lemma held_blockno me s v h pin b i : bio me s v h pin -> h !! b = Some i -> b_blockno (buf_at s i) = b.
Proof. intros Hb Hh. destruct (held_lookup _ _ _ _ _ _ _ Hb Hh) as (x & Hx & _ & ? & _). by rewrite (buf_at_lookup _ _ _ Hx). Qed.

Lemma bio_vlen me s v h pin b : bio me s v h pin -> 0 <= b < nblocks -> length (v b) = Z.to_nat BSIZE.
Proof. intros H Hb. by apply (ca_vlen _ _ _ _ _ _ _ (bo_cache _ _ _ _ _ H)). Qed.

Lemma set_data_run me s v h pin b i y : bio me s v h pin -> h !! b = Some i -> length y = Z.to_nat BSIZE ->
  exists s', upd_buf i (set_b_data y) s = Ok tt s' /\ bio me s' (fun c => if c =? b then y else v c) h pin /\
    bframe s s' /\ (forall c, dv s' c = dv s c).
Proof.
  intros Hb Hh Hy. destruct (held_lookup _ _ _ _ _ _ _ Hb Hh) as (x & Hx & Hi & _). destruct Hb as [Hk Hd [l Hl] Hc].
  eexists. split; [by apply upd_buf_run |]. split; [| split; [split; try done; [apply kframe_refl | apply io_same_refl] | done]].
  split; [done | by eapply disk_ok_same | exists l; by eapply lru_insert |]. by apply cache_set_data.
Qed.

Lemma holding_held me s v h pin b i : bio me s v h pin -> h !! b = Some i ->
  holdingsleep (SBuf i) s = Ok true (set_kn_k (cyc (kn_k s)) s).
Proof.
  intros Hb Hh. destruct (held_lookup _ _ _ _ _ _ _ Hb Hh) as (x & Hx & Hi & _ & _ & _ & _ & Hl & Hp & _).
  rewrite (holdingsleep_run me); [| apply Hb | split; [done | by eapply lookup_lt_Some]].
  cbn [sl_get]. rewrite (buf_at_lookup _ _ _ Hx), Hl, Hp, Z.eqb_refl. done.
Qed.

Lemma bio_cyc me s v h pin : bio me s v h pin -> bio me (set_kn_k (cyc (kn_k s)) s) v h pin.
Proof. intros [Hk Hd Hl Hc]. split; [by apply kctx_cyc | by eapply disk_ok_same | done | done]. Qed.

Lemma bwrite_run me s v h pin b i : bio me s v h pin -> h !! b = Some i ->
  (exists s', bwrite i s = Ok tt s' /\ bio me s' v h pin /\ bframe s s' /\
     (forall c, dv s' c = if c =? b then v b else dv s c)) \/
  (exists s', bwrite i s = Panic "power off" s' /\ forall c, dv s' c = dv s c).
Proof.
  intros Hb Hh. unfold bwrite. rewrite (bind_ok _ _ _ _ _ (holding_held _ _ _ _ _ _ _ Hb Hh)). cbn [negb].
  pose proof (bo_ctx _ _ _ _ _ Hb) as Hk0. apply bio_cyc in Hb.
  destruct (held_lookup _ _ _ _ _ _ _ Hb Hh) as (x & Hx & Hi & Hbn & Hdat & Hnb & _ & _ & _ & Hdk & Hln).
  pose proof Hb as [Hk Hd [l Hl] Hc]. set (s1 := set_kn_k _ s) in *.
  destruct (disk_write me s1 i x) as [(k' & io' & d' & E & HF & Hio & Hdv & Hok) | (s' & E & Hdv)]; try done.
  - by rewrite Hbn.
  - left. eexists. split; [exact E |].
    assert (HF' : kframe (kn_k s) k') by (eapply kframe_trans; [apply Hk0 | apply kframe_cyc | exact HF]).
    rewrite Hbn, Hdat in Hdv.
    split; [| split; [split; done | exact Hdv]]. split; [by eapply kctx_frame | done | by exists l |].
    rewrite (pid_frame _ _ _ HF). eapply cache_ext; [done | exact Hdv |]. by eapply (cache_write _ _ _ (dv s1)).
  - right. by exists s'.
Qed.

(** A change of a buffer's reference count under the cache lock. *)
Lemma crit_run me s i x f : kctx me (kn_k s) -> kn_bufs s !! i = Some x ->
  (lk_ (acq BcacheLock) ;;; upd_buf i f ;;; lk_ (rel BcacheLock)) s =
  Ok tt (set_kn_k (cyc (kn_k s)) (set_kn_bufs (<[i := f x]> (kn_bufs s)) s)).
Proof.
  intros Hk Hx. rewrite (bind_ok _ _ _ _ _ (acq_k me BcacheLock s Hk eq_refl)).
  rewrite (bind_ok _ _ _ _ _ (upd_buf_run (set_kn_k _ s) i x _ Hx)). knorm. exact (rel_k me BcacheLock _ _ Hk eq_refl).
Qed.

Lemma crit_bio me s v h pin i x f v' h' pin' : bio me s v h pin -> kn_bufs s !! i = Some x ->
  b_prev (f x) = b_prev x -> b_next (f x) = b_next x ->
  cache nblocks (<[i := f x]> (kn_bufs s)) v' (dv s) h' pin' (p_pid (proc_at (kn_k s) me)) ->
  exists s', (lk_ (acq BcacheLock) ;;; upd_buf i f ;;; lk_ (rel BcacheLock)) s = Ok tt s' /\
    bio me s' v' h' pin' /\ bframe s s' /\ (forall c, dv s' c = dv s c).
Proof.
  intros [Hk Hd [l Hl] _] Hx Hp Hn Hc. eexists. split; [by apply (crit_run me) |].
  split; [| split; [split; try done; [apply kframe_cyc | apply io_same_refl] | done]].
  split; [by apply kctx_cyc | by eapply disk_ok_same | exists l; by eapply lru_insert | done].
Qed.

Lemma bpin_run me s v h pin b i : bio me s v h pin -> h !! b = Some i -> b ∉ pin ->
  exists s', bpin i s = Ok tt s' /\ bio me s' v h ({[b]} ∪ pin) /\ bframe s s' /\ (forall c, dv s' c = dv s c).
Proof.
  intros Hb Hh Hp. destruct (held_lookup _ _ _ _ _ _ _ Hb Hh) as (x & Hx & Hi & Hbn & _ & _ & Hr & _).
  rewrite bool_decide_eq_false_2 in Hr by done. cbn in Hr.
  eapply crit_bio; [done | exact Hx | done | done |]. unfold u32. rewrite Hr at 1. rewrite Z.mod_small by lia.
  pose proof (cache_do_pin _ _ _ _ _ _ _ (bo_cache _ _ _ _ _ Hb) b i x Hh Hx Hp) as H. by rewrite Hr in H.
Qed.

Lemma bunpin_run me s v h pin b i : bio me s v h pin -> h !! b = Some i -> b ∈ pin ->
  exists s', bunpin i s = Ok tt s' /\ bio me s' v h (pin ∖ {[b]}) /\ bframe s s' /\ (forall c, dv s' c = dv s c).
Proof.
  intros Hb Hh Hp. destruct (held_lookup _ _ _ _ _ _ _ Hb Hh) as (x & Hx & Hi & Hbn & _ & _ & Hr & _).
  rewrite bool_decide_eq_true_2 in Hr by done. cbn in Hr.
  eapply crit_bio; [done | exact Hx | done | done |]. unfold u32. rewrite Hr at 1. rewrite Z.mod_small by lia.
  pose proof (cache_unpin _ _ _ _ _ _ _ (bo_cache _ _ _ _ _ Hb) b i x Hh Hx Hp) as H. by rewrite Hr in H.
Qed.

(** The second half of [brelse]. *)
Lemma brelse_tail me s i x l : kctx me (kn_k s) -> lru (kn_bufs s) l -> kn_bufs s !! i = Some x -> (i < NBUF)%nat ->
  1 <= b_refcnt x <= 2 ->
  let bs1 := <[i := set_b_refcnt (b_refcnt x - 1) x]> (kn_bufs s) in
  exists bs2 l2, (lk_ (acq BcacheLock) ;;; upd_buf i (fun x => set_b_refcnt (u32 (b_refcnt x - 1)) x) ;;;
    let* x := getb i in when (b_refcnt x =? 0) (to_front i) ;;; lk_ (rel BcacheLock)) s =
    Ok tt (set_kn_k (cyc (kn_k s)) (set_kn_bufs bs2 s)) /\ lru bs2 l2 /\ unlinked <$> bs2 = unlinked <$> bs1.
Proof.
  intros Hk Hl Hx Hi Hr bs1. rewrite (bind_ok _ _ _ _ _ (acq_k me BcacheLock s Hk eq_refl)).
  rewrite (bind_ok _ _ _ _ _ (upd_buf_run (set_kn_k _ s) i x _ Hx)). unfold u32. rewrite Z.mod_small by lia.
  unfold bind at 1, getb, gets. cbn [obind].
  erewrite buf_at_lookup by (apply list_lookup_insert_eq; by eapply lookup_lt_Some). cbn [b_refcnt set_b_refcnt].
  assert (Hl1 : lru bs1 l) by (by eapply lru_insert).
  destruct (Z.eqb_spec (b_refcnt x - 1) 0); cbn [when].
  - rewrite (bind_ok _ _ _ _ _ (to_front_run i _)). knorm. ksimpl.
    destruct (list_elem_of_split l i) as (l1 & l2 & ->); [by apply (lru_elem _ _ _ Hl1) |].
    eexists (front i bs1), (i :: l1 ++ l2). split; [exact (rel_k me BcacheLock _ _ Hk eq_refl) |].
    split; [by apply front_lru | apply front_unlinked].
  - unfold bind at 1, ret. cbn [obind]. knorm. eexists bs1, l. split; [exact (rel_k me BcacheLock _ _ Hk eq_refl) | done].
Qed.

(** [brelse] gives the block back; a block that differs from the disk may be
    released only while it is pinned. *)
Lemma brelse_run me s v h pin b i : bio me s v h pin -> h !! b = Some i -> b ∈ pin \/ v b = dv s b ->
  exists s', brelse i s = Ok tt s' /\ bio me s' v (delete b h) pin /\ bframe s s' /\ (forall c, dv s' c = dv s c).
Proof.
  intros Hb Hh Hp. unfold brelse. rewrite (bind_ok _ _ _ _ _ (holding_held _ _ _ _ _ _ _ Hb Hh)). cbn [negb].
  destruct (held_lookup _ _ _ _ _ _ _ Hb Hh) as (x & Hx & Hi & Hbn & Hdat & Hnb & Hr & _).
  destruct Hb as [Hk Hd [l Hl] Hc]. set (s1 := set_kn_k _ s).
  assert (Hk1 : kctx me (kn_k s1)) by (by apply kctx_cyc).
  rewrite (bind_ok _ _ _ _ _ (releasesleep_run me (SBuf i) s1 Hk1 (conj Hi (lookup_lt_Some _ _ _ Hx)))).
  set (s2 := set_kn_k _ _).
  assert (Hk2 : kctx me (kn_k s2)) by (by apply kctx_cyc, kctx_wake).
  assert (HF2 : kframe (kn_k s) (kn_k s2)).
  { eapply kframe_trans; [apply Hk | apply kframe_cyc |]. eapply kframe_trans; [apply Hk1 | apply kframe_wake | apply kframe_cyc]. }
  set (x2 := set_b_lock (mkSleeplock 0 (sk_name (b_lock x)) 0) x).
  assert (E2 : kn_bufs s2 = <[i := x2]> (kn_bufs s)).
  { unfold s2, s1. cbn [sl_set sl_get]. rewrite (buf_at_lookup (set_kn_k _ s) i x Hx). done. }
  assert (Hx2 : kn_bufs s2 !! i = Some x2) by (rewrite E2; apply list_lookup_insert_eq; by eapply lookup_lt_Some).
  destruct (brelse_tail me s2 i x2 l) as (bs2 & l2 & E & Hl2 & Hu); try done.
  { rewrite E2. by eapply lru_insert. }
  { cbn [x2 b_refcnt set_b_lock]. rewrite Hr. unfold count. case_match; lia. }
  eexists. split; [exact E |].
  assert (HF3 : kframe (kn_k s) (cyc (kn_k s2))) by (eapply kframe_trans; [apply Hk | exact HF2 | apply kframe_cyc]).
  split; [| split; [split; try done; apply io_same_refl | done]].
  split; [by apply kctx_cyc | by eapply disk_ok_same | by exists l2 |].
  change (kn_k (set_kn_k _ _)) with (cyc (kn_k s2)). rewrite (pid_frame _ _ _ HF3).
  eapply cache_unlinked; [exact Hu |]. rewrite E2, list_insert_insert_eq.
  exact (cache_release _ _ _ _ _ _ _ Hc b i x (sk_name (b_lock x)) Hh Hx Hp).
Qed.

End Run.
