(* ===== verification/RamDisk.v ===== *)
(** * A disk that loses power

    An instance of the block-device interface: [rd_blocks] are the blocks, and the
    power fails at the write after [rd_budget] more writes. It shows that the
    interface can be met, and the theorems about crashes are instantiated on it. *)

From S2P Require Import Prelude Riscv Mem Bytes StringLib Spinlock Kalloc Vm Proc ProcSpec Kctx State Sleeplock Bio BioList BioSpec BioRun.

Record ramdisk := mkRam { rd_blocks : list (list Z); rd_budget : nat }.

Definition ram_platform : Platform := {| dev := ramdisk; mmio_rd _ d := (0, d); mmio_wr _ _ d := d |}.

Definition ram_size : nat := 100.

Definition ram_view (d : ramdisk) (b : Z) : list Z :=
  if b <? 0 then replicate (Z.to_nat BSIZE) 0 else
  match rd_blocks d !! Z.to_nat b with
  | Some y => if (length y =? Z.to_nat BSIZE)%nat then y else replicate (Z.to_nat BSIZE) 0
  | None => replicate (Z.to_nat BSIZE) 0
  end.

Section Ram.
Existing Instance ram_platform.

#[export] Instance ram_rw : BlockDev := fun i write s =>
  let x := buf_at s i in
  if write then
    match rd_budget (kn_dev s) with
    | O => Panic "power off" s
    | S n => Ok tt (set_kn_dev (mkRam (<[Z.to_nat (b_blockno x) := b_data x]> (rd_blocks (kn_dev s))) n) s)
    end
  else Ok tt (set_kn_bufs (<[i := set_b_data (ram_view (kn_dev s) (b_blockno x)) x]> (kn_bufs s)) s).

Definition ram_ok (size : nat) (s : kern) : Prop := length (rd_blocks (kn_dev s)) = size.

Lemma ram_view_len d b : length (ram_view d b) = Z.to_nat BSIZE.
Proof.
  unfold ram_view. case_match; [apply length_replicate |]. case_match; [| apply length_replicate].
  destruct (Nat.eqb_spec (length l) (Z.to_nat BSIZE)); [done | apply length_replicate].
Qed.

(** A disk of [size] blocks. *)
#[local] Obligation Tactic := idtac.
Program Definition ram_dev (size : nat) : BlockDevOk ram_rw :=
  {| dview := ram_view; nblocks := Z.of_nat size; disk_ok := ram_ok size |}.
Next Obligation. intros size s s' H _ E. unfold ram_ok. by rewrite E. Qed.
Next Obligation. intros. apply ram_view_len. Qed.
Next Obligation.
  intros size me s i x Hk Hok Hx Hi Hd Hb. exists (kn_k s), (kn_io s), (kn_dev s).
  unfold disk_rw, ram_rw. rewrite (buf_at_lookup _ _ _ Hx). split_and!; try done; [apply kframe_refl | apply io_same_refl].
Qed.
Next Obligation.
  intros size me s i x Hk Hok Hx Hi Hd Hb Hlen. unfold disk_rw, ram_rw. rewrite (buf_at_lookup _ _ _ Hx).
  destruct (rd_budget (kn_dev s)) as [| n]; [right; by exists s | left].
  eexists (kn_k s), (kn_io s), _. split; [reflexivity |]. split_and!; [apply kframe_refl | apply io_same_refl | |].
  - intros b. unfold ram_view. cbn [rd_blocks]. destruct (Z.ltb_spec b 0), (Z.eqb_spec b (b_blockno x)); try lia; [done | |].
    + subst b. rewrite list_lookup_insert_eq by (rewrite Hok; lia). by rewrite (proj2 (Nat.eqb_eq _ _) Hlen).
    + rewrite list_lookup_insert_ne; [done | lia].
  - unfold ram_ok. cbn. by rewrite length_insert.
Qed.

#[export] Instance ram_dev_ok : BlockDevOk ram_rw := ram_dev ram_size.

(** A kernel with an empty cache on such a disk. *)
Definition ram_kern (d : ramdisk) : kern :=
  idle_kern d (idle_kst 0 (Some 0%nat) [set_pid 1 (set_state RUNNING proc0)]).

End Ram.
