(* ===== verification/Log.v ===== *)
(** * kernel/log.c: the write-ahead log (definitions)

    The in-memory header [log.lh] is in the kernel state; the header on disk is
    the block [log.start], an [int] count followed by the block numbers. *)

From S2P Require Import Prelude Riscv Mem Bytes StringLib Spinlock Kalloc Vm Proc ProcSpec Kctx State Sleeplock Bio.

Section Log.
Context `{PF : Platform} `{PA : Patience} `{BD : !BlockDev}.

Definition sizeof_logheader : Z := 4 + 4 * LOGSIZE.

(** Bound of the loops over the header's array: beyond it the array access is undefined. *)
Definition HDRLOOP : nat := S (S (Z.to_nat LOGSIZE)).

Fixpoint install_trans_loop (n : nat) (tail recovering : Z) : M kern unit :=
  match n with
  | O => fun _ => NoFuel
  | S n =>
      let* lg := getlog in
      if tail <? lh_n lg then
        let* lbuf := bread (lg_dev lg) (u32 (lg_start lg + tail + 1)) in
        let* bn := arr_get (lh_block lg) tail in
        let* dbuf := bread (lg_dev lg) (u32 bn) in
        let* l := getb lbuf in
        upd_buf dbuf (fun d => set_b_data (splice 0 (take (Z.to_nat BSIZE) (b_data l)) (b_data d)) d) ;;;
        bwrite dbuf ;;;
        when (recovering =? 0) (bunpin dbuf) ;;;
        brelse lbuf ;;;
        brelse dbuf ;;;
        install_trans_loop n (tail + 1) recovering
      else ret tt
  end.

Definition install_trans (recovering : Z) : M kern unit := install_trans_loop HDRLOOP 0 recovering.

(** [log.lh.block[i] = lh->block[i]] for [i < log.lh.n] *)
Fixpoint read_head_loop (n : nat) (i : Z) (b : nat) : M kern unit :=
  match n with
  | O => fun _ => NoFuel
  | S n =>
      let* lg := getlog in
      if i <? lh_n lg then
        let* x := getb b in
        let* bl := arr_set (lh_block lg) i (get_i32 (4 + 4 * i) (b_data x)) in
        upd_log (set_lh_block bl) ;;;
        read_head_loop n (i + 1) b
      else ret tt
  end.

Definition read_head : M kern unit :=
  let* lg := getlog in
  let* b := bread (lg_dev lg) (u32 (lg_start lg)) in
  let* x := getb b in
  upd_log (set_lh_n (get_i32 0 (b_data x))) ;;;
  read_head_loop HDRLOOP 0 b ;;;
  brelse b.

Fixpoint write_head_loop (n : nat) (i : Z) (b : nat) : M kern unit :=
  match n with
  | O => fun _ => NoFuel
  | S n =>
      let* lg := getlog in
      if i <? lh_n lg then
        let* bn := arr_get (lh_block lg) i in
        upd_buf b (fun x => set_b_data (put_32 (4 + 4 * i) bn (b_data x)) x) ;;;
        write_head_loop n (i + 1) b
      else ret tt
  end.

Definition write_head : M kern unit :=
  let* lg := getlog in
  let* b := bread (lg_dev lg) (u32 (lg_start lg)) in
  upd_buf b (fun x => set_b_data (put_32 0 (lh_n lg) (b_data x)) x) ;;;
  write_head_loop HDRLOOP 0 b ;;;
  bwrite b ;;;
  brelse b.

Definition recover_from_log : M kern unit :=
  read_head ;;;
  install_trans 1 ;;;
  upd_log (set_lh_n 0) ;;;
  write_head.

Definition initlog (dev : Z) (sb : superblock) : M kern unit :=
  if BSIZE <=? sizeof_logheader then panic "initlog: too big logheader" else
  lk_ (zoom Lkhw (initlock LogLock "log")) ;;;
  upd_log (set_lg_start (i32 (sb_logstart sb))) ;;;
  upd_log (set_lg_size (i32 (sb_nlog sb))) ;;;
  upd_log (set_lg_dev dev) ;;;
  recover_from_log.

Fixpoint begin_op_loop (n : nat) : M kern unit :=
  match n with
  | O => fun _ => NoFuel
  | S n =>
      let* lg := getlog in
      if truthy (lg_committing lg) then lk_ (sleep ChLog LogLock) ;;; begin_op_loop n
      else if LOGSIZE <? lh_n lg + (lg_outstanding lg + 1) * MAXOPBLOCKS then
        lk_ (sleep ChLog LogLock) ;;; begin_op_loop n
      else
        upd_log (fun lg => set_lg_outstanding (lg_outstanding lg + 1) lg) ;;;
        lk_ (rel LogLock)
  end.

Definition begin_op : M kern unit :=
  lk_ (acq LogLock) ;;;
  begin_op_loop (S patience).

Fixpoint write_log_loop (n : nat) (tail : Z) : M kern unit :=
  match n with
  | O => fun _ => NoFuel
  | S n =>
      let* lg := getlog in
      if tail <? lh_n lg then
        let* to := bread (lg_dev lg) (u32 (lg_start lg + tail + 1)) in
        let* bn := arr_get (lh_block lg) tail in
        let* from := bread (lg_dev lg) (u32 bn) in
        let* f := getb from in
        upd_buf to (fun d => set_b_data (splice 0 (take (Z.to_nat BSIZE) (b_data f)) (b_data d)) d) ;;;
        bwrite to ;;;
        brelse from ;;;
        brelse to ;;;
        write_log_loop n (tail + 1)
      else ret tt
  end.

Definition write_log : M kern unit := write_log_loop HDRLOOP 0.

Definition commit : M kern unit :=
  let* lg := getlog in
  if 0 <? lh_n lg then
    write_log ;;;
    write_head ;;;
    install_trans 0 ;;;
    upd_log (set_lh_n 0) ;;;
    write_head
  else ret tt.

Definition end_op : M kern unit :=
  lk_ (acq LogLock) ;;;
  upd_log (fun lg => set_lg_outstanding (lg_outstanding lg - 1) lg) ;;;
  let* lg := getlog in
  if truthy (lg_committing lg) then panic "log.committing" else
  let* do_commit :=
    (if lg_outstanding lg =? 0 then upd_log (set_lg_committing 1) ;;; ret true
     else lk_ (wakeup ChLog) ;;; ret false) in
  lk_ (rel LogLock) ;;;
  when do_commit (
    commit ;;;
    lk_ (acq LogLock) ;;;
    upd_log (set_lg_committing 0) ;;;
    lk_ (wakeup ChLog) ;;;
    lk_ (rel LogLock)).

(** The scan of [log_write]: the index where it stops. *)
Fixpoint log_find (n : nat) (i bn : Z) : M kern Z :=
  match n with
  | O => fun _ => NoFuel
  | S n =>
      let* lg := getlog in
      if i <? lh_n lg then
        let* x := arr_get (lh_block lg) i in
        if u32 x =? bn then ret i else log_find n (i + 1) bn
      else ret i
  end.

Definition log_write (b : nat) : M kern unit :=
  lk_ (acq LogLock) ;;;
  let* lg := getlog in
  if (LOGSIZE <=? lh_n lg) || (lg_size lg - 1 <=? lh_n lg) then panic "too big a transaction" else
  if lg_outstanding lg <? 1 then panic "log_write outside of trans" else
  let* x := getb b in
  let* i := log_find HDRLOOP 0 (b_blockno x) in
  let* bl := arr_set (lh_block lg) i (i32 (b_blockno x)) in
  upd_log (set_lh_block bl) ;;;
  when (i =? lh_n lg) (
    bpin b ;;;
    upd_log (fun lg => set_lh_n (lh_n lg + 1) lg)) ;;;
  lk_ (rel LogLock).

End Log.
