(* ===== verification/LogSpec.v ===== *)
(** * Crash reasoning for the log

    A computation that writes the disk may be cut short by a power failure, at
    any write. [cpost C Q o] says that [o] returns and satisfies [Q], or is cut
    short in a state of which [C] holds. [cst] describes a state in the middle
    of log.c by the in-memory log, the view of the buffer cache, the contents of
    the disk, and the blocks held and pinned; each operation of the buffer cache
    has a rule on it. *)

From S2P Require Import Prelude Riscv Mem Bytes StringLib Spinlock Kalloc Vm Proc ProcSpec Kctx State Sleeplock Bio BioList BioSpec BioRun Log.

Definition cpost {S A} (C : S -> Prop) (Q : A -> S -> Prop) (o : outcome S A) : Prop :=
  match o with
  | Ok a s => Q a s
  | Panic msg s => msg = "power off"%string /\ C s
  | _ => False
  end.

Lemma cpost_bind {S A B} (C : S -> Prop) (Q : B -> S -> Prop) (m : M S A) (f : A -> M S B) s :
  cpost C (fun a s' => cpost C Q (f a s')) (m s) -> cpost C Q (bind m f s).
Proof. unfold bind. destruct (m s); simpl; done. Qed.

Lemma cpost_mono {S A} (C C' : S -> Prop) (Q Q' : A -> S -> Prop) o :
  (forall s, C s -> C' s) -> (forall a s, Q a s -> Q' a s) -> cpost C Q o -> cpost C' Q' o.
Proof. destruct o; simpl; intuition. Qed.

Lemma cpost_then {S A B} (C : S -> Prop) (Q1 : A -> S -> Prop) (Q : B -> S -> Prop) (m : M S A) (f : A -> M S B) s :
  cpost C Q1 (m s) -> (forall a s', Q1 a s' -> cpost C Q (f a s')) -> cpost C Q (bind m f s).
Proof. intros Hm Hf. apply cpost_bind. revert Hm. destruct (m s); simpl; auto. Qed.

Lemma cpost_step {S A B} (C : S -> Prop) (Q : B -> S -> Prop) (m : M S A) (f : A -> M S B) s a s' :
  m s = Ok a s' -> cpost C Q (f a s') -> cpost C Q (bind m f s).
Proof. intros E H. by rewrite (bind_ok _ _ _ _ _ E). Qed.

Lemma cpost_last {S A} (C : S -> Prop) (Q : A -> S -> Prop) (m : M S A) s :
  cpost C Q (bind m ret s) -> cpost C Q (m s).
Proof. unfold bind. destruct (m s); simpl; done. Qed.

Section Cst.
Context `{PF : Platform} `{PA : Patience} `{BD : !BlockDev} `{BO : !BlockDevOk BD}.
Implicit Types (s : kern) (v D : Z -> list Z) (h : gmap Z nat) (pin : gset Z).

Record lframe s s' : Prop := {
  lf_k : kframe (kn_k s) (kn_k s');
  lf_sb : kn_sb s' = kn_sb s;
  lf_inodes : kn_inodes s' = kn_inodes s;
  lf_io : io_same (kn_io s) (kn_io s') }.

Lemma lframe_bframe me s0 s s' : kctx me (kn_k s0) -> lframe s0 s -> bframe s s' -> lframe s0 s'.
Proof.
  intros Hk [A1 A3 A4 A5] [B1 B2 B3 B4 B5]. split; try congruence; [| by eapply io_same_trans].
  by eapply (kframe_trans 8); [apply Hk | |].
Qed.

Lemma lframe_refl s : lframe s s.
Proof. split; try done; [apply kframe_refl | apply io_same_refl]. Qed.

Lemma lframe_trans me s1 s2 s3 : kctx me (kn_k s1) -> lframe s1 s2 -> lframe s2 s3 -> lframe s1 s3.
Proof.
  intros Hk [A1 A3 A4 A5] [B1 B3 B4 B5]. split; try congruence; [| by eapply io_same_trans].
  by eapply (kframe_trans 8); [apply Hk | |].
Qed.

Record cst (me : nat) (s0 s : kern) (lg : log) v D h pin : Prop := {
  cs_k0 : kctx me (kn_k s0);
  cs_bio : bio me s v h pin;
  cs_frame : lframe s0 s;
  cs_log : kn_log s = lg;
  cs_dv : forall c, dv s c = D c }.

Lemma cst_start me s v h pin : bio me s v h pin -> cst me s s (kn_log s) v (dv s) h pin.
Proof. intros Hb. split; try done; [apply Hb | apply lframe_refl]. Qed.

Lemma cst_ext me s0 s lg v v' D D' h h' pin pin' : cst me s0 s lg v D h pin ->
  (forall c, v' c = v c) -> (forall c, D' c = D c) -> h' = h -> pin' = pin -> cst me s0 s lg v' D' h' pin'.
Proof. intros [] Hv Hd -> ->. split; try done; [by eapply bio_ext |]. intros c. by rewrite Hd. Qed.

(** A step that keeps the log and the disk. *)
Lemma cst_keep me s0 s s' lg v D h pin v' h' pin' : cst me s0 s lg v D h pin ->
  bio me s' v' h' pin' -> bframe s s' -> (forall c, dv s' c = dv s c) -> cst me s0 s' lg v' D h' pin'.
Proof.
  intros [Hk Hb Hf Hl Hd] Hb' Hf' Hd'. split; try done; [by eapply lframe_bframe | |].
  - by rewrite (bf_log _ _ Hf').
  - intros c. by rewrite Hd', Hd.
Qed.

Section Rules.
Context {A : Type} (C : kern -> Prop) (Q : A -> kern -> Prop).
Context (me : nat) (s0 s : kern) (lg : log) (v D : Z -> list Z) (h : gmap Z nat) (pin : gset Z).
Context (Hc : cst me s0 s lg v D h pin).

Lemma c_bread b (f : nat -> M kern A) : 0 <= b < nblocks -> h !! b = None ->
  b ∈ pin \/ (size (dom h ∪ pin) < NBUF)%nat ->
  (forall i s', cst me s0 s' lg v D (<[b := i]> h) pin -> cpost C Q (f i s')) ->
  cpost C Q (bind (bread ROOTDEV b) f s).
Proof.
  intros Hb Hh Hroom Hk. pose proof (cs_bio _ _ _ _ _ _ _ _ Hc) as Hbio.
  destruct (bread_run me s v h pin b) as (i & s' & E & Hb' & Hf & Hd); try done.
  { destruct Hroom as [Hp |]; [left | by right]. by apply (ca_pin _ _ _ _ _ _ _ (bo_cache _ _ _ _ _ Hbio)). }
  eapply cpost_step; [exact E |]. apply Hk. by eapply cst_keep.
Qed.

Lemma c_set_data b i y (g : buf -> buf) (f : unit -> M kern A) : h !! b = Some i -> length y = Z.to_nat BSIZE ->
  (forall x, b_data x = v b -> g x = set_b_data y x) ->
  (forall s', cst me s0 s' lg (fun c => if c =? b then y else v c) D h pin -> cpost C Q (f tt s')) ->
  cpost C Q (bind (upd_buf i g) f s).
Proof.
  intros Hh Hy Hg Hk. pose proof (cs_bio _ _ _ _ _ _ _ _ Hc) as Hbio.
  destruct (set_data_run me s v h pin b i y Hbio Hh Hy) as (s' & E & Hb' & Hf & Hd).
  eapply cpost_step; [| apply Hk; by eapply cst_keep]. rewrite <- E. unfold upd_buf, modify.
  rewrite (Hg _ (held_data _ _ _ _ _ _ _ Hbio Hh)). done.
Qed.

Lemma c_bwrite b i (f : unit -> M kern A) : h !! b = Some i ->
  (forall s', (forall c, dv s' c = D c) -> C s') ->
  (forall s', cst me s0 s' lg v (fun c => if c =? b then v b else D c) h pin -> cpost C Q (f tt s')) ->
  cpost C Q (bind (bwrite i) f s).
Proof.
  intros Hh HC Hk. destruct Hc as [Hk0 Hbio Hfr Hl Hd].
  destruct (bwrite_run me s v h pin b i Hbio Hh) as [(s' & E & Hb' & Hf & Hd') | (s' & E & Hd')].
  - eapply cpost_step; [exact E |]. apply Hk. split; try done; [by eapply lframe_bframe | by rewrite (bf_log _ _ Hf) |].
    intros c. rewrite Hd'. case_match; [done | apply Hd].
  - unfold bind. rewrite E. simpl. split; [done |]. apply HC. intros c. by rewrite Hd', Hd.
Qed.

Lemma c_brelse b i (f : unit -> M kern A) : h !! b = Some i -> b ∈ pin \/ v b = D b ->
  (forall s', cst me s0 s' lg v D (delete b h) pin -> cpost C Q (f tt s')) ->
  cpost C Q (bind (brelse i) f s).
Proof.
  intros Hh Hp Hk. rewrite <- (cs_dv _ _ _ _ _ _ _ _ Hc) in Hp.
  destruct (brelse_run me s v h pin b i (cs_bio _ _ _ _ _ _ _ _ Hc) Hh Hp) as (s' & E & Hb' & Hf & Hd').
  eapply cpost_step; [exact E |]. apply Hk. by eapply cst_keep.
Qed.

Lemma c_bunpin b i (f : unit -> M kern A) : h !! b = Some i -> b ∈ pin ->
  (forall s', cst me s0 s' lg v D h (pin ∖ {[b]}) -> cpost C Q (f tt s')) ->
  cpost C Q (bind (bunpin i) f s).
Proof.
  intros Hh Hp Hk.
  destruct (bunpin_run me s v h pin b i (cs_bio _ _ _ _ _ _ _ _ Hc) Hh Hp) as (s' & E & Hb' & Hf & Hd').
  eapply cpost_step; [exact E |]. apply Hk. by eapply cst_keep.
Qed.

Lemma c_upd_log g (f : unit -> M kern A) :
  (forall s', cst me s0 s' (g lg) v D h pin -> cpost C Q (f tt s')) -> cpost C Q (bind (upd_log g) f s).
Proof.
  intros Hk. eapply cpost_step; [done |]. apply Hk. destruct Hc as [Hk0 [? ? ? ?] [? ? ? ?] Hl Hd].
  split; try done; [| by rewrite <- Hl]. split; try done. by eapply disk_ok_same.
Qed.

Lemma c_getlog (f : log -> M kern A) : cpost C Q (f lg s) -> cpost C Q (bind getlog f s).
Proof. intros Hk. eapply cpost_step; [done |]. by rewrite (cs_log _ _ _ _ _ _ _ _ Hc). Qed.

Lemma c_getb b i (f : buf -> M kern A) : h !! b = Some i ->
  (forall x, b_data x = v b -> b_blockno x = b -> cpost C Q (f x s)) -> cpost C Q (bind (getb i) f s).
Proof.
  intros Hh Hk. eapply cpost_step; [done |]. pose proof (cs_bio _ _ _ _ _ _ _ _ Hc) as Hbio.
  apply Hk; [by eapply held_data | by eapply held_blockno].
Qed.

Lemma c_arr_get {B} (l : list B) i x (f : B -> M kern A) : 0 <= i -> l !! Z.to_nat i = Some x ->
  cpost C Q (f x s) -> cpost C Q (bind (arr_get l i) f s).
Proof.
  intros Hi Hx Hk. eapply cpost_step; [| exact Hk]. unfold arr_get. rewrite Hx. by zcases.
Qed.

Lemma c_arr_set {B} (l : list B) i x (f : list B -> M kern A) : 0 <= i < Z.of_nat (length l) ->
  cpost C Q (f (<[Z.to_nat i := x]> l) s) -> cpost C Q (bind (arr_set l i x) f s).
Proof. intros Hi Hk. eapply cpost_step; [| exact Hk]. unfold arr_set. by zcases. Qed.

End Rules.

(** Blocks that are neither held nor pinned are the same in the cache and on disk. *)
Lemma cst_clean me s0 s lg v D h pin b : cst me s0 s lg v D h pin -> 0 <= b < nblocks ->
  h !! b = None -> b ∉ pin -> v b = D b.
Proof.
  intros [Hk Hb Hf Hl Hd] Hr Hh Hp. rewrite <- Hd. pose proof (bo_cache _ _ _ _ _ Hb) as Hc.
  destruct (bo_lru _ _ _ _ _ Hb) as [l Hlru]. pose proof (bget_find_spec s l b Hlru) as Hfind.
  destruct (bget_find s l b) as [i |].
  - destruct Hfind as (Hi & x & Hx & Hdx & <-). destruct (ca_buf _ _ _ _ _ _ _ Hc i x Hi Hx) as [_ _ _ _ H5].
    destruct (H5 Hdx) as (_ & _ & <- & _ & _ & H6). apply H6; [done |]. unfold is_held. rewrite Hh. by apply bool_decide_eq_false_2.
  - by apply (ca_view _ _ _ _ _ _ _ Hc).
Qed.

End Cst.
