(* ===== verification/BioProps.v ===== *)
(** * What the buffer cache guarantees

    [binit] builds the cache; reads return what was last written; the pointer
    manipulations of [brelse] implement least-recently-used order. *)

From S2P Require Import Prelude Riscv Mem Bytes StringLib Spinlock Kalloc Vm Proc ProcSpec Kctx State Sleeplock Bio BioList BioSpec BioRun RamDisk LogSpec.

(** ** binit *)

Section Binit.
Context `{PF : Platform} `{PA : Patience} `{BD : !BlockDev}.

Definition push (b : nat) (bs : list buf) : list buf :=
  let bs1 := setnx b (nxf bs HEAD) bs in
  let bs2 := setpv b HEAD bs1 in
  let bs3 := <[b := set_b_lock (mkSleeplock 0 "buffer" 0) (default buf0 (bs2 !! b))]> bs2 in
  let bs4 := setpv (nxf bs3 HEAD) b bs3 in
  setnx HEAD b bs4.

Definition relocked (L : gmap lockid spinlock) (k : kst) : kst := set_khw (set_locks L (khw k)) k.

Lemma push_links b bs : (b < length bs)%nat -> (HEAD < length bs)%nat -> (nxf bs HEAD < length bs)%nat -> b <> HEAD ->
  forall i, nxf (push b bs) i = upd (upd (nxf bs) b (nxf bs HEAD)) HEAD b i /\
            pvf (push b bs) i = upd (upd (pvf bs) b HEAD) (nxf bs HEAD) b i.
Proof.
  intros Hb HH Hn Hne. unfold push. set (bs1 := setnx b _ bs). set (bs2 := setpv b HEAD bs1).
  assert (L2 : length bs2 = length bs) by (unfold bs2, bs1; by rewrite length_setpv, length_setnx).
  set (bs3 := <[b := _]> bs2). assert (L3 : length bs3 = length bs) by (unfold bs3; by rewrite length_insert).
  assert (N3 : forall i, nxf bs3 i = upd (nxf bs) b (nxf bs HEAD) i).
  { intros i. unfold bs3. rewrite nxf_insert by lia. transitivity (nxf bs2 i); [case_decide; by subst |].
    unfold bs2. rewrite nxf_setpv by (unfold bs1; by rewrite length_setnx). unfold bs1. by rewrite nxf_setnx. }
  assert (P3 : forall i, pvf bs3 i = upd (pvf bs) b HEAD i).
  { intros i. unfold bs3. rewrite pvf_insert by lia. transitivity (pvf bs2 i); [case_decide; by subst |].
    unfold bs2. rewrite pvf_setpv by (unfold bs1; by rewrite length_setnx). unfold upd. case_decide; [done |].
    unfold bs1. by rewrite pvf_setnx. }
  rewrite N3, upd_ne by done. intros i. split.
  - rewrite nxf_setnx by (rewrite length_setpv; lia). unfold upd at 1 2. case_decide; [done |].
    rewrite nxf_setpv by lia. apply N3.
  - rewrite pvf_setnx by (rewrite length_setpv; lia). rewrite pvf_setpv by lia. unfold upd at 1 2.
    case_decide; [done | apply P3].
Qed.

Lemma length_push b bs : length (push b bs) = length bs.
Proof. unfold push. by rewrite length_setnx, length_setpv, length_insert, length_setpv, length_setnx. Qed.

(** A buffer that holds no block. *)
Definition buf_empty (x : buf) : Prop :=
  b_refcnt x = 0 /\ b_dev x = 0 /\ b_disk x = 0 /\ length (b_data x) = Z.to_nat BSIZE /\ sk_locked (b_lock x) = 0.

Lemma insert_empty bs i (f : buf -> buf) : Forall buf_empty bs -> (forall x, buf_empty x -> buf_empty (f x)) ->
  Forall buf_empty (<[i := f (default buf0 (bs !! i))]> bs).
Proof.
  intros H Hf. apply Forall_insert; [done |]. apply Hf. destruct (bs !! i) as [x |] eqn:E; [| done].
  exact (Forall_lookup_1 _ _ _ _ H E).
Qed.

Lemma push_empty b bs : Forall buf_empty bs -> Forall buf_empty (push b bs).
Proof.
  intros H. assert (Hnx : forall x y bs, Forall buf_empty bs -> Forall buf_empty (setnx x y bs)).
  { intros. apply (insert_empty _ _ (set_b_next y)); [done | by intros ? (? & ? & ? & ? & ?)]. }
  assert (Hpv : forall x y bs, Forall buf_empty bs -> Forall buf_empty (setpv x y bs)).
  { intros. apply (insert_empty _ _ (set_b_prev y)); [done | by intros ? (? & ? & ? & ? & ?)]. }
  unfold push. apply Hnx, Hpv. apply (insert_empty _ _ (set_b_lock (mkSleeplock 0 "buffer" 0))).
  - by apply Hpv, Hnx.
  - by intros ? (? & ? & ? & ? & ?).
Qed.

Lemma initsleep_run b s : (b < NBUF)%nat -> (b < length (kn_bufs s))%nat ->
  initsleeplock (SBuf b) "buffer" s = Ok tt (set_kn_k (relocked (<[BufLk b := mkSpinlock 0 "sleep lock" None]> (hw_locks (khw (kn_k s)))) (kn_k s))
    (sl_set (SBuf b) (mkSleeplock 0 "buffer" 0) s)).
Proof.
  intros Hb Hl. unfold initsleeplock. set (k1 := relocked _ _).
  rewrite (bind_ok _ _ s tt (set_kn_k k1 s)) by done. clearbody k1.
  assert (Hok : sl_ok (SBuf b) s) by done.
  unfold bind at 1, sl_upd at 1, modify. cbn [obind]. rewrite sl_get_k, sl_set_k.
  unfold bind at 1, sl_upd at 1, modify. cbn [obind]. rewrite sl_get_k, sl_set_k, sl_get_set, sl_set_set by done.
  unfold sl_upd, modify. rewrite sl_get_k, sl_set_k, sl_get_set, sl_set_set by done. done.
Qed.

Lemma binit_step n b s : (b < NBUF)%nat -> length (kn_bufs s) = S NBUF ->
  binit_loop (S n) b s = binit_loop n (S b)
    (set_kn_k (relocked (<[BufLk b := mkSpinlock 0 "sleep lock" None]> (hw_locks (khw (kn_k s)))) (kn_k s))
      (set_kn_bufs (push b (kn_bufs s)) s)).
Proof.
  intros Hb Hl. cbn [binit_loop]. unfold bind at 1, getb at 1, gets. cbn [obind].
  unfold bind at 1, upd_buf at 1, modify. cbn [obind]. unfold bind at 1, upd_buf at 1, modify. cbn [obind].
  set (s2 := set_kn_bufs _ (set_kn_bufs _ s)).
  assert (L2 : length (kn_bufs s2) = length (kn_bufs s)) by (unfold s2; ksimpl; by rewrite !length_insert).
  rewrite (bind_ok _ _ _ _ _ (initsleep_run b s2 Hb ltac:(lia))). done.
Qed.

(** [s] with new buffers and spin locks. *)
Definition rebuilt (L : gmap lockid spinlock) (bs : list buf) (s : kern) : kern :=
  set_kn_k (relocked L (kn_k s)) (set_kn_bufs bs s).

Lemma binit_loop_run n : forall b s, (b + n = NBUF)%nat -> length (kn_bufs s) = S NBUF -> Forall buf_empty (kn_bufs s) ->
  seg (nxf (kn_bufs s)) (pvf (kn_bufs s)) HEAD (reverse (seq 0 b)) HEAD ->
  exists L bs, binit_loop n b s = Ok tt (rebuilt L bs s) /\ length bs = S NBUF /\ Forall buf_empty bs /\
    seg (nxf bs) (pvf bs) HEAD (reverse (seq 0 NBUF)) HEAD /\
    (forall lk, lock_free (khw (kn_k s)) lk \/ (exists j, (b <= j < NBUF)%nat /\ lk = BufLk j) ->
       exists name, L !! lk = Some (mkSpinlock 0 name None)).
Proof.
  induction n as [| n IH]; intros b s Hn Hl He Hs.
  - exists (hw_locks (khw (kn_k s))), (kn_bufs s). replace b with NBUF in * by lia. split_and!; try done.
    + unfold rebuilt, relocked. destruct s as [[[[] ? ?] ? ? ? ?] ? ? ? ? ? ?]. done.
    + intros lk [H | (j & ? & _)]; [done | lia].
  - rewrite binit_step by (done || lia). set (bs1 := push b (kn_bufs s)). set (s1 := set_kn_k _ _).
    assert (Hnd : NoDup (HEAD :: reverse (seq 0 b))).
    { apply NoDup_cons. split; [rewrite elem_of_reverse, elem_of_seq; unfold HEAD; lia | rewrite reverse_Permutation; apply NoDup_seq]. }
    assert (Hb : b ∉ HEAD :: reverse (seq 0 b)).
    { rewrite elem_of_cons, elem_of_reverse, elem_of_seq. unfold HEAD. lia. }
    assert (Hh : (nxf (kn_bufs s) HEAD < length (kn_bufs s))%nat).
    { pose proof (seg_next_head _ _ _ _ _ Hs) as H. rewrite elem_of_app, elem_of_reverse, elem_of_seq, list_elem_of_singleton in H.
      rewrite Hl. unfold HEAD in *. lia. }
    destruct (IH (S b) s1) as (L & bs & E & Hbl & Hbe & Hbs & HL); [lia | | by apply push_empty | |].
    + unfold s1, bs1. ksimpl. by rewrite length_push.
    + rewrite seq_S, reverse_app. change (reverse [(0 + b)%nat] ++ reverse (seq 0 b)) with (b :: reverse (seq 0 b)).
      eapply seg_ext, (seg_push _ _ _ b _ Hs Hnd Hb);
        intros x _; apply (push_links b (kn_bufs s)); try lia; unfold HEAD; lia.
    + exists L, bs. rewrite E. split_and!; try done. intros lk Hlk. apply HL.
      destruct (decide (lk = BufLk b)) as [-> | Hne].
      * left. exists "sleep lock". apply lookup_insert_eq.
      * destruct Hlk as [[nm Hf] | (j & Hj & ->)]; [left; exists nm; by etrans; [apply lookup_insert_ne | exact Hf] |].
        right. exists j. split; [| done]. destruct (decide (j = b)) as [-> |]; [done | lia].
Qed.

End Binit.

Lemma empty_cache nb bs d pid : Forall buf_empty bs -> (forall b, 0 <= b < nb -> length (d b) = Z.to_nat BSIZE) ->
  cache nb bs d d ∅ ∅ pid.
Proof.
  intros He Hd.
  assert (Hno : forall b i, ~ holds_block bs b i).
  { intros b i (_ & x & Hx & Hdev & _). destruct (Forall_lookup_1 _ _ _ _ He Hx) as (_ & E & _). rewrite E in Hdev. done. }
  split; try done.
  - intros b i j H. by apply Hno in H.
  - intros i x Hi Hx. destruct (Forall_lookup_1 _ _ _ _ He Hx) as (H1 & H2 & H3 & H4 & H5).
    split; try done; [by left |]. by rewrite H2.
Qed.

Lemma binit_run `{PF : Platform} (s : kern) (Hl : length (kn_bufs s) = S NBUF)
    (He : Forall buf_empty (kn_bufs s)) :
  exists L bs l, binit s = Ok tt (rebuilt L bs s) /\ lru bs l /\
    (forall nb d pid, (forall b, 0 <= b < nb -> length (d b) = Z.to_nat BSIZE) -> cache nb bs d d ∅ ∅ pid) /\
    (forall lk, lock_free (khw (kn_k s)) lk \/ lk = BcacheLock \/ (exists j, (j < NBUF)%nat /\ lk = BufLk j) ->
       exists name, L !! lk = Some (mkSpinlock 0 name None)).
Proof.
  unfold binit. set (k1 := relocked (<[BcacheLock := mkSpinlock 0 "bcache" None]> (hw_locks (khw (kn_k s)))) (kn_k s)).
  rewrite (bind_ok _ _ s tt (set_kn_k k1 s)) by done. unfold bind at 1, upd_buf at 1, modify. cbn [obind].
  unfold bind at 1, upd_buf at 1, modify. cbn [obind]. set (s1 := set_kn_bufs _ _).
  assert (E1 : kn_bufs s1 = setnx HEAD HEAD (setpv HEAD HEAD (kn_bufs s))) by done.
  assert (Ek : hw_locks (khw (kn_k s1)) = <[BcacheLock := mkSpinlock 0 "bcache" None]> (hw_locks (khw (kn_k s)))) by done.
  assert (HH : (HEAD < length (kn_bufs s))%nat) by (rewrite Hl; unfold HEAD; lia).
  destruct (binit_loop_run NBUF 0 s1) as (L & bs & E & Hbl & Hbe & Hbs & HL).
  - done.
  - by rewrite E1, length_setnx, length_setpv.
  - rewrite E1. apply (insert_empty _ _ (set_b_next HEAD)); [| by intros ? (? & ? & ? & ? & ?)].
    apply (insert_empty _ _ (set_b_prev HEAD)); [done | by intros ? (? & ? & ? & ? & ?)].
  - rewrite E1. cbn [seg reverse rev_append seq]. rewrite nxf_setnx, pvf_setnx by (by rewrite length_setpv).
    rewrite upd_eq, pvf_setpv, upd_eq by done. done.
  - exists L, bs, (reverse (seq 0 NBUF)). rewrite E. split_and!; [done | | by intros; apply empty_cache |].
    + split; [done | apply reverse_Permutation | done].
    + intros lk Hlk. apply HL. destruct (decide (lk = BcacheLock)) as [-> | Hne].
      * left. exists "bcache". rewrite Ek. apply lookup_insert_eq.
      * destruct Hlk as [[nm Hf] | [? | (j & Hj & ->)]]; [left; exists nm | congruence |].
        -- rewrite Ek, lookup_insert_ne by congruence. exact Hf.
        -- right. exists j. split; [lia | done].
Qed.

(** [binit] builds the buffer cache. From zeroed buffers it links all of them
    into a circular doubly linked list and initialises every lock; whatever the
    disk [d] holds, the cache then presents exactly the disk's contents, nothing
    held and nothing pinned. Nothing else of the kernel changes. *)
Theorem binit_correct `{PF : Platform} (s : kern) (Hl : length (kn_bufs s) = S NBUF)
    (He : Forall buf_empty (kn_bufs s)) :
  exists L bs l, binit s = Ok tt (rebuilt L bs s) /\ lru bs l /\
    (forall nb d pid, (forall b, 0 <= b < nb -> length (d b) = Z.to_nat BSIZE) -> cache nb bs d d ∅ ∅ pid) /\
    (forall lk, lock_free (khw (kn_k s)) lk \/ lk = BcacheLock \/ (exists j, (j < NBUF)%nat /\ lk = BufLk j) ->
       exists name, L !! lk = Some (mkSpinlock 0 name None)).
Proof. by apply binit_run. Qed.

Lemma binit_correct_witness :
  exists L bs l, binit (PF := ram_platform) (ram_kern (mkRam [] 0)) = Ok tt (rebuilt L bs (ram_kern (mkRam [] 0))) /\ lru bs l.
Proof.
  destruct (binit_correct (PF := ram_platform) (ram_kern (mkRam [] 0))) as (L & bs & l & E & Hl & _).
  - reflexivity.
  - apply Forall_replicate. repeat split.
  - exists L, bs, l. split; [exact E | exact Hl].
Defined.

(** ** The cache against its specification *)

(** What a client does with blocks. *)
Inductive cop := Get (b : Z) | Put (b : Z) (y : list Z) | Flush (b : Z) | Drop (b : Z).

(** The specification: blocks [v] as the clients see them, [d] on disk. A block is
    got once at a time, changed and flushed only by its holder, and flushed before
    it is dropped; a transition outside this protocol is [None]. *)
Fixpoint spec_cops (nb : Z) (ops : list cop) (v d : Z -> list Z) (h : gset Z) : option (list (list Z)) :=
  match ops with
  | [] => Some []
  | Get b :: ops =>
      if bool_decide (0 <= b < nb /\ (b ∉ h) /\ (size h < NBUF)%nat) then (fun r => v b :: r) <$> spec_cops nb ops v d ({[b]} ∪ h) else None
  | Put b y :: ops =>
      if bool_decide (b ∈ h /\ length y = Z.to_nat BSIZE) then spec_cops nb ops (fun c => if c =? b then y else v c) d h else None
  | Flush b :: ops =>
      if bool_decide (b ∈ h) then spec_cops nb ops v (fun c => if c =? b then v b else d c) h else None
  | Drop b :: ops =>
      if bool_decide (b ∈ h /\ v b = d b) then spec_cops nb ops v d (h ∖ {[b]}) else None
  end.

(** The same client on the buffer cache; [h] remembers the buffers it holds. *)
Fixpoint run_cops `{PF : Platform} `{PA : Patience} `{BD : !BlockDev} (ops : list cop) (h : gmap Z nat) : M kern (list (list Z)) :=
  match ops with
  | [] => ret []
  | Get b :: ops =>
      let* i := bread ROOTDEV b in
      let* x := getb i in
      let* r := run_cops ops (<[b := i]> h) in
      ret (b_data x :: r)
  | Put b y :: ops =>
      match h !! b with Some i => upd_buf i (set_b_data y) ;;; run_cops ops h | None => undef end
  | Flush b :: ops =>
      match h !! b with Some i => bwrite i ;;; run_cops ops h | None => undef end
  | Drop b :: ops =>
      match h !! b with Some i => brelse i ;;; run_cops ops (delete b h) | None => undef end
  end.

Section Refine.
Context `{PF : Platform} `{PA : Patience} `{BD : !BlockDev} `{BO : !BlockDevOk BD}.

Lemma run_cops_spec me s0 lg ops : forall s v d h outs, cst me s0 s lg v d h ∅ ->
  spec_cops nblocks ops v d (dom h) = Some outs ->
  cpost (fun _ => True) (fun r s' => r = outs /\ exists v' d' h', cst me s0 s' lg v' d' h' ∅) (run_cops ops h s).
Proof.
  induction ops as [| [b | b y | b | b] ops IH]; intros s v d h outs Hc Hs; cbn [spec_cops run_cops] in *.
  - simplify_eq. split; [done |]. eauto.
  - case_bool_decide as Hg; [| done]. destruct Hg as (Hb & Hh & Hsz). rewrite not_elem_of_dom in Hh.
    destruct (spec_cops nblocks ops v d ({[b]} ∪ dom h)) as [outs' |] eqn:E; [| done]. simplify_eq/=.
    eapply c_bread; [exact Hc | done | done | right; by rewrite union_empty_r_L |]. intros i s1 Hc1.
    eapply c_getb; [exact Hc1 | apply lookup_insert_eq |]. intros x -> _.
    eapply cpost_then; [eapply (IH _ _ _ _ outs' Hc1); by rewrite dom_insert_L |].
    intros r s2 [-> H]. split; [done | exact H].
  - case_bool_decide as Hg; [| done]. destruct Hg as [Hh Hy]. apply elem_of_dom in Hh as [i Hi]. rewrite Hi.
    eapply c_set_data; [exact Hc | exact Hi | exact Hy | done |]. intros s1 Hc1. by apply (IH _ _ _ _ _ Hc1).
  - case_bool_decide as Hg; [| done]. apply elem_of_dom in Hg as [i Hi]. rewrite Hi.
    eapply c_bwrite; [exact Hc | exact Hi | done |]. intros s1 Hc1. by apply (IH _ _ _ _ _ Hc1).
  - case_bool_decide as Hg; [| done]. destruct Hg as [Hh Hv]. apply elem_of_dom in Hh as [i Hi]. rewrite Hi.
    eapply c_brelse; [exact Hc | exact Hi | by right |]. intros s1 Hc1. apply (IH _ _ _ _ _ Hc1). by rewrite dom_delete_L.
Qed.

End Refine.

(** C3: The buffer cache implements its specification. For every sequence of gets,
    changes, flushes and drops allowed by the protocol, from any state of the cache,
    the cache neither panics nor blocks, and every [Get] returns the contents the
    specification says, whichever buffers were recycled in between; the only other
    outcome is a power failure. *)
Theorem bcache_refines `{PF : Platform} `{PA : Patience} `{BD : !BlockDev} `{BO : !BlockDevOk BD}
    (me : nat) (s : kern) (v : Z -> list Z) (h : gmap Z nat) (ops : list cop) (outs : list (list Z))
    (Hb : bio me s v h ∅) (Hs : spec_cops nblocks ops v (dv s) (dom h) = Some outs) :
  match run_cops ops h s with
  | Ok r s' => r = outs /\ exists v' h', bio me s' v' h' ∅
  | Panic msg _ => msg = "power off"%string
  | _ => False
  end.
Proof.
  pose proof (run_cops_spec me s (kn_log s) ops s v (dv s) h outs (cst_start _ _ _ _ _ Hb) Hs) as H.
  destruct (run_cops ops h s); simpl in H; try done; [| by destruct H].
  destruct H as [-> (v' & d' & h' & Hc)]. split; [done |]. exists v', h'. apply Hc.
Qed.

(** Process 0 on a disk of zeroes, after [binit]; the power lasts [n] writes. *)
Definition ram_zero (n : nat) : ramdisk := mkRam (replicate ram_size (replicate (Z.to_nat BSIZE) 0)) n.
Definition booted (n : nat) : @kern ram_platform :=
  match binit (PF := ram_platform) (ram_kern (ram_zero n)) with Ok _ s => s | _ => ram_kern (ram_zero n) end.

Lemma kctx_relocked me k L : kctx me k -> (forall lk, static_lock lk = true -> exists name, L !! lk = Some (mkSpinlock 0 name None)) ->
  kctx me (relocked L k).
Proof. intros [H1 H2 H3 H4 H5 H6] HL. split; try done. destruct H1. by split. Qed.

Lemma booted_bio n : exists L bs, booted n = rebuilt (PF := ram_platform) L bs (ram_kern (ram_zero n)) /\
  bio (PF := ram_platform) 0 (booted n) (dv (booted n)) ∅ ∅.
Proof.
  destruct (binit_run (PF := ram_platform) (ram_kern (ram_zero n))) as (L & bs & l & E & Hl & Hc & HL).
  - reflexivity.
  - apply Forall_replicate. repeat split.
  - exists L, bs. unfold booted. rewrite E. split; [reflexivity |]. split.
    + apply kctx_relocked; [apply idle_kctx; unfold NPROC; simpl; lia |]. intros lk Hlk. apply HL. left.
      exists "". by apply idle_locks_free.
    + unfold disk_ok, ram_dev_ok, ram_ok. apply length_replicate.
    + exists l. exact Hl.
    + apply Hc. intros b _. apply ram_view_len.
Qed.

Lemma bcache_refines_witness :
  exists y, length y = Z.to_nat BSIZE /\
  match run_cops (PF := ram_platform) (PA := 0%nat) [Get 3; Put 3 y; Flush 3; Drop 3; Get 4; Get 3] ∅ (booted 5) with
  | Ok r s' => r = [replicate (Z.to_nat BSIZE) 0; replicate (Z.to_nat BSIZE) 0; y]
  | Panic msg _ => msg = "power off"%string
  | _ => False
  end.
Proof.
  exists (replicate (Z.to_nat BSIZE) 7). split; [reflexivity |]. destruct (booted_bio 5) as (L & bs & Eb & Hb).
  pose proof (bcache_refines (PF := ram_platform) (PA := 0%nat) 0 (booted 5) (dv (booted 5)) ∅
    [Get 3; Put 3 (replicate (Z.to_nat BSIZE) 7); Flush 3; Drop 3; Get 4; Get 3]
    [replicate (Z.to_nat BSIZE) 0; replicate (Z.to_nat BSIZE) 0; replicate (Z.to_nat BSIZE) 7] Hb) as H.
  rewrite Eb in *.
  assert (Hs : spec_cops (Z.of_nat ram_size) [Get 3; Put 3 (replicate (Z.to_nat BSIZE) 7); Flush 3; Drop 3; Get 4; Get 3]
    (ram_view (ram_zero 5)) (ram_view (ram_zero 5)) ∅ =
    Some [replicate (Z.to_nat BSIZE) 0; replicate (Z.to_nat BSIZE) 0; replicate (Z.to_nat BSIZE) 7]) by (vm_compute; reflexivity).
  specialize (H Hs). destruct (run_cops _ _ _); try exact H. exact (proj1 H).
Defined.
