(* ===== verification/LogProps.v ===== *)
(** * The log makes transactions atomic

    The log occupies the blocks [start .. start + size - 1]: its header, then the
    slots. Every other block is a home block. [recovered D] is what recovery makes
    of a disk [D]: the blocks named by the header are taken from their slots. *)

From S2P Require Import Prelude Riscv Mem Bytes StringLib Spinlock Kalloc Vm Proc ProcSpec Kctx State Sleeplock Bio BioList BioSpec BioRun Log LogSpec.

(** ** The header on disk *)

Definition hdr_n (y : list Z) : Z := get_i32 0 y.
Definition hdr_blocks (y : list Z) : list Z :=
  (fun i => get_i32 (4 + 4 * Z.of_nat i) y) <$> seq 0 (Z.to_nat (hdr_n y)).

(** [write_head]'s encoding of the first [n] entries of [bl]. *)
Fixpoint put_blocks (i : nat) (bl : list Z) (y : list Z) : list Z :=
  match bl with
  | [] => y
  | b :: bl => put_blocks (S i) bl (put_32 (4 + 4 * Z.of_nat i) b y)
  end.
Definition put_hdr (bl : list Z) (y : list Z) : list Z :=
  put_blocks 0 bl (put_32 0 (Z.of_nat (length bl)) y).

Lemma get_put_32_eq off v y : 0 <= off -> off + 4 <= Z.of_nat (length y) -> - 2^31 <= v < 2^31 ->
  get_i32 off (put_32 off v y) = v.
Proof.
  intros H0 Hl Hv. unfold get_i32, put_32. rewrite getle_putle_eq by lia.
  change (2 ^ (8 * Z.of_nat 4)) with (2 ^ 32). unfold i32. rewrite Zplus_mod_idemp_l. rewrite Z.mod_small; lia.
Qed.

Lemma get_put_32_ne off off' v y : 0 <= off -> 0 <= off' -> off + 4 <= Z.of_nat (length y) ->
  off' + 4 <= off \/ off + 4 <= off' -> get_i32 off' (put_32 off v y) = get_i32 off' y.
Proof. intros. unfold get_i32, put_32. rewrite getle_putle_ne by lia. done. Qed.

Lemma length_put_blocks bl : forall i y, length (put_blocks i bl y) = length y.
Proof. induction bl as [| b bl IH]; intros i y; simpl; [done |]. by rewrite IH, length_put_32. Qed.

Lemma length_put_hdr bl y : length (put_hdr bl y) = length y.
Proof. unfold put_hdr. by rewrite length_put_blocks, length_put_32. Qed.

Lemma get_put_blocks_before bl : forall i y off, 0 <= off -> off + 4 <= 4 + 4 * Z.of_nat i ->
  4 + 4 * Z.of_nat (i + length bl) <= Z.of_nat (length y) -> get_i32 off (put_blocks i bl y) = get_i32 off y.
Proof.
  induction bl as [| b bl IH]; intros i y off H0 Hi Hl; cbn [put_blocks length] in *; [done |].
  rewrite IH; [apply get_put_32_ne; lia | done | lia | rewrite length_put_32; lia].
Qed.

Lemma get_put_blocks bl : forall i y j b, bl !! j = Some b -> 0 <= b < 2^31 ->
  4 + 4 * Z.of_nat (i + length bl) <= Z.of_nat (length y) ->
  get_i32 (4 + 4 * Z.of_nat (i + j)) (put_blocks i bl y) = b.
Proof.
  induction bl as [| a bl IH]; intros i y [| j] b Hj Hb Hl; cbn [put_blocks length lookup list_lookup] in *; try done.
  - simplify_eq. rewrite get_put_blocks_before by (rewrite ?length_put_32; lia).
    replace (i + 0)%nat with i by lia. apply get_put_32_eq; lia.
  - replace (i + S j)%nat with (S i + j)%nat by lia. apply IH; [done | done |]. rewrite length_put_32. lia.
Qed.

Lemma put_hdr_n bl y : Z.of_nat (length bl) <= LOGSIZE -> length y = Z.to_nat BSIZE ->
  hdr_n (put_hdr bl y) = Z.of_nat (length bl).
Proof.
  unfold LOGSIZE, MAXOPBLOCKS, BSIZE. intros Hl Hy. unfold hdr_n, put_hdr.
  rewrite get_put_blocks_before by (rewrite ?length_put_32; lia). apply get_put_32_eq; lia.
Qed.

Lemma put_hdr_blocks bl y : Z.of_nat (length bl) <= LOGSIZE -> length y = Z.to_nat BSIZE ->
  Forall (fun b => 0 <= b < 2^31) bl -> hdr_blocks (put_hdr bl y) = bl.
Proof.
  intros Hl Hy Hb. unfold hdr_blocks. rewrite put_hdr_n, Nat2Z.id by done. apply list_eq. intros j.
  rewrite list_lookup_fmap. destruct (bl !! j) as [b |] eqn:E.
  - rewrite lookup_seq_lt by (by eapply lookup_lt_Some). simpl. f_equal.
    unfold LOGSIZE, MAXOPBLOCKS, BSIZE in *. apply (get_put_blocks bl 0 _ j b E).
    + exact (Forall_lookup_1 _ _ _ _ Hb E).
    + rewrite length_put_32. lia.
  - by rewrite lookup_seq_ge by (by apply lookup_ge_None).
Qed.

(** ** Recovery, abstractly *)

(** What the operations leave alone, apart from the header. *)
Definition log_same (lg lg' : log) : Prop :=
  lg_outstanding lg' = lg_outstanding lg /\ lg_committing lg' = lg_committing lg.

Section Layout.
Context (start nlog : Z).

Definition slot (i : nat) : Z := start + 1 + Z.of_nat i.
Definition rec_of (bl : list Z) (D : Z -> list Z) (c : Z) : list Z :=
  match list_find (fun b => b = c) bl with Some (i, _) => D (slot i) | None => D c end.
Definition recovered (D : Z -> list Z) : Z -> list Z := rec_of (hdr_blocks (D start)) D.

Context `{PF : Platform} `{PA : Patience} `{BD : !BlockDev} `{BO : !BlockDevOk BD}.

Definition home (b : Z) : Prop := 0 <= b < nblocks /\ ~ (start <= b < start + nlog).
Definition home_eq (v w : Z -> list Z) : Prop := forall c, home c -> v c = w c.

Record blocks_ok (bl : list Z) : Prop := {
  bl_nodup : NoDup bl;
  bl_home : Forall home bl;
  bl_max : Z.of_nat (length bl) <= LOGSIZE;
  bl_size : Z.of_nat (length bl) <= nlog - 1 }.

(** A disk whose header makes sense. *)
Definition hdr_ok (D : Z -> list Z) : Prop := 0 <= hdr_n (D start) <= LOGSIZE /\ blocks_ok (hdr_blocks (D start)).

Class layout : Prop := {
  ly_start : 0 <= start;
  ly_size : 1 <= nlog;
  ly_end : start + nlog <= nblocks;
  ly_nb : nblocks < 2^31 }.

(** The log in memory, holding the blocks [bl]. *)
Record log_mem (lg : log) (bl : list Z) : Prop := {
  lm_dev : lg_dev lg = ROOTDEV;
  lm_start : lg_start lg = start;
  lm_size : lg_size lg = nlog;
  lm_n : lh_n lg = Z.of_nat (length bl);
  lm_len : length (lh_block lg) = Z.to_nat LOGSIZE;
  lm_bl : take (length bl) (lh_block lg) = bl }.

Context `{LY : layout}.

Lemma log_mem_get lg bl i b : log_mem lg bl -> bl !! i = Some b -> lh_block lg !! i = Some b.
Proof.
  intros Hm Hi. rewrite <- (lm_bl _ _ Hm) in Hi. by apply lookup_take_Some in Hi as [? _].
Qed.

Lemma home_small b : home b -> 0 <= b < nblocks /\ u32 b = b.
Proof. intros [Hb _]. split; [done |]. apply u32_small. pose proof ly_nb. lia. Qed.

Lemma slot_range bl i : blocks_ok bl -> (i < length bl)%nat ->
  0 <= slot i < nblocks /\ u32 (start + Z.of_nat i + 1) = slot i /\ start < slot i < start + nlog /\ ~ home (slot i).
Proof.
  intros [_ _ _ H4] Hi. unfold slot, home. destruct LY as [L1 L2 L3 L4]. unfold u32. rewrite Z.mod_small by lia.
  split_and!; lia.
Qed.

Lemma start_range : 0 <= start < nblocks /\ u32 start = start /\ ~ home start.
Proof. destruct LY as [L1 L2 L3 L4]. unfold u32, home. rewrite Z.mod_small by lia. split_and!; lia. Qed.

Lemma slot_inj i j : slot i = slot j -> i = j.
Proof. unfold slot. lia. Qed.

(** ** write_log *)

(** The slots before [t] hold the blocks of [src]. *)
Definition fill (t : nat) (src : Z -> list Z) (bl : list Z) (base : Z -> list Z) (c : Z) : list Z :=
  if (start <? c) && (c <=? start + Z.of_nat t) then
    match bl !! Z.to_nat (c - start - 1) with Some b => src b | None => base c end
  else base c.

Lemma fill_slot t src bl base i b : (i < t)%nat -> bl !! i = Some b -> fill t src bl base (slot i) = src b.
Proof.
  intros Hi Hb. unfold fill, slot. replace (Z.to_nat _) with i by lia. rewrite Hb. by zcases.
Qed.

Lemma fill_ne t src bl base c : (forall i, (i < t)%nat -> slot i <> c) -> fill t src bl base c = base c.
Proof.
  intros H. unfold fill. zcases. exfalso. apply (H (Z.to_nat (c - start - 1))); unfold slot; lia.
Qed.

Lemma fill_S t src bl base b c : bl !! t = Some b ->
  fill (S t) src bl base c = if c =? slot t then src b else fill t src bl base c.
Proof.
  intros Hb. destruct (Z.eqb_spec c (slot t)) as [-> | Hne]; [apply fill_slot; [lia | done] |].
  unfold fill, slot in *. zcases.
Qed.

Lemma copy_data (y y' : list Z) : length y = Z.to_nat BSIZE -> length y' = Z.to_nat BSIZE ->
  splice 0 (take (Z.to_nat BSIZE) y) y' = y.
Proof.
  intros H H'. rewrite take_ge by lia. unfold splice. apply list_eq. intros i.
  destruct (decide (i < length y)%nat).
  - rewrite list_lookup_inserts by lia. f_equal. lia.
  - rewrite !lookup_ge_None_2; [done | lia |]. rewrite length_inserts. lia.
Qed.

Lemma bl_get (bl : list Z) t : (t < length bl)%nat -> exists b, bl !! t = Some b.
Proof. intros H. by apply lookup_lt_is_Some_2. Qed.

Lemma bl_home_get (bl : list Z) t b : blocks_ok bl -> bl !! t = Some b -> home b.
Proof. intros Hb Ht. exact (Forall_lookup_1 _ _ _ _ (bl_home _ Hb) Ht). Qed.

Lemma fill_home t v (bl : list Z) base b : blocks_ok bl -> (t <= length bl)%nat -> home b -> fill t v bl base b = base b.
Proof.
  intros Hbl Ht Hb. apply fill_ne. intros i Hi <-. by destruct (slot_range bl i Hbl ltac:(lia)) as (_ & _ & _ & []).
Qed.

Lemma write_log_loop_run (C : kern -> Prop) me s0 lg v D bl (pin : gset Z) :
  log_mem lg bl -> blocks_ok bl -> list_to_set bl = pin -> (size pin < NBUF)%nat ->
  (forall b, 0 <= b < nblocks -> length (v b) = Z.to_nat BSIZE) ->
  (forall t, (t <= length bl)%nat -> forall s', (forall c, dv s' c = fill t v bl D c) -> C s') ->
  forall n t s, (t <= length bl)%nat -> (length bl < t + n)%nat ->
  cst me s0 s lg (fill t v bl v) (fill t v bl D) ∅ pin ->
  cpost C (fun _ s' => cst me s0 s' lg (fill (length bl) v bl v) (fill (length bl) v bl D) ∅ pin)
    (write_log_loop n (Z.of_nat t) s).
Proof.
  intros Hm Hbl Hpin Hroom Hlen HC. induction n as [| n IH]; intros t s Ht Hn Hc; [lia |].
  cbn [write_log_loop]. eapply c_getlog; [exact Hc |]. rewrite (lm_n _ _ Hm).
  destruct (Z.ltb_spec (Z.of_nat t) (Z.of_nat (length bl))) as [Hlt |].
  2: { replace (length bl) with t by lia. exact Hc. }
  assert (Htl : (t < length bl)%nat) by lia. destruct (bl_get bl t Htl) as [b Hb].
  destruct (slot_range bl t Hbl Htl) as (Hs1 & Hs2 & Hs3 & Hs4).
  pose proof (bl_home_get _ _ _ Hbl Hb) as Hhome. destruct (home_small _ Hhome) as [Hb1 Hb2].
  assert (Hne : b <> slot t) by (intros ->; done).
  assert (Hbp : b ∈ pin) by (rewrite <- Hpin; apply elem_of_list_to_set; by eapply list_elem_of_lookup_2).
  rewrite (lm_dev _ _ Hm), (lm_start _ _ Hm), Hs2.
  eapply c_bread; [exact Hc | done | done | right; by rewrite dom_empty_L, union_empty_l_L |].
  intros i s1 Hc1. eapply c_arr_get; [lia | rewrite Nat2Z.id; by eapply log_mem_get |]. rewrite Hb2.
  eapply c_bread; [exact Hc1 | done | by rewrite lookup_insert_ne | by left |]. intros j s2 Hc2.
  eapply c_getb; [exact Hc2 | apply lookup_insert_eq |]. intros x Hx _.
  rewrite (fill_home t v bl v b) in Hx by (done || lia). rewrite Hx.
  assert (Hls : length (fill t v bl v (slot t)) = Z.to_nat BSIZE).
  { eapply bio_vlen; [apply Hc | done]. }
  eapply (c_set_data _ _ _ _ _ _ _ _ _ _ Hc2 (slot t) i (v b)); [by rewrite lookup_insert_ne, lookup_insert_eq | by apply Hlen | |].
  { intros y ->. by rewrite copy_data by (done || by apply Hlen). }
  intros s3 Hc3. eapply c_bwrite; [exact Hc3 | by rewrite lookup_insert_ne, lookup_insert_eq | apply (HC t Ht) |].
  intros s4 Hc4. eapply c_brelse; [exact Hc4 | apply lookup_insert_eq | by left |].
  rewrite delete_insert_id by (by rewrite lookup_insert_ne). intros s5 Hc5.
  eapply c_brelse; [exact Hc5 | apply lookup_insert_eq | right; by rewrite !Z.eqb_refl |].
  rewrite delete_insert_id by done. intros s6 Hc6. replace (Z.of_nat t + 1) with (Z.of_nat (S t)) by lia.
  apply IH; [lia | lia |]. rewrite Z.eqb_refl in Hc6.
  eapply cst_ext; [exact Hc6 | | | done | done]; intros c; by rewrite (fill_S t _ _ _ b).
Qed.

(** ** write_head and read_head *)

Definition set_at (b : Z) (y : list Z) (v : Z -> list Z) (c : Z) : list Z := if c =? b then y else v c.

Lemma write_head_loop_run (C : kern -> Prop) me s0 lg v D bl h pin b : log_mem lg bl -> Z.of_nat (length bl) <= LOGSIZE ->
  h !! start = Some b ->
  forall n i y s, (i <= length bl)%nat -> (length bl < i + n)%nat -> length y = Z.to_nat BSIZE ->
  cst me s0 s lg (set_at start y v) D h pin ->
  cpost C (fun _ s' => cst me s0 s' lg (set_at start (put_blocks i (drop i bl) y) v) D h pin)
    (write_head_loop n (Z.of_nat i) b s).
Proof.
  intros Hm Hl Hh. induction n as [| n IH]; intros i y s Hi Hn Hy Hc; [lia |].
  cbn [write_head_loop]. eapply c_getlog; [exact Hc |]. rewrite (lm_n _ _ Hm).
  destruct (Z.ltb_spec (Z.of_nat i) (Z.of_nat (length bl))) as [Hlt |].
  2: { rewrite drop_ge by lia. exact Hc. }
  destruct (bl_get bl i ltac:(lia)) as [x Hx].
  eapply c_arr_get; [lia | rewrite Nat2Z.id; by eapply log_mem_get |].
  eapply (c_set_data _ _ _ _ _ _ _ _ _ _ Hc start b (put_32 (4 + 4 * Z.of_nat i) x y)); [done | by rewrite length_put_32 | |].
  { intros z ->. unfold set_at. by rewrite Z.eqb_refl. }
  intros s1 Hc1. replace (Z.of_nat i + 1) with (Z.of_nat (S i)) by lia.
  rewrite (drop_S _ _ _ Hx). apply IH; [lia | lia | by rewrite length_put_32 |].
  eapply cst_ext; [exact Hc1 | | done | done | done]. intros c. unfold set_at. by zcases.
Qed.

Lemma write_head_run (C : kern -> Prop) me s0 lg v D bl pin s : log_mem lg bl -> Z.of_nat (length bl) <= LOGSIZE ->
  (size pin < NBUF)%nat -> (forall s', (forall c, dv s' c = D c) -> C s') ->
  cst me s0 s lg v D ∅ pin ->
  cpost C (fun _ s' => cst me s0 s' lg (set_at start (put_hdr bl (v start)) v) (set_at start (put_hdr bl (v start)) D) ∅ pin)
    (write_head s).
Proof.
  intros Hm Hl Hroom HC Hc. unfold write_head. destruct start_range as (Hs1 & Hs2 & Hs3).
  assert (Hy : length (v start) = Z.to_nat BSIZE) by (eapply bio_vlen; [apply Hc | done]).
  eapply c_getlog; [exact Hc |]. rewrite (lm_dev _ _ Hm), (lm_start _ _ Hm), Hs2.
  eapply c_bread; [exact Hc | done | done | right; by rewrite dom_empty_L, union_empty_l_L |]. intros b s1 Hc1.
  eapply (c_set_data _ _ _ _ _ _ _ _ _ _ Hc1 start b (put_32 0 (Z.of_nat (length bl)) (v start))).
  { apply lookup_insert_eq. }
  { by rewrite length_put_32. }
  { intros x ->. by rewrite (lm_n _ _ Hm). }
  intros s2 Hc2. eapply cpost_then.
  - apply (write_head_loop_run C me s0 lg v D bl (<[start := b]> ∅) pin b Hm Hl (lookup_insert_eq _ _ _) HDRLOOP 0%nat
      (put_32 0 (Z.of_nat (length bl)) (v start)) s2); [lia | unfold HDRLOOP; lia | by rewrite length_put_32 | exact Hc2].
  - intros [] s3 Hc3. cbv beta in Hc3. rewrite drop_0 in Hc3. eapply c_bwrite; [exact Hc3 | apply lookup_insert_eq | exact HC |].
    intros s4 Hc4. apply cpost_last. eapply c_brelse; [exact Hc4 | apply lookup_insert_eq | |].
    { right. by rewrite Z.eqb_refl. }
    rewrite delete_insert_id by done. intros s5 Hc5. simpl. eapply cst_ext; [exact Hc5 | done | | done | done].
    intros c. unfold set_at. by rewrite Z.eqb_refl.
Qed.

(** ** install_trans *)

(** The first [t] blocks of [bl] are installed; [w] is what the slots say. *)
Definition inst (t : nat) (bl : list Z) (w base : Z -> list Z) (c : Z) : list Z :=
  if bool_decide (c ∈ take t bl) then w c else base c.
Definition pins (rec : Z) (t : nat) (bl : list Z) : gset Z := if rec =? 0 then list_to_set (drop t bl) else ∅.

Lemma inst_S t bl w base b c : bl !! t = Some b ->
  inst (S t) bl w base c = if c =? b then w b else inst t bl w base c.
Proof.
  intros Hb. unfold inst. rewrite (take_S_r _ _ _ Hb). destruct (Z.eqb_spec c b) as [-> | Hne].
  - rewrite bool_decide_eq_true_2 by set_solver. done.
  - rewrite (bool_decide_ext (c ∈ take t bl ++ [b]) (c ∈ take t bl)) by set_solver. done.
Qed.

Lemma inst_ne t bl w base c : c ∉ bl -> inst t bl w base c = base c.
Proof.
  intros Hc. unfold inst. rewrite bool_decide_eq_false_2; [done |]. intros H. apply Hc.
  rewrite <- (take_drop t bl). set_solver.
Qed.

Lemma pins_S rec t bl b : NoDup bl -> bl !! t = Some b ->
  (if rec =? 0 then pins rec t bl ∖ {[b]} else pins rec t bl) = pins rec (S t) bl /\ ((rec =? 0) = true -> b ∈ pins rec t bl).
Proof.
  intros Hnd Hb. unfold pins. destruct (rec =? 0); [| done].
  rewrite (drop_S _ _ _ Hb). assert (b ∉ drop (S t) bl).
  { rewrite <- (take_drop_middle _ _ _ Hb) in Hnd. apply NoDup_app in Hnd as (_ & _ & Hnd). by apply NoDup_cons in Hnd as [? _]. }
  split; [| set_solver]. simpl. set_solver.
Qed.

Lemma slot_not_in bl i : blocks_ok bl -> (i < length bl)%nat -> slot i ∉ bl.
Proof.
  intros Hbl Hi Hin. destruct (slot_range bl i Hbl Hi) as (_ & _ & _ & Hn). apply Hn.
  by apply (proj1 (Forall_forall _ _) (bl_home _ Hbl)).
Qed.

Lemma pins_home rec t bl b : blocks_ok bl -> b ∈ pins rec t bl -> home b.
Proof.
  intros Hbl. unfold pins. case_match; [| set_solver]. rewrite elem_of_list_to_set. intros Hb.
  apply (proj1 (Forall_forall _ _) (bl_home _ Hbl)). rewrite <- (take_drop t bl). set_solver.
Qed.

Lemma pins_size rec t bl : blocks_ok bl -> ((rec =? 0) = true -> (length bl < NBUF)%nat) -> (size (pins rec t bl) < NBUF)%nat.
Proof.
  intros Hbl H. unfold pins. case_match; [| rewrite size_empty; unfold NBUF; lia]. specialize (H eq_refl).
  rewrite size_list_to_set, length_drop; [lia |]. pose proof (bl_nodup _ Hbl) as Hnd.
  rewrite <- (take_drop t bl) in Hnd. by apply NoDup_app in Hnd as (_ & _ & ?).
Qed.

Lemma install_trans_loop_run (C : kern -> Prop) me s0 lg v w D bl rec :
  log_mem lg bl -> blocks_ok bl -> ((rec =? 0) = true -> (length bl < NBUF)%nat) ->
  (forall i b, bl !! i = Some b -> v (slot i) = w b) ->
  (forall t, (t <= length bl)%nat -> forall s', (forall c, dv s' c = inst t bl w D c) -> C s') ->
  forall n t s, (t <= length bl)%nat -> (length bl < t + n)%nat ->
  cst me s0 s lg (inst t bl w v) (inst t bl w D) ∅ (pins rec t bl) ->
  cpost C (fun _ s' => cst me s0 s' lg (inst (length bl) bl w v) (inst (length bl) bl w D) ∅ (pins rec (length bl) bl))
    (install_trans_loop n (Z.of_nat t) rec s).
Proof.
  intros Hm Hbl Hroom Hw HC. induction n as [| n IH]; intros t s Ht Hn Hc; [lia |].
  cbn [install_trans_loop]. eapply c_getlog; [exact Hc |]. rewrite (lm_n _ _ Hm).
  destruct (Z.ltb_spec (Z.of_nat t) (Z.of_nat (length bl))) as [Hlt |].
  2: { replace (length bl) with t by lia. exact Hc. }
  assert (Htl : (t < length bl)%nat) by lia. destruct (bl_get bl t Htl) as [b Hb].
  destruct (slot_range bl t Hbl Htl) as (Hs1 & Hs2 & Hs3 & Hs4).
  pose proof (bl_home_get _ _ _ Hbl Hb) as Hhome. destruct (home_small _ Hhome) as [Hb1 Hb2].
  assert (Hne : b <> slot t) by (intros ->; done). pose proof (slot_not_in bl t Hbl Htl) as Hni.
  destruct (pins_S rec t bl b (bl_nodup _ Hbl) Hb) as [Hpin Hpb]. pose proof (pins_size rec t bl Hbl Hroom) as Hsz.
  assert (Hcl : v (slot t) = D (slot t)).
  { pose proof (cst_clean _ _ _ _ _ _ _ _ _ Hc Hs1 eq_refl) as H. rewrite !inst_ne in H by done. apply H.
    intros Hin. by apply (pins_home _ _ _ _ Hbl) in Hin. }
  assert (Hlw : length (w b) = Z.to_nat BSIZE).
  { rewrite <- (Hw _ _ Hb), <- (inst_ne t bl w v (slot t) Hni). eapply bio_vlen; [apply Hc | done]. }
  rewrite (lm_dev _ _ Hm), (lm_start _ _ Hm), Hs2.
  eapply c_bread; [exact Hc | done | done | right; by rewrite dom_empty_L, union_empty_l_L |].
  intros i s1 Hc1. eapply c_arr_get; [lia | rewrite Nat2Z.id; by eapply log_mem_get |]. rewrite Hb2.
  eapply c_bread; [exact Hc1 | done | by rewrite lookup_insert_ne | |].
  { destruct (rec =? 0) eqn:Er; [left; by apply Hpb | right]. unfold pins. rewrite Er, union_empty_r_L.
    rewrite dom_insert_L, dom_empty_L, union_empty_r_L, size_singleton. unfold NBUF. lia. }
  intros j s2 Hc2. eapply c_getb; [exact Hc2 | by rewrite lookup_insert_ne, lookup_insert_eq |]. intros x Hx _.
  rewrite inst_ne, (Hw _ _ Hb) in Hx by done. rewrite Hx.
  eapply (c_set_data _ _ _ _ _ _ _ _ _ _ Hc2 b j (w b)); [apply lookup_insert_eq | done | |].
  { intros y Hy. rewrite copy_data; [done | done |]. rewrite Hy. eapply bio_vlen; [apply Hc | done]. }
  intros s3 Hc3. eapply c_bwrite; [exact Hc3 | apply lookup_insert_eq | apply (HC t Ht) |].
  intros s4 Hc4. eapply (cpost_then _ (fun _ s5 => cst me s0 s5 lg _ _ _ (pins rec (S t) bl))).
  { revert Hpin Hpb. destruct (rec =? 0); cbn [when]; intros Hpin Hpb; [| rewrite <- Hpin; exact Hc4].
    apply cpost_last. eapply c_bunpin; [exact Hc4 | apply lookup_insert_eq | by apply Hpb |]. by rewrite Hpin. }
  intros [] s5 Hc5. cbv beta in Hc5.
  eapply c_brelse; [exact Hc5 | by rewrite lookup_insert_ne, lookup_insert_eq | |].
  { right. rewrite (proj2 (Z.eqb_neq _ _) (not_eq_sym Hne)), !inst_ne by done. exact Hcl. }
  rewrite delete_insert_ne, delete_insert_id by done. intros s6 Hc6.
  eapply c_brelse; [exact Hc6 | apply lookup_insert_eq | right; by rewrite !Z.eqb_refl |].
  rewrite delete_insert_id by done. intros s7 Hc7. replace (Z.of_nat t + 1) with (Z.of_nat (S t)) by lia.
  apply IH; [lia | lia |].
  eapply cst_ext; [exact Hc7 | | | done | done]; intros c; rewrite (inst_S t _ _ _ b) by done; [done |].
  by rewrite Z.eqb_refl.
Qed.

(** ** Disks with an empty and with a full log *)

Lemma hdr_empty D : hdr_n (D start) = 0 -> hdr_ok D /\ forall c, recovered D c = D c.
Proof.
  intros H. unfold hdr_ok, recovered, hdr_blocks. rewrite H. simpl. split; [| done].
  split; [unfold LOGSIZE, MAXOPBLOCKS; lia |]. destruct LY. split; simpl; [constructor | constructor | done | lia].
Qed.

Lemma rec_of_home bl D w : (forall i b, bl !! i = Some b -> D (slot i) = w b) ->
  (forall c, home c -> c ∉ bl -> D c = w c) -> home_eq (rec_of bl D) w.
Proof.
  intros Hs Ho c Hc. unfold rec_of. destruct (list_find (fun b => b = c) bl) as [[i b] |] eqn:E.
  - apply list_find_Some in E as (Hi & -> & _). by apply Hs.
  - apply list_find_None in E. apply Ho; [done |]. intros Hin. by apply (proj1 (Forall_forall _ _) E c).
Qed.

Lemma blocks_small bl : blocks_ok bl -> Forall (fun b => 0 <= b < 2^31) bl.
Proof. intros H. eapply Forall_impl; [apply (bl_home _ H) |]. intros b [? _]. pose proof ly_nb. cbn. lia. Qed.

Lemma hdr_full D bl y w : blocks_ok bl -> length y = Z.to_nat BSIZE -> D start = put_hdr bl y ->
  (forall i b, bl !! i = Some b -> D (slot i) = w b) -> (forall c, home c -> c ∉ bl -> D c = w c) ->
  hdr_ok D /\ home_eq (recovered D) w.
Proof.
  intros Hbl Hy Hst Hs Ho. unfold hdr_ok, recovered. pose proof (bl_max _ Hbl) as Hmax.
  rewrite Hst, put_hdr_n, put_hdr_blocks by (done || by apply blocks_small).
  split; [split; [lia | done] |]. by apply rec_of_home.
Qed.

(** ** Transactions *)

(** The current transaction has written the blocks [bl]; [v] is the state of the
    disk as the file system sees it; the process holds the blocks [h]. The log on
    disk is empty. *)
Record tx (me : nat) (s : kern) (v : Z -> list Z) (h : gmap Z nat) (bl : list Z) : Prop := {
  tx_bio : bio me s v h (list_to_set bl);
  tx_log : log_mem (kn_log s) bl;
  tx_bl : blocks_ok bl;
  tx_hdr : hdr_n (dv s start) = 0 }.

(** After a crash, the disk holds the state before or after the transaction. *)
Definition atomic (old new : Z -> list Z) (s' : kern) : Prop :=
  hdr_ok (dv s') /\ (home_eq (recovered (dv s')) old \/ home_eq (recovered (dv s')) new).

Lemma put_hdr_empty y : length y = Z.to_nat BSIZE -> hdr_n (put_hdr [] y) = 0.
Proof. intros Hy. by rewrite put_hdr_n. Qed.

Lemma log_mem_clear lg bl : log_mem lg bl -> log_mem (set_lh_n 0 lg) [].
Proof. intros [H1 H2 H3 H4 H5 H6]. by split. Qed.

Lemma fill_start t src bl base : fill t src bl base start = base start.
Proof. apply fill_ne. intros i Hi. unfold slot. lia. Qed.

Lemma blocks_nil : blocks_ok [].
Proof. destruct LY. split; simpl; [constructor | constructor | done | lia]. Qed.

(** What is on disk between the commit and the erasure of the log. *)
Lemma committed_disk t bl v D0 y D : blocks_ok bl -> length y = Z.to_nat BSIZE ->
  (forall c, home c -> c ∉ bl -> v c = D0 c) ->
  (forall c, D c = inst t bl v (set_at start (put_hdr bl y) (fill (length bl) v bl D0)) c) ->
  hdr_ok D /\ home_eq (recovered D) v.
Proof.
  intros Hbl Hy Hcl HD. destruct start_range as (_ & _ & Hsh).
  assert (Hsb : start ∉ bl) by (intros H; by apply (proj1 (Forall_forall _ _) (bl_home _ Hbl)) in H).
  apply (hdr_full D bl y v Hbl Hy).
  - rewrite HD, inst_ne by done. unfold set_at. by rewrite Z.eqb_refl.
  - intros i b Hi. pose proof (lookup_lt_Some _ _ _ Hi) as Hlt. destruct (slot_range bl i Hbl Hlt) as (_ & _ & Hr & _).
    rewrite HD, inst_ne by (by apply slot_not_in). unfold set_at. zcases. by apply fill_slot.
  - intros c Hc Hn. rewrite HD, inst_ne by done. unfold set_at. destruct (Z.eqb_spec c start) as [-> |]; [done |].
    rewrite fill_home by done. by rewrite Hcl.
Qed.

Lemma erase_run (C : kern -> Prop) me s0 s lg v D bl : log_mem lg bl ->
  (forall s', (forall c, dv s' c = D c) -> C s') -> cst me s0 s lg v D ∅ ∅ ->
  cpost C (fun _ s' => lframe s0 s' /\ kn_log s' = set_lh_n 0 lg /\ (forall c, home c -> dv s' c = D c) /\
      exists v', tx me s' v' ∅ [] /\ home_eq v' v)
    ((upd_log (set_lh_n 0) ;;; write_head) s).
Proof.
  intros Hm HC Hc. destruct start_range as (Hs1 & _ & Hsh).
  assert (Hy : length (v start) = Z.to_nat BSIZE) by (eapply bio_vlen; [apply Hc | done]).
  eapply c_upd_log; [exact Hc |]. intros s1 Hc1.
  eapply cpost_mono; [| | apply (write_head_run C me s0 _ v D [] ∅ s1 (log_mem_clear _ _ Hm))]; [done | | done | | exact HC | exact Hc1].
  2: { rewrite size_empty. unfold NBUF. lia. }
  intros [] s2 Hc2. cbv beta in Hc2. pose proof Hc2 as [_ Hb2 Hf2 Hl2 Hd2]. split_and!; [done | done | |].
  { intros c Hcc. rewrite Hd2. unfold set_at. destruct (Z.eqb_spec c start) as [-> |]; done. }
  exists (set_at start (put_hdr [] (v start)) v). split.
  - split; [exact Hb2 | rewrite Hl2; by eapply log_mem_clear | apply blocks_nil |].
    rewrite Hd2. unfold set_at. rewrite Z.eqb_refl. by apply put_hdr_empty.
  - intros c Hcc. unfold set_at. destruct (Z.eqb_spec c start) as [-> |]; done.
Qed.

Lemma installed_home bl w y base c : home c -> (c ∉ bl -> base c = w c) ->
  inst (length bl) bl w (set_at start y base) c = w c.
Proof.
  intros Hc Hb. destruct start_range as (_ & _ & Hsh). unfold inst, set_at. rewrite firstn_all. case_bool_decide; [done |].
  destruct (Z.eqb_spec c start) as [-> |]; [done | by apply Hb].
Qed.

(** From the commit point on: install and erase. *)
Lemma after_commit me s0 s lg v D0 bl y : log_mem lg bl -> blocks_ok bl -> (length bl < NBUF)%nat ->
  length y = Z.to_nat BSIZE -> (forall c, home c -> c ∉ bl -> v c = D0 c) ->
  cst me s0 s lg (set_at start (put_hdr bl y) (fill (length bl) v bl v))
    (set_at start (put_hdr bl y) (fill (length bl) v bl D0)) ∅ (list_to_set bl) ->
  cpost (atomic D0 v)
    (fun _ s' => lframe s0 s' /\ kn_log s' = set_lh_n 0 lg /\ home_eq (dv s') v /\ exists v', tx me s' v' ∅ [] /\ home_eq v' v)
    ((install_trans 0 ;;; upd_log (set_lh_n 0) ;;; write_head) s).
Proof.
  intros Hm Hbl Hroom Hy Hcl Hc.
  assert (Hcr : forall t s', (forall c, dv s' c = inst t bl v (set_at start (put_hdr bl y) (fill (length bl) v bl D0)) c) ->
    atomic D0 v s').
  { intros t s' Hd. destruct (committed_disk t bl v D0 y (dv s') Hbl Hy Hcl Hd). split; [done | by right]. }
  assert (Hslots : forall i b, bl !! i = Some b -> set_at start (put_hdr bl y) (fill (length bl) v bl v) (slot i) = v b).
  { intros i b Hi. unfold set_at. destruct (slot_range bl i Hbl (lookup_lt_Some _ _ _ Hi)) as (_ & _ & Hr & _).
    zcases. apply fill_slot; [by eapply lookup_lt_Some | done]. }
  eapply cpost_then.
  { apply (install_trans_loop_run _ me s0 lg _ v _ bl 0 Hm Hbl (fun _ => Hroom) Hslots (fun t _ => Hcr t) HDRLOOP 0%nat s);
      [lia | pose proof (bl_max _ Hbl); unfold HDRLOOP; lia | exact Hc]. }
  intros [] s3 Hc3. cbv beta in Hc3. unfold pins in Hc3. rewrite drop_all in Hc3.
  pose proof (erase_run (atomic D0 v) me s0 s3 _ _ _ bl Hm (Hcr (length bl)) Hc3) as He.
  eapply cpost_mono; [done | | exact He]. intros [] s4 (HF & Hlg & Hd4 & v' & Htx' & Hv'). split_and!; [done | done | |].
  - intros c Hcc. rewrite Hd4 by done. apply installed_home; [done |]. intros Hn. by rewrite fill_home, Hcl.
  - exists v'. split; [done |]. intros c Hcc. rewrite Hv' by done. apply installed_home; [done |]. by rewrite fill_home.
Qed.

Lemma commit_run me s v bl : tx me s v ∅ bl -> (length bl < NBUF)%nat ->
  cpost (atomic (dv s) v)
    (fun _ s' => lframe s s' /\ kn_log s' = set_lh_n 0 (kn_log s) /\ home_eq (dv s') v /\
       exists v', tx me s' v' ∅ [] /\ home_eq v' v)
    (commit s).
Proof.
  intros Htx Hroom. destruct Htx as [Hbio Hm Hbl Hh]. pose proof (cst_start _ _ _ _ _ Hbio) as Hc. unfold commit.
  assert (Hcl : forall c, home c -> c ∉ bl -> v c = dv s c).
  { intros c Hcc Hn. eapply cst_clean; [exact Hc | apply Hcc | done |]. by rewrite elem_of_list_to_set. }
  eapply c_getlog; [exact Hc |]. rewrite (lm_n _ _ Hm).
  destruct (Z.ltb_spec 0 (Z.of_nat (length bl))) as [Hpos | Hz].
  2: { destruct bl; [| simpl in Hz; lia]. split_and!; [apply lframe_refl | | intros c Hcc; symmetry; apply Hcl; set_solver |].
       - pose proof (lm_n _ _ Hm) as Hn. destruct (kn_log s). simpl in *. by rewrite Hn.
       - by exists v. }
  assert (Hnb : (length bl < 0 + HDRLOOP)%nat) by (pose proof (bl_max _ Hbl); unfold HDRLOOP; lia).
  assert (Hsz : (size (list_to_set bl : gset Z) < NBUF)%nat) by (by rewrite size_list_to_set by apply Hbl).
  assert (Hlen : forall b, 0 <= b < nblocks -> length (v b) = Z.to_nat BSIZE) by (intros; by eapply bio_vlen).
  assert (Hpre : forall t, (t <= length bl)%nat -> forall s', (forall c, dv s' c = fill t v bl (dv s) c) -> atomic (dv s) v s').
  { intros t Ht s' Hd. destruct (hdr_empty (dv s')) as [Hok Hrec]; [by rewrite Hd, fill_start |].
    split; [done | left]. intros c Hcc. rewrite Hrec, Hd. by apply fill_home. }
  eapply cpost_then.
  { apply (write_log_loop_run _ me s _ v (dv s) bl _ Hm Hbl eq_refl Hsz Hlen Hpre HDRLOOP 0%nat s); [lia | done |].
    eapply cst_ext; [exact Hc | | | done | done]; intros c; apply fill_ne; lia. }
  intros [] s1 Hc1. cbv beta in Hc1. eapply cpost_then.
  { eapply (write_head_run _ me s _ _ _ bl _ s1 Hm (bl_max _ Hbl) Hsz); [| exact Hc1]. by apply (Hpre (length bl)). }
  intros [] s2 Hc2. cbv beta in Hc2. rewrite fill_start in Hc2. destruct start_range as (Hs1 & _ & _).
  eapply after_commit; [exact Hm | exact Hbl | exact Hroom | by apply Hlen | exact Hcl | exact Hc2].
Qed.

(** ** Recovery *)

(** The header is being read; the first [i] entries have been copied. *)
Record log_part (lg : log) (bl : list Z) (i : nat) : Prop := {
  lp_dev : lg_dev lg = ROOTDEV;
  lp_start : lg_start lg = start;
  lp_size : lg_size lg = nlog;
  lp_n : lh_n lg = Z.of_nat (length bl);
  lp_len : length (lh_block lg) = Z.to_nat LOGSIZE;
  lp_bl : take i (lh_block lg) = take i bl }.

Lemma read_head_loop_run (C : kern -> Prop) me s0 v D h pin b bl : h !! start = Some b -> hdr_blocks (v start) = bl ->
  Z.of_nat (length bl) <= LOGSIZE ->
  forall n i lg s, log_part lg bl i -> (i <= length bl)%nat -> (length bl < i + n)%nat ->
  cst me s0 s lg v D h pin ->
  cpost C (fun _ s' => exists lg', log_mem lg' bl /\ log_same lg lg' /\ cst me s0 s' lg' v D h pin) (read_head_loop n (Z.of_nat i) b s).
Proof.
  intros Hh Hbl Hmax. induction n as [| n IH]; intros i lg s Hp Hi Hn Hc; [lia |].
  cbn [read_head_loop]. eapply c_getlog; [exact Hc |]. rewrite (lp_n _ _ _ Hp).
  destruct (Z.ltb_spec (Z.of_nat i) (Z.of_nat (length bl))) as [Hlt | Hge].
  2: { exists lg. split; [| split; [done | exact Hc]]. destruct Hp as [H1 H2 H3 H4 H5 H6]. split; try done.
       replace i with (length bl) in H6 by lia. by rewrite H6, firstn_all. }
  destruct (bl_get bl i ltac:(lia)) as [x Hx].
  eapply c_getb; [exact Hc | exact Hh |]. intros y -> _.
  assert (Ex : get_i32 (4 + 4 * Z.of_nat i) (v start) = x).
  { rewrite <- Hbl in Hx. unfold hdr_blocks in Hx. rewrite list_lookup_fmap in Hx.
    destruct (seq 0 (Z.to_nat (hdr_n (v start))) !! i) as [j |] eqn:E; [| done]. apply lookup_seq in E as [-> _]. by simplify_eq/=. }
  rewrite Ex. destruct Hp as [H1 H2 H3 H4 H5 H6].
  eapply c_arr_set; [rewrite H5; lia |]. rewrite Nat2Z.id.
  eapply c_upd_log; [exact Hc |]. intros s1 Hc1. replace (Z.of_nat i + 1) with (Z.of_nat (S i)) by lia.
  apply (IH (S i) (set_lh_block (<[i := x]> (lh_block lg)) lg)); [| lia | lia | exact Hc1]. split; try done; [by rewrite <- H5; apply length_insert |].
  cbn [lh_block set_lh_block]. rewrite (take_S_r (<[i := x]> (lh_block lg)) i x) by (apply list_lookup_insert_eq; lia).
  rewrite take_insert_ge by lia. by rewrite H6, <- (take_S_r _ _ _ Hx).
Qed.

Lemma hdr_len D : hdr_ok D -> Z.of_nat (length (hdr_blocks (D start))) = hdr_n (D start).
Proof. intros [Hn _]. unfold hdr_blocks. rewrite length_fmap, length_seq. lia. Qed.

Lemma read_head_run (C : kern -> Prop) me s0 s lg v D : lg_dev lg = ROOTDEV -> lg_start lg = start -> lg_size lg = nlog ->
  length (lh_block lg) = Z.to_nat LOGSIZE -> hdr_ok D -> cst me s0 s lg v D ∅ ∅ ->
  cpost C (fun _ s' => exists lg', log_mem lg' (hdr_blocks (D start)) /\ log_same lg lg' /\ cst me s0 s' lg' v D ∅ ∅) (read_head s).
Proof.
  intros H1 H2 H3 H5 Hok Hc. unfold read_head. destruct start_range as (Hs1 & Hs2 & _).
  assert (Hcl : v start = D start) by (by eapply cst_clean).
  eapply c_getlog; [exact Hc |]. rewrite H1, H2, Hs2.
  eapply c_bread; [exact Hc | done | done | right; rewrite dom_empty_L, union_empty_l_L, size_empty; unfold NBUF; lia |].
  intros b s1 Hc1. eapply c_getb; [exact Hc1 | apply lookup_insert_eq |]. intros x -> _.
  eapply c_upd_log; [exact Hc1 |]. intros s2 Hc2.
  eapply cpost_then.
  { apply (read_head_loop_run C me s0 v D (<[start := b]> ∅) ∅ b (hdr_blocks (D start)) (lookup_insert_eq _ _ _) ltac:(by rewrite Hcl)
      (bl_max _ (proj2 Hok)) HDRLOOP 0%nat (set_lh_n (get_i32 0 (v start)) lg) s2); [| lia | | exact Hc2].
    - split; try done. rewrite (hdr_len _ Hok), Hcl. done.
    - pose proof (bl_max _ (proj2 Hok)). unfold HDRLOOP. lia. }
  intros [] s3 (lg' & Hm & Hls & Hc3). apply cpost_last. eapply c_brelse; [exact Hc3 | apply lookup_insert_eq | by right |].
  rewrite delete_insert_id by done. intros s4 Hc4. exists lg'. done.
Qed.

Lemma rec_of_nodup bl D i b : NoDup bl -> bl !! i = Some b -> rec_of bl D b = D (slot i).
Proof.
  intros Hnd Hi. unfold rec_of. assert (list_find (fun a => a = b) bl = Some (i, b)) as ->; [| done].
  apply list_find_Some. split_and!; [done | done |]. intros j y Hj Hlt ->.
  assert (i = j) by (by eapply NoDup_lookup). lia.
Qed.

Lemma rec_of_ne bl D c : c ∉ bl -> rec_of bl D c = D c.
Proof.
  intros Hn. unfold rec_of. assert (list_find (fun a => a = c) bl = None) as ->; [| done].
  apply list_find_None, Forall_forall. by intros y Hy ->.
Qed.

(** Recovery may itself be cut short: what is recovered stays the same. *)
Definition recovering (D : Z -> list Z) (s' : kern) : Prop := hdr_ok (dv s') /\ home_eq (recovered (dv s')) (recovered D).

Lemma recovering_disk t D D' : hdr_ok D -> (forall c, D' c = inst t (hdr_blocks (D start)) (recovered D) D c) ->
  hdr_ok D' /\ home_eq (recovered D') (recovered D).
Proof.
  intros Hok HD. pose proof Hok as [Hn Hbl]. destruct start_range as (_ & _ & Hsh).
  assert (Hsb : start ∉ hdr_blocks (D start)) by (intros H; by apply (proj1 (Forall_forall _ _) (bl_home _ Hbl)) in H).
  assert (Est : D' start = D start) by (by rewrite HD, inst_ne).
  unfold hdr_ok, recovered at 1. rewrite Est. split; [done |]. apply rec_of_home.
  - intros i b Hi. rewrite HD, inst_ne by (apply slot_not_in; [done | by eapply lookup_lt_Some]).
    unfold recovered. by rewrite (rec_of_nodup _ _ i) by (done || apply Hbl).
  - intros c Hc Hn'. rewrite HD, inst_ne by done. unfold recovered. by rewrite rec_of_ne.
Qed.

Lemma recover_run me s v : bio me s v ∅ ∅ -> lg_dev (kn_log s) = ROOTDEV -> lg_start (kn_log s) = start ->
  lg_size (kn_log s) = nlog -> length (lh_block (kn_log s)) = Z.to_nat LOGSIZE -> hdr_ok (dv s) ->
  cpost (recovering (dv s))
    (fun _ s' => lframe s s' /\ log_same (kn_log s) (kn_log s') /\ home_eq (dv s') (recovered (dv s)) /\
       exists v', tx me s' v' ∅ [] /\ home_eq v' (recovered (dv s)))
    (recover_from_log s).
Proof.
  intros Hbio H1 H2 H3 H5 Hok. pose proof (cst_start _ _ _ _ _ Hbio) as Hc. pose proof Hok as [_ Hbl].
  set (D := dv s) in *. set (bl := hdr_blocks (D start)) in *.
  assert (Hcl : forall c, 0 <= c < nblocks -> v c = D c) by (intros c Hcc; by eapply cst_clean).
  assert (Hslot : forall i b, bl !! i = Some b -> v (slot i) = recovered D b).
  { intros i b Hi. rewrite Hcl by (eapply slot_range; [exact Hbl | by eapply lookup_lt_Some]).
    unfold recovered. by rewrite (rec_of_nodup _ _ i) by (done || apply Hbl). }
  assert (Hcr : forall t s', (forall c, dv s' c = inst t bl (recovered D) D c) -> recovering D s')
    by (intros t s' Hd; by apply (recovering_disk t)).
  unfold recover_from_log. eapply cpost_then; [by eapply (read_head_run _ me s s _ v D) |].
  intros [] s1 (lg & Hm & Hls & Hc1). fold bl in Hm. eapply cpost_then.
  { apply (install_trans_loop_run _ me s lg v (recovered D) D bl 1 Hm Hbl ltac:(done) Hslot (fun t _ => Hcr t) HDRLOOP 0%nat s1);
      [lia | pose proof (bl_max _ Hbl); unfold HDRLOOP; lia | exact Hc1]. }
  intros [] s2 Hc2. cbv beta in Hc2.
  pose proof (erase_run (recovering D) me s s2 _ _ _ bl Hm (Hcr (length bl)) Hc2) as He.
  eapply cpost_mono; [done | | exact He]. intros [] s3 (HF & Hlg & Hd3 & v' & Htx' & Hv').
  assert (Hin : forall base c, (forall c, 0 <= c < nblocks -> base c = D c) -> home c -> inst (length bl) bl (recovered D) base c = recovered D c).
  { intros base c Hb Hcc. unfold inst. case_bool_decide as Hin; [done |]. rewrite firstn_all in Hin.
    rewrite Hb by apply Hcc. unfold recovered. by rewrite rec_of_ne. }
  split; [done |]. split; [by rewrite Hlg |]. split; [intros c Hcc; rewrite Hd3 by done; by apply Hin |].
  exists v'. split; [done |]. intros c Hcc. rewrite Hv' by done. by apply Hin.
Qed.

End Layout.
