(* ===== verification/LogTx.v ===== *)
(** * Transactions: begin_op, log_write, end_op

    The operations of kernel/log.c that the file system uses, the typical
    transaction made of them, and the atomicity of commit and recovery. *)

From S2P Require Import Prelude Riscv Mem Bytes StringLib Spinlock Kalloc Vm Proc ProcSpec Kctx State Sleeplock Bio BioList BioSpec BioRun RamDisk Log LogSpec BioProps LogProps.

Section Tx.
Context (start nlog : Z) `{PF : Platform} `{PA : Patience} `{BD : !BlockDev} `{BO : !BlockDevOk BD} `{LY : !layout start nlog}.
Abbreviation tx := (tx start nlog).
Abbreviation home := (home start nlog).
Abbreviation home_eq := (home_eq start nlog).
Abbreviation atomic := (atomic start nlog).
Abbreviation log_mem := (log_mem start nlog).

(** ** log_write *)

Definition log_index (c : Z) (bl : list Z) : nat :=
  match list_find (fun b => b = c) bl with Some (i, _) => i | None => length bl end.
Definition logged (c : Z) (bl : list Z) : list Z := if bool_decide (c ∈ bl) then bl else bl ++ [c].

Lemma log_find_run s bl c : log_mem (kn_log s) bl -> blocks_ok start nlog bl -> home c ->
  forall n i, (i <= length bl)%nat -> (length bl < i + n)%nat -> c ∉ take i bl ->
  log_find n (Z.of_nat i) c s = Ok (Z.of_nat (log_index c bl)) s.
Proof.
  intros Hm Hbl Hc. induction n as [| n IH]; intros i Hi Hn Hno; [lia |]. cbn [log_find].
  unfold bind at 1, getlog, gets. cbn [obind]. rewrite (lm_n _ _ _ _ Hm).
  destruct (Z.ltb_spec (Z.of_nat i) (Z.of_nat (length bl))) as [Hlt | Hge].
  - destruct (lookup_lt_is_Some_2 bl i ltac:(lia)) as [x Hx].
    assert (Eg : arr_get (lh_block (kn_log s)) (Z.of_nat i) s = Ok x s).
    { unfold arr_get. rewrite Nat2Z.id, (log_mem_get _ _ _ _ _ _ Hm Hx). by zcases. }
    rewrite (bind_ok _ _ _ _ _ Eg). rewrite (proj2 (home_small _ _ _ (bl_home_get _ _ _ _ _ Hbl Hx))).
    destruct (Z.eqb_spec x c) as [-> | Hne].
    + unfold log_index. assert (list_find (fun b => b = c) bl = Some (i, c)) as ->; [| done].
      apply list_find_Some. split_and!; [done | done |]. intros j y Hj Hjl ->. apply Hno.
      eapply list_elem_of_lookup_2. rewrite lookup_take_lt by done. exact Hj.
    + replace (Z.of_nat i + 1) with (Z.of_nat (S i)) by lia. apply IH; [lia | lia |].
      rewrite (take_S_r _ _ _ Hx). set_solver.
  - replace i with (length bl) in * by lia. rewrite firstn_all in Hno. unfold log_index.
    assert (list_find (fun b => b = c) bl = None) as ->; [| done].
    apply list_find_None, Forall_forall. by intros y Hy ->.
Qed.

Lemma log_index_spec c bl : (log_index c bl < length bl)%nat /\ bl !! log_index c bl = Some c /\ c ∈ bl \/
  log_index c bl = length bl /\ c ∉ bl.
Proof.
  unfold log_index. destruct (list_find (fun b => b = c) bl) as [[i b] |] eqn:E.
  - apply list_find_Some in E as (Hi & -> & _). left.
    split_and!; [by eapply lookup_lt_Some | done | by eapply list_elem_of_lookup_2].
  - right. split; [done |]. apply list_find_None in E. intros Hin. by apply (proj1 (Forall_forall _ _) E c).
Qed.

(** [bpin] while the log is locked. *)
Lemma bpin_locked me k s i x : kctx me k -> kn_bufs s !! i = Some x -> 0 <= b_refcnt x <= 2 ->
  bpin i (set_kn_k (locked LogLock k) s) =
  Ok tt (set_kn_k (locked LogLock k) (set_kn_bufs (<[i := set_b_refcnt (b_refcnt x + 1) x]> (kn_bufs s)) s)).
Proof.
  intros Hk Hx Hr. unfold bpin.
  erewrite (bind_ok (lk_ (acq BcacheLock))) by (apply lk_ok; by apply (acq_locked2 me)). rewrite set_kn_k_k.
  rewrite (bind_ok _ _ _ _ _ (upd_buf_run (set_kn_k _ s) i x _ Hx)). unfold u32. rewrite Z.mod_small by lia. knorm.
  erewrite lk_ok by (by apply (rel_locked2 me)). done.
Qed.

Lemma log_mem_absorb lg bl c : log_mem lg bl -> c ∈ bl -> bl !! log_index c bl = Some c ->
  <[log_index c bl := c]> (lh_block lg) = lh_block lg.
Proof. intros Hm Hc Hi. apply list_insert_id. by eapply log_mem_get. Qed.

Lemma log_mem_append lg bl c : log_mem lg bl -> Z.of_nat (length bl) < LOGSIZE ->
  log_mem (set_lh_n (lh_n lg + 1) (set_lh_block (<[length bl := c]> (lh_block lg)) lg)) (bl ++ [c]).
Proof.
  intros [H1 H2 H3 H4 H5 H6] Hl. split; cbn [lg_dev lg_start lg_size lh_n lh_block set_lh_n set_lh_block]; try done.
  - rewrite H4, length_app. simpl. lia.
  - by rewrite length_insert.
  - rewrite length_app. replace (length bl + length [c])%nat with (S (length bl)) by (simpl; lia).
    rewrite (take_S_r _ _ c) by (apply list_lookup_insert_eq; lia). by rewrite take_insert_ge, H6.
Qed.

Lemma blocks_append bl c : blocks_ok start nlog bl -> home c -> c ∉ bl -> Z.of_nat (length bl) < LOGSIZE ->
  Z.of_nat (length bl) < nlog - 1 -> blocks_ok start nlog (bl ++ [c]).
Proof.
  intros [B1 B2 B3 B4] Hc Hn Hl Hs. split.
  - apply NoDup_app. split_and!; [done | set_solver | apply NoDup_singleton].
  - apply Forall_app. split; [done |]. by constructor.
  - rewrite length_app. simpl. lia.
  - rewrite length_app. simpl. lia.
Qed.

(** [log_write] up to the test whether the block is new. *)
Lemma log_write_head me s v h bl c i (lg := kn_log s) : tx me s v h bl -> h !! c = Some i -> home c ->
  1 <= lg_outstanding lg -> Z.of_nat (length bl) < LOGSIZE -> Z.of_nat (length bl) < nlog - 1 ->
  log_write i s =
    (when (Z.of_nat (log_index c bl) =? Z.of_nat (length bl)) (bpin i ;;; upd_log (fun lg => set_lh_n (lh_n lg + 1) lg)) ;;;
     lk_ (rel LogLock))
    (set_kn_k (locked LogLock (kn_k s)) (set_kn_log (set_lh_block (<[log_index c bl := c]> (lh_block lg)) lg) s)).
Proof.
  intros [Hb Hm Hbl Hh] Hc Hhome Ho Hl Hs. pose proof (bo_ctx _ _ _ _ _ Hb) as Hk. unfold log_write. subst lg.
  rewrite (bind_ok _ _ _ _ _ (acq_k me LogLock s Hk eq_refl)). set (s1 := set_kn_k _ s).
  unfold bind at 1, getlog, gets. cbn [obind]. change (kn_log s1) with (kn_log s).
  rewrite (lm_n _ _ _ _ Hm), (lm_size _ _ _ _ Hm).
  rewrite (proj2 (Z.leb_gt _ _) Hl). rewrite (proj2 (Z.leb_gt _ _) Hs). cbn [orb]. rewrite (proj2 (Z.ltb_ge _ _)) by lia.
  destruct (held_lookup _ _ _ _ _ _ _ Hb Hc) as (x & Hx & Hi & Hbn & _).
  unfold bind at 1, getb, gets. cbn [obind]. rewrite (buf_at_lookup s1 i x Hx), Hbn.
  assert (Ef : log_find HDRLOOP 0 c s1 = Ok (Z.of_nat (log_index c bl)) s1).
  { apply (log_find_run s1 bl c Hm Hbl Hhome HDRLOOP 0%nat); [lia | unfold HDRLOOP; lia | set_solver]. }
  rewrite (bind_ok _ _ _ _ _ Ef).
  assert (Ec : i32 c = c) by (apply i32_small; destruct Hhome as [? _]; pose proof (ly_nb start nlog); lia). rewrite Ec.
  assert (Ea : arr_set (lh_block (kn_log s)) (Z.of_nat (log_index c bl)) c s1 =
    Ok (<[log_index c bl := c]> (lh_block (kn_log s))) s1).
  { unfold arr_set. rewrite (lm_len _ _ _ _ Hm), Nat2Z.id. destruct (log_index_spec c bl) as [(? & _) | (? & _)]; by zcases. }
  by rewrite (bind_ok _ _ _ _ _ Ea).
Qed.

Lemma bio_log me s v h pin lg k' : bio me s v h pin -> kctx me k' -> kframe (kn_k s) k' ->
  bio me (set_kn_k k' (set_kn_log lg s)) v h pin.
Proof.
  intros [Hk Hd Hl Hc] Hk' HF. split; [done | by eapply disk_ok_same | done |]. rewrite <- (pid_frame _ _ _ HF) in Hc. done.
Qed.

Lemma log_write_run me s v h bl c i : tx me s v h bl -> h !! c = Some i -> home c ->
  1 <= lg_outstanding (kn_log s) -> Z.of_nat (length bl) < LOGSIZE -> Z.of_nat (length bl) < nlog - 1 ->
  exists s', log_write i s = Ok tt s' /\ tx me s' v h (logged c bl) /\ lframe s s' /\ (forall b, dv s' b = dv s b) /\
    log_same (kn_log s) (kn_log s').
Proof.
  intros Htx Hc Hhome Ho Hl Hs. rewrite (log_write_head _ _ _ _ _ _ _ Htx Hc Hhome Ho Hl Hs).
  destruct Htx as [Hb Hm Hbl Hh]. pose proof (bo_ctx _ _ _ _ _ Hb) as Hk.
  destruct (held_lookup _ _ _ _ _ _ _ Hb Hc) as (x & Hx & Hi & Hbn & _ & _ & Hr & _). unfold logged.
  destruct (log_index_spec c bl) as [(Hlt & Hix & Hin) | (Hix & Hnin)].
  - rewrite (proj2 (Z.eqb_neq _ _)) by lia. cbn [when]. unfold bind at 1, ret. cbn [obind].
    rewrite (rel_k me LogLock _ _ Hk eq_refl), (log_mem_absorb _ _ _ Hm Hin Hix), bool_decide_eq_true_2 by done.
    eexists. split; [done |]. split; [split |]; try done.
    + apply bio_log; [done | by apply kctx_cyc | apply kframe_cyc].
    + destruct Hm. by split.
    + split_and!; try done. split; try done; [apply kframe_cyc | apply io_same_refl].
  - rewrite Hix, Z.eqb_refl. cbn [when]. rewrite bool_decide_eq_false_2 by done.
    set (s2 := set_kn_log _ s). unfold bind at 1. erewrite (bind_ok (bpin i)).
    2: { apply (bpin_locked me (kn_k s) s2 i x Hk Hx). rewrite Hr. unfold count. case_match; lia. }
    unfold upd_log, modify. cbn [obind]. knorm. erewrite (rel_k me LogLock) by done.
    eexists. split; [reflexivity |].
    split; [split | split_and!; try done; split; try done; [apply kframe_cyc | apply io_same_refl]].
    + pose proof (cache_do_pin _ _ _ _ _ _ _ (bo_cache _ _ _ _ _ Hb) c i x Hc Hx) as Hpin.
      destruct Hb as [_ Hd [l Hlru] _]. split; [by apply kctx_cyc | by eapply disk_ok_same | exists l; by eapply lru_insert |].
      assert (E : list_to_set (bl ++ [c]) = ({[c]} ∪ list_to_set bl : gset Z)) by set_solver. rewrite E.
      apply Hpin. by rewrite elem_of_list_to_set.
    + exact (log_mem_append _ _ c Hm Hl).
    + by apply blocks_append.
    + done.
Qed.

(** ** begin_op *)

Definition started (lg : log) : log := set_lg_outstanding (lg_outstanding lg + 1) lg.
(** The log is open and has room for one more operation. *)
Definition admits (lg : log) : Prop :=
  lg_committing lg = 0 /\ lh_n lg + (lg_outstanding lg + 1) * MAXOPBLOCKS <= LOGSIZE.

Lemma begin_op_loop_ok me n k s : kctx me k -> admits (kn_log s) ->
  begin_op_loop (S n) (set_kn_k (locked LogLock k) s) = Ok tt (set_kn_k (cyc k) (set_kn_log (started (kn_log s)) s)).
Proof.
  intros Hk [Hc Hr]. cbn [begin_op_loop]. unfold bind at 1, getlog, gets. cbn [obind].
  change (kn_log (set_kn_k _ s)) with (kn_log s). rewrite Hc. cbn [truthy Z.eqb negb].
  rewrite (proj2 (Z.ltb_ge _ _)) by lia. unfold bind, upd_log, modify. cbn [obind]. knorm.
  by rewrite (rel_k me LogLock _ _ Hk eq_refl).
Qed.

Lemma begin_op_run me s : kctx me (kn_k s) -> admits (kn_log s) ->
  begin_op s = Ok tt (set_kn_k (cyc (kn_k s)) (set_kn_log (started (kn_log s)) s)).
Proof.
  intros Hk Ha. unfold begin_op. rewrite (bind_ok _ _ _ _ _ (acq_k me LogLock s Hk eq_refl)).
  by rewrite (begin_op_loop_ok me patience (kn_k s) s).
Qed.

(** Each time [begin_op] gets control it admits the operation to the log it finds,
    or sleeps because that log does not admit it. *)
Lemma begin_op_waits me s : kctx me (kn_k s) ->
  waits (fun _ s2 => resumable me (kn_k s2)) (fun s s1 => ~ admits (kn_log s) /\ asleep me ChLog s s1)
    (fun s _ s' => admits (kn_log s) /\ kctx me (kn_k s') /\ s' = set_kn_k (kn_k s') (set_kn_log (started (kn_log s)) s))
    (S patience) s (begin_op s).
Proof.
  intros Hk. unfold begin_op. rewrite (bind_ok _ _ _ _ _ (acq_k me LogLock s Hk eq_refl)).
  generalize (S patience). intros n. set (k := kn_k s) in *. clearbody k. revert k s Hk.
  induction n as [| n IH]; intros k s Hk; [done |]. destruct (decide (lg_committing (kn_log s) = 0)) as [Hc | Hc].
  - destruct (decide (lh_n (kn_log s) + (lg_outstanding (kn_log s) + 1) * MAXOPBLOCKS <= LOGSIZE)) as [Hr | Hr].
    + rewrite (begin_op_loop_ok me) by done. split_and!; [done | by apply kctx_cyc | done].
    + cbn [begin_op_loop]. unfold bind at 1, getlog, gets. cbn [obind].
      change (kn_log (set_kn_k _ s)) with (kn_log s). rewrite Hc. cbn [truthy Z.eqb negb].
      rewrite (proj2 (Z.ltb_lt _ _)) by lia.
      apply (sleep_k_waits _ _ _ me ChLog); [done | done | done | done | | intros s1 s2 k2 Hs2 Hk2 _; by apply IH].
      intros s1 Hs1. split; [by intros [_ ?] | done].
  - cbn [begin_op_loop]. unfold bind at 1, getlog, gets. cbn [obind].
    change (kn_log (set_kn_k _ s)) with (kn_log s). unfold truthy. rewrite (proj2 (Z.eqb_neq _ _) Hc). cbn [negb].
    apply (sleep_k_waits _ _ _ me ChLog); [done | done | done | done | | intros s1 s2 k2 Hs2 Hk2 _; by apply IH].
    intros s1 Hs1. split; [by intros [? _] | done].
Qed.

(** ** end_op *)

Lemma wakeup_crit me s g : kctx me (kn_k s) ->
  (lk_ (acq LogLock) ;;; upd_log g ;;; lk_ (wakeup ChLog) ;;; lk_ (rel LogLock)) s =
  Ok tt (set_kn_k (cyc (wake me ChLog (kn_k s))) (set_kn_log (g (kn_log s)) s)).
Proof.
  intros Hk. rewrite (bind_ok _ _ _ _ _ (acq_k me LogLock s Hk eq_refl)). unfold bind at 1, upd_log, modify. cbn [obind]. knorm.
  rewrite (bind_ok _ _ _ _ _ (wakeup_k me ChLog LogLock _ _ Hk ltac:(done))). by apply (rel_k me); [apply kctx_wake |].
Qed.

Lemma log_mem_same lg lg' bl : log_mem lg bl -> lg_dev lg' = lg_dev lg -> lg_start lg' = lg_start lg -> lg_size lg' = lg_size lg ->
  lh_n lg' = lh_n lg -> lh_block lg' = lh_block lg -> log_mem lg' bl.
Proof. intros [] E1 E2 E3 E4 E5. split; by rewrite ?E1, ?E2, ?E3, ?E4, ?E5. Qed.

(** The last operation ends: the transaction is committed. *)
Lemma end_op_run me s v bl : tx me s v ∅ bl -> (length bl < NBUF)%nat ->
  lg_outstanding (kn_log s) = 1 -> lg_committing (kn_log s) = 0 ->
  cpost (atomic (dv s) v)
    (fun _ s' => lframe s s' /\ lg_outstanding (kn_log s') = 0 /\ lg_committing (kn_log s') = 0 /\ home_eq (dv s') v /\
       exists v', tx me s' v' ∅ [] /\ home_eq v' v)
    (end_op s).
Proof.
  intros Htx Hroom Ho Hc. pose proof (bo_ctx _ _ _ _ _ (tx_bio _ _ _ _ _ _ _ Htx)) as Hk. unfold end_op.
  rewrite (bind_ok _ _ _ _ _ (acq_k me LogLock s Hk eq_refl)). unfold bind at 1, upd_log at 1, modify. cbn [obind].
  unfold bind at 1, getlog, gets. cbn [obind kn_log set_kn_log set_kn_k lg_committing lg_outstanding set_lg_outstanding].
  rewrite Hc, Ho. change (truthy 0) with false. change (1 - 1 =? 0) with true. cbv beta iota.
  unfold bind at 1, bind at 1, upd_log at 1, modify, ret. cbn [obind]. knorm. rewrite (bind_ok _ _ _ _ _ (rel_k me LogLock _ _ Hk eq_refl)). cbn [when].
  set (lg1 := set_lg_committing 1 _). set (s1 := set_kn_k _ _).
  assert (Htx1 : tx me s1 v ∅ bl).
  { destruct Htx as [Hb Hm Hbl Hh]. split; [apply bio_log; [done | by apply kctx_cyc | apply kframe_cyc] | | done | done].
    by eapply log_mem_same. }
  eapply cpost_then; [exact (commit_run start nlog me s1 v bl Htx1 Hroom) |].
  intros [] s2 (HF & Hlg & Hd & v' & Htx' & Hv').
  pose proof (bo_ctx _ _ _ _ _ (tx_bio _ _ _ _ _ _ _ Htx')) as Hk2. rewrite (wakeup_crit me s2 _ Hk2).
  assert (HF3 : kframe (kn_k s2) (cyc (wake me ChLog (kn_k s2)))).
  { eapply kframe_trans; [apply Hk2 | apply kframe_wake | apply kframe_cyc]. }
  split_and!; [| by cbn; rewrite Hlg | done | done |].
  - eapply (lframe_trans me _ s1); [done | | eapply (lframe_trans me _ s2); [apply kctx_cyc, Hk | exact HF |]].
    + split; try done; [apply kframe_cyc | apply io_same_refl].
    + split; try done. apply io_same_refl.
  - exists v'. split; [| done]. destruct Htx' as [Hb Hm Hbl Hh]. split; [| | done | done].
    + apply bio_log; [done | by apply kctx_cyc, kctx_wake | done].
    + by eapply log_mem_same.
Qed.

(** ** A transaction

    The typical use of the log (the comment above [log_write] in kernel/log.c):
    read a block, modify it, [log_write] it, release it. *)

Definition tx_write (c : Z) (y : list Z) : M kern unit :=
  let* b := bread ROOTDEV c in
  upd_buf b (set_b_data y) ;;;
  log_write b ;;;
  brelse b.

Fixpoint tx_writes (l : list (Z * list Z)) : M kern unit :=
  match l with [] => ret tt | (c, y) :: l => tx_write c y ;;; tx_writes l end.

Definition transaction (l : list (Z * list Z)) : M kern unit := begin_op ;;; tx_writes l ;;; end_op.

(** Its effect on the disk. *)
Fixpoint writes (l : list (Z * list Z)) (v : Z -> list Z) : Z -> list Z :=
  match l with [] => v | (c, y) :: l => writes l (set_at c y v) end.

Lemma writes_ext l : forall v w, home_eq v w -> home_eq (writes l v) (writes l w).
Proof.
  induction l as [| [c y] l IH]; intros v w H; [done |]. apply IH. intros a Ha. unfold set_at. case_match; [done | by apply H].
Qed.

Lemma tx_blog me s s' v h v' h' bl : tx me s v h bl -> bio me s' v' h' (list_to_set bl) -> bframe s s' ->
  (forall c, dv s' c = dv s c) -> tx me s' v' h' bl.
Proof. intros [Hb Hm Hbl Hh] Hb' HF Hd. split; [done | by rewrite (bf_log _ _ HF) | done | by rewrite Hd]. Qed.

Lemma lframe_of s s' : bframe s s' -> lframe s s'.
Proof. intros []. by split. Qed.

Lemma logged_length c bl : (length (logged c bl) <= S (length bl))%nat.
Proof. unfold logged. case_bool_decide; [lia |]. rewrite length_app. simpl. lia. Qed.

Lemma tx_write_run me s v bl c y : tx me s v ∅ bl -> home c -> length y = Z.to_nat BSIZE -> 1 <= lg_outstanding (kn_log s) ->
  (length bl < NBUF)%nat -> Z.of_nat (length bl) < LOGSIZE -> Z.of_nat (length bl) < nlog - 1 ->
  exists s', tx_write c y s = Ok tt s' /\ tx me s' (set_at c y v) ∅ (logged c bl) /\ lframe s s' /\
    (forall b, dv s' b = dv s b) /\ log_same (kn_log s) (kn_log s').
Proof.
  intros Htx Hc Hy Ho Hnb Hl Hs. pose proof (tx_bio _ _ _ _ _ _ _ Htx) as Hb. pose proof (bo_ctx _ _ _ _ _ Hb) as Hk. unfold tx_write.
  destruct (bread_run me s v ∅ (list_to_set bl) c Hb (proj1 Hc) (lookup_empty _)) as (i & s1 & E1 & Hb1 & F1 & D1).
  { right. rewrite dom_empty_L, union_empty_l_L, size_list_to_set; [done | apply Htx]. }
  rewrite (bind_ok _ _ _ _ _ E1). pose proof (tx_blog _ _ _ _ _ _ _ _ Htx Hb1 F1 D1) as Htx1.
  destruct (set_data_run me s1 v _ _ c i y Hb1 (lookup_insert_eq _ _ _) Hy) as (s2 & E2 & Hb2 & F2 & D2).
  rewrite (bind_ok _ _ _ _ _ E2). pose proof (tx_blog _ _ _ _ _ _ _ _ Htx1 Hb2 F2 D2) as Htx2.
  destruct (log_write_run me s2 _ _ bl c i Htx2 (lookup_insert_eq _ _ _) Hc) as (s3 & E3 & Htx3 & F3 & D3 & L3); [| done | done |].
  { by rewrite (bf_log _ _ F2), (bf_log _ _ F1). }
  rewrite (bind_ok _ _ _ _ _ E3). pose proof (tx_bio _ _ _ _ _ _ _ Htx3) as Hb3.
  destruct (brelse_run me s3 _ _ _ c i Hb3 (lookup_insert_eq _ _ _)) as (s4 & E4 & Hb4 & F4 & D4).
  { left. rewrite elem_of_list_to_set. unfold logged. case_bool_decide; set_solver. }
  exists s4. split; [exact E4 |]. rewrite delete_insert_id in Hb4 by done.
  split; [by eapply tx_blog |]. split.
  { eapply (lframe_trans me _ s1); [done | by apply lframe_of |].
    eapply (lframe_trans me _ s2); [apply Hb1 | by apply lframe_of |].
    eapply (lframe_trans me _ s3); [apply Hb2 | done | by apply lframe_of]. }
  split; [intros b; by rewrite D4, D3, D2, D1 |].
  unfold log_same in *. by rewrite (bf_log _ _ F4), <- (bf_log _ _ F1), <- (bf_log _ _ F2).
Qed.

Definition tx_list (l : list (Z * list Z)) : Prop := Forall (fun p => home p.1 /\ length p.2 = Z.to_nat BSIZE) l.

(** The blocks logged by a sequence of writes. *)
Fixpoint logged_all (l : list (Z * list Z)) (bl : list Z) : list Z :=
  match l with [] => bl | (c, _) :: l => logged_all l (logged c bl) end.

Lemma logged_all_length l : forall bl, (length (logged_all l bl) <= length bl + length l)%nat.
Proof.
  induction l as [| [c y] l IH]; intros bl; cbn [logged_all length]; [lia |].
  pose proof (IH (logged c bl)). pose proof (logged_length c bl). lia.
Qed.

Lemma tx_writes_run me l : tx_list l -> forall s v bl, tx me s v ∅ bl -> 1 <= lg_outstanding (kn_log s) ->
  (length bl + length l <= NBUF)%nat -> Z.of_nat (length bl + length l) <= LOGSIZE -> Z.of_nat (length bl + length l) <= nlog - 1 ->
  exists s', tx_writes l s = Ok tt s' /\ tx me s' (writes l v) ∅ (logged_all l bl) /\ lframe s s' /\
    (forall b, dv s' b = dv s b) /\ log_same (kn_log s) (kn_log s').
Proof.
  induction 1 as [| [c y] l [Hc Hy] Hl IH]; intros s v bl Htx Ho Hnb Hls Hsz; cbn [tx_writes writes logged_all length] in *.
  - exists s. split_and!; [done | done | apply lframe_refl | done | done..].
  - destruct (tx_write_run me s v bl c y Htx Hc Hy Ho ltac:(lia) ltac:(lia) ltac:(lia)) as (s1 & E1 & Htx1 & F1 & D1 & L1).
    rewrite (bind_ok _ _ _ _ _ E1). pose proof (logged_length c bl) as Hlen.
    destruct (IH s1 _ _ Htx1) as (s2 & E2 & Htx2 & F2 & D2 & L2); [destruct L1; lia | lia | lia | lia |].
    exists s2. split; [done |]. split; [done |]. split; [| split].
    + eapply lframe_trans; [apply Htx | done | done].
    + intros b. by rewrite D2, D1.
    + unfold log_same in *. destruct L1, L2. split; congruence.
Qed.

(** No operation is in progress and nothing is logged. *)
Definition quiescent (me : nat) (s : kern) : Prop :=
  lg_outstanding (kn_log s) = 0 /\ lg_committing (kn_log s) = 0 /\ exists v, tx me s v ∅ [].

Lemma tx_clean me s v c : tx me s v ∅ [] -> home c -> v c = dv s c.
Proof. intros Htx [Hc _]. eapply cst_clean; [apply cst_start, Htx | done | done | set_solver]. Qed.

Lemma transaction_run me s l : quiescent me s -> tx_list l -> Z.of_nat (length l) <= MAXOPBLOCKS ->
  Z.of_nat (length l) <= nlog - 1 ->
  cpost (atomic (dv s) (writes l (dv s))) (fun _ s' => lframe s s' /\ quiescent me s' /\ home_eq (dv s') (writes l (dv s)))
    (transaction l s).
Proof.
  intros (Ho & Hcm & v & Htx) Hl Hmax Hn. pose proof (bo_ctx _ _ _ _ _ (tx_bio _ _ _ _ _ _ _ Htx)) as Hk. unfold transaction.
  assert (Hv : home_eq (writes l v) (writes l (dv s))) by (apply writes_ext; intros c Hc; by apply (tx_clean me)).
  assert (Ha : admits (kn_log s)).
  { split; [done |]. rewrite Ho, (lm_n _ _ _ _ (tx_log _ _ _ _ _ _ _ Htx)). vm_compute. congruence. }
  rewrite (bind_ok _ _ _ _ _ (begin_op_run me s Hk Ha)). set (s1 := set_kn_k _ _).
  assert (Htx1 : tx me s1 v ∅ []).
  { destruct Htx as [Hb Hm Hbl Hh]. split; [apply bio_log; [done | by apply kctx_cyc | apply kframe_cyc] | | done | done].
    by eapply log_mem_same. }
  assert (HF1 : lframe s s1) by (split; try done; [apply kframe_cyc | apply io_same_refl]).
  unfold MAXOPBLOCKS in Hmax.
  destruct (tx_writes_run me l Hl s1 v [] Htx1) as (s2 & E2 & Htx2 & F2 & D2 & [L2 L2']).
  { cbn. lia. }
  { unfold NBUF. simpl. lia. }
  { unfold LOGSIZE, MAXOPBLOCKS. simpl. lia. }
  { simpl. lia. }
  rewrite (bind_ok _ _ _ _ _ E2). pose proof (logged_all_length l []) as Hlen. simpl in Hlen.
  eapply cpost_mono; [| | apply (end_op_run me s2 _ _ Htx2)].
  - intros s' [Hok Hat]. split; [done |]. destruct Hat as [Hat | Hat]; [left | right]; intros c Hc; rewrite Hat by done; [apply D2 | by apply Hv].
  - intros _ s3 (F3 & H1 & H2 & Hd & v' & Htx3 & Hv'). split; [| split].
    + eapply (lframe_trans me _ s1); [done | done |]. eapply (lframe_trans me _ s2); [apply Htx1 | done | done].
    + split_and!; [done | done | by exists v'].
    + intros c Hc. rewrite Hd by done. by apply Hv.
  - unfold NBUF. lia.
  - rewrite L2. cbn. lia.
  - rewrite L2'. exact Hcm.
Qed.

(** ** initlog *)

Lemma initlock_ctx me k lk name : kctx me k ->
  exists k', zoom Lkhw (initlock lk name) k = Ok tt k' /\ kctx me k' /\ k_procs k' = k_procs k.
Proof.
  intros [H1 H2 H3 H4 H5 H6]. eexists. split; [reflexivity |]. split; [| done]. split; try done.
  - destruct H1. by split.
  - intros lk' Hlk'. unfold lock_free. cbn. destruct (decide (lk = lk')) as [-> | Hne].
    + exists name. by rewrite lookup_insert_eq.
    + destruct (H3 lk' Hlk') as [nm E]. exists nm. by rewrite lookup_insert_ne.
Qed.

Lemma initlog_run me s v sb : bio me s v ∅ ∅ -> sb_logstart sb = start -> sb_nlog sb = nlog ->
  length (lh_block (kn_log s)) = Z.to_nat LOGSIZE -> lg_outstanding (kn_log s) = 0 -> lg_committing (kn_log s) = 0 ->
  hdr_ok start nlog (dv s) ->
  cpost (recovering start nlog (dv s))
    (fun _ s' => quiescent me s' /\ home_eq (dv s') (recovered start (dv s)) /\ kn_sb s' = kn_sb s)
    (initlog ROOTDEV sb s).
Proof.
  intros Hb Hst Hsz Hlen Ho Hcm Hok. unfold initlog. change (BSIZE <=? sizeof_logheader) with false. cbv beta iota.
  destruct Hb as [Hk Hd Hl Hc]. destruct (initlock_ctx me (kn_k s) LogLock "log" Hk) as (k' & E & Hk' & Ep).
  rewrite (bind_ok _ _ _ _ _ (lk_ok _ _ _ _ E)). unfold bind, upd_log, modify. cbn [obind]. knorm.
  rewrite Hst, Hsz. pose proof (ly_start start nlog). pose proof (ly_size start nlog).
  pose proof (ly_end start nlog). pose proof (ly_nb start nlog). rewrite !i32_small by lia.
  set (s1 := set_kn_k _ _).
  assert (Hb1 : bio me s1 v ∅ ∅).
  { split; [done | by eapply disk_ok_same | done |]. unfold s1. ksimpl. unfold proc_at. rewrite Ep. exact Hc. }
  eapply cpost_mono; [| | by apply (recover_run start nlog me s1 v Hb1)]; [done |].
  intros [] s2 (Hlf & [Eo Ec] & Hd2 & v' & Htx & _). split_and!; [| done | apply Hlf]. split_and!; [by rewrite Eo | by rewrite Ec | by exists v'].
Qed.

(** ** A transaction as large as the cache *)

(** All buffers are pinned. *)
Lemma all_pinned me s v bl i x : tx me s v ∅ bl -> length bl = NBUF -> (i < NBUF)%nat -> kn_bufs s !! i = Some x ->
  b_dev x = ROOTDEV /\ b_blockno x ∈ bl /\ b_refcnt x <> 0.
Proof.
  intros [Hb Hm Hbl _] Hlen Hi Hx. pose proof (bo_cache _ _ _ _ _ Hb) as Hc.
  assert (Hex : Forall (fun b => exists j, holds_block (kn_bufs s) b j) bl).
  { apply Forall_forall. intros b Hbb. apply (ca_pin _ _ _ _ _ _ _ Hc). by apply elem_of_list_to_set. }
  apply Forall_exists_Forall2_l in Hex as [il Hil].
  assert (Hnd : NoDup il).
  { apply NoDup_alt. intros p q j Hp Hq.
    destruct (Forall2_lookup_r _ _ _ _ _ Hil Hp) as (b & Hbp & _ & y & Hy & _ & <-).
    destruct (Forall2_lookup_r _ _ _ _ _ Hil Hq) as (b' & Hbq & _ & y' & Hy' & _ & <-). simplify_eq.
    by eapply NoDup_lookup; [apply Hbl | |]. }
  assert (Hsub : il ⊆+ seq 0 NBUF).
  { apply NoDup_submseteq; [done |]. intros j [p Hp]%list_elem_of_lookup. apply elem_of_seq.
    destruct (Forall2_lookup_r _ _ _ _ _ Hil Hp) as (b & _ & Hj & _). lia. }
  assert (Hp : il ≡ₚ seq 0 NBUF).
  { apply submseteq_length_Permutation; [done |]. rewrite length_seq, <- (Forall2_length _ _ _ Hil). lia. }
  assert (Hin : i ∈ il) by (rewrite Hp; apply elem_of_seq; lia). apply list_elem_of_lookup in Hin as [p Hip].
  destruct (Forall2_lookup_r _ _ _ _ _ Hil Hip) as (b & Hbp & _ & y & Hy & Hd & Hbn). simplify_eq.
  assert (Hpin : b_blockno x ∈ bl) by (by eapply list_elem_of_lookup_2).
  split_and!; [done | done |]. destruct (ca_buf _ _ _ _ _ _ _ Hc i x Hi Hx) as [_ _ _ _ H5].
  destruct (H5 Hd) as (_ & _ & _ & -> & _). rewrite bool_decide_eq_true_2 by (by apply elem_of_list_to_set).
  unfold count. case_match; lia.
Qed.

Lemma bread_full me s v bl c : tx me s v ∅ bl -> length bl = NBUF -> (c ∉ bl) ->
  exists s', bread ROOTDEV c s = Panic "bget: no buffers" s'.
Proof.
  intros Htx Hlen Hc. pose proof Htx as [Hb _ _ _]. destruct (bo_lru _ _ _ _ _ Hb) as [l Hl].
  pose proof (bget_find_spec s l c Hl) as Hf. destruct (bget_find s l c) as [i |] eqn:E.
  { destruct Hf as (Hi & x & Hx & _ & <-). destruct (all_pinned me s v bl i x) as (_ & ? & _); done. }
  unfold bread, bget. set (s1 := set_kn_k (locked BcacheLock (kn_k s)) s). exists s1.
  erewrite bind_panic; [done |].
  rewrite (bind_ok _ _ _ _ _ (acq_k me BcacheLock s (bo_ctx _ _ _ _ _ Hb) eq_refl)). fold s1.
  unfold bind at 1, getb at 1, gets. cbn [obind].
  rewrite (bind_ok _ _ _ _ _ (cached_run s1 l c Hl)). change (bget_find s1 l c) with (bget_find s l c). rewrite E.
  unfold bind at 1, getb at 1, gets. cbn [obind].
  erewrite bind_ok; [| apply (bget_lru_run s1 (reverse l) HEAD)]; cycle 1.
  - apply seg_rev. rewrite reverse_involutive. apply Hl.
  - rewrite elem_of_reverse. pose proof (lru_nodup _ _ Hl) as H. by apply NoDup_cons in H as [? _].
  - rewrite length_reverse, (lru_perm _ _ Hl), length_seq. lia.
  - assert (list_find (fun i => b_refcnt (buf_at s1 i) = 0) (reverse l) = None) as ->; [| done].
    apply list_find_None, Forall_forall. intros i Hi. rewrite elem_of_reverse, (lru_elem _ _ _ Hl) in Hi.
    destruct (lookup_lt_is_Some_2 (kn_bufs s1) i) as [x Hx]; [change (kn_bufs s1) with (kn_bufs s); rewrite (lru_len _ _ Hl); lia |].
    rewrite (buf_at_lookup s1 i x Hx). by apply (all_pinned me s v bl i x).
Qed.

Lemma commit_full me s v bl : tx me s v ∅ bl -> length bl = NBUF -> exists s', commit s = Panic "bget: no buffers" s'.
Proof.
  intros Htx Hlen. pose proof Htx as [Hb Hm Hbl _]. assert (H0 : (0 < length bl)%nat) by (rewrite Hlen; unfold NBUF; lia).
  destruct (slot_range start nlog bl 0 Hbl H0) as (_ & Hs & _ & Hn).
  destruct (bread_full me s v bl (slot start 0) Htx Hlen) as [s' E].
  { by apply (slot_not_in start nlog). }
  exists s'. unfold commit. unfold bind at 1, getlog, gets. cbn [obind]. rewrite (lm_n _ _ _ _ Hm), (proj2 (Z.ltb_lt _ _)) by lia.
  apply bind_panic. unfold write_log, HDRLOOP. cbn [write_log_loop]. unfold bind at 1, getlog, gets. cbn [obind].
  rewrite (lm_n _ _ _ _ Hm), (proj2 (Z.ltb_lt _ _)) by lia. apply bind_panic.
  rewrite (lm_dev _ _ _ _ Hm), (lm_start _ _ _ _ Hm). change (Z.of_nat 0) with 0 in Hs. by rewrite Hs.
Qed.

End Tx.

(** ** Properties *)

(** C2: Transactions are atomic, also when the power fails. A transaction that
    overwrites up to MAXOPBLOCKS home blocks either completes, and the disk holds
    all its writes, or is cut short at some disk write, and then what recovery
    will make of the disk is the state before the transaction or the state after
    it, never a mixture. It does not panic, block or run on. *)
Theorem transaction_atomic (start nlog : Z) `{PF : Platform} `{PA : Patience} `{BD : !BlockDev} `{BO : !BlockDevOk BD}
    `{LY : !layout start nlog} (me : nat) (s : kern) (l : list (Z * list Z))
    (Hq : quiescent start nlog me s) (Hl : tx_list start nlog l)
    (Hmax : Z.of_nat (length l) <= MAXOPBLOCKS) (Hn : Z.of_nat (length l) <= nlog - 1) :
  match transaction l s with
  | Ok _ s' => quiescent start nlog me s' /\ home_eq start nlog (dv s') (writes l (dv s))
  | Panic msg s' => msg = "power off"%string /\ hdr_ok start nlog (dv s') /\
      (home_eq start nlog (recovered start (dv s')) (dv s) \/
       home_eq start nlog (recovered start (dv s')) (writes l (dv s)))
  | _ => False
  end.
Proof.
  pose proof (transaction_run start nlog me s l Hq Hl Hmax Hn) as H. destruct (transaction l s); simpl in H; try done.
  by destruct H as (_ & ? & ?).
Qed.

(** The log of the examples: blocks 2 .. 21 of a disk of 100 blocks. *)
Definition log_ready (n : nat) : @kern ram_platform :=
  set_kn_log (mkLog 2 20 0 0 ROOTDEV 0 (replicate (Z.to_nat LOGSIZE) 0)) (booted n).

Lemma ram_layout : layout (PF := ram_platform) 2 20.
Proof. split; vm_compute; congruence. Qed.

Lemma log_ready_bio n : bio (PF := ram_platform) 0 (log_ready n) (ram_view (ram_zero n)) ∅ ∅.
Proof.
  destruct (booted_bio n) as (L & bs & E & Hb). unfold log_ready. rewrite E in *. destruct Hb. by split.
Qed.

Lemma log_ready_dv n : dv (log_ready n) = ram_view (ram_zero n).
Proof. destruct (booted_bio n) as (L & bs & E & Hb). unfold log_ready, dv. by rewrite E. Qed.

Lemma zero_hdr n : hdr_n (ram_view (ram_zero n) 2) = 0.
Proof. reflexivity. Qed.

Lemma log_ready_quiescent n : quiescent (PF := ram_platform) 2 20 0 (log_ready n).
Proof.
  split_and!; [done | done |]. eexists. split.
  - apply log_ready_bio.
  - by split.
  - split; simpl; [constructor | constructor | done | lia].
  - rewrite log_ready_dv. apply zero_hdr.
Qed.

Lemma transaction_atomic_witness :
  match transaction (PF := ram_platform) (PA := 0%nat) [(40, replicate (Z.to_nat BSIZE) 7); (41, replicate (Z.to_nat BSIZE) 8)] (log_ready 4) with
  | Ok _ s' => False \/ ram_view (kn_dev s') 40 = replicate (Z.to_nat BSIZE) 7
  | Panic msg s' => msg = "power off"%string /\
      ((recovered 2 (dv s') 40 = replicate (Z.to_nat BSIZE) 0 /\ recovered 2 (dv s') 41 = replicate (Z.to_nat BSIZE) 0) \/
       (recovered 2 (dv s') 40 = replicate (Z.to_nat BSIZE) 7 /\ recovered 2 (dv s') 41 = replicate (Z.to_nat BSIZE) 8))
  | _ => False
  end.
Proof.
  assert (H40 : home (PF := ram_platform) 2 20 40) by (split; [split; vm_compute; congruence | lia]).
  assert (H41 : home (PF := ram_platform) 2 20 41) by (split; [split; vm_compute; congruence | lia]).
  assert (Hl : tx_list (PF := ram_platform) 2 20 [(40, replicate (Z.to_nat BSIZE) 7); (41, replicate (Z.to_nat BSIZE) 8)])
    by (constructor; [split; [exact H40 | reflexivity] | constructor; [split; [exact H41 | reflexivity] | constructor]]).
  pose proof (transaction_atomic 2 20 (PF := ram_platform) (PA := 0%nat) (LY := ram_layout) 0 (log_ready 4)
    [(40, replicate (Z.to_nat BSIZE) 7); (41, replicate (Z.to_nat BSIZE) 8)] (log_ready_quiescent 4) Hl
    ltac:(unfold MAXOPBLOCKS; simpl; lia) ltac:(simpl; lia)) as H.
  pose proof (log_ready_dv 4) as Ed. revert Ed H. generalize (dv (log_ready 4)). intros D ->.
  destruct (transaction _ _) as [u s' | msg s' | | |]; intros H; try exact H.
  - right. exact (proj2 H 40 H40).
  - destruct H as (E & _ & [H | H]); (split; [exact E |]); [left | right]; (split; [exact (H 40 H40) | exact (H 41 H41)]).
Defined.

(** C4: Recovery restores the last committed state. [initlog] on a disk with a
    well-formed log copies the logged blocks home and erases the log; if the power
    fails while it does so, what a later recovery restores is unchanged. *)
Theorem initlog_recovers (start nlog : Z) `{PF : Platform} `{PA : Patience} `{BD : !BlockDev} `{BO : !BlockDevOk BD}
    `{LY : !layout start nlog} (me : nat) (s : kern) (v : Z -> list Z) (sb : superblock)
    (Hb : bio me s v ∅ ∅) (Hst : sb_logstart sb = start) (Hsz : sb_nlog sb = nlog)
    (Hlen : length (lh_block (kn_log s)) = Z.to_nat LOGSIZE)
    (Ho : lg_outstanding (kn_log s) = 0) (Hc : lg_committing (kn_log s) = 0) (Hok : hdr_ok start nlog (dv s)) :
  match initlog ROOTDEV sb s with
  | Ok _ s' => quiescent start nlog me s' /\ home_eq start nlog (dv s') (recovered start (dv s))
  | Panic msg s' => msg = "power off"%string /\ hdr_ok start nlog (dv s') /\
      home_eq start nlog (recovered start (dv s')) (recovered start (dv s))
  | _ => False
  end.
Proof.
  pose proof (initlog_run start nlog me s v sb Hb Hst Hsz Hlen Ho Hc Hok) as H. destruct (initlog ROOTDEV sb s); simpl in H; [split; apply H | done..].
Qed.

(** A disk whose log holds block 40, committed but not yet installed. *)
Definition ram_committed (n : nat) : ramdisk :=
  mkRam (<[2%nat := put_hdr [40] (replicate (Z.to_nat BSIZE) 0)]>
        (<[3%nat := replicate (Z.to_nat BSIZE) 7]> (rd_blocks (ram_zero n)))) n.
Definition crashed (n : nat) : @kern ram_platform := set_kn_dev (PF := ram_platform) (ram_committed n) (log_ready n).

Lemma crashed_bio n : bio (PF := ram_platform) 0 (crashed n) (ram_view (ram_committed n)) ∅ ∅.
Proof.
  unfold crashed, log_ready, booted.
  destruct (binit_run (PF := ram_platform) (ram_kern (ram_zero n))) as (L & bs & l & E & Hl & Hc & HL).
  - reflexivity.
  - apply Forall_replicate. repeat split.
  - rewrite E. split.
    + apply kctx_relocked; [apply idle_kctx; unfold NPROC; simpl; lia |]. intros lk Hlk. apply HL. left.
      exists "". by apply idle_locks_free.
    + change (length (rd_blocks (ram_committed n)) = ram_size). unfold ram_committed. cbn [rd_blocks].
      rewrite !length_insert. apply length_replicate.
    + exists l. exact Hl.
    + apply Hc. intros b _. apply ram_view_len.
Qed.

Lemma blocks_40 : blocks_ok (PF := ram_platform) 2 20 [40].
Proof.
  split.
  - apply NoDup_singleton.
  - constructor; [| constructor]. split; [split; vm_compute; congruence | lia].
  - vm_compute. congruence.
  - simpl. lia.
Qed.

Lemma initlog_recovers_witness :
  match initlog (PF := ram_platform) (PA := 0%nat) ROOTDEV (mkSb FSMAGIC 100 70 16 20 2 22 23) (crashed 9) with
  | Ok _ s' => ram_view (kn_dev s') 40 = replicate (Z.to_nat BSIZE) 7
  | Panic msg s' => msg = "power off"%string /\ recovered 2 (dv s') 40 = replicate (Z.to_nat BSIZE) 7
  | _ => False
  end.
Proof.
  assert (H40 : home (PF := ram_platform) 2 20 40) by (split; [split; vm_compute; congruence | lia]).
  assert (Eb : hdr_blocks (ram_view (ram_committed 9) 2) = [40]) by (vm_compute; reflexivity).
  assert (En : hdr_n (ram_view (ram_committed 9) 2) = 1) by (vm_compute; reflexivity).
  assert (Ev : recovered 2 (ram_view (ram_committed 9)) 40 = replicate (Z.to_nat BSIZE) 7) by (vm_compute; reflexivity).
  pose proof (initlog_recovers 2 20 (PF := ram_platform) (PA := 0%nat) (LY := ram_layout) 0 (crashed 9) _
    (mkSb FSMAGIC 100 70 16 20 2 22 23) (crashed_bio 9) eq_refl eq_refl eq_refl eq_refl eq_refl) as H.
  change (dv (crashed 9)) with (ram_view (ram_committed 9)) in H.
  assert (Hok : hdr_ok (PF := ram_platform) 2 20 (ram_view (ram_committed 9))).
  { unfold hdr_ok. rewrite En, Eb. split; [unfold LOGSIZE, MAXOPBLOCKS; lia | exact blocks_40]. }
  specialize (H Hok). destruct (initlog _ _ _) as [u s' | msg s' | | |]; try exact H.
  - rewrite <- Ev. exact (proj2 H 40 H40).
  - destruct H as (E & _ & H). split; [exact E |]. rewrite <- Ev. exact (H 40 H40).
Defined.


(** The log while a commit is in progress, or not. *)
Definition upd_committing (c : Z) (s : @kern ram_platform) : @kern ram_platform := set_kn_log (set_lg_committing c (kn_log s)) s.

Lemma upd_committing_ctx c s : kctx 0 (kn_k s) -> kctx 0 (kn_k (upd_committing c s)).
Proof. done. Qed.


(** C29: A transaction may need as many buffers as the cache has, since LOGSIZE equals
    NBUF. On a disk with a log of more than LOGSIZE blocks, when LOGSIZE distinct blocks
    are logged every buffer is pinned, so [commit] finds no buffer for the log's own
    blocks and panics. *)
Theorem commit_panics_when_full (start nlog : Z) `{PF : Platform} `{PA : Patience} `{BD : !BlockDev} `{BO : !BlockDevOk BD}
    `{LY : !layout start nlog} (me : nat) (s : kern) (v : Z -> list Z) (bl : list Z)
    (Htx : tx start nlog me s v ∅ bl) (Hfull : Z.of_nat (length bl) = LOGSIZE) :
  exists s', commit s = Panic "bget: no buffers" s'.
Proof. apply (commit_full start nlog me s v bl Htx). unfold LOGSIZE, MAXOPBLOCKS, NBUF in *. lia. Qed.

(** Thirty writes by three operations. *)
Definition many_writes : list (Z * list Z) := (fun i => (50 + Z.of_nat i, replicate (Z.to_nat BSIZE) 1)) <$> seq 0 30.
Definition three_ops : @kern ram_platform :=
  set_kn_log (mkLog 2 40 3 0 ROOTDEV 0 (replicate (Z.to_nat LOGSIZE) 0)) (booted 0).

Lemma ram_layout40 : layout (PF := ram_platform) 2 40.
Proof. split; vm_compute; congruence. Qed.

Lemma three_ops_tx : tx (PF := ram_platform) 2 40 0 three_ops (ram_view (ram_zero 0)) ∅ [].
Proof.
  destruct (booted_bio 0) as (L & bs & E & Hb). split.
  - unfold three_ops. rewrite E in *. destruct Hb. by split.
  - by split.
  - split; simpl; [constructor | constructor | done | lia].
  - assert (Ed : dv (PF := ram_platform) three_ops = ram_view (ram_zero 0)) by (unfold three_ops, dv; by rewrite E).
    rewrite Ed. reflexivity.
Qed.

Lemma many_writes_ok : tx_list (PF := ram_platform) 2 40 many_writes.
Proof.
  apply Forall_fmap, Forall_forall. intros i Hi%elem_of_seq. simpl. split; [| reflexivity].
  split; [change (nblocks (BlockDevOk := ram_dev_ok)) with 100 | ]; lia.
Qed.

Lemma commit_panics_when_full_witness :
  exists s1 s2, tx_writes (PF := ram_platform) (PA := 0%nat) many_writes three_ops = Ok tt s1 /\
    commit (PF := ram_platform) (PA := 0%nat) s1 = Panic "bget: no buffers" s2.
Proof.
  destruct (tx_writes_run 2 40 (PF := ram_platform) (PA := 0%nat) (LY := ram_layout40) 0 many_writes many_writes_ok
    three_ops _ [] three_ops_tx ltac:(vm_compute; congruence) ltac:(vm_compute; lia) ltac:(vm_compute; congruence) ltac:(vm_compute; congruence))
    as (s1 & E & Htx & _).
  destruct (commit_panics_when_full 2 40 (PF := ram_platform) (PA := 0%nat) (LY := ram_layout40) 0 s1 _ (logged_all many_writes []) Htx ltac:(vm_compute; reflexivity))
    as (s2 & E2).
  exists s1, s2. split; [exact E | exact E2].
Defined.
