(* ===== verification/Uart.v ===== *)
(** * kernel/uart.c: the 16550a UART (definitions)

    Registers are reached through the platform's memory-mapped devices. The
    interrupt handler [uartintr] is with the console, whose code it calls. *)

From S2P Require Import Prelude Riscv Mem Bytes StringLib Spinlock Kalloc Vm Proc State.

Definition RHR : Z := 0.
Definition THR : Z := 0.
Definition IER : Z := 1.
Definition IER_RX_ENABLE : Z := Z.shiftl 1 0.
Definition IER_TX_ENABLE : Z := Z.shiftl 1 1.
Definition FCR : Z := 2.
Definition FCR_FIFO_ENABLE : Z := Z.shiftl 1 0.
Definition FCR_FIFO_CLEAR : Z := Z.shiftl 3 1.
Definition ISR : Z := 2.
Definition LCR : Z := 3.
Definition LCR_EIGHT_BITS : Z := Z.shiftl 3 0.
Definition LCR_BAUD_LATCH : Z := Z.shiftl 1 7.
Definition LSR : Z := 5.
Definition LSR_RX_READY : Z := Z.shiftl 1 0.
Definition LSR_TX_IDLE : Z := Z.shiftl 1 5.

Definition Reg (reg : Z) : Z := UART0 + reg.

Section Uart.
Context `{PF : Platform} `{PA : Patience}.

Definition ReadReg (reg : Z) : M kern Z := let* v := mmio_read (Reg reg) in ret (u8 v).
Definition WriteReg (reg v : Z) : M kern unit := mmio_write (Reg reg) (u8 v).

Definition uartinit : M kern unit :=
  WriteReg IER 0x00 ;;;
  WriteReg LCR LCR_BAUD_LATCH ;;;
  WriteReg 0 0x03 ;;;
  WriteReg 1 0x00 ;;;
  WriteReg LCR LCR_EIGHT_BITS ;;;
  WriteReg FCR (Z.lor FCR_FIFO_ENABLE FCR_FIFO_CLEAR) ;;;
  WriteReg IER (Z.lor IER_TX_ENABLE IER_RX_ENABLE) ;;;
  lk_ (zoom Lkhw (initlock UartLock "uart")).

Definition getuart : M kern uart := gets (fun s => io_uart (kn_io s)).
Definition upd_uart (f : uart -> uart) : M kern unit := upd_io (fun io => set_io_uart (f (io_uart io)) io).

(** Between [uart_tx_r] and [uart_tx_w] there are at most UART_TX_BUF_SIZE characters
    to send, so as many iterations, and one that finds none, suffice. *)
Fixpoint uartstart_loop (n : nat) : M kern unit :=
  match n with
  | O => fun _ => NoFuel
  | S n =>
      let* u := getuart in
      if tx_w u =? tx_r u then
        let* _ := ReadReg ISR in ret tt
      else
        let* lsr := ReadReg LSR in
        if Z.land lsr LSR_TX_IDLE =? 0 then ret tt else
        let* c := arr_get (tx_buf u) (tx_r u mod UART_TX_BUF_SIZE) in
        upd_uart (fun u => set_tx_r (u64 (tx_r u + 1)) u) ;;;
        lk_ (wakeup ChUartTx) ;;;
        WriteReg THR c ;;;
        uartstart_loop n
  end.

Definition uartstart : M kern unit := uartstart_loop (S (Z.to_nat UART_TX_BUF_SIZE)).

Fixpoint uartputc_wait (n : nat) : M kern unit :=
  match n with
  | O => fun _ => NoFuel
  | S n =>
      let* u := getuart in
      if tx_w u =? u64 (tx_r u + UART_TX_BUF_SIZE) then
        lk_ (sleep ChUartTx UartLock) ;;; uartputc_wait n
      else ret tt
  end.

Definition uartputc (c : Z) : M kern unit :=
  lk_ (acq UartLock) ;;;
  let* io := getio in
  if truthy (io_panicked io) then spin else
  uartputc_wait (S patience) ;;;
  let* u := getuart in
  let* b := arr_set (tx_buf u) (tx_w u mod UART_TX_BUF_SIZE) (u8 c) in
  upd_uart (set_tx_buf b) ;;;
  upd_uart (fun u => set_tx_w (u64 (tx_w u + 1)) u) ;;;
  uartstart ;;;
  lk_ (rel UartLock).

(** The busy wait for the transmit holding register. *)
Fixpoint wait_tx_idle (n : nat) : M kern unit :=
  match n with
  | O => fun _ => NoFuel
  | S n =>
      let* lsr := ReadReg LSR in
      if Z.land lsr LSR_TX_IDLE =? 0 then wait_tx_idle n else ret tt
  end.

Definition uartputc_sync (c : Z) : M kern unit :=
  lk_ (zoom Lkhw push_off) ;;;
  let* io := getio in
  if truthy (io_panicked io) then spin else
  wait_tx_idle (S patience) ;;;
  WriteReg THR c ;;;
  lk_ (zoom Lkhw pop_off).

Definition uartgetc : M kern Z :=
  let* lsr := ReadReg LSR in
  if truthy (Z.land lsr 0x01) then ReadReg RHR else ret (-1).

End Uart.
