(* ===== verification/Printf.v ===== *)
(** * kernel/printf.c: formatted console output (definitions)

    With [consputc] of kernel/console.c, through which it prints, and [procdump]
    and [ps] of kernel/proc.c, which print the process table. *)

From Stdlib Require Import Ascii.
From S2P Require Import Prelude Riscv Mem Bytes StringLib Spinlock Kalloc Vm Proc State Uart.

(** The bytes of a string literal, without its nul. *)
Fixpoint str (s : string) : list Z :=
  match s with
  | EmptyString => []
  | String a s => Z.of_N (Ascii.N_of_ascii a) :: str s
  end.
(** The C string at the start of a character array. *)
Fixpoint cstr (l : list Z) : list Z :=
  match l with [] => [] | c :: l => if c =? 0 then [] else c :: cstr l end.

Definition NL : Z := 10.
Definition BACKSPACE : Z := 0x100.

(** An argument of [printf]: a 64-bit value, or a pointer to a string. *)
Inductive varg := VInt (x : Z) | VStr (s : list Z).

Section Printf.
Context `{PF : Platform} `{PA : Patience}.

Definition consputc (c : Z) : M kern unit :=
  if c =? BACKSPACE then
    uartputc_sync 8 ;;; uartputc_sync 32 ;;; uartputc_sync 8
  else uartputc_sync c.

Definition digits : list Z := str "0123456789abcdef".

(** The do-while loop that fills [buf] with digits, least significant first. *)
Fixpoint printint_loop (n : nat) (buf : list Z) (i x base : Z) : M kern (list Z * Z) :=
  match n with
  | O => fun _ => NoFuel
  | S n =>
      let* d := arr_get digits (x mod base) in
      let* buf := arr_set buf i d in
      let x := x / base in
      if truthy x then printint_loop n buf (i + 1) x base else ret (buf, i + 1)
  end.

(** [while(--i >= 0) consputc(buf[i]);] for [i] characters *)
Fixpoint print_back (i : nat) (buf : list Z) : M kern unit :=
  match i with
  | O => ret tt
  | S i => let* c := arr_get buf (Z.of_nat i) in consputc c ;;; print_back i buf
  end.

Definition printint (xx base : Z) (sign : bool) : M kern unit :=
  let sign := sign && (xx <? 0) in
  let x := if sign then u64 (- xx) else u64 xx in
  let* r := printint_loop 65 (replicate 16 0) 0 x base in
  let '(buf, i) := r in
  let* r := (if sign then let* buf := arr_set buf i 45 in ret (buf, i + 1) else ret (buf, i)) in
  let '(buf, i) := r in
  print_back (Z.to_nat i) buf.

Fixpoint printptr_loop (n : nat) (x : Z) : M kern unit :=
  match n with
  | O => ret tt
  | S n =>
      let* d := arr_get digits (Z.shiftr x 60) in
      consputc d ;;;
      printptr_loop n (u64 (Z.shiftl x 4))
  end.

Definition printptr (x : Z) : M kern unit :=
  consputc 48 ;;; consputc 120 ;;; printptr_loop 16 x.

Fixpoint print_str (s : list Z) : M kern unit :=
  match s with
  | [] => ret tt
  | c :: s => if c =? 0 then ret tt else consputc c ;;; print_str s
  end.

(** [va_arg(ap, int)], [va_arg(ap, uint64)], [va_arg(ap, char * )] *)
Definition va_int (ap : list varg) : M kern (Z * list varg) :=
  match ap with VInt x :: ap => ret (i32 x, ap) | _ => undef end.
Definition va_uint64 (ap : list varg) : M kern (Z * list varg) :=
  match ap with VInt x :: ap => ret (u64 x, ap) | _ => undef end.
Definition va_str (ap : list varg) : M kern (list Z * list varg) :=
  match ap with
  | VStr s :: ap => ret (s, ap)
  | VInt x :: ap => if u64 x =? 0 then ret (str "(null)", ap) else undef
  | [] => undef
  end.

Definition fmt_at (fmt : list Z) (i : nat) : Z := Z.land (default 0 (fmt !! i)) 0xff.

Definition chr (a : Ascii.ascii) : Z := Z.of_N (Ascii.N_of_ascii a).

(** The loop over the format; [n] bounds the characters left. *)
Fixpoint printf_loop (n : nat) (fmt : list Z) (i : nat) (ap : list varg) : M kern unit :=
  match n with
  | O => fun _ => NoFuel
  | S n =>
      let cx := fmt_at fmt i in
      if cx =? 0 then ret tt else
      if negb (cx =? chr "%") then consputc cx ;;; printf_loop n fmt (i + 1) ap else
      let i := (i + 1)%nat in
      let c0 := fmt_at fmt i in
      let c1 := if truthy c0 then fmt_at fmt (i + 1) else 0 in
      let c2 := if truthy c1 then fmt_at fmt (i + 2) else 0 in
      let eqc c a := c =? chr a in
      if eqc c0 "d"%char then
        let* a := va_int ap in printint a.1 10 true ;;; printf_loop n fmt (i + 1) a.2
      else if eqc c0 "l"%char && eqc c1 "d"%char then
        let* a := va_uint64 ap in printint (i64 a.1) 10 true ;;; printf_loop n fmt (i + 2) a.2
      else if eqc c0 "l"%char && eqc c1 "l"%char && eqc c2 "d"%char then
        let* a := va_uint64 ap in printint (i64 a.1) 10 true ;;; printf_loop n fmt (i + 3) a.2
      else if eqc c0 "u"%char then
        let* a := va_int ap in printint a.1 10 false ;;; printf_loop n fmt (i + 1) a.2
      else if eqc c0 "l"%char && eqc c1 "u"%char then
        let* a := va_uint64 ap in printint (i64 a.1) 10 false ;;; printf_loop n fmt (i + 2) a.2
      else if eqc c0 "l"%char && eqc c1 "l"%char && eqc c2 "u"%char then
        let* a := va_uint64 ap in printint (i64 a.1) 10 false ;;; printf_loop n fmt (i + 3) a.2
      else if eqc c0 "x"%char then
        let* a := va_int ap in printint a.1 16 false ;;; printf_loop n fmt (i + 1) a.2
      else if eqc c0 "l"%char && eqc c1 "x"%char then
        let* a := va_uint64 ap in printint (i64 a.1) 16 false ;;; printf_loop n fmt (i + 2) a.2
      else if eqc c0 "l"%char && eqc c1 "l"%char && eqc c2 "x"%char then
        let* a := va_uint64 ap in printint (i64 a.1) 16 false ;;; printf_loop n fmt (i + 3) a.2
      else if eqc c0 "p"%char then
        let* a := va_uint64 ap in printptr a.1 ;;; printf_loop n fmt (i + 1) a.2
      else if eqc c0 "s"%char then
        let* a := va_str ap in print_str a.1 ;;; printf_loop n fmt (i + 1) a.2
      else if eqc c0 "%"%char then
        consputc (chr "%") ;;; printf_loop n fmt (i + 1) ap
      else if c0 =? 0 then ret tt
      else
        consputc (chr "%") ;;; consputc c0 ;;; printf_loop n fmt (i + 1) ap
  end.

Definition printf (fmt : list Z) (ap : list varg) : M kern unit :=
  let* io := getio in
  let locking := io_locking io in
  when (truthy locking) (lk_ (acq PrLock)) ;;;
  printf_loop (S (length fmt)) fmt 0 ap ;;;
  when (truthy locking) (lk_ (rel PrLock)).

(** The C function [panic]. The rest of the model only records that it was called
    (the outcome [Panic]). *)
Definition panic_c (s : list Z) : M kern unit :=
  upd_io (set_io_locking 0) ;;;
  printf (str "panic: ") [] ;;;
  printf (str "%s" ++ [NL]) [VStr s] ;;;
  upd_io (set_io_panicked 1) ;;;
  spin.

Definition printfinit : M kern unit :=
  lk_ (zoom Lkhw (initlock PrLock "pr")) ;;;
  upd_io (set_io_locking 1).

(** ** Listing processes (kernel/proc.c) *)

(** The table [states] of [procdump] and [ps]. *)
Definition state_name (st : procstate) : list Z :=
  match st with
  | UNUSED => str "unused" | USED => str "used" | SLEEPING => str "sleep "
  | RUNNABLE => str "runble" | RUNNING => str "run   " | ZOMBIE => str "zombie"
  end.

Fixpoint procdump_loop (n i : nat) : M kern unit :=
  match n with
  | O => ret tt
  | S n =>
      let* p := lk_ (getp i) in
      when (negb (bool_decide (p_state p = UNUSED)))
        (printf (str "%d %s %s") [VInt (p_pid p); VStr (state_name (p_state p)); VStr (cstr (p_name p))] ;;;
         printf [NL] []) ;;;
      procdump_loop n (S i)
  end.

Definition procdump : M kern unit :=
  printf [NL] [] ;;;
  procdump_loop NPROC 0.

(** [strncmp] of two C strings given by their bytes. *)
Fixpoint strncmp_l (n : nat) (p q : list Z) : Z :=
  match n with
  | O => 0
  | S n =>
      let cp := default 0 (head p) in
      let cq := default 0 (head q) in
      if (cp =? 0) || negb (cp =? cq) then i32 (cp - cq) else strncmp_l n (tail p) (tail q)
  end.

Fixpoint atoi_loop (s : list Z) (n : Z) : Z :=
  match s with
  | [] => n
  | c :: s => if (48 <=? c) && (c <=? 57) then atoi_loop s (i32 (n * 10 + c - 48)) else n
  end.
Definition atoi (s : list Z) : Z := atoi_loop s 0.

(** The inner loop of [parsePIDs]: [inl tt] returns -1 from it. *)
Fixpoint parsePIDs_num (fuel : nat) (args pidstr : list Z) (i pidstrI : Z) : M kern (unit + (list Z * Z * Z)) :=
  match fuel with
  | O => fun _ => NoFuel
  | S fuel =>
      let* c := arr_get (args ++ [0]) i in
      if negb (c =? chr ",") && (i <? Z.of_nat (length args)) then
        let* pidstr := arr_set pidstr pidstrI c in
        let pidstrI := pidstrI + 1 in
        if 10 <=? pidstrI then ret (inl tt) else parsePIDs_num fuel args pidstr (i + 1) pidstrI
      else ret (inr (pidstr, i, pidstrI))
  end.

(** Returns the status and the array [pids]. *)
Fixpoint parsePIDs_loop (fuel : nat) (args pids : list Z) (i pidsI : Z) : M kern (Z * list Z) :=
  match fuel with
  | O => fun _ => NoFuel
  | S fuel =>
      if i <? Z.of_nat (length args) then
        let* r := parsePIDs_num (S (length args)) args (replicate 10 0) i 0 in
        match r with
        | inl _ => ret (-1, pids)
        | inr (pidstr, i, pidstrI) =>
            if pidstrI =? 0 then ret (-1, pids) else
            let* pidstr := arr_set pidstr pidstrI 0 in
            let* pids := arr_set pids pidsI (atoi (cstr pidstr)) in
            parsePIDs_loop fuel args pids (i + 1) (pidsI + 1)
        end
      else
        let* pids := arr_set pids pidsI (-1) in
        ret (0, pids)
  end.

Definition parsePIDs (args pids : list Z) : M kern (Z * list Z) :=
  parsePIDs_loop (S (length args)) args pids 0 0.

(** The string at a pointer returned by [kalloc]. *)
Definition kstr (p : Z) : M kern (list Z) :=
  if p =? 0 then kfault else gets (fun s => cstr (bytes (m_mem (k_mach (kn_k s))) p (Z.to_nat PGSIZE))).

Record ps_opts := mkPsOpts { onlyRunning : bool; longList : bool; pidFilter : bool; ps_pids : list Z }.

Fixpoint ps_flags (fuel : nat) (argc : Z) (flags : list Z) (i : Z) (o : ps_opts) : M kern ps_opts :=
  match fuel with
  | O => fun _ => NoFuel
  | S fuel =>
      if i <? argc then
        let* f := arr_get flags i in
        let* f := kstr f in
        if strncmp_l 1 (str "r") f =? 0 then
          ps_flags fuel argc flags (i + 1) (mkPsOpts true (longList o) (pidFilter o) (ps_pids o))
        else if strncmp_l 2 (str "-l") f =? 0 then
          ps_flags fuel argc flags (i + 1) (mkPsOpts (onlyRunning o) true (pidFilter o) (ps_pids o))
        else if strncmp_l 2 (str "-p") f =? 0 then
          let i := i + 1 in
          let* f := arr_get flags i in
          let* f := kstr f in
          let* r := parsePIDs f (ps_pids o) in
          ps_flags fuel argc flags (i + 1)
            (mkPsOpts (onlyRunning o) (longList o) (pidFilter o || (r.1 =? 0)) r.2)
        else ps_flags fuel argc flags (i + 1) o
      else ret o
  end.

(** Is [pid] among the [pids] before the terminating -1? *)
Fixpoint valid_pid (fuel : nat) (pids : list Z) (i pid : Z) : M kern bool :=
  match fuel with
  | O => fun _ => NoFuel
  | S fuel =>
      let* x := arr_get pids i in
      if x =? -1 then ret false else if pid =? x then ret true else valid_pid fuel pids (i + 1) pid
  end.

Definition TAB : Z := 9.

Fixpoint ps_loop (n i : nat) (o : ps_opts) : M kern unit :=
  match n with
  | O => ret tt
  | S n =>
      let* p := lk_ (getp i) in
      if bool_decide (p_state p = UNUSED) then ps_loop n (S i) o else
      if negb (bool_decide (p_state p = RUNNING)) && onlyRunning o then ps_loop n (S i) o else
      let* valid := (if pidFilter o then valid_pid (S NPROC) (ps_pids o) 0 (p_pid p) else ret true) in
      if negb valid then ps_loop n (S i) o else
      let* ppid := (match p_parent p with
                    | None => ret 0
                    | Some j => let* q := lk_ (getp j) in ret (p_pid q)
                    end) in
      (if longList o then
         printf (str "%d" ++ [TAB] ++ str "%d" ++ [TAB] ++ str "%ld" ++ [TAB] ++ str "%s" ++ [TAB] ++ str "%ld" ++ [TAB] ++ str "%s" ++ [NL])
           [VInt (p_pid p); VInt ppid; VInt (p_kstack p); VStr (state_name (p_state p)); VInt (p_sz p); VStr (cstr (p_name p))]
       else printf (str "%d" ++ [TAB] ++ str "%s" ++ [NL]) [VInt (p_pid p); VStr (cstr (p_name p))]) ;;;
      ps_loop n (S i) o
  end.

Definition ps `{UN : Uninit} (argc : Z) (flags : list Z) : M kern Z :=
  let* o := ps_flags (S (Z.to_nat argc)) argc flags 1 (mkPsOpts false false false (uninit NPROC)) in
  (if longList o then
     printf (str "PID" ++ [TAB] ++ str "PPID" ++ [TAB] ++ str "Addr" ++ [TAB; TAB] ++ str "State" ++ [TAB] ++ str "Size" ++ [TAB] ++ str "Cmd" ++ [NL]) []
   else printf (str "PID" ++ [TAB] ++ str "Cmd" ++ [NL]) []) ;;;
  ps_loop NPROC 0 o ;;;
  ret 1.

End Printf.
