(* ===== verification/Console.v ===== *)
(** * kernel/console.c: the console (definitions)

    Line-buffered input from the UART, output to it, and the UART's interrupt
    handler. *)

From Stdlib Require Import Ascii.
From S2P Require Import Prelude Riscv Mem Bytes StringLib Spinlock Kalloc Vm Proc State Uart Printf.

(** Control-x *)
Definition Ctl (x : ascii) : Z := chr x - chr "@".
Definition CONSOLE : Z := 1.

(** Advance a source of bytes. *)
Definition esrc_off (src : esrc) (i : Z) : esrc :=
  match src with USrc va => USrc (u64 (va + i)) | KSrc bs => KSrc (drop (Z.to_nat i) bs) end.

Section Console.
Context `{PF : Platform} `{PA : Patience}.

Definition getcons : M kern cons := gets (fun s => io_cons (kn_io s)).
Definition upd_cons (f : cons -> cons) : M kern unit := upd_io (fun io => set_io_cons (f (io_cons io)) io).

Fixpoint consolewrite_loop (fuel : nat) (src : esrc) (i n : Z) : M kern Z :=
  match fuel with
  | O => ret i
  | S fuel =>
      if i <? n then
        let* r := lk_ (either_copyin (esrc_off src i) 1) in
        if r.1 =? -1 then ret i else
        uartputc (default 0 (head r.2)) ;;;
        consolewrite_loop fuel src (i + 1) n
      else ret i
  end.

Definition consolewrite (src : esrc) (n : Z) : M kern Z := consolewrite_loop (Z.to_nat n) src 0 n.

(** Wait for input; [false]: the process was killed and the lock released. *)
Fixpoint cons_wait (fuel : nat) : M kern bool :=
  match fuel with
  | O => fun _ => NoFuel
  | S fuel =>
      let* c := getcons in
      if c_r c =? c_w c then
        let* me := my_index in
        let* k := lk_ (killed me) in
        if truthy k then lk_ (rel ConsLock) ;;; ret false
        else lk_ (sleep ChConsR ConsLock) ;;; cons_wait fuel
      else ret true
  end.

(** [inl r]: return [r] at once; [inr n]: leave the loop with [n] bytes wanted.
    The list is what a kernel destination has received. *)
Fixpoint consoleread_loop (fuel : nat) (user_dst : bool) (dst n target : Z) (out : list Z) : M kern (Z + Z * list Z) :=
  match fuel with
  | O => ret (inr (n, out))
  | S fuel =>
      if 0 <? n then
        let* ok := cons_wait (S patience) in
        if negb ok then ret (inl (-1)) else
        let* cs := getcons in
        let* c := arr_get (c_buf cs) (c_r cs mod INPUT_BUF_SIZE) in
        upd_cons (fun cs => set_c_r (u32 (c_r cs + 1)) cs) ;;;
        if c =? Ctl "D" then
          when (u32 n <? target) (upd_cons (fun cs => set_c_r (u32 (c_r cs - 1)) cs)) ;;;
          ret (inr (n, out))
        else
          let* r := lk_ (either_copyout user_dst dst [c] 1) in
          if r.1 =? -1 then ret (inr (n, out)) else
          let out := out ++ r.2 in
          if c =? NL then ret (inr (n - 1, out))
          else consoleread_loop fuel user_dst (u64 (dst + 1)) (n - 1) target out
      else ret (inr (n, out))
  end.

Definition consoleread (user_dst : bool) (dst n : Z) : M kern (Z * list Z) :=
  let target := u32 n in
  lk_ (acq ConsLock) ;;;
  let* r := consoleread_loop (Z.to_nat n) user_dst dst n target [] in
  match r with
  | inl r => ret (r, [])
  | inr (n, out) =>
      lk_ (rel ConsLock) ;;;
      ret (i32 (target - n), out)
  end.

(** [while(cons.e != cons.w && ...)] of the kill-line character; at most the whole
    buffer is erased. *)
Fixpoint kill_line (fuel : nat) : M kern unit :=
  match fuel with
  | O => fun _ => NoFuel
  | S fuel =>
      let* cs := getcons in
      if c_e cs =? c_w cs then ret tt else
      let* c := arr_get (c_buf cs) (u32 (c_e cs - 1) mod INPUT_BUF_SIZE) in
      if c =? NL then ret tt else
      upd_cons (fun cs => set_c_e (u32 (c_e cs - 1)) cs) ;;;
      consputc BACKSPACE ;;;
      kill_line fuel
  end.

Definition consoleintr (c : Z) : M kern unit :=
  lk_ (acq ConsLock) ;;;
  (if c =? Ctl "P" then procdump
   else if c =? Ctl "U" then kill_line (S (Z.to_nat INPUT_BUF_SIZE))
   else if (c =? Ctl "H") || (c =? 0x7f) then
     let* cs := getcons in
     when (negb (c_e cs =? c_w cs))
       (upd_cons (fun cs => set_c_e (u32 (c_e cs - 1)) cs) ;;;
        consputc BACKSPACE)
   else
     let* cs := getcons in
     when (negb (c =? 0) && (u32 (c_e cs - c_r cs) <? INPUT_BUF_SIZE))
       (let c := if c =? 13 then NL else c in
        consputc c ;;;
        let* cs := getcons in
        let* b := arr_set (c_buf cs) (c_e cs mod INPUT_BUF_SIZE) (u8 c) in
        upd_cons (set_c_buf b) ;;;
        upd_cons (fun cs => set_c_e (u32 (c_e cs + 1)) cs) ;;;
        let* cs := getcons in
        when ((c =? NL) || (c =? Ctl "D") || (u32 (c_e cs - c_r cs) =? INPUT_BUF_SIZE))
          (upd_cons (fun cs => set_c_w (c_e cs) cs) ;;;
           lk_ (wakeup ChConsR)))) ;;;
  lk_ (rel ConsLock).

Definition consoleinit : M kern unit :=
  lk_ (zoom Lkhw (initlock ConsLock "cons")) ;;;
  uartinit ;;;
  upd_io (fun io => set_io_devsw (<[Z.to_nat CONSOLE := true]> (io_devsw io)) io).

(** [uartintr]: read the pending characters, then send buffered ones. The number of
    characters a burst of input may have is bounded by [patience]. *)
Fixpoint uartintr_loop (fuel : nat) : M kern unit :=
  match fuel with
  | O => fun _ => NoFuel
  | S fuel =>
      let* c := uartgetc in
      if c =? -1 then ret tt else consoleintr c ;;; uartintr_loop fuel
  end.

Definition uartintr : M kern unit :=
  uartintr_loop (S patience) ;;;
  lk_ (acq UartLock) ;;;
  uartstart ;;;
  lk_ (rel UartLock).

End Console.
