(* ===== verification/Fs.v ===== *)
(** * kernel/fs.c: the file system (definitions)

    Block and inode allocation, inodes and their contents, directories and path
    names. An inode pointer is an index into [itable]; a path is its list of
    bytes, without the terminating nul. *)

From Stdlib Require Import Ascii.
From S2P Require Import Prelude Riscv Mem Bytes StringLib Spinlock Kalloc Vm Proc State Sleeplock Bio Log Uart Printf Console.

(** ** Layout (kernel/fs.h, kernel/stat.h) *)

Definition T_DIR : Z := 1.
Definition T_FILE : Z := 2.
Definition T_DEVICE : Z := 3.

Definition IBLOCK (i : Z) (sb : superblock) : Z := u32 (i / IPB + sb_inodestart sb).
Definition BBLOCK (b : Z) (sb : superblock) : Z := u32 (b / BPB + sb_bmapstart sb).

(** Offsets in [struct dinode]. *)
Definition DI_type : Z := 0.
Definition DI_major : Z := 2.
Definition DI_minor : Z := 4.
Definition DI_nlink : Z := 6.
Definition DI_size : Z := 8.
Definition DI_addrs (i : Z) : Z := 12 + 4 * i.
(** [(struct dinode * )bp->data + inum%IPB], as an offset. *)
Definition dinode_off (inum : Z) : Z := inum mod IPB * dinode_size.

(** [struct dirent]: a [ushort] and DIRSIZ characters. *)
Record dirent := mkDirent { de_inum : Z; de_name : list Z }.
Definition dirent_of (l : list Z) : dirent := mkDirent (get_u16 0 l) (slice 2 (Z.to_nat DIRSIZ) l).
Definition dirent_bytes (d : dirent) : list Z := le_bytes 2 (de_inum d) ++ de_name d.

(** [strncpy] of a C string into an array of [n] characters. *)
Definition strncpy_l (n : nat) (t : list Z) : list Z := take n (take n (cstr t) ++ replicate n 0).

Section Fs.
Context `{PF : Platform} `{PA : Patience} `{BD : !BlockDev}.

Definition getsb : M kern superblock := gets kn_sb.

(** Modify a buffer's data. *)
Definition upd_data (b : nat) (f : list Z -> list Z) : M kern unit :=
  upd_buf b (fun x => set_b_data (f (b_data x)) x).
Definition data (b : nat) : M kern (list Z) := let* x := getb b in ret (b_data x).

Definition readsb (dev : Z) : M kern unit :=
  let* bp := bread dev 1 in
  let* d := data bp in
  modify (set_kn_sb (mkSb (get_u32 0 d) (get_u32 4 d) (get_u32 8 d) (get_u32 12 d) (get_u32 16 d)
                          (get_u32 20 d) (get_u32 24 d) (get_u32 28 d))) ;;;
  brelse bp.

Definition fsinit (dev : Z) : M kern unit :=
  readsb dev ;;;
  let* sb := getsb in
  if negb (sb_magic sb =? FSMAGIC) then panic "invalid file system" else
  initlog dev sb.

(** ** Blocks *)

Definition bzero (dev bno : Z) : M kern unit :=
  let* bp := bread dev (u32 bno) in
  upd_data bp (fun _ => replicate (Z.to_nat BSIZE) 0) ;;;
  log_write bp ;;;
  brelse bp.

(** The scan of one bitmap block: [Some bi] is a block now allocated and its
    bitmap block released. *)
Fixpoint balloc_scan (n : nat) (dev : Z) (bp : nat) (b bi : Z) : M kern (option Z) :=
  match n with
  | O => ret None
  | S n =>
      let* sb := getsb in
      if (bi <? BPB) && (b + bi <? sb_size sb) then
        let m := Z.shiftl 1 (bi mod 8) in
        let* d := data bp in
        let* x := arr_get d (bi / 8) in
        if Z.land x m =? 0 then
          upd_data bp (fun d => <[Z.to_nat (bi / 8) := Z.lor x m]> d) ;;;
          log_write bp ;;;
          brelse bp ;;;
          bzero dev (b + bi) ;;;
          ret (Some (b + bi))
        else balloc_scan n dev bp b (bi + 1)
      else ret None
  end.

Fixpoint balloc_loop (fuel : nat) (dev b : Z) : M kern Z :=
  match fuel with
  | O => fun _ => NoFuel
  | S fuel =>
      let* sb := getsb in
      if b <? sb_size sb then
        let* bp := bread dev (BBLOCK b sb) in
        let* r := balloc_scan (S (Z.to_nat BPB)) dev bp b 0 in
        match r with
        | Some a => ret a
        | None => brelse bp ;;; balloc_loop fuel dev (b + BPB)
        end
      else
        printf (str "balloc: out of blocks" ++ [NL]) [] ;;;
        ret 0
  end.

Definition balloc (dev : Z) : M kern Z :=
  let* sb := getsb in balloc_loop (S (S (Z.to_nat (sb_size sb / BPB)))) dev 0.

Definition bfree (dev b : Z) : M kern unit :=
  let* sb := getsb in
  let* bp := bread dev (BBLOCK b sb) in
  let bi := b mod BPB in
  let m := Z.shiftl 1 (bi mod 8) in
  let* d := data bp in
  let* x := arr_get d (bi / 8) in
  if Z.land x m =? 0 then panic "freeing free block" else
  upd_data bp (fun d => <[Z.to_nat (bi / 8) := Z.land x (u8 (Z.lnot m))]> d) ;;;
  log_write bp ;;;
  brelse bp.

(** ** Inodes *)

Fixpoint iinit_loop (n i : nat) : M kern unit :=
  match n with
  | O => ret tt
  | S n => initsleeplock (SInode i) "inode" ;;; iinit_loop n (S i)
  end.

Definition iinit : M kern unit :=
  lk_ (zoom Lkhw (initlock ItableLock "itable")) ;;;
  iinit_loop NINODE 0.

(** The scan of [iget]: the entry for the inode, or the first free one. *)
Fixpoint iget_scan (n i : nat) (dev inum : Z) (empty : option nat) : M kern (nat + option nat) :=
  match n with
  | O => ret (inr empty)
  | S n =>
      let* ip := geti i in
      if (0 <? i_ref ip) && (i_dev ip =? dev) && (i_inum ip =? inum) then ret (inl i)
      else iget_scan n (S i) dev inum
             (match empty with None => if i_ref ip =? 0 then Some i else None | Some e => Some e end)
  end.

Definition iget (dev inum : Z) : M kern nat :=
  lk_ (acq ItableLock) ;;;
  let* r := iget_scan NINODE 0 dev inum None in
  match r with
  | inl ip =>
      upd_inode ip (fun x => set_i_ref (i32 (i_ref x + 1)) x) ;;;
      lk_ (rel ItableLock) ;;;
      ret ip
  | inr None => panic "iget: no inodes"
  | inr (Some ip) =>
      upd_inode ip (set_i_dev dev) ;;;
      upd_inode ip (set_i_inum inum) ;;;
      upd_inode ip (set_i_ref 1) ;;;
      upd_inode ip (set_i_valid 0) ;;;
      lk_ (rel ItableLock) ;;;
      ret ip
  end.

Fixpoint ialloc_loop (fuel : nat) (dev type inum : Z) : M kern (option nat) :=
  match fuel with
  | O => fun _ => NoFuel
  | S fuel =>
      let* sb := getsb in
      if inum <? sb_ninodes sb then
        let* bp := bread dev (IBLOCK inum sb) in
        let* d := data bp in
        let off := dinode_off inum in
        if get_i16 (off + DI_type) d =? 0 then
          upd_data bp (fun d => splice (Z.to_nat off) (replicate (Z.to_nat dinode_size) 0) d) ;;;
          upd_data bp (put_16 (off + DI_type) type) ;;;
          log_write bp ;;;
          brelse bp ;;;
          let* ip := iget dev (u32 inum) in ret (Some ip)
        else brelse bp ;;; ialloc_loop fuel dev type (inum + 1)
      else
        printf (str "ialloc: no inodes" ++ [NL]) [] ;;;
        ret None
  end.

Definition ialloc (dev type : Z) : M kern (option nat) :=
  let* sb := getsb in ialloc_loop (S (Z.to_nat (sb_ninodes sb))) dev type 1.

(** [memmove(dip->addrs, ip->addrs, sizeof(ip->addrs))] *)
Fixpoint put_addrs (off : Z) (l : list Z) (d : list Z) : list Z :=
  match l with [] => d | a :: l => put_addrs (off + 4) l (put_32 off a d) end.

(** The stores of [iupdate] into the dinode at [off]. *)
Definition put_dinode (off : Z) (x : inode) (d : list Z) : list Z :=
  let d := put_16 (off + DI_type) (i_type x) d in
  let d := put_16 (off + DI_major) (i_major x) d in
  let d := put_16 (off + DI_minor) (i_minor x) d in
  let d := put_16 (off + DI_nlink) (i_nlink x) d in
  let d := put_32 (off + DI_size) (i_size x) d in
  put_addrs (off + DI_addrs 0) (i_addrs x) d.

Definition iupdate (ip : nat) : M kern unit :=
  let* x := geti ip in
  let* sb := getsb in
  let* bp := bread (i_dev x) (IBLOCK (i_inum x) sb) in
  upd_data bp (put_dinode (dinode_off (i_inum x)) x) ;;;
  log_write bp ;;;
  brelse bp.

Definition idup (ip : nat) : M kern nat :=
  lk_ (acq ItableLock) ;;;
  upd_inode ip (fun x => set_i_ref (i32 (i_ref x + 1)) x) ;;;
  lk_ (rel ItableLock) ;;;
  ret ip.

(** The loads of [ilock] from the dinode at [off]. *)
Definition get_dinode (off : Z) (d : list Z) (x : inode) : inode :=
  let x := set_i_type (get_i16 (off + DI_type) d) x in
  let x := set_i_major (get_i16 (off + DI_major) d) x in
  let x := set_i_minor (get_i16 (off + DI_minor) d) x in
  let x := set_i_nlink (get_i16 (off + DI_nlink) d) x in
  let x := set_i_size (get_u32 (off + DI_size) d) x in
  set_i_addrs ((fun i => get_u32 (off + DI_addrs i) d) <$> seqZ 0 (NDIRECT + 1)) x.

Definition ilock (ip : option nat) : M kern unit :=
  match ip with
  | None => panic "ilock"
  | Some ip =>
      let* x := geti ip in
      if i_ref x <? 1 then panic "ilock" else
      acquiresleep (SInode ip) ;;;
      let* x := geti ip in
      when (i_valid x =? 0)
        (let* sb := getsb in
         let* bp := bread (i_dev x) (IBLOCK (i_inum x) sb) in
         let* d := data bp in
         upd_inode ip (get_dinode (dinode_off (i_inum x)) d) ;;;
         brelse bp ;;;
         upd_inode ip (set_i_valid 1) ;;;
         let* x := geti ip in
         if i_type x =? 0 then panic "ilock: no type" else ret tt)
  end.

Definition iunlock (ip : option nat) : M kern unit :=
  match ip with
  | None => panic "iunlock"
  | Some ip =>
      let* h := holdingsleep (SInode ip) in
      if negb h then panic "iunlock" else
      let* x := geti ip in
      if i_ref x <? 1 then panic "iunlock" else
      releasesleep (SInode ip)
  end.

(** The two loops of [itrunc]. *)
Fixpoint itrunc_direct (n : nat) (ip : nat) (i : Z) : M kern unit :=
  match n with
  | O => ret tt
  | S n =>
      let* x := geti ip in
      let* a := arr_get (i_addrs x) i in
      when (truthy a)
        (bfree (i_dev x) a ;;;
         upd_inode ip (fun x => set_i_addrs (<[Z.to_nat i := 0]> (i_addrs x)) x)) ;;;
      itrunc_direct n ip (i + 1)
  end.

Fixpoint itrunc_indirect (n : nat) (dev : Z) (bp : nat) (j : Z) : M kern unit :=
  match n with
  | O => ret tt
  | S n =>
      let* d := data bp in
      let a := get_u32 (4 * j) d in
      when (truthy a) (bfree dev a) ;;;
      itrunc_indirect n dev bp (j + 1)
  end.

Definition itrunc (ip : nat) : M kern unit :=
  itrunc_direct (Z.to_nat NDIRECT) ip 0 ;;;
  let* x := geti ip in
  let* a := arr_get (i_addrs x) NDIRECT in
  when (truthy a)
    (let* bp := bread (i_dev x) a in
     itrunc_indirect (Z.to_nat NINDIRECT) (i_dev x) bp 0 ;;;
     brelse bp ;;;
     bfree (i_dev x) a ;;;
     upd_inode ip (fun x => set_i_addrs (<[Z.to_nat NDIRECT := 0]> (i_addrs x)) x)) ;;;
  upd_inode ip (set_i_size 0) ;;;
  iupdate ip.

Definition iput (ip : nat) : M kern unit :=
  lk_ (acq ItableLock) ;;;
  let* x := geti ip in
  when ((i_ref x =? 1) && truthy (i_valid x) && (i_nlink x =? 0))
    (acquiresleep (SInode ip) ;;;
     lk_ (rel ItableLock) ;;;
     itrunc ip ;;;
     upd_inode ip (set_i_type 0) ;;;
     iupdate ip ;;;
     upd_inode ip (set_i_valid 0) ;;;
     releasesleep (SInode ip) ;;;
     lk_ (acq ItableLock)) ;;;
  upd_inode ip (fun x => set_i_ref (i32 (i_ref x - 1)) x) ;;;
  lk_ (rel ItableLock).

Definition iunlockput (ip : nat) : M kern unit := iunlock (Some ip) ;;; iput ip.

(** ** Inode contents *)

Definition bmap (ip : nat) (bn : Z) : M kern Z :=
  let* x := geti ip in
  if bn <? NDIRECT then
    let* addr := arr_get (i_addrs x) bn in
    if addr =? 0 then
      let* addr := balloc (i_dev x) in
      if addr =? 0 then ret 0 else
      upd_inode ip (fun x => set_i_addrs (<[Z.to_nat bn := addr]> (i_addrs x)) x) ;;;
      ret addr
    else ret addr
  else
    let bn := bn - NDIRECT in
    if bn <? NINDIRECT then
      let* addr := arr_get (i_addrs x) NDIRECT in
      let* addr :=
        (if addr =? 0 then
           let* addr := balloc (i_dev x) in
           when (negb (addr =? 0))
             (upd_inode ip (fun x => set_i_addrs (<[Z.to_nat NDIRECT := addr]> (i_addrs x)) x)) ;;;
           ret addr
         else ret addr) in
      if addr =? 0 then ret 0 else
      let* bp := bread (i_dev x) addr in
      let* d := data bp in
      let addr := get_u32 (4 * bn) d in
      let* addr :=
        (if addr =? 0 then
           let* addr := balloc (i_dev x) in
           when (truthy addr)
             (upd_data bp (put_32 (4 * bn) addr) ;;;
              log_write bp) ;;;
           ret addr
         else ret addr) in
      brelse bp ;;;
      ret addr
    else panic "bmap: out of range".

Record stat := mkStat { st_dev : Z; st_ino : Z; st_type : Z; st_nlink : Z; st_size : Z }.

Definition stati (ip : nat) : M kern stat :=
  let* x := geti ip in
  ret (mkStat (i32 (i_dev x)) (i_inum x) (i_type x) (i_nlink x) (i_size x)).

(** The number of blocks a transfer can touch: [bmap] panics beyond MAXFILE. *)
Definition RWLOOP : nat := S (S (Z.to_nat MAXFILE)).

(** Returns what [readi] returns and the bytes a kernel destination received. *)
Fixpoint readi_loop (fuel : nat) (ip : nat) (user_dst : bool) (dst off n tot : Z) (out : list Z) : M kern (Z * list Z) :=
  match fuel with
  | O => fun _ => NoFuel
  | S fuel =>
      if tot <? n then
        let* addr := bmap ip (off / BSIZE) in
        if addr =? 0 then ret (tot, out) else
        let* x := geti ip in
        let* bp := bread (i_dev x) addr in
        let m := Z.min (n - tot) (BSIZE - off mod BSIZE) in
        let* d := data bp in
        let* r := lk_ (either_copyout user_dst dst (drop (Z.to_nat (off mod BSIZE)) d) m) in
        if r.1 =? -1 then brelse bp ;;; ret (-1, out) else
        brelse bp ;;;
        readi_loop fuel ip user_dst (u64 (dst + m)) (u32 (off + m)) n (tot + m) (out ++ r.2)
      else ret (tot, out)
  end.

Definition readi (ip : nat) (user_dst : bool) (dst off n : Z) : M kern (Z * list Z) :=
  let* x := geti ip in
  if (i_size x <? off) || (u32 (off + n) <? off) then ret (0, []) else
  let n := if i_size x <? u32 (off + n) then i_size x - off else n in
  let* r := readi_loop RWLOOP ip user_dst dst off n 0 [] in
  ret (i32 r.1, r.2).

(** Returns [tot] and the final [off]. *)
Fixpoint writei_loop (fuel : nat) (ip : nat) (src : esrc) (off n tot : Z) : M kern (Z * Z) :=
  match fuel with
  | O => fun _ => NoFuel
  | S fuel =>
      if tot <? n then
        let* addr := bmap ip (off / BSIZE) in
        if addr =? 0 then ret (tot, off) else
        let* x := geti ip in
        let* bp := bread (i_dev x) addr in
        let m := Z.min (n - tot) (BSIZE - off mod BSIZE) in
        let* r := lk_ (either_copyin src m) in
        upd_data bp (splice (Z.to_nat (off mod BSIZE)) r.2) ;;;
        if r.1 =? -1 then brelse bp ;;; ret (tot, off) else
        log_write bp ;;;
        brelse bp ;;;
        writei_loop fuel ip (esrc_off src m) (u32 (off + m)) n (tot + m)
      else ret (tot, off)
  end.

Definition writei (ip : nat) (src : esrc) (off n : Z) : M kern Z :=
  let* x := geti ip in
  if (i_size x <? off) || (u32 (off + n) <? off) then ret (-1) else
  if MAXFILE * BSIZE <? u32 (off + n) then ret (-1) else
  let* r := writei_loop RWLOOP ip src off n 0 in
  let* x := geti ip in
  when (i_size x <? r.2) (upd_inode ip (set_i_size r.2)) ;;;
  iupdate ip ;;;
  ret (i32 r.1).

(** ** Directories *)

Definition namecmp (s t : list Z) : Z := strncmp_l (Z.to_nat DIRSIZ) s t.

(** The entry found and its offset [*poff]. *)
Fixpoint dirlookup_loop (fuel : nat) (dp : nat) (name : list Z) (off : Z) : M kern (option (nat * Z)) :=
  match fuel with
  | O => fun _ => NoFuel
  | S fuel =>
      let* x := geti dp in
      if off <? i_size x then
        let* r := readi dp false 0 off dirent_size in
        if negb (r.1 =? dirent_size) then panic "dirlookup read" else
        let de := dirent_of r.2 in
        if de_inum de =? 0 then dirlookup_loop fuel dp name (off + dirent_size)
        else if namecmp name (de_name de) =? 0 then
          let* ip := iget (i_dev x) (de_inum de) in ret (Some (ip, off))
        else dirlookup_loop fuel dp name (off + dirent_size)
      else ret None
  end.

Definition dirlookup (dp : nat) (name : list Z) : M kern (option (nat * Z)) :=
  let* x := geti dp in
  if negb (i_type x =? T_DIR) then panic "dirlookup not DIR" else
  dirlookup_loop (S (S (Z.to_nat (i_size x / dirent_size)))) dp name 0.

(** The offset of the first empty entry, or of the end. *)
Fixpoint dirlink_scan (fuel : nat) (dp : nat) (off : Z) : M kern Z :=
  match fuel with
  | O => fun _ => NoFuel
  | S fuel =>
      let* x := geti dp in
      if off <? i_size x then
        let* r := readi dp false 0 off dirent_size in
        if negb (r.1 =? dirent_size) then panic "dirlink read" else
        if de_inum (dirent_of r.2) =? 0 then ret off
        else dirlink_scan fuel dp (off + dirent_size)
      else ret off
  end.

Definition dirlink (dp : nat) (name : list Z) (inum : Z) : M kern Z :=
  let* r := dirlookup dp name in
  match r with
  | Some (ip, _) => iput ip ;;; ret (-1)
  | None =>
      let* x := geti dp in
      let* off := dirlink_scan (S (S (Z.to_nat (i_size x / dirent_size)))) dp 0 in
      let de := mkDirent (u16 inum) (strncpy_l (Z.to_nat DIRSIZ) name) in
      let* w := writei dp (KSrc (dirent_bytes de)) off dirent_size in
      if negb (w =? dirent_size) then ret (-1) else ret 0
  end.

(** ** Paths *)

Definition SLASH : Z := 47.

Fixpoint skip_slashes (p : list Z) : list Z :=
  match p with [] => [] | c :: p' => if c =? SLASH then skip_slashes p' else p end.
(** The characters up to the next slash, and the rest. *)
Fixpoint path_elem (p : list Z) : list Z * list Z :=
  match p with
  | [] => ([], [])
  | c :: p' => if c =? SLASH then ([], p) else let '(s, r) := path_elem p' in (c :: s, r)
  end.

(** The rest of the path and the new contents of the array [name]. *)
Definition skipelem (path name : list Z) : option (list Z * list Z) :=
  let path := skip_slashes path in
  match path with
  | [] => None
  | _ =>
      let '(s, path) := path_elem path in
      let len := Z.of_nat (length s) in
      let name :=
        if DIRSIZ <=? len then splice 0 (take (Z.to_nat DIRSIZ) s) name
        else <[Z.to_nat len := 0]> (splice 0 s name) in
      Some (skip_slashes path, name)
  end.

(** Returns the inode and the array [name]. *)
Fixpoint namex_loop (fuel : nat) (ip : nat) (path : list Z) (nameiparent : bool) (name : list Z)
    : M kern (option nat * list Z) :=
  match fuel with
  | O => fun _ => NoFuel
  | S fuel =>
      match skipelem path name with
      | None =>
          if nameiparent then iput ip ;;; ret (None, name) else ret (Some ip, name)
      | Some (path, name) =>
          ilock (Some ip) ;;;
          let* x := geti ip in
          if negb (i_type x =? T_DIR) then iunlockput ip ;;; ret (None, name) else
          if nameiparent && bool_decide (path = []) then
            iunlock (Some ip) ;;; ret (Some ip, name)
          else
            let* next := dirlookup ip name in
            match next with
            | None => iunlockput ip ;;; ret (None, name)
            | Some (next, _) => iunlockput ip ;;; namex_loop fuel next path nameiparent name
            end
      end
  end.

Definition namex (path : list Z) (nameiparent : bool) (name : list Z) : M kern (option nat * list Z) :=
  let* ip :=
    (if bool_decide (head path = Some SLASH) then iget ROOTDEV ROOTINO
     else
       let* p := my_proc in
       match p_cwd p with Some cwd => idup cwd | None => kfault end) in
  namex_loop (S (length path)) ip path nameiparent name.

Definition namei `{UN : Uninit} (path : list Z) : M kern (option nat) :=
  let* r := namex path false (uninit (Z.to_nat DIRSIZ)) in ret r.1.

Definition nameiparent (path name : list Z) : M kern (option nat * list Z) := namex path true name.

End Fs.
