(* ===== verification/FsRun.v ===== *)
(** * Running the file system inside a transaction

    A Hoare logic for the code of kernel/fs.c, over the view of the disk that the
    log and the buffer cache give a process between [begin_op] and [end_op]: a
    total triple [{{ P }} m {{ Q }}] says that [m] returns from every state of [P]
    in a state of [Q]. The assertion [fs v h bl ino] describes the state: the file
    system sees the blocks [v], the process holds the buffers [h], the transaction
    has logged the blocks [bl], and [ino] is the inode table. *)

From S2P Require Import Prelude Riscv Mem Bytes StringLib Spinlock Kalloc Vm Proc ProcSpec Kctx State Sleeplock Bio BioList BioSpec BioRun RamDisk Log LogSpec BioProps LogProps LogTx Uart Printf Console Fs.

(** ** Triples *)

Definition triple {S A} (P : S -> Prop) (m : M S A) (Q : A -> S -> Prop) : Prop :=
  forall s, P s -> exists a s', m s = Ok a s' /\ Q a s'.

Declare Scope fs_scope.
Delimit Scope fs_scope with fs.
#[warnings="-closed-notation-not-level-0"]
Notation "{{ P }} m {{ x , Q }}" := (triple P m (fun x => Q))
  (at level 20, x name, format "{{  P  }}  m  {{  x ,  Q  }}") : fs_scope.
#[global] Open Scope fs_scope.

Lemma t_bind {S A B} (P : S -> Prop) (m : M S A) (k : A -> M S B) R Q :
  triple P m R -> (forall a, triple (R a) (k a) Q) -> triple P (bind m k) Q.
Proof. intros Hm Hk s Hs. destruct (Hm s Hs) as (a & s' & E & Ha). rewrite (bind_ok _ _ _ _ _ E). by apply Hk. Qed.

Lemma t_ret {S A} (a : A) (P : S -> Prop) (Q : A -> S -> Prop) : (forall s, P s -> Q a s) -> triple P (ret a) Q.
Proof. intros H s Hs. exists a, s. split; [done | auto]. Qed.

Lemma t_bind_ret {S A B} (a : A) (P : S -> Prop) (k : A -> M S B) Q : triple P (k a) Q -> triple P (bind (ret a) k) Q.
Proof. done. Qed.

Lemma t_conseq {S A} (P P' : S -> Prop) (m : M S A) (Q Q' : A -> S -> Prop) :
  triple P m Q -> (forall s, P' s -> P s) -> (forall a s, Q a s -> Q' a s) -> triple P' m Q'.
Proof. intros H HP HQ s Hs. destruct (H s (HP s Hs)) as (a & s' & E & Ha). exists a, s'. auto. Qed.

Lemma t_pure {S A} (p : Prop) (P : S -> Prop) (m : M S A) Q : (p -> triple P m Q) -> triple (fun s => p /\ P s) m Q.
Proof. intros H s [Hp Hs]. by apply H. Qed.

Lemma t_pre {S A} (p : Prop) (P : S -> Prop) (m : M S A) Q : (forall s, P s -> p) -> (p -> triple P m Q) -> triple P m Q.
Proof. intros Hp H s Hs. apply (H (Hp s Hs) s Hs). Qed.

Lemma t_ex {S A X} (P : X -> S -> Prop) (m : M S A) Q : (forall x, triple (P x) m Q) -> triple (fun s => exists x, P x s) m Q.
Proof. intros H s [x Hs]. by apply (H x). Qed.

Lemma t_gets {S X A} (f : S -> X) (k : X -> M S A) P Q (x : X) :
  (forall s, P s -> f s = x) -> triple P (k x) Q -> triple P (bind (gets f) k) Q.
Proof. intros Hx Hk s Hs. unfold bind, gets. cbn [obind]. rewrite (Hx s Hs). by apply Hk. Qed.

Lemma t_arr_get `{PF : Platform} {X A} (l : list X) (i : Z) (k : X -> M kern A) P Q (x : X) :
  0 <= i -> l !! Z.to_nat i = Some x -> triple P (k x) Q -> triple P (bind (arr_get l i) k) Q.
Proof. intros Hi Hx Hk s Hs. unfold bind, arr_get. rewrite (proj2 (Z.ltb_ge _ _) Hi), Hx. by apply Hk. Qed.

Lemma elem_logged c c' bl : c' ∈ logged c bl <-> c' = c \/ c' ∈ bl.
Proof. unfold logged. case_bool_decide; set_solver. Qed.

(** Buffers remain for the blocks the transaction pins and the process holds. *)
Definition room (h : gmap Z nat) (bl : list Z) : Prop := (size h + length bl < NBUF)%nat.

(** The transaction may log [n] more blocks. *)
Definition space (nlog : Z) (n : nat) (h : gmap Z nat) (bl : list Z) : Prop :=
  Z.of_nat (length bl + n) <= nlog - 1 /\ (size h + length bl + n <= NBUF)%nat.

Lemma space_room nlog n h bl : space nlog (S n) h bl -> room h bl.
Proof. unfold space, room. lia. Qed.
Lemma space_le nlog n m h bl : space nlog n h bl -> (m <= n)%nat -> space nlog m h bl.
Proof. unfold space. lia. Qed.
Lemma space_logged nlog n h bl c : space nlog (S n) h bl -> space nlog n h (logged c bl).
Proof. unfold space. pose proof (logged_length c bl). lia. Qed.
Lemma space_hold nlog n h bl c i : space nlog (S n) h bl -> space nlog n (<[c := i]> h) bl.
Proof.
  unfold space. assert (size (<[c := i]> h) <= S (size h))%nat; [| lia].
  destruct (h !! c) eqn:E; [rewrite map_size_insert_Some by done; lia | by rewrite map_size_insert_None].
Qed.

(** The operation runs between [begin_op] and [end_op]. *)
Class intx `{PF : Platform} (s0 : kern) : Prop := { in_tx : 1 <= lg_outstanding (kn_log s0) }.

Section FsRun.
Context (start nlog : Z) `{PF : Platform} `{PA : Patience} `{BD : !BlockDev} `{BO : !BlockDevOk BD} `{LY : !layout start nlog}.
Context (me : nat) (s0 : kern) (sb : superblock).
Abbreviation tx := (tx start nlog).
Abbreviation home := (home start nlog).

Record fs (v : Z -> list Z) (h : gmap Z nat) (bl : list Z) (ino : list inode) (s : kern) : Prop := {
  f_tx : tx me s v h bl;
  f_log : log_same (kn_log s0) (kn_log s);
  f_sb : kn_sb s = sb;
  f_ino : kn_inodes s = ino;
  f_ctx : kctx me (kn_k s0);
  f_k : kframe (kn_k s0) (kn_k s);
  f_io : io_same (kn_io s0) (kn_io s);
  f_dv : forall c, dv s c = dv s0 c }.

Lemma f_bio v h bl ino s : fs v h bl ino s -> bio me s v h (list_to_set bl).
Proof. intros H. apply (f_tx _ _ _ _ _ H). Qed.

Lemma fs_bframe v h bl ino s v' h' s' : fs v h bl ino s -> bio me s' v' h' (list_to_set bl) -> bframe s s' ->
  (forall c, dv s' c = dv s c) -> fs v' h' bl ino s'.
Proof.
  intros [T1 T3 T4 T5 T6 T7 T8 T9] Hb HF Hd. pose proof HF as [F1 F2 F3 F4 F5]. split; rewrite ?F2, ?F3, ?F4; try done.
  - by eapply tx_blog.
  - by eapply kframe_trans; [apply T6 | |].
  - by eapply io_same_trans.
  - intros c. by rewrite Hd.
Qed.

Lemma fs_lframe v h bl ino s v' h' bl' s' : fs v h bl ino s -> tx me s' v' h' bl' -> lframe s s' ->
  log_same (kn_log s) (kn_log s') -> (forall c, dv s' c = dv s c) -> fs v' h' bl' ino s'.
Proof.
  intros [T1 T3 T4 T5 T6 T7 T8 T9] Htx HF Hl Hd. pose proof HF as [F1 F3 F4 F5]. split; rewrite ?F3, ?F4; try done.
  - unfold log_same in *. destruct T3, Hl. split; congruence.
  - by eapply kframe_trans; [apply T6 | |].
  - by eapply io_same_trans.
  - intros c. by rewrite Hd.
Qed.

Lemma fs_ext v v' h bl ino s : (forall b, v' b = v b) -> fs v h bl ino s -> fs v' h bl ino s.
Proof.
  intros Hv [[T0 T1a T1b T1c] T3 T4 T5 T6 T7 T8 T9]. split; try done. split; try done. by eapply bio_ext.
Qed.

Lemma fs_vlen v h bl ino s b : fs v h bl ino s -> 0 <= b < nblocks -> length (v b) = Z.to_nat BSIZE.
Proof. intros H. apply (bio_vlen me s v h (list_to_set bl) b), (f_bio _ _ _ _ _ H). Qed.

Lemma fs_k v h bl ino s k' : fs v h bl ino s -> kctx me k' -> kframe (kn_k s) k' -> fs v h bl ino (set_kn_k k' s).
Proof.
  intros [[B L1 L2 L3] T3 T4 T5 T6 T7 T8 T9] Hk HF. split; try done.
  - split; try done. pose proof (bio_log me s v h (list_to_set bl) (kn_log s) k' B Hk HF) as Hb. by destruct s.
  - by eapply kframe_trans; [apply T6 | |].
Qed.

(** A block the transaction has not logged and the process does not hold is as
    on the disk. *)
Lemma fs_clean v h bl ino s c : fs v h bl ino s -> 0 <= c < nblocks -> h !! c = None -> c ∉ bl -> v c = dv s0 c.
Proof.
  intros H Hc Hh Hn. rewrite <- (f_dv _ _ _ _ _ H). eapply cst_clean; [apply cst_start, (f_tx _ _ _ _ _ H) | done | done | set_solver].
Qed.

(** ** Buffers *)

(** A block that can be released as it is. *)
Definition clean (c : Z) (v : Z -> list Z) (bl : list Z) : Prop := c ∈ bl \/ v c = dv s0 c.

Lemma t_bread v h bl ino c : 0 <= c < nblocks -> h !! c = None -> room h bl ->
  {{ fs v h bl ino }} bread ROOTDEV c {{ i, fun s => clean c v bl /\ fs v (<[c := i]> h) bl ino s }}.
Proof.
  intros Hc Hh Hr s Hs. destruct (bread_run me s v h (list_to_set bl) c (f_bio _ _ _ _ _ Hs) Hc Hh) as (i & s' & E & Hb & HF & Hd).
  - right. eapply Nat.le_lt_trans; [| exact Hr]. rewrite size_union_alt, size_dom. apply Nat.add_le_mono_l.
    etransitivity; [apply subseteq_size, subseteq_difference_l; reflexivity |].
    rewrite size_list_to_set; [done | apply (f_tx _ _ _ _ _ Hs)].
  - exists i, s'. split; [done |]. split; [| by eapply fs_bframe].
    destruct (decide (c ∈ bl)) as [H | H]; [by left | right; by eapply fs_clean].
Qed.

Lemma t_data {A} v h bl ino c i (k : list Z -> M kern A) Q : h !! c = Some i ->
  triple (fs v h bl ino) (k (v c)) Q -> triple (fs v h bl ino) (bind (data i) k) Q.
Proof.
  intros Hh Hk s Hs. unfold data, getb, gets, bind, ret. cbn [obind].
  rewrite (held_data _ _ _ _ _ _ _ (f_bio _ _ _ _ _ Hs) Hh). by apply Hk.
Qed.

Lemma t_upd_data v h bl ino c i f : h !! c = Some i -> length (f (v c)) = Z.to_nat BSIZE ->
  {{ fs v h bl ino }} upd_data i f {{ _, fs (set_at c (f (v c)) v) h bl ino }}.
Proof.
  intros Hh Hl s Hs. pose proof (f_bio _ _ _ _ _ Hs) as Hb.
  destruct (set_data_run me s v h _ c i (f (v c)) Hb Hh Hl) as (s' & E & Hb' & HF & Hd).
  exists tt, s'. split; [| by eapply fs_bframe]. rewrite <- E. unfold upd_data, upd_buf, modify.
  by rewrite (held_data _ _ _ _ _ _ _ Hb Hh).
Qed.

(** A block is released when it is logged or unchanged. *)
Lemma t_brelse v h bl ino c i : h !! c = Some i -> clean c v bl ->
  {{ fs v h bl ino }} brelse i {{ _, fs v (delete c h) bl ino }}.
Proof.
  intros Hh Hc s Hs.
  destruct (brelse_run me s v h _ c i (f_bio _ _ _ _ _ Hs) Hh) as (s' & E & Hb & HF & Hd).
  { destruct Hc as [Hc | Hc]; [left; set_solver | right]. by rewrite Hc, (f_dv _ _ _ _ _ Hs). }
  exists tt, s'. split; [done |]. by eapply fs_bframe.
Qed.

(** ** Copies *)

(** The source [src] of a copy holds the bytes [bs]. *)
Definition supplies (src : esrc) (bs : list Z) : Prop :=
  esrc_off src 0 = src /\
  forall k o m, kctx me k -> kframe (kn_k s0) k -> 0 <= o -> 0 <= m -> o + m <= Z.of_nat (length bs) ->
  exists k', either_copyin (esrc_off src o) m k = Ok (0, take (Z.to_nat m) (drop (Z.to_nat o) bs)) k' /\ kctx me k' /\ kframe k k'.

Lemma supplies_kernel bs : supplies (KSrc bs) bs.
Proof.
  split; [done |]. intros k o m Hk _ _ _ _. exists (cyc k). split; [| split; [by apply kctx_cyc | apply kframe_cyc]].
  unfold either_copyin, esrc_off. by rewrite (bind_ok _ _ _ _ _ (myproc_ctx me _ Hk)).
Qed.

Lemma esrc_off_off src a b : 0 <= a -> 0 <= b -> esrc_off (esrc_off src a) b = esrc_off src (a + b).
Proof.
  intros Ha Hb. destruct src as [va | bs]; cbn [esrc_off]; f_equal.
  - unfold u64. rewrite Zplus_mod_idemp_l. f_equal. lia.
  - rewrite drop_drop. f_equal. lia.
Qed.

Lemma supplies_off src bs a : supplies src bs -> 0 <= a <= Z.of_nat (length bs) -> supplies (esrc_off src a) (drop (Z.to_nat a) bs).
Proof.
  intros [H0 Hc] Ha. split; [rewrite esrc_off_off, Z.add_0_r by lia; done |]. intros k o m Hk HF Ho Hm Hl. rewrite length_drop in Hl.
  rewrite esrc_off_off by (done || lia). destruct (Hc k (a + o) m) as (k' & E & ? & ?); try done; try lia.
  exists k'. split; [| done]. by rewrite E, drop_drop, Z2Nat.inj_add by lia.
Qed.

Lemma t_copyin v h bl ino src bs n : supplies src bs -> 0 <= n <= Z.of_nat (length bs) ->
  {{ fs v h bl ino }} lk_ (either_copyin src n) {{ r, fun s => r = (0, take (Z.to_nat n) bs) /\ fs v h bl ino s }}.
Proof.
  intros [H0 Hc] Hn s Hs. pose proof (bo_ctx _ _ _ _ _ (f_bio _ _ _ _ _ Hs)) as Hk.
  destruct (Hc (kn_k s) 0 n) as (k' & E & Hk' & HF); [done | apply Hs | lia | lia | lia |]. rewrite H0, drop_0 in E.
  eexists _, _. split; [by apply lk_ok |]. split; [done |]. by apply fs_k.
Qed.

Lemma t_copyout v h bl ino dst bs n :
  {{ fs v h bl ino }} lk_ (either_copyout false dst bs n) {{ r, fun s => r = (0, take (Z.to_nat n) bs) /\ fs v h bl ino s }}.
Proof.
  intros s Hs. pose proof (bo_ctx _ _ _ _ _ (f_bio _ _ _ _ _ Hs)) as Hk. eexists _, _. split.
  - apply lk_ok. unfold either_copyout. by rewrite (bind_ok _ _ _ _ _ (myproc_ctx me _ Hk)).
  - split; [done |]. apply fs_k; [done | by apply kctx_cyc | apply kframe_cyc].
Qed.

(** ** Inodes in memory *)

Lemma t_geti {A} v h bl ino ip x (k : inode -> M kern A) Q : ino !! ip = Some x ->
  triple (fs v h bl ino) (k x) Q -> triple (fs v h bl ino) (bind (geti ip) k) Q.
Proof.
  intros Hx. apply t_gets. intros s Hs. unfold inode_at. by rewrite (f_ino _ _ _ _ _ Hs), Hx.
Qed.

Lemma t_upd_inode v h bl ino ip x f : ino !! ip = Some x ->
  {{ fs v h bl ino }} upd_inode ip f {{ _, fs v h bl (<[ip := f x]> ino) }}.
Proof.
  intros Hx s Hs. eexists tt, _. split; [reflexivity |].
  assert (E : inode_at s ip = x) by (unfold inode_at; by rewrite (f_ino _ _ _ _ _ Hs), Hx).
  destruct Hs as [[[B1 B2 B3 B4] L1 L2 L3] T3 T4 T5 T6 T7 T8 T9]. rewrite E, T5. split; try done.
  split; try done. split; try done. by eapply disk_ok_same.
Qed.

Lemma t_getsb {A} v h bl ino (k : superblock -> M kern A) Q :
  triple (fs v h bl ino) (k sb) Q -> triple (fs v h bl ino) (bind getsb k) Q.
Proof. apply t_gets. intros s Hs. apply Hs. Qed.

(** ** Changes *)

Context `{OUT : !intx s0}.

Lemma t_log_write v h bl ino c i : h !! c = Some i -> home c -> space nlog 1 h bl ->
  {{ fs v h bl ino }} log_write i {{ _, fs v h (logged c bl) ino }}.
Proof.
  intros Hh Hc [Hn Hr] s Hs. assert (Hl : Z.of_nat (length bl) < LOGSIZE) by (unfold LOGSIZE, MAXOPBLOCKS, NBUF in *; lia).
  destruct (log_write_run start nlog me s v h bl c i (f_tx _ _ _ _ _ Hs) Hh Hc ltac:(rewrite (proj1 (f_log _ _ _ _ _ Hs)); exact in_tx) Hl ltac:(lia)) as (s' & E & Htx & HF & Hd & Hlg).
  exists tt, s'. split; [done |]. by eapply fs_lframe.
Qed.

(** Read, change, log and release a block. *)
Lemma t_modify v h bl ino c f : home c -> h !! c = None -> space nlog 2 h bl ->
  length (f (v c)) = Z.to_nat BSIZE ->
  {{ fs v h bl ino }} (let* bp := bread ROOTDEV c in upd_data bp f ;;; log_write bp ;;; brelse bp)
  {{ _, fs (set_at c (f (v c)) v) h (logged c bl) ino }}.
Proof.
  intros Hc Hh Hr Hl.
  eapply t_bind; [by apply t_bread; [apply Hc | | by eapply space_room] |]. intros i. apply t_pure. intros _. cbv beta.
  eapply t_bind; [by eapply t_upd_data; [apply lookup_insert_eq |] |]. intros [].
  eapply t_bind; [eapply t_log_write; [apply lookup_insert_eq | done | by apply space_hold] |]. intros [].
  eapply t_conseq; [eapply t_brelse; [apply lookup_insert_eq |] | done |].
  - left. by apply elem_logged; left.
  - intros [] s. by rewrite delete_insert_id.
Qed.

End FsRun.
