(* ===== verification/FsBlocks.v ===== *)
(** * Block allocation

    [balloc] and [bfree] of kernel/fs.c against the set of free blocks that the
    bitmap describes. *)

From S2P Require Import Prelude Riscv Mem Bytes StringLib Spinlock Kalloc Vm Proc ProcSpec Kctx State Sleeplock Bio BioList BioSpec BioRun RamDisk Log LogSpec BioProps LogProps LogTx Uart Printf Console Fs FsRun.

Lemma filter_ext_in {A} (P Q : A -> Prop) `{!forall x, Decision (P x), !forall x, Decision (Q x)} (l : list A) :
  (forall x, x ∈ l -> (P x <-> Q x)) -> filter P l = filter Q l.
Proof.
  intros HPQ. induction l as [| x l IH]; [done |]. rewrite !filter_cons.
  assert (P x <-> Q x) by (apply HPQ; set_solver). rewrite IH by set_solver. repeat case_decide; tauto.
Qed.

Lemma filter_all {A} (P : A -> Prop) `{!forall x, Decision (P x)} (l : list A) : Forall P l -> filter P l = l.
Proof. induction 1; [done |]. rewrite filter_cons_True by done. congruence. Qed.

(** ** Bits *)

Lemma land_bit x k : 0 <= k -> (Z.land x (Z.shiftl 1 k) =? 0) = negb (Z.testbit x k).
Proof.
  intros Hk. rewrite Z.shiftl_1_l. destruct (Z.testbit x k) eqn:E; cbn [negb].
  - apply Z.eqb_neq. intros H. assert (Z.testbit (Z.land x (2 ^ k)) k = true) as H2.
    { by rewrite Z.land_spec, E, Z.pow2_bits_true. }
    by rewrite H, Z.bits_0 in H2.
  - apply Z.eqb_eq, Z.bits_inj'. intros n Hn. rewrite Z.land_spec, Z.bits_0, Z.pow2_bits_eqb by done.
    destruct (Z.eqb_spec k n) as [<- |]; [by rewrite E | by rewrite andb_false_r].
Qed.

Lemma lor_bit x k j : 0 <= k -> 0 <= j -> Z.testbit (Z.lor x (Z.shiftl 1 k)) j = (Z.testbit x j || (j =? k)).
Proof. intros Hk Hj. rewrite Z.lor_spec, Z.shiftl_1_l, Z.pow2_bits_eqb by done. by rewrite (Z.eqb_sym k). Qed.

Lemma clear_bit x k j : 0 <= k < 8 -> 0 <= j < 8 ->
  Z.testbit (Z.land x (u8 (Z.lnot (Z.shiftl 1 k)))) j = Z.testbit x j && negb (j =? k).
Proof.
  intros Hk Hj. unfold u8. rewrite Z.land_spec, Z.shiftl_1_l, Z.mod_pow2_bits_low, Z.lnot_spec, Z.pow2_bits_eqb by lia.
  by rewrite (Z.eqb_sym k).
Qed.

(** Bit [b] of a bitmap. *)
Definition bit_of (d : list Z) (b : Z) : bool := Z.testbit (default 0 (d !! Z.to_nat (b / 8))) (b mod 8).
Definition bit_set (d : list Z) (b : Z) : list Z :=
  <[Z.to_nat (b / 8) := Z.lor (default 0 (d !! Z.to_nat (b / 8))) (Z.shiftl 1 (b mod 8))]> d.
Definition bit_clear (d : list Z) (b : Z) : list Z :=
  <[Z.to_nat (b / 8) := Z.land (default 0 (d !! Z.to_nat (b / 8))) (u8 (Z.lnot (Z.shiftl 1 (b mod 8))))]> d.

Lemma div8_inj a b : a / 8 = b / 8 -> a mod 8 = b mod 8 -> a = b.
Proof. intros. rewrite (Z.div_mod a 8), (Z.div_mod b 8) by lia. congruence. Qed.

Lemma bit_of_insert d x a b : 0 <= a < 8 * Z.of_nat (length d) -> 0 <= b ->
  bit_of (<[Z.to_nat (a / 8) := x]> d) b = if b / 8 =? a / 8 then Z.testbit x (b mod 8) else bit_of d b.
Proof.
  intros Ha Hb. unfold bit_of. pose proof (Z.div_pos a 8 ltac:(lia) ltac:(lia)). pose proof (Z.div_pos b 8 ltac:(lia) ltac:(lia)).
  destruct (Z.eqb_spec (b / 8) (a / 8)) as [E | E].
  - rewrite E, list_lookup_insert_eq; [done |]. pose proof (Z.div_lt_upper_bound a 8 (Z.of_nat (length d))). lia.
  - rewrite list_lookup_insert_ne by lia. done.
Qed.

Lemma bit_of_set d a b : 0 <= a < 8 * Z.of_nat (length d) -> 0 <= b -> bit_of (bit_set d a) b = bit_of d b || (b =? a).
Proof.
  intros Ha Hb. unfold bit_set. rewrite bit_of_insert by done. pose proof (Z.mod_pos_bound a 8). pose proof (Z.mod_pos_bound b 8).
  destruct (Z.eqb_spec (b / 8) (a / 8)) as [E | E].
  - rewrite lor_bit by lia. unfold bit_of. rewrite E. f_equal. destruct (Z.eqb_spec (b mod 8) (a mod 8)), (Z.eqb_spec b a); subst; try done.
    by pose proof (div8_inj b a E ltac:(done)).
  - destruct (Z.eqb_spec b a); [by subst | by rewrite orb_false_r].
Qed.

Lemma bit_of_clear d a b : 0 <= a < 8 * Z.of_nat (length d) -> 0 <= b ->
  bit_of (bit_clear d a) b = bit_of d b && negb (b =? a).
Proof.
  intros Ha Hb. unfold bit_clear. rewrite bit_of_insert by done. pose proof (Z.mod_pos_bound a 8). pose proof (Z.mod_pos_bound b 8).
  destruct (Z.eqb_spec (b / 8) (a / 8)) as [E | E].
  - rewrite clear_bit by lia. unfold bit_of. rewrite E. do 2 f_equal. destruct (Z.eqb_spec (b mod 8) (a mod 8)), (Z.eqb_spec b a); subst; try done.
    by pose proof (div8_inj b a E ltac:(done)).
  - destruct (Z.eqb_spec b a); [by subst | by rewrite andb_true_r].
Qed.

(** ** The layout of the disk (mkfs/mkfs.c): log, inodes, bitmap, data *)

Section Blocks.
Context (start nlog : Z) `{PF : Platform} `{PA : Patience} `{BD : !BlockDev} `{BO : !BlockDevOk BD} `{LY : !layout start nlog}.

Abbreviation bsize := (Z.to_nat BSIZE).

(** One bitmap block describes the whole disk, as with FSSIZE blocks. *)
Class fslayout (sb : superblock) : Prop := {
  fl_log : start + nlog <= sb_inodestart sb;
  fl_ninodes : 0 <= sb_ninodes sb;
  fl_inodes : sb_inodestart sb + sb_ninodes sb / IPB < sb_bmapstart sb;
  fl_data : sb_bmapstart sb < sb_size sb;
  fl_size : sb_size sb <= nblocks;
  fl_bitmap : sb_size sb <= BPB }.

Context (me : nat) (s0 : kern) (sb : superblock) `{FL : !fslayout sb}.
Abbreviation home := (home start nlog).
Abbreviation fs := (fs start nlog me s0 sb).
Abbreviation t_brelse := (t_brelse start nlog).
Abbreviation t_upd_data := (t_upd_data start nlog).
Abbreviation t_bread := (t_bread start nlog).

Definition is_data (b : Z) : Prop := sb_bmapstart sb < b < sb_size sb.

Lemma home_above b : start + nlog <= b -> b < sb_size sb -> home b.
Proof. intros. pose proof fl_size. pose proof (ly_start start nlog). pose proof (ly_size start nlog). split; lia. Qed.

Lemma inodes_below : start + nlog <= sb_bmapstart sb.
Proof. pose proof fl_log. pose proof fl_inodes. pose proof (Z.div_pos _ IPB fl_ninodes ltac:(done)). lia. Qed.

Lemma home_bmap : home (sb_bmapstart sb).
Proof. apply home_above; [apply inodes_below | apply fl_data]. Qed.

Lemma home_data b : is_data b -> home b.
Proof. intros [H1 H2]. apply home_above; [pose proof inodes_below; lia | done]. Qed.

Lemma u32_block b : 0 <= b < nblocks -> u32 b = b.
Proof. intros. pose proof (ly_nb start nlog). unfold u32. apply Z.mod_small. lia. Qed.

Lemma home_range b : home b -> 0 <= b < nblocks.
Proof. by intros []. Qed.

Lemma u32_data b : is_data b -> u32 b = b.
Proof. intros H. by apply u32_block, home_range, home_data. Qed.

Lemma BBLOCK_one b : 0 <= b < sb_size sb -> BBLOCK b sb = sb_bmapstart sb.
Proof.
  intros Hb. unfold BBLOCK. pose proof fl_bitmap. rewrite Z.div_small by lia. apply u32_block, home_range, home_bmap.
Qed.

(** ** Free blocks *)

Definition used (v : Z -> list Z) (b : Z) : bool := bit_of (v (sb_bmapstart sb)) b.
Definition frees (v : Z -> list Z) : list Z := filter (fun b => used v b = false) (seqZ 0 (sb_size sb)).

(** Metadata blocks are marked in use. *)
Definition meta_used (v : Z -> list Z) : Prop := forall b, 0 <= b <= sb_bmapstart sb -> used v b = true.

(** The effect of allocating and of freeing a block. *)
Definition alloc (a : Z) (v : Z -> list Z) : Z -> list Z :=
  set_at a (replicate (Z.to_nat BSIZE) 0) (set_at (sb_bmapstart sb) (bit_set (v (sb_bmapstart sb)) a) v).
Definition dealloc (a : Z) (v : Z -> list Z) : Z -> list Z :=
  set_at (sb_bmapstart sb) (bit_clear (v (sb_bmapstart sb)) a) v.

Lemma elem_frees v b : b ∈ frees v <-> used v b = false /\ 0 <= b < sb_size sb.
Proof. unfold frees. rewrite list_elem_of_filter, elem_of_seqZ. naive_solver lia. Qed.

Lemma frees_data v b : meta_used v -> b ∈ frees v -> is_data b.
Proof.
  intros Hm [Hu Hb]%elem_frees. destruct (decide (b <= sb_bmapstart sb)) as [H | H]; [by rewrite Hm in Hu by lia | split; lia].
Qed.

Lemma set_at_eq b y v : set_at b y v b = y.
Proof. unfold set_at. by rewrite Z.eqb_refl. Qed.
Lemma set_at_ne b y v c : c <> b -> set_at b y v c = v c.
Proof. intros. unfold set_at. by rewrite (proj2 (Z.eqb_neq _ _)). Qed.

Lemma bit_in_bitmap (v : Z -> list Z) b : length (v (sb_bmapstart sb)) = Z.to_nat BSIZE -> 0 <= b < sb_size sb ->
  0 <= b < 8 * Z.of_nat (length (v (sb_bmapstart sb))).
Proof. intros -> Hb. pose proof fl_bitmap. unfold BPB in *. rewrite Z2Nat.id by done. lia. Qed.

Lemma used_alloc v a b : length (v (sb_bmapstart sb)) = Z.to_nat BSIZE -> is_data a -> 0 <= b ->
  used (alloc a v) b = used v b || (b =? a).
Proof.
  intros Hl Ha Hb. unfold used, alloc. pose proof inodes_below. pose proof (ly_start start nlog). pose proof (ly_size start nlog).
  destruct Ha. rewrite set_at_ne, set_at_eq by lia. apply bit_of_set; [| done]. apply bit_in_bitmap; [done | lia].
Qed.

Lemma used_dealloc v a b : length (v (sb_bmapstart sb)) = Z.to_nat BSIZE -> is_data a -> 0 <= b ->
  used (dealloc a v) b = used v b && negb (b =? a).
Proof.
  intros Hl Ha Hb. unfold used, dealloc. pose proof inodes_below. pose proof (ly_start start nlog). pose proof (ly_size start nlog).
  destruct Ha. rewrite set_at_eq. apply bit_of_clear; [| done]. apply bit_in_bitmap; [done | lia].
Qed.

(** The blocks that are free after allocation. *)
Lemma frees_alloc v a l : length (v (sb_bmapstart sb)) = bsize -> meta_used v -> frees v = a :: l -> frees (alloc a v) = l.
Proof.
  intros Hl Hm Hf. assert (Ha : is_data a) by (eapply frees_data; [done | rewrite Hf; set_solver]).
  assert (Hnd : NoDup (frees v)) by (apply NoDup_filter, NoDup_seqZ).
  transitivity (filter (fun b => b <> a) (frees v)).
  - unfold frees. rewrite list_filter_filter. apply filter_ext_in. intros b Hb%elem_of_seqZ.
    rewrite used_alloc by (done || lia). destruct (Z.eqb_spec b a); rewrite ?orb_true_r, ?orb_false_r; naive_solver.
  - rewrite Hf in *. apply NoDup_cons in Hnd as [Hnd _]. rewrite filter_cons_False by naive_solver.
    apply filter_all, Forall_forall. by intros b Hb ->.
Qed.

(** ** bzero, balloc, bfree *)

Context `{OUT : !intx s0}.
Abbreviation t_log_write := (t_log_write start nlog me s0 sb).
Abbreviation t_modify := (t_modify start nlog me s0 sb).

Lemma t_bzero v h bl ino b : is_data b -> h !! b = None -> space nlog 2 h bl ->
  {{ fs v h bl ino }} bzero ROOTDEV b {{ _, fs (set_at b (replicate bsize 0) v) h (logged b bl) ino }}.
Proof.
  intros Hb Hh Hr. unfold bzero. rewrite (u32_data b Hb). apply t_modify; [by apply home_data | done | done |].
  apply length_replicate.
Qed.

Lemma byte_lookup d b : length d = bsize -> 0 <= b < sb_size sb ->
  0 <= b / 8 /\ d !! Z.to_nat (b / 8) = Some (default 0 (d !! Z.to_nat (b / 8))).
Proof.
  intros Hd Hb. pose proof fl_bitmap. unfold BPB in *. split; [apply Z.div_pos; lia |].
  destruct (lookup_lt_is_Some_2 d (Z.to_nat (b / 8))) as [x Hx]; [| by rewrite Hx].
  rewrite Hd. pose proof (Z.div_lt_upper_bound b 8 BSIZE). lia.
Qed.

(** The scan from [bi] on finds the free block [a]. *)
Lemma t_balloc_scan v h bl ino i a n : h !! sb_bmapstart sb = None -> h !! a = None -> space nlog 3 h bl ->
  is_data a -> used v a = false ->
  forall bi, 0 <= bi <= a -> a - bi < Z.of_nat n -> (forall b, bi <= b < a -> used v b = true) ->
  {{ fs v (<[sb_bmapstart sb := i]> h) bl ino }} balloc_scan n ROOTDEV i 0 bi
  {{ r, fun s => r = Some a /\ fs (alloc a v) h (logged a (logged (sb_bmapstart sb) bl)) ino s }}.
Proof.
  intros Hb Hha Hr Ha Hfree. induction n as [| n IH]; intros bi Hbi Hlt Hall; [lia |]. cbn [balloc_scan].
  pose proof fl_bitmap as Hsz. pose proof fl_size. apply t_getsb. destruct Ha as [Ha1 Ha2].
  rewrite (proj2 (Z.ltb_lt bi BPB)), (proj2 (Z.ltb_lt (0 + bi) _)) by lia. cbn [andb].
  eapply t_pre; [intros s Hs; eapply (fs_vlen _ _ _ _ _ _ _ _ _ _ _ Hs), home_range, home_bmap |]. intros Hlen.
  eapply t_data; [apply lookup_insert_eq |]. destruct (byte_lookup _ bi Hlen ltac:(lia)) as [Hp Hx].
  eapply t_arr_get; [done | exact Hx |]. rewrite land_bit by (apply Z.mod_pos_bound; lia).
  change (Z.testbit _ _) with (used v bi). destruct (decide (bi = a)) as [-> | Hne].
  - rewrite Hfree. cbn [negb]. replace (0 + a) with a by lia.
    eapply t_bind; [eapply t_upd_data; [apply lookup_insert_eq | by rewrite length_insert] |]. intros [].
    eapply t_bind; [eapply t_log_write; [apply lookup_insert_eq | apply home_bmap |] |].
    { apply space_hold. eapply space_le; [done | lia]. }
    intros []. eapply t_bind; [eapply t_brelse; [apply lookup_insert_eq | left; apply elem_logged; by left] |]. intros [].
    rewrite (delete_insert_id _ _ _ Hb).
    eapply t_bind; [apply t_bzero; [done | done | by apply space_logged] |].
    intros []. apply t_ret. intros s Hs. split; [done | exact Hs].
  - rewrite (Hall bi) by lia. cbn [negb]. apply IH; [lia | lia |]. intros b ?. apply Hall. lia.
Qed.

Lemma filter_seqZ_first (P : Z -> Prop) `{forall b, Decision (P b)} n : forall m a l, filter P (seqZ m (Z.of_nat n)) = a :: l ->
  forall b, m <= b < a -> ~ P b.
Proof.
  induction n as [| n IH]; intros m a l E b Hb; [done |]. rewrite seqZ_cons, filter_cons in E by lia. case_decide as HP.
  - injection E as -> _. lia.
  - replace (Z.pred (Z.of_nat (S n))) with (Z.of_nat n) in E by lia. destruct (decide (b = m)) as [-> | ?]; [done |].
    apply (IH _ _ _ E). lia.
Qed.

Lemma frees_first v a l : frees v = a :: l -> used v a = false /\ forall b, 0 <= b < a -> used v b = true.
Proof.
  intros E. assert (Ha : a ∈ frees v) by (rewrite E; set_solver). apply elem_frees in Ha as [Hu Ha].
  split; [done |]. intros b Hb. unfold frees in E. rewrite <- (Z2Nat.id (sb_size sb)) in E by lia.
  apply not_false_iff_true, (filter_seqZ_first _ _ _ _ _ E b Hb).
Qed.

(** [balloc] returns the first free block. *)
Lemma t_balloc v h bl ino a l : meta_used v -> frees v = a :: l -> h !! sb_bmapstart sb = None -> h !! a = None ->
  space nlog 3 h bl ->
  {{ fs v h bl ino }} balloc ROOTDEV
  {{ r, fun s => r = a /\ fs (alloc a v) h (logged a (logged (sb_bmapstart sb) bl)) ino s }}.
Proof.
  intros Hm Hf Hb Ha Hr. destruct (frees_first _ _ _ Hf) as [Hu Hall].
  assert (Hd : is_data a) by (eapply frees_data; [done | rewrite Hf; set_solver]).
  pose proof inodes_below. pose proof (ly_start start nlog). pose proof (ly_size start nlog).
  unfold balloc. apply t_getsb. cbn [balloc_loop]. apply t_getsb. destruct Hd as [Hd1 Hd2]. pose proof fl_bitmap.
  rewrite (proj2 (Z.ltb_lt _ _)), BBLOCK_one by lia.
  eapply t_bind; [apply t_bread; [apply home_range, home_bmap | done | by eapply space_room] |]. intros i. apply t_pure. intros _.
  eapply t_bind; [apply (t_balloc_scan v h bl ino i a); try done; lia |].
  intros r. apply t_pure. intros ->. apply t_ret. auto.
Qed.

(** [bfree] clears the bit of a block in use. *)
Lemma t_bfree v h bl ino b : is_data b -> used v b = true -> h !! sb_bmapstart sb = None -> space nlog 2 h bl ->
  {{ fs v h bl ino }} bfree ROOTDEV b {{ _, fs (dealloc b v) h (logged (sb_bmapstart sb) bl) ino }}.
Proof.
  intros [Hb1 Hb2] Hu Hh Hr. unfold bfree. apply t_getsb.
  pose proof inodes_below. pose proof (ly_start start nlog). pose proof (ly_size start nlog). pose proof fl_bitmap.
  rewrite BBLOCK_one by lia. rewrite (Z.mod_small b BPB) by lia.
  eapply t_pre; [intros s Hs; eapply (fs_vlen _ _ _ _ _ _ _ _ _ _ _ Hs), home_range, home_bmap |]. intros Hlen.
  eapply t_bind; [apply t_bread; [apply home_range, home_bmap | done | by eapply space_room] |]. intros i. apply t_pure. intros _.
  eapply t_data; [apply lookup_insert_eq |]. destruct (byte_lookup _ b Hlen ltac:(lia)) as [Hp Hx].
  eapply t_arr_get; [done | exact Hx |]. rewrite land_bit by (apply Z.mod_pos_bound; lia).
  change (Z.testbit _ _) with (used v b). rewrite Hu. cbn [negb].
  eapply t_bind; [eapply t_upd_data; [apply lookup_insert_eq | by rewrite length_insert] |]. intros [].
  eapply t_bind; [eapply t_log_write; [apply lookup_insert_eq | apply home_bmap | by apply space_hold] |]. intros [].
  eapply t_conseq; [eapply t_brelse; [apply lookup_insert_eq | left; apply elem_logged; by left] | done |].
  intros [] s. by rewrite delete_insert_id.
Qed.

End Blocks.
