(* ===== verification/FsFile.v ===== *)
(** * Files as arrays of bytes

    [bmap], [readi], [writei] and [itrunc] of kernel/fs.c against the contents of a
    file: the function from offsets to bytes that its direct and indirect blocks
    represent. *)

From S2P Require Import Prelude Riscv Mem Bytes StringLib Spinlock Kalloc Vm Proc ProcSpec Kctx State Sleeplock Bio BioList BioSpec BioRun RamDisk Log LogSpec BioProps LogProps LogTx Uart Printf Console Fs FsRun FsBlocks.

(** Arithmetic with the constants of kernel/fs.h. *)
Ltac fslia := change NINDIRECT with 256 in *; change MAXFILE with 268 in *; unfold NDIRECT, BSIZE in *; lia.

Section File.
Context (start nlog : Z) `{PF : Platform} `{PA : Patience} `{BD : !BlockDev} `{BO : !BlockDevOk BD} `{LY : !layout start nlog}.
Context (me : nat) (s0 : kern) (sb : superblock) `{FL : !fslayout start nlog sb}.
Abbreviation home := (home start nlog).
Abbreviation fs := (fs start nlog me s0 sb).
Abbreviation bm := (sb_bmapstart sb).
Abbreviation bsize := (Z.to_nat BSIZE).
Abbreviation is_data := (is_data sb).
Abbreviation used := (used sb).
Abbreviation frees := (frees sb).
Abbreviation meta_used := (meta_used sb).
Abbreviation alloc := (alloc sb).
Abbreviation dealloc := (dealloc sb).

(** ** The blocks of a file *)

Definition addr (x : inode) (i : Z) : Z := default 0 (i_addrs x !! Z.to_nat i).
Definition set_addr (i a : Z) (x : inode) : inode := set_i_addrs (<[Z.to_nat i := a]> (i_addrs x)) x.

(** The disk block of block [bn] of the file, 0 if it has none. *)
Definition fblk (v : Z -> list Z) (x : inode) (bn : Z) : Z :=
  if bn <? NDIRECT then addr x bn
  else if addr x NDIRECT =? 0 then 0
  else get_u32 (4 * (bn - NDIRECT)) (v (addr x NDIRECT)).

(** The byte at offset [o]; a missing block reads as zeros. *)
Definition fbyte (v : Z -> list Z) (x : inode) (o : Z) : Z :=
  let a := fblk v x (o / BSIZE) in
  if a =? 0 then 0 else default 0 (v a !! Z.to_nat (o mod BSIZE)).

Definition in_file (bn : Z) : Prop := 0 <= bn < MAXFILE.

(** A well-formed inode: its blocks are data blocks in use, all distinct. *)
Record iwf (v : Z -> list Z) (x : inode) : Prop := {
  iw_dev : i_dev x = ROOTDEV;
  iw_len : length (i_addrs x) = Z.to_nat (NDIRECT + 1);
  iw_blk : forall bn, in_file bn -> fblk v x bn <> 0 -> is_data (fblk v x bn) /\ used v (fblk v x bn) = true;
  iw_ind : addr x NDIRECT <> 0 -> is_data (addr x NDIRECT) /\ used v (addr x NDIRECT) = true;
  iw_inj : forall i j, in_file i -> in_file j -> i <> j -> fblk v x i <> 0 -> fblk v x i <> fblk v x j;
  iw_ind_ne : forall i, in_file i -> fblk v x i <> 0 -> fblk v x i <> addr x NDIRECT }.

(** The state of the disk outside the file that allocation relies on. *)
Record dwf (v : Z -> list Z) : Prop := {
  dw_len : forall b, 0 <= b < nblocks -> length (v b) = bsize;
  dw_meta : meta_used v }.

(** [x'] on [v'] is the file [x] on [v] after some blocks have been allocated to it
    and its blocks have been written. *)
Record fgrow (v : Z -> list Z) (x : inode) (v' : Z -> list Z) (x' : inode) : Prop := {
  fg_dwf : dwf v';
  fg_iwf : iwf v' x';
  fg_ino : x' = set_i_addrs (i_addrs x') x;
  fg_blk : forall bn, in_file bn -> fblk v x bn <> 0 -> fblk v' x' bn = fblk v x bn;
  fg_used : forall b, 0 <= b -> used v b = true -> used v' b = true;
  fg_ind : addr x' NDIRECT = addr x NDIRECT \/ addr x NDIRECT = 0 /\ used v (addr x' NDIRECT) = false;
  fg_new : forall bn, in_file bn -> fblk v x bn = 0 -> fblk v' x' bn = 0 \/ used v (fblk v' x' bn) = false;
  fg_frame : forall c, 0 <= c < sb_size sb -> used v c = true -> c <> bm -> c <> addr x NDIRECT ->
    (forall bn, in_file bn -> fblk v x bn <> c) -> v' c = v c }.

Lemma data_pos b : is_data b -> 0 < b /\ b <> bm /\ 0 <= b < sb_size sb.
Proof.
  pose proof (inodes_below start nlog sb). pose proof (ly_start start nlog). pose proof (ly_size start nlog). intros []. lia.
Qed.

Lemma alloc_at v a c : alloc a v c = if c =? a then replicate bsize 0 else if c =? bm then bit_set (v bm) a else v c.
Proof. done. Qed.

Lemma alloc_other v a c : c <> a -> c <> bm -> alloc a v c = v c.
Proof. intros H1 H2. by rewrite alloc_at, (proj2 (Z.eqb_neq _ _) H1), (proj2 (Z.eqb_neq _ _) H2). Qed.

Lemma alloc_new v a : alloc a v a = replicate bsize 0.
Proof. by rewrite alloc_at, Z.eqb_refl. Qed.

Lemma dwf_alloc v a : dwf v -> is_data a -> dwf (alloc a v).
Proof.
  intros [H1 H2] Ha. assert (Hb : 0 <= bm < nblocks) by exact (home_range start nlog _ (home_bmap start nlog sb)). split.
  - intros b Hb'. rewrite alloc_at. repeat case_match; [apply length_replicate | unfold bit_set; rewrite length_insert | ]; auto.
  - intros b Hb'. rewrite (used_alloc start nlog) by (done || lia || auto). by rewrite H2.
Qed.

Lemma get_put_32 d i j a : 0 <= i -> 0 <= j -> 4 * i + 4 <= Z.of_nat (length d) -> 0 <= a < 2^32 ->
  get_u32 (4 * j) (put_32 (4 * i) a d) = if j =? i then a else get_u32 (4 * j) d.
Proof.
  intros Hi Hj Hl Ha. unfold get_u32, put_32. destruct (Z.eqb_spec j i) as [-> | Hne].
  - rewrite getle_putle_eq by lia. by apply Z.mod_small.
  - apply getle_putle_ne; lia.
Qed.

Lemma addr_set x i j a : length (i_addrs x) = Z.to_nat (NDIRECT + 1) -> 0 <= i <= NDIRECT -> 0 <= j ->
  addr (set_addr i a x) j = if j =? i then a else addr x j.
Proof.
  intros Hl Hi Hj. unfold addr, set_addr. cbn [i_addrs set_i_addrs]. destruct (Z.eqb_spec j i) as [-> | Hne].
  - rewrite list_lookup_insert_eq; [done |]. rewrite Hl. lia.
  - by rewrite list_lookup_insert_ne by lia.
Qed.

Lemma lookup_addr x i : length (i_addrs x) = Z.to_nat (NDIRECT + 1) -> 0 <= i <= NDIRECT ->
  i_addrs x !! Z.to_nat i = Some (addr x i).
Proof. intros Hl Hi. unfold addr. destruct (lookup_lt_is_Some_2 (i_addrs x) (Z.to_nat i)) as [y ->]; [rewrite Hl; lia | done]. Qed.

(** ** Allocation of blocks to a file *)

(** A data block [a] is added as block [bn]. *)
Lemma iwf_data v x v' x' a bn : iwf v x -> in_file bn -> fblk v x bn = 0 -> is_data a -> used v a = false ->
  (forall b, 0 <= b -> used v' b = used v b || (b =? a)) ->
  i_dev x' = i_dev x -> length (i_addrs x') = length (i_addrs x) -> addr x' NDIRECT = addr x NDIRECT ->
  (forall i, in_file i -> fblk v' x' i = if i =? bn then a else fblk v x i) -> iwf v' x'.
Proof.
  intros [I1 I2 I3 I4 I5 I6] Hbn H0 Ha Hua Hu Hdev Hlen Hind Hblk. pose proof (data_pos a Ha) as [Hp _].
  assert (Hne : forall i, in_file i -> fblk v x i <> 0 -> fblk v x i <> a) by (intros i Hi Hn <-; destruct (I3 i Hi Hn); congruence).
  assert (Hup : forall b, is_data b -> used v b = true -> used v' b = true).
  { intros b Hb Hub. destruct (data_pos b Hb). by rewrite Hu, Hub by lia. }
  split; [congruence | congruence | | | |].
  - intros i Hi. rewrite Hblk by done. destruct (i =? bn); [by rewrite Hu, Z.eqb_refl, orb_true_r by lia |].
    intros Hn. destruct (I3 i Hi Hn). auto.
  - rewrite Hind. intros Hn. destruct (I4 Hn). auto.
  - intros i j Hi Hj Hij. rewrite !Hblk by done. destruct (Z.eqb_spec i bn), (Z.eqb_spec j bn); subst; [done | | |]; auto.
    intros _ E. symmetry in E. destruct (decide (fblk v x j = 0)); [lia | by apply (Hne j)].
  - intros i Hi. rewrite Hblk, Hind by done. destruct (i =? bn); [| auto]. intros _ ->.
    destruct I4; [lia | congruence].
Qed.

(** A block [a] is added as indirect block. *)
Lemma iwf_indirect v x v' x' a : iwf v x -> addr x NDIRECT = 0 -> is_data a -> used v a = false ->
  (forall b, 0 <= b -> used v' b = used v b || (b =? a)) ->
  i_dev x' = i_dev x -> length (i_addrs x') = length (i_addrs x) -> addr x' NDIRECT = a ->
  (forall i, in_file i -> fblk v' x' i = fblk v x i) -> iwf v' x'.
Proof.
  intros [I1 I2 I3 I4 I5 I6] H0 Ha Hua Hu Hdev Hlen Hind Hblk. pose proof (data_pos a Ha) as [Hp _].
  split; [congruence | congruence | | | |].
  - intros i Hi. rewrite Hblk by done. intros Hn. destruct (I3 i Hi Hn) as [Hd ?]. destruct (data_pos _ Hd).
    split; [done |]. rewrite Hu by lia. by apply orb_true_intro; left.
  - rewrite Hind. intros _. by rewrite Hu, Z.eqb_refl, orb_true_r by lia.
  - intros i j Hi Hj. rewrite !Hblk by done. auto.
  - intros i Hi. rewrite Hblk, Hind by done. intros Hn <-. destruct (I3 i Hi Hn). congruence.
Qed.

Lemma fbyte_same v x v' x' o : 0 <= o < MAXFILE * BSIZE ->
  (forall i, in_file i -> fblk v x i <> 0 -> fblk v' x' i = fblk v x i /\ v' (fblk v x i) = v (fblk v x i)) ->
  (forall i, in_file i -> fblk v x i = 0 -> fblk v' x' i <> 0 -> v' (fblk v' x' i) = replicate bsize 0) ->
  fbyte v' x' o = fbyte v x o.
Proof.
  intros Ho H1 H2. unfold fbyte. assert (Hi : in_file (o / BSIZE)).
  { split; [apply Z.div_pos; [lia | done] | apply Z.div_lt_upper_bound; [done | lia]]. }
  destruct (Z.eqb_spec (fblk v x (o / BSIZE)) 0) as [E | E].
  - destruct (Z.eqb_spec (fblk v' x' (o / BSIZE)) 0) as [E' | E']; [done |]. rewrite (H2 _ Hi E E').
    pose proof (Z.mod_pos_bound o BSIZE ltac:(done)). by rewrite lookup_replicate_2 by (unfold BSIZE in *; lia).
  - destruct (H1 _ Hi E) as [E1 E2]. by rewrite E1, E2, (proj2 (Z.eqb_neq _ _) E).
Qed.

Definition same_bytes (v : Z -> list Z) (x : inode) (v' : Z -> list Z) (x' : inode) : Prop :=
  forall o, 0 <= o < MAXFILE * BSIZE -> fbyte v' x' o = fbyte v x o.

Lemma set_addr_ino i a x : set_addr i a x = set_i_addrs (i_addrs (set_addr i a x)) x.
Proof. done. Qed.

Lemma used_alloc' v a b : dwf v -> is_data a -> 0 <= b -> used (alloc a v) b = used v b || (b =? a).
Proof.
  intros Hd Ha Hb. apply (used_alloc start nlog); try done.
  apply (dw_len _ Hd), (home_range start nlog _ (home_bmap start nlog sb)).
Qed.

(** The block of a file that is in use is kept by the allocation of a free one. *)
Lemma alloc_keeps v a b : used v a = false -> is_data b -> used v b = true -> alloc a v b = v b.
Proof. intros Ha Hb Hu. apply alloc_other; [congruence | apply (data_pos b Hb)]. Qed.

Lemma fblk_alloc v x a i : iwf v x -> used v a = false -> fblk (alloc a v) x i = fblk v x i.
Proof.
  intros Hx Ha. unfold fblk. destruct (Z.ltb_spec i NDIRECT); [done |]. destruct (Z.eqb_spec (addr x NDIRECT) 0) as [| Hn]; [done |].
  destruct (iw_ind _ _ Hx Hn). by rewrite alloc_keeps.
Qed.

Lemma fblk_direct v x a bn : iwf v x -> used v a = false -> 0 <= bn < NDIRECT ->
  forall i, in_file i -> fblk (alloc a v) (set_addr bn a x) i = if i =? bn then a else fblk v x i.
Proof.
  intros Hx Hua Hbn i [Hi _]. rewrite <- (fblk_alloc v x a i Hx Hua). unfold fblk.
  rewrite !addr_set by (apply Hx || fslia). rewrite (proj2 (Z.eqb_neq NDIRECT bn)) by lia.
  destruct (Z.ltb_spec i NDIRECT); [done |]. by rewrite (proj2 (Z.eqb_neq i bn)) by lia.
Qed.

Lemma grow_direct v x a bn : dwf v -> iwf v x -> is_data a -> used v a = false -> 0 <= bn < NDIRECT -> fblk v x bn = 0 ->
  fgrow v x (alloc a v) (set_addr bn a x) /\ same_bytes v x (alloc a v) (set_addr bn a x) /\
  fblk (alloc a v) (set_addr bn a x) bn = a.
Proof.
  intros Hd Hx Ha Hua Hbn H0. assert (Hf : in_file bn) by (unfold in_file; fslia).
  pose proof (fblk_direct v x a bn Hx Hua Hbn) as Hblk.
  split_and!; [split | |].
  - by apply dwf_alloc.
  - apply (iwf_data v x _ _ a bn); try done; [intros b Hb; by apply used_alloc' | unfold set_addr; cbn; apply length_insert |].
    rewrite addr_set by (apply Hx || fslia). by rewrite (proj2 (Z.eqb_neq NDIRECT bn)) by lia.
  - apply set_addr_ino.
  - intros i Hi Hn. rewrite Hblk by done. destruct (Z.eqb_spec i bn); [by subst | done].
  - intros b Hb Hu. by rewrite used_alloc', Hu.
  - left. rewrite addr_set by (apply Hx || fslia). by rewrite (proj2 (Z.eqb_neq NDIRECT bn)) by lia.
  - intros i Hi E. rewrite Hblk by done. destruct (i =? bn); auto.
  - intros c Hc Hu Hcb _ _. apply alloc_other; [congruence | done].
  - intros o Ho. apply fbyte_same; [done | |].
    + intros i Hi Hn. rewrite Hblk by done. destruct (iw_blk _ _ Hx i Hi Hn). split; [| by apply alloc_keeps].
      destruct (Z.eqb_spec i bn); [by subst | done].
    + intros i Hi Hn. rewrite Hblk by done. destruct (Z.eqb_spec i bn); [intros _; apply alloc_new | done].
  - rewrite Hblk by done. by rewrite Z.eqb_refl.
Qed.

Lemma get_u32_zeros n o : get_u32 o (replicate n 0) = 0.
Proof.
  unfold get_u32, getle, slice. rewrite drop_replicate, take_replicate. induction (4 `min` _)%nat as [| k IH]; [done |].
  simpl. rewrite IH. done.
Qed.

Lemma grow_indirect v x a : dwf v -> iwf v x -> is_data a -> used v a = false -> addr x NDIRECT = 0 ->
  fgrow v x (alloc a v) (set_addr NDIRECT a x) /\ same_bytes v x (alloc a v) (set_addr NDIRECT a x) /\
  forall i, in_file i -> fblk (alloc a v) (set_addr NDIRECT a x) i = fblk v x i.
Proof.
  intros Hd Hx Ha Hua H0. destruct (data_pos a Ha) as [Hp _].
  assert (Hblk : forall i, in_file i -> fblk (alloc a v) (set_addr NDIRECT a x) i = fblk v x i).
  { intros i [Hi _]. unfold fblk. rewrite !addr_set, Z.eqb_refl, H0, (proj2 (Z.eqb_neq a 0)) by (apply Hx || fslia).
    destruct (Z.ltb_spec i NDIRECT); [by rewrite (proj2 (Z.eqb_neq i NDIRECT)) by lia |]. rewrite alloc_new. apply get_u32_zeros. }
  split_and!; [split | |]; [| | apply set_addr_ino | | | | | | |].
  - by apply dwf_alloc.
  - apply (iwf_indirect v x _ _ a); try done; [intros b Hb; by apply used_alloc' | unfold set_addr; cbn; apply length_insert |].
    by rewrite addr_set, Z.eqb_refl by (apply Hx || fslia).
  - intros i Hi Hn. by rewrite Hblk.
  - intros b Hb Hu. by rewrite used_alloc', Hu.
  - right. by rewrite addr_set, Z.eqb_refl by (apply Hx || fslia).
  - intros i Hi E. left. by rewrite Hblk.
  - intros c Hc Hu Hcb _ _. apply alloc_other; [congruence | done].
  - intros o Ho. apply fbyte_same; [done | |]; intros i Hi Hn; rewrite Hblk by done; [| done].
    destruct (iw_blk _ _ Hx i Hi Hn). split; [done | by apply alloc_keeps].
  - done.
Qed.

(** The disk after [a] is allocated and entered for block [bn] in the indirect block. *)
Definition add_entry (x : inode) (bn a : Z) (v : Z -> list Z) : Z -> list Z :=
  set_at (addr x NDIRECT) (put_32 (4 * (bn - NDIRECT)) a (alloc a v (addr x NDIRECT))) (alloc a v).

Lemma dwf_set v c y : dwf v -> c <> bm -> length y = bsize -> dwf (set_at c y v).
Proof.
  intros [H1 H2] Hc Hy. split.
  - intros b Hb. unfold set_at. case_match; auto.
  - intros b Hb. unfold FsBlocks.used. rewrite set_at_ne by done. by apply H2.
Qed.

Lemma fblk_entry v x a bn : dwf v -> iwf v x -> is_data a -> used v a = false -> addr x NDIRECT <> 0 -> NDIRECT <= bn < MAXFILE ->
  forall i, in_file i -> fblk (add_entry x bn a v) x i = if i =? bn then a else fblk v x i.
Proof.
  intros Hd Hx Ha Hua H0 Hbn i Hfi. destruct (data_pos a Ha) as (Hp & Hpb & Hps). destruct (iw_ind _ _ Hx H0) as [Hi Hui].
  pose proof (data_pos _ Hi) as (Hip & Hib & His). pose proof (fl_size start nlog (sb := sb)). pose proof (fl_bitmap start nlog (sb := sb)) as Hbp.
  assert (Hil : length (v (addr x NDIRECT)) = bsize) by (apply Hd; lia).
  unfold fblk, add_entry. rewrite set_at_eq, (alloc_keeps v a _ Hua Hi Hui), (proj2 (Z.eqb_neq _ _) H0).
  destruct (Z.ltb_spec i NDIRECT); [by rewrite (proj2 (Z.eqb_neq i bn)) by lia |]. unfold in_file in Hfi.
  rewrite get_put_32 by (rewrite ?Hil; try fslia; unfold BPB in *; fslia).
  destruct (Z.eqb_spec (i - NDIRECT) (bn - NDIRECT)), (Z.eqb_spec i bn); (done || lia).
Qed.

Lemma grow_entry v x a bn : dwf v -> iwf v x -> is_data a -> used v a = false -> addr x NDIRECT <> 0 ->
  NDIRECT <= bn < MAXFILE -> fblk v x bn = 0 ->
  fgrow v x (add_entry x bn a v) x /\ same_bytes v x (add_entry x bn a v) x /\ fblk (add_entry x bn a v) x bn = a.
Proof.
  intros Hd Hx Ha Hua H0 Hbn Hz. destruct (data_pos a Ha) as (Hp & Hpb & Hps). destruct (iw_ind _ _ Hx H0) as [Hi Hui].
  pose proof (data_pos _ Hi) as (Hip & Hib & His). assert (Hf : in_file bn) by (unfold in_file; fslia).
  pose proof (fl_size start nlog (sb := sb)). pose proof (fl_bitmap start nlog (sb := sb)) as Hbp.
  assert (Hil : length (v (addr x NDIRECT)) = bsize) by (apply Hd; lia).
  assert (Hk : forall c, c <> addr x NDIRECT -> add_entry x bn a v c = alloc a v c) by (intros; by apply set_at_ne).
  assert (Hu : forall b, used (add_entry x bn a v) b = used (alloc a v) b).
  { intros b. unfold FsBlocks.used. by rewrite Hk by done. }
  pose proof (fblk_entry v x a bn Hd Hx Ha Hua H0 Hbn) as Hblk.
  assert (Hkeep : forall b, is_data b -> used v b = true -> b <> addr x NDIRECT -> add_entry x bn a v b = v b).
  { intros b Hb Hub Hne. rewrite Hk by done. by apply alloc_keeps. }
  split_and!; [split | |]; [| | by destruct x | | | by left | | | |].
  - apply dwf_set; [by apply dwf_alloc | done |]. rewrite length_put_32, alloc_keeps; done.
  - apply (iwf_data v x _ _ a bn); try done. intros b Hb. rewrite Hu. by apply used_alloc'.
  - intros i Hi' Hn. rewrite Hblk by done. destruct (Z.eqb_spec i bn); [by subst | done].
  - intros b Hb Hub. by rewrite Hu, used_alloc', Hub.
  - intros i Hfi E. rewrite Hblk by done. destruct (i =? bn); auto.
  - intros c Hc Huc Hcb Hci _. rewrite Hk by done. apply alloc_other; [congruence | done].
  - intros o Ho. apply fbyte_same; [done | |].
    + intros i Hfi Hn. rewrite Hblk by done. destruct (iw_blk _ _ Hx i Hfi Hn). split; [destruct (Z.eqb_spec i bn); [by subst | done] |].
      apply Hkeep; [done | done | by apply (iw_ind_ne _ _ Hx)].
    + intros i Hfi Hn. rewrite Hblk by done. destruct (Z.eqb_spec i bn); [| done].
      intros _. rewrite Hk; [apply alloc_new | congruence].
  - by rewrite Hblk, Z.eqb_refl.
Qed.

Lemma fgrow_refl v x : dwf v -> iwf v x -> fgrow v x v x.
Proof. intros Hd Hx. split; try done; [by destruct x | by left | by left]. Qed.

Lemma fgrow_trans v x v1 x1 v2 x2 : iwf v x -> fgrow v x v1 x1 -> fgrow v1 x1 v2 x2 -> fgrow v x v2 x2.
Proof.
  intros Hx [A1 A2 A3 A4 A5 A6 A7 A8] [B1 B2 B3 B4 B5 B6 B7 B8]. split; [done | done | | | auto | | |].
  - rewrite B3, A3. by destruct x.
  - intros bn Hbn Hn. rewrite <- (A4 bn Hbn Hn). apply B4; [done | by rewrite A4].
  - destruct B6 as [B6 | [B6 B6']]; [by rewrite B6 |].
    right. split; [destruct A6 as [A6 | [A6 _]]; congruence |]. destruct (used v (addr x2 NDIRECT)) eqn:E; [| done].
    destruct (decide (0 <= addr x2 NDIRECT)) as [Hp | Hp]; [by rewrite A5 in B6' |].
    exfalso. apply Hp. destruct (decide (addr x2 NDIRECT = 0)) as [-> | Hn]; [done |].
    destruct (data_pos _ (proj1 (iw_ind _ _ B2 Hn))). lia.
  - intros bn Hbn E. destruct (decide (fblk v1 x1 bn = 0)) as [E1 | E1].
    + destruct (B7 bn Hbn E1) as [? | Hu2]; [by left |]. destruct (decide (fblk v2 x2 bn = 0)) as [| Hn]; [by left | right].
      destruct (data_pos _ (proj1 (iw_blk _ _ B2 bn Hbn Hn))). destruct (used v (fblk v2 x2 bn)) eqn:Hu; [| done].
      by rewrite A5 in Hu2 by (done || lia).
    + rewrite (B4 bn Hbn E1). destruct (A7 bn Hbn E); [done | by right].
  - intros c Hc Hu Hcb Hci Hbl. rewrite B8, A8; try done; [apply A5; [lia | done] | |].
    + destruct A6 as [-> | [_ A6]]; [done | congruence].
    + intros bn Hbn E. destruct (decide (fblk v x bn = 0)) as [E0 | E0].
      * destruct (A7 bn Hbn E0) as [E1 | E1]; [| congruence]. rewrite <- E, E1 in Hbl. by apply (Hbl bn Hbn).
      * rewrite A4 in E by done. by apply (Hbl bn Hbn).
Qed.

(** A block that the file has is found without allocation. *)
Lemma t_bmap_read v bl ino ip x bn : iwf v x -> ino !! ip = Some x -> in_file bn -> fblk v x bn <> 0 -> room ∅ bl ->
  {{ fs v ∅ bl ino }} bmap ip bn {{ r, fun s => r = fblk v x bn /\ fs v ∅ bl ino s }}.
Proof.
  intros Hx Hip Hbn Hn Hr. pose proof (proj2 (Z.eqb_neq _ _) Hn) as Hnb. unfold bmap. eapply t_geti; [exact Hip |].
  unfold fblk in *. destruct (Z.ltb_spec bn NDIRECT) as [Hlt | Hge].
  - eapply t_arr_get; [apply Hbn | apply lookup_addr; [apply Hx | destruct Hbn; lia] |]. rewrite Hnb. by apply t_ret.
  - rewrite (proj2 (Z.ltb_lt _ _)) by (unfold in_file in *; fslia).
    eapply t_arr_get; [done | apply lookup_addr; [apply Hx | done] |]. destruct (Z.eqb_spec (addr x NDIRECT) 0) as [| Hi]; [done |].
    apply t_bind_ret. rewrite (proj2 (Z.eqb_neq _ _) Hi), (iw_dev _ _ Hx).
    destruct (iw_ind _ _ Hx Hi) as [Hid _]. pose proof (home_data start nlog sb _ Hid) as Hh.
    eapply t_bind; [apply (t_bread start nlog); [apply Hh | done | done] |]. intros i. apply t_pure. intros Hc.
    eapply t_data; [apply lookup_insert_eq |]. rewrite Hnb. apply t_bind_ret.
    eapply t_bind; [eapply (t_brelse start nlog); [apply lookup_insert_eq | done] |]. intros [].
    apply t_ret. intros s. by rewrite delete_insert_id.
Qed.

(** ** Space in the log

    The bitmap block is counted as logged from the start, so that the blocks an
    operation may log are those of the file only. *)

Definition wt (bl : list Z) : nat := (length bl + if bool_decide (bm ∈ bl) then 0 else 1)%nat.
Definition budget (n : nat) (h : gmap Z nat) (bl : list Z) : Prop :=
  Z.of_nat (wt bl + n) <= nlog - 1 /\ (size h + wt bl + n <= NBUF)%nat.

Lemma wt_bm bl : wt (logged bm bl) = wt bl.
Proof.
  unfold wt, logged. destruct (decide (bm ∈ bl)) as [H | H].
  - by rewrite (bool_decide_eq_true_2 _ H), (bool_decide_eq_true_2 _ H).
  - rewrite (bool_decide_eq_false_2 _ H), bool_decide_eq_true_2, length_app by (apply elem_of_app; right; by apply list_elem_of_singleton). simpl. lia.
Qed.

Lemma wt_logged c bl : (wt (logged c bl) <= S (wt bl))%nat.
Proof.
  unfold wt. pose proof (logged_length c bl). assert (bm ∈ bl -> bm ∈ logged c bl) by (intros; apply elem_logged; auto).
  repeat case_bool_decide; try lia. tauto.
Qed.

Lemma wt_absorb c bl : c ∈ bl -> logged c bl = bl.
Proof. intros H. unfold logged. by rewrite bool_decide_eq_true_2. Qed.

Lemma budget_space n h bl : budget n h bl -> space nlog n h bl.
Proof. unfold budget, space, wt. lia. Qed.

Lemma budget_wt n m k h bl bl' : budget n h bl -> (wt bl' <= wt bl + k)%nat -> (m + k <= n)%nat -> budget m h bl'.
Proof. unfold budget. lia. Qed.

Lemma budget_hold n bl c i : budget (S n) ∅ bl -> budget n {[c := i]} bl.
Proof. unfold budget. rewrite map_size_empty, map_size_singleton. lia. Qed.

Context `{OUT : !intx s0}.

Lemma t_alloc v h bl ino a l : dwf v -> frees v = a :: l -> h !! bm = None -> h !! a = None -> budget 3 h bl ->
  {{ fs v h bl ino }} balloc ROOTDEV {{ r, fun s => r = a /\ fs (alloc a v) h (logged a (logged bm bl)) ino s }}.
Proof. intros Hd Hf H1 H2 Hb. eapply t_balloc; try done; [apply Hd | by apply budget_space]. Qed.

Lemma first_free v : dwf v -> (1 <= length (frees v))%nat -> exists a l, frees v = a :: l /\ is_data a /\ used v a = false /\
  frees (alloc a v) = l.
Proof.
  intros Hd Hl. destruct (frees v) as [| a l] eqn:E; [simpl in Hl; lia |]. exists a, l. split; [done |].
  assert (Ha : a ∈ frees v) by (rewrite E; set_solver). split; [eapply frees_data; [apply Hd | exact Ha] |].
  split; [by apply elem_frees in Ha as [? _] |]. apply (frees_alloc start nlog); try done; [| apply Hd].
  apply (dw_len _ Hd), (home_range start nlog _ (home_bmap start nlog sb)).
Qed.

(** ** bmap *)

Definition need (x : inode) : nat := if addr x NDIRECT =? 0 then 1 else 0.

(** What [bmap] does with block [bn] of the file: the file is the same array of
    bytes, and the block has an address. *)
Record bmapped (v : Z -> list Z) (x : inode) (bn : Z) (bl : list Z) (r : Z) (v' : Z -> list Z) (x' : inode) (bl' : list Z) : Prop := {
  bp_grow : fgrow v x v' x';
  bp_bytes : same_bytes v x v' x';
  bp_blk : fblk v' x' bn = r;
  bp_nz : r <> 0;
  bp_free : (length (frees v) + need x' <= length (frees v') + 1 + need x)%nat;
  bp_in : bl ⊆ bl';
  bp_wt : (wt bl' <= wt bl + 2)%nat;
  bp_old : fblk v x bn <> 0 -> v' = v /\ x' = x /\ bl' = bl;
  bp_new : fblk v x bn = 0 -> r ∈ bl' }.

Lemma bmapped_same v x bn bl : dwf v -> iwf v x -> fblk v x bn <> 0 -> bmapped v x bn bl (fblk v x bn) v x bl.
Proof. intros Hd Hx Hn. split; try done; [by apply fgrow_refl | lia | lia]. Qed.

Lemma need_set x i a : length (i_addrs x) = Z.to_nat (NDIRECT + 1) -> 0 <= i < NDIRECT -> need (set_addr i a x) = need x.
Proof. intros Hl Hi. unfold need. rewrite addr_set by fslia. by rewrite (proj2 (Z.eqb_neq NDIRECT i)) by lia. Qed.

Lemma t_bmap_direct v bl ino ip x bn : dwf v -> iwf v x -> ino !! ip = Some x -> 0 <= bn < NDIRECT -> budget 3 ∅ bl ->
  (1 <= length (frees v))%nat ->
  {{ fs v ∅ bl ino }} bmap ip bn
  {{ r, fun s => exists v' x' bl', bmapped v x bn bl r v' x' bl' /\ fs v' ∅ bl' (<[ip := x']> ino) s }}.
Proof.
  intros Hd Hx Hip Hbn Hb Hf. unfold bmap. eapply t_geti; [exact Hip |]. rewrite (proj2 (Z.ltb_lt _ _)) by lia.
  assert (Ebn : fblk v x bn = addr x bn) by (unfold fblk; by rewrite (proj2 (Z.ltb_lt _ _)) by lia).
  eapply t_arr_get; [lia | apply lookup_addr; [apply Hx | lia] |]. rewrite <- Ebn.
  destruct (Z.eqb_spec (fblk v x bn) 0) as [E | E].
  - destruct (first_free v Hd Hf) as (a & l & Ef & Ha & Hua & El). destruct (data_pos a Ha) as (Hp & Hpb & _).
    rewrite (iw_dev _ _ Hx). eapply t_bind; [by apply (t_alloc v ∅ bl ino a l) |]. intros r. apply t_pure. intros ->.
    rewrite (proj2 (Z.eqb_neq a 0)) by lia. eapply t_bind; [by apply t_upd_inode |]. intros []. apply t_ret. intros s Hs.
    exists (alloc a v), (set_addr bn a x), (logged a (logged bm bl)). split; [| exact Hs].
    destruct (grow_direct v x a bn Hd Hx Ha Hua Hbn E) as (G1 & G2 & G3).
    pose proof (wt_logged a (logged bm bl)) as Hw. rewrite wt_bm in Hw. split; try done.
    + lia.
    + rewrite need_set by (apply Hx || lia). rewrite El, Ef. simpl. lia.
    + intros c Hc. apply elem_logged. right. apply elem_logged. auto.
    + lia.
    + intros _. apply elem_logged. auto.
  - apply t_ret. intros s Hs. exists v, x, bl. split; [by apply bmapped_same |]. by rewrite list_insert_id.
Qed.

(** The indirect block of the file, allocated if there is none. *)
Record ind_block (v : Z -> list Z) (x : inode) (bl : list Z) (r : Z) (v' : Z -> list Z) (x' : inode) (bl' : list Z) : Prop := {
  ib_grow : fgrow v x v' x';
  ib_bytes : same_bytes v x v' x';
  ib_blk : forall i, in_file i -> fblk v' x' i = fblk v x i;
  ib_addr : addr x' NDIRECT = r;
  ib_nz : r <> 0;
  ib_free : (length (frees v) <= length (frees v') + need x)%nat;
  ib_in : bl ⊆ bl';
  ib_old : addr x NDIRECT <> 0 -> v' = v /\ x' = x /\ bl' = bl;
  ib_new : addr x NDIRECT = 0 -> r ∈ bl' /\ (wt bl' <= wt bl + 1)%nat }.

Lemma t_ind_block v bl ino ip x : dwf v -> iwf v x -> ino !! ip = Some x -> budget 3 ∅ bl -> (need x <= length (frees v))%nat ->
  {{ fs v ∅ bl ino }}
    (if addr x NDIRECT =? 0 then
       let* addr := balloc (i_dev x) in
       when (negb (addr =? 0)) (upd_inode ip (fun x => set_i_addrs (<[Z.to_nat NDIRECT := addr]> (i_addrs x)) x)) ;;;
       ret addr
     else ret (addr x NDIRECT))
  {{ r, fun s => exists v' x' bl', ind_block v x bl r v' x' bl' /\ fs v' ∅ bl' (<[ip := x']> ino) s }}.
Proof.
  intros Hd Hx Hip Hb Hf. unfold need in Hf. destruct (Z.eqb_spec (addr x NDIRECT) 0) as [E | E].
  - destruct (first_free v Hd Hf) as (a & l & Ef & Ha & Hua & El). destruct (data_pos a Ha) as (Hp & Hpb & _).
    rewrite (iw_dev _ _ Hx). eapply t_bind; [by apply (t_alloc v ∅ bl ino a l) |]. intros r. apply t_pure. intros ->.
    rewrite (proj2 (Z.eqb_neq a 0)) by lia. cbn [negb when]. eapply t_bind; [by apply t_upd_inode |]. intros [].
    apply t_ret. intros s Hs. exists (alloc a v), (set_addr NDIRECT a x), (logged a (logged bm bl)). split; [| exact Hs].
    destruct (grow_indirect v x a Hd Hx Ha Hua E) as (G1 & G2 & G3).
    pose proof (wt_logged a (logged bm bl)) as Hw. rewrite wt_bm in Hw. split; try done.
    + by rewrite addr_set, Z.eqb_refl by (apply Hx || fslia).
    + lia.
    + rewrite El, Ef. unfold need. rewrite E. simpl. lia.
    + intros c Hc. apply elem_logged. right. apply elem_logged. auto.
    + intros _. split; [apply elem_logged; auto | lia].
  - apply t_ret. intros s Hs. exists v, x, bl. split; [| by rewrite list_insert_id]. split; try done; [by apply fgrow_refl | lia].
Qed.

Lemma bmapped_entry v x bn bl a l : dwf v -> iwf v x -> NDIRECT <= bn < MAXFILE -> addr x NDIRECT <> 0 -> fblk v x bn = 0 ->
  frees v = a :: l -> is_data a -> used v a = false -> frees (alloc a v) = l ->
  bmapped v x bn bl a (add_entry x bn a v) x (logged (addr x NDIRECT) (logged a (logged bm bl))).
Proof.
  intros Hd Hx Hbn Hn E Ef Ha Hua El. destruct (grow_entry v x a bn Hd Hx Ha Hua Hn Hbn E) as (G1 & G2 & G3).
  destruct (data_pos a Ha) as (Hp & _). destruct (iw_ind _ _ Hx Hn) as [Hi _]. destruct (data_pos _ Hi) as (_ & Hib & _).
  pose proof (wt_logged a (logged bm bl)) as Hw. rewrite wt_bm in Hw.
  pose proof (wt_logged (addr x NDIRECT) (logged a (logged bm bl))) as Hw2. split; try done.
  - lia.
  - replace (frees (add_entry x bn a v)) with l; [rewrite Ef; simpl; lia |]. rewrite <- El. unfold FsBlocks.frees.
    apply filter_ext_in. intros b _. unfold FsBlocks.used, add_entry. by rewrite set_at_ne.
  - intros c Hc. rewrite !elem_logged. auto.
  - lia.
  - intros _. rewrite !elem_logged. auto.
Qed.

Lemma wt_entry ia a bl : (wt (logged ia (logged a (logged bm bl))) <= wt bl + (if bool_decide (ia ∈ bl) then 1 else 2))%nat.
Proof.
  pose proof (wt_logged a (logged bm bl)) as Hw. rewrite wt_bm in Hw. case_bool_decide.
  - rewrite (wt_absorb ia); [lia |]. rewrite !elem_logged. auto.
  - pose proof (wt_logged ia (logged a (logged bm bl))). lia.
Qed.

(** The entry for block [bn], allocated if there is none. *)
Lemma t_bmap_entry v bl ino ip x bn : dwf v -> iwf v x -> ino !! ip = Some x -> NDIRECT <= bn < MAXFILE -> budget 4 ∅ bl ->
  addr x NDIRECT <> 0 -> (fblk v x bn = 0 -> (1 <= length (frees v))%nat) ->
  {{ fs v ∅ bl ino }}
    (let* bp := bread ROOTDEV (addr x NDIRECT) in
     let* d := data bp in
     let addr := get_u32 (4 * (bn - NDIRECT)) d in
     let* addr :=
       (if addr =? 0 then
          let* addr := balloc ROOTDEV in
          when (truthy addr) (upd_data bp (put_32 (4 * (bn - NDIRECT)) addr) ;;; log_write bp) ;;;
          ret addr
        else ret addr) in
     brelse bp ;;;
     ret addr)
  {{ r, fun s => exists v' bl', bmapped v x bn bl r v' x bl' /\ (wt bl' <= wt bl + (if bool_decide (addr x NDIRECT ∈ bl) then 1 else 2))%nat /\
       fs v' ∅ bl' ino s }}.
Proof.
  intros Hd Hx Hip Hbn Hb Hn Hf. destruct (iw_ind _ _ Hx Hn) as [Hi Hui]. set (ia := addr x NDIRECT) in *.
  pose proof (home_data start nlog sb ia Hi) as Hh.
  eapply t_bind; [apply (t_bread start nlog); [apply Hh | done | by eapply space_room, budget_space] |]. intros i.
  apply t_pure. intros Hc. change (<[ia := i]> ∅) with ({[ia := i]} : gmap Z nat). eapply t_data; [apply lookup_singleton_eq |].
  assert (Eb : get_u32 (4 * (bn - NDIRECT)) (v ia) = fblk v x bn).
  { unfold fblk. fold ia. by rewrite (proj2 (Z.ltb_ge _ _)), (proj2 (Z.eqb_neq _ _) Hn) by lia. }
  cbv zeta. rewrite Eb. destruct (Z.eqb_spec (fblk v x bn) 0) as [E | E].
  - destruct (first_free v Hd (Hf E)) as (a & l & Ef & Ha & Hua & El). destruct (data_pos a Ha) as (Hp & Hpb & _).
    assert (Hia : ia <> a) by congruence. pose proof (data_pos ia Hi) as (_ & Hib & Hr).
    assert (Hil : length (v ia) = bsize) by apply Hd, Hh.
    apply (t_bind _ _ _ (fun r s => r = a /\ fs (add_entry x bn a v) {[ia := i]} (logged ia (logged a (logged bm bl))) ino s)).
    { eapply t_bind; [apply (t_alloc v {[ia := i]} bl ino a l); try done |].
      - by apply lookup_singleton_ne.
      - by apply lookup_singleton_ne.
      - by apply budget_hold.
      - intros r. apply t_pure. intros ->. unfold truthy. rewrite (proj2 (Z.eqb_neq a 0)) by lia. cbn [negb when].
        apply (t_bind _ _ _ (fun _ => fs (add_entry x bn a v) {[ia := i]} (logged ia (logged a (logged bm bl))) ino)); [| by intros []; apply t_ret].
        eapply t_bind; [apply (t_upd_data start nlog); [apply lookup_singleton_eq |] |].
        + rewrite length_put_32, (alloc_keeps v a ia Hua Hi Hui). done.
        + intros []. apply (t_log_write start nlog me s0 sb); [apply lookup_singleton_eq | done |]. apply budget_space, budget_hold.
          pose proof (wt_logged a (logged bm bl)) as Hw. rewrite wt_bm in Hw. apply (budget_wt 4 2 1 ∅ bl); [done | lia | lia]. }
    intros r. apply t_pure. intros ->. eapply t_bind; [eapply (t_brelse start nlog); [apply lookup_singleton_eq |] |].
    { left. apply elem_logged. auto. }
    intros []. apply t_ret. intros s Hs. exists (add_entry x bn a v), (logged ia (logged a (logged bm bl))).
    rewrite delete_singleton_eq in Hs. split; [by eapply bmapped_entry |]. split; [apply wt_entry | done].
  - apply t_bind_ret.
    eapply t_bind; [eapply (t_brelse start nlog); [apply lookup_singleton_eq | done] |]. intros []. rewrite delete_singleton_eq.
    apply t_ret. intros s Hs. exists v, bl. split; [by apply bmapped_same |]. split; [lia | done].
Qed.

Lemma t_bmap v bl ino ip x bn : dwf v -> iwf v x -> ino !! ip = Some x -> in_file bn -> budget 5 ∅ bl ->
  (1 + need x <= length (frees v))%nat ->
  {{ fs v ∅ bl ino }} bmap ip bn
  {{ r, fun s => exists v' x' bl', bmapped v x bn bl r v' x' bl' /\ fs v' ∅ bl' (<[ip := x']> ino) s }}.
Proof.
  intros Hd Hx Hip Hbn Hb Hf. destruct (decide (bn < NDIRECT)) as [Hlt | Hge].
  { apply t_bmap_direct; try done; [destruct Hbn; lia | | lia]. eapply (budget_wt _ _ 0); [done | lia | lia]. }
  unfold in_file in Hbn. unfold bmap. eapply t_geti; [exact Hip |].
  rewrite (proj2 (Z.ltb_ge _ _)), (proj2 (Z.ltb_lt _ _)) by fslia.
  eapply t_arr_get; [done | apply lookup_addr; [apply Hx | done] |].
  eapply t_bind; [apply (t_ind_block v bl ino ip x); try done; [eapply (budget_wt _ _ 0); [done | lia | lia] | lia] |].
  intros r. apply t_ex; intros v1. apply t_ex; intros x1. apply t_ex; intros bl1. apply t_pure.
  intros [G1 G2 G3 G4 G5 G6 G7 G8 G9]. rewrite (proj2 (Z.eqb_neq _ _) G5), (iw_dev _ _ Hx). subst r.
  assert (Hw1 : (wt bl1 <= wt bl + 1)%nat).
  { destruct (decide (addr x NDIRECT = 0)) as [E | E]; [apply (G9 E) | destruct (G8 E) as (_ & _ & ->); lia]. }
  assert (Hip1 : <[ip := x1]> ino !! ip = Some x1) by (apply list_lookup_insert_eq; by eapply lookup_lt_Some).
  eapply t_conseq; [apply (t_bmap_entry v1 bl1 (<[ip := x1]> ino) ip x1 bn) | done |].
  - apply G1.
  - apply G1.
  - done.
  - fslia.
  - eapply (budget_wt 5 4 1); [done | lia | lia].
  - done.
  - intros _. lia.
  - intros r s (v2 & bl2 & [P1 P2 P3 P4 P5 P6 P7 P8 P9] & Hw & Hs). exists v2, x1, bl2. split; [| done].
    rewrite G3 in P8, P9 by done. split; [by eapply fgrow_trans | | done | done | | set_solver | | | done].
    + intros o Ho. by rewrite P2, G2.
    + unfold need in *. rewrite (proj2 (Z.eqb_neq _ _) G5) in *. lia.
    + destruct (decide (addr x NDIRECT = 0)) as [E | E].
      * destruct (G9 E) as [Hin ?]. rewrite bool_decide_eq_true_2 in Hw by done. lia.
      * destruct (G8 E) as (_ & _ & ->). lia.
    + intros Hn. assert (addr x NDIRECT <> 0) as E.
      { intros E. apply Hn. unfold fblk. by rewrite (proj2 (Z.ltb_ge _ _)), E by lia. }
      destruct (G8 E) as (-> & -> & ->). auto.
Qed.

End File.
