(* ===== verification/FsIo.v ===== *)
(** * Reading and writing files

    [readi] returns, and [writei] changes, exactly the bytes of the file at the
    given offsets. *)

From S2P Require Import Prelude Riscv Mem Bytes StringLib Spinlock Kalloc Vm Proc ProcSpec Kctx State Sleeplock Bio BioList BioSpec BioRun RamDisk Log LogSpec BioProps LogProps LogTx Uart Printf Console Fs FsRun FsBlocks FsFile.

Section Io.
Context (start nlog : Z) `{PF : Platform} `{PA : Patience} `{BD : !BlockDev} `{BO : !BlockDevOk BD} `{LY : !layout start nlog}.
Context (me : nat) (s0 : kern) (sb : superblock) `{FL : !fslayout start nlog sb}.
Abbreviation home := (home start nlog).
Abbreviation fs := (fs start nlog me s0 sb).
Abbreviation bm := (sb_bmapstart sb).
Abbreviation bsize := (Z.to_nat BSIZE).
Abbreviation is_data := (is_data sb).
Abbreviation used := (used sb).
Abbreviation frees := (frees sb).
Abbreviation dwf := (dwf sb).
Abbreviation iwf := (iwf sb).
Abbreviation fgrow := (fgrow sb).
Abbreviation wt := (wt sb).
Abbreviation budget := (budget nlog sb).

(** The bytes of the file from [o] on. *)
Definition fdata (v : Z -> list Z) (x : inode) (o n : Z) : list Z := fbyte v x <$> seqZ o n.

(** A file without holes. *)
Record fok (v : Z -> list Z) (x : inode) : Prop := {
  fk_iwf : iwf v x;
  fk_size : 0 <= i_size x <= MAXFILE * BSIZE;
  fk_full : forall bn, 0 <= bn -> bn * BSIZE < i_size x -> fblk v x bn <> 0 }.

Lemma fdata_app v x o n m : 0 <= n -> 0 <= m -> fdata v x o n ++ fdata v x (o + n) m = fdata v x o (n + m).
Proof. intros Hn Hm. unfold fdata. by rewrite <- fmap_app, <- seqZ_app. Qed.

Lemma length_fdata v x o n : length (fdata v x o n) = Z.to_nat n.
Proof. unfold fdata. by rewrite length_fmap, length_seqZ. Qed.

Lemma in_block o : 0 <= o < MAXFILE * BSIZE -> in_file (o / BSIZE).
Proof. intros. split; [apply Z.div_pos; [lia | done] | apply Z.div_lt_upper_bound; [done | lia]]. Qed.

(** Offsets within one block. *)
Lemma block_offset o j : 0 <= j < BSIZE - o mod BSIZE -> (o + j) / BSIZE = o / BSIZE /\ (o + j) mod BSIZE = o mod BSIZE + j.
Proof.
  intros Hj. pose proof (Z.mod_pos_bound o BSIZE ltac:(done)). pose proof (Z.div_mod o BSIZE ltac:(done)) as E.
  assert (Eq : o + j = BSIZE * (o / BSIZE) + (o mod BSIZE + j)) by lia.
  split; [symmetry; apply (Z.div_unique _ _ _ (o mod BSIZE + j)) | symmetry; apply (Z.mod_unique _ _ (o / BSIZE))]; try done; lia.
Qed.

(** The part of a block that a transfer reads. *)
Lemma fdata_block v x o m : fblk v x (o / BSIZE) <> 0 -> length (v (fblk v x (o / BSIZE))) = bsize ->
  0 <= m <= BSIZE - o mod BSIZE ->
  take (Z.to_nat m) (drop (Z.to_nat (o mod BSIZE)) (v (fblk v x (o / BSIZE)))) = fdata v x o m.
Proof.
  intros Hn Hl Hm. pose proof (Z.mod_pos_bound o BSIZE ltac:(done)) as Hb. apply list_eq. intros i. unfold fdata.
  rewrite list_lookup_fmap. destruct (decide (i < Z.to_nat m)%nat) as [Hi | Hi].
  - rewrite lookup_take_lt, lookup_drop, lookup_seqZ_lt by lia. cbn [fmap option_fmap option_map]. unfold fbyte.
    destruct (block_offset o (Z.of_nat i)) as [-> ->]; [lia |]. rewrite (proj2 (Z.eqb_neq _ _) Hn).
    rewrite Z2Nat.inj_add, Nat2Z.id by lia. destruct (lookup_lt_is_Some_2 (v (fblk v x (o / BSIZE))) (Z.to_nat (o mod BSIZE) + i)) as [y ->]; [| done].
    rewrite Hl. lia.
  - rewrite lookup_seqZ_ge, lookup_take_ge by lia. done.
Qed.

(** ** readi *)

Lemma fk_block v x o : fok v x -> 0 <= o < i_size x -> in_file (o / BSIZE) /\ fblk v x (o / BSIZE) <> 0.
Proof.
  intros [H1 H2 H3] Ho. split; [apply in_block; lia |]. apply H3; [apply Z.div_pos; [lia | done] |].
  pose proof (Z.mul_div_le o BSIZE ltac:(done)). lia.
Qed.

(** The end of the transfer is in the [k] blocks from the one of [off] on. *)
Lemma next_block off n k m : 0 <= off -> 0 < n -> off + n <= (off / BSIZE + Z.of_nat k) * BSIZE ->
  m = Z.min n (BSIZE - off mod BSIZE) ->
  exists k', k = S k' /\ 0 < m <= n /\ (0 < n - m -> off + m + (n - m) <= ((off + m) / BSIZE + Z.of_nat k') * BSIZE).
Proof.
  intros Ho Hn Hk ->. pose proof (Z.mod_pos_bound off BSIZE ltac:(done)) as Hb. pose proof (Z.div_mod off BSIZE ltac:(done)) as E.
  destruct k as [| k]; [lia |]. exists k. split; [done |]. split; [lia |]. intros Hlt.
  rewrite Z.min_r in * by lia. replace (off + (BSIZE - off mod BSIZE)) with ((off / BSIZE + 1) * BSIZE) by lia.
  rewrite Z.div_mul by done. lia.
Qed.

Lemma t_readi_loop v bl ino ip x n : fok v x -> ino !! ip = Some x -> room ∅ bl -> i_size x < 2^32 ->
  forall k fuel off d tot out, (k < fuel)%nat -> 0 <= off -> 0 <= tot <= n -> off + (n - tot) <= i_size x ->
  (tot < n -> off + (n - tot) <= (off / BSIZE + Z.of_nat k) * BSIZE) ->
  {{ fs v ∅ bl ino }} readi_loop fuel ip false d off n tot out
  {{ r, fun s => r = (n, out ++ fdata v x off (n - tot)) /\ fs v ∅ bl ino s }}.
Proof.
  intros Hx Hip Hr Hsz. induction k as [| k IH]; intros fuel off d tot out Hf Ho Ht He Hk; (destruct fuel as [| fuel]; [lia |]); cbn [readi_loop].
  all: destruct (Z.ltb_spec tot n) as [Hlt | Hge].
  2, 4: replace tot with n by lia; rewrite Z.sub_diag, app_nil_r; by apply t_ret.
  - exfalso. specialize (Hk Hlt). pose proof (Z.mod_pos_bound off BSIZE ltac:(done)). pose proof (Z.div_mod off BSIZE ltac:(done)). lia.
  - destruct (next_block off (n - tot) (S k) _ Ho ltac:(lia) (Hk Hlt) eq_refl) as (k' & [= <-] & Hm & Hk').
    destruct (fk_block v x off Hx ltac:(lia)) as [Hin Hn]. pose proof (fk_iwf _ _ Hx) as Hw. pose proof (fk_size _ _ Hx) as Hs1.
    eapply t_bind; [by apply (t_bmap_read start nlog me s0 sb v bl ino ip x) |]. intros a. apply t_pure. intros ->.
    rewrite (proj2 (Z.eqb_neq _ _) Hn). eapply t_geti; [exact Hip |]. rewrite (iw_dev _ _ _ Hw).
    destruct (iw_blk _ _ _ Hw _ Hin Hn) as [Hd _]. pose proof (home_data start nlog sb _ Hd) as Hh.
    eapply t_pre; [intros s Hs; apply (fs_vlen _ _ _ _ _ _ _ _ _ _ _ Hs (proj1 Hh)) |]. intros Hlen.
    eapply t_bind; [apply (t_bread start nlog); [apply Hh | done | done] |]. intros i. apply t_pure. intros Hc.
    eapply t_data; [apply lookup_insert_eq |]. set (m := Z.min (n - tot) (BSIZE - off mod BSIZE)) in *.
    eapply t_bind; [apply (t_copyout start nlog) |]. intros r. apply t_pure. intros ->. cbn [fst snd].
    change (0 =? -1) with false. cbn iota.
    eapply t_bind; [eapply (t_brelse start nlog); [apply lookup_insert_eq | done] |]. intros []. rewrite delete_insert_id by done.
    rewrite fdata_block by (done || (unfold m; lia)).
    replace (u32 (off + m)) with (off + m) by (unfold u32; rewrite Z.mod_small; lia).
    eapply t_conseq; [apply (IH fuel (off + m)); lia | done |]. intros r s [-> Hs]. split; [| done].
    rewrite <- app_assoc, fdata_app by lia. do 3 f_equal. lia.
Qed.

(** The number of bytes [readi] can read. *)
Definition read_len (x : inode) (off n : Z) : Z := if i_size x <? off then 0 else Z.min n (i_size x - off).

Lemma loop_blocks off n : 0 <= off -> off + n <= MAXFILE * BSIZE -> off + n <= (off / BSIZE + Z.of_nat (S (Z.to_nat MAXFILE))) * BSIZE.
Proof. intros. pose proof (Z.div_pos off BSIZE ltac:(lia) ltac:(done)). rewrite Nat2Z.inj_succ, Z2Nat.id by done. unfold BSIZE in *. lia. Qed.

Lemma t_readi v bl ino ip x dst off n : fok v x -> ino !! ip = Some x -> room ∅ bl -> 0 <= off -> 0 <= n -> off + n < 2^32 ->
  {{ fs v ∅ bl ino }} readi ip false dst off n
  {{ r, fun s => r = (read_len x off n, fdata v x off (read_len x off n)) /\ fs v ∅ bl ino s }}.
Proof.
  intros Hx Hip Hr Ho Hn Hlt. unfold readi. eapply t_geti; [exact Hip |]. unfold read_len. pose proof (fk_size _ _ Hx) as Hs.
  replace (u32 (off + n)) with (off + n) by (unfold u32; rewrite Z.mod_small; lia).
  rewrite (proj2 (Z.ltb_ge (off + n) off)) by lia. rewrite orb_false_r. destruct (Z.ltb_spec (i_size x) off) as [H | H].
  { apply t_ret. auto. }
  assert (Hmax : MAXFILE * BSIZE < 2^31) by done.
  replace (if i_size x <? off + n then i_size x - off else n) with (Z.min n (i_size x - off)) by (destruct (Z.ltb_spec (i_size x) (off + n)); lia).
  set (n' := Z.min n (i_size x - off)). eapply t_bind.
  { apply (t_readi_loop v bl ino ip x n' Hx Hip Hr ltac:(lia) (S (Z.to_nat MAXFILE))); try (unfold RWLOOP; lia); [unfold n'; lia.. |].
    intros _. apply loop_blocks; unfold n'; lia. }
  intros r. apply t_pure. intros ->. apply t_ret. intros s Hss. split; [| done]. cbn [fst snd]. rewrite Z.sub_0_r.
  f_equal. apply i32_small. unfold n'. lia.
Qed.

(** ** writei *)

(** Block [bn] of the file is overwritten. *)
Lemma grow_write v x bn y : dwf v -> iwf v x -> in_file bn -> fblk v x bn <> 0 -> length y = bsize ->
  fgrow v x (set_at (fblk v x bn) y v) x /\
  (forall o, 0 <= o < MAXFILE * BSIZE -> fbyte (set_at (fblk v x bn) y v) x o =
     if o / BSIZE =? bn then default 0 (y !! Z.to_nat (o mod BSIZE)) else fbyte v x o) /\
  frees (set_at (fblk v x bn) y v) = frees v /\ (forall i, in_file i -> fblk (set_at (fblk v x bn) y v) x i = fblk v x i).
Proof.
  intros Hd Hx Hbn Hn Hy. destruct (iw_blk _ _ _ Hx bn Hbn Hn) as [Ha Hu]. destruct (data_pos start nlog sb _ Ha) as (_ & Hb & _).
  pose proof (iw_ind_ne _ _ _ Hx bn Hbn Hn) as Hi. set (v' := set_at (fblk v x bn) y v).
  assert (Hblk : forall i, fblk v' x i = fblk v x i).
  { intros i. unfold fblk at 1. unfold v'. rewrite set_at_ne by done. done. }
  assert (Hused : forall b, used v' b = used v b) by (intros b; unfold FsBlocks.used, v'; by rewrite set_at_ne by done).
  split_and!; [split | | |]; try done.
  - by apply dwf_set.
  - destruct Hx as [I1 I2 I3 I4 I5 I6]. split; [done | done | ..].
    + intros i Hi'. rewrite Hblk, Hused. auto.
    + rewrite Hused. auto.
    + intros i j Hfi Hfj. rewrite !Hblk. auto.
    + intros i Hfi. rewrite Hblk. auto.
  - by destruct x.
  - intros b _. by rewrite Hused.
  - by left.
  - intros i Hfi E. left. by rewrite Hblk.
  - intros c _ _ _ _ Hc. apply set_at_ne. intros ->. by apply (Hc bn).
  - intros o Ho. unfold fbyte. rewrite Hblk. pose proof (in_block o Ho) as Hfo. destruct (Z.eqb_spec (o / BSIZE) bn) as [-> | Hne].
    + rewrite (proj2 (Z.eqb_neq _ _) Hn). unfold v'. by rewrite set_at_eq.
    + destruct (Z.eqb_spec (fblk v x (o / BSIZE)) 0) as [| Hno]; [done |]. unfold v'.
      rewrite set_at_ne; [done |]. by apply (iw_inj _ _ _ Hx).
  - unfold FsBlocks.frees. apply filter_ext_in. intros b _. by rewrite Hused.
Qed.

(** The file after the bytes [bs] have been written at [off]. *)
Record written (v : Z -> list Z) (x : inode) (off : Z) (bs : list Z) (v' : Z -> list Z) (x' : inode) : Prop := {
  wr_grow : fgrow v x v' x';
  wr_bytes : forall o, 0 <= o < MAXFILE * BSIZE ->
    fbyte v' x' o = if decide (off <= o < off + Z.of_nat (length bs)) then default 0 (bs !! Z.to_nat (o - off)) else fbyte v x o;
  wr_blocks : forall o, off <= o < off + Z.of_nat (length bs) -> fblk v' x' (o / BSIZE) <> 0 }.

Lemma written_nil v x off : dwf v -> iwf v x -> written v x off [] v x.
Proof.
  intros Hd Hx. split; [by apply fgrow_refl | |]; intros o Ho; cbn [length] in *; [| lia]. rewrite decide_False by lia. done.
Qed.

Lemma written_app v x off bs1 v1 x1 bs2 v2 x2 : iwf v x -> 0 <= off -> off + Z.of_nat (length bs1 + length bs2) <= MAXFILE * BSIZE ->
  written v x off bs1 v1 x1 -> written v1 x1 (off + Z.of_nat (length bs1)) bs2 v2 x2 -> written v x off (bs1 ++ bs2) v2 x2.
Proof.
  intros Hx Hoff Hmax [A1 A2 A3] [B1 B2 B3]. split.
  - by eapply (fgrow_trans start nlog).
  - intros o Ho. rewrite length_app, B2, A2 by done. repeat case_decide; try lia; try done.
    + rewrite lookup_app_r by lia. do 2 f_equal. lia.
    + rewrite lookup_app_l by lia. done.
  - intros o Ho. rewrite length_app in Ho.
    destruct (decide (off + Z.of_nat (length bs1) <= o)) as [H | H]; [apply B3; lia |].
    rewrite (fg_blk _ _ _ _ _ B1); [apply A3; lia | apply in_block; lia | apply A3; lia].
Qed.

Lemma written_block v x off bs v1 x1 : dwf v1 -> iwf v1 x1 -> fgrow v x v1 x1 -> same_bytes v x v1 x1 -> iwf v x ->
  0 <= off -> off + Z.of_nat (length bs) <= MAXFILE * BSIZE -> (0 < length bs)%nat ->
  Z.of_nat (length bs) <= BSIZE - off mod BSIZE -> fblk v1 x1 (off / BSIZE) <> 0 ->
  written v x off bs (set_at (fblk v1 x1 (off / BSIZE)) (splice (Z.to_nat (off mod BSIZE)) bs (v1 (fblk v1 x1 (off / BSIZE)))) v1) x1.
Proof.
  intros Hd Hx1 Hg Hsame Hx Hoff Hmax Hpos Hm Hn. pose proof (Z.mod_pos_bound off BSIZE ltac:(done)) as Hb.
  pose proof (in_block off ltac:(lia)) as Hf. destruct (iw_blk _ _ _ Hx1 _ Hf Hn) as [Hda _].
  pose proof (proj1 (home_data start nlog sb _ Hda)) as Hr. pose proof (dw_len _ _ Hd _ Hr) as Hlen.
  set (y := splice _ bs _). assert (Hy : length y = bsize) by (unfold y; by rewrite length_splice).
  destruct (grow_write v1 x1 (off / BSIZE) y Hd Hx1 Hf Hn Hy) as (G1 & G2 & G3 & G4). split.
  - by eapply (fgrow_trans start nlog).
  - intros o Ho. rewrite G2 by done. rewrite <- (Hsame o Ho). destruct (Z.eqb_spec (o / BSIZE) (off / BSIZE)) as [E | E].
    + unfold fbyte. rewrite E, (proj2 (Z.eqb_neq _ _) Hn). unfold y.
      pose proof (Z.mod_pos_bound o BSIZE ltac:(done)). pose proof (Z.div_mod o BSIZE ltac:(done)). pose proof (Z.div_mod off BSIZE ltac:(done)).
      rewrite lookup_splice by (rewrite Hlen; unfold BSIZE in *; lia). rewrite E in *. repeat case_decide; try lia.
      do 2 f_equal. lia.
    + rewrite decide_False; [done |]. intros Ho'. apply E. replace o with (off + (o - off)) by lia. apply block_offset. lia.
  - intros o Ho. replace o with (off + (o - off)) by lia. destruct (block_offset off (o - off)) as [-> _]; [lia |]. by rewrite G4.
Qed.

Context `{OUT : !intx s0}.

(** One round of the loop of [writei], before the rest [K]. *)
Lemma t_write_block v bl ino ip x off src bs m (z : M kern (Z * Z)) (f : nat -> M kern (Z * Z)) K Q :
  dwf v -> iwf v x -> ino !! ip = Some x -> budget 5 ∅ bl -> (1 + need x <= length (frees v))%nat ->
  0 <= off -> off + m <= MAXFILE * BSIZE -> 0 < m <= BSIZE - off mod BSIZE -> (Z.to_nat m <= length bs)%nat ->
  supplies me s0 src bs ->
  (forall v' x' bl', written v x off (take (Z.to_nat m) bs) v' x' -> (wt bl' <= wt bl + 2)%nat ->
     (length (frees v) + need x' <= length (frees v') + 1 + need x)%nat -> triple (fs v' ∅ bl' (<[ip := x']> ino)) K Q) ->
  triple (fs v ∅ bl ino)
    (let* addr := bmap ip (off / BSIZE) in
     if addr =? 0 then z else
     let* x := geti ip in
     let* bp := bread (i_dev x) addr in
     let* r := lk_ (either_copyin src m) in
     upd_data bp (splice (Z.to_nat (off mod BSIZE)) r.2) ;;;
     if r.1 =? -1 then f bp else
     log_write bp ;;;
     brelse bp ;;;
     K) Q.
Proof.
  intros Hd Hx Hip Hb Hfree Ho He Hm Hl Hsrc HK. pose proof (in_block off ltac:(lia)) as Hin.
  eapply t_bind; [by apply (t_bmap start nlog me s0 sb v bl ino ip x) |].
  intros a. apply t_ex; intros v1. apply t_ex; intros x1. apply t_ex; intros bl1. apply t_pure.
  intros [P1 P2 P3 P4 P5 P6 P7 P8 P9]. rewrite (proj2 (Z.eqb_neq _ _) P4). subst a.
  assert (Hip1 : <[ip := x1]> ino !! ip = Some x1) by (apply list_lookup_insert_eq; by eapply lookup_lt_Some).
  eapply t_geti; [exact Hip1 |]. pose proof (fg_iwf _ _ _ _ _ P1) as Hx1. pose proof (fg_dwf _ _ _ _ _ P1) as Hd1.
  rewrite (iw_dev _ _ _ Hx1). destruct (iw_blk _ _ _ Hx1 _ Hin P4) as [Hda _]. pose proof (home_data start nlog sb _ Hda) as Hh.
  set (a := fblk v1 x1 (off / BSIZE)) in *.
  assert (Hb1 : budget 3 ∅ bl1) by (eapply (budget_wt nlog sb 5 3 2); [done | lia | lia]).
  eapply t_bind; [apply (t_bread start nlog); [apply Hh | done | by eapply space_room, (budget_space nlog sb)] |]. intros i.
  apply t_pure. intros _. eapply t_bind; [apply (t_copyin start nlog me s0 sb _ _ _ _ src bs); [done | lia] |]. intros r. apply t_pure. intros ->. cbn [fst snd].
  eapply t_bind; [eapply (t_upd_data start nlog); [apply lookup_insert_eq |] |].
  { rewrite length_splice. apply (dw_len _ _ Hd1), Hh. }
  intros []. change (0 =? -1) with false. cbn iota.
  eapply t_bind; [eapply (t_log_write start nlog me s0 sb); [apply lookup_insert_eq | done |] |].
  { apply space_hold. eapply space_le; [by apply (budget_space nlog sb) | lia]. }
  intros []. eapply t_bind; [eapply (t_brelse start nlog); [apply lookup_insert_eq | left; apply elem_logged; by left] |]. intros [].
  rewrite delete_insert_id by done. assert (Hlt : length (take (Z.to_nat m) bs) = Z.to_nat m) by (rewrite length_take; lia).
  apply HK.
  - apply written_block; try done; rewrite Hlt; lia.
  - destruct (decide (fblk v x (off / BSIZE) = 0)) as [E | E]; [by rewrite (wt_absorb _ _ (P9 E)) |].
    destruct (P8 E) as (_ & _ & ->). pose proof (wt_logged sb a bl). lia.
  - destruct (grow_write v1 x1 (off / BSIZE) (splice (Z.to_nat (off mod BSIZE)) (take (Z.to_nat m) bs) (v1 a)) Hd1 Hx1 Hin P4) as (_ & _ & Ef & _).
    + rewrite length_splice. apply (dw_len _ _ Hd1), Hh.
    + fold a in Ef. by rewrite Ef.
Qed.

Lemma t_writei_loop n : forall k fuel v bl ino ip x off src bs tot,
  (k < fuel)%nat -> dwf v -> iwf v x -> ino !! ip = Some x -> budget (2 * k + 3) ∅ bl -> (k + need x <= length (frees v))%nat ->
  0 <= off -> 0 <= tot <= n -> Z.of_nat (length bs) = n - tot -> off + (n - tot) <= MAXFILE * BSIZE ->
  (tot < n -> off + (n - tot) <= (off / BSIZE + Z.of_nat k) * BSIZE) -> supplies me s0 src bs ->
  {{ fs v ∅ bl ino }} writei_loop fuel ip src off n tot
  {{ r, fun s => exists v' x' bl', (r = (n, off + (n - tot)) /\ written v x off bs v' x' /\ (wt bl' <= wt bl + 2 * k)%nat /\
         (length (frees v) + need x' <= length (frees v') + k + need x)%nat) /\
       fs v' ∅ bl' (<[ip := x']> ino) s }}.
Proof.
  induction k as [| k IH]; intros fuel v bl ino ip x off src bs tot Hf Hd Hx Hip Hb Hfree Ho Ht Hl He Hk Hsrc;
    (destruct fuel as [| fuel]; [lia |]); cbn [writei_loop].
  all: destruct (Z.ltb_spec tot n) as [Hlt | Hge].
  2, 4: replace tot with n in * by lia; apply t_ret; intros s Hs; exists v, x, bl; rewrite Z.sub_diag, Z.add_0_r in *;
    (destruct bs; [| cbn [length] in Hl; lia]); (split; [split_and!; [done | by apply written_nil | lia | lia] | by rewrite list_insert_id]).
  - exfalso. specialize (Hk Hlt). pose proof (Z.mod_pos_bound off BSIZE ltac:(done)). pose proof (Z.div_mod off BSIZE ltac:(done)). lia.
  - destruct (next_block off (n - tot) (S k) _ Ho ltac:(lia) (Hk Hlt) eq_refl) as (k' & [= <-] & Hm & Hk').
    cbv zeta. set (m := Z.min (n - tot) (BSIZE - off mod BSIZE)) in *.
    apply (t_write_block v bl ino ip x off src bs m); try done; try lia; [eapply (budget_wt nlog sb (2 * S k + 3) _ 0); [done | lia | lia] |].
    intros v1 x1 bl1 W1 Hw1 Hf1. pose proof (wr_grow _ _ _ _ _ _ W1) as G1.
    assert (Emax : MAXFILE * BSIZE < 2^32) by done.
    replace (u32 (off + m)) with (off + m) by (unfold u32; rewrite Z.mod_small; lia).
    eapply t_conseq; [apply (IH fuel v1 bl1 (<[ip := x1]> ino) ip x1 (off + m) (esrc_off src m) (drop (Z.to_nat m) bs) (tot + m)) | done |].
    + lia.
    + apply G1.
    + apply G1.
    + apply list_lookup_insert_eq. by eapply lookup_lt_Some.
    + eapply (budget_wt nlog sb (2 * S k + 3) _ 2); [done | lia | lia].
    + lia.
    + lia.
    + lia.
    + rewrite length_drop. lia.
    + lia.
    + intros H. replace (n - (tot + m)) with (n - tot - m) by lia. apply Hk'. lia.
    + apply supplies_off; [done | lia].
    + intros r s (v2 & x2 & bl2 & (-> & W2 & Hw2 & Hf2) & Hs). exists v2, x2, bl2. rewrite list_insert_insert_eq in Hs.
      split; [| done]. split_and!; [f_equal; lia | | lia | lia]. rewrite <- (take_drop (Z.to_nat m) bs).
      assert (Hlt' : length (take (Z.to_nat m) bs) = Z.to_nat m) by (rewrite length_take; lia).
      eapply written_app; try done; rewrite Hlt'; [rewrite length_drop; lia | by rewrite Z2Nat.id by lia].
Qed.

End Io.
