(* ===== verification/FsInode.v ===== *)
(** * Inodes on disk

    [iupdate] and [ilock] of kernel/fs.c: an inode that [iupdate] has written is
    the inode that [ilock] reads, and [writei] as a whole. *)

From S2P Require Import Prelude Riscv Mem Bytes StringLib Spinlock Kalloc Vm Proc ProcSpec Kctx State Sleeplock Bio BioList BioSpec BioRun RamDisk Log LogSpec BioProps LogProps LogTx Uart Printf Console Fs FsRun FsBlocks FsFile FsIo.

(** ** The dinode in its block *)

(** The fields that are on disk have the values of their C types. *)
Record ityped (x : inode) : Prop := {
  it_type : - 2^15 <= i_type x < 2^15;
  it_major : - 2^15 <= i_major x < 2^15;
  it_minor : - 2^15 <= i_minor x < 2^15;
  it_nlink : - 2^15 <= i_nlink x < 2^15;
  it_size : 0 <= i_size x < 2^32;
  it_len : length (i_addrs x) = Z.to_nat (NDIRECT + 1);
  it_addrs : Forall (fun a => 0 <= a < 2^32) (i_addrs x) }.

Lemma length_put_addrs l : forall off d, length (put_addrs off l d) = length d.
Proof. induction l as [| a l IH]; intros off d; [done |]. cbn [put_addrs]. by rewrite IH, length_put_32. Qed.

Lemma getle_put_addrs l : forall off d n o, 0 <= off -> off + 4 * Z.of_nat (length l) <= Z.of_nat (length d) ->
  (Z.of_nat (o + n) <= off \/ off + 4 * Z.of_nat (length l) <= Z.of_nat o) -> getle n o (put_addrs off l d) = getle n o d.
Proof.
  induction l as [| a l IH]; intros off d n o Ho Hl Hd; [done |]. cbn [put_addrs length] in *.
  rewrite IH by (rewrite ?length_put_32; lia). apply getle_putle_ne; lia.
Qed.

Lemma get_put_addrs l : forall off d i a, 0 <= off -> off + 4 * Z.of_nat (length l) <= Z.of_nat (length d) ->
  l !! i = Some a -> 0 <= a < 2^32 -> get_u32 (off + 4 * Z.of_nat i) (put_addrs off l d) = a.
Proof.
  induction l as [| b l IH]; intros off d i a Ho Hl Hi Ha; [done |]. cbn [put_addrs length] in *. destruct i as [| i].
  - injection Hi as ->. unfold get_u32. rewrite Z.mul_0_r, Z.add_0_r, getle_put_addrs by (rewrite ?length_put_32; lia).
    unfold put_32. rewrite getle_putle_eq by lia. by apply Z.mod_small.
  - rewrite <- (IH (off + 4) (put_32 off b d) i a) by (rewrite ?length_put_32; done || lia). f_equal. lia.
Qed.

Lemma length_put_dinode off x d : length (put_dinode off x d) = length d.
Proof. unfold put_dinode, put_32, put_16. by rewrite length_put_addrs, !length_putle. Qed.

(** Bytes outside the 64 of the dinode are kept. *)
Lemma getle_put_dinode off x d n o : 0 <= off -> off + dinode_size <= Z.of_nat (length d) -> length (i_addrs x) = Z.to_nat (NDIRECT + 1) ->
  (Z.of_nat (o + n) <= off \/ off + dinode_size <= Z.of_nat o) -> getle n o (put_dinode off x d) = getle n o d.
Proof.
  intros Ho Hl Hx Hd. unfold put_dinode, dinode_size, DI_type, DI_major, DI_minor, DI_nlink, DI_size, DI_addrs in *.
  change (Z.to_nat (NDIRECT + 1)) with 13%nat in Hx. rewrite getle_put_addrs by (rewrite ?Hx; unfold put_16, put_32; rewrite ?length_putle; lia).
  unfold put_16, put_32. rewrite !getle_putle_ne by (rewrite ?length_putle; lia). done.
Qed.

Lemma i16_wrap x : - 2^15 <= x < 2^15 -> i16 (x mod 2^16) = x.
Proof. intros H. unfold i16. rewrite Zplus_mod_idemp_l, Z.mod_small; lia. Qed.

(** [y] with the fields of [x] that are on disk. *)
Definition with_disk (x y : inode) : inode :=
  set_i_addrs (i_addrs x) (set_i_size (i_size x) (set_i_nlink (i_nlink x)
    (set_i_minor (i_minor x) (set_i_major (i_major x) (set_i_type (i_type x) y))))).

Ltac dinode_field :=
  unfold get_i16, get_u32, put_dinode, put_16, put_32, DI_type, DI_major, DI_minor, DI_nlink, DI_size, DI_addrs;
  rewrite getle_put_addrs by (rewrite ?length_putle; lia);
  repeat (rewrite getle_putle_ne by (rewrite ?length_putle; lia));
  rewrite getle_putle_eq by (rewrite ?length_putle; lia).

(** What [iupdate] stores is what [ilock] loads. *)
Lemma get_put_dinode off x d y : 0 <= off -> off + dinode_size <= Z.of_nat (length d) -> ityped x ->
  get_dinode off (put_dinode off x d) y = with_disk x y.
Proof.
  intros Ho Hl [T1 T2 T3 T4 T5 T6 T7]. change (Z.to_nat (NDIRECT + 1)) with 13%nat in T6. unfold dinode_size in Hl.
  unfold get_dinode, with_disk.
  replace (get_i16 (off + DI_type) (put_dinode off x d)) with (i_type x) by (symmetry; dinode_field; by apply i16_wrap).
  replace (get_i16 (off + DI_major) (put_dinode off x d)) with (i_major x) by (symmetry; dinode_field; by apply i16_wrap).
  replace (get_i16 (off + DI_minor) (put_dinode off x d)) with (i_minor x) by (symmetry; dinode_field; by apply i16_wrap).
  replace (get_i16 (off + DI_nlink) (put_dinode off x d)) with (i_nlink x) by (symmetry; dinode_field; by apply i16_wrap).
  replace (get_u32 (off + DI_size) (put_dinode off x d)) with (i_size x) by (symmetry; dinode_field; by apply Z.mod_small).
  f_equal. apply list_eq. intros i. rewrite list_lookup_fmap. change (NDIRECT + 1) with 13.
  destruct (decide (i < 13)%nat) as [Hi | Hi].
  - rewrite lookup_seqZ_lt by lia. destruct (lookup_lt_is_Some_2 (i_addrs x) i) as [a Ha]; [lia |]. rewrite Ha. cbn. f_equal.
    rewrite Forall_forall in T7. unfold put_dinode, DI_addrs. rewrite Z.mul_0_r, Z.add_0_l.
    replace (off + (12 + 4 * Z.of_nat i)) with (off + (12 + 0) + 4 * Z.of_nat i) by lia.
    apply get_put_addrs; [lia | | done | by apply T7; eapply list_elem_of_lookup_2]. unfold put_32, put_16. rewrite !length_putle. lia.
  - rewrite lookup_seqZ_ge, (lookup_ge_None_2 (i_addrs x)) by lia. done.
Qed.

(** The dinode of another inode in the same block is not touched. *)
Lemma get_put_dinode_ne i j x d y : length d = Z.to_nat BSIZE -> 0 <= i -> 0 <= j -> i mod IPB <> j mod IPB ->
  length (i_addrs x) = Z.to_nat (NDIRECT + 1) ->
  get_dinode (dinode_off j) (put_dinode (dinode_off i) x d) y = get_dinode (dinode_off j) d y.
Proof.
  intros Hd Hi Hj Hij Hx. unfold dinode_off. change IPB with 16 in *.
  pose proof (Z.mod_pos_bound i 16 ltac:(done)). pose proof (Z.mod_pos_bound j 16 ltac:(done)).
  assert (G : forall n o, 0 <= o -> o + Z.of_nat n <= dinode_size ->
    getle n (Z.to_nat (j mod 16 * dinode_size + o)) (put_dinode (i mod 16 * dinode_size) x d) =
    getle n (Z.to_nat (j mod 16 * dinode_size + o)) d).
  { intros n o Ho Hn. unfold dinode_size in *. apply getle_put_dinode; [lia | rewrite Hd; unfold dinode_size; change (Z.to_nat BSIZE) with 1024%nat; lia | done |].
    unfold dinode_size. lia. }
  unfold get_dinode, get_i16, get_u32, DI_type, DI_major, DI_minor, DI_nlink, DI_size. rewrite !G by done. f_equal.
  apply list_fmap_ext. intros k o Ho. apply lookup_seqZ in Ho as [-> Ho]. unfold DI_addrs. change (NDIRECT + 1) with 13 in Ho.
  apply G; unfold dinode_size; lia.
Qed.

Section Inode.
Context (start nlog : Z) `{PF : Platform} `{PA : Patience} `{BD : !BlockDev} `{BO : !BlockDevOk BD} `{LY : !layout start nlog}.
Context (me : nat) (s0 : kern) (sb : superblock) `{FL : !fslayout start nlog sb}.
Abbreviation home := (home start nlog).
Abbreviation fs := (fs start nlog me s0 sb).
Abbreviation bm := (sb_bmapstart sb).
Abbreviation bsize := (Z.to_nat BSIZE).
Abbreviation is_data := (is_data sb).
Abbreviation used := (used sb).
Abbreviation frees := (frees sb).
Abbreviation dwf := (dwf sb).
Abbreviation iwf := (iwf sb).
Abbreviation fgrow := (fgrow sb).
Abbreviation wt := (wt sb).
Abbreviation budget := (budget nlog sb).
Abbreviation fok := (fok sb).
Abbreviation written := (written sb).

(** An inode number of the file system. *)
Definition inum_ok (i : Z) : Prop := 0 <= i < sb_ninodes sb.

Lemma IBLOCK_range i : inum_ok i -> IBLOCK i sb = i / IPB + sb_inodestart sb /\ start + nlog <= IBLOCK i sb < bm.
Proof.
  intros [H1 H2]. pose proof (fl_log start nlog (sb := sb)). pose proof (fl_inodes start nlog (sb := sb)).
  pose proof (fl_data start nlog (sb := sb)). pose proof (fl_size start nlog (sb := sb)). pose proof (ly_nb start nlog).
  pose proof (ly_start start nlog). pose proof (ly_size start nlog).
  assert (0 <= i / IPB <= sb_ninodes sb / IPB) by (split; [apply Z.div_pos; [lia | done] | apply Z.div_le_mono; [done | lia]]).
  unfold IBLOCK, u32. rewrite Z.mod_small by lia. lia.
Qed.

Lemma home_inode i : inum_ok i -> home (IBLOCK i sb).
Proof. intros [_ H]%IBLOCK_range. apply (home_above start nlog sb); [lia |]. pose proof (fl_data start nlog (sb := sb)). lia. Qed.

(** The disk after [iupdate]. *)
Definition put_inode (x : inode) (v : Z -> list Z) : Z -> list Z :=
  set_at (IBLOCK (i_inum x) sb) (put_dinode (dinode_off (i_inum x)) x (v (IBLOCK (i_inum x) sb))) v.
(** The inode that [ilock] reads into [y]. *)
Definition get_inode (v : Z -> list Z) (y : inode) : inode :=
  get_dinode (dinode_off (i_inum y)) (v (IBLOCK (i_inum y) sb)) y.

Lemma dinode_off_range i : 0 <= dinode_off i /\ dinode_off i + dinode_size <= BSIZE.
Proof. unfold dinode_off. pose proof (Z.mod_pos_bound i IPB ltac:(done)). change IPB with 16 in *. unfold dinode_size, BSIZE. lia. Qed.

Lemma get_put_inode_eq x y v : (forall b, 0 <= b < nblocks -> length (v b) = bsize) -> inum_ok (i_inum x) -> ityped x ->
  i_inum y = i_inum x -> get_inode (put_inode x v) y = with_disk x y.
Proof.
  intros Hl Hx Ht E. pose proof (Hl _ (proj1 (home_inode _ Hx))) as Hlen. unfold get_inode, put_inode.
  rewrite E, set_at_eq. destruct (dinode_off_range (i_inum x)). apply get_put_dinode; [done | | done]. rewrite Hlen. lia.
Qed.

Lemma get_put_inode_ne x y v : (forall b, 0 <= b < nblocks -> length (v b) = bsize) -> inum_ok (i_inum x) -> inum_ok (i_inum y) ->
  length (i_addrs x) = Z.to_nat (NDIRECT + 1) -> i_inum y <> i_inum x -> get_inode (put_inode x v) y = get_inode v y.
Proof.
  intros Hl Hx Hy Ha E. pose proof (Hl _ (proj1 (home_inode _ Hx))) as Hlen. unfold get_inode, put_inode.
  destruct (decide (IBLOCK (i_inum y) sb = IBLOCK (i_inum x) sb)) as [Eb | Eb]; [| by rewrite set_at_ne].
  rewrite Eb, set_at_eq. apply get_put_dinode_ne; try apply Hx; try apply Hy; [done | | done].
  intros Em. apply E. destruct (IBLOCK_range _ Hx) as [Ex _], (IBLOCK_range _ Hy) as [Ey _].
  rewrite (Z.div_mod (i_inum x) IPB), (Z.div_mod (i_inum y) IPB) by done. rewrite Em. f_equal. f_equal. lia.
Qed.

(** ** Locking an inode *)

Definition pid0 : Z := p_pid (proc_at (kn_k s0) me).
(** The lock of an inode held by the process, and free. *)
Definition held (x : inode) : inode := set_i_lock (mkSleeplock 1 (sk_name (i_lock x)) pid0) x.
Definition unheld (x : inode) : inode := set_i_lock (mkSleeplock 0 (sk_name (i_lock x)) 0) x.

Lemma fs_pid v h bl ino s : fs v h bl ino s -> p_pid (proc_at (kn_k s) me) = pid0.
Proof. intros Hs. apply pid_frame, (f_k _ _ _ _ _ _ _ _ _ _ Hs). Qed.

Lemma fs_inodes v h bl ino s ino' k' : fs v h bl ino s -> kctx me k' -> kframe (kn_k s) k' ->
  fs v h bl ino' (set_kn_k k' (set_kn_inodes ino' s)).
Proof.
  intros Hs Hk HF. assert (H1 : fs v h bl ino' (set_kn_inodes ino' s)); [| by apply fs_k].
  destruct Hs as [[[B1 B2 B3 B4] L1 L2 L3] T3 T4 T5 T6 T7 T8 T9]. split; try done. split; try done. split; try done.
  by eapply disk_ok_same.
Qed.

Lemma t_acquiresleep v h bl ino ip x : ino !! ip = Some x -> (ip < NINODE)%nat -> sk_locked (i_lock x) = 0 ->
  {{ fs v h bl ino }} acquiresleep (SInode ip) {{ _, fs v h bl (<[ip := held x]> ino) }}.
Proof.
  intros Hx Hip Hl s Hs. pose proof (bo_ctx _ _ _ _ _ (f_bio _ _ _ _ _ _ _ _ _ _ Hs)) as Hk.
  assert (Ei : inode_at s ip = x) by (unfold inode_at; by rewrite (f_ino _ _ _ _ _ _ _ _ _ _ Hs), Hx).
  eexists tt, _. split.
  - apply (acquiresleep_run me); [done | split; [done | rewrite (f_ino _ _ _ _ _ _ _ _ _ _ Hs); by eapply lookup_lt_Some] |].
    cbn [sl_get]. by rewrite Ei.
  - cbn [sl_set sl_get]. rewrite Ei, (fs_pid _ _ _ _ _ Hs), (f_ino _ _ _ _ _ _ _ _ _ _ Hs).
    apply (fs_inodes v h bl ino); [done | by apply kctx_cyc | apply kframe_cyc].
Qed.

Lemma t_releasesleep v h bl ino ip x : ino !! ip = Some x -> (ip < NINODE)%nat ->
  {{ fs v h bl ino }} releasesleep (SInode ip) {{ _, fs v h bl (<[ip := unheld x]> ino) }}.
Proof.
  intros Hx Hip s Hs. pose proof (bo_ctx _ _ _ _ _ (f_bio _ _ _ _ _ _ _ _ _ _ Hs)) as Hk.
  assert (Ei : inode_at s ip = x) by (unfold inode_at; by rewrite (f_ino _ _ _ _ _ _ _ _ _ _ Hs), Hx).
  eexists tt, _. split.
  - apply (releasesleep_run me); [done | split; [done | rewrite (f_ino _ _ _ _ _ _ _ _ _ _ Hs); by eapply lookup_lt_Some]].
  - cbn [sl_set sl_get]. rewrite Ei, (f_ino _ _ _ _ _ _ _ _ _ _ Hs).
    apply (fs_inodes v h bl ino); [done | by apply kctx_cyc, kctx_wake |].
    eapply kframe_trans; [apply Hk | apply kframe_wake | apply kframe_cyc].
Qed.

Lemma t_holdingsleep v h bl ino ip x : ino !! ip = Some (held x) -> (ip < NINODE)%nat ->
  {{ fs v h bl ino }} holdingsleep (SInode ip) {{ r, fun s => r = true /\ fs v h bl ino s }}.
Proof.
  intros Hx Hip s Hs. pose proof (bo_ctx _ _ _ _ _ (f_bio _ _ _ _ _ _ _ _ _ _ Hs)) as Hk.
  assert (Ei : inode_at s ip = held x) by (unfold inode_at; by rewrite (f_ino _ _ _ _ _ _ _ _ _ _ Hs), Hx).
  eexists _, _. split.
  - apply (holdingsleep_run me); [done | split; [done | rewrite (f_ino _ _ _ _ _ _ _ _ _ _ Hs); by eapply lookup_lt_Some]].
  - cbn [sl_get]. rewrite Ei, (fs_pid _ _ _ _ _ Hs). cbn. rewrite Z.eqb_refl. split; [done |].
    apply fs_k; [done | by apply kctx_cyc | apply kframe_cyc].
Qed.

(** The inode that [ilock] leaves: read from the disk if it was not valid. *)
Definition locked_inode (v : Z -> list Z) (x : inode) : inode :=
  if i_valid x =? 0 then set_i_valid 1 (get_inode v (held x)) else held x.

Lemma t_ilock v bl ino ip x : ino !! ip = Some x -> (ip < NINODE)%nat -> sk_locked (i_lock x) = 0 -> 1 <= i_ref x ->
  i_dev x = ROOTDEV -> inum_ok (i_inum x) -> (i_valid x = 0 -> i_type (get_inode v x) <> 0) -> room ∅ bl ->
  {{ fs v ∅ bl ino }} ilock (Some ip) {{ _, fs v ∅ bl (<[ip := locked_inode v x]> ino) }}.
Proof.
  intros Hx Hip Hl Hr Hdev Hin Ht Hroom. unfold ilock. eapply t_geti; [exact Hx |]. rewrite (proj2 (Z.ltb_ge _ _)) by lia.
  eapply t_bind; [by apply t_acquiresleep |]. intros []. pose proof (lookup_lt_Some _ _ _ Hx) as Hlt.
  assert (Hx1 : <[ip := held x]> ino !! ip = Some (held x)) by (by apply list_lookup_insert_eq).
  eapply t_geti; [exact Hx1 |]. unfold locked_inode. change (i_valid (held x)) with (i_valid x).
  change (i_dev (held x)) with (i_dev x). change (i_inum (held x)) with (i_inum x).
  destruct (Z.eqb_spec (i_valid x) 0) as [Ev | Ev]; cbn [when]; [| by apply t_ret].
  apply t_getsb. rewrite Hdev. pose proof (home_inode _ Hin) as Hh.
  eapply t_bind; [apply (t_bread start nlog); [apply Hh | done | done] |]. intros i. apply t_pure. intros Hc.
  eapply t_data; [apply lookup_insert_eq |].
  eapply t_bind; [by apply t_upd_inode |]. intros [].
  eapply t_bind; [eapply (t_brelse start nlog); [apply lookup_insert_eq | done] |]. intros []. rewrite delete_insert_id by done.
  rewrite list_insert_insert_eq. set (x2 := get_dinode _ _ (held x)).
  assert (Hx2 : <[ip := x2]> ino !! ip = Some x2) by (by apply list_lookup_insert_eq).
  eapply t_bind; [by apply t_upd_inode |]. intros []. rewrite list_insert_insert_eq.
  eapply t_geti; [by apply list_lookup_insert_eq |]. rewrite (proj2 (Z.eqb_neq _ _)); [by apply t_ret |].
  intros E. by apply (Ht Ev).
Qed.

Lemma t_iunlock v h bl ino ip x : ino !! ip = Some (held x) -> (ip < NINODE)%nat -> 1 <= i_ref x ->
  {{ fs v h bl ino }} iunlock (Some ip) {{ _, fs v h bl (<[ip := unheld x]> ino) }}.
Proof.
  intros Hx Hip Hr. unfold iunlock. eapply t_bind; [by eapply t_holdingsleep |]. intros r. apply t_pure. intros ->. cbn [negb].
  eapply t_geti; [exact Hx |]. change (i_ref (held x)) with (i_ref x). rewrite (proj2 (Z.ltb_ge _ _)) by lia.
  eapply t_conseq; [by apply (t_releasesleep v h bl ino ip (held x)) | done | done].
Qed.

(** ** Changes of other blocks *)

(** A block below the bitmap belongs to no file. *)
Lemma below_keeps v x c y : iwf v x -> c < bm -> length y = bsize -> dwf v ->
  dwf (set_at c y v) /\ iwf (set_at c y v) x /\ (forall bn, fblk (set_at c y v) x bn = fblk v x bn) /\
  same_bytes v x (set_at c y v) x /\ frees (set_at c y v) = frees v.
Proof.
  intros Hx Hc Hy Hd. set (v' := set_at c y v).
  assert (Hk : forall b, is_data b -> v' b = v b) by (intros b [Hb _]; apply set_at_ne; lia).
  assert (Hu : forall b, used v' b = used v b) by (intros b; unfold FsBlocks.used, v'; by rewrite set_at_ne by lia).
  assert (Hb : forall bn, fblk v' x bn = fblk v x bn).
  { intros bn. unfold fblk. destruct (Z.ltb_spec bn NDIRECT); [done |]. destruct (Z.eqb_spec (addr x NDIRECT) 0) as [| Hn]; [done |].
    by rewrite Hk by apply (iw_ind _ _ _ Hx Hn). }
  split_and!; [| | done | |].
  - apply dwf_set; [done | lia | done].
  - destruct Hx as [I1 I2 I3 I4 I5 I6]. split; [done | done | ..].
    + intros i Hi. rewrite Hb, Hu. auto.
    + rewrite Hu. auto.
    + intros i j Hi Hj. rewrite !Hb. auto.
    + intros i Hi. rewrite Hb. auto.
  - intros o Ho. unfold fbyte. rewrite Hb. destruct (Z.eqb_spec (fblk v x (o / BSIZE)) 0) as [| Hn]; [done |].
    rewrite Hk; [done |]. apply (iw_blk _ _ _ Hx _ (in_block o Ho) Hn).
  - unfold FsBlocks.frees. apply filter_ext_in. intros b _. by rewrite Hu.
Qed.

Lemma put_inode_keeps v x z : iwf v x -> dwf v -> inum_ok (i_inum z) ->
  dwf (put_inode z v) /\ iwf (put_inode z v) x /\ (forall bn, fblk (put_inode z v) x bn = fblk v x bn) /\
  same_bytes v x (put_inode z v) x /\ frees (put_inode z v) = frees v.
Proof.
  intros Hx Hd Hz. destruct (IBLOCK_range _ Hz) as [_ Hr]. apply below_keeps; [done | lia | | done].
  rewrite length_put_dinode. apply (dw_len _ _ Hd), (home_inode _ Hz).
Qed.

Lemma set_size_keeps v x n : iwf v x -> iwf v (set_i_size n x) /\ (forall bn, fblk v (set_i_size n x) bn = fblk v x bn) /\
  same_bytes v x v (set_i_size n x).
Proof. intros [I1 I2 I3 I4 I5 I6]. split_and!; [by split | done | done]. Qed.

(** ** iupdate and writei *)

Context `{OUT : !intx s0}.

Lemma t_iupdate v h bl ino ip x : ino !! ip = Some x -> i_dev x = ROOTDEV -> inum_ok (i_inum x) ->
  h !! IBLOCK (i_inum x) sb = None -> space nlog 2 h bl -> length (v (IBLOCK (i_inum x) sb)) = bsize ->
  {{ fs v h bl ino }} iupdate ip {{ _, fs (put_inode x v) h (logged (IBLOCK (i_inum x) sb) bl) ino }}.
Proof.
  intros Hx Hdev Hin Hh Hsp Hl. unfold iupdate. eapply t_geti; [exact Hx |]. apply t_getsb. rewrite Hdev.
  apply (t_modify start nlog me s0 sb); try done; [by apply home_inode | by rewrite length_put_dinode].
Qed.

(** [c] is a block of the file [x]. *)
Definition owns (v : Z -> list Z) (x : inode) (c : Z) : Prop :=
  c <> 0 /\ (addr x NDIRECT = c \/ exists bn, in_file bn /\ fblk v x bn = c).

Lemma owns_data v x c : iwf v x -> owns v x c -> is_data c /\ used v c = true.
Proof. intros Hx [Hc [<- | (bn & Hbn & <-)]]; [by apply Hx | by apply (iw_blk _ _ _ Hx)]. Qed.

(** The file [x] with the bytes [bs] written at [off]; other files are as before. *)
Record wrote (v : Z -> list Z) (x : inode) (off : Z) (bs : list Z) (v' : Z -> list Z) (x' : inode) : Prop := {
  wo_dwf : dwf v';
  wo_fok : fok v' x';
  wo_inum : i_inum x' = i_inum x;
  wo_size : i_size x' = Z.max (i_size x) (off + Z.of_nat (length bs));
  wo_bytes : forall o, 0 <= o < MAXFILE * BSIZE ->
    fbyte v' x' o = if decide (off <= o < off + Z.of_nat (length bs)) then default 0 (bs !! Z.to_nat (o - off)) else fbyte v x o;
  wo_meta : x' = set_i_size (i_size x') (set_i_addrs (i_addrs x') x);
  wo_used : forall b, 0 <= b -> used v b = true -> used v' b = true;
  wo_new : forall c, owns v' x' c -> owns v x c \/ used v c = false;
  wo_frame : forall c, is_data c -> used v c = true -> ~ owns v x c -> v' c = v c;
  wo_ino : forall y, inum_ok (i_inum y) -> i_inum y <> i_inum x -> get_inode v' y = get_inode v y;
  wo_sync : ityped x -> ityped x' /\ get_inode v' x' = x' }.

(** The blocks of an inode fit their C type. *)
Lemma iwf_ityped v x y : iwf v y -> ityped x -> 0 <= i_size y <= MAXFILE * BSIZE -> y = set_i_size (i_size y) (set_i_addrs (i_addrs y) x) ->
  ityped y.
Proof.
  intros Hy [T1 T2 T3 T4 T5 T6 T7] Hs E. assert (Emax : MAXFILE * BSIZE < 2^32) by done.
  split; try (by rewrite E); [lia | apply Hy |]. apply Forall_lookup. intros i a Ha.
  assert (Hi : (i < 13)%nat) by (pose proof (lookup_lt_Some _ _ _ Ha) as H; rewrite (iw_len _ _ _ Hy) in H; exact H).
  assert (Ea : addr y (Z.of_nat i) = a) by (unfold addr; by rewrite Nat2Z.id, Ha). clear E Ha.
  destruct (decide (a = 0)) as [-> | Hn]; [done |]. assert (Hd : is_data a).
  { destruct (decide (i = 12%nat)) as [-> | Hne]; [rewrite <- Ea; apply (iw_ind _ _ _ Hy); change NDIRECT with (Z.of_nat 12); congruence |].
    assert (Ef : fblk v y (Z.of_nat i) = a) by (unfold fblk; rewrite (proj2 (Z.ltb_lt _ _)); [done | unfold NDIRECT; lia]).
    rewrite <- Ef. apply (iw_blk _ _ _ Hy); [unfold in_file; change MAXFILE with 268; lia | congruence]. }
  destruct (home_data start nlog sb a Hd) as [Hr _]. pose proof (ly_nb start nlog). lia.
Qed.

Lemma with_disk_self x : with_disk x x = x.
Proof. by destruct x. Qed.

Lemma meta_below v x c : iwf v x -> 0 < c < bm -> c <> addr x NDIRECT /\ forall bn, in_file bn -> fblk v x bn <> c.
Proof.
  intros Hx Hc. split.
  - intros E. destruct (iw_ind _ _ _ Hx) as [[H _] _]; lia.
  - intros bn Hbn E. destruct (iw_blk _ _ _ Hx bn Hbn) as [[H _] _]; lia.
Qed.

Lemma written_inode v x off bs v1 x1 i : dwf v -> iwf v x -> written v x off bs v1 x1 -> inum_ok i -> v1 (IBLOCK i sb) = v (IBLOCK i sb).
Proof.
  intros Hd Hx W Hi. destruct (IBLOCK_range _ Hi) as [_ Hr]. pose proof (ly_start start nlog). pose proof (ly_size start nlog).
  pose proof (fl_data start nlog (sb := sb)). destruct (meta_below v x (IBLOCK i sb) Hx ltac:(lia)) as [M1 M2].
  apply (fg_frame _ _ _ _ _ (wr_grow _ _ _ _ _ _ _ W)); try done; [lia | | lia]. apply (dw_meta _ _ Hd). lia.
Qed.

Lemma wrote_of_written v x off bs v1 x1 x2 : dwf v -> fok v x -> inum_ok (i_inum x) -> 0 <= off <= i_size x ->
  off + Z.of_nat (length bs) <= MAXFILE * BSIZE -> written v x off bs v1 x1 ->
  x2 = set_i_size (Z.max (i_size x) (off + Z.of_nat (length bs))) x1 -> wrote v x off bs (put_inode x2 v1) x2.
Proof.
  intros Hd [Hx Hsz Hfull] Hin Hoff Hmax W E2. pose proof W as [[G1 G2 G3 G4 G5 G6 G7 G8] Hbytes Hblk].
  assert (Hi2 : i_inum x2 = i_inum x) by (by rewrite E2, G3).
  assert (Hw2 : iwf v1 x2) by (rewrite E2; by apply set_size_keeps).
  destruct (put_inode_keeps v1 x2 x2 Hw2 G1) as (K1 & K2 & K3 & K4 & _); [by rewrite Hi2 |].
  destruct (IBLOCK_range _ Hin) as [_ Hr].
  assert (Eb : forall bn, fblk v1 x2 bn = fblk v1 x1 bn) by (by rewrite E2).
  assert (Es : i_size x2 = Z.max (i_size x) (off + Z.of_nat (length bs))) by (by rewrite E2).
  assert (Em : x2 = set_i_size (i_size x2) (set_i_addrs (i_addrs x2) x)) by (rewrite E2, G3; by destruct x).
  assert (Hk : forall c, c <> IBLOCK (i_inum x) sb -> put_inode x2 v1 c = v1 c) by (intros c Hc; apply set_at_ne; by rewrite Hi2).
  split; [done | | done | done | | done | | | | |].
  - split; [done | rewrite Es; lia |]. intros bn Hbn Hlt. rewrite K3, Eb. rewrite Es in Hlt.
    destruct (decide (bn * BSIZE < i_size x)) as [H | H].
    + specialize (Hfull bn Hbn H). rewrite G4; [done | | done]. split; [done |]. unfold BSIZE in *. lia.
    + replace bn with (bn * BSIZE / BSIZE) by (by apply Z.div_mul). apply Hblk. lia.
  - intros o Ho. rewrite K4, <- Hbytes by done. by rewrite E2.
  - intros b Hb Hu. unfold FsBlocks.used. rewrite Hk by lia. by apply G5.
  - intros c [Hc [H | (bn & Hbn & H)]].
    + replace (addr x2 NDIRECT) with (addr x1 NDIRECT) in H by (by rewrite E2). destruct G6 as [G6 | [_ G6]]; rewrite H in G6; [| by right].
      left. split; [done | by left].
    + rewrite K3, Eb in H. destruct (decide (fblk v x bn = 0)) as [E0 | E0].
      * destruct (G7 bn Hbn E0) as [E1 | E1]; [congruence | rewrite H in E1; by right].
      * left. split; [done | right]. exists bn. split; [done |]. by rewrite <- (G4 bn Hbn E0).
  - intros c Hc Hu Hno. destruct (data_pos start nlog sb c Hc) as (Hp & Hcb & Hcr). rewrite Hk by (destruct Hc; lia).
    apply G8; try done; [intros E | intros bn Hbn E]; apply Hno; (split; [lia |]); [by left | right; eauto].
  - intros y Hy Hne. transitivity (get_inode v1 y); [| unfold get_inode; by rewrite (written_inode _ _ _ _ _ _ _ Hd Hx W Hy)].
    apply get_put_inode_ne; rewrite ?Hi2; try done; [apply G1 | apply Hw2].
  - intros Ht. assert (Ht2 : ityped x2) by (eapply iwf_ityped; try done; rewrite Es; lia).
    split; [done |]. rewrite get_put_inode_eq, with_disk_self; [done | apply G1 | by rewrite Hi2 | done | done].
Qed.

Lemma t_writei v bl ino ip x off src bs k (n := Z.of_nat (length bs)) : dwf v -> fok v x -> ino !! ip = Some x -> inum_ok (i_inum x) ->
  0 <= off <= i_size x -> off + n <= MAXFILE * BSIZE -> (k <= S (Z.to_nat MAXFILE))%nat ->
  (0 < n -> off + n <= (off / BSIZE + Z.of_nat k) * BSIZE) -> budget (2 * k + 3) ∅ bl -> (k + need x <= length (frees v))%nat ->
  supplies me s0 src bs ->
  {{ fs v ∅ bl ino }} writei ip src off n
  {{ r, fun s => exists v' x' bl', (r = n /\ wrote v x off bs v' x' /\ (wt bl' <= wt bl + (2 * k + 1))%nat /\
         (length (frees v) + need x' <= length (frees v') + k + need x)%nat) /\ fs v' ∅ bl' (<[ip := x']> ino) s }}.
Proof.
  intros Hd Hx Hip Hin Hoff Hmax Hk Hkb Hb Hf Hsrc. assert (Emax : MAXFILE * BSIZE < 2^31) by done. subst n. set (n := Z.of_nat (length bs)) in *.
  pose proof (fk_iwf _ _ _ Hx) as Hw. unfold writei. eapply t_geti; [exact Hip |].
  replace (u32 (off + n)) with (off + n) by (unfold u32; rewrite Z.mod_small; lia).
  rewrite (proj2 (Z.ltb_ge (i_size x) off)), (proj2 (Z.ltb_ge (off + n) off)), (proj2 (Z.ltb_ge (MAXFILE * BSIZE) _)) by lia. cbn [orb].
  eapply t_bind.
  { apply (t_writei_loop start nlog me s0 sb n k RWLOOP v bl ino ip x off src bs 0); try done; try (unfold RWLOOP; lia). }
  intros r. apply t_ex; intros v1. apply t_ex; intros x1. apply t_ex; intros bl1. apply t_pure. intros (-> & W & Hwt & Hfr). cbn [fst snd].
  rewrite Z.sub_0_r. set (x2 := set_i_size (Z.max (i_size x) (off + n)) x1).
  assert (Hlt : (ip < length ino)%nat) by (by eapply lookup_lt_Some).
  assert (Hx1 : <[ip := x1]> ino !! ip = Some x1) by (by apply list_lookup_insert_eq).
  pose proof (wrote_of_written v x off bs v1 x1 x2 Hd Hx Hin Hoff Hmax W eq_refl) as Hwrote. destruct W as [G _ _].
  assert (Es : i_size x1 = i_size x) by (by rewrite (fg_ino _ _ _ _ _ G)).
  eapply t_geti; [exact Hx1 |]. apply (t_bind _ _ _ (fun _ => fs v1 ∅ bl1 (<[ip := x2]> ino))).
  { rewrite Es. destruct (Z.ltb_spec (i_size x) (off + n)) as [Hs | Hs]; cbn [when].
    - eapply t_conseq; [by apply t_upd_inode | done |]. intros [] s. rewrite list_insert_insert_eq. unfold x2. by rewrite Z.max_r by lia.
    - apply t_ret. intros s. unfold x2. rewrite Z.max_l, <- Es by lia. by destruct x1. }
  intros []. assert (Hx2 : <[ip := x2]> ino !! ip = Some x2) by (by apply list_lookup_insert_eq).
  assert (Hi2 : i_inum x2 = i_inum x) by (unfold x2; by rewrite (fg_ino _ _ _ _ _ G)).
  eapply t_bind; [apply (t_iupdate v1 ∅ bl1 _ ip x2); try done |].
  - apply (iw_dev _ _ _ (fk_iwf _ _ _ (wo_fok _ _ _ _ _ _ Hwrote))).
  - by rewrite Hi2.
  - eapply space_le; [apply (budget_space nlog sb), (budget_wt nlog sb (2 * k + 3) 3 (2 * k) ∅ bl); [done | lia | lia] | lia].
  - rewrite Hi2. apply (dw_len _ _ (fg_dwf _ _ _ _ _ G)), (home_inode _ Hin).
  - intros []. apply t_ret. intros s Hs. eexists _, x2, _. split; [| exact Hs].
    pose proof (wt_logged sb (IBLOCK (i_inum x2) sb) bl1). split_and!; [apply i32_small; lia | done | lia |].
    destruct (put_inode_keeps v1 x1 x2 (fg_iwf _ _ _ _ _ G) (fg_dwf _ _ _ _ _ G)) as (_ & _ & _ & _ & ->); [by rewrite Hi2 | done].
Qed.

End Inode.
