(* ===== verification/FsProps.v ===== *)
(** * The file system: properties

    Files refine byte arrays; the operations keep the file system consistent. *)

From S2P Require Import Prelude Riscv Mem Bytes StringLib Spinlock Kalloc Vm Proc ProcSpec Kctx State Sleeplock Bio BioList BioSpec BioRun RamDisk Log LogSpec BioProps LogProps LogTx Uart Printf Console Fs FsRun FsBlocks FsFile FsIo FsInode.

(** ** The specification: a file is a list of bytes *)

Inductive fop := FRead (off n : Z) | FWrite (off : Z) (bs : list Z).

Definition spec_write (off : Z) (bs c : list Z) : list Z :=
  take (Z.to_nat off) c ++ bs ++ drop (Z.to_nat off + length bs) c.

(** What an operation returns, and the bytes after it. *)
Definition spec_fop (op : fop) (c : list Z) : (Z * list Z) * list Z :=
  match op with
  | FRead off n => let d := take (Z.to_nat n) (drop (Z.to_nat off) c) in ((Z.of_nat (length d), d), c)
  | FWrite off bs => ((Z.of_nat (length bs), []), spec_write off bs c)
  end.

Fixpoint spec_fops (ops : list fop) (c : list Z) : list (Z * list Z) * list Z :=
  match ops with
  | [] => ([], c)
  | op :: ops => let '(r, c) := spec_fop op c in let '(rs, c) := spec_fops ops c in (r :: rs, c)
  end.

(** Offsets are in range, and a write does not start beyond the end. *)
Definition fop_ok (op : fop) (c : list Z) : Prop :=
  match op with
  | FRead off n => 0 <= off /\ 0 <= n /\ off + n < 2^32
  | FWrite off bs => 0 <= off <= Z.of_nat (length c) /\ off + Z.of_nat (length bs) <= MAXFILE * BSIZE
  end.

Fixpoint fops_ok (ops : list fop) (c : list Z) : Prop :=
  match ops with [] => True | op :: ops => fop_ok op c /\ fops_ok ops (spec_fop op c).2 end.

(** The blocks that a write touches. *)
Definition fop_blocks (op : fop) : nat :=
  match op with FRead _ _ => 0 | FWrite off bs => Z.to_nat ((off + Z.of_nat (length bs) + BSIZE - 1) / BSIZE - off / BSIZE) end.
(** The blocks that the operations may log: for each block written its own and
    the indirect block, and the inode. *)
Fixpoint fops_log (ops : list fop) : nat :=
  match ops with [] => 0 | FRead _ _ :: ops => fops_log ops | op :: ops => 2 * fop_blocks op + 1 + fops_log ops end.
Fixpoint fops_blocks (ops : list fop) : nat :=
  match ops with [] => 0 | op :: ops => fop_blocks op + fops_blocks ops end.

Section Refine.
Context (start nlog : Z) `{PF : Platform} `{PA : Patience} `{BD : !BlockDev} `{BO : !BlockDevOk BD} `{LY : !layout start nlog}.

Definition exec_fop (ip : nat) (op : fop) : M kern (Z * list Z) :=
  match op with
  | FRead off n => readi ip false 0 off n
  | FWrite off bs => let* r := writei ip (KSrc bs) off (Z.of_nat (length bs)) in ret (r, [])
  end.

Fixpoint exec_fops (ip : nat) (ops : list fop) : M kern (list (Z * list Z)) :=
  match ops with
  | [] => ret []
  | op :: ops => let* r := exec_fop ip op in let* rs := exec_fops ip ops in ret (r :: rs)
  end.

Context (me : nat) (s0 : kern) (sb : superblock) `{FL : !fslayout start nlog sb}.
Abbreviation fs := (fs start nlog me s0 sb).
Abbreviation frees := (frees sb).
Abbreviation dwf := (dwf sb).
Abbreviation wt := (wt sb).
Abbreviation budget := (budget nlog sb).
Abbreviation fok := (fok sb).
Abbreviation wrote := (wrote sb).
Abbreviation inum_ok := (inum_ok sb).

Definition contents (v : Z -> list Z) (x : inode) : list Z := fdata v x 0 (i_size x).

Lemma lookup_fdata v x o n i : fdata v x o n !! i = if decide (Z.of_nat i < n) then Some (fbyte v x (o + Z.of_nat i)) else None.
Proof.
  unfold fdata. rewrite list_lookup_fmap. case_decide; [by rewrite lookup_seqZ_lt by lia | by rewrite lookup_seqZ_ge by lia].
Qed.

Lemma length_contents v x : fok v x -> Z.of_nat (length (contents v x)) = i_size x.
Proof. intros Hx. unfold contents. rewrite length_fdata. pose proof (fk_size _ _ _ Hx). lia. Qed.

Lemma contents_read v x off n : fok v x -> 0 <= off -> 0 <= n ->
  fdata v x off (read_len x off n) = take (Z.to_nat n) (drop (Z.to_nat off) (contents v x)).
Proof.
  intros Hx Ho Hn. pose proof (fk_size _ _ _ Hx). apply list_eq. intros i. unfold contents, read_len. rewrite lookup_fdata.
  destruct (decide (i < Z.to_nat n)%nat).
  - rewrite lookup_take_lt, lookup_drop, lookup_fdata by done. destruct (Z.ltb_spec (i_size x) off); repeat case_decide; try lia; try done.
    do 2 f_equal. lia.
  - rewrite lookup_take_ge by lia. rewrite decide_False; [done |]. destruct (Z.ltb_spec (i_size x) off); lia.
Qed.

Lemma contents_write v x off bs v' x' : fok v x -> 0 <= off <= i_size x -> off + Z.of_nat (length bs) <= MAXFILE * BSIZE ->
  wrote v x off bs v' x' -> contents v' x' = spec_write off bs (contents v x).
Proof.
  intros Hx Ho Hm W. pose proof (fk_size _ _ _ Hx). pose proof (fk_size _ _ _ (wo_fok _ _ _ _ _ _ _ W)) as Hs'.
  pose proof (length_contents v x Hx) as Hl. apply list_eq. intros i. unfold contents at 1, spec_write. rewrite lookup_fdata.
  rewrite (wo_size _ _ _ _ _ _ _ W) in *. destruct (decide (i < Z.to_nat off)%nat).
  - rewrite lookup_app_l, lookup_take_lt by (rewrite ?length_take; lia). unfold contents. rewrite lookup_fdata.
    rewrite !decide_True by lia. rewrite (wo_bytes _ _ _ _ _ _ _ W), decide_False by lia. done.
  - rewrite lookup_app_r by (rewrite length_take; lia). rewrite length_take, Nat.min_l by lia.
    destruct (decide (i < Z.to_nat off + length bs)%nat).
    + rewrite lookup_app_l, decide_True by lia. rewrite (wo_bytes _ _ _ _ _ _ _ W), decide_True by lia.
      replace (Z.to_nat (0 + Z.of_nat i - off)) with (i - Z.to_nat off)%nat by lia.
      destruct (lookup_lt_is_Some_2 bs (i - Z.to_nat off)) as [y ->]; [lia | done].
    + rewrite lookup_app_r, lookup_drop by lia. unfold contents. rewrite lookup_fdata. repeat case_decide; try lia; [| done].
      rewrite (wo_bytes _ _ _ _ _ _ _ W), decide_False by lia. do 2 f_equal. lia.
Qed.

Lemma fop_blocks_ok off bs (k := fop_blocks (FWrite off bs)) : 0 <= off -> off + Z.of_nat (length bs) <= MAXFILE * BSIZE ->
  (k <= S (Z.to_nat MAXFILE))%nat /\ off + Z.of_nat (length bs) <= (off / BSIZE + Z.of_nat k) * BSIZE.
Proof.
  intros Ho Hm. subst k. cbn [fop_blocks]. set (e := off + Z.of_nat (length bs)) in *.
  pose proof (Z.div_mod (e + BSIZE - 1) BSIZE ltac:(done)) as E. pose proof (Z.mod_pos_bound (e + BSIZE - 1) BSIZE ltac:(done)).
  pose proof (Z.div_pos off BSIZE ltac:(lia) ltac:(done)).
  assert (off / BSIZE <= (e + BSIZE - 1) / BSIZE) by (apply Z.div_le_mono; [done | unfold BSIZE, e; lia]).
  assert ((e + BSIZE - 1) / BSIZE <= MAXFILE).
  { apply Z.lt_succ_r, Z.div_lt_upper_bound; [done |]. unfold BSIZE in *. lia. }
  split; [lia |]. rewrite Z2Nat.id by lia. lia.
Qed.

Context `{OUT : !intx s0}.

(** The code of one operation refines its specification. *)
Lemma t_fop v bl ino ip x op : dwf v -> fok v x -> ino !! ip = Some x -> inum_ok (i_inum x) -> fop_ok op (contents v x) ->
  budget (fops_log [op] + 3) ∅ bl -> (fop_blocks op + need x <= length (frees v))%nat ->
  {{ fs v ∅ bl ino }} exec_fop ip op
  {{ r, fun s => exists v' x' bl', ((r, contents v' x') = spec_fop op (contents v x) /\ dwf v' /\ fok v' x' /\ i_inum x' = i_inum x /\
         (wt bl' <= wt bl + fops_log [op])%nat /\ (length (frees v) + need x' <= length (frees v') + fop_blocks op + need x)%nat) /\
       fs v' ∅ bl' (<[ip := x']> ino) s }}.
Proof.
  intros Hd Hx Hip Hin Hok Hb Hf. destruct op as [off n | off bs]; cbn [exec_fop fop_ok fops_log fop_blocks] in *.
  - destruct Hok as (Ho & Hn & Hlt). eapply t_conseq; [apply (t_readi start nlog me s0 sb v bl ino ip x); try done | done |].
    { eapply space_room, (budget_space nlog sb). exact Hb. }
    intros r s [-> Hs]. exists v, x, bl. rewrite list_insert_id by done. split; [| done].
    pose proof (contents_read v x off n Hx Ho Hn) as E. split_and!; try done; try lia. cbn [spec_fop]. rewrite <- E, length_fdata.
    do 3 f_equal. unfold read_len. case_match; [done |]. rewrite Z2Nat.id; lia.
  - destruct Hok as ([Ho1 Ho2] & Hm). rewrite length_contents in Ho2 by done. destruct (fop_blocks_ok off bs Ho1 Hm) as [Hk1 Hk2].
    cbn [fop_blocks] in Hk1, Hk2. set (k := Z.to_nat _) in *.
    eapply t_bind; [apply (t_writei start nlog me s0 sb v bl ino ip x off (KSrc bs) bs k); try done; try lia; [| apply supplies_kernel] |].
    { eapply (budget_wt nlog sb (2 * k + 1 + 0 + 3) _ 0); [done | lia | lia]. }
    intros r. apply t_ex; intros v'. apply t_ex; intros x'. apply t_ex; intros bl'. apply t_pure. intros (-> & W & Hw & Hfr).
    apply t_ret. intros s Hs. exists v', x', bl'. split; [| done]. split_and!; try apply W; [| lia | lia].
    cbn [spec_fop]. f_equal. by apply contents_write.
Qed.

Lemma t_fops ip ops : forall v bl ino x, dwf v -> fok v x -> ino !! ip = Some x -> inum_ok (i_inum x) -> fops_ok ops (contents v x) ->
  budget (fops_log ops + 3) ∅ bl -> (fops_blocks ops + need x <= length (frees v))%nat ->
  {{ fs v ∅ bl ino }} exec_fops ip ops
  {{ rs, fun s => exists v' x' bl', ((rs, contents v' x') = spec_fops ops (contents v x) /\ fok v' x') /\ fs v' ∅ bl' (<[ip := x']> ino) s }}.
Proof.
  induction ops as [| op ops IH]; intros v bl ino x Hd Hx Hip Hin Hok Hb Hf; cbn [exec_fops spec_fops fops_ok fops_blocks] in *.
  { apply t_ret. intros s Hs. exists v, x, bl. by rewrite list_insert_id. }
  destruct Hok as [Hok1 Hok2]. assert (Hcost : fops_log (op :: ops) = (fops_log [op] + fops_log ops)%nat) by (destruct op; cbn [fops_log]; lia).
  rewrite Hcost in Hb. eapply t_bind; [apply (t_fop v bl ino ip x op); try done; [| lia] |].
  { eapply (budget_wt nlog sb _ _ 0); [done | lia | lia]. }
  intros r. apply t_ex; intros v1. apply t_ex; intros x1. apply t_ex; intros bl1. apply t_pure. intros (E1 & Hd1 & Hx1 & Hi1 & Hw1 & Hf1).
  rewrite <- E1 in *. eapply t_bind; [apply (IH v1 bl1 (<[ip := x1]> ino) x1); try done |].
  - apply list_lookup_insert_eq. by eapply lookup_lt_Some.
  - by rewrite Hi1.
  - eapply (budget_wt nlog sb _ _ (fops_log [op])); [done | lia | lia].
  - lia.
  - intros rs. apply t_ex; intros v2. apply t_ex; intros x2. apply t_ex; intros bl2. apply t_pure. intros [E2 Hx2].
    apply t_ret. intros s Hs. exists v2, x2, bl2. rewrite list_insert_insert_eq in Hs. by rewrite <- E2.
Qed.

(** ** Consistency of the file system *)

Abbreviation used := (used sb).
Abbreviation is_data := (is_data sb).
Abbreviation iwf := (iwf sb).
Abbreviation get_inode := (get_inode sb).

(** The inode [i] on disk. *)
Definition blank (i : Z) : inode := set_i_inum i (set_i_dev ROOTDEV inode0).
Definition dinode (v : Z -> list Z) (i : Z) : inode := get_inode v (blank i).
Definition allocated (v : Z -> list Z) (i : Z) : Prop := inum_ok i /\ i_type (dinode v i) <> 0.

(** Every allocated inode is a well-formed file, and no block is in two of them. *)
Record fsys (v : Z -> list Z) : Prop := {
  fy_dwf : dwf v;
  fy_file : forall i, allocated v i -> fok v (dinode v i);
  fy_disjoint : forall i j c, allocated v i -> allocated v j -> i <> j -> owns v (dinode v i) c -> ~ owns v (dinode v j) c }.

(** The inode in memory is the one on disk. *)
Definition synced (v : Z -> list Z) (x : inode) : Prop := i_dev x = ROOTDEV /\ inum_ok (i_inum x) /\ get_inode v x = x.

(** A file depends on the fields that are on disk only. *)
Lemma fok_ext v x y : fok v x -> i_addrs y = i_addrs x -> i_size y = i_size x -> i_dev y = i_dev x -> fok v y.
Proof.
  intros [[I1 I2 I3 I4 I5 I6] Hs Hf] Ea Es Ed. assert (Eb : forall bn, fblk v y bn = fblk v x bn) by (intros; unfold fblk, addr; by rewrite Ea).
  assert (Ei : addr y NDIRECT = addr x NDIRECT) by (unfold addr; by rewrite Ea).
  split; [split | by rewrite Es | ]; rewrite ?Ei, ?Ea, ?Ed; try done.
  - intros bn. rewrite Eb. auto.
  - intros i j. rewrite !Eb. auto.
  - intros i. rewrite Eb, ?Ei. auto.
  - intros bn. rewrite Eb, Es. auto.
Qed.

Lemma owns_ext v x y c : i_addrs y = i_addrs x -> owns v y c -> owns v x c.
Proof. intros Ea. unfold owns, fblk, addr. by rewrite Ea. Qed.

Lemma synced_dinode v x : synced v x -> i_addrs (dinode v (i_inum x)) = i_addrs x /\ i_size (dinode v (i_inum x)) = i_size x /\
  i_type (dinode v (i_inum x)) = i_type x.
Proof. intros (_ & _ & E). rewrite <- E at 2 4 6. done. Qed.

(** A file none of whose blocks change stays the file it is. *)
Lemma fok_frame v v' y : fok v y -> (forall c, owns v y c -> used v' c = true /\ v' c = v c) ->
  fok v' y /\ forall c, owns v' y c -> owns v y c.
Proof.
  intros [[I1 I2 I3 I4 I5 I6] Hs Hf] Hk. assert (Eb : forall bn, fblk v' y bn = fblk v y bn).
  { intros bn. unfold fblk. destruct (Z.ltb_spec bn NDIRECT); [done |]. destruct (Z.eqb_spec (addr y NDIRECT) 0) as [| Hn]; [done |].
    destruct (Hk (addr y NDIRECT)) as [_ ->]; [| done]. split; [done | by left]. }
  split; [split; [split | |] |]; try done.
  - intros bn Hbn. rewrite Eb. intros Hn. split; [by apply I3 |]. apply Hk. split; [done | right; eauto].
  - intros Hn. split; [by apply I4 |]. apply Hk. split; [done | by left].
  - intros i j Hi Hj. rewrite !Eb. auto.
  - intros i Hi. rewrite Eb. auto.
  - intros bn. rewrite Eb. auto.
  - intros c [Hc [H | (bn & Hbn & H)]]; (split; [done |]); [by left | right; exists bn; by rewrite <- Eb].
Qed.

(** Writing a file keeps the file system consistent. *)
Lemma wrote_fsys v x off bs v' x' : fsys v -> synced v x -> i_type x <> 0 -> ityped x -> wrote v x off bs v' x' ->
  fsys v' /\ synced v' x'.
Proof.
  intros [Y1 Y2 Y3] Hsync Hty Ht W. pose proof Hsync as (Hdev & Hin & _). destruct (synced_dinode v x Hsync) as (Ea & Es & Et).
  destruct (wo_sync _ _ _ _ _ _ _ W Ht) as [_ Hs']. pose proof (wo_inum _ _ _ _ _ _ _ W) as Hi'.
  assert (Hdev' : i_dev x' = ROOTDEV) by (by rewrite (wo_meta _ _ _ _ _ _ _ W)).
  assert (Hsync' : synced v' x') by (split_and!; [done | by rewrite Hi' | done]). split; [| done].
  destruct (synced_dinode v' x' Hsync') as (Ea' & Es' & Et'). rewrite Hi' in *. set (i := i_inum x) in *.
  assert (Hal : allocated v i) by (split; [done | by rewrite Et]).
  assert (Hoth : forall j, inum_ok j -> j <> i -> dinode v' j = dinode v j) by (intros j Hj Hne; by apply (wo_ino _ _ _ _ _ _ _ W)).
  assert (Hother : forall j, allocated v' j -> j <> i -> dinode v' j = dinode v j /\ allocated v j /\ fok v' (dinode v j) /\
    forall c, owns v' (dinode v j) c -> owns v (dinode v j) c).
  { intros j [Hj Hjt] Hne. rewrite (Hoth j Hj Hne) in Hjt. assert (Haj : allocated v j) by done. split; [by apply Hoth |]. split; [done |].
    apply fok_frame; [by apply Y2 |]. intros c Hc. destruct (owns_data sb v _ c (fk_iwf _ _ _ (Y2 j Haj)) Hc) as [Hd Hu].
    split; [apply (wo_used _ _ _ _ _ _ _ W); [destruct (data_pos start nlog sb c Hd); lia | done] |].
    apply (wo_frame _ _ _ _ _ _ _ W); [done | done |]. intros Hx. apply (Y3 i j c); try done. by eapply owns_ext. }
  assert (Hnew : forall j c, allocated v j -> j <> i -> owns v (dinode v j) c -> ~ owns v' (dinode v' i) c).
  { intros j c Haj Hne Hc Hx. apply (owns_ext _ x') in Hx; [| done]. destruct (wo_new _ _ _ _ _ _ _ W c Hx) as [Ho | Hu].
    - apply (Y3 j i c); try done. by eapply owns_ext.
    - destruct (owns_data sb v _ c (fk_iwf _ _ _ (Y2 j Haj)) Hc). congruence. }
  split; [apply W | |].
  - intros j Haj. destruct (decide (j = i)) as [-> | Hne].
    + eapply fok_ext; [apply (wo_fok _ _ _ _ _ _ _ W) | done | done | by rewrite Hdev'].
    + destruct (Hother j Haj Hne) as (-> & _ & ? & _). done.
  - intros j k c Haj Hak Hjk Hc Hc'. destruct (decide (j = i)) as [-> | Hne].
    + destruct (Hother k Hak ltac:(done)) as (E & Hvk & _ & Hk). rewrite E in Hc'. eapply (Hnew k c); try done. by apply Hk.
    + destruct (Hother j Haj Hne) as (E & Hvj & _ & Hj). rewrite E in Hc. destruct (decide (k = i)) as [-> | Hnk].
      * eapply (Hnew j c); try done. by apply Hj.
      * destruct (Hother k Hak Hnk) as (E' & Hvk & _ & Hk). rewrite E' in Hc'. apply (Y3 j k c); auto.
Qed.

End Refine.
