(* ===== verification/FsDir.v ===== *)
(** * The inode table and directories

    [iget], [idup] and [iput] on the table of inodes in memory; [dirlookup] against
    the list of entries that a directory contains. *)

From S2P Require Import Prelude Riscv Mem Bytes StringLib Spinlock Kalloc Vm Proc ProcSpec Kctx State Sleeplock Bio BioList BioSpec BioRun RamDisk Log LogSpec BioProps LogProps LogTx Uart Printf Console Fs FsRun FsBlocks FsFile FsIo FsInode FsProps.

(** ** iget *)

Definition ref_to (dev inum : Z) (x : inode) : Prop := 0 < i_ref x /\ i_dev x = dev /\ i_inum x = inum.
#[global] Instance ref_to_dec dev inum x : Decision (ref_to dev inum x).
Proof. unfold ref_to. apply _. Defined.

Definition unreferenced (x : inode) : Prop := i_ref x = 0.
#[global] Instance unreferenced_dec x : Decision (unreferenced x).
Proof. unfold unreferenced. apply _. Defined.

(** The entry that [iget] picks: the one in use for the inode, or the first free one. *)
Definition iget_entry (ino : list inode) (dev inum : Z) : nat + option nat :=
  match list_find (ref_to dev inum) ino with
  | Some (i, _) => inl i
  | None => inr (fst <$> list_find unreferenced ino)
  end.

(** The entry after [iget]. *)
Definition fresh (dev inum : Z) (x : inode) : inode := set_i_valid 0 (set_i_ref 1 (set_i_inum inum (set_i_dev dev x))).
Definition reref (d : Z) (x : inode) : inode := set_i_ref (i32 (i_ref x + d)) x.

Lemma list_find_drop {A} (P : A -> Prop) `{!forall x, Decision (P x)} (l : list A) i x : l !! i = Some x ->
  list_find P (drop i l) = if decide (P x) then Some (0%nat, x) else prod_map S id <$> list_find P (drop (S i) l).
Proof. intros Hx. by rewrite (drop_S _ _ _ Hx). Qed.

Section Dir.
Context (start nlog : Z) `{PF : Platform} `{PA : Patience} `{BD : !BlockDev} `{BO : !BlockDevOk BD} `{LY : !layout start nlog}.

(** Successive assignments to fields of an inode. *)
Lemma upd_inode_twice {A} i f g (k : M kern A) s : (i < length (kn_inodes s))%nat ->
  (upd_inode i f ;;; upd_inode i g ;;; k) s = (upd_inode i (fun x => g (f x)) ;;; k) s.
Proof.
  intros Hi. unfold bind, upd_inode, modify. cbn [obind]. unfold inode_at. cbn [kn_inodes set_kn_inodes].
  rewrite list_lookup_insert_eq by done. cbn [default]. by rewrite list_insert_insert_eq.
Qed.

Lemma iget_scan_run s dev inum n : forall i empty, (n + i = length (kn_inodes s))%nat ->
  iget_scan n i dev inum empty s = Ok
    (match list_find (ref_to dev inum) (drop i (kn_inodes s)) with
     | Some (j, _) => inl (i + j)%nat
     | None => inr (match empty with Some e => Some e | None => (fun p => (i + p.1)%nat) <$> list_find unreferenced (drop i (kn_inodes s)) end)
     end) s.
Proof.
  induction n as [| n IH]; intros i empty Hn; cbn [iget_scan].
  - rewrite drop_ge by lia. cbn. by destruct empty.
  - destruct (lookup_lt_is_Some_2 (kn_inodes s) i) as [x Hx]; [lia |]. unfold bind at 1, geti, gets. cbn [obind].
    assert (Ei : inode_at s i = x) by (unfold inode_at; by rewrite Hx). rewrite Ei, (list_find_drop _ _ _ _ Hx), (list_find_drop unreferenced _ _ _ Hx).
    destruct (decide (ref_to dev inum x)) as [(H1 & H2 & H3) | Hno].
    + rewrite (proj2 (Z.ltb_lt _ _) H1), H2, H3, !Z.eqb_refl. cbn. by rewrite Nat.add_0_r.
    + assert ((0 <? i_ref x) && (i_dev x =? dev) && (i_inum x =? inum) = false) as ->.
      { apply not_true_is_false. rewrite !andb_true_iff, Z.ltb_lt, !Z.eqb_eq. intros [[? ?] ?]. by apply Hno. }
      rewrite IH by lia. destruct (list_find (ref_to dev inum) (drop (S i) (kn_inodes s))) as [[j y] |]; cbn [fmap option_fmap option_map prod_map fst].
      * do 2 f_equal. lia.
      * do 2 f_equal. destruct empty; [done |]. unfold unreferenced. destruct (Z.eqb_spec (i_ref x) 0), (decide (i_ref x = 0)); try done; cbn.
        -- f_equal. lia.
        -- destruct (list_find _ _) as [[j y] |]; cbn; [| done]. f_equal. lia.
Qed.

Context (me : nat) (s0 : kern) (sb : superblock) `{FL : !fslayout start nlog sb}.
Abbreviation fs := (fs start nlog me s0 sb).

Lemma iget_run s dev inum : kctx me (kn_k s) -> length (kn_inodes s) = NINODE ->
  iget dev inum s =
    match iget_entry (kn_inodes s) dev inum with
    | inl i => Ok i (set_kn_k (cyc (kn_k s)) (set_kn_inodes (<[i := reref 1 (inode_at s i)]> (kn_inodes s)) s))
    | inr None => Panic "iget: no inodes" (set_kn_k (locked ItableLock (kn_k s)) s)
    | inr (Some i) => Ok i (set_kn_k (cyc (kn_k s)) (set_kn_inodes (<[i := fresh dev inum (inode_at s i)]> (kn_inodes s)) s))
    end.
Proof.
  intros Hk Hlen. unfold iget. rewrite (bind_ok _ _ _ _ _ (acq_k me ItableLock s Hk eq_refl)). set (s1 := set_kn_k _ s).
  rewrite (bind_ok _ _ _ _ _ (iget_scan_run s1 dev inum NINODE 0 None ltac:(by rewrite Nat.add_0_r))).
  change (kn_inodes s1) with (kn_inodes s). rewrite drop_0. unfold iget_entry.
  destruct (list_find (ref_to dev inum) (kn_inodes s)) as [[i x] |] eqn:E; cbn [Nat.add].
  - unfold bind at 1, upd_inode, modify. cbn [obind]. rewrite (set_inodes_k _ (locked ItableLock (kn_k s)) s), (bind_ok _ _ _ _ _ (rel_k me ItableLock (kn_k s) _ Hk eq_refl)). done.
  - destruct (list_find unreferenced (kn_inodes s)) as [[i x] |] eqn:Ee; cbn [fmap option_fmap option_map fst Nat.add]; [| done].
    apply list_find_Some in Ee as (Hx & _).
    pose proof (lookup_lt_Some _ _ _ Hx) as Hlt. rewrite !upd_inode_twice by done.
    unfold bind at 1, upd_inode, modify. cbn [obind]. rewrite (set_inodes_k _ (locked ItableLock (kn_k s)) s), (bind_ok _ _ _ _ _ (rel_k me ItableLock (kn_k s) _ Hk eq_refl)). done.
Qed.

Abbreviation get_inode := (get_inode sb).
Abbreviation inum_ok := (inum_ok sb).

(** ** The inode table *)

(** Entries in use are for distinct inodes; valid ones agree with the disk. *)
Record itab (v : Z -> list Z) (ino : list inode) : Prop := {
  ia_len : length ino = NINODE;
  ia_ref : forall i x, ino !! i = Some x -> 0 <= i_ref x;
  ia_ok : forall i x, ino !! i = Some x -> 0 < i_ref x -> i_dev x = ROOTDEV /\ inum_ok (i_inum x) /\ (i_valid x <> 0 -> get_inode v x = x);
  ia_uniq : forall i j x y, ino !! i = Some x -> ino !! j = Some y -> 0 < i_ref x -> 0 < i_ref y -> i_inum x = i_inum y -> i = j }.

Definition nfree (ino : list inode) : nat := length (filter unreferenced ino).

(** What [iget] does to the table. *)
Inductive got (ino : list inode) (inum : Z) (i : nat) : list inode -> Prop :=
  | got_old x : ino !! i = Some x -> ref_to ROOTDEV inum x -> got ino inum i (<[i := set_i_ref (i_ref x + 1) x]> ino)
  | got_new x : ino !! i = Some x -> i_ref x = 0 -> (forall j y, ino !! j = Some y -> ~ ref_to ROOTDEV inum y) ->
      got ino inum i (<[i := fresh ROOTDEV inum x]> ino).

Lemma t_iget v h bl ino inum : length ino = NINODE -> (1 <= nfree ino)%nat -> (forall i x, ino !! i = Some x -> i_ref x < 2^31 - 1) ->
  {{ fs v h bl ino }} iget ROOTDEV inum {{ i, fun s => exists ino', got ino inum i ino' /\ fs v h bl ino' s }}.
Proof.
  intros Hlen Hf Hsmall s Hs. pose proof (bo_ctx _ _ _ _ _ (f_bio _ _ _ _ _ _ _ _ _ _ Hs)) as Hk.
  pose proof (f_ino _ _ _ _ _ _ _ _ _ _ Hs) as Ei. pose proof (iget_run s ROOTDEV inum Hk ltac:(by rewrite Ei)) as E.
  rewrite Ei in E. unfold iget_entry in E. destruct (list_find (ref_to ROOTDEV inum) ino) as [[i x] |] eqn:Ef.
  - apply list_find_Some in Ef as (Hx & Hr & _). eexists i, _. split; [exact E |]. exists (<[i := set_i_ref (i_ref x + 1) x]> ino).
    split; [by econstructor |]. assert (inode_at s i = x) as -> by (unfold inode_at; by rewrite Ei, Hx).
    unfold reref. rewrite i32_small by (destruct Hr; specialize (Hsmall _ _ Hx); lia).
    eapply fs_inodes; [exact Hs | by apply kctx_cyc | apply kframe_cyc].
  - destruct (list_find unreferenced ino) as [[i x] |] eqn:Ee.
    + cbn [fmap option_fmap option_map fst] in E. apply list_find_Some in Ee as (Hx & Hr & _). eexists i, _. split; [exact E |]. exists (<[i := fresh ROOTDEV inum x]> ino).
      split; [apply got_new; [done | done |] |].
      * apply list_find_None in Ef. rewrite Forall_lookup in Ef. exact Ef.
      * assert (inode_at s i = x) as -> by (unfold inode_at; by rewrite Ei, Hx).
        eapply fs_inodes; [exact Hs | by apply kctx_cyc | apply kframe_cyc].
    + exfalso. apply list_find_None in Ee. rewrite Forall_forall in Ee. unfold nfree in Hf.
      destruct (filter unreferenced ino) as [| y l] eqn:El; [simpl in Hf; lia |].
      assert (Hy : y ∈ filter unreferenced ino) by (rewrite El; set_solver). apply list_elem_of_filter in Hy as [Hy1 Hy2]. by apply (Ee y).
Qed.

Definition bit (P : Prop) `{!Decision P} : nat := if decide P then 1 else 0.

Lemma nfree_insert ino i x y : ino !! i = Some x ->
  (nfree (<[i := y]> ino) + bit (i_ref x = 0%Z) = nfree ino + bit (i_ref y = 0%Z))%nat.
Proof.
  unfold nfree, bit. revert i. induction ino as [| z ino IH]; intros i Hx; [done |]. destruct i as [| i]; cbn in Hx.
  - injection Hx as ->. change (<[0%nat := y]> (x :: ino)) with (y :: ino). rewrite !filter_cons.
    repeat case_decide; unfold unreferenced in *; try contradiction; cbn [length]; lia.
  - change (<[S i := y]> (z :: ino)) with (z :: <[i := y]> ino). rewrite !filter_cons. specialize (IH i Hx).
    destruct (decide (unreferenced z)); cbn [length]; lia.
Qed.

Lemma itab_insert v ino i y : itab v ino -> 0 <= i_ref y ->
  (0 < i_ref y -> i_dev y = ROOTDEV /\ inum_ok (i_inum y) /\ (i_valid y <> 0 -> get_inode v y = y)) ->
  (0 < i_ref y -> forall j z, j <> i -> ino !! j = Some z -> 0 < i_ref z -> i_inum z <> i_inum y) -> itab v (<[i := y]> ino).
Proof.
  intros [A1 A2 A3 A4] Hr Hok Hu. split.
  - by rewrite length_insert.
  - intros j z [(-> & <- & _) | [_ Hz]]%list_lookup_insert_Some; eauto.
  - intros j z [(-> & <- & _) | [_ Hz]]%list_lookup_insert_Some; eauto.
  - intros j k z w [(-> & <- & _) | [Hj Hz]]%list_lookup_insert_Some [(-> & <- & _) | [Hk Hw]]%list_lookup_insert_Some Hrz Hrw E.
    + done.
    + by destruct (Hu Hrz k w ltac:(done) Hw Hrw).
    + by destruct (Hu Hrw j z ltac:(done) Hz Hrz).
    + eauto.
Qed.

(** The entry that [iget] returns. *)
Lemma got_itab v ino inum i ino' : itab v ino -> inum_ok inum -> got ino inum i ino' ->
  itab v ino' /\ exists x y, ino !! i = Some x /\ ino' = <[i := y]> ino /\ ref_to ROOTDEV inum y /\ i_ref y = i_ref x + 1 /\
    i_lock y = i_lock x /\ (i_ref x = 0 -> i_valid y = 0) /\ (0 < i_ref x -> y = set_i_ref (i_ref x + 1) x).
Proof.
  intros Ht Hin [x Hx Hr | x Hx Hr Hno].
  - pose proof Hr as (H1 & H2 & H3). destruct (ia_ok _ _ Ht _ _ Hx H1) as (D1 & D2 & D3). split.
    + apply itab_insert; [done | cbn; lia | |].
      * intros _. split_and!; [done | done |]. intros Hv. specialize (D3 Hv). destruct x. cbn in *. by injection D3 as <- <- <- <- <- <-.
      * intros _ j z Hj Hz Hrz E. apply Hj. by eapply (ia_uniq _ _ Ht).
    + exists x, (set_i_ref (i_ref x + 1) x). split_and!; try done; [split_and!; cbn; [lia | done | done] |]. lia.
  - split.
    + apply itab_insert; [done | cbn; lia | |]; cbn.
      * intros _. split_and!; done.
      * intros _ j z Hj Hz Hrz E. apply (Hno j z Hz). split; [done |]. split; [by apply (ia_ok _ _ Ht _ _ Hz) | done].
    + exists x, (fresh ROOTDEV inum x). split_and!; try done; [cbn; lia | lia].
Qed.

Lemma t_idup v h bl ino i x : ino !! i = Some x -> - 2^31 <= i_ref x < 2^31 - 1 ->
  {{ fs v h bl ino }} idup i {{ r, fun s => r = i /\ fs v h bl (<[i := set_i_ref (i_ref x + 1) x]> ino) s }}.
Proof.
  intros Hx Hr s Hs. pose proof (bo_ctx _ _ _ _ _ (f_bio _ _ _ _ _ _ _ _ _ _ Hs)) as Hk.
  assert (Ei : inode_at s i = x) by (unfold inode_at; by rewrite (f_ino _ _ _ _ _ _ _ _ _ _ Hs), Hx).
  eexists i, _. split.
  - unfold idup. rewrite (bind_ok _ _ _ _ _ (acq_k me ItableLock s Hk eq_refl)). unfold bind at 1, upd_inode, modify. cbn [obind].
    rewrite (set_inodes_k _ (locked ItableLock (kn_k s)) s), (bind_ok _ _ _ _ _ (rel_k me ItableLock (kn_k s) _ Hk eq_refl)). reflexivity.
  - split; [done |]. change (inode_at (set_kn_k _ s) i) with (inode_at s i). rewrite Ei.
    change (kn_inodes (set_kn_k _ s)) with (kn_inodes s). rewrite (f_ino _ _ _ _ _ _ _ _ _ _ Hs), i32_small by lia.
    eapply fs_inodes; [exact Hs | by apply kctx_cyc | apply kframe_cyc].
Qed.

(** [iput] of an inode that is linked or referenced elsewhere. *)
Lemma t_iput v h bl ino i x : ino !! i = Some x -> 0 < i_ref x < 2^31 -> (i_ref x = 1 -> i_valid x <> 0 -> i_nlink x <> 0) ->
  {{ fs v h bl ino }} iput i {{ _, fs v h bl (<[i := set_i_ref (i_ref x - 1) x]> ino) }}.
Proof.
  intros Hx Hr Hn s Hs. pose proof (bo_ctx _ _ _ _ _ (f_bio _ _ _ _ _ _ _ _ _ _ Hs)) as Hk.
  assert (Ei : inode_at s i = x) by (unfold inode_at; by rewrite (f_ino _ _ _ _ _ _ _ _ _ _ Hs), Hx).
  eexists tt, _. split.
  - unfold iput. rewrite (bind_ok _ _ _ _ _ (acq_k me ItableLock s Hk eq_refl)). unfold bind at 1, geti, gets. cbn [obind].
    change (inode_at (set_kn_k _ s) i) with (inode_at s i). rewrite Ei.
    assert ((i_ref x =? 1) && truthy (i_valid x) && (i_nlink x =? 0) = false) as ->.
    { apply not_true_is_false. unfold truthy. rewrite !andb_true_iff, negb_true_iff, !Z.eqb_eq, Z.eqb_neq. naive_solver. }
    cbn [when]. unfold bind at 1, ret. cbn [obind]. unfold bind at 1, upd_inode, modify. cbn [obind].
    rewrite (set_inodes_k _ (locked ItableLock (kn_k s)) s). apply (rel_k me ItableLock (kn_k s) _ Hk eq_refl).
  - change (inode_at (set_kn_k _ s) i) with (inode_at s i). rewrite Ei.
    change (kn_inodes (set_kn_k _ s)) with (kn_inodes s). rewrite (f_ino _ _ _ _ _ _ _ _ _ _ Hs), i32_small by lia.
    eapply fs_inodes; [exact Hs | by apply kctx_cyc | apply kframe_cyc].
Qed.

(** ** Directories *)

Abbreviation fok := (fok sb).

Definition dir_ents (v : Z -> list Z) (x : inode) : list dirent :=
  (fun k => dirent_of (fdata v x (k * dirent_size) dirent_size)) <$> seqZ 0 (i_size x / dirent_size).

Definition is_entry (name : list Z) (de : dirent) : Prop := de_inum de <> 0 /\ namecmp name (de_name de) = 0.
#[local] Instance is_entry_dec name de : Decision (is_entry name de).
Proof. unfold is_entry. apply _. Defined.

(** The inode number and the offset of the entry for [name]. *)
Definition dir_find (v : Z -> list Z) (x : inode) (name : list Z) : option (Z * Z) :=
  (fun p => (de_inum p.2, Z.of_nat p.1 * dirent_size)) <$> list_find (is_entry name) (dir_ents v x).

(** A directory: entries only. *)
Record dok (v : Z -> list Z) (x : inode) : Prop := {
  dk_fok : fok v x;
  dk_type : i_type x = T_DIR;
  dk_size : i_size x mod dirent_size = 0 }.

Lemma lookup_dir_ents v x k : Z.of_nat k * dirent_size < i_size x -> i_size x mod dirent_size = 0 ->
  dir_ents v x !! k = Some (dirent_of (fdata v x (Z.of_nat k * dirent_size) dirent_size)).
Proof.
  intros Hk Hm. unfold dir_ents. rewrite list_lookup_fmap, lookup_seqZ_lt; [by cbn |].
  apply Z.div_exact in Hm; [| done]. unfold dirent_size in *. lia.
Qed.

Lemma t_dirlookup_loop v bl ino dp x name : ino !! dp = Some x -> dok v x -> length ino = NINODE -> (1 <= nfree ino)%nat ->
  (forall i y, ino !! i = Some y -> i_ref y < 2^31 - 1) -> room ∅ bl ->
  forall fuel k, (length (dir_ents v x) < fuel + k)%nat -> (k <= length (dir_ents v x))%nat ->
  {{ fs v ∅ bl ino }} dirlookup_loop fuel dp name (Z.of_nat k * dirent_size)
  {{ r, fun s => match list_find (is_entry name) (drop k (dir_ents v x)) with
     | Some (j, de) => exists ip ino', (r = Some (ip, Z.of_nat (k + j) * dirent_size) /\ got ino (de_inum de) ip ino') /\ fs v ∅ bl ino' s
     | None => r = None /\ fs v ∅ bl ino s
     end }}.
Proof.
  intros Hx [Hf Hty Hm] Hlen Hfree Hsmall Hr. pose proof (fk_size _ _ _ Hf) as Hsz. assert (Emax : MAXFILE * BSIZE < 2^31) by done.
  assert (Hn : Z.of_nat (length (dir_ents v x)) * dirent_size = i_size x).
  { unfold dir_ents. rewrite length_fmap, length_seqZ. apply Z.div_exact in Hm; [| done]. unfold dirent_size in *. lia. }
  induction fuel as [| fuel IH]; intros k Hk Hle; [lia |]. cbn [dirlookup_loop]. eapply t_geti; [exact Hx |].
  destruct (Z.ltb_spec (Z.of_nat k * dirent_size) (i_size x)) as [Hlt | Hge].
  - pose proof (lookup_dir_ents v x k Hlt Hm) as He. rewrite (list_find_drop _ _ _ _ He).
    pose proof (lookup_lt_Some _ _ _ He) as Hkl. assert (Hend : Z.of_nat k * dirent_size + dirent_size <= i_size x) by (unfold dirent_size in *; lia).
    assert (Hrl : read_len x (Z.of_nat k * dirent_size) dirent_size = dirent_size).
    { unfold read_len. rewrite (proj2 (Z.ltb_ge _ _)) by lia. lia. }
    eapply t_bind; [apply (t_readi start nlog me s0 sb v bl ino dp x); try done; [unfold dirent_size; lia | lia] |].
    intros r. apply t_pure. intros ->. rewrite Hrl. cbn [fst snd]. rewrite Z.eqb_refl. cbn [negb].
    set (de := dirent_of _) in *.
    replace (Z.of_nat k * dirent_size + dirent_size) with (Z.of_nat (S k) * dirent_size) by lia.
    assert (Hnext : ~ is_entry name de -> triple (fs v ∅ bl ino) (dirlookup_loop fuel dp name (Z.of_nat (S k) * dirent_size))
      (fun r s => match (if decide (is_entry name de) then Some (0%nat, de) else prod_map S id <$> list_find (is_entry name) (drop (S k) (dir_ents v x))) with
         | Some (j, de) => exists ip ino', (r = Some (ip, Z.of_nat (k + j) * dirent_size) /\ got ino (de_inum de) ip ino') /\ fs v ∅ bl ino' s
         | None => r = None /\ fs v ∅ bl ino s end)).
    { intros Hno. rewrite decide_False by done. eapply t_conseq; [apply (IH (S k)); lia | done |]. intros r s.
      destruct (list_find _ _) as [[j d] |]; cbn; [| done]. by replace (k + S j)%nat with (S (k + j)) by lia. }
    destruct (Z.eqb_spec (de_inum de) 0) as [E0 | E0]; [apply Hnext; by intros [] |].
    destruct (Z.eqb_spec (namecmp name (de_name de)) 0) as [En | En]; [| apply Hnext; by intros []].
    rewrite decide_True by done. rewrite (iw_dev _ _ _ (fk_iwf _ _ _ Hf)).
    eapply t_bind; [by apply (t_iget v ∅ bl ino (de_inum de)) |]. intros ip. apply t_ex; intros ino'. apply t_pure. intros Hg.
    apply t_ret. intros s Hs. exists ip, ino'. by rewrite Nat.add_0_r.
  - rewrite drop_ge by (unfold dirent_size in *; lia). cbn. apply t_ret. auto.
Qed.

Lemma t_dirlookup v bl ino dp x name : ino !! dp = Some x -> dok v x -> length ino = NINODE -> (1 <= nfree ino)%nat ->
  (forall i y, ino !! i = Some y -> i_ref y < 2^31 - 1) -> room ∅ bl ->
  {{ fs v ∅ bl ino }} dirlookup dp name
  {{ r, fun s => match dir_find v x name with
     | Some (inum, off) => exists ip ino', (r = Some (ip, off) /\ got ino inum ip ino') /\ fs v ∅ bl ino' s
     | None => r = None /\ fs v ∅ bl ino s
     end }}.
Proof.
  intros Hx Hd Hlen Hfree Hsmall Hr. unfold dirlookup. eapply t_geti; [exact Hx |]. rewrite (dk_type _ _ Hd), Z.eqb_refl. cbn [negb].
  assert (Hl : length (dir_ents v x) = Z.to_nat (i_size x / dirent_size)) by (unfold dir_ents; by rewrite length_fmap, length_seqZ).
  eapply t_conseq; [apply (t_dirlookup_loop v bl ino dp x name Hx Hd Hlen Hfree Hsmall Hr _ 0%nat); lia | done |].
  intros r s. rewrite drop_0. unfold dir_find. by destruct (list_find _ _) as [[j de] |].
Qed.

End Dir.
