(* ===== verification/FsPath.v ===== *)
(** * Path names

    [skipelem] against the list of components of a path, and [namex], [namei] and
    [nameiparent] against the tree of directories on the disk. *)

From S2P Require Import Prelude Riscv Mem Bytes StringLib Spinlock Kalloc Vm Proc ProcSpec Kctx State Sleeplock Bio BioList BioSpec BioRun RamDisk Log LogSpec BioProps LogProps LogTx Uart Printf Console Fs FsRun FsBlocks FsFile FsIo FsInode FsProps FsDir.

(** ** Components of a path *)

(** The strings between slashes, the empty ones included. *)
Fixpoint split_slash (p : list Z) : list (list Z) :=
  match p with
  | [] => [[]]
  | c :: p =>
      if c =? SLASH then [] :: split_slash p
      else match split_slash p with [] => [[c]] | e :: es => (c :: e) :: es end
  end.

Definition path_elems (p : list Z) : list (list Z) := take (Z.to_nat DIRSIZ) <$> filter (fun e => e <> []) (split_slash p).

Lemma split_slash_ne p : split_slash p <> [].
Proof. destruct p as [| c p]; cbn; [done |]. case_match; [done |]. by case_match. Qed.

Lemma split_slash_app s r : Forall (fun c => c <> SLASH) s -> split_slash (s ++ SLASH :: r) = s :: split_slash r.
Proof.
  induction 1 as [| c s Hc Hs IH]; cbn; [done |]. rewrite (proj2 (Z.eqb_neq _ _) Hc), IH. done.
Qed.

Lemma split_slash_end s : Forall (fun c => c <> SLASH) s -> split_slash s = [s].
Proof. induction 1 as [| c s Hc Hs IH]; cbn; [done |]. by rewrite (proj2 (Z.eqb_neq _ _) Hc), IH. Qed.

Lemma path_elem_spec p s r : path_elem p = (s, r) ->
  p = s ++ r /\ Forall (fun c => c <> SLASH) s /\ (r = [] \/ exists r', r = SLASH :: r').
Proof.
  revert s r. induction p as [| c p IH]; intros s r E; cbn in E; [injection E as <- <-; auto |].
  destruct (Z.eqb_spec c SLASH) as [-> | Hc]; [injection E as <- <-; split_and!; [done | done | eauto] |].
  destruct (path_elem p) as [s' r'] eqn:E'. injection E as <- <-. destruct (IH _ _ eq_refl) as (-> & Hs & Hr). split_and!; [done | by constructor | done].
Qed.

Lemma skip_slashes_spec p : path_elems (skip_slashes p) = path_elems p /\ (length (skip_slashes p) <= length p)%nat /\
  head (skip_slashes p) <> Some SLASH.
Proof.
  induction p as [| c p IH]; cbn [skip_slashes]; [done |]. destruct (Z.eqb_spec c SLASH) as [-> | Hc].
  - destruct IH as (H1 & H2 & H3). split_and!; [| cbn; lia | done]. rewrite H1. unfold path_elems at 2. cbn. done.
  - split_and!; [done | done |]. cbn. congruence.
Qed.

Lemma path_elems_nil p : head p <> Some SLASH -> path_elems p = [] <-> p = [].
Proof.
  intros Hh. split; [| by intros ->]. intros E. destruct p as [| c p]; [done | exfalso]. unfold path_elems in E.
  apply fmap_nil_inv in E. cbn in E. rewrite (proj2 (Z.eqb_neq c SLASH)) in E by (intros ->; done).
  destruct (split_slash p) as [| e es]; rewrite filter_cons_True in E; done.
Qed.

(** The C string that the array [name] holds, cut at its size. *)
Definition name_of (name : list Z) : list Z := take (Z.to_nat DIRSIZ) (cstr name).

Lemma cstr_app s t : Forall (fun c => c <> 0) s -> cstr (s ++ t) = s ++ cstr t.
Proof. induction 1 as [| c s Hc Hs IH]; cbn; [done |]. by rewrite (proj2 (Z.eqb_neq _ _) Hc), IH. Qed.

Lemma splice_0 {A} (x l : list A) : (length x <= length l)%nat -> splice 0 x l = x ++ drop (length x) l.
Proof.
  intros Hl. apply list_eq. intros i. rewrite lookup_splice by lia. destruct (decide (i < length x)%nat).
  - rewrite decide_True, lookup_app_l by lia. f_equal. lia.
  - rewrite decide_False, lookup_app_r, lookup_drop by lia. f_equal. lia.
Qed.

Lemma skip_slashes_nonzero p : Forall (fun c => c <> 0) p -> Forall (fun c => c <> 0) (skip_slashes p).
Proof. induction 1 as [| c p Hc Hp IH]; cbn; [done |]. case_match; [done | by constructor]. Qed.

(** The array [name] after [skipelem] has copied the component [s] into it. *)
Definition put_name (s name : list Z) : list Z :=
  if DIRSIZ <=? Z.of_nat (length s) then splice 0 (take (Z.to_nat DIRSIZ) s) name else <[length s := 0]> (splice 0 s name).

Lemma put_name_spec s name : length name = Z.to_nat DIRSIZ -> Forall (fun c => c <> 0) s ->
  name_of (put_name s name) = take (Z.to_nat DIRSIZ) s /\ length (put_name s name) = Z.to_nat DIRSIZ.
Proof.
  intros Hn Hs. unfold put_name, name_of. change (Z.to_nat DIRSIZ) with 14%nat in *. unfold DIRSIZ. destruct (Z.leb_spec 14 (Z.of_nat (length s))) as [H | H].
  - rewrite splice_0 by (rewrite length_take; lia). rewrite length_take, Nat.min_l, drop_ge, app_nil_r by lia.
    split; [| rewrite length_take; lia]. rewrite <- (app_nil_r (take 14 s)) at 1. rewrite cstr_app by (by apply Forall_take).
    cbn. rewrite app_nil_r, take_take. done.
  - rewrite splice_0 by lia. split; [| rewrite length_insert, length_app, length_drop; lia].
    rewrite insert_app_r_alt, Nat.sub_diag by done. destruct (drop (length s) name) as [| b l] eqn:E.
    { apply (f_equal length) in E. rewrite length_drop in E. cbn in E. lia. }
    cbn [insert list_insert]. rewrite cstr_app by done. cbn. rewrite app_nil_r. done.
Qed.

(** [skipelem] takes the first component off the path. *)
Lemma skipelem_spec path name : length name = Z.to_nat DIRSIZ -> Forall (fun c => c <> 0) path ->
  match path_elems path with
  | [] => skipelem path name = None
  | e :: es => exists path' name', skipelem path name = Some (path', name') /\ path_elems path' = es /\ name_of name' = e /\
      length name' = Z.to_nat DIRSIZ /\ (length path' < length path)%nat /\ Forall (fun c => c <> 0) path' /\ (path' = [] <-> es = [])
  end.
Proof.
  intros Hn Hp. destruct (skip_slashes_spec path) as (E & Hl & Hh). rewrite <- E. unfold skipelem.
  pose proof (skip_slashes_nonzero path Hp) as Hp'. set (p := skip_slashes path) in *.
  destruct (path_elem p) as [s r] eqn:Ep. destruct (path_elem_spec _ _ _ Ep) as (Epr & Hs & Hr).
  destruct (decide (p = [])) as [-> | Hne]; [done |].
  assert (Hsn : s <> []). { intros ->. destruct Hr as [-> | [r' ->]]; [by rewrite Epr in Hne | rewrite Epr in Hh; done]. }
  assert (Eel : path_elems p = take (Z.to_nat DIRSIZ) s :: path_elems r).
  { rewrite Epr. unfold path_elems. destruct Hr as [-> | [r' ->]].
    - rewrite app_nil_r, split_slash_end by done. by rewrite filter_cons_True.
    - rewrite split_slash_app by done. rewrite filter_cons_True by done. cbn. done. }
  rewrite Eel. destruct (skip_slashes_spec r) as (Er & Hlr & Hhr). rewrite Epr in Hp'. apply Forall_app in Hp' as [Hps Hpr].
  destruct (put_name_spec s name Hn Hps) as [Hn1 Hn2]. exists (skip_slashes r), (put_name s name). split_and!; try done.
  - destruct p as [| c p']; [done |]. unfold put_name. by rewrite Nat2Z.id.
  - apply (f_equal length) in Epr. rewrite length_app in Epr. destruct s; [done |]. cbn in Epr. lia.
  - by apply skip_slashes_nonzero.
  - rewrite <- Er. symmetry. by apply path_elems_nil.
Qed.

Lemma strncmp_cstr n : forall p q, strncmp_l n (take n (cstr p)) q = strncmp_l n p q.
Proof.
  induction n as [| n IH]; intros p q; [done |]. cbn [strncmp_l]. destruct p as [| c p]; [done |]. cbn [cstr].
  destruct (Z.eqb_spec c 0) as [-> | Hc]; cbn; [done |]. by rewrite (proj2 (Z.eqb_neq _ _) Hc), IH.
Qed.

Lemma namecmp_name_of name t : namecmp (name_of name) t = namecmp name t.
Proof. apply strncmp_cstr. Qed.

(** ** References *)

(** The number of references to an inode. *)
Definition refs (ino : list inode) (i : Z) : Z :=
  match list_find (ref_to ROOTDEV i) ino with Some (_, x) => i_ref x | None => 0 end.

Section Path.
Context (start nlog : Z) `{PF : Platform} `{PA : Patience} `{BD : !BlockDev} `{BO : !BlockDevOk BD} `{LY : !layout start nlog}.
Context (me : nat) (s0 : kern) (sb : superblock) `{FL : !fslayout start nlog sb}.
Abbreviation fs := (fs start nlog me s0 sb).
Abbreviation fok := (fok sb).
Abbreviation dok := (dok sb).
Abbreviation itab := (itab sb).
Abbreviation dinode := (dinode sb).
Abbreviation allocated := (allocated sb).
Abbreviation get_inode := (get_inode sb).
Abbreviation inum_ok := (inum_ok sb).
Abbreviation locked_inode := (locked_inode me s0 sb).
Abbreviation held := (held me s0).

Lemma refs_some v ino k x i : itab v ino -> ino !! k = Some x -> ref_to ROOTDEV i x -> refs ino i = i_ref x.
Proof.
  intros Ht Hx Hr. unfold refs. destruct (list_find (ref_to ROOTDEV i) ino) as [[j y] |] eqn:E.
  - apply list_find_Some in E as (Hy & (Y1 & Y2 & Y3) & _). destruct Hr as (X1 & X2 & X3).
    assert (j = k) by (eapply (ia_uniq _ _ _ Ht); try done; congruence). subst j. congruence.
  - apply list_find_None in E. rewrite Forall_lookup in E. by destruct (E k x Hx).
Qed.

Lemma refs_none ino i : (forall k x, ino !! k = Some x -> ~ ref_to ROOTDEV i x) -> refs ino i = 0.
Proof.
  intros H. unfold refs. destruct (list_find (ref_to ROOTDEV i) ino) as [[j y] |] eqn:E; [| done].
  apply list_find_Some in E as (Hy & Hr & _). by destruct (H j y Hy).
Qed.

(** One entry of the table changes. *)
Lemma refs_insert v ino k x y i : itab v ino -> itab v (<[k := y]> ino) -> ino !! k = Some x -> i_dev y = ROOTDEV ->
  (0 < i_ref x -> i_inum y = i_inum x) -> (i_ref x = 0 -> forall j z, ino !! j = Some z -> ~ ref_to ROOTDEV (i_inum y) z) ->
  refs (<[k := y]> ino) i = if i =? i_inum y then i_ref y else refs ino i.
Proof.
  intros Ht Ht' Hx Hdev Hold Hnew. pose proof (lookup_lt_Some _ _ _ Hx) as Hlt.
  assert (Hy : <[k := y]> ino !! k = Some y) by (by apply list_lookup_insert_eq).
  pose proof (ia_ref _ _ _ Ht _ _ Hx) as Hrx. pose proof (ia_ref _ _ _ Ht' _ _ Hy) as Hry.
  assert (Hu : forall j z, j <> k -> ino !! j = Some z -> 0 < i_ref z -> i_inum z <> i_inum y).
  { intros j z Hj Hz Hrz E. destruct (decide (i_ref x = 0)) as [E0 | E0].
    - apply (Hnew E0 j z Hz). split; [done |]. split; [by apply (ia_ok _ _ _ Ht j z) | done].
    - apply Hj. eapply (ia_uniq _ _ _ Ht); try done; [lia |]. rewrite <- Hold by lia. done. }
  destruct (Z.eqb_spec i (i_inum y)) as [-> | Hne].
  - destruct (decide (i_ref y = 0)) as [E0 | E0]; [| apply (refs_some v _ k); [done | done | split_and!; [lia | done | done]]].
    rewrite E0. apply refs_none. intros j z [(-> & <- & _) | [Hj Hz]]%list_lookup_insert_Some (R1 & R2 & R3); [lia |]. by apply (Hu j z).
  - unfold refs at 2. destruct (list_find (ref_to ROOTDEV i) ino) as [[j z] |] eqn:E.
    + apply list_find_Some in E as (Hz & Hr & _). apply (refs_some v _ j); [done | | done]. rewrite list_lookup_insert_ne; [done |].
      intros <-. destruct Hr as (R1 & R2 & R3). rewrite Hx in Hz. injection Hz as <-. rewrite Hold in Hne by done. done.
    + apply refs_none. apply list_find_None in E. rewrite Forall_lookup in E.
      intros j z [(-> & <- & _) | [Hj Hz]]%list_lookup_insert_Some Hr; [destruct Hr as (_ & _ & R3); congruence | by apply (E j z)].
Qed.

(** ** Inodes in memory and on disk *)

Lemma get_inode_idem v x : get_inode v (get_inode v x) = get_inode v x.
Proof. done. Qed.

Lemma locked_inode_spec v ino k x i : itab v ino -> ino !! k = Some x -> ref_to ROOTDEV i x ->
  let y := locked_inode v x in
  i_ref y = i_ref x /\ i_dev y = ROOTDEV /\ i_inum y = i /\ i_lock y = i_lock (held x) /\ i_valid y <> 0 /\ get_inode v y = y /\
  i_addrs y = i_addrs (dinode v i) /\ i_size y = i_size (dinode v i) /\ i_type y = i_type (dinode v i) /\ i_nlink y = i_nlink (dinode v i).
Proof.
  intros Ht Hx (R1 & R2 & R3). destruct (ia_ok _ _ _ Ht _ _ Hx R1) as (_ & _ & Hv). cbv zeta. unfold FsInode.locked_inode.
  destruct (Z.eqb_spec (i_valid x) 0) as [E | E].
  - rewrite <- R3, <- R2. split_and!; done.
  - specialize (Hv E). rewrite <- R3, <- R2.
    assert (E2 : get_inode v (held x) = held x) by (rewrite <- Hv at 2; by destruct x).
    split_and!; try done; unfold dinode; rewrite <- Hv at 1; done.
Qed.

Abbreviation pid0 := (pid0 me s0).
Definition unlocked (ino : list inode) : Prop := forall j y, ino !! j = Some y -> sk_locked (i_lock y) = 0.

Lemma held_id z nm : i_lock z = mkSleeplock 1 nm pid0 -> held z = z.
Proof. intros E. destruct z. cbn in *. subst. done. Qed.

(** The entry after [iunlockput]. *)
Definition putted (z : inode) : inode := set_i_ref (i_ref z - 1) (unheld z).

Lemma t_iunlockput v bl ino ip z nm : ino !! ip = Some z -> (ip < NINODE)%nat -> i_lock z = mkSleeplock 1 nm pid0 -> 0 < i_ref z < 2^31 ->
  (i_ref z = 1 -> i_nlink z <> 0) ->
  {{ fs v ∅ bl ino }} iunlockput ip {{ _, fs v ∅ bl (<[ip := putted z]> ino) }}.
Proof.
  intros Hz Hip Hl Hr Hn. unfold iunlockput. rewrite <- (held_id z nm Hl) in Hz.
  eapply t_bind; [apply (t_iunlock start nlog me s0 sb v ∅ bl ino ip z); try done; lia |]. intros [].
  eapply t_conseq; [apply (t_iput start nlog me s0 sb v ∅ bl (<[ip := unheld z]> ino) ip (unheld z)) | done |].
  - apply list_lookup_insert_eq. by eapply lookup_lt_Some.
  - done.
  - auto.
  - intros [] s. by rewrite list_insert_insert_eq.
Qed.

(** A change of an entry in use that keeps what it is for. *)
Lemma itab_touch v ino k z y : itab v ino -> ino !! k = Some z -> 0 < i_ref z -> 0 <= i_ref y -> i_dev y = i_dev z -> i_inum y = i_inum z ->
  (i_valid y <> 0 -> get_inode v y = y) -> itab v (<[k := y]> ino) /\
  (forall i, refs (<[k := y]> ino) i = if i =? i_inum z then i_ref y else refs ino i) /\
  nfree (<[k := y]> ino) = (nfree ino + bit (i_ref y = 0%Z))%nat.
Proof.
  intros Ht Hz Hr Hry Hd Hi Hv. destruct (ia_ok _ _ _ Ht _ _ Hz Hr) as (D1 & D2 & D3).
  assert (Ht' : itab v (<[k := y]> ino)).
  { apply itab_insert; [done | done | |].
    - intros _. split_and!; [congruence | congruence | done].
    - intros _ j w Hj Hw Hrw E. apply Hj. eapply (ia_uniq _ _ _ Ht); try done. congruence. }
  split_and!; [done | |].
  - intros i. rewrite <- Hi. apply (refs_insert v _ _ z); try done; [congruence |]. lia.
  - pose proof (nfree_insert ino k z y Hz) as E. unfold bit in *. rewrite (decide_False (P := i_ref z = 0)) in E by lia. lia.
Qed.

Lemma sync_putted v z : get_inode v z = z -> get_inode v (putted z) = putted z.
Proof. intros E. rewrite <- E at 2. by destruct z. Qed.

Lemma put_tab v ino k z i : itab v ino -> ino !! k = Some z -> ref_to ROOTDEV i z -> get_inode v z = z ->
  itab v (<[k := putted z]> ino) /\ (forall j, refs (<[k := putted z]> ino) j = refs ino j - (if j =? i then 1 else 0)) /\
  nfree (<[k := putted z]> ino) = (nfree ino + bit (i_ref z = 1%Z))%nat.
Proof.
  intros Ht Hz Hr Hs. pose proof Hr as (R1 & R2 & R3).
  destruct (itab_touch v ino k z (putted z) Ht Hz R1) as (T1 & T2 & T3); [cbn; lia | done | done | intros _; by apply sync_putted |].
  split_and!; [done | |].
  - intros j. rewrite T2, R3. destruct (Z.eqb_spec j i) as [-> | Hj]; [| lia]. by rewrite (refs_some v ino k z i Ht Hz Hr).
  - rewrite T3. unfold bit. cbn. repeat case_decide; lia.
Qed.

(** ** The walk along a path *)

(** Directories contain entries for allocated, linked inodes only. *)
Record tree (v : Z -> list Z) : Prop := {
  tr_fsys : fsys sb v;
  tr_size : forall i, allocated v i -> i_type (dinode v i) = T_DIR -> i_size (dinode v i) mod dirent_size = 0;
  tr_ent : forall i de, allocated v i -> i_type (dinode v i) = T_DIR -> de ∈ dir_ents v (dinode v i) -> de_inum de <> 0 ->
    allocated v (de_inum de) /\ i_nlink (dinode v (de_inum de)) <> 0 }.

(** The inode a path leads to, or its parent, from inode [i]. *)
Fixpoint walk_path (v : Z -> list Z) (parent : bool) (i : Z) (es : list (list Z)) : option Z :=
  match es with
  | [] => if parent then None else Some i
  | e :: es =>
      if negb (i_type (dinode v i) =? T_DIR) then None
      else if parent && bool_decide (es = []) then Some i
      else match dir_find v (dinode v i) e with
           | Some (j, _) => walk_path v parent j es
           | None => None
           end
  end.

(** The process holds a reference to inode [i], entry [ip], on top of [base]. *)
Record cursor (v : Z -> list Z) (base : Z -> Z) (ino : list inode) (ip : nat) (i : Z) : Prop := {
  cu_tab : itab v ino;
  cu_free : unlocked ino;
  cu_ent : exists x, ino !! ip = Some x /\ ref_to ROOTDEV i x;
  cu_alloc : allocated v i;
  cu_refs : forall j, refs ino j = base j + (if j =? i then 1 else 0);
  cu_slots : (2 <= nfree ino + bit (refs ino i = 1%Z))%nat;
  cu_keep : i_nlink (dinode v i) <> 0 \/ 2 <= refs ino i }.

(** No reference is held any more. *)
Record restored (v : Z -> list Z) (base : Z -> Z) (ino : list inode) : Prop := {
  rs_tab : itab v ino;
  rs_free : unlocked ino;
  rs_refs : forall j, refs ino j = base j;
  rs_slots : (2 <= nfree ino)%nat }.

Definition base_ok (base : Z -> Z) : Prop := forall j, 0 <= base j < 2^31 - 4.

Lemma ref_small v ino (base : Z -> Z) i : itab v ino -> base_ok base -> (forall j, refs ino j = base j + (if j =? i then 1 else 0)) ->
  forall k y, ino !! k = Some y -> i_ref y < 2^31 - 2.
Proof.
  intros Ht Hb Hr k y Hy. pose proof (ia_ref _ _ _ Ht _ _ Hy). destruct (decide (0 < i_ref y)) as [Hp | Hp]; [| lia].
  destruct (ia_ok _ _ _ Ht _ _ Hy Hp) as (D1 & _). rewrite <- (refs_some v ino k y (i_inum y) Ht Hy) by done.
  rewrite Hr. specialize (Hb (i_inum y)). case_match; lia.
Qed.

Lemma dir_find_ext v x y name : i_addrs y = i_addrs x -> i_size y = i_size x -> dir_find v y name = dir_find v x name.
Proof. intros Ea Es. unfold dir_find, dir_ents, fdata, fbyte, fblk, addr. by rewrite Ea, Es. Qed.

Lemma dir_find_name v x name : dir_find v x (name_of name) = dir_find v x name.
Proof.
  unfold dir_find. f_equal. assert (E : forall de, is_entry (name_of name) de <-> is_entry name de) by (intros; unfold is_entry; by rewrite namecmp_name_of).
  induction (dir_ents v x) as [| de l IH]; cbn; [done |]. rewrite IH. specialize (E de). repeat case_decide; tauto.
Qed.

(** As [cursor], with the inode locked and read. *)
Record lockd (v : Z -> list Z) (base : Z -> Z) (ino : list inode) (ip : nat) (i : Z) (y : inode) : Prop := {
  ld_tab : itab v ino;
  ld_ip : (ip < NINODE)%nat;
  ld_ent : ino !! ip = Some y;
  ld_ref : ref_to ROOTDEV i y;
  ld_sync : get_inode v y = y;
  ld_lock : exists nm, i_lock y = mkSleeplock 1 nm pid0;
  ld_free : forall j z, j <> ip -> ino !! j = Some z -> sk_locked (i_lock z) = 0;
  ld_alloc : allocated v i;
  ld_refs : forall j, refs ino j = base j + (if j =? i then 1 else 0);
  ld_slots : (2 <= nfree ino + bit (refs ino i = 1%Z))%nat;
  ld_keep : i_nlink y <> 0 \/ 2 <= refs ino i }.

(** The fields of a synchronised inode are those on disk. *)
Lemma synced_fields v i y : ref_to ROOTDEV i y -> get_inode v y = y ->
  i_addrs y = i_addrs (dinode v i) /\ i_size y = i_size (dinode v i) /\ i_type y = i_type (dinode v i) /\ i_nlink y = i_nlink (dinode v i).
Proof. intros (_ & R2 & R3) E. rewrite <- R3, <- E. done. Qed.

Lemma t_lock_cursor v base bl ino ip i : cursor v base ino ip i -> room ∅ bl ->
  {{ fs v ∅ bl ino }} ilock (Some ip) {{ _, fun s => exists y, lockd v base (<[ip := y]> ino) ip i y /\ fs v ∅ bl (<[ip := y]> ino) s }}.
Proof.
  intros [C1 C2 (x & Hx & Hr) C4 C5 C6 C7] Hroom. destruct (locked_inode_spec v ino ip x i C1 Hx Hr) as (Y1 & Y2 & Y3 & Y4 & Y5 & Y6 & Ya & Yb & Yc & Yd).
  set (y := locked_inode v x) in *. pose proof Hr as (R1 & R2 & R3). pose proof (lookup_lt_Some _ _ _ Hx) as Hlt.
  assert (Hip : (ip < NINODE)%nat) by (by rewrite <- (ia_len _ _ _ C1)).
  eapply t_conseq; [apply (t_ilock start nlog me s0 sb v bl ino ip x); try done | done |].
  - by apply (C2 ip).
  - lia.
  - rewrite R3. apply C4.
  - intros _. destruct C4 as [_ C4]. rewrite <- R3 in C4. exact C4.
  - intros [] s Hs. exists y. split; [| done].
    destruct (itab_touch v ino ip x y C1 Hx R1) as (T1 & T2 & T3); [lia | congruence | congruence | done |].
    assert (Erefs : forall j, refs (<[ip := y]> ino) j = refs ino j).
    { intros j. rewrite T2, Y1, R3. destruct (Z.eqb_spec j i) as [-> |]; [| done]. by rewrite (refs_some v ino ip x i C1 Hx Hr). }
    split; try done.
    + by apply list_lookup_insert_eq.
    + split_and!; [lia | done | done].
    + rewrite Y4. by eexists.
    + intros j z Hj Hz. rewrite list_lookup_insert_ne in Hz by done. by apply (C2 j).
    + intros j. by rewrite Erefs.
    + rewrite Erefs, T3. unfold bit at 1. rewrite decide_False by lia. lia.
    + rewrite Erefs, Yd. done.
Qed.

Lemma lockd_small v base ino ip i y : lockd v base ino ip i y -> base_ok base -> forall k z, ino !! k = Some z -> i_ref z < 2^31 - 2.
Proof. intros H Hb. eapply ref_small; [apply H | done | apply H]. Qed.

Lemma lockd_refs v base ino ip i y : lockd v base ino ip i y -> refs ino i = i_ref y.
Proof. intros [C1 C2 C3 C4 _ _ _ _ _ _ _]. by apply (refs_some v ino ip). Qed.

Lemma t_drop v base bl ino ip i y : lockd v base ino ip i y -> base_ok base ->
  {{ fs v ∅ bl ino }} iunlockput ip {{ _, fun s => exists ino', restored v base ino' /\ fs v ∅ bl ino' s }}.
Proof.
  intros H Hb. pose proof (lockd_small _ _ _ _ _ _ H Hb) as Hsm. pose proof (lockd_refs _ _ _ _ _ _ H) as Er.
  destruct H as [C1 C2 C3 C4 C5 [nm C6] C7 C8 C9 C10 C11].
  eapply t_conseq; [apply (t_iunlockput v bl ino ip y nm); try done | done |].
  - specialize (Hsm _ _ C3). destruct C4. lia.
  - intros E. rewrite Er in C11. destruct C11; [done | lia].
  - intros [] s Hs. exists (<[ip := putted y]> ino). split; [| done].
    destruct (put_tab v ino ip y i C1 C3 C4 C5) as (T1 & T2 & T3). split; [done | | |].
    + intros j z [(-> & <- & _) | [Hj Hz]]%list_lookup_insert_Some; [done | by apply (C7 j)].
    + intros j. rewrite T2, C9. lia.
    + rewrite T3. by rewrite Er in C10.
Qed.

Lemma t_unlock v base bl ino ip i y : lockd v base ino ip i y -> base_ok base ->
  {{ fs v ∅ bl ino }} iunlock (Some ip) {{ _, fun s => exists ino', cursor v base ino' ip i /\ fs v ∅ bl ino' s }}.
Proof.
  intros H Hb. pose proof (lockd_refs _ _ _ _ _ _ H) as Er. destruct H as [C1 C2 C3 C4 C5 [nm C6] C7 C8 C9 C10 C11].
  pose proof C4 as (R1 & R2 & R3). destruct (synced_fields v i y C4 C5) as (_ & _ & _ & Yd).
  eapply t_conseq; [apply (t_iunlock start nlog me s0 sb v ∅ bl ino ip y); try done; [by rewrite (held_id y nm) | lia] | done |].
  intros [] s Hs. exists (<[ip := unheld y]> ino). split; [| done].
  destruct (itab_touch v ino ip y (unheld y) C1 C3 R1) as (T1 & T2 & T3); [cbn; lia | done | done | |].
  { intros _. rewrite <- C5 at 2. by destruct y. }
  assert (Erefs : forall j, refs (<[ip := unheld y]> ino) j = refs ino j).
  { intros j. rewrite T2, R3. destruct (Z.eqb_spec j i) as [-> |]; [| done]. by rewrite Er. }
  split; try done.
  - intros j z [(-> & <- & _) | [Hj Hz]]%list_lookup_insert_Some; [done | by apply (C7 j)].
  - exists (unheld y). split; [apply list_lookup_insert_eq; by eapply lookup_lt_Some | done].
  - intros j. by rewrite Erefs.
  - rewrite Erefs, T3. unfold bit at 1. cbn. rewrite decide_False by lia. lia.
  - rewrite Erefs, <- Yd. done.
Qed.

Lemma got_refs v ino j k ino' : itab v ino -> inum_ok j -> got ino j k ino' ->
  forall i, refs ino' i = refs ino i + (if i =? j then 1 else 0).
Proof.
  intros Ht Hj Hg i. destruct (got_itab sb v ino j k ino' Ht Hj Hg) as (Ht' & x & y & Hx & -> & (R1 & R2 & R3) & Er & _ & Hnew & Hold).
  rewrite (refs_insert v ino k x y i Ht Ht' Hx R2).
  - rewrite R3. destruct (Z.eqb_spec i j) as [-> |]; [| lia]. rewrite Er. f_equal.
    pose proof (ia_ref _ _ _ Ht _ _ Hx). destruct (decide (0 < i_ref x)) as [Hp | Hp].
    + rewrite Hold in R2, R3 by done. symmetry. by apply (refs_some v ino k).
    + assert (i_ref x = 0) as -> by lia. symmetry. apply refs_none. inversion Hg as [x' Hx' (Hr' & _) | x' Hx' Hr' Hno]; [| done].
      assert (x' = x) by congruence. subst x'. lia.
  - intros Hp. rewrite (Hold Hp). done.
  - intros E0. rewrite R3. inversion Hg as [x' Hx' (Hr' & _) | x' Hx' Hr' Hno]; [| done].
    assert (x' = x) by congruence. subst x'. lia.
Qed.

(** The entry of the directory that is left, after [iget] of the next inode. *)
Lemma got_left v base ino ip i y j k ino' : lockd v base ino ip i y -> inum_ok j -> got ino j k ino' ->
  exists z, ino' !! ip = Some z /\ ref_to ROOTDEV i z /\ get_inode v z = z /\ i_lock z = i_lock y /\ i_nlink z = i_nlink y /\
    i_ref z = i_ref y + (if decide (k = ip) then 1 else 0).
Proof.
  intros H Hj Hg. destruct (got_itab sb v ino j k ino' (ld_tab _ _ _ _ _ _ H) Hj Hg) as (_ & x & w & Hx & -> & _ & _ & _ & _ & Hold).
  pose proof (ld_ref _ _ _ _ _ _ H) as (R1 & R2 & R3). pose proof (ld_ent _ _ _ _ _ _ H) as He. destruct (decide (k = ip)) as [-> | Hne].
  - assert (x = y) by congruence. subst x. rewrite (Hold R1). exists (set_i_ref (i_ref y + 1) y).
    split; [apply list_lookup_insert_eq; by eapply lookup_lt_Some |]. split_and!; try done.
    + split_and!; [cbn; lia | done | done].
    + transitivity (set_i_ref (i_ref y + 1) (get_inode v y)); [done | by rewrite (ld_sync _ _ _ _ _ _ H)].
  - exists y. rewrite list_lookup_insert_ne by done. split_and!; try done; [by apply H | lia].
Qed.

Lemma t_step v base bl ino ip i y j k ino' : lockd v base ino ip i y -> base_ok base -> allocated v j -> i_nlink (dinode v j) <> 0 ->
  got ino j k ino' ->
  {{ fs v ∅ bl ino' }} iunlockput ip {{ _, fun s => exists ino'', cursor v base ino'' k j /\ fs v ∅ bl ino'' s }}.
Proof.
  intros H Hb [Hj Hjt] Hn Hg. pose proof (lockd_small _ _ _ _ _ _ H Hb) as Hsm. pose proof (lockd_refs _ _ _ _ _ _ H) as Er.
  destruct (got_left _ _ _ _ _ _ _ _ _ H Hj Hg) as (z & Hz & Hrz & Hsz & Hlz & Hnz & Ez).
  pose proof (got_refs _ _ _ _ _ (ld_tab _ _ _ _ _ _ H) Hj Hg) as Hrefs.
  destruct (got_itab sb v ino j k ino' (ld_tab _ _ _ _ _ _ H) Hj Hg) as (Ht' & x & w & Hx & E' & (W1 & W2 & W3) & Ew & Hlw & Hnew & Hold).
  destruct H as [C1 C2 C3 C4 C5 [nm C6] C7 C8 C9 C10 C11].
  pose proof C4 as (R1 & R2 & R3). pose proof (ia_ref _ _ _ C1 _ _ Hx) as Hrx.
  eapply t_conseq; [apply (t_iunlockput v bl ino' ip z nm); try done | done |].
  - congruence.
  - specialize (Hsm _ _ C3). rewrite Ez. case_match; lia.
  - intros E1. rewrite Hnz. destruct C11 as [? | Hge]; [done |]. rewrite Er in Hge. case_match; lia.
  - intros [] s Hs. exists (<[ip := putted z]> ino'). split; [| done].
    destruct (put_tab v ino' ip z i Ht' Hz Hrz Hsz) as (T1 & T2 & T3).
    assert (Hrefs' : forall l, refs (<[ip := putted z]> ino') l = base l + (if l =? j then 1 else 0)) by (intros l; rewrite T2, Hrefs, C9; lia).
    pose proof (nfree_insert ino k x w Hx) as Hnf. rewrite <- E' in Hnf.
    assert (Ebj : k <> ip -> i_ref x = base j).
    { intros Hne. assert (j <> i).
      { intros ->. inversion Hg as [x' Hx' Hr' | x' Hx' Hr' Hno]; [| by apply (Hno ip y)].
        apply Hne. eapply (ia_uniq _ _ _ C1); try done; [apply Hr' | destruct Hr' as (_ & _ & ->); by rewrite R3]. }
      specialize (Hrefs j). rewrite Z.eqb_refl, C9, (proj2 (Z.eqb_neq j i)) in Hrefs by done.
      rewrite (refs_some v ino' k w j Ht') in Hrefs; [lia | | done]. rewrite E'. apply list_lookup_insert_eq. by eapply lookup_lt_Some. }
    assert (Hlk : (k < length ino)%nat) by (by eapply lookup_lt_Some).
    split; try done.
    + intros l u [(-> & <- & _) | [Hl Hu]]%list_lookup_insert_Some; [done |]. rewrite E' in Hu.
      apply list_lookup_insert_Some in Hu as [(-> & <- & _) | [Hl' Hu]]; [rewrite Hlw; by apply (C7 l) | by apply (C7 l)].
    + destruct (decide (k = ip)) as [-> | Hne].
      * exists (putted z). split; [apply list_lookup_insert_eq; rewrite E', length_insert; done |].
        rewrite E', list_lookup_insert_eq in Hz by done. injection Hz as <-. split_and!; [cbn; lia | done | done].
      * exists w. rewrite list_lookup_insert_ne by done. rewrite E', list_lookup_insert_eq by done. done.
    + rewrite T3, Hrefs', Z.eqb_refl. rewrite Er in C10. unfold bit in *.
      destruct (decide (k = ip)) as [-> | Hne].
      * assert (x = y) by congruence. subst x. assert (j = i) as -> by (rewrite Hold in W3 by done; cbn in W3; congruence).
        specialize (C9 i). rewrite Z.eqb_refl, Er in C9. repeat case_decide; lia.
      * specialize (Ebj Hne). repeat case_decide; lia.
    + by left.
Qed.

Lemma t_put_cursor v base bl ino ip i : cursor v base ino ip i -> base_ok base ->
  {{ fs v ∅ bl ino }} iput ip {{ _, fun s => exists ino', restored v base ino' /\ fs v ∅ bl ino' s }}.
Proof.
  intros [C1 C2 (x & Hx & Hr) C4 C5 C6 C7] Hb. pose proof (ref_small v ino base i C1 Hb C5 _ _ Hx) as Hsm.
  pose proof Hr as (R1 & R2 & R3). pose proof (refs_some v ino ip x i C1 Hx Hr) as Er. rewrite Er in *.
  eapply t_conseq; [apply (t_iput start nlog me s0 sb v ∅ bl ino ip x); try done; [lia |] | done |].
  - intros E1 Hv. destruct (ia_ok _ _ _ C1 _ _ Hx R1) as (_ & _ & Hs). destruct (synced_fields v i x Hr (Hs Hv)) as (_ & _ & _ & ->).
    destruct C7; [done | lia].
  - intros [] s Hs. exists (<[ip := set_i_ref (i_ref x - 1) x]> ino). split; [| done].
    destruct (itab_touch v ino ip x (set_i_ref (i_ref x - 1) x) C1 Hx R1) as (T1 & T2 & T3); [cbn; lia | done | done | |].
    { intros Hv. destruct (ia_ok _ _ _ C1 _ _ Hx R1) as (_ & _ & Hsx).
      transitivity (set_i_ref (i_ref x - 1) (get_inode v x)); [done | by rewrite Hsx]. }
    split; [done | | |].
    + intros j z [(-> & <- & _) | [Hj Hz]]%list_lookup_insert_Some; [by apply (C2 j x) | by apply (C2 j)].
    + intros j. rewrite T2, R3, C5. specialize (C5 i). rewrite Z.eqb_refl in C5. destruct (Z.eqb_spec j i) as [-> |]; cbn; lia.
    + rewrite T3. unfold bit in *. cbn. repeat case_decide; lia.
Qed.

(** The directory that a locked inode is. *)
Lemma lockd_dok v base ino ip i y : tree v -> lockd v base ino ip i y -> i_type y = T_DIR -> dok v y /\
  forall name, dir_find v y name = dir_find v (dinode v i) name.
Proof.
  intros [F1 F2 F3] H Ht. destruct (synced_fields v i y (ld_ref _ _ _ _ _ _ H) (ld_sync _ _ _ _ _ _ H)) as (Ya & Yb & Yc & _).
  pose proof (ld_alloc _ _ _ _ _ _ H) as Ha. pose proof (ld_ref _ _ _ _ _ _ H) as (_ & R2 & _). split.
  - split; [| done | rewrite Yb; apply F2; [done | congruence]].
    eapply (fok_ext sb); [apply (fy_file _ _ F1 i Ha) | done | done | by rewrite R2].
  - intros name. by apply dir_find_ext.
Qed.

Lemma dir_find_ent v x name j off : dir_find v x name = Some (j, off) -> j <> 0 /\ exists de, de ∈ dir_ents v x /\ de_inum de = j.
Proof.
  unfold dir_find. destruct (list_find (is_entry name) (dir_ents v x)) as [[k de] |] eqn:E; [| done]. intros [= <- _].
  apply list_find_Some in E as (Hk & [H0 _] & _). split; [done |]. exists de. split; [by eapply list_elem_of_lookup_2 | done].
Qed.

(** What [namex] returns: the inode, with a reference to it, and the last name. *)
Definition named (v : Z -> list Z) (base : Z -> Z) (parent : bool) (i : Z) (es : list (list Z)) (r : option nat * list Z) (ino : list inode) : Prop :=
  match walk_path v parent i es with
  | Some j => exists ip, r.1 = Some ip /\ cursor v base ino ip j /\ (parent = true -> last es = Some (name_of r.2))
  | None => r.1 = None /\ restored v base ino
  end.

Lemma t_namex_loop v base bl parent : tree v -> base_ok base -> room ∅ bl ->
  forall fuel path name ino ip i, cursor v base ino ip i -> (length path < fuel)%nat -> length name = Z.to_nat DIRSIZ ->
  Forall (fun c => c <> 0) path ->
  {{ fs v ∅ bl ino }} namex_loop fuel ip path parent name
  {{ r, fun s => exists ino', named v base parent i (path_elems path) r ino' /\ fs v ∅ bl ino' s }}.
Proof.
  intros Htr Hb Hroom. induction fuel as [| fuel IH]; intros path name ino ip i Hc Hl Hn Hp; [lia |]. cbn [namex_loop].
  pose proof (skipelem_spec path name Hn Hp) as Hsk. destruct (path_elems path) as [| e es] eqn:Ees.
  { rewrite Hsk. destruct parent.
    - eapply t_bind; [by eapply t_put_cursor |]. intros []. apply t_ex; intros ino'. apply t_pure. intros Hrs.
      apply t_ret. intros s Hs. by exists ino'.
    - apply t_ret. intros s Hs. exists ino. split; [| done]. cbn. by exists ip. }
  destruct Hsk as (path' & name' & -> & Ep' & En' & Hn' & Hl' & Hp' & Hnil).
  eapply t_bind; [by eapply t_lock_cursor |]. intros []. apply t_ex; intros y. apply t_pure. intros Hld.
  eapply t_geti; [apply Hld |]. destruct (synced_fields v i y (ld_ref _ _ _ _ _ _ Hld) (ld_sync _ _ _ _ _ _ Hld)) as (_ & _ & Ety & _).
  unfold named. cbn [walk_path]. rewrite <- Ety. destruct (Z.eqb_spec (i_type y) T_DIR) as [Hty | Hty]; cbn [negb].
  2: { eapply t_bind; [by eapply t_drop |]. intros []. apply t_ex; intros ino'. apply t_pure. intros Hrs. apply t_ret. intros s Hs. by exists ino'. }
  rewrite (bool_decide_ext (path' = []) (es = []) Hnil). destruct (parent && bool_decide (es = [])) eqn:Epar.
  { apply andb_true_iff in Epar as [-> Hes%bool_decide_eq_true]. subst es. eapply t_bind; [by eapply t_unlock |]. intros [].
    apply t_ex; intros ino'. apply t_pure. intros Hcu. apply t_ret. intros s Hs. exists ino'. split; [| done].
    rewrite Hes. exists ip. split_and!; [done | done |]. intros _. cbn. by rewrite En'. }
  destruct (lockd_dok _ _ _ _ _ _ Htr Hld Hty) as [Hdok Hfind]. pose proof (lockd_small _ _ _ _ _ _ Hld Hb) as Hsm.
  assert (Hfr : (1 <= nfree (<[ip := y]> ino))%nat) by (pose proof (ld_slots _ _ _ _ _ _ Hld); unfold bit in *; case_decide; lia).
  eapply t_bind.
  { apply (t_dirlookup start nlog me s0 sb v bl _ ip y name'); try done; [apply Hld | apply Hld |].
    intros k z Hz. specialize (Hsm k z Hz). lia. }
  rewrite <- (dir_find_name v y name'), Hfind, En'. intros r. destruct (dir_find v (dinode v i) e) as [[j off] |] eqn:Ef.
  - destruct (dir_find_ent _ _ _ _ _ Ef) as (Hj0 & de & Hde & Ede).
    destruct (tr_ent _ Htr i de (ld_alloc _ _ _ _ _ _ Hld)) as [Hja Hjn]; [congruence | done | congruence |]. rewrite Ede in Hja, Hjn.
    apply t_ex; intros k. apply t_ex; intros ino'. apply t_pure. intros [-> Hg].
    eapply t_bind; [by eapply t_step |]. intros []. apply t_ex; intros ino''. apply t_pure. intros Hcu.
    eapply t_conseq; [apply (IH path' name' ino'' k j); try done; lia | done |]. intros r s (ino3 & H3 & Hs). exists ino3. split; [| done].
    rewrite Ep' in H3. unfold named in H3. destruct (walk_path v parent j es) as [j' |]; [| done].
    destruct H3 as (ip' & E1 & Hc' & Hlast). exists ip'. split_and!; [done | done |]. intros Hpar. specialize (Hlast Hpar).
    destruct es; [done | by rewrite last_cons_cons].
  - apply t_pure. intros ->. eapply t_bind; [by eapply t_drop |]. intros []. apply t_ex; intros ino'. apply t_pure. intros Hrs.
    apply t_ret. intros s Hs. by exists ino'.
Qed.

(** ** namex *)

Definition cwd0 : option nat := p_cwd (proc_at (kn_k s0) me).

Lemma kframe_cwd k k' i : kframe k k' -> p_cwd (proc_at k' i) = p_cwd (proc_at k i).
Proof.
  intros HF. unfold proc_at. destruct (k_procs k !! i) as [p |] eqn:E.
  - destruct (kframe_lookup _ _ _ _ HF E) as (p' & -> & [-> | [_ ->]]); done.
  - assert (k_procs k' !! i = None) as ->; [| done].
    apply lookup_ge_None. rewrite <- (Forall2_length _ _ _ (kf_procs _ _ HF)). by apply lookup_ge_None.
Qed.

Lemma t_my_proc v h bl ino :
  {{ fs v h bl ino }} my_proc {{ p, fun s => p_cwd p = cwd0 /\ fs v h bl ino s }}.
Proof.
  intros s Hs. pose proof (bo_ctx _ _ _ _ _ (f_bio _ _ _ _ _ _ _ _ _ _ Hs)) as Hk.
  eexists _, _. split.
  - unfold my_proc, my_index, bind. rewrite (lk_ok _ _ _ _ (myproc_ctx me _ Hk)). cbn [obind ret].
    apply lk_ok. reflexivity.
  - split; [| rewrite set_kn_k_k; apply fs_k; [done | by apply kctx_cyc | apply kframe_cyc]].
    apply (kframe_cwd _ (kn_k s)), Hs.
Qed.

(** The inode a path starts from. *)
Definition from_inode (ino : list inode) (path : list Z) : option Z :=
  if bool_decide (head path = Some SLASH) then Some ROOTINO
  else match cwd0 with Some c => i_inum <$> ino !! c | None => None end.

(** The root directory exists, and the current directory is referenced. *)
Definition roots_ok (v : Z -> list Z) (ino : list inode) : Prop :=
  allocated v ROOTINO /\ i_nlink (dinode v ROOTINO) <> 0 /\
  exists c x, cwd0 = Some c /\ ino !! c = Some x /\ 0 < i_ref x /\ allocated v (i_inum x).

Lemma cursor_got v base ino i k ino' : restored v base ino -> allocated v i -> i_nlink (dinode v i) <> 0 -> got ino i k ino' ->
  cursor v base ino' k i.
Proof.
  intros [S1 S2 S3 S4] [Ha Hat] Hn Hg. pose proof (got_refs _ _ _ _ _ S1 Ha Hg) as Hrefs.
  destruct (got_itab sb v ino i k ino' S1 Ha Hg) as (Ht' & x & w & Hx & E' & W & Ew & Hlw & Hnew & Hold).
  pose proof (nfree_insert ino k x w Hx) as Hnf. rewrite <- E' in Hnf. pose proof (ia_ref _ _ _ S1 _ _ Hx) as Hrx.
  assert (Hw : ino' !! k = Some w) by (rewrite E'; apply list_lookup_insert_eq; by eapply lookup_lt_Some).
  split; [done | | by exists w | done | | | by left].
  - intros j u Hu. rewrite E' in Hu. apply list_lookup_insert_Some in Hu as [(-> & <- & _) | [_ Hu]]; [rewrite Hlw |]; by eapply S2.
  - intros j. by rewrite Hrefs, S3.
  - rewrite (refs_some v ino' k w i Ht' Hw W). unfold bit in *. repeat case_decide; lia.
Qed.

Lemma cursor_dup v base ino k x : restored v base ino -> ino !! k = Some x -> 0 < i_ref x -> allocated v (i_inum x) ->
  cursor v base (<[k := set_i_ref (i_ref x + 1) x]> ino) k (i_inum x).
Proof.
  intros [S1 S2 S3 S4] Hx Hr Ha. destruct (ia_ok _ _ _ S1 _ _ Hx Hr) as (D1 & D2 & D3).
  destruct (itab_touch v ino k x (set_i_ref (i_ref x + 1) x) S1 Hx Hr) as (T1 & T2 & T3); [cbn; lia | done | done | |].
  { intros Hv. transitivity (set_i_ref (i_ref x + 1) (get_inode v x)); [done | by rewrite D3]. }
  pose proof (refs_some v ino k x (i_inum x) S1 Hx ltac:(done)) as Er.
  split; [done | | | done | | |].
  - intros j u [(-> & <- & _) | [_ Hu]]%list_lookup_insert_Some; [by apply (S2 j x) | by apply (S2 j)].
  - eexists. split; [apply list_lookup_insert_eq; by eapply lookup_lt_Some |]. split_and!; [cbn; lia | done | done].
  - intros j. rewrite T2, <- S3. destruct (Z.eqb_spec j (i_inum x)) as [-> |]; cbn; lia.
  - rewrite T3. lia.
  - right. rewrite T2, Z.eqb_refl. cbn. lia.
Qed.

Lemma t_namex v base bl ino path parent name : tree v -> base_ok base -> room ∅ bl -> restored v base ino -> roots_ok v ino ->
  length name = Z.to_nat DIRSIZ -> Forall (fun c => c <> 0) path ->
  {{ fs v ∅ bl ino }} namex path parent name
  {{ r, fun s => exists i ino', (from_inode ino path = Some i /\ named v base parent i (path_elems path) r ino') /\ fs v ∅ bl ino' s }}.
Proof.
  intros Htr Hb Hroom Hrs (Hroot & Hrn & c & x & Ec & Hx & Hrx & Hxa) Hn Hp. pose proof Hrs as [S1 S2 S3 S4]. unfold namex.
  assert (Hsm : forall k y, ino !! k = Some y -> i_ref y < 2^31 - 2).
  { intros k y Hy. pose proof (ia_ref _ _ _ S1 _ _ Hy). destruct (decide (0 < i_ref y)) as [Hpo | Hpo]; [| lia].
    destruct (ia_ok _ _ _ S1 _ _ Hy Hpo) as (D1 & _). rewrite <- (refs_some v ino k y (i_inum y) S1 Hy) by done.
    rewrite S3. specialize (Hb (i_inum y)). lia. }
  apply (t_bind _ _ _ (fun ip s => exists i ino', (from_inode ino path = Some i /\ cursor v base ino' ip i) /\ fs v ∅ bl ino' s)).
  - unfold from_inode. case_bool_decide.
    + eapply t_conseq; [apply (t_iget start nlog me s0 sb v ∅ bl ino ROOTINO); [apply S1 | lia |] | done |].
      { intros k y Hy. specialize (Hsm k y Hy). lia. }
      intros ip s (ino' & Hg & Hs). exists ROOTINO, ino'. split; [| done]. split; [done | by eapply cursor_got].
    + eapply t_bind; [apply t_my_proc |]. intros p. apply t_pure. intros ->. rewrite Ec. specialize (Hsm _ _ Hx).
      eapply t_conseq; [apply (t_idup start nlog me s0 sb v ∅ bl ino c x); [done | lia] | done |].
      intros ip s [-> Hs]. exists (i_inum x), (<[c := set_i_ref (i_ref x + 1) x]> ino). split; [| done].
      split; [by rewrite Hx | by apply cursor_dup].
  - intros ip. apply t_ex; intros i. apply t_ex; intros ino'. apply t_pure. intros [Ei Hcu].
    eapply t_conseq; [apply (t_namex_loop v base bl parent Htr Hb Hroom _ path name ino' ip i); try done; lia | done |].
    intros r s (ino2 & H2 & Hs). by exists i, ino2.
Qed.

End Path.
