(* ===== verification/FsLink.v ===== *)
(** * Adding an entry to a directory

    [dirlink] of kernel/fs.c: after it, [dirlookup] finds the new name, and every
    other name as before. *)

From S2P Require Import Prelude Riscv Mem Bytes StringLib Spinlock Kalloc Vm Proc ProcSpec Kctx State Sleeplock Bio BioList BioSpec BioRun RamDisk Log LogSpec BioProps LogProps LogTx Uart Printf Console Fs FsRun FsBlocks FsFile FsIo FsInode FsProps FsDir FsPath.

(** ** Directory entries as bytes *)

Lemma length_strncpy_l n t : length (strncpy_l n t) = n.
Proof. unfold strncpy_l. rewrite length_take, length_app, length_take, length_replicate. lia. Qed.

Lemma dirent_roundtrip de : 0 <= de_inum de < 2^16 -> length (de_name de) = Z.to_nat DIRSIZ -> dirent_of (dirent_bytes de) = de.
Proof.
  intros Hi Hn. destruct de as [i nm]. cbn [de_inum de_name] in *. unfold dirent_of, dirent_bytes, get_u16, getle, slice. cbn [de_inum de_name].
  change (Z.to_nat 0) with 0%nat. rewrite drop_0, take_app_le, drop_app_ge by (rewrite length_le_bytes; lia). rewrite length_le_bytes, Nat.sub_diag, drop_0.
  rewrite <- (length_le_bytes 2 i) at 1. rewrite firstn_all, of_le_bytes. f_equal; [by apply Z.mod_small |]. rewrite <- Hn. apply firstn_all.
Qed.

Lemma strncmp_refl n : forall p q, take n (cstr p) = take n (cstr q) -> strncmp_l n p q = 0.
Proof.
  induction n as [| n IH]; intros p q E; [done |]. cbn [strncmp_l].
  destruct p as [| c p], q as [| d q]; cbn in *; [done | | |].
  - destruct (Z.eqb_spec d 0); [by subst | done].
  - destruct (Z.eqb_spec c 0); [by subst | done].
  - destruct (Z.eqb_spec c 0) as [-> | Hc], (Z.eqb_spec d 0) as [-> | Hd]; cbn in E; try done.
    injection E as -> E. rewrite Z.eqb_refl. cbn. by apply IH.
Qed.

Lemma cstr_idem l : cstr (cstr l) = cstr l.
Proof. induction l as [| c l IH]; cbn; [done |]. destruct (Z.eqb_spec c 0); [done |]. cbn. by rewrite (proj2 (Z.eqb_neq _ _)), IH. Qed.

Lemma cstr_take n l : cstr (take n l) = take n (cstr l).
Proof. revert n. induction l as [| c l IH]; intros [| n]; cbn; try done. case_match; [done |]. cbn. by rewrite IH. Qed.

Lemma cstr_zeros n : cstr (replicate n 0) = [].
Proof. by destruct n. Qed.

Lemma cstr_app_end s t : cstr s = s -> cstr (s ++ t) = s ++ cstr t.
Proof.
  induction s as [| c s IH]; cbn; [done |]. destruct (Z.eqb_spec c 0); [done |]. intros [= E]. by rewrite IH.
Qed.

(** The name that [strncpy] stores is the name that is looked for. *)
Lemma namecmp_strncpy name : namecmp name (strncpy_l (Z.to_nat DIRSIZ) name) = 0.
Proof.
  apply strncmp_refl. unfold strncpy_l. set (n := Z.to_nat DIRSIZ). rewrite cstr_take, take_take, Nat.min_id.
  rewrite cstr_app_end by (by rewrite cstr_take, cstr_idem). rewrite cstr_zeros, app_nil_r, take_take, Nat.min_id. done.
Qed.

Section Link.
Context (start nlog : Z) `{PF : Platform} `{PA : Patience} `{BD : !BlockDev} `{BO : !BlockDevOk BD} `{LY : !layout start nlog}.
Context (me : nat) (s0 : kern) (sb : superblock) `{FL : !fslayout start nlog sb}.
Abbreviation fs := (fs start nlog me s0 sb).
Abbreviation fok := (fok sb).
Abbreviation dok := (dok sb).
Abbreviation dwf := (dwf sb).
Abbreviation frees := (frees sb).
Abbreviation wrote := (wrote sb).
Abbreviation budget := (budget nlog sb).
Abbreviation wt := (wt sb).
Abbreviation inum_ok := (inum_ok sb).

(** The bytes a write leaves and the ones it changes. *)
Lemma fdata_wrote v x off bs v' x' : wrote v x off bs v' x' -> 0 <= off -> off + Z.of_nat (length bs) <= MAXFILE * BSIZE ->
  fdata v' x' off (Z.of_nat (length bs)) = bs /\
  forall o n, 0 <= o -> o + n <= MAXFILE * BSIZE -> o + n <= off \/ off + Z.of_nat (length bs) <= o -> fdata v' x' o n = fdata v x o n.
Proof.
  intros W Ho Hm. split.
  - apply list_eq. intros i. rewrite lookup_fdata. case_decide; [| by rewrite lookup_ge_None_2 by lia].
    rewrite (wo_bytes _ _ _ _ _ _ _ W), decide_True by lia. replace (Z.to_nat (off + Z.of_nat i - off)) with i by lia.
    destruct (lookup_lt_is_Some_2 bs i) as [y ->]; [lia | done].
  - intros o n Hon Hmn Hd. apply list_eq. intros i. rewrite !lookup_fdata. case_decide; [| done].
    rewrite (wo_bytes _ _ _ _ _ _ _ W), decide_False by lia. done.
Qed.

Definition put_ent (k : nat) (de : dirent) (l : list dirent) : list dirent := take k l ++ [de] ++ drop (S k) l.

Lemma length_dir_ents v x : length (dir_ents v x) = Z.to_nat (i_size x / dirent_size).
Proof. unfold dir_ents. by rewrite length_fmap, length_seqZ. Qed.

Lemma dir_ents_size v x : dok v x -> Z.of_nat (length (dir_ents v x)) * dirent_size = i_size x.
Proof.
  intros [Hf _ Hm]. pose proof (fk_size _ _ _ Hf). rewrite length_dir_ents. apply Z.div_exact in Hm; [| done]. unfold dirent_size in *. lia.
Qed.

Lemma length_dirent_bytes de : length (de_name de) = Z.to_nat DIRSIZ -> Z.of_nat (length (dirent_bytes de)) = dirent_size.
Proof. intros H. unfold dirent_bytes. by rewrite length_app, length_le_bytes, H. Qed.

Lemma dok_wrote v x k de v' x' : dok v x -> (k <= length (dir_ents v x))%nat -> length (de_name de) = Z.to_nat DIRSIZ ->
  wrote v x (Z.of_nat k * dirent_size) (dirent_bytes de) v' x' -> dok v' x'.
Proof.
  intros Hd Hk Hn W. pose proof (dir_ents_size v x Hd) as Hs. pose proof (length_dirent_bytes de Hn) as Hl. split; [apply W | |].
  - rewrite (wo_meta _ _ _ _ _ _ _ W). apply Hd.
  - rewrite (wo_size _ _ _ _ _ _ _ W), Hl, <- Hs, <- Z.mul_succ_l, Z.mul_max_distr_nonneg_r by done. apply Z.mod_mul. done.
Qed.

Lemma dir_ents_wrote v x k de v' x' : dok v x -> (k <= length (dir_ents v x))%nat -> 0 <= de_inum de < 2^16 ->
  length (de_name de) = Z.to_nat DIRSIZ -> (Z.of_nat k + 1) * dirent_size <= MAXFILE * BSIZE ->
  wrote v x (Z.of_nat k * dirent_size) (dirent_bytes de) v' x' -> dir_ents v' x' = put_ent k de (dir_ents v x).
Proof.
  intros Hd Hk Hi Hn Hm W. pose proof (dir_ents_size v x Hd) as Hs. pose proof (length_dirent_bytes de Hn) as Hl.
  pose proof (dok_wrote _ _ _ _ _ _ Hd Hk Hn W) as Hd'. pose proof (dir_ents_size v' x' Hd') as Hs'.
  pose proof (wo_size _ _ _ _ _ _ _ W) as Hsz. rewrite Hl in Hsz. pose proof (fk_size _ _ _ (dk_fok _ _ _ Hd)) as Hmx.
  destruct (fdata_wrote _ _ _ _ _ _ W) as [D1 D2]; [unfold dirent_size; lia | rewrite Hl; lia |]. rewrite Hl in D1, D2.
  assert (Hlen : length (dir_ents v' x') = Nat.max (length (dir_ents v x)) (S k)) by (unfold dirent_size in *; lia).
  apply list_eq. intros j. destruct (decide (j < length (dir_ents v' x'))%nat) as [Hj | Hj].
  2: { rewrite !lookup_ge_None_2; [done | | lia]. unfold put_ent. rewrite !length_app, length_take, length_drop. cbn. lia. }
  rewrite lookup_dir_ents by (apply Hd' || (unfold dirent_size in *; lia)). unfold put_ent.
  destruct (decide (j < k)%nat); [| destruct (decide (j = k)) as [-> | Hne]].
  - rewrite lookup_app_l, lookup_take_lt by (rewrite ?length_take; lia).
    rewrite lookup_dir_ents by (apply Hd || (unfold dirent_size in *; lia)). by rewrite D2 by (unfold dirent_size in *; lia).
  - rewrite lookup_app_r by (rewrite length_take; lia). rewrite length_take, Nat.min_l, Nat.sub_diag by lia. cbn [app lookup list_lookup].
    rewrite D1. f_equal. by apply dirent_roundtrip.
  - rewrite lookup_app_r, length_take, Nat.min_l by (rewrite ?length_take; lia).
    rewrite lookup_app_r, lookup_drop by (cbn; lia). cbn [length]. replace (S k + (j - k - 1))%nat with j by lia.
    rewrite lookup_dir_ents by (apply Hd || (unfold dirent_size in *; lia)). by rewrite D2 by (unfold dirent_size in *; lia).
Qed.

(** ** The slot for the new entry *)

Definition slot_of (l : list dirent) : nat :=
  match list_find (fun de => de_inum de = 0) l with Some (k, _) => k | None => length l end.

Lemma slot_of_spec l : (slot_of l <= length l)%nat /\ forall de, l !! slot_of l = Some de -> de_inum de = 0.
Proof.
  unfold slot_of. destruct (list_find _ l) as [[k de] |] eqn:E.
  - apply list_find_Some in E as (Hk & H0 & _). split; [apply Nat.lt_le_incl; by eapply lookup_lt_Some |]. intros de' E'. congruence.
  - split; [done |]. intros de Hd. apply lookup_lt_Some in Hd. lia.
Qed.

Lemma t_dirlink_scan v bl ino dp x : ino !! dp = Some x -> dok v x -> room ∅ bl ->
  forall fuel k, (length (dir_ents v x) < fuel + k)%nat -> (k <= length (dir_ents v x))%nat ->
  {{ fs v ∅ bl ino }} dirlink_scan fuel dp (Z.of_nat k * dirent_size)
  {{ r, fun s => r = Z.of_nat (k + slot_of (drop k (dir_ents v x))) * dirent_size /\ fs v ∅ bl ino s }}.
Proof.
  intros Hx Hd Hr. pose proof Hd as [Hf Hty Hm]. pose proof (fk_size _ _ _ Hf) as Hsz. assert (Emax : MAXFILE * BSIZE < 2^31) by done.
  pose proof (dir_ents_size v x Hd) as Hn. induction fuel as [| fuel IH]; intros k Hk Hle; [lia |]. cbn [dirlink_scan].
  eapply t_geti; [exact Hx |]. destruct (Z.ltb_spec (Z.of_nat k * dirent_size) (i_size x)) as [Hlt | Hge].
  - pose proof (lookup_dir_ents v x k Hlt Hm) as He. unfold slot_of. rewrite (list_find_drop _ _ _ _ He).
    pose proof (lookup_lt_Some _ _ _ He) as Hkl. assert (Hend : Z.of_nat k * dirent_size + dirent_size <= i_size x) by (unfold dirent_size in *; lia).
    assert (Hrl : read_len x (Z.of_nat k * dirent_size) dirent_size = dirent_size).
    { unfold read_len. rewrite (proj2 (Z.ltb_ge _ _)) by lia. lia. }
    eapply t_bind; [apply (t_readi start nlog me s0 sb v bl ino dp x); try done; [unfold dirent_size; lia | lia] |].
    intros r. apply t_pure. intros ->. rewrite Hrl. cbn [fst snd]. rewrite Z.eqb_refl. cbn [negb]. set (de := dirent_of _) in *.
    destruct (Z.eqb_spec (de_inum de) 0) as [E0 | E0].
    + rewrite decide_True by done. apply t_ret. intros s Hs. by rewrite Nat.add_0_r.
    + rewrite decide_False by done. replace (Z.of_nat k * dirent_size + dirent_size) with (Z.of_nat (S k) * dirent_size) by lia.
      eapply t_conseq; [apply (IH (S k)); lia | done |]. intros r s [-> Hs]. split; [| done]. unfold slot_of.
      rewrite !length_drop. destruct (list_find _ _) as [[j d] |]; cbn; f_equal; lia.
  - rewrite drop_ge by (unfold dirent_size in *; lia). apply t_ret. intros s Hs. unfold slot_of. cbn. by rewrite Nat.add_0_r.
Qed.

(** ** dirlink *)

(** The entry that [dirlink] writes. *)
Definition new_ent (name : list Z) (inum : Z) : dirent := mkDirent (u16 inum) (strncpy_l (Z.to_nat DIRSIZ) name).

(** Looking up names after a free slot has been filled. *)
Lemma find_put_ent {A} (P : A -> Prop) `{!forall x, Decision (P x)} (l : list A) k e : (k <= length l)%nat ->
  (forall d, l !! k = Some d -> ~ P d) -> list_find P l = None ->
  list_find P (take k l ++ [e] ++ drop (S k) l) = if decide (P e) then Some (k, e) else None.
Proof.
  intros Hk Hno Hn. rewrite list_find_None in Hn. rewrite list_find_app_r; [| by apply list_find_None, Forall_take].
  rewrite length_take, Nat.min_l by done. cbn. case_decide; cbn; [do 2 f_equal; lia |].
  rewrite (proj2 (list_find_None _ _)) by (by apply Forall_drop). done.
Qed.

Lemma find_put_other {A} (P : A -> Prop) `{!forall x, Decision (P x)} (l : list A) k e : (k <= length l)%nat ->
  (forall d, l !! k = Some d -> ~ P d) -> ~ P e ->
  list_find P (take k l ++ [e] ++ drop (S k) l) = list_find P l.
Proof.
  revert k. induction l as [| d l IH]; intros [| k] Hk Hno He; cbn [length] in Hk; try lia.
  - cbn. by rewrite decide_False.
  - cbn. rewrite decide_False by done. rewrite (decide_False (P := P d)) by (by apply Hno). by rewrite drop_0.
  - cbn [take drop app list_find]. case_decide; [done |]. change (list_find P (take k l ++ e :: drop (S k) l)) with (list_find P (take k l ++ [e] ++ drop (S k) l)).
    rewrite IH; [done | lia | | done]. intros d' Hd'. by apply (Hno d').
Qed.

Lemma dirlink_finds v x name inum v' x' (k := slot_of (dir_ents v x)) : dok v x -> dir_find v x name = None -> 0 < inum < 2^16 ->
  (Z.of_nat k + 1) * dirent_size <= MAXFILE * BSIZE ->
  wrote v x (Z.of_nat k * dirent_size) (dirent_bytes (new_ent name inum)) v' x' ->
  dir_find v' x' name = Some (inum, Z.of_nat k * dirent_size) /\
  forall other, namecmp other (de_name (new_ent name inum)) <> 0 -> dir_find v' x' other = dir_find v x other.
Proof.
  intros Hd Hn Hi Hm W. destruct (slot_of_spec (dir_ents v x)) as [Hk H0]. fold k in Hk, H0.
  assert (Eu : u16 inum = inum) by (apply Z.mod_small; lia).
  assert (Hln : length (de_name (new_ent name inum)) = Z.to_nat DIRSIZ) by apply length_strncpy_l.
  assert (Hne : forall nm d, dir_ents v x !! k = Some d -> ~ is_entry nm d) by (intros nm d Hl [Hz _]; by rewrite (H0 d Hl) in Hz).
  assert (E : dir_ents v' x' = put_ent k (new_ent name inum) (dir_ents v x)).
  { apply dir_ents_wrote; try done. cbn [de_inum new_ent]. rewrite Eu. lia. }
  unfold dir_find in *. rewrite E. unfold put_ent. split.
  - rewrite find_put_ent; [| done | by apply Hne | by destruct (list_find _ (dir_ents v x))].
    rewrite decide_True; [by cbn; rewrite Eu |]. split; [cbn; lia | apply namecmp_strncpy].
  - intros other Ho. rewrite find_put_other; [done | done | by apply Hne |]. by intros [_ Hz].
Qed.

Context `{OUT : !intx s0}.

Lemma t_dirlink v bl ino dp x name inum (k := slot_of (dir_ents v x)) : ino !! dp = Some x -> dok v x -> dwf v -> inum_ok (i_inum x) ->
  dir_find v x name = None -> length ino = NINODE -> (1 <= nfree ino)%nat -> (forall i y, ino !! i = Some y -> i_ref y < 2^31 - 1) ->
  (Z.of_nat k + 1) * dirent_size <= MAXFILE * BSIZE -> budget 5 ∅ bl -> (1 + need x <= length (frees v))%nat ->
  {{ fs v ∅ bl ino }} dirlink dp name inum
  {{ r, fun s => exists v' x' bl', (r = 0 /\ wrote v x (Z.of_nat k * dirent_size) (dirent_bytes (new_ent name inum)) v' x' /\
         (wt bl' <= wt bl + 3)%nat) /\ fs v' ∅ bl' (<[dp := x']> ino) s }}.
Proof.
  intros Hx Hd Hdw Hin Hno Hlen Hfree Hsm Hm Hb Hf. pose proof (dk_fok _ _ _ Hd) as Hfk. pose proof (dir_ents_size v x Hd) as Hs.
  assert (Hroom : room ∅ bl) by (eapply space_room, (budget_space nlog sb); exact Hb). unfold dirlink.
  eapply t_bind; [by apply (t_dirlookup start nlog me s0 sb v bl ino dp x name) |]. rewrite Hno. intros r. apply t_pure. intros ->.
  eapply t_geti; [exact Hx |]. destruct (slot_of_spec (dir_ents v x)) as [Hk _]. fold k in Hk.
  eapply t_bind; [apply (t_dirlink_scan v bl ino dp x Hx Hd Hroom _ 0%nat); rewrite ?length_dir_ents; lia |].
  intros off. apply t_pure. rewrite drop_0, Nat.add_0_l. fold k. intros ->.
  change (mkDirent (u16 inum) _) with (new_ent name inum).
  assert (Hl : Z.of_nat (length (dirent_bytes (new_ent name inum))) = dirent_size) by (apply length_dirent_bytes, length_strncpy_l).
  pose proof (t_writei start nlog me s0 sb v bl ino dp x (Z.of_nat k * dirent_size)
    (KSrc (dirent_bytes (new_ent name inum))) (dirent_bytes (new_ent name inum)) 1
    Hdw Hfk Hx Hin) as T. rewrite Hl in T.
  eapply t_bind; [apply T; clear T; try done |].
  { unfold dirent_size in *. lia. }
  { unfold dirent_size in *. lia. }
  { change (Z.to_nat MAXFILE) with 268%nat. lia. }
  { intros _. unfold dirent_size, BSIZE. pose proof (Z.div_mod (Z.of_nat k * 16) 1024 ltac:(done)).
    pose proof (Z.mod_pos_bound (Z.of_nat k * 16) 1024 ltac:(done)). lia. }
  { apply supplies_kernel. }
  intros r. apply t_ex; intros v'. apply t_ex; intros x'. apply t_ex; intros bl'. apply t_pure. intros (-> & W & Hw & _).
  rewrite Z.eqb_refl. cbn [negb]. apply t_ret. intros s Hs'. exists v', x', bl'. split; [| done]. split_and!; [done | done | lia].
Qed.

End Link.
