(* ===== verification/FsTrunc.v ===== *)
(** * Truncating a file

    [itrunc] of kernel/fs.c returns exactly the blocks of the file to the bitmap. *)

From S2P Require Import Prelude Riscv Mem Bytes StringLib Spinlock Kalloc Vm Proc ProcSpec Kctx State Sleeplock Bio BioList BioSpec BioRun RamDisk Log LogSpec BioProps LogProps LogTx Uart Printf Console Fs FsRun FsBlocks FsFile FsIo FsInode FsProps.

Section Trunc.
Context (start nlog : Z) `{PF : Platform} `{PA : Patience} `{BD : !BlockDev} `{BO : !BlockDevOk BD} `{LY : !layout start nlog}.
Context (me : nat) (s0 : kern) (sb : superblock) `{FL : !fslayout start nlog sb}.
Abbreviation home := (home start nlog).
Abbreviation fs := (fs start nlog me s0 sb).
Abbreviation bm := (sb_bmapstart sb).
Abbreviation bsize := (Z.to_nat BSIZE).
Abbreviation is_data := (is_data sb).
Abbreviation used := (used sb).
Abbreviation dwf := (dwf sb).
Abbreviation iwf := (iwf sb).
Abbreviation fok := (fok sb).
Abbreviation dealloc := (dealloc sb).
Abbreviation budget := (budget nlog sb).

(** ** Freeing a list of blocks *)

Fixpoint dealloc_all (l : list Z) (v : Z -> list Z) : Z -> list Z :=
  match l with [] => v | a :: l => dealloc_all l (dealloc a v) end.

Lemma dealloc_keeps a v c : c <> bm -> dealloc a v c = v c.
Proof. intros. by apply set_at_ne. Qed.

Lemma dealloc_all_keeps l : forall v c, c <> bm -> dealloc_all l v c = v c.
Proof. induction l as [| a l IH]; intros v c Hc; cbn; [done |]. rewrite IH by done. by apply dealloc_keeps. Qed.

Lemma dealloc_all_app l l' : forall v, dealloc_all (l ++ l') v = dealloc_all l' (dealloc_all l v).
Proof. induction l as [| a l IH]; intros v; cbn; [done | apply IH]. Qed.

Lemma length_bm_dealloc a v : length (v bm) = bsize -> length (dealloc a v bm) = bsize.
Proof. intros H. unfold FsBlocks.dealloc. rewrite set_at_eq. unfold bit_clear. by rewrite length_insert. Qed.

Lemma used_dealloc_all l : forall v b, length (v bm) = bsize -> Forall is_data l -> 0 <= b ->
  used (dealloc_all l v) b = used v b && negb (bool_decide (b ∈ l)).
Proof.
  induction l as [| a l IH]; intros v b Hl Hd Hb; cbn [dealloc_all]; [by rewrite andb_true_r |].
  apply Forall_cons in Hd as [Ha Hd]. rewrite IH by (done || by apply length_bm_dealloc).
  rewrite (used_dealloc start nlog) by done. rewrite <- andb_assoc. f_equal.
  destruct (Z.eqb_spec b a) as [-> | Hne]; cbn [negb andb].
  - by rewrite bool_decide_eq_true_2 by set_solver.
  - f_equal. apply bool_decide_ext. set_solver.
Qed.

Lemma length_dealloc_all l : forall v, length (v bm) = bsize -> length (dealloc_all l v bm) = bsize.
Proof. induction l as [| a l IH]; intros v H; cbn; [done |]. by apply IH, length_bm_dealloc. Qed.

Lemma used_others v a l : length (v bm) = bsize -> is_data a -> a ∉ l -> Forall is_data l -> Forall (fun b => used v b = true) l ->
  Forall (fun b => used (dealloc a v) b = true) l.
Proof.
  intros Hl Ha Hna Hd Hu. apply Forall_forall. intros b Hb. rewrite Forall_forall in Hu, Hd. specialize (Hu b Hb). specialize (Hd b Hb).
  destruct (data_pos start nlog sb b Hd). rewrite (used_dealloc start nlog) by (done || lia). rewrite Hu.
  rewrite (proj2 (Z.eqb_neq b a)); [done |]. by intros ->.
Qed.

(** The blocks freed by the two loops: the addresses that are not 0. *)
Definition nonzero (l : list Z) : list Z := filter (fun a => a <> 0) l.

Definition direct (x : inode) (i n : Z) : list Z := nonzero (addr x <$> seqZ i n).
Definition indirect (d : list Z) (j n : Z) : list Z := nonzero ((fun j => get_u32 (4 * j) d) <$> seqZ j n).

Lemma nonzero_cons a l : nonzero (a :: l) = if decide (a = 0) then nonzero l else a :: nonzero l.
Proof. unfold nonzero. rewrite filter_cons. repeat case_decide; done. Qed.

Context `{OUT : !intx s0}.

(** Freeing one more block: logged is the bitmap block only. *)
Lemma t_free v h bl ino a : is_data a -> used v a = true -> h !! bm = None -> space nlog 2 h bl ->
  {{ fs v h bl ino }} bfree ROOTDEV a {{ _, fs (dealloc a v) h (logged bm bl) ino }}.
Proof. intros Ha Hu Hh Hs. by apply (t_bfree start nlog). Qed.

Lemma space_bm n h bl : budget n h bl -> budget n h (logged bm bl).
Proof. unfold FsFile.budget. by rewrite wt_bm. Qed.

Lemma t_itrunc_indirect h bl ino ia i : forall n v j, h !! ia = Some i -> ia <> bm -> h !! bm = None -> budget 2 h bl ->
  length (v bm) = bsize -> Forall is_data (indirect (v ia) j (Z.of_nat n)) -> NoDup (indirect (v ia) j (Z.of_nat n)) ->
  Forall (fun a => used v a = true) (indirect (v ia) j (Z.of_nat n)) ->
  {{ fs v h bl ino }} itrunc_indirect n ROOTDEV i j
  {{ _, fun s => exists bl', (budget 2 h bl' /\ bl ⊆ bl' /\ (wt sb bl' <= wt sb bl)%nat) /\
     fs (dealloc_all (indirect (v ia) j (Z.of_nat n)) v) h bl' ino s }}.
Proof.
  intros n. revert bl. induction n as [| n IH]; intros bl v j Hia Hne Hbm Hb Hlen Hd Hnd Hu; cbn [itrunc_indirect].
  { apply t_ret. intros s Hs. exists bl. split; [split_and!; [done | done | lia] | done]. }
  eapply t_data; [exact Hia |]. cbv zeta. unfold indirect in *. rewrite seqZ_cons in * by lia.
  replace (Z.pred (Z.of_nat (S n))) with (Z.of_nat n) in * by lia. rewrite <- Z.add_1_r in *. cbn [fmap list_fmap] in *.
  set (a := get_u32 (4 * j) (v ia)) in *. rewrite nonzero_cons in *. unfold truthy.
  destruct (decide (a = 0)) as [E | E]; [rewrite E; cbn [Z.eqb negb when]; apply t_bind_ret; by apply IH |].
  rewrite (proj2 (Z.eqb_neq _ _) E). cbn [negb when]. apply Forall_cons in Hd as [Hda Hd]. apply Forall_cons in Hu as [Hua Hu].
  apply NoDup_cons in Hnd as [Hna Hnd].
  eapply t_bind; [apply t_free; try done; by apply (budget_space nlog sb) |]. intros [].
  cbn [dealloc_all]. rewrite <- (dealloc_keeps a v ia Hne). rewrite <- (dealloc_keeps a v ia Hne) in Hd, Hu, Hnd, Hna.
  eapply t_conseq; [apply (IH (logged bm bl) (dealloc a v) (j + 1)); try done | done |].
  - by apply space_bm.
  - by apply length_bm_dealloc.
  - by apply used_others.
  - intros [] s (bl' & (H1 & H2 & H3) & Hs). exists bl'. split; [| done]. rewrite wt_bm in H3. split_and!; [done | | done].
    intros c Hc. apply H2, elem_logged. auto.
Qed.

(** The inode with the addresses from [i] on cleared. *)
Fixpoint zap (n : nat) (i : Z) (x : inode) : inode :=
  match n with O => x | S n => zap n (i + 1) (set_addr i 0 x) end.

Lemma set_addr_0 x i : addr x i = 0 -> set_addr i 0 x = x.
Proof.
  intros E. unfold set_addr. replace (<[Z.to_nat i := 0]> (i_addrs x)) with (i_addrs x); [by destruct x |].
  unfold addr in E. destruct (i_addrs x !! Z.to_nat i) as [a |] eqn:Ea; cbn in E; [by rewrite list_insert_id by congruence |].
  rewrite list_insert_ge; [done | by apply lookup_ge_None].
Qed.

Lemma direct_ext x y i n : (forall j, i <= j < i + n -> addr y j = addr x j) -> direct y i n = direct x i n.
Proof. intros H. unfold direct. f_equal. apply list_fmap_ext. intros k j Hj. apply lookup_seqZ in Hj as [-> Hj]. apply H. lia. Qed.

Lemma t_itrunc_direct ip n : forall v bl ino x i, ino !! ip = Some x -> i_dev x = ROOTDEV -> length (i_addrs x) = Z.to_nat (NDIRECT + 1) ->
  0 <= i -> i + Z.of_nat n <= NDIRECT -> budget 2 ∅ bl -> length (v bm) = bsize ->
  Forall is_data (direct x i (Z.of_nat n)) -> NoDup (direct x i (Z.of_nat n)) -> Forall (fun a => used v a = true) (direct x i (Z.of_nat n)) ->
  {{ fs v ∅ bl ino }} itrunc_direct n ip i
  {{ _, fun s => exists bl', (budget 2 ∅ bl' /\ (wt sb bl' <= wt sb bl)%nat) /\
       fs (dealloc_all (direct x i (Z.of_nat n)) v) ∅ bl' (<[ip := zap n i x]> ino) s }}.
Proof.
  induction n as [| n IH]; intros v bl ino x i Hx Hdev Hla Hi Hin Hb Hlen Hd Hnd Hu; cbn [itrunc_direct zap].
  { apply t_ret. intros s Hs. exists bl. rewrite list_insert_id by done. done. }
  pose proof (lookup_lt_Some _ _ _ Hx) as Hlt. eapply t_geti; [exact Hx |].
  eapply t_arr_get; [done | apply lookup_addr; [done | unfold NDIRECT in *; lia] |]. rewrite Hdev.
  assert (Hset : forall j, i + 1 <= j < i + 1 + Z.of_nat n -> addr (set_addr i 0 x) j = addr x j).
  { intros j Hj. rewrite addr_set by (done || (unfold NDIRECT in *; lia)). by rewrite (proj2 (Z.eqb_neq j i)) by lia. }
  pose proof (direct_ext x (set_addr i 0 x) (i + 1) (Z.of_nat n) Hset) as Eext.
  unfold direct in Hd, Hnd, Hu |- *. rewrite seqZ_cons in Hd, Hnd, Hu |- * by lia.
  replace (Z.pred (Z.of_nat (S n))) with (Z.of_nat n) in * by lia. rewrite <- Z.add_1_r in *. cbn [fmap list_fmap] in *.
  set (a := addr x i) in *. rewrite nonzero_cons in *. unfold truthy.
  fold (direct x (i + 1) (Z.of_nat n)) in *. rewrite <- Eext in *.
  destruct (decide (a = 0)) as [E | E].
  - rewrite E. cbn [Z.eqb negb when]. apply t_bind_ret. rewrite (set_addr_0 x i E) in *. apply IH; try done; lia.
  - rewrite (proj2 (Z.eqb_neq _ _) E). cbn [negb when]. apply Forall_cons in Hd as [Hda Hd]. apply Forall_cons in Hu as [Hua Hu].
    apply NoDup_cons in Hnd as [Hna Hnd]. apply (t_bind _ _ _ (fun _ => fs (dealloc a v) ∅ (logged bm bl) (<[ip := set_addr i 0 x]> ino))).
    { eapply t_bind; [apply t_free; try done; by apply (budget_space nlog sb) |]. intros []. by apply t_upd_inode. }
    intros []. cbn [dealloc_all].
    eapply t_conseq; [apply (IH (dealloc a v) (logged bm bl) (<[ip := set_addr i 0 x]> ino) (set_addr i 0 x) (i + 1)); try done | done |].
    + by apply list_lookup_insert_eq.
    + unfold set_addr. cbn. by rewrite length_insert.
    + lia.
    + lia.
    + by apply space_bm.
    + by apply length_bm_dealloc.
    + by apply used_others.
    + intros [] s (bl' & (H1 & H3) & Hs). exists bl'. rewrite wt_bm in H3. by rewrite list_insert_insert_eq in Hs.
Qed.

(** ** The blocks of a file *)

Definition blocks (v : Z -> list Z) (x : inode) : list Z :=
  direct x 0 NDIRECT ++
  (if addr x NDIRECT =? 0 then [] else indirect (v (addr x NDIRECT)) 0 NINDIRECT ++ [addr x NDIRECT]).

Lemma elem_nonzero a l : a ∈ nonzero l <-> a <> 0 /\ a ∈ l.
Proof. unfold nonzero. by rewrite list_elem_of_filter. Qed.

Lemma elem_direct v x a : a ∈ direct x 0 NDIRECT <-> a <> 0 /\ exists bn, 0 <= bn < NDIRECT /\ fblk v x bn = a.
Proof.
  unfold direct. rewrite elem_nonzero, list_elem_of_fmap. apply and_iff_compat_l. split.
  - intros (bn & -> & Hbn%elem_of_seqZ). exists bn. split; [lia |]. unfold fblk. by rewrite (proj2 (Z.ltb_lt _ _)) by lia.
  - intros (bn & Hbn & E). exists bn. split; [| apply elem_of_seqZ; lia]. unfold fblk in E. by rewrite (proj2 (Z.ltb_lt _ _)) in E by lia.
Qed.

Lemma elem_indirect v x a : addr x NDIRECT <> 0 ->
  a ∈ indirect (v (addr x NDIRECT)) 0 NINDIRECT <-> a <> 0 /\ exists bn, NDIRECT <= bn < MAXFILE /\ fblk v x bn = a.
Proof.
  intros Hn. unfold indirect. rewrite elem_nonzero, list_elem_of_fmap. apply and_iff_compat_l. unfold fblk.
  rewrite (proj2 (Z.eqb_neq _ _) Hn). split.
  - intros (j & -> & Hj%elem_of_seqZ). exists (j + NDIRECT). split; [unfold MAXFILE; lia |].
    rewrite (proj2 (Z.ltb_ge _ _)) by lia. do 2 f_equal. lia.
  - intros (bn & Hbn & E). rewrite (proj2 (Z.ltb_ge _ _)) in E by lia. exists (bn - NDIRECT). split; [done |].
    apply elem_of_seqZ. unfold MAXFILE in Hbn. lia.
Qed.

Lemma NoDup_nonzero (f : Z -> Z) l : NoDup l -> (forall i j, i ∈ l -> j ∈ l -> i <> j -> f i <> 0 -> f i <> f j) -> NoDup (nonzero (f <$> l)).
Proof.
  induction 1 as [| i l Hi Hnd IH]; intros Hf; [constructor |]. cbn [fmap list_fmap]. rewrite nonzero_cons.
  assert (IH' : NoDup (nonzero (f <$> l))) by (apply IH; intros; apply Hf; set_solver). case_decide as E; [done |].
  constructor; [| done]. rewrite elem_nonzero, list_elem_of_fmap. intros (_ & j & Ej & Hj). apply (Hf i j); [set_solver | set_solver | | done | done].
  by intros ->.
Qed.

(** They are the blocks that [owns] says, each once. *)
Lemma blocks_owns v x a : a ∈ blocks v x <-> owns v x a.
Proof.
  unfold blocks, owns. rewrite elem_of_app, (elem_direct v). destruct (Z.eqb_spec (addr x NDIRECT) 0) as [E | E].
  - rewrite E. split.
    + intros [(Ha & bn & Hbn & Hf) | H]; [| by apply elem_of_nil in H]. split; [done |]. right. exists bn. split; [unfold in_file; fslia | done].
    + intros (Ha & [H | (bn & Hbn & Hf)]); [done |]. left. split; [done |]. exists bn. split; [| done]. unfold in_file in Hbn.
      destruct (decide (bn < NDIRECT)) as [? | Hge]; [lia |]. unfold fblk in Hf. rewrite (proj2 (Z.ltb_ge _ _)), E in Hf by lia. done.
  - rewrite elem_of_app, (elem_indirect v x a E), list_elem_of_singleton. split.
    + intros [(Ha & bn & Hbn & Hf) | [(Ha & bn & Hbn & Hf) | ->]]; (split; [done |]); [right; exists bn.. | by left]; (split; [unfold in_file; fslia | done]).
    + intros (Ha & [-> | (bn & Hbn & Hf)]); [by right; right |]. unfold in_file in Hbn.
      destruct (decide (bn < NDIRECT)); [left | right; left]; (split; [done |]); exists bn; (split; [lia | done]).
Qed.

Lemma blocks_nodup v x : iwf v x -> NoDup (blocks v x).
Proof.
  intros Hx. unfold blocks. assert (Hdir : direct x 0 NDIRECT = nonzero (fblk v x <$> seqZ 0 NDIRECT)).
  { unfold direct. apply (f_equal nonzero), list_fmap_ext. intros k j Hj. apply lookup_seqZ in Hj as [-> Hj]. unfold fblk.
    by rewrite (proj2 (Z.ltb_lt _ _)) by lia. }
  assert (Hd1 : NoDup (direct x 0 NDIRECT)).
  { rewrite Hdir. apply NoDup_nonzero; [apply NoDup_seqZ |]. intros i j Hi%elem_of_seqZ Hj%elem_of_seqZ. apply (iw_inj _ _ _ Hx); unfold in_file; fslia. }
  destruct (Z.eqb_spec (addr x NDIRECT) 0) as [E | E]; [by rewrite app_nil_r |].
  assert (Hind : indirect (v (addr x NDIRECT)) 0 NINDIRECT = nonzero ((fun j => fblk v x (NDIRECT + j)) <$> seqZ 0 NINDIRECT)).
  { unfold indirect. apply (f_equal nonzero), list_fmap_ext. intros k j Hj. apply lookup_seqZ in Hj as [-> Hj]. unfold fblk.
    rewrite (proj2 (Z.ltb_ge _ _)), (proj2 (Z.eqb_neq _ _) E) by lia. do 2 f_equal. lia. }
  apply NoDup_app. split_and!; [done | |].
  - intros a (Ha & bn & Hbn & Hf)%(elem_direct v) [Hi%(elem_indirect v x a E) | ->%list_elem_of_singleton]%elem_of_app.
    + destruct Hi as (_ & bn' & Hbn' & Hf'). apply (iw_inj _ _ _ Hx bn bn'); try (unfold in_file; fslia); congruence.
    + apply (iw_ind_ne _ _ _ Hx bn); try (unfold in_file; fslia); congruence.
  - apply NoDup_app. split_and!; [| | apply NoDup_singleton].
    + rewrite Hind. apply NoDup_nonzero; [apply NoDup_seqZ |]. intros i j Hi%elem_of_seqZ Hj%elem_of_seqZ Hne.
      apply (iw_inj _ _ _ Hx); unfold in_file; fslia.
    + intros a (Ha & bn & Hbn & Hf)%(elem_indirect v x a E) ->%list_elem_of_singleton.
      apply (iw_ind_ne _ _ _ Hx bn); try (unfold in_file; fslia); congruence.
Qed.

(** ** itrunc *)

(** The file after [itrunc]: empty, its blocks free; other files are as before. *)
Record truncated (v : Z -> list Z) (x : inode) (v' : Z -> list Z) (x' : inode) : Prop := {
  tc_dwf : dwf v';
  tc_ino : x' = set_i_size 0 (set_i_addrs (replicate (Z.to_nat (NDIRECT + 1)) 0) x);
  tc_used : forall b, 0 <= b -> used v' b = used v b && negb (bool_decide (b ∈ blocks v x));
  tc_keep : forall c, is_data c -> v' c = v c;
  tc_other : forall y, inum_ok sb (i_inum y) -> i_inum y <> i_inum x -> get_inode sb v' y = get_inode sb v y;
  tc_sync : ityped x -> get_inode sb v' x' = x' }.

Lemma addr_zap n : forall i x j, length (i_addrs x) = Z.to_nat (NDIRECT + 1) -> 0 <= i -> i + Z.of_nat n <= NDIRECT + 1 -> 0 <= j ->
  addr (zap n i x) j = if decide (i <= j < i + Z.of_nat n) then 0 else addr x j.
Proof.
  induction n as [| n IH]; intros i x j Hl Hi Hn Hj; cbn [zap]; [by rewrite decide_False by lia |].
  rewrite IH by (unfold set_addr; cbn [i_addrs set_i_addrs]; rewrite ?length_insert; done || lia).
  rewrite addr_set by (done || (unfold NDIRECT in *; lia)). destruct (Z.eqb_spec j i); repeat case_decide; (done || lia).
Qed.

Lemma zap_other n : forall i x, zap n i x = set_i_addrs (i_addrs (zap n i x)) x /\ length (i_addrs (zap n i x)) = length (i_addrs x).
Proof.
  induction n as [| n IH]; intros i x; cbn [zap]; [by destruct x |]. destruct (IH (i + 1) (set_addr i 0 x)) as [E1 E2].
  split; [rewrite E1 at 1; done |]. rewrite E2. unfold set_addr. cbn. by rewrite length_insert.
Qed.

(** All thirteen addresses cleared. *)
Lemma zap_all x : length (i_addrs x) = Z.to_nat (NDIRECT + 1) ->
  set_addr NDIRECT 0 (zap (Z.to_nat NDIRECT) 0 x) = set_i_addrs (replicate (Z.to_nat (NDIRECT + 1)) 0) x.
Proof.
  intros Hl. destruct (zap_other (Z.to_nat NDIRECT) 0 x) as [E1 E2]. set (y := zap _ _ _) in *.
  assert (Ey : i_addrs (set_addr NDIRECT 0 y) = replicate (Z.to_nat (NDIRECT + 1)) 0).
  { apply list_eq. intros j. destruct (decide (j < 13)%nat) as [Hj | Hj].
    - rewrite lookup_replicate_2 by exact Hj. replace j with (Z.to_nat (Z.of_nat j)) by lia.
      rewrite lookup_addr by (unfold set_addr; cbn [i_addrs set_i_addrs]; rewrite ?length_insert; (congruence || (unfold NDIRECT; lia))).
      rewrite addr_set by (congruence || (unfold NDIRECT; lia)). f_equal. destruct (Z.eqb_spec (Z.of_nat j) NDIRECT) as [| Hne]; [done |].
      unfold y. rewrite addr_zap by (done || lia). rewrite decide_True; [done |]. unfold NDIRECT in *. lia.
    - rewrite !lookup_ge_None_2; [done | rewrite length_replicate; change (Z.to_nat (NDIRECT + 1)) with 13%nat; lia |].
      unfold set_addr. cbn [i_addrs set_i_addrs]. rewrite length_insert, E2, Hl. change (Z.to_nat (NDIRECT + 1)) with 13%nat. lia. }
  unfold set_addr in *. cbn [i_addrs set_i_addrs] in Ey. rewrite Ey, E1. done.
Qed.

Lemma truncated_of v x x' : dwf v -> iwf v x -> inum_ok sb (i_inum x) ->
  x' = set_i_size 0 (set_i_addrs (replicate (Z.to_nat (NDIRECT + 1)) 0) x) ->
  truncated v x (put_inode sb x' (dealloc_all (blocks v x) v)) x'.
Proof.
  intros Hd Hx Hin E. set (v1 := dealloc_all (blocks v x) v). assert (Hi : i_inum x' = i_inum x) by (by rewrite E).
  destruct (IBLOCK_range start nlog sb _ Hin) as [_ Hr]. pose proof (home_inode start nlog sb _ Hin) as Hh.
  assert (Hbm : length (v bm) = bsize) by (apply (dw_len _ _ Hd), (home_range start nlog _ (home_bmap start nlog sb))).
  assert (Hbd : Forall is_data (blocks v x)) by (apply Forall_forall; intros a Ha%blocks_owns; by apply (owns_data sb v x)).
  assert (Hu : forall b, 0 <= b -> used v1 b = used v b && negb (bool_decide (b ∈ blocks v x))) by (intros; by apply used_dealloc_all).
  assert (Hl1 : forall b, 0 <= b < nblocks -> length (v1 b) = bsize).
  { intros b Hb. destruct (decide (b = bm)) as [-> | Hne]; [by apply length_dealloc_all |]. unfold v1. rewrite dealloc_all_keeps by done. by apply Hd. }
  assert (Hd1 : dwf v1).
  { split; [done |]. intros b Hb. rewrite Hu, (dw_meta _ _ Hd b Hb) by lia. rewrite bool_decide_eq_false_2; [done |].
    rewrite Forall_forall in Hbd. intros Hin'. destruct (Hbd b Hin'). lia. }
  split; [| done | | | |].
  - apply dwf_set; [done | rewrite Hi; lia |]. rewrite length_put_dinode. apply Hl1. rewrite Hi. apply Hh.
  - intros b Hb. rewrite <- Hu by done. unfold FsBlocks.used, put_inode. by rewrite set_at_ne by (rewrite Hi; lia).
  - intros c [Hc _]. unfold put_inode. rewrite set_at_ne by (rewrite Hi; lia). apply dealloc_all_keeps. lia.
  - intros y Hy Hne. rewrite (get_put_inode_ne start nlog); rewrite ?Hi; try done; [| by rewrite E].
    unfold get_inode. destruct (IBLOCK_range start nlog sb _ Hy) as [_ Hry]. unfold v1. by rewrite dealloc_all_keeps by lia.
  - intros [T1 T2 T3 T4 T5 T6 T7]. rewrite (get_put_inode_eq start nlog), with_disk_self; rewrite ?Hi; try done.
    rewrite E. split; try done. apply Forall_replicate. done.
Qed.

(** The indirect block, with its entries. *)
Lemma t_itrunc_ind v bl ino ip y (a := addr y NDIRECT)
    (L := if a =? 0 then [] else indirect (v a) 0 NINDIRECT ++ [a]) : ino !! ip = Some y -> budget 4 ∅ bl -> length (v bm) = bsize ->
  NoDup L -> Forall is_data L -> Forall (fun b => used v b = true) L ->
  {{ fs v ∅ bl ino }}
    when (truthy a)
      (let* bp := bread ROOTDEV a in
       itrunc_indirect (Z.to_nat NINDIRECT) ROOTDEV bp 0 ;;;
       brelse bp ;;;
       bfree ROOTDEV a ;;;
       upd_inode ip (fun x => set_i_addrs (<[Z.to_nat NDIRECT := 0]> (i_addrs x)) x))
  {{ _, fun s => exists bl', (wt sb bl' <= wt sb bl)%nat /\ fs (dealloc_all L v) ∅ bl' (<[ip := set_addr NDIRECT 0 y]> ino) s }}.
Proof.
  intros Hip Hb Hbm Hnd Hd Hu. unfold truthy. destruct (Z.eqb_spec a 0) as [E | E]; cbn [negb when].
  { apply t_ret. intros s Hs. exists bl. split; [lia |]. rewrite set_addr_0, list_insert_id by done. done. }
  unfold L in *. apply NoDup_app in Hnd as (Hnd1 & Hna & _). apply Forall_app in Hd as [Hd1 Hda]. apply Forall_app in Hu as [Hu1 Hua].
  rewrite Forall_singleton in Hda, Hua.
  destruct (data_pos start nlog sb a Hda) as (Hp & Hab & _). pose proof (home_data start nlog sb a Hda) as Hh.
  eapply t_bind; [apply (t_bread start nlog); [apply Hh | done | by eapply space_room, (budget_space nlog sb)] |]. intros i. apply t_pure. intros Hc.
  change (<[a := i]> ∅) with ({[a := i]} : gmap Z nat). eapply t_bind.
  { apply (t_itrunc_indirect {[a := i]} bl ino a i (Z.to_nat NINDIRECT) v 0); try done; [apply lookup_singleton_eq | by apply lookup_singleton_ne |].
    eapply (budget_hold nlog sb 2), (budget_wt nlog sb 4 3 0); [done | lia | lia]. }
  intros []. apply t_ex; intros bl1. apply t_pure. intros (Hb1 & Hsub & Hw1). change (Z.of_nat (Z.to_nat NINDIRECT)) with NINDIRECT.
  eapply t_bind; [eapply (t_brelse start nlog); [apply lookup_singleton_eq |] |].
  { destruct Hc as [Hc | Hc]; [left; by apply Hsub | right]. by rewrite dealloc_all_keeps. }
  intros []. rewrite delete_singleton_eq. eapply t_bind.
  { apply t_free; try done.
    - destruct (data_pos start nlog sb a Hda). rewrite used_dealloc_all, Hua by (done || lia). rewrite bool_decide_eq_false_2; [done |].
      intros Hin. apply (Hna a Hin). by apply list_elem_of_singleton.
    - eapply space_le; [apply (budget_space nlog sb), (budget_wt nlog sb 4 4 0 ∅ bl); [done | lia | lia] | lia]. }
  intros []. eapply t_conseq; [by apply t_upd_inode | done |]. intros [] s Hs. exists (logged bm bl1). rewrite wt_bm. split; [done |].
  rewrite dealloc_all_app. exact Hs.
Qed.

Lemma t_itrunc v bl ino ip x : dwf v -> iwf v x -> ino !! ip = Some x -> inum_ok sb (i_inum x) -> budget 4 ∅ bl ->
  {{ fs v ∅ bl ino }} itrunc ip
  {{ _, fun s => exists v' x' bl', (truncated v x v' x' /\ (wt sb bl' <= wt sb bl + 1)%nat) /\ fs v' ∅ bl' (<[ip := x']> ino) s }}.
Proof.
  intros Hd Hx Hip Hin Hb. pose proof (blocks_nodup v x Hx) as Hnd. pose proof (iw_len _ _ _ Hx) as Hla.
  assert (Hbm : length (v bm) = bsize) by (apply (dw_len _ _ Hd), (home_range start nlog _ (home_bmap start nlog sb))).
  assert (Hbd : Forall is_data (blocks v x)) by (apply Forall_forall; intros a Ha%blocks_owns; by apply (owns_data sb v x)).
  assert (Hbu : Forall (fun a => used v a = true) (blocks v x)) by (apply Forall_forall; intros a Ha%blocks_owns; by apply (owns_data sb v x)).
  unfold blocks in Hnd, Hbd, Hbu. apply NoDup_app in Hnd as (Hnd1 & Hdisj & Hnd2). apply Forall_app in Hbd as [Hbd1 Hbd2]. apply Forall_app in Hbu as [Hbu1 Hbu2].
  unfold itrunc. eapply t_bind.
  { apply (t_itrunc_direct ip (Z.to_nat NDIRECT) v bl ino x 0); try done; [apply (iw_dev _ _ _ Hx) |]. eapply (budget_wt nlog sb 4 2 0); [done | lia | lia]. }
  intros []. apply t_ex; intros bl1. apply t_pure. intros [Hb1 Hw1]. change (Z.of_nat (Z.to_nat NDIRECT)) with NDIRECT.
  set (v1 := dealloc_all (direct x 0 NDIRECT) v). destruct (zap_other (Z.to_nat NDIRECT) 0 x) as [Ez1 Ez2]. pose proof (zap_all x Hla) as Ez.
  set (x1 := zap _ _ _) in *.
  assert (Hx1 : <[ip := x1]> ino !! ip = Some x1) by (apply list_lookup_insert_eq; by eapply lookup_lt_Some).
  eapply t_geti; [exact Hx1 |]. assert (Ea : addr x1 NDIRECT = addr x NDIRECT).
  { unfold x1. rewrite addr_zap by done. by rewrite decide_False by (unfold NDIRECT; lia). }
  eapply t_arr_get; [done | apply lookup_addr; [congruence | done] |]. rewrite Ea.
  assert (Ed : i_dev x1 = ROOTDEV) by (rewrite Ez1; exact (iw_dev _ _ _ Hx)). rewrite Ed.
  set (x2 := set_i_addrs (replicate (Z.to_nat (NDIRECT + 1)) 0) x) in *.
  apply (t_bind _ _ _ (fun _ s => exists bl2, (wt sb bl2 <= wt sb bl)%nat /\ fs (dealloc_all (blocks v x) v) ∅ bl2 (<[ip := x2]> ino) s)).
  - assert (Eia : addr x NDIRECT <> 0 -> v1 (addr x NDIRECT) = v (addr x NDIRECT)).
    { intros Hn. apply dealloc_all_keeps. by apply (data_pos start nlog sb), (iw_ind _ _ _ Hx). }
    pose proof (t_itrunc_ind v1 bl1 (<[ip := x1]> ino) ip x1 Hx1) as T. rewrite Ea in T.
    assert (EL : (if addr x NDIRECT =? 0 then [] else indirect (v1 (addr x NDIRECT)) 0 NINDIRECT ++ [addr x NDIRECT]) =
      (if addr x NDIRECT =? 0 then [] else indirect (v (addr x NDIRECT)) 0 NINDIRECT ++ [addr x NDIRECT])).
    { destruct (Z.eqb_spec (addr x NDIRECT) 0) as [| Hn]; [done |]. by rewrite (Eia Hn). }
    rewrite EL in T. eapply t_conseq; [apply T; clear T | intros s Hs; exact Hs |].
    + eapply (budget_wt nlog sb 4 4 0 ∅ bl); [done | lia | lia].
    + by apply length_dealloc_all.
    + exact Hnd2.
    + exact Hbd2.
    + apply Forall_forall. intros b Hb'. rewrite Forall_forall in Hbu2, Hbd2. specialize (Hbu2 b Hb'). specialize (Hbd2 b Hb').
      destruct (data_pos start nlog sb b Hbd2). unfold v1. rewrite used_dealloc_all, Hbu2 by (done || lia).
      rewrite bool_decide_eq_false_2; [done |]. intros Hin'. by apply (Hdisj b Hin').
    + intros [] s (bl2 & Hw2 & Hs). exists bl2. split; [lia |]. rewrite list_insert_insert_eq, Ez in Hs. unfold blocks. by rewrite dealloc_all_app.
  - intros []. apply t_ex; intros bl2. apply t_pure. intros Hw2.
    assert (Hx2 : <[ip := x2]> ino !! ip = Some x2) by (apply list_lookup_insert_eq; by eapply lookup_lt_Some).
    eapply t_bind; [by apply t_upd_inode |]. intros []. rewrite list_insert_insert_eq. set (x3 := set_i_size 0 x2).
    eapply t_conseq; [apply (t_iupdate start nlog me s0 sb (dealloc_all (blocks v x) v) ∅ bl2 (<[ip := x3]> ino) ip x3) | intros s Hs; exact Hs |].
    + apply list_lookup_insert_eq. by eapply lookup_lt_Some.
    + exact (iw_dev _ _ _ Hx).
    + exact Hin.
    + apply lookup_empty.
    + eapply space_le; [apply (budget_space nlog sb), (budget_wt nlog sb 4 2 0 ∅ bl); [done | lia | lia] | lia].
    + destruct (IBLOCK_range start nlog sb _ Hin) as [_ Hr]. change (i_inum x3) with (i_inum x). rewrite dealloc_all_keeps by lia.
      apply (dw_len _ _ Hd), (home_inode start nlog sb _ Hin).
    + intros [] s Hs. eexists _, x3, _. split; [| exact Hs]. split; [by apply truncated_of |].
      pose proof (wt_logged sb (IBLOCK (i_inum x3) sb) bl2). lia.
Qed.

(** ** The file system afterwards *)

Lemma addr_zeros x i : addr (set_i_size 0 (set_i_addrs (replicate (Z.to_nat (NDIRECT + 1)) 0) x)) i = 0.
Proof. unfold addr. cbn [i_addrs set_i_addrs set_i_size]. destruct (replicate _ 0 !! Z.to_nat i) as [a |] eqn:E; [| done]. by apply lookup_replicate in E as [-> _]. Qed.

Lemma truncated_fok v x v' x' : i_dev x = ROOTDEV -> truncated v x v' x' -> fok v' x' /\ forall c, ~ owns v' x' c.
Proof.
  intros Hdev [T1 E T3 T4 T5 T6]. assert (Ha : forall i, addr x' i = 0) by (intros; rewrite E; apply addr_zeros).
  assert (Hb : forall bn, fblk v' x' bn = 0) by (intros bn; unfold fblk; rewrite !Ha; by case_match).
  assert (Es : i_size x' = 0) by (by rewrite E). split.
  - split; [split | rewrite Es; done |].
    + by rewrite E.
    + rewrite E. cbn [i_addrs set_i_addrs set_i_size]. apply length_replicate.
    + intros bn _. by rewrite Hb.
    + by rewrite Ha.
    + intros i j _ _ _. by rewrite Hb.
    + intros i _. by rewrite Hb.
    + intros bn Hbn Hlt. rewrite Es in Hlt. unfold BSIZE in Hlt. lia.
  - intros c [Hc [H | (bn & _ & H)]]; [rewrite Ha in H | rewrite Hb in H]; congruence.
Qed.

Lemma truncated_fsys v x v' x' : fsys sb v -> synced sb v x -> i_type x <> 0 -> ityped x -> truncated v x v' x' ->
  fsys sb v' /\ synced sb v' x'.
Proof.
  intros [Y1 Y2 Y3] Hsync Hty Ht T. pose proof Hsync as (Hdev & Hin & _). destruct (synced_dinode sb v x Hsync) as (Ea & Es & Et).
  destruct (truncated_fok v x v' x' Hdev T) as [Hf' Hno]. pose proof T as [T1 E T3 T4 T5 T6].
  assert (Hsync' : synced sb v' x') by (split_and!; [by rewrite E | by rewrite E | by apply T6]). split; [| done].
  destruct (synced_dinode sb v' x' Hsync') as (Ea' & Es' & Et'). assert (Hi : i_inum x' = i_inum x) by (by rewrite E). rewrite Hi in *.
  set (i := i_inum x) in *. assert (Hal : allocated sb v i) by (split; [done | by rewrite Et]).
  assert (Hother : forall j, allocated sb v' j -> j <> i -> dinode sb v' j = dinode sb v j /\ allocated sb v j /\ fok v' (dinode sb v j) /\
    forall c, owns v' (dinode sb v j) c -> owns v (dinode sb v j) c).
  { intros j [Hj Hjt] Hne. assert (Eo : dinode sb v' j = dinode sb v j) by (by apply T5). rewrite Eo in Hjt. split; [done |].
    assert (Haj : allocated sb v j) by done. split; [done |]. pose proof (Y2 j Haj) as Hfj.
    apply (fok_frame sb v v'); [done |]. intros c Hc. destruct (owns_data sb v _ c (fk_iwf _ _ _ Hfj) Hc) as [Hd Hu]. split; [| by apply T4].
    destruct (data_pos start nlog sb c Hd). rewrite T3, Hu by lia. rewrite bool_decide_eq_false_2; [done |]. intros Hb%blocks_owns.
    apply (Y3 j i c); try done. by eapply owns_ext. }
  split; [done | |].
  - intros j Haj. destruct (decide (j = i)) as [-> | Hne].
    + eapply (fok_ext sb); [exact Hf' | done | done | by rewrite E].
    + destruct (Hother j Haj Hne) as (-> & _ & ? & _). done.
  - intros j k c Haj Hak Hjk Hc Hc'. destruct (decide (j = i)) as [-> | Hne]; [by apply (Hno c), (owns_ext v' x' (dinode sb v' i))|].
    destruct (decide (k = i)) as [-> | Hnk]; [by apply (Hno c), (owns_ext v' x' (dinode sb v' i))|].
    destruct (Hother j Haj Hne) as (E1 & Hvj & _ & Hj), (Hother k Hak Hnk) as (E2 & Hvk & _ & Hk). rewrite E1 in Hc. rewrite E2 in Hc'.
    apply (Y3 j k c); auto.
Qed.

End Trunc.
