(* ===== verification/FsSample.v ===== *)
(** * A small file system

    A disk image with a root directory that holds one file, and a kernel that has
    it mounted and is in a transaction. The theorems about the file system are
    instantiated on it. *)

From S2P Require Import Prelude Riscv Mem Bytes StringLib Spinlock Kalloc Vm Proc ProcSpec Kctx State Sleeplock Bio BioList BioSpec BioRun RamDisk Log LogSpec BioProps LogProps LogTx Uart Printf Console Fs FsRun FsBlocks FsFile FsIo FsInode FsProps FsDir FsPath.

#[local] Existing Instance ram_platform.

(** Blocks 2 .. 21 are the log, block 22 the inodes, block 23 the bitmap. *)
Definition sample_sb : superblock := mkSb FSMAGIC 100 76 15 20 2 22 23.

#[global] Instance sample_layout : layout (PF := ram_platform) 2 20 := ram_layout.
#[global] Instance sample_fslayout : fslayout 2 20 sample_sb.
Proof. split; vm_compute; congruence. Qed.

Definition zero_block : list Z := replicate (Z.to_nat BSIZE) 0.
Definition one_block (type nlink size a : Z) : inode :=
  set_i_addrs (a :: replicate 12 0) (set_i_size size (set_i_nlink nlink (set_i_type type inode0))).

Definition root_ino : inode := one_block T_DIR 1 32 24.
Definition file_ino : inode := one_block T_FILE 1 5 25.

Definition inode_block : list Z := put_dinode (dinode_off 2) file_ino (put_dinode (dinode_off 1) root_ino zero_block).
Definition bitmap_block : list Z := splice 0 [255; 255; 255; 3] zero_block.
Definition dir_block : list Z :=
  splice 0 (dirent_bytes (mkDirent 1 (strncpy_l 14 (str "."))) ++ dirent_bytes (mkDirent 2 (strncpy_l 14 (str "greeting")))) zero_block.
Definition data_block : list Z := splice 0 (str "hello") zero_block.

Definition sample_disk (writes : nat) : ramdisk :=
  mkRam (<[22%nat := inode_block]> (<[23%nat := bitmap_block]> (<[24%nat := dir_block]> (<[25%nat := data_block]> (replicate ram_size zero_block))))) writes.

Definition sample_view : Z -> list Z := ram_view (sample_disk 0).

(** Entry 0 of the inode table is the current directory of process 0; entry 1 is
    the file, which is open for writing at its end as file 0. *)
Definition on_dev (inum : Z) (x : inode) : inode := set_i_inum inum (set_i_dev ROOTDEV x).
Definition opened (inum : Z) (x : inode) : inode := set_i_valid 1 (set_i_ref 1 (on_dev inum x)).
Definition sample_inodes : list inode :=
  opened 1 root_ino :: opened 2 file_ino :: replicate (NINODE - 2) inode0.
Definition sample_file : file := mkFile FD_INODE 1 1 1 0 (Some 1%nat) 5 0.
Definition sample_files : list file := sample_file :: replicate (NFILE - 1) file0.

(** Process 0 runs, with the memory [m] and the page table [root]. *)
Definition sample_proc (root : Z) : proc := set_pagetable root (set_cwd (Some 0%nat) (set_pid 1 (set_state RUNNING proc0))).
Definition sample_kst (m : mach) (root : Z) : kst :=
  set_kmach (set_hw (idle_hw (Some 0%nat)) m) (idle_kst 0 (Some 0%nat) [sample_proc root]).
Definition unbooted (writes : nat) (m : mach) (root : Z) : kern := idle_kern (sample_disk writes) (sample_kst m root).

(** [out] operations have begun. *)
Definition sample_at (writes : nat) (m : mach) (root out : Z) : kern :=
  set_kn_inodes sample_inodes (set_kn_sb sample_sb (set_kn_log (mkLog 2 20 out 0 ROOTDEV 0 (replicate (Z.to_nat LOGSIZE) 0))
    (set_kn_io (set_io_files sample_files io0)
      (match binit (unbooted writes m root) with Ok _ s => s | _ => unbooted writes m root end)))).

Lemma sample_at_bio writes m root out (s := sample_at writes m root out) :
  bio 0 s sample_view ∅ ∅ /\ dv s = sample_view /\ kctx 0 (kn_k s) /\
  kn_log s = mkLog 2 20 out 0 ROOTDEV 0 (replicate (Z.to_nat LOGSIZE) 0) /\ kn_sb s = sample_sb /\
  kn_inodes s = sample_inodes /\ proc_at (kn_k s) 0 = sample_proc root /\ io_files (kn_io s) = sample_files /\
  exists h, k_mach (kn_k s) = set_hw h m.
Proof.
  destruct (binit_run (unbooted writes m root)) as (L & bs & l & E & Hl & Hc & HL).
  - reflexivity.
  - apply Forall_replicate. repeat split.
  - subst s. unfold sample_at. rewrite E.
    assert (Hk : kctx 0 (relocked L (sample_kst m root))).
    { apply kctx_relocked; [| intros lk Hlk; apply HL; left; exists ""; by apply idle_locks_free].
      pose proof (idle_kctx 0 0 [sample_proc root] ltac:(unfold NPROC; lia) ltac:(unfold NPROC; simpl; lia)) as [K1 K2 K3 K4 K5 K6]. by split. }
    split_and!; [| reflexivity | exact Hk | reflexivity | reflexivity | reflexivity | reflexivity | reflexivity | by eexists].
    split; [exact Hk | reflexivity | exists l; exact Hl |]. apply Hc. intros b _. apply ram_view_len.
Qed.

Lemma sample_tx writes m root out : tx 2 20 0 (sample_at writes m root out) sample_view ∅ [].
Proof.
  destruct (sample_at_bio writes m root out) as (Hb & Hd & Hk & El & _). split; [exact Hb | rewrite El; split; reflexivity || (cbn; constructor) | |].
  - split; [apply NoDup_nil_2 | apply Forall_nil_2 | discriminate | discriminate].
  - rewrite Hd. vm_compute. reflexivity.
Qed.

(** A kernel in a transaction that has written nothing yet. *)
Definition sample_kern : kern := sample_at 0 (stocked 0) 0 1.

#[global] Instance sample_intx : intx sample_kern.
Proof. destruct (sample_at_bio 0 (stocked 0) 0 1) as (_ & _ & _ & E & _). split. unfold sample_kern. by rewrite E. Qed.

Lemma sample_fs : fs 2 20 0 sample_kern sample_sb sample_view ∅ [] sample_inodes sample_kern.
Proof.
  destruct (sample_at_bio 0 (stocked 0) 0 1) as (Hb & Hd & Hk & El & Es & Ei & _). split.
  - apply sample_tx.
  - split; reflexivity.
  - exact Es.
  - exact Ei.
  - exact Hk.
  - apply kframe_refl.
  - apply io_same_refl.
  - intros c. reflexivity.
Qed.

(** ** The image is consistent *)

Lemma one_block_blk v x a bn : i_addrs x = a :: replicate 12 0 -> in_file bn -> fblk v x bn = if bn =? 0 then a else 0.
Proof.
  intros E [H1 H2]. unfold fblk, addr. rewrite E. change (default 0 ((a :: replicate 12 0) !! Z.to_nat NDIRECT)) with 0. rewrite Z.eqb_refl.
  destruct (Z.ltb_spec bn NDIRECT), (Z.eqb_spec bn 0) as [-> | Hn]; try done.
  replace (Z.to_nat bn) with (S (Z.to_nat (bn - 1))) by lia. change ((a :: replicate 12 0) !! S (Z.to_nat (bn - 1))) with (replicate 12 0 !! Z.to_nat (bn - 1)).
  rewrite lookup_replicate_2; [done | unfold NDIRECT in *; lia].
Qed.

Lemma one_block_ind x a : i_addrs x = a :: replicate 12 0 -> addr x NDIRECT = 0.
Proof. intros E. unfold addr. by rewrite E. Qed.

Lemma one_block_fok sb v x a : i_addrs x = a :: replicate 12 0 -> i_dev x = ROOTDEV -> is_data sb a -> used sb v a = true ->
  a <> 0 -> 0 < i_size x <= BSIZE -> fok sb v x.
Proof.
  intros E Hd Ha Hu H0 Hs. pose proof (one_block_blk v x a) as Hb. pose proof (one_block_ind x a E) as Hi. split; [split | |].
  - done.
  - by rewrite E.
  - intros bn Hbn. rewrite (Hb bn E Hbn). by case_match.
  - by rewrite Hi.
  - intros i j Hin Hj Hij. rewrite (Hb i E Hin), (Hb j E Hj). destruct (Z.eqb_spec i 0), (Z.eqb_spec j 0); try done. lia.
  - intros i Hin. rewrite (Hb i E Hin), Hi. by case_match.
  - fslia.
  - intros bn Hbn Hlt. assert (bn = 0) as -> by fslia. rewrite (Hb 0 E); [done | split; [lia | done]].
Qed.

Lemma one_block_owns v x a c : i_addrs x = a :: replicate 12 0 -> owns v x c -> c = a.
Proof.
  intros E [Hc [<- | (bn & Hbn & <-)]]; [by rewrite (one_block_ind x a E) in Hc |].
  rewrite (one_block_blk v x a bn E Hbn) in *. by case_match.
Qed.

Lemma sample_dinode1 : dinode sample_sb sample_view 1 = on_dev 1 root_ino.
Proof. vm_compute. reflexivity. Qed.
Lemma sample_dinode2 : dinode sample_sb sample_view 2 = on_dev 2 file_ino.
Proof. vm_compute. reflexivity. Qed.

Lemma sample_allocated i : allocated sample_sb sample_view i <-> i = 1 \/ i = 2.
Proof.
  split.
  - intros [[H1 H2] Ht]. change (sb_ninodes sample_sb) with 15 in H2.
    assert (Hall : Forall (fun i => i_type (dinode sample_sb sample_view i) = 0 \/ i = 1 \/ i = 2) (seqZ 0 15)).
    { change (seqZ 0 15) with [0; 1; 2; 3; 4; 5; 6; 7; 8; 9; 10; 11; 12; 13; 14].
      repeat apply Forall_cons_2; try apply Forall_nil_2; first [by (right; left) | by (right; right) | left; vm_compute; reflexivity]. }
    rewrite Forall_forall in Hall. destruct (Hall i) as [| Hi]; [apply elem_of_seqZ; lia | done | exact Hi].
  - intros [-> | ->]; (split; [split; [lia | done] |]); [rewrite sample_dinode1 | rewrite sample_dinode2]; done.
Qed.

Lemma sample_dwf : dwf sample_sb sample_view.
Proof.
  split; [intros; apply ram_view_len |]. intros b Hb. change (sb_bmapstart sample_sb) with 23 in Hb.
  assert (Hall : forallb (used sample_sb sample_view) (seqZ 0 24) = true) by (vm_compute; reflexivity).
  apply (proj1 (List.forallb_forall _ _) Hall), list_elem_of_In, elem_of_seqZ. lia.
Qed.

Lemma sample_root_fok : fok sample_sb sample_view (on_dev 1 root_ino).
Proof. apply (one_block_fok _ _ _ 24); [done | done | done | vm_compute; reflexivity | done | done]. Qed.
Lemma sample_file_fok : fok sample_sb sample_view (on_dev 2 file_ino).
Proof. apply (one_block_fok _ _ _ 25); [done | done | done | vm_compute; reflexivity | done | done]. Qed.

Lemma sample_fsys : fsys sample_sb sample_view.
Proof.
  split; [exact sample_dwf | |].
  - intros i [-> | ->]%sample_allocated; [rewrite sample_dinode1; exact sample_root_fok | rewrite sample_dinode2; exact sample_file_fok].
  - intros i j c [-> | ->]%sample_allocated [-> | ->]%sample_allocated Hij; try done; rewrite sample_dinode1, sample_dinode2.
    + intros ->%(one_block_owns _ _ 24) H%(one_block_owns _ _ 25); done.
    + intros ->%(one_block_owns _ _ 25) H%(one_block_owns _ _ 24); done.
Qed.

Lemma sample_ents : dir_ents sample_view (on_dev 1 root_ino) =
  [mkDirent 1 (strncpy_l 14 (str ".")); mkDirent 2 (strncpy_l 14 (str "greeting"))].
Proof. vm_compute. reflexivity. Qed.

Lemma sample_tree : tree sample_sb sample_view.
Proof.
  split; [exact sample_fsys | |].
  - intros i [-> | ->]%sample_allocated; [by rewrite sample_dinode1 | by rewrite sample_dinode2].
  - intros i de [-> | ->]%sample_allocated; [rewrite sample_dinode1 | by rewrite sample_dinode2]. intros _. rewrite sample_ents.
    intros [-> | [-> | []%not_elem_of_nil]%elem_of_cons]%elem_of_cons _; cbn [de_inum].
    + split; [apply sample_allocated; by left | by rewrite sample_dinode1].
    + split; [apply sample_allocated; by right | by rewrite sample_dinode2].
Qed.
