(* ===== verification/File.v ===== *)
(** * kernel/file.c and kernel/pipe.c: open files and pipes (definitions)

    A file pointer is an index into [ftable]. A pipe is named by the page that
    holds it. *)

From S2P Require Import Prelude Riscv Mem Bytes StringLib Spinlock Kalloc Vm Proc State Sleeplock Bio Log Uart Printf Console Fs.

Section File.
Context `{PF : Platform} `{PA : Patience} `{BD : !BlockDev} `{HI : Image} `{UN : Uninit}.

Definition file_at (s : kern) (f : nat) : file := default file0 (io_files (kn_io s) !! f).
Definition getf (f : nat) : M kern file := gets (fun s => file_at s f).
Definition updf (f : nat) (g : file -> file) : M kern unit :=
  modify (fun s => set_kn_io (set_io_files (<[f := g (file_at s f)]> (io_files (kn_io s))) (kn_io s)) s).

Definition fileinit : M kern unit := lk_ (zoom Lkhw (initlock FtableLock "ftable")).

Fixpoint filealloc_loop (n i : nat) : M kern (option nat) :=
  match n with
  | O => lk_ (rel FtableLock) ;;; ret None
  | S n =>
      let* f := getf i in
      if f_ref f =? 0 then
        updf i (set_f_ref 1) ;;;
        lk_ (rel FtableLock) ;;;
        ret (Some i)
      else filealloc_loop n (S i)
  end.

Definition filealloc : M kern (option nat) :=
  lk_ (acq FtableLock) ;;;
  filealloc_loop NFILE 0.

Definition filedup (f : nat) : M kern nat :=
  lk_ (acq FtableLock) ;;;
  let* x := getf f in
  if f_ref x <? 1 then panic "filedup" else
  updf f (fun x => set_f_ref (i32 (f_ref x + 1)) x) ;;;
  lk_ (rel FtableLock) ;;;
  ret f.

(** ** Pipes *)

Definition getpipe (pi : Z) : M kern pipe :=
  fun s => match io_pipes (kn_io s) !! pi with Some p => Ok p s | None => undef s end.
Definition updpipe (pi : Z) (g : pipe -> pipe) : M kern unit :=
  let* p := getpipe pi in
  upd_io (fun io => set_io_pipes (<[pi := g p]> (io_pipes io)) io).

Definition pipeclose (pi : Z) (writable : bool) : M kern unit :=
  lk_ (acq (PipeLock pi)) ;;;
  (if writable then
     updpipe pi (set_pi_writeopen 0) ;;;
     lk_ (wakeup (ChPipeR pi))
   else
     updpipe pi (set_pi_readopen 0) ;;;
     lk_ (wakeup (ChPipeW pi))) ;;;
  let* p := getpipe pi in
  if (pi_readopen p =? 0) && (pi_writeopen p =? 0) then
    lk_ (rel (PipeLock pi)) ;;;
    upd_io (fun io => set_io_pipes (delete pi (io_pipes io)) io) ;;;
    lk_ (zoom Lmach (kfree pi))
  else lk_ (rel (PipeLock pi)).

(** [fuel] bounds how often the writer waits for room. *)
Fixpoint pipewrite_loop (fuel : nat) (pi addr i n : Z) (pr : nat) : M kern (Z + Z) :=
  match fuel with
  | O => fun _ => NoFuel
  | S fuel =>
      if i <? n then
        let* p := getpipe pi in
        let* k := (if pi_readopen p =? 0 then ret 1 else lk_ (killed pr)) in
        if truthy k then lk_ (rel (PipeLock pi)) ;;; ret (inl (-1)) else
        if pi_nwrite p =? u32 (pi_nread p + PIPESIZE) then
          lk_ (wakeup (ChPipeR pi)) ;;;
          lk_ (sleep (ChPipeW pi) (PipeLock pi)) ;;;
          pipewrite_loop fuel pi addr i n pr
        else
          let* q := lk_ (getp pr) in
          let* r := lk_ (zoom Lmach (copyin (p_pagetable q) (u64 (addr + i)) 1)) in
          if r.1 =? -1 then ret (inr i) else
          let* d := arr_set (pi_data p) (pi_nwrite p mod PIPESIZE) (default 0 (head r.2)) in
          updpipe pi (set_pi_data d) ;;;
          updpipe pi (fun p => set_pi_nwrite (u32 (pi_nwrite p + 1)) p) ;;;
          pipewrite_loop fuel pi addr (i + 1) n pr
      else ret (inr i)
  end.

Definition pipewrite (pi addr n : Z) : M kern Z :=
  let* pr := my_index in
  lk_ (acq (PipeLock pi)) ;;;
  let* r := pipewrite_loop (S (Z.to_nat n + patience)) pi addr 0 n pr in
  match r with
  | inl r => ret r
  | inr i =>
      lk_ (wakeup (ChPipeR pi)) ;;;
      lk_ (rel (PipeLock pi)) ;;;
      ret i
  end.

(** Wait for data or end of file; [false]: killed, and the lock released. *)
Fixpoint piperead_wait (fuel : nat) (pi : Z) (pr : nat) : M kern bool :=
  match fuel with
  | O => fun _ => NoFuel
  | S fuel =>
      let* p := getpipe pi in
      if (pi_nread p =? pi_nwrite p) && truthy (pi_writeopen p) then
        let* k := lk_ (killed pr) in
        if truthy k then lk_ (rel (PipeLock pi)) ;;; ret false
        else
          lk_ (sleep (ChPipeR pi) (PipeLock pi)) ;;;
          piperead_wait fuel pi pr
      else ret true
  end.

Fixpoint piperead_loop (n : nat) (pi addr i : Z) (pr : nat) : M kern Z :=
  match n with
  | O => ret i
  | S n =>
      let* p := getpipe pi in
      if pi_nread p =? pi_nwrite p then ret i else
      let* ch := arr_get (pi_data p) (pi_nread p mod PIPESIZE) in
      updpipe pi (fun p => set_pi_nread (u32 (pi_nread p + 1)) p) ;;;
      let* q := lk_ (getp pr) in
      let* r := lk_ (zoom Lmach (copyout (p_pagetable q) (u64 (addr + i)) [ch] 1)) in
      if r =? -1 then ret i else piperead_loop n pi addr (i + 1) pr
  end.

Definition piperead (pi addr n : Z) : M kern Z :=
  let* pr := my_index in
  lk_ (acq (PipeLock pi)) ;;;
  let* ok := piperead_wait (S patience) pi pr in
  if negb ok then ret (-1) else
  let* i := piperead_loop (Z.to_nat n) pi addr 0 pr in
  lk_ (wakeup (ChPipeW pi)) ;;;
  lk_ (rel (PipeLock pi)) ;;;
  ret i.

(** ** Files *)

Definition fileclose (f : nat) : M kern unit :=
  lk_ (acq FtableLock) ;;;
  let* x := getf f in
  if f_ref x <? 1 then panic "fileclose" else
  updf f (fun x => set_f_ref (i32 (f_ref x - 1)) x) ;;;
  let* ff := getf f in
  if 0 <? f_ref ff then lk_ (rel FtableLock) else
  updf f (set_f_ref 0) ;;;
  updf f (set_f_type FD_NONE) ;;;
  lk_ (rel FtableLock) ;;;
  match f_type ff with
  | FD_PIPE => pipeclose (f_pipe ff) (truthy (f_writable ff))
  | FD_INODE | FD_DEVICE =>
      begin_op ;;;
      match f_ip ff with Some ip => iput ip | None => kfault end ;;;
      end_op
  | FD_NONE => ret tt
  end.

(** The files [*f0] and [*f1], or an error. *)
Definition pipealloc_bad (f0 f1 : option nat) : M kern (option (nat * nat)) :=
  match f0 with Some f => fileclose f | None => ret tt end ;;;
  match f1 with Some f => fileclose f | None => ret tt end ;;;
  ret None.

Definition pipealloc : M kern (option (nat * nat)) :=
  let* f0 := filealloc in
  match f0 with
  | None => pipealloc_bad None None
  | Some f0 =>
      let* f1 := filealloc in
      match f1 with
      | None => pipealloc_bad (Some f0) None
      | Some f1 =>
          let* pi := lk_ (zoom Lmach kalloc) in
          if pi =? 0 then pipealloc_bad (Some f0) (Some f1) else
          upd_io (fun io => set_io_pipes (<[pi := pipe0]> (io_pipes io)) io) ;;;
          updpipe pi (set_pi_readopen 1) ;;;
          updpipe pi (set_pi_writeopen 1) ;;;
          updpipe pi (set_pi_nwrite 0) ;;;
          updpipe pi (set_pi_nread 0) ;;;
          lk_ (zoom Lkhw (initlock (PipeLock pi) "pipe")) ;;;
          updf f0 (set_f_type FD_PIPE) ;;;
          updf f0 (set_f_readable 1) ;;;
          updf f0 (set_f_writable 0) ;;;
          updf f0 (set_f_pipe pi) ;;;
          updf f1 (set_f_type FD_PIPE) ;;;
          updf f1 (set_f_readable 0) ;;;
          updf f1 (set_f_writable 1) ;;;
          updf f1 (set_f_pipe pi) ;;;
          ret (Some (f0, f1))
      end
  end.

(** [struct stat] in memory: dev, ino, type, nlink, padding, size. *)
Definition stat_bytes (st : stat) : list Z :=
  le_bytes 4 (st_dev st) ++ le_bytes 4 (st_ino st) ++ le_bytes 2 (st_type st) ++ le_bytes 2 (st_nlink st) ++
  uninit 4 ++ le_bytes 8 (st_size st).

Definition filestat (f : nat) (addr : Z) : M kern Z :=
  let* p := my_proc in
  let* x := getf f in
  match f_type x with
  | FD_INODE | FD_DEVICE =>
      ilock (f_ip x) ;;;
      let* st := (match f_ip x with Some ip => stati ip | None => kfault end) in
      iunlock (f_ip x) ;;;
      let* r := lk_ (zoom Lmach (copyout (p_pagetable p) addr (stat_bytes st) 24)) in
      if r <? 0 then ret (-1) else ret 0
  | _ => ret (-1)
  end.

(** Is [devsw[major].read] (and [.write]) set? *)
Definition devsw_set (major : Z) : M kern bool :=
  let* io := getio in ret (default false (io_devsw io !! Z.to_nat major)).

Definition fileread (f : nat) (addr n : Z) : M kern Z :=
  let* x := getf f in
  if f_readable x =? 0 then ret (-1) else
  match f_type x with
  | FD_PIPE => piperead (f_pipe x) addr n
  | FD_DEVICE =>
      if (f_major x <? 0) || (NDEV <=? f_major x) then ret (-1) else
      let* ok := devsw_set (f_major x) in
      if negb ok then ret (-1) else
      let* r := consoleread true addr n in ret r.1
  | FD_INODE =>
      ilock (f_ip x) ;;;
      let* x := getf f in
      let* r := (match f_ip x with Some ip => readi ip true addr (f_off x) (u32 n) | None => kfault end) in
      when (0 <? r.1) (updf f (fun x => set_f_off (u32 (f_off x + r.1)) x)) ;;;
      iunlock (f_ip x) ;;;
      ret r.1
  | FD_NONE => panic "fileread"
  end.

(** The bytes written per transaction. *)
Definition filewrite_max : Z := ((MAXOPBLOCKS - 1 - 1 - 2) / 2) * BSIZE.

(** Returns [i]. *)
Fixpoint filewrite_loop (fuel : nat) (f : nat) (addr i n : Z) : M kern Z :=
  match fuel with
  | O => fun _ => NoFuel
  | S fuel =>
      if i <? n then
        let n1 := if filewrite_max <? n - i then filewrite_max else n - i in
        begin_op ;;;
        let* x := getf f in
        ilock (f_ip x) ;;;
        let* x := getf f in
        let* r := (match f_ip x with Some ip => writei ip (USrc (u64 (addr + i))) (f_off x) n1 | None => kfault end) in
        when (0 <? r) (updf f (fun x => set_f_off (u32 (f_off x + r)) x)) ;;;
        iunlock (f_ip x) ;;;
        end_op ;;;
        if negb (r =? n1) then ret i else filewrite_loop fuel f addr (i + r) n
      else ret i
  end.

Definition filewrite (f : nat) (addr n : Z) : M kern Z :=
  let* x := getf f in
  if f_writable x =? 0 then ret (-1) else
  match f_type x with
  | FD_PIPE => pipewrite (f_pipe x) addr n
  | FD_DEVICE =>
      if (f_major x <? 0) || (NDEV <=? f_major x) then ret (-1) else
      let* ok := devsw_set (f_major x) in
      if negb ok then ret (-1) else
      consolewrite (USrc addr) n
  | FD_INODE =>
      let* i := filewrite_loop (S (S (Z.to_nat (n / filewrite_max)))) f addr 0 n in
      ret (if i =? n then n else -1)
  | FD_NONE => panic "filewrite"
  end.

End File.
