(* ===== verification/FsWrite.v ===== *)
(** * Writing to a file: filewrite

    [filewrite] stores bytes of user memory in a file, a transaction per chunk.
    It refines the write of a byte array; and whenever the power fails, recovery
    finds a consistent file system in which the file holds the chunks committed so
    far and every other file is untouched. *)

From S2P Require Import Prelude Riscv Mem Bytes StringLib Spinlock Kalloc Vm PageTable Uvm UserCopy VmSpec Proc ProcSpec Kctx State Sleeplock Bio BioList BioSpec BioRun RamDisk Log LogSpec BioProps LogProps LogTx Uart Printf Console Fs FsRun FsBlocks FsFile FsIo FsInode FsProps File.

Section Home.
Context (start nlog : Z) `{PF : Platform} `{PA : Patience} `{BD : !BlockDev} `{BO : !BlockDevOk BD} `{LY : !layout start nlog}.
Context (sb : superblock) `{FL : !fslayout start nlog sb}.
Abbreviation home_eq := (home_eq start nlog).
Abbreviation fsys := (fsys sb).
Abbreviation dinode := (dinode sb).
Abbreviation allocated := (allocated sb).
Abbreviation used := (used sb).
Abbreviation fok := (fok sb).

(** ** The file system is in the home blocks *)

Lemma used_home v w b : home_eq v w -> used w b = used v b.
Proof. intros H. unfold FsBlocks.used. by rewrite (H _ (home_bmap start nlog sb)). Qed.

Lemma frees_home v w : home_eq v w -> frees sb w = frees sb v.
Proof. intros H. unfold frees, FsBlocks.used. by rewrite (H _ (home_bmap start nlog sb)). Qed.

Lemma get_inode_home v w x : home_eq v w -> inum_ok sb (i_inum x) -> get_inode sb w x = get_inode sb v x.
Proof. intros H Hi. unfold get_inode. by rewrite (H _ (home_inode start nlog sb _ Hi)). Qed.

Lemma dinode_home v w i : home_eq v w -> inum_ok sb i -> dinode w i = dinode v i.
Proof. intros. by apply get_inode_home. Qed.

Lemma allocated_home v w i : home_eq v w -> allocated w i <-> allocated v i.
Proof. intros H. unfold FsProps.allocated. split; intros [Hi Ht]; (split; [done |]); [rewrite <- (dinode_home v w) | rewrite (dinode_home v w)]; done. Qed.

Lemma owned_home v w x c : home_eq v w -> fok v x -> owns v x c -> used w c = true /\ w c = v c.
Proof.
  intros H Hx Hc. destruct (owns_data sb v x c (fk_iwf _ _ _ Hx) Hc) as [Hd Hu]. split; [by rewrite (used_home v w) |].
  symmetry. apply H, (home_data start nlog sb), Hd.
Qed.

Lemma fsys_home v w : home_eq v w -> (forall b, 0 <= b < nblocks -> length (w b) = Z.to_nat BSIZE) -> fsys v -> fsys w.
Proof.
  intros H Hl [Y1 Y2 Y3]. assert (Hk : forall i, allocated w i -> allocated v i /\ dinode w i = dinode v i /\ fok w (dinode v i) /\
    forall c, owns w (dinode v i) c -> owns v (dinode v i) c).
  { intros i Ha. pose proof (proj1 (allocated_home v w i H) Ha) as Hv. split; [done |]. split; [apply dinode_home; [done | apply Ha] |].
    apply (fok_frame sb v w); [by apply Y2 |]. intros c Hc. eapply owned_home; [done | | done]. by apply Y2. }
  split.
  - split; [done |]. intros b Hb. rewrite (used_home v w) by done. by apply Y1.
  - intros i Ha. destruct (Hk i Ha) as (_ & -> & ? & _). done.
  - intros i j c Hi Hj Hij Ho1 Ho2. destruct (Hk i Hi) as (Hvi & Ei & _ & Hoi), (Hk j Hj) as (Hvj & Ej & _ & Hoj).
    rewrite Ei in Ho1. rewrite Ej in Ho2. apply (Y3 i j c); auto.
Qed.

(** The bytes of a file whose blocks do not change. *)
Lemma contents_frame v w x : fok v x -> (forall c, owns v x c -> w c = v c) -> contents w x = contents v x.
Proof.
  intros Hx Hk. unfold contents, fdata. apply list_fmap_ext. intros k o Ho%list_elem_of_lookup_2%elem_of_seqZ.
  pose proof (fk_size _ _ _ Hx). assert (Hin : in_file (o / BSIZE)).
  { split; [apply Z.div_pos; [lia | done] | apply Z.div_lt_upper_bound; [done | fslia]]. }
  assert (Eb : fblk w x (o / BSIZE) = fblk v x (o / BSIZE)).
  { unfold fblk. destruct (Z.ltb_spec (o / BSIZE) NDIRECT); [done |]. destruct (Z.eqb_spec (addr x NDIRECT) 0) as [| Hn]; [done |].
    rewrite Hk; [done |]. split; [done | by left]. }
  unfold fbyte. rewrite Eb. destruct (Z.eqb_spec (fblk v x (o / BSIZE)) 0) as [| Hn]; [done |].
  rewrite Hk; [done |]. split; [done | right; eauto].
Qed.

(** The bytes of file [i] of the disk [v]. *)
Definition fcontents (v : Z -> list Z) (i : Z) : list Z := contents v (dinode v i).

Lemma fcontents_home v w i : home_eq v w -> fsys v -> allocated v i -> fcontents w i = fcontents v i.
Proof.
  intros H Hf Ha. unfold fcontents. rewrite (dinode_home v w) by (done || apply Ha). pose proof (fy_file _ _ Hf i Ha) as Hx.
  apply contents_frame; [done |]. intros c Hc. by eapply owned_home.
Qed.

(** Every file but [i] is the same. *)
Definition others (i : Z) (v w : Z -> list Z) : Prop :=
  forall j, allocated v j -> j <> i -> allocated w j /\ fcontents w j = fcontents v j.

Lemma others_refl i v : others i v v.
Proof. by intros j. Qed.
Lemma others_trans i u v w : others i u v -> others i v w -> others i u w.
Proof. intros H1 H2 j Hj Hn. destruct (H1 j Hj Hn) as [Hj' <-]. by apply H2. Qed.
Lemma others_home i v w : home_eq v w -> fsys v -> others i v w.
Proof. intros H Hf j Hj _. split; [by apply (allocated_home v w) | by apply fcontents_home]. Qed.

Lemma wrote_others v x off bs v' x' : fsys v -> synced sb v x -> i_type x <> 0 -> wrote sb v x off bs v' x' -> others (i_inum x) v v'.
Proof.
  intros [Y1 Y2 Y3] Hs Ht W j Hj Hn. pose proof Hs as (_ & Hin & _). destruct (synced_dinode sb v x Hs) as (Ea & _ & Et).
  assert (Ej : dinode v' j = dinode v j) by (apply (wo_ino _ _ _ _ _ _ _ W); [apply Hj | done]).
  split; [split; [apply Hj | rewrite Ej; apply Hj] |]. unfold fcontents. rewrite Ej. apply contents_frame; [by apply Y2 |].
  intros c Hc. destruct (owns_data sb v _ c (fk_iwf _ _ _ (Y2 j Hj)) Hc). apply (wo_frame _ _ _ _ _ _ _ W); [done | done |].
  intros Hx. apply (Y3 (i_inum x) j c); try done; [split; [done | by rewrite Et] | by eapply owns_ext].
Qed.

Lemma length_recovered D b : (forall c, length (D c) = Z.to_nat BSIZE) -> length (recovered start D b) = Z.to_nat BSIZE.
Proof. intros Hl. unfold recovered, rec_of. case_match; [case_match |]; apply Hl. Qed.

End Home.

(** ** Bytes of user memory *)

Lemma kframe_pagetable k k' i : kframe k k' -> p_pagetable (proc_at k' i) = p_pagetable (proc_at k i).
Proof.
  intros HF. unfold proc_at. destruct (k_procs k !! i) as [p |] eqn:E.
  - destruct (kframe_lookup _ _ _ _ HF E) as (p' & -> & [-> | [_ ->]]); done.
  - assert (k_procs k' !! i = None) as ->; [| done].
    apply lookup_ge_None. rewrite <- (Forall2_length _ _ _ (kf_procs _ _ HF)). by apply lookup_ge_None.
Qed.

Section User.
Context `{HIO : ImageOk} `{PF : Platform}.

Lemma uvm_inv_hw h s T l n : uvm_inv s T l n -> uvm_inv (set_hw h s) T l n.
Proof. intros [[[K1 K2 K3 K4] V2 V3 V4] U2 U3 U4 U5]. split; [| done | done | done | done]. split; [by split | done | done | done]. Qed.

(** Process [me] may read [len] bytes of its memory at [va], and they are [bs]. *)
Record user_bytes (me : nat) (s : kern) (va : Z) (bs : list Z) : Prop := {
  ub_range : 0 <= va /\ va + Z.of_nat (length bs) < 2^64;
  ub_mem : exists T l n, uvm_inv (k_mach (kn_k s)) T l n /\ top_ok T /\ p_pagetable (proc_at (kn_k s) me) = pt_root T /\
    (forall a, va <= a < va + Z.of_nat (length bs) -> readable T a = true) /\
    bs = ureads (k_mach (kn_k s)) T va (length bs) }.

Lemma supplies_user me s va bs : user_bytes me s va bs -> supplies me s (USrc va) bs.
Proof.
  intros [[Hva Hend] (T & l & n & Hu & Ht & Hp & Hr & Ebs)]. split; [cbn [esrc_off]; rewrite Z.add_0_r, u64_small by lia; done |].
  intros k o m Hk HF Ho Hm Hl. exists (cyc k). split; [| split; [by apply kctx_cyc | apply kframe_cyc]].
  unfold either_copyin. cbn [esrc_off]. rewrite (bind_ok _ _ _ _ _ (myproc_ctx me _ Hk)), u64_small by lia.
  assert (Em : k_mach (cyc k) = set_hw (hw_cycle (khw k)) (k_mach (kn_k s))) by exact (f_equal (set_hw (hw_cycle (khw k))) (kf_mach _ _ HF)).
  assert (Ep : p_pagetable (proc_at (cyc k) me) = pt_root T) by (rewrite <- Hp; exact (kframe_pagetable _ _ me HF)).
  unfold bind at 1, getp, gets. cbn [obind]. rewrite Ep.
  destruct (copyin_loop_run (k_mach (cyc k)) T l n ltac:(rewrite Em; by apply uvm_inv_hw) Ht (copy_fuel m) (va + o) m []) as
    (r & j & E & Hj & _ & Hret); [lia | lia | apply copy_fuel_ok; lia |].
  destruct Hret as [(-> & ->) | (_ & Hlt & Hno)]; [| rewrite Hr in Hno by lia; done].
  erewrite zoom_ok by exact E. f_equal. f_equal.
  rewrite app_nil_l, Em. change (ureads (set_hw _ _) T) with (ureads (k_mach (kn_k s)) T). rewrite Ebs.
  replace (length bs) with (Z.to_nat o + (Z.to_nat m + (length bs - Z.to_nat o - Z.to_nat m)))%nat by lia.
  rewrite !ureads_app, drop_app_length', take_app_length' by (by rewrite length_ureads). f_equal. lia.
Qed.

End User.

(** ** A transaction of the file system *)

Section Write.
Context (start nlog : Z) `{PF : Platform} `{PA : Patience} `{BD : !BlockDev} `{BO : !BlockDevOk BD} `{LY : !layout start nlog}.
Context (me : nat) (sb : superblock) `{FL : !fslayout start nlog sb}.
Abbreviation home_eq := (home_eq start nlog).
Abbreviation fs := (fs start nlog me).
Abbreviation quiescent := (quiescent start nlog me).
Abbreviation fsys := (fsys sb).
Abbreviation dinode := (dinode sb).
Abbreviation allocated := (allocated sb).
Abbreviation frees := (frees sb).
Abbreviation fcontents := (fcontents sb).
Abbreviation others := (others sb).
Abbreviation get_inode := (get_inode sb).
Abbreviation synced := (synced sb).

Lemma supplies_frame s s' src bs : kctx me (kn_k s) -> kframe (kn_k s) (kn_k s') -> supplies me s src bs -> supplies me s' src bs.
Proof. intros Hk HF [H0 Hc]. split; [done |]. intros k o m Hk' HF'. apply Hc; [done |]. by eapply (kframe_trans 8); [apply Hk | |]. Qed.

Lemma begin_fs s v : lg_outstanding (kn_log s) = 0 -> lg_committing (kn_log s) = 0 -> tx start nlog me s v ∅ [] -> kn_sb s = sb ->
  exists s1, begin_op s = Ok tt s1 /\ fs s1 sb v ∅ [] (kn_inodes s) s1 /\ lframe s s1 /\ dv s1 = dv s /\
    lg_outstanding (kn_log s1) = 1 /\ lg_committing (kn_log s1) = 0.
Proof.
  intros Ho Hc Htx Hsb. pose proof (bo_ctx _ _ _ _ _ (tx_bio _ _ _ _ _ _ _ Htx)) as Hk.
  assert (Ha : admits (kn_log s)).
  { split; [done |]. rewrite Ho, (lm_n _ _ _ _ (tx_log _ _ _ _ _ _ _ Htx)). vm_compute. congruence. }
  eexists. split; [exact (begin_op_run me s Hk Ha) |]. set (s1 := set_kn_k _ _).
  assert (Htx1 : tx start nlog me s1 v ∅ []).
  { destruct Htx as [Hb Hm Hbl Hh]. split; [apply bio_log; [done | by apply kctx_cyc | apply kframe_cyc] | | done | done].
    by eapply log_mem_same. }
  split_and!; [| split; try done; [apply kframe_cyc | apply io_same_refl] | done | by cbn; rewrite Ho | done].
  split; try done; [by apply kctx_cyc | apply kframe_refl | apply io_same_refl].
Qed.

Lemma end_fs s1 v bl ino s2 : fs s1 sb v ∅ bl ino s2 -> (length bl < NBUF)%nat ->
  lg_outstanding (kn_log s1) = 1 -> lg_committing (kn_log s1) = 0 ->
  cpost (atomic start nlog (dv s1) v)
    (fun _ s3 => quiescent s3 /\ kn_sb s3 = sb /\ kn_inodes s3 = ino /\ kframe (kn_k s1) (kn_k s3) /\ io_same (kn_io s1) (kn_io s3) /\
       home_eq (dv s3) v) (end_op s2).
Proof.
  intros Hs Hl Ho Hc. destruct (f_log _ _ _ _ _ _ _ _ _ _ Hs) as [L1 L2].
  eapply cpost_mono; [| | apply (end_op_run start nlog me s2 v bl (f_tx _ _ _ _ _ _ _ _ _ _ Hs) Hl); congruence].
  - intros s' [Hh Hr]. split; [done |]. destruct Hr as [Hr | Hr]; [left | by right]. intros c Hc'. rewrite Hr by done.
    apply (f_dv _ _ _ _ _ _ _ _ _ _ Hs).
  - intros _ s3 (HF & O3 & C3 & Hd3 & v3 & Htx3 & _). destruct HF as [F1 F3 F4 F5]. destruct Hs as [T1 T3 T4 T5 T6 T7 T8 T9].
    split_and!; try congruence; [split_and!; [done | done | by exists v3] | | by eapply io_same_trans | done].
    eapply (kframe_trans 8); [apply T6 | done | done].
Qed.

(** ** An open file *)

(** File [f] is open for writing at [off] on entry [ip] of the inode table, which
    is inode [i]; no operation is in progress. *)
Record wopen (s : kern) (f ip : nat) (i off : Z) : Prop := {
  wn_quiet : quiescent s;
  wn_sb : kn_sb s = sb;
  wn_fsys : fsys (dv s);
  wn_alloc : allocated (dv s) i;
  wn_typed : ityped (dinode (dv s) i);
  wn_file : exists F, io_files (kn_io s) !! f = Some F /\ f_type F = FD_INODE /\ f_writable F <> 0 /\ f_ip F = Some ip /\ f_off F = off;
  wn_lt : (ip < NINODE)%nat;
  wn_entry : exists x, kn_inodes s !! ip = Some x /\ i_dev x = ROOTDEV /\ i_inum x = i /\ 1 <= i_ref x /\ sk_locked (i_lock x) = 0 /\
    (i_valid x <> 0 -> get_inode (dv s) x = x) }.

Lemma ityped_ext x y : ityped x -> i_type y = i_type x -> i_major y = i_major x -> i_minor y = i_minor x -> i_nlink y = i_nlink x ->
  i_size y = i_size x -> i_addrs y = i_addrs x -> ityped y.
Proof. intros [] E1 E2 E3 E4 E5 E6. split; rewrite ?E1, ?E2, ?E3, ?E4, ?E5, ?E6; done. Qed.

Lemma synced_typed v x : synced v x -> ityped (dinode v (i_inum x)) <-> ityped x.
Proof.
  intros (_ & _ & E). pose proof (f_equal i_type E). pose proof (f_equal i_major E). pose proof (f_equal i_minor E).
  pose proof (f_equal i_nlink E). pose proof (f_equal i_size E). pose proof (f_equal i_addrs E).
  split; intros Ht; (eapply ityped_ext; [exact Ht |..]); done.
Qed.

Lemma synced_contents v x : synced v x -> fcontents v (i_inum x) = contents v x /\ need (dinode v (i_inum x)) = need x.
Proof.
  intros Hs. destruct (synced_dinode sb v x Hs) as (Ea & Es & _).
  unfold FsWrite.fcontents, contents, fdata, fbyte, fblk, need, addr. by rewrite Ea, Es.
Qed.

(** [get_inode] replaces the fields that are on disk. *)
Lemma get_inode_fields v i : exists t ma mi nl sz l, forall y, i_inum y = i ->
  get_inode v y = mkInode (i_dev y) (i_inum y) (i_ref y) (i_lock y) (i_valid y) t ma mi nl sz l.
Proof. do 6 eexists. intros y E. unfold FsInode.get_inode. rewrite E. unfold get_dinode. cbn. rewrite E. reflexivity. Qed.

(** The entry once it is locked. *)
Lemma locked_synced s v x : i_dev x = ROOTDEV -> inum_ok sb (i_inum x) -> (i_valid x <> 0 -> get_inode v x = x) ->
  let y := locked_inode me s sb v x in
  synced v y /\ i_inum y = i_inum x /\ i_ref y = i_ref x /\ i_valid y <> 0 /\ held me s y = y.
Proof.
  intros Hd Hi Hv. cbv zeta. unfold locked_inode, FsProps.synced. destruct (get_inode_fields v (i_inum x)) as (t & ma & mi & nl & sz & l & Hg).
  destruct (Z.eqb_spec (i_valid x) 0) as [E | E].
  - rewrite (Hg (held me s x) eq_refl). cbn [set_i_valid i_dev i_inum i_ref i_lock i_type i_major i_minor i_nlink i_size i_addrs].
    rewrite (Hg (mkInode _ _ _ _ 1 t ma mi nl sz l) eq_refl). done.
  - specialize (Hv E). rewrite (Hg x eq_refl) in Hv. rewrite (Hg (held me s x) eq_refl).
    assert (E2 : held me s (mkInode (i_dev x) (i_inum x) (i_ref x) (i_lock x) (i_valid x) t ma mi nl sz l) = held me s x) by (by rewrite Hv).
    split_and!; done.
Qed.

Lemma t_getf {A} s0 v h bl ino f (k : file -> M kern A) Q : triple (fs s0 sb v h bl ino) (k (file_at s0 f)) Q ->
  triple (fs s0 sb v h bl ino) (bind (getf f) k) Q.
Proof.
  apply t_gets. intros s Hs. unfold file_at. pose proof (f_io _ _ _ _ _ _ _ _ _ _ Hs) as E. unfold io_same in E. by rewrite E.
Qed.

(** The table of open files is not part of the file system. *)
Definition with_files (F : list file) (s : kern) : kern := set_kn_io (set_io_files F (kn_io s)) s.
Lemma fs_files s0 v h bl ino s F : fs s0 sb v h bl ino s -> fs (with_files F s0) sb v h bl ino (with_files F s).
Proof.
  intros [[[B1 B2 B3 B4] L1 L2 L3] T3 T4 T5 T6 T7 T8 T9]. split; try done.
  - split; try done. split; try done. by eapply disk_ok_frame.
  - exact (f_equal (set_io_files F) T8).
Qed.

(** ** One chunk *)

Lemma home_sym v w : home_eq v w -> home_eq w v.
Proof. intros H c Hc. symmetry. by apply H. Qed.

Lemma synced_home v w x : home_eq v w -> synced v x -> synced w x.
Proof. intros H (H1 & H2 & H3). split_and!; [done | done |]. by rewrite (get_inode_home start nlog sb v w). Qed.

(** [R] is the disk [D] with [bs] written at [off] of file [i]. *)
Record stored (D : Z -> list Z) (i off : Z) (bs : list Z) (R : Z -> list Z) : Prop := {
  st_fsys : fsys R;
  st_alloc : allocated R i;
  st_bytes : fcontents R i = spec_write off bs (fcontents D i);
  st_others : others i D R }.

Lemma spec_write_nil off c : spec_write off [] c = c.
Proof. unfold spec_write. cbn [length]. rewrite Nat.add_0_r. apply take_drop. Qed.

Lemma stored_none D R i off : home_eq D R -> (forall b, length (R b) = Z.to_nat BSIZE) -> fsys D -> allocated D i -> stored D i off [] R.
Proof.
  intros H Hl Hf Ha. split.
  - eapply (fsys_home start nlog sb); [exact H | by intros; apply Hl | done].
  - by apply (allocated_home start nlog sb D R).
  - rewrite spec_write_nil. by apply (fcontents_home start nlog sb).
  - by apply (others_home start nlog sb).
Qed.

(** The disk after a write that started from the view [v]. *)
Lemma stored_write D v x off bs v' x' R (i := i_inum x) : home_eq D v -> fsys D -> fsys v -> synced v x -> i_type x <> 0 -> ityped x ->
  0 <= off <= i_size x -> off + Z.of_nat (length bs) <= MAXFILE * BSIZE ->
  wrote sb v x off bs v' x' -> home_eq v' R -> (forall b, length (R b) = Z.to_nat BSIZE) ->
  stored D i off bs R /\ synced R x' /\ ityped x' /\ need (dinode R i) = need x' /\ frees R = frees v'.
Proof.
  intros HD HfD Hfv Hs Ht Hty Ho Hm W HR Hl. destruct (wrote_fsys start nlog sb v x off bs v' x' Hfv Hs Ht Hty W) as [Hf' Hs'].
  pose proof (wo_inum _ _ _ _ _ _ _ W) as Ei. destruct (synced_dinode sb v x Hs) as (_ & _ & Et).
  pose proof (synced_home v' R x' HR Hs') as HsR. destruct (synced_dinode sb v' x' Hs') as (_ & _ & Et').
  assert (Ha : allocated v i) by (split; [apply Hs | unfold i; by rewrite Et]). assert (HaD : allocated D i) by (by apply (allocated_home start nlog sb D v)).
  assert (Ha' : allocated v' i).
  { split; [apply Hs |]. unfold i. rewrite <- Ei, Et'. rewrite (wo_meta _ _ _ _ _ _ _ W). exact Ht. }
  assert (Hc : fcontents v' i = spec_write off bs (fcontents v i)).
  { unfold i. rewrite <- Ei at 1. destruct (synced_contents v' x' Hs') as [-> _], (synced_contents v x Hs) as [-> _].
    apply (contents_write sb); try done. pose proof (fy_file _ _ Hfv i Ha) as Hx. destruct (synced_dinode sb v x Hs) as (Ea & Es & _).
    eapply (fok_ext sb); [exact Hx | done | done | by rewrite (proj1 Hs)]. }
  split_and!; [split | done | by apply W | | by apply (frees_home start nlog sb)].
  - eapply (fsys_home start nlog sb); [exact HR | by intros; apply Hl | done].
  - by apply (allocated_home start nlog sb v' R).
  - rewrite (fcontents_home start nlog sb v' R), Hc by done. f_equal. by apply (fcontents_home start nlog sb).
  - eapply others_trans; [by apply (others_home start nlog sb i D v) |]. eapply others_trans; [by eapply (wrote_others sb) |].
    by apply (others_home start nlog sb).
  - unfold i. rewrite <- Ei. by apply synced_contents.
Qed.

Lemma cpost_triple {A B} P (m : M kern A) (R : A -> kern -> Prop) (k : A -> M kern B) C Q s : triple P m R -> P s ->
  (forall a s', R a s' -> cpost C Q (k a s')) -> cpost C Q (bind m k s).
Proof. intros Hm Hs Hk. destruct (Hm s Hs) as (a & s' & E & Hr). eapply cpost_step; [exact E | by apply Hk]. Qed.

(** What a crash leaves of the write of [bs]: a consistent file system in which a
    prefix of them has been written. *)
Definition crash_ok (D : Z -> list Z) (i off : Z) (bs : list Z) (s' : kern) : Prop :=
  hdr_ok start nlog (dv s') /\ exists k, (k <= length bs)%nat /\ stored D i off (take k bs) (recovered start (dv s')).

(** The state after a chunk: the bytes are in the file on disk. *)
Record chunk_done (s : kern) (f ip : nat) (i off : Z) (bs : list Z) (s' : kern) : Prop := {
  cd_open : wopen s' f ip i (off + Z.of_nat (length bs));
  cd_disk : stored (dv s) i off bs (dv s');
  cd_frees : (length (frees (dv s)) + need (dinode (dv s') i) <= length (frees (dv s')) + 4 + need (dinode (dv s) i))%nat;
  cd_k : kframe (kn_k s) (kn_k s') }.

Lemma chunk_blocks off n : 0 <= n <= filewrite_max -> off + n <= (off / BSIZE + Z.of_nat 4) * BSIZE.
Proof.
  change filewrite_max with 3072. pose proof (Z.div_mod off BSIZE ltac:(done)). pose proof (Z.mod_pos_bound off BSIZE ltac:(done)).
  unfold BSIZE in *. lia.
Qed.

Lemma room_nil : room ∅ [].
Proof. unfold room. rewrite map_size_empty. change NBUF with 30%nat. cbn [length]. lia. Qed.

(** The steps of a chunk up to its [writei]. *)
Lemma chunk_first s1 v ino f ip x src bs off F (n := Z.of_nat (length bs)) (y := locked_inode me s1 sb v x) `{OUT : !intx s1}
    C Q (rest : file -> Z -> M kern Z) s :
  dwf sb v -> fok sb v y -> ino !! ip = Some x -> (ip < NINODE)%nat -> sk_locked (i_lock x) = 0 -> 1 <= i_ref x ->
  i_dev x = ROOTDEV -> inum_ok sb (i_inum x) -> i_inum y = i_inum x -> (i_valid x = 0 -> i_type (get_inode v x) <> 0) ->
  file_at s1 f = F -> f_ip F = Some ip -> f_off F = off -> supplies me s1 src bs -> 0 < n <= filewrite_max ->
  0 <= off <= i_size y -> off + n <= MAXFILE * BSIZE -> 13 <= nlog -> (4 + need y <= length (frees v))%nat ->
  fs s1 sb v ∅ [] ino s ->
  (forall v' x' bl' s', wrote sb v y off bs v' x' -> (length bl' < NBUF)%nat ->
     (length (frees v) + need x' <= length (frees v') + 4 + need y)%nat -> fs s1 sb v' ∅ bl' (<[ip := x']> ino) s' -> cpost C Q (rest F n s')) ->
  cpost C Q ((let* x := getf f in
    ilock (f_ip x) ;;;
    let* x := getf f in
    let* r := (match f_ip x with Some ip => writei ip src (f_off x) n | None => kfault end) in
    rest x r) s).
Proof.
  intros Hd Hf Hx Hip Hl Hr Hdev Hin Ey Ht HF E1 E2 Hsrc Hn Ho Hm Hlog Hfr Hs HK.
  assert (Hg : forall v h bl ino s, fs s1 sb v h bl ino s -> getf f s = Ok F s).
  { intros ????? Hs'. unfold getf, gets, file_at. rewrite <- HF. unfold file_at. by rewrite (f_io _ _ _ _ _ _ _ _ _ _ Hs'). }
  eapply cpost_step; [by eapply Hg |]. rewrite E1.
  eapply cpost_triple; [apply (t_ilock start nlog me s1 sb v [] ino ip x); try done; exact room_nil | exact Hs |].
  intros [] s2 Hs2. fold y in Hs2. eapply cpost_step; [by eapply Hg |]. rewrite E1, E2. assert (Hlt : (ip < length ino)%nat) by (by eapply lookup_lt_Some).
  assert (Hw : wt sb [] = 1%nat) by done.
  eapply cpost_triple; [apply (t_writei start nlog me s1 sb v [] (<[ip := y]> ino) ip y off src bs 4); try done | exact Hs2 |].
  - by apply list_lookup_insert_eq.
  - by rewrite Ey.
  - change (Z.to_nat MAXFILE) with 268%nat. lia.
  - intros _. apply chunk_blocks. lia.
  - split; rewrite Hw; [lia |]. rewrite map_size_empty. change NBUF with 30%nat. lia.
  - intros r s' (v' & x' & bl' & (-> & W & Hwt & Hfr') & Hs'). rewrite list_insert_insert_eq in Hs'.
    apply (HK v' x' bl'); try done. rewrite Hw in Hwt. unfold wt in Hwt. change NBUF with 30%nat. lia.
Qed.

(** The rest of a chunk: the offset moves on, and the transaction commits. *)
Lemma chunk_last s1 f ip F v bl ino x (n : Z) s C Q (K : M kern Z) :
  fs s1 sb v ∅ bl ino s -> io_files (kn_io s1) !! f = Some F -> f_ip F = Some ip -> ino !! ip = Some x -> (ip < NINODE)%nat ->
  held me s1 x = x -> 1 <= i_ref x -> (length bl < NBUF)%nat -> lg_outstanding (kn_log s1) = 1 -> lg_committing (kn_log s1) = 0 ->
  0 < n -> 0 <= f_off F -> f_off F + n < 2^32 ->
  (forall s', atomic start nlog (dv s1) v s' -> C s') ->
  (forall s', quiescent s' -> kn_sb s' = sb -> kn_inodes s' = <[ip := unheld x]> ino -> kframe (kn_k s1) (kn_k s') ->
     io_files (kn_io s') !! f = Some (set_f_off (f_off F + n) F) -> home_eq (dv s') v -> cpost C Q (K s')) ->
  cpost C Q ((when (0 <? n) (updf f (fun x => set_f_off (u32 (f_off x + n)) x)) ;;; iunlock (f_ip F) ;;; end_op ;;; K) s).
Proof.
  intros Hs Hf Eip Hx Hip Hh Hr Hl Ho Hc Hn Hf0 Hlt HC HK. rewrite (proj2 (Z.ltb_lt _ _)) by done. cbn [when].
  assert (Ef : io_files (kn_io s) = io_files (kn_io s1)) by (by rewrite (f_io _ _ _ _ _ _ _ _ _ _ Hs)).
  set (fl := <[f := set_f_off (f_off F + n) F]> (io_files (kn_io s1))).
  eapply (cpost_step _ _ _ _ _ tt (with_files fl s)).
  { unfold updf, modify, file_at. rewrite Ef, Hf. change (default file0 (Some F)) with F.
    replace (u32 (f_off F + n)) with (f_off F + n) by (unfold u32; rewrite Z.mod_small; lia). done. }
  pose proof (fs_files s1 v ∅ bl ino s fl Hs) as Hs2. rewrite Eip.
  eapply cpost_triple; [apply (t_iunlock start nlog me (with_files fl s1) sb v ∅ bl ino ip x); [| done | done] | exact Hs2 |].
  { rewrite Hx. f_equal. symmetry. exact Hh. }
  intros [] s3 Hs3. eapply cpost_then; [eapply cpost_mono; [exact HC | intros a b H; exact H |] |].
  - exact (end_fs (with_files fl s1) v bl _ s3 Hs3 Hl Ho Hc).
  - intros [] s4 (Q1 & Q2 & Q3 & Q4 & Q5 & Q6). apply HK; try done. rewrite Q5. cbn [io_files set_io_vd with_files kn_io set_kn_io set_io_files].
    unfold fl. apply list_lookup_insert_eq. by eapply lookup_lt_Some.
Qed.

Lemma length_fcontents v i : fsys v -> allocated v i -> Z.of_nat (length (fcontents v i)) = i_size (dinode v i).
Proof. intros Hf Ha. apply (length_contents sb). by apply (fy_file _ _ Hf). Qed.

(** The entry of an open file, as the transaction will find it locked. *)
Lemma wopen_locked s s1 f ip i off v x (y := locked_inode me s1 sb v x) : wopen s f ip i off -> kn_inodes s !! ip = Some x -> home_eq v (dv s) ->
  fsys v -> i_dev x = ROOTDEV -> i_inum x = i -> (i_valid x <> 0 -> get_inode (dv s) x = x) ->
  synced v y /\ i_inum y = i /\ i_ref y = i_ref x /\ i_valid y <> 0 /\ held me s1 y = y /\ i_type y <> 0 /\ ityped y /\ fok sb v y /\
  fcontents (dv s) i = contents v y /\ need (dinode (dv s) i) = need y.
Proof.
  intros Ho Hx Hv Hfv Hdev Hi Hvalid. pose proof (wn_alloc _ _ _ _ _ Ho) as Ha. pose proof Ha as [Hin Ht].
  destruct (locked_synced s1 v x) as (Y1 & Y2 & Y3 & Y4 & Y5); [done | by rewrite Hi | |].
  { intros Hn. by rewrite <- (get_inode_home start nlog sb v (dv s)), Hvalid by (done || by rewrite Hi). }
  fold y in Y1, Y2, Y3, Y4, Y5. clearbody y. rewrite Hi in Y2. pose proof (dinode_home start nlog sb v (dv s) i Hv Hin) as Ed.
  destruct (synced_dinode sb v y Y1) as (Ea & Es & Et), (synced_contents v y Y1) as [Ec En]. rewrite Y2 in Ea, Es, Et, Ec, En.
  pose proof (proj1 (allocated_home start nlog sb v (dv s) i Hv) Ha) as Hav.
  split; [exact Y1 |]. split; [exact Y2 |]. split; [exact Y3 |]. split; [exact Y4 |]. split; [exact Y5 |]. split_and!.
  - rewrite <- Et, <- Ed. exact Ht.
  - apply (synced_typed v y Y1). rewrite Y2, <- Ed. apply (wn_typed _ _ _ _ _ Ho).
  - eapply (fok_ext sb); [exact (fy_file _ _ Hfv i Hav) | symmetry; exact Ea | symmetry; exact Es | exact (proj1 Y1)].
  - rewrite <- Ec. apply (fcontents_home start nlog sb v (dv s)); [exact Hv | exact Hfv | exact Hav].
  - rewrite Ed. exact En.
Qed.

Lemma held_iff s x : i_lock x = mkSleeplock 1 (sk_name (i_lock x)) (pid0 me s) -> held me s x = x.
Proof. intros E. unfold held. rewrite <- E. by destruct x. Qed.

Lemma chunk_rest s s1 f ip i off bs (n := Z.of_nat (length bs)) v y v' x' bl' s2 F C Q (K : Z -> M kern Z) :
  wopen s f ip i off -> home_eq v (dv s) -> fsys v -> io_files (kn_io s) !! f = Some F -> f_type F = FD_INODE -> f_writable F <> 0 ->
  f_ip F = Some ip -> f_off F = off -> (ip < length (kn_inodes s))%nat -> kframe (kn_k s) (kn_k s1) -> dv s1 = dv s ->
  io_files (kn_io s1) = io_files (kn_io s) -> lg_outstanding (kn_log s1) = 1 -> lg_committing (kn_log s1) = 0 ->
  synced v y -> i_inum y = i -> 1 <= i_ref y -> i_valid y <> 0 -> held me s1 y = y -> i_type y <> 0 -> ityped y ->
  need (dinode (dv s) i) = need y -> kctx me (kn_k s) -> frees v = frees (dv s) ->
  0 < n -> 0 <= off <= i_size y -> off + n <= MAXFILE * BSIZE ->
  wrote sb v y off bs v' x' -> (length bl' < NBUF)%nat ->
  (length (frees v) + need x' <= length (frees v') + 4 + need y)%nat -> fs s1 sb v' ∅ bl' (<[ip := x']> (kn_inodes s)) s2 ->
  (forall s', crash_ok (dv s) i off bs s' -> C s') ->
  (forall s', chunk_done s f ip i off bs s' -> cpost C Q (K n s')) ->
  cpost C Q ((when (0 <? n) (updf f (fun x => set_f_off (u32 (f_off x + n)) x)) ;;; iunlock (f_ip F) ;;; end_op ;;; K n) s2).
Proof.
  intros Ho Hv Hfv HF F1 F2 F3 F4 Hlt G1 Ed1 Ef1 L1 L2 Y1 Y2 Y3 Y4 Y5 Y6 Y7 Y10 Hkc Hfr' Hn Hoff Hmax W Hbl Hfw Hs2 HC HK.
  assert (Em : MAXFILE * BSIZE < 2^32) by done. pose proof (wo_meta _ _ _ _ _ _ _ W) as Hm. subst off i.
  assert (Hmo : forall R, home_eq v' R -> (forall b, length (R b) = Z.to_nat BSIZE) ->
    stored (dv s) (i_inum y) (f_off F) bs R /\ synced R x' /\ ityped x' /\ need (dinode R (i_inum y)) = need x' /\ frees R = frees v').
  { intros R HR Hl. apply (stored_write (dv s) v y); try assumption; [by apply home_sym | apply (wn_fsys _ _ _ _ _ Ho)]. }
  pose proof (f_equal i_lock Y5) as El. pose proof (f_equal i_lock Hm) as Elm. cbn [i_lock set_i_size set_i_addrs] in Elm.
  assert (Hh : held me s1 x' = x') by (apply held_iff; rewrite Elm; symmetry; exact El).
  eapply (chunk_last s1 f ip F v' bl' (<[ip := x']> (kn_inodes s)) x' n s2 C Q (K n)); try assumption.
  - by rewrite Ef1.
  - by apply list_lookup_insert_eq.
  - apply (wn_lt _ _ _ _ _ Ho).
  - rewrite Hm. exact Y3.
  - lia.
  - lia.
  - intros s' [Hh1 Hr]. apply HC. split; [exact Hh1 |]. rewrite Ed1 in Hr. destruct Hr as [Hr | Hr].
    + exists 0%nat. split; [lia |]. apply stored_none; [by apply home_sym | | apply Ho | apply Ho].
      intros b. apply length_recovered. intros. apply dview_len.
    + exists (length bs). split; [lia |]. rewrite take_ge by lia. apply (Hmo _ (home_sym _ _ Hr)).
      intros b. apply length_recovered. intros. apply dview_len.
  - intros s' Q1 Q2 Q3 Q4 Q5 Q6. apply HK. destruct (Hmo (dv s') (home_sym _ _ Q6)) as (S1 & S2 & S3 & S4 & S5); [intros; apply dview_len |].
    assert (Ei : i_inum x' = i_inum y) by (rewrite Hm; reflexivity).
    split; [split | exact S1 | | by eapply (kframe_trans 8); [apply Hkc | |]]; try assumption.
    + apply S1.
    + apply S1.
    + rewrite <- Ei. by apply synced_typed.
    + exists (set_f_off (f_off F + n) F). split_and!; try assumption. reflexivity.
    + apply (wn_lt _ _ _ _ _ Ho).
    + exists (unheld x'). rewrite Q3. rewrite list_insert_insert_eq. split; [by apply list_lookup_insert_eq |].
      destruct S2 as (D1 & D2 & D3). split; [exact D1 |]. split; [exact Ei |]. split; [rewrite Hm; exact Y3 |]. split; [reflexivity |].
      intros _. destruct (get_inode_fields (dv s') (i_inum x')) as (t & ma & mi & nl & sz & l & Hg). rewrite (Hg (unheld x') eq_refl).
      rewrite (Hg x' eq_refl) in D3. rewrite <- D3 at 6. reflexivity.
    + rewrite S4, S5, Y10, <- Hfr'. exact Hfw.
Qed.

Lemma chunk_run s f ip i off src bs (n := Z.of_nat (length bs)) C Q (K : Z -> M kern Z) :
  wopen s f ip i off -> supplies me s src bs -> 0 < n <= filewrite_max -> 0 <= off <= Z.of_nat (length (fcontents (dv s) i)) ->
  off + n <= MAXFILE * BSIZE -> 13 <= nlog -> (4 + need (dinode (dv s) i) <= length (frees (dv s)))%nat ->
  (forall s', crash_ok (dv s) i off bs s' -> C s') ->
  (forall s', chunk_done s f ip i off bs s' -> cpost C Q (K n s')) ->
  cpost C Q ((begin_op ;;;
    let* x := getf f in
    ilock (f_ip x) ;;;
    let* x := getf f in
    let* r := (match f_ip x with Some ip => writei ip src (f_off x) n | None => kfault end) in
    when (0 <? r) (updf f (fun x => set_f_off (u32 (f_off x + r)) x)) ;;;
    iunlock (f_ip x) ;;;
    end_op ;;;
    K r) s).
Proof.
  intros Ho Hsrc Hn Hoff Hmax Hlog Hfr HC HK. pose proof Ho as [(O1 & O2 & v & Htx) Hsb Hfy Hal Hty (F & HF & F1 & F2 & F3 & F4) Hip (x & Hx & X1 & X2 & X3 & X4 & X5)].
  assert (Hv : home_eq v (dv s)) by (intros c Hc; by apply (tx_clean start nlog me)). assert (Hv' := home_sym _ _ Hv).
  assert (Hfv : fsys v).
  { eapply (fsys_home start nlog sb); [exact Hv' | | done]. intros b Hb. exact (bio_vlen me s v _ _ b (tx_bio _ _ _ _ _ _ _ Htx) Hb). }
  destruct (begin_fs s v O1 O2 Htx Hsb) as (s1 & E1 & Hs1 & HF1 & Ed1 & L1 & L2). eapply cpost_step; [exact E1 |].
  assert (OUT : intx s1) by (split; by rewrite L1). destruct HF1 as [G1 G2 G3 G4].
  assert (Ef1 : io_files (kn_io s1) = io_files (kn_io s)) by (by rewrite G4).
  destruct (wopen_locked s s1 f ip i off v x Ho Hx Hv Hfv X1 X2 X5) as (Y1 & Y2 & Y3 & Y4 & Y5 & Y6 & Y7 & Y8 & Y9 & Y10).
  pose proof (length_contents sb v _ Y8) as Hlc. rewrite <- Y9 in Hlc.
  assert (Hkc : kctx me (kn_k s)) by apply (tx_bio _ _ _ _ _ _ _ Htx).
  assert (Hfr' : frees v = frees (dv s)) by (by apply (frees_home start nlog sb)).
  apply (chunk_first s1 v (kn_inodes s) f ip x src bs off F C Q
    (fun x r => when (0 <? r) (updf f (fun x => set_f_off (u32 (f_off x + r)) x)) ;;; iunlock (f_ip x) ;;; end_op ;;; K r)).
  - apply Hfv.
  - exact Y8.
  - exact Hx.
  - exact Hip.
  - exact X4.
  - exact X3.
  - exact X1.
  - rewrite X2. apply Hal.
  - by rewrite Y2.
  - intros _ Ht. apply (proj2 Hal). rewrite <- Ht, <- X2. symmetry. rewrite <- (get_inode_home start nlog sb v (dv s)); [reflexivity | exact Hv |].
    rewrite X2. apply Hal.
  - unfold file_at. by rewrite Ef1, HF.
  - exact F3.
  - exact F4.
  - by apply (supplies_frame s).
  - exact Hn.
  - lia.
  - exact Hmax.
  - exact Hlog.
  - rewrite Hfr', <- Y10. exact Hfr.
  - exact Hs1.
  - intros v' x' bl' s2 W Hbl Hfw Hs2.
    apply (chunk_rest s s1 f ip i off bs v (locked_inode me s1 sb v x) v' x' bl' s2 F C Q K); try assumption; [by eapply lookup_lt_Some | by rewrite Y3 | lia | lia].
Qed.

(** ** The loop *)

Lemma supplies_take s src bs m : supplies me s src bs -> supplies me s src (take m bs).
Proof.
  intros [H0 Hc]. split; [done |]. intros k o j Hk HF Ho Hj Hl. rewrite length_take in Hl.
  destruct (Hc k o j Hk HF Ho Hj ltac:(lia)) as (k' & E & ?). exists k'. split; [| done]. rewrite E, skipn_firstn_comm, take_take.
  by rewrite Nat.min_l by lia.
Qed.

Lemma spec_write_app off a b c : 0 <= off <= Z.of_nat (length c) ->
  spec_write (off + Z.of_nat (length a)) b (spec_write off a c) = spec_write off (a ++ b) c.
Proof.
  intros Ho. unfold spec_write. assert (Hl : length (take (Z.to_nat off) c) = Z.to_nat off) by (rewrite length_take; lia).
  replace (Z.to_nat (off + Z.of_nat (length a))) with (Z.to_nat off + length a)%nat by lia.
  rewrite (app_assoc (take _ c) a). rewrite take_app_length' by (rewrite length_app; lia). rewrite <- !app_assoc. do 3 f_equal.
  rewrite app_assoc, drop_app_ge by (rewrite length_app; lia). rewrite drop_drop, !length_app. f_equal. lia.
Qed.

Lemma stored_trans D i off a D1 b R : 0 <= off <= Z.of_nat (length (fcontents D i)) -> stored D i off a D1 ->
  stored D1 i (off + Z.of_nat (length a)) b R -> stored D i off (a ++ b) R.
Proof.
  intros Ho [A1 A2 A3 A4] [B1 B2 B3 B4]. split; try assumption; [| by eapply others_trans].
  by rewrite B3, A3, spec_write_app.
Qed.

Lemma length_spec_write off bs c : 0 <= off <= Z.of_nat (length c) ->
  Z.of_nat (length (spec_write off bs c)) = Z.max (Z.of_nat (length c)) (off + Z.of_nat (length bs)).
Proof. intros Ho. unfold spec_write. rewrite !length_app, length_take, length_drop. lia. Qed.

(** The chunks of a write of [n] bytes. *)
Definition nchunks (n : Z) : Z := (n + filewrite_max - 1) / filewrite_max.

Lemma nchunks_step n : 0 < n -> nchunks n = 1 + nchunks (n - Z.min filewrite_max n) /\ 0 <= nchunks (n - Z.min filewrite_max n).
Proof.
  unfold nchunks. change filewrite_max with 3072. intros Hn. destruct (Z.min_spec 3072 n) as [[H1 ->] | [H1 ->]].
  - split; [| apply Z.div_pos; lia]. replace (n + 3072 - 1) with (n - 3072 + 3072 - 1 + 1 * 3072) by lia. rewrite Z.div_add by done. lia.
  - rewrite Z.sub_diag. change ((0 + 3072 - 1) / 3072) with 0. split; [| done].
    symmetry. rewrite Z.add_0_r. apply (Z.div_unique _ _ _ (n - 1)); lia.
Qed.

Lemma filewrite_loop_run f ip i addr n : 13 <= nlog -> forall fuel s off bs tot,
  wopen s f ip i off -> supplies me s (USrc (u64 (addr + tot))) bs -> 0 <= tot -> Z.of_nat (length bs) = n - tot ->
  0 <= off <= Z.of_nat (length (fcontents (dv s) i)) -> off + (n - tot) <= MAXFILE * BSIZE ->
  nchunks (n - tot) < Z.of_nat fuel -> 4 * nchunks (n - tot) + Z.of_nat (need (dinode (dv s) i)) <= Z.of_nat (length (frees (dv s))) ->
  cpost (crash_ok (dv s) i off bs) (fun r s' => r = n /\ wopen s' f ip i (off + (n - tot)) /\ stored (dv s) i off bs (dv s'))
    (filewrite_loop fuel f addr tot n s).
Proof.
  intros Hlog. induction fuel as [| fuel IH]; intros s off bs tot Ho Hsrc Ht Hl Hoff Hmax Hfuel Hfr.
  { exfalso. assert (0 <= nchunks (n - tot)) by (apply Z.div_pos; [change filewrite_max with 3072; lia | done]). lia. }
  cbn [filewrite_loop]. destruct (Z.ltb_spec tot n) as [Hlt | Hge].
  2: { assert (tot = n) as -> by lia. rewrite Z.sub_diag, Z.add_0_r. destruct bs; [| cbn [length] in Hl; lia]. split_and!; [done | done |].
       apply stored_none; [done | intros; apply dview_len | apply Ho | apply Ho]. }
  set (n1 := if filewrite_max <? n - tot then filewrite_max else n - tot).
  assert (En1 : n1 = Z.min filewrite_max (n - tot)) by (unfold n1; destruct (Z.ltb_spec filewrite_max (n - tot)); lia). clearbody n1.
  assert (Hmx : filewrite_max = 3072) by done. destruct (nchunks_step (n - tot) ltac:(lia)) as [Hc1 Hc2]. rewrite <- En1 in Hc1, Hc2.
  assert (Hn1 : Z.of_nat (length (take (Z.to_nat n1) bs)) = n1) by (rewrite length_take; lia).
  pose proof (chunk_run s f ip i off (USrc (u64 (addr + tot))) (take (Z.to_nat n1) bs) (crash_ok (dv s) i off bs)
    (fun r s' => r = n /\ wopen s' f ip i (off + (n - tot)) /\ stored (dv s) i off bs (dv s'))
    (fun r => if negb (r =? n1) then ret tot else filewrite_loop fuel f addr (tot + r) n)) as Hchunk. cbv zeta in Hchunk. rewrite Hn1 in Hchunk.
  apply Hchunk; clear Hchunk; try assumption; try lia.
  - by apply supplies_take.
  - intros s' (Hh & k & Hk & Hst). split; [exact Hh |]. exists (Nat.min k (Z.to_nat n1)). split; [lia |]. by rewrite take_take in Hst.
  - intros s' [C1 C2 C3 C4]. rewrite Z.eqb_refl. cbn [negb]. rewrite Hn1 in C1.
    replace (off + (n - tot)) with (off + n1 + (n - (tot + n1))) by lia. rewrite <- (take_drop (Z.to_nat n1) bs) in |- *.
    eapply cpost_mono; [| | apply (IH s' (off + n1) (drop (Z.to_nat n1) bs) (tot + n1)); try assumption; try lia].
    + intros s2 (Hh & k & Hk & Hst). split; [exact Hh |]. exists (Z.to_nat n1 + k)%nat. rewrite length_drop in Hk. split; [rewrite take_drop; lia |].
      rewrite take_app_ge by lia. replace (Z.to_nat n1 + k - length (take (Z.to_nat n1) bs))%nat with k by lia.
      eapply stored_trans; [exact Hoff | exact C2 | by rewrite Hn1].
    + intros r s2 (-> & W2 & S2). split_and!; [done | done |]. eapply stored_trans; [done | exact C2 |]. by rewrite Hn1.
    + assert (Hk : kctx me (kn_k s)) by (destruct (wn_quiet _ _ _ _ _ Ho) as (_ & _ & v & Htx); apply (tx_bio _ _ _ _ _ _ _ Htx)).
      replace (USrc (u64 (addr + (tot + n1)))) with (esrc_off (USrc (u64 (addr + tot))) n1).
      2: { cbn [esrc_off]. f_equal. unfold u64. rewrite Zplus_mod_idemp_l. f_equal. lia. }
      apply (supplies_frame s); [exact Hk | exact C4 |]. apply supplies_off; [exact Hsrc | lia].
    + rewrite length_drop. lia.
    + rewrite (st_bytes _ _ _ _ _ C2), length_spec_write by done. lia.
    + replace (n - (tot + n1)) with (n - tot - n1) by lia. lia.
    + replace (n - (tot + n1)) with (n - tot - n1) by lia. lia.
Qed.

End Write.
