(* ===== verification/FsThms.v ===== *)
(** * What the file system guarantees

    The theorems about kernel/fs.c and the file layer, each with an example on the
    disk image of [FsSample]. *)

From S2P Require Import Prelude Riscv Mem Bytes StringLib Spinlock Kalloc Vm PageTable Uvm UserCopy VmSpec Proc ProcSpec Kctx State Sleeplock Bio BioList BioSpec BioRun RamDisk Log LogSpec BioProps LogProps LogTx Uart Printf Console Fs FsRun FsBlocks FsFile FsIo FsInode FsProps FsDir FsPath FsLink FsTrunc FsSample File FsWrite.

Section Theorems.
Context (start nlog : Z) `{PF : Platform} `{PA : Patience} `{BD : !BlockDev} `{BO : !BlockDevOk BD} `{LY : !layout start nlog}.
Context (me : nat) (sb : superblock) `{FL : !fslayout start nlog sb}.

(** C1: Crash safety and refinement of [filewrite]. Writing [bs] from user memory
    to an open file returns their number, moves the offset on, and leaves on the
    disk a consistent file system in which the file is the old byte array with
    [bs] stored at the offset and every other file is the same. If the power fails
    on the way, at any disk write of any of its transactions, then the disk
    after recovery is a consistent file system too, in which a prefix of [bs] has
    been stored and every other file is the same. *)
Theorem filewrite_crash_safe `{HIO : ImageOk} `{UN : Uninit} (s : kern) (f ip : nat) (i off addr : Z) (bs : list Z)
    (Ho : wopen start nlog me sb s f ip i off) (Hsrc : user_bytes me s addr bs)
    (Hoff : 0 <= off <= Z.of_nat (length (fcontents sb (dv s) i)))
    (Hmax : off + Z.of_nat (length bs) <= MAXFILE * BSIZE) (Hlog : 13 <= nlog)
    (Hfree : 4 * nchunks (Z.of_nat (length bs)) + Z.of_nat (need (dinode sb (dv s) i)) <= Z.of_nat (length (frees sb (dv s)))) :
  match filewrite f addr (Z.of_nat (length bs)) s with
  | Ok r s' => r = Z.of_nat (length bs) /\ wopen start nlog me sb s' f ip i (off + Z.of_nat (length bs)) /\
      stored sb (dv s) i off bs (dv s')
  | Panic msg s' => msg = "power off"%string /\ hdr_ok start nlog (dv s') /\
      exists k, (k <= length bs)%nat /\ stored sb (dv s) i off (take k bs) (recovered start (dv s'))
  | _ => False
  end.
Proof.
  set (n := Z.of_nat (length bs)) in *. pose proof (supplies_user me s addr bs Hsrc) as Hs. destruct (ub_range _ _ _ _ Hsrc) as [Ha1 Ha2].
  destruct (wn_file _ _ _ _ _ _ _ _ _ Ho) as (F & HF & F1 & F2 & _).
  assert (E : file_at s f = F) by (unfold file_at; by rewrite HF).
  pose proof (filewrite_loop_run start nlog me sb f ip i addr n Hlog (S (S (Z.to_nat (n / filewrite_max)))) s off bs 0 Ho) as Hw.
  rewrite Z.add_0_r, u64_small, Z.sub_0_r in Hw by lia. specialize (Hw Hs ltac:(lia) eq_refl Hoff Hmax).
  assert (Hfuel : nchunks n < Z.of_nat (S (S (Z.to_nat (n / filewrite_max))))).
  { unfold nchunks. pose proof (Z.div_pos n filewrite_max ltac:(lia) ltac:(done)). rewrite !Nat2Z.inj_succ, Z2Nat.id by done.
    change filewrite_max with 3072 in *. apply Z.div_lt_upper_bound; [lia |]. pose proof (Z.mod_pos_bound n 3072 ltac:(lia)).
    pose proof (Z.div_mod n 3072 ltac:(lia)). lia. }
  specialize (Hw Hfuel Hfree). unfold filewrite, bind at 1, getf, gets. cbn [obind]. rewrite E, F1.
  rewrite (proj2 (Z.eqb_neq _ _) F2). unfold bind. destruct (filewrite_loop _ _ _ _ _ _); cbn [obind cpost] in *; try done.
  destruct Hw as (-> & Hw & Hst). unfold ret. by rewrite Z.eqb_refl.
Qed.

Section Tx.
Context (s0 : kern) `{OUT : !intx s0}.
Abbreviation fs := (fs start nlog me s0 sb).

(** A name is linked, then a name is looked up. *)
Definition link_find (dp : nat) (name : list Z) (inum : Z) (q : list Z) : M kern (Z * option (nat * Z)) :=
  let* r := dirlink dp name inum in
  let* e := dirlookup dp q in
  ret (r, e).

(** An entry of the inode table is written back and used again, from [y]. *)
Definition recycle (ip : nat) (y : inode) : M kern unit :=
  iupdate ip ;;; upd_inode ip (fun _ => y) ;;; ilock (Some ip).

Lemma dok_linked v x k de v' x' : dok sb v x -> length (dirent_bytes de) = Z.to_nat dirent_size ->
  wrote sb v x (Z.of_nat k * dirent_size) (dirent_bytes de) v' x' -> dok sb v' x'.
Proof.
  intros [D1 D2 D3] Hl W. split; [apply W | by rewrite (wo_meta _ _ _ _ _ _ _ W) |].
  rewrite (wo_size _ _ _ _ _ _ _ W), Hl. change (Z.of_nat (Z.to_nat dirent_size)) with dirent_size.
  replace (Z.of_nat k * dirent_size + dirent_size) with ((Z.of_nat k + 1) * dirent_size) by lia.
  apply Z.max_case; [done | apply Z.mod_mul; done].
Qed.

(** C7: A file is an array of bytes. Any sequence of [readi] and [writei] calls
    on an inode within a transaction, from and to kernel memory, returns, call by
    call, what the same reads and writes of a byte array return, and leaves the file
    with the contents of that array; it terminates, whatever blocks it has to
    allocate, as long as writes do not start beyond the end of the file and the log,
    the file and the disk have room. *)
Theorem file_refines (v : Z -> list Z) (bl : list Z) (ino : list inode) (ip : nat) (x : inode) (ops : list fop)
    (Hd : dwf sb v) (Hx : fok sb v x) (Hip : ino !! ip = Some x) (Hin : inum_ok sb (i_inum x)) (Hok : fops_ok ops (contents v x))
    (Hb : budget nlog sb (fops_log ops + 3) ∅ bl) (Hf : (fops_blocks ops + need x <= length (frees sb v))%nat) :
  {{ fs v ∅ bl ino }} exec_fops ip ops
  {{ rs, fun s => exists v' x' bl', ((rs, contents v' x') = spec_fops ops (contents v x) /\ fok sb v' x') /\
       fs v' ∅ bl' (<[ip := x']> ino) s }}.
Proof. by apply (t_fops start nlog me s0 sb). Qed.

(** C5: Path resolution. From the root directory, or the current one for a
    relative path, [namex] finds the inode that the elements of the path lead to
    in the directory tree on the disk (its parent and the last element, when
    [parent] is set), and returns 0 exactly when there is none. It holds one more
    reference to that inode and has released every other inode it went through:
    the reference counts are otherwise those before, and no inode is left
    locked. *)
Theorem namex_resolves (v : Z -> list Z) (base : Z -> Z) (bl : list Z) (ino : list inode) (path : list Z) (parent : bool) (name : list Z)
    (Ht : tree sb v) (Hb : base_ok base) (Hr : room ∅ bl) (Hi : restored sb v base ino) (Hc : roots_ok me s0 sb v ino)
    (Hn : length name = Z.to_nat DIRSIZ) (Hp : Forall (fun c => c <> 0) path) :
  {{ fs v ∅ bl ino }} namex path parent name
  {{ r, fun s => exists i ino', (from_inode me s0 ino path = Some i /\ named sb v base parent i (path_elems path) r ino') /\
       fs v ∅ bl ino' s }}.
Proof. by apply (t_namex start nlog me s0 sb). Qed.

(** What truncating one file leaves of another. *)
Lemma truncated_others v x v' x' i : fsys sb v -> truncated sb v x v' x' -> allocated sb v i -> i <> i_inum x ->
  dinode sb v' i = dinode sb v i /\ (forall c, owns v' (dinode sb v i) c <-> owns v (dinode sb v i) c) /\
  fcontents sb v' i = fcontents sb v i.
Proof.
  intros Hf T Ha Hne. pose proof (tc_other _ _ _ _ _ T (blank i) (proj1 Ha) Hne : dinode sb v' i = dinode sb v i) as E.
  pose proof (fy_file _ _ Hf i Ha) as Hx. assert (Hk : forall c, owns v (dinode sb v i) c -> v' c = v c).
  { intros c Hc. apply (tc_keep _ _ _ _ _ T). by eapply owns_data, Hc; apply Hx. }
  split_and!; [done | | unfold fcontents; rewrite E; by apply (contents_frame sb)].
  assert (Eb : forall bn, fblk v' (dinode sb v i) bn = fblk v (dinode sb v i) bn).
  { intros bn. unfold fblk. destruct (Z.ltb_spec bn NDIRECT); [done |]. destruct (Z.eqb_spec (addr (dinode sb v i) NDIRECT) 0) as [| Hn]; [done |].
    rewrite Hk; [done |]. split; [done | by left]. }
  intros c. unfold owns. by setoid_rewrite Eb.
Qed.

(** C11: Truncation. [itrunc] frees exactly the blocks of the file, direct and
    indirect ones: after it a block is in use if it was and the file did not have
    it. The inode is as before but without blocks and of size 0, in memory and on
    disk. Every other inode on the disk is unchanged, every other file has the
    blocks and the bytes it had, and the file system is consistent: no block has
    two owners. *)
Theorem itrunc_frees_all (v : Z -> list Z) (bl : list Z) (ino : list inode) (ip : nat) (x : inode)
    (Hf : fsys sb v) (Hs : synced sb v x) (Ht : i_type x <> 0) (Hty : ityped x) (Hip : ino !! ip = Some x)
    (Hb : budget nlog sb 4 ∅ bl) :
  {{ fs v ∅ bl ino }} itrunc ip
  {{ _, fun s => exists v' x' bl',
       ((forall b, 0 <= b -> used sb v' b = true <-> used sb v b = true /\ ~ owns v x b) /\
        x' = set_i_size 0 (set_i_addrs (replicate (Z.to_nat (NDIRECT + 1)) 0) x) /\ (forall b, ~ owns v' x' b) /\
        fsys sb v' /\ synced sb v' x' /\
        (forall i, inum_ok sb i -> i <> i_inum x -> dinode sb v' i = dinode sb v i) /\
        (forall i, allocated sb v i -> i <> i_inum x ->
           (forall c, owns v' (dinode sb v' i) c <-> owns v (dinode sb v i) c) /\ fcontents sb v' i = fcontents sb v i)) /\
       fs v' ∅ bl' (<[ip := x']> ino) s }}.
Proof.
  assert (Hx : fok sb v x).
  { destruct (synced_dinode sb v x Hs) as (Ea & Es & Et). eapply (fok_ext sb); [apply (fy_file _ _ Hf (i_inum x)) | done | done | by rewrite (proj1 Hs)].
    split; [apply Hs | by rewrite Et]. }
  eapply t_conseq; [apply (t_itrunc start nlog me s0 sb v bl ino ip x); try done; [apply Hf | apply Hx | apply Hs] | done |].
  intros _ s (v' & x' & bl' & (T & _) & Hfs). exists v', x', bl'. split; [| exact Hfs].
  destruct (truncated_fok sb v x v' x' (proj1 Hs) T) as [_ Hno]. destruct (truncated_fsys start nlog sb v x v' x' Hf Hs Ht Hty T) as [Hf' Hs'].
  split_and!; [| exact (tc_ino _ _ _ _ _ T) | exact Hno | exact Hf' | exact Hs' | exact (fun i => tc_other _ _ _ _ _ T (blank i)) |]; cycle 1.
  { intros i Ha Hne. by destruct (truncated_others v x v' x' i Hf T Ha Hne) as (-> & ? & ?). }
  intros b Hb0. rewrite (tc_used _ _ _ _ _ T) by done. rewrite andb_true_iff, negb_true_iff, bool_decide_eq_false. by rewrite (blocks_owns v x).
Qed.

(** C12: Round trip: what [dirlink] enters, [dirlookup] finds. Linking a new name
    puts it in the first free slot of the directory, or at its end, and returns 0;
    looking it up then gives the inode and the offset of that slot. Looking up any
    other name gives what it gave before the link. *)
Theorem dirlink_dirlookup (v : Z -> list Z) (bl : list Z) (ino : list inode) (dp : nat) (x : inode) (name : list Z) (inum : Z) (q : list Z)
    (k := slot_of (dir_ents v x))
    (Hx : ino !! dp = Some x) (Hd : dok sb v x) (Hw : dwf sb v) (Hin : inum_ok sb (i_inum x)) (Hnew : dir_find v x name = None)
    (Hi : 0 < inum < 2^16) (Hlen : length ino = NINODE) (Hfree : (1 <= nfree ino)%nat)
    (Hsm : forall i y, ino !! i = Some y -> i_ref y < 2^31 - 1) (Hm : (Z.of_nat k + 1) * dirent_size <= MAXFILE * BSIZE)
    (Hb : budget nlog sb 8 ∅ bl) (Hf : (1 + need x <= length (frees sb v))%nat)
    (Hq : q = name \/ namecmp q (de_name (new_ent name inum)) <> 0) :
  {{ fs v ∅ bl ino }} link_find dp name inum q
  {{ r, fun s => exists v' x' bl', r.1 = 0 /\
       match (if decide (q = name) then Some (inum, Z.of_nat k * dirent_size) else dir_find v x q) with
       | Some (j, off) => exists ip ino', (r.2 = Some (ip, off) /\ got (<[dp := x']> ino) j ip ino') /\ fs v' ∅ bl' ino' s
       | None => r.2 = None /\ fs v' ∅ bl' (<[dp := x']> ino) s
       end }}.
Proof.
  unfold link_find. eapply t_bind; [apply (t_dirlink start nlog me s0 sb v bl ino dp x name inum); try done |].
  { eapply (budget_wt nlog sb 8 _ 0); [exact Hb | lia | lia]. }
  intros r. apply t_ex; intros v'. apply t_ex; intros x'. apply t_ex; intros bl'. apply t_pure. intros (-> & W & Hwt). fold k in W.
  assert (Hl : length (dirent_bytes (new_ent name inum)) = Z.to_nat dirent_size).
  { apply Nat2Z.inj. rewrite length_dirent_bytes; [done | apply length_strncpy_l]. }
  destruct (dirlink_finds sb v x name inum v' x' Hd Hnew Hi Hm W) as [Hfind Hother]. fold k in Hfind.
  assert (Er : i_ref x' = i_ref x) by (by rewrite (wo_meta _ _ _ _ _ _ _ W)).
  eapply t_bind; [apply (t_dirlookup start nlog me s0 sb v' bl' (<[dp := x']> ino) dp x' q) |].
  - apply list_lookup_insert_eq. by eapply lookup_lt_Some.
  - by eapply dok_linked.
  - by rewrite length_insert.
  - pose proof (nfree_insert ino dp x x' Hx) as Hn. unfold bit in Hn. repeat case_decide; lia.
  - intros i y [(-> & -> & _) | [_ Hy]]%list_lookup_insert_Some; [rewrite Er; by eapply Hsm | by eapply Hsm].
  - eapply space_room, (budget_space nlog sb), (budget_wt nlog sb 8 3 3); [exact Hb | lia | lia].
  - intros e. assert (E : dir_find v' x' q = if decide (q = name) then Some (inum, Z.of_nat k * dirent_size) else dir_find v x q).
    { case_decide as Hc; [by rewrite Hc |]. apply Hother. by destruct Hq. }
    rewrite E. apply t_ret. intros s Hs. exists v', x', bl'. split; [done |]. exact Hs.
Qed.

(** C37: Round trip of an inode through the disk. When an entry of the inode table
    is written back by [iupdate], reused with any contents, and read again by
    [ilock], it has the type, the link count, the size and the block addresses it
    had; the other inodes on disk are as before. *)
Theorem iupdate_ilock (v : Z -> list Z) (bl : list Z) (ino : list inode) (ip : nat) (x y : inode)
    (Hx : ino !! ip = Some x) (Hip : (ip < NINODE)%nat) (Hty : ityped x) (Ht : i_type x <> 0) (Hin : inum_ok sb (i_inum x))
    (Hdx : i_dev x = ROOTDEV) (Hdy : i_dev y = ROOTDEV) (Ey : i_inum y = i_inum x) (Hv : i_valid y = 0) (Hl : sk_locked (i_lock y) = 0)
    (Hr : 1 <= i_ref y) (Hs : space nlog 3 ∅ bl) (Hlen : forall b, 0 <= b < nblocks -> length (v b) = Z.to_nat BSIZE) :
  {{ fs v ∅ bl ino }} recycle ip y
  {{ _, fun s => exists v' bl' y', (with_disk x y' = y' /\ i_valid y' = 1 /\ i_inum y' = i_inum x /\ i_ref y' = i_ref y /\
         (forall z, inum_ok sb (i_inum z) -> i_inum z <> i_inum x -> get_inode sb v' z = get_inode sb v z)) /\
       fs v' ∅ bl' (<[ip := y']> ino) s }}.
Proof.
  unfold recycle. eapply t_bind; [apply (t_iupdate start nlog me s0 sb v ∅ bl ino ip x); try done |].
  { eapply space_le; [exact Hs | lia]. }
  { apply Hlen, (home_inode start nlog sb _ Hin). }
  intros []. eapply t_bind; [by apply (t_upd_inode start nlog me s0 sb) |]. intros [].
  assert (Eg : forall z, i_inum z = i_inum x -> get_inode sb (put_inode sb x v) z = with_disk x z) by (intros; by apply (get_put_inode_eq start nlog)).
  eapply t_conseq; [apply (t_ilock start nlog me s0 sb (put_inode sb x v) (logged (IBLOCK (i_inum x) sb) bl) (<[ip := y]> ino) ip y); try done | done |].
  - apply list_lookup_insert_eq. by eapply lookup_lt_Some.
  - by rewrite Ey.
  - intros _. by rewrite (Eg y Ey).
  - eapply (space_room nlog 1), (space_logged nlog 2). exact Hs.
  - intros [] s Hfs. rewrite list_insert_insert_eq in Hfs. eexists _, _, _. split; [| exact Hfs]. unfold locked_inode. rewrite Hv, Z.eqb_refl.
    rewrite (Eg (held me s0 y) Ey). split_and!; [done | done | exact Ey | done |].
    intros z Hz Hne. apply (get_put_inode_ne start nlog); try done. apply Hty.
Qed.

(** C38: The log bound that [filewrite] relies on. Writing at most
    [filewrite_max] bytes in a transaction of its own, wherever they start, logs
    at most [MAXOPBLOCKS] blocks, the number that [begin_op] reserves: so the
    transaction cannot run out of log space. *)
Theorem writei_fits_transaction (v : Z -> list Z) (ino : list inode) (ip : nat) (x : inode) (off : Z) (src : esrc) (bs : list Z)
    (Hd : dwf sb v) (Hx : fok sb v x) (Hip : ino !! ip = Some x) (Hin : inum_ok sb (i_inum x)) (Hoff : 0 <= off <= i_size x)
    (Hmax : off + Z.of_nat (length bs) <= MAXFILE * BSIZE) (Hn : Z.of_nat (length bs) <= filewrite_max) (Hlog : 13 <= nlog)
    (Hf : (4 + need x <= length (frees sb v))%nat) (Hsrc : supplies me s0 src bs) :
  {{ fs v ∅ [] ino }} writei ip src off (Z.of_nat (length bs))
  {{ r, fun s => r = Z.of_nat (length bs) /\ lh_n (kn_log s) <= MAXOPBLOCKS /\
       exists v' x' bl', Z.of_nat (length bl') = lh_n (kn_log s) /\ fs v' ∅ bl' (<[ip := x']> ino) s }}.
Proof.
  assert (Hw : wt sb [] = 1%nat) by done.
  eapply t_conseq; [apply (t_writei start nlog me s0 sb v [] ino ip x off src bs 4); try done | done |].
  - change (Z.to_nat MAXFILE) with 268%nat. lia.
  - intros _. apply chunk_blocks. lia.
  - split; rewrite Hw; [lia |]. rewrite map_size_empty. change NBUF with 30%nat. lia.
  - intros r s (v' & x' & bl' & (-> & _ & Hwt & _) & Hs). split; [done |]. rewrite Hw in Hwt. unfold wt in Hwt.
    pose proof (lm_n _ _ _ _ (tx_log _ _ _ _ _ _ _ (f_tx _ _ _ _ _ _ _ _ _ _ Hs))) as El. rewrite El. unfold MAXOPBLOCKS. split; [lia |].
    by exists v', x', bl'.
Qed.

End Tx.

End Theorems.

#[local] Existing Instances image0 image0_ok ram_platform.
#[local] Instance patience0 : Patience := 0%nat.
#[local] Instance uninit0 : Uninit := fun n => replicate n 0.

Lemma sample_contents : fcontents sample_sb sample_view 2 = str "hello".
Proof. vm_compute. reflexivity. Qed.

Lemma sample_frees : length (frees sample_sb sample_view) = 74%nat.
Proof. vm_compute. reflexivity. Qed.

Lemma one_block_typed t nl sz a i : - 2^15 <= t < 2^15 -> - 2^15 <= nl < 2^15 -> 0 <= sz < 2^32 -> 0 <= a < 2^32 ->
  ityped (on_dev i (one_block t nl sz a)).
Proof.
  intros Ht Hn Hs Ha. split; cbn; try lia; [done |]. apply Forall_cons_2; [done |]. repeat apply Forall_cons_2; try lia. apply Forall_nil_2.
Qed.

Lemma sample_wopen writes m root : wopen 2 20 0 sample_sb (sample_at writes m root 0) 0 1 2 5.
Proof.
  destruct (sample_at_bio writes m root 0) as (Hb & Hd & Hk & El & Es & Ei & _ & Ef & _). split.
  - split_and!; [by rewrite El | by rewrite El | eexists; apply sample_tx].
  - exact Es.
  - rewrite Hd. exact sample_fsys.
  - rewrite Hd. apply sample_allocated. by right.
  - rewrite Hd, sample_dinode2. apply one_block_typed; vm_compute; intuition congruence.
  - exists sample_file. rewrite Ef. split_and!; done.
  - unfold NINODE. lia.
  - exists (opened 2 file_ino). rewrite Ei, Hd. split; [reflexivity |]. split_and!; try (vm_compute; congruence).
Qed.

Lemma example_bytes : exists m T, top_ok T /\ forall s, (exists h, k_mach (kn_k s) = set_hw h m) ->
  p_pagetable (proc_at (kn_k s) 0) = pt_root T -> user_bytes 0 s 96 (replicate (Z.to_nat 4000) 0).
Proof.
  destruct example_space as (m & T & l & Hu & _ & Ht & _ & Hw & Hr & _). exists m, T. split; [exact Ht |]. intros s [h Em] Ep.
  assert (Hn : Z.of_nat (Z.to_nat 4000) = 4000) by (apply Z2Nat.id; lia). split; rewrite length_replicate, ?Hn; [split; [lia | done] |]. exists T, l, (npages 5000). rewrite Em.
  split; [by apply uvm_inv_hw |]. split; [exact Ht |]. split; [exact Ep |]. split.
  - intros a Ha. specialize (Hw a ltac:(lia)). apply andb_true_iff in Hw. apply Hw.
  - apply list_eq. intros j. destruct (decide (j < Z.to_nat 4000)%nat) as [Hj | Hj].
    + rewrite lookup_replicate_2, lookup_ureads by done. change (uread (set_hw h m)) with (uread m). by rewrite Hr by lia.
    + rewrite !lookup_ge_None_2; rewrite ?length_ureads, ?length_replicate; [done | lia | lia].
Qed.

Lemma filewrite_crash_safe_witness : exists m T,
  match filewrite 0 96 4000 (sample_at 100 m (pt_root T) 0) with
  | Ok r s' => r = 4000 /\ fcontents sample_sb (dv s') 2 = str "hello" ++ replicate (Z.to_nat 4000) 0
  | Panic msg s' => msg = "power off"%string /\
      exists k, (k <= Z.to_nat 4000)%nat /\ fcontents sample_sb (recovered 2 (dv s')) 2 = str "hello" ++ replicate k 0
  | _ => False
  end.
Proof.
  destruct example_bytes as (m & T & _ & Hub). exists m, T. set (s := sample_at 100 m (pt_root T) 0).
  destruct (sample_at_bio 100 m (pt_root T) 0) as (_ & Hd & _ & _ & _ & _ & Hp & _ & Hm). fold s in Hd, Hp, Hm.
  assert (Hs : user_bytes 0 s 96 (replicate (Z.to_nat 4000) 0)) by (apply Hub; [exact Hm | by rewrite Hp]).
  pose proof (filewrite_crash_safe 2 20 0 sample_sb s 0 1 2 5 96 (replicate (Z.to_nat 4000) 0) (sample_wopen _ _ _) Hs) as H.
  rewrite Hd, sample_contents, sample_dinode2, sample_frees, length_replicate in H.
  rewrite Z2Nat.id in H by discriminate.
  assert (H1 : 0 <= 5 <= Z.of_nat (length (str "hello"))) by (split; discriminate).
  assert (H2 : 5 + 4000 <= MAXFILE * BSIZE) by discriminate.
  assert (H3 : 13 <= 20) by discriminate.
  assert (H4 : 4 * nchunks 4000 + Z.of_nat (need (on_dev 2 file_ino)) <= Z.of_nat 74) by (vm_compute; discriminate).
  specialize (H H1 H2 H3 H4).
  destruct (filewrite 0 96 4000 s) as [r s' | msg s' | | |]; try exact H.
  - destruct H as (-> & _ & Hst). split; [reflexivity |]. rewrite (st_bytes _ _ _ _ _ _ Hst), sample_contents. reflexivity.
  - destruct H as (-> & _ & k & Hk & Hst). split; [reflexivity |]. exists k. split; [exact Hk |].
    rewrite (st_bytes _ _ _ _ _ _ Hst), sample_contents, take_replicate, Nat.min_l by exact Hk. unfold spec_write.
    rewrite drop_ge by (rewrite length_replicate; change (length (str "hello")) with 5%nat; lia). rewrite app_nil_r. reflexivity.
Defined.

(** ** Examples *)

Lemma sample_file_ok : fok sample_sb sample_view (opened 2 file_ino).
Proof. eapply (fok_ext sample_sb); [exact sample_file_fok | reflexivity | reflexivity | reflexivity]. Qed.

Lemma file_refines_witness : exists s',
  exec_fops 1 [FRead 0 5; FWrite 3 (str "p!"); FRead 0 10] sample_kern = Ok [(5, str "hello"); (2, []); (5, str "help!")] s'.
Proof.
  destruct (file_refines 2 20 0 sample_sb sample_kern sample_view [] sample_inodes 1 (opened 2 file_ino)
    [FRead 0 5; FWrite 3 (str "p!"); FRead 0 10] sample_dwf sample_file_ok) with (s := sample_kern)
    as (rs & s' & E & v' & x' & bl' & [Hr _] & _).
  - reflexivity.
  - split; [discriminate | reflexivity].
  - vm_compute. intuition congruence.
  - split; vm_compute; intuition (congruence || lia).
  - rewrite sample_frees. apply Nat.leb_le. vm_compute. reflexivity.
  - exact sample_fs.
  - exists s'. rewrite E. f_equal.
    assert (Es : spec_fops [FRead 0 5; FWrite 3 (str "p!"); FRead 0 10] (contents sample_view (opened 2 file_ino)) =
      ([(5, str "hello"); (2, []); (5, str "help!")], str "help!")) by (vm_compute; reflexivity).
    rewrite Es in Hr. injection Hr as -> _. reflexivity.
Defined.

Lemma sample_ref i x : sample_inodes !! i = Some x -> (i = 0%nat /\ x = opened 1 root_ino) \/ (i = 1%nat /\ x = opened 2 file_ino) \/ x = inode0.
Proof.
  destruct i as [| [| i]]; [intros [= <-]; by left | intros [= <-]; right; by left |].
  change (sample_inodes !! S (S i)) with (replicate (NINODE - 2) inode0 !! i). intros [-> _]%lookup_replicate_1. by (right; right).
Qed.

Lemma sample_synced_root : get_inode sample_sb sample_view (opened 1 root_ino) = opened 1 root_ino.
Proof. vm_compute. reflexivity. Qed.
Lemma sample_synced_file : get_inode sample_sb sample_view (opened 2 file_ino) = opened 2 file_ino.
Proof. vm_compute. reflexivity. Qed.

Definition sample_base (j : Z) : Z := refs sample_inodes j.

Lemma sample_itab : itab sample_sb sample_view sample_inodes.
Proof.
  split; [reflexivity | | |].
  - intros i x [[_ ->] | [[_ ->] | ->]]%sample_ref; discriminate.
  - intros i x [[_ ->] | [[_ ->] | ->]]%sample_ref Hr; [| | discriminate Hr].
    + split; [reflexivity |]. split; [split; [discriminate | reflexivity] |]. intros _. exact sample_synced_root.
    + split; [reflexivity |]. split; [split; [discriminate | reflexivity] |]. intros _. exact sample_synced_file.
  - intros i j x y [[-> ->] | [[-> ->] | ->]]%sample_ref [[-> ->] | [[-> ->] | ->]]%sample_ref Hx Hy E; try reflexivity; discriminate.
Qed.

Lemma sample_restored : restored sample_sb sample_view sample_base sample_inodes.
Proof.
  split; [exact sample_itab | | reflexivity |].
  - intros i x [[_ ->] | [[_ ->] | ->]]%sample_ref; reflexivity.
  - apply Nat.leb_le. vm_compute. reflexivity.
Qed.

Lemma sample_base_ok : base_ok sample_base.
Proof.
  intros j. unfold sample_base, refs. destruct (list_find _ _) as [[i x] |] eqn:E; [| split; [discriminate | reflexivity]].
  apply list_find_Some in E as (Hx & _). apply sample_ref in Hx as [[_ ->] | [[_ ->] | ->]]; split; (discriminate || reflexivity).
Qed.

Lemma sample_roots : roots_ok 0 sample_kern sample_sb sample_view sample_inodes.
Proof.
  destruct (sample_at_bio 0 (stocked 0) 0 1) as (_ & _ & _ & _ & _ & _ & Hp & _). split; [apply sample_allocated; by left |].
  split; [change ROOTINO with 1; rewrite sample_dinode1; discriminate |]. exists 0%nat, (opened 1 root_ino). unfold cwd0, sample_kern. rewrite Hp.
  split; [reflexivity |]. split; [reflexivity |]. split; [reflexivity |]. apply sample_allocated. by left.
Qed.

Lemma namex_resolves_witness : exists ip nm ino' s', namex (str "//./greeting") false (replicate 14 0) sample_kern = Ok (Some ip, nm) s' /\
  cursor sample_sb sample_view sample_base ino' ip 2 /\ kn_inodes s' = ino'.
Proof.
  destruct (namex_resolves 2 20 0 sample_sb sample_kern sample_view sample_base [] sample_inodes (str "//./greeting") false (replicate 14 0)
    sample_tree sample_base_ok room_nil sample_restored sample_roots eq_refl) with (s := sample_kern) as (r & s' & E & i & ino' & [Hi Hn] & Hs).
  - repeat constructor; discriminate.
  - exact sample_fs.
  - assert (i = 1) as -> by (vm_compute in Hi; by injection Hi as <-). unfold named in Hn.
    assert (Ew : walk_path sample_sb sample_view false 1 (path_elems (str "//./greeting")) = Some 2) by (vm_compute; reflexivity).
    rewrite Ew in Hn. destruct Hn as (ip & Er & Hc & _). destruct r as [r nm]. cbn [fst] in Er. subst r.
    exists ip, nm, ino', s'. split; [exact E |]. split; [exact Hc |]. exact (f_ino _ _ _ _ _ _ _ _ _ _ Hs).
Defined.

Lemma sample_synced : synced sample_sb sample_view (opened 2 file_ino).
Proof. split; [reflexivity |]. split; [split; [discriminate | reflexivity] | exact sample_synced_file]. Qed.

Lemma opened_typed i t nl sz a : - 2^15 <= t < 2^15 -> - 2^15 <= nl < 2^15 -> 0 <= sz < 2^32 -> 0 <= a < 2^32 ->
  ityped (opened i (one_block t nl sz a)).
Proof. intros Ht Hn Hs Ha. destruct (one_block_typed t nl sz a i Ht Hn Hs Ha) as [T1 T2 T3 T4 T5 T6 T7]. by split. Qed.

Lemma file_typed : ityped (opened 2 file_ino).
Proof. apply opened_typed; vm_compute; intuition congruence. Qed.

Lemma itrunc_frees_all_witness : exists s' v' x' bl', itrunc 1 sample_kern = Ok tt s' /\ used sample_sb sample_view 25 = true /\
  used sample_sb v' 25 = false /\ fsys sample_sb v' /\ fs 2 20 0 sample_kern sample_sb v' ∅ bl' (<[1%nat := x']> sample_inodes) s'.
Proof.
  destruct (itrunc_frees_all 2 20 0 sample_sb sample_kern sample_view [] sample_inodes 1 (opened 2 file_ino) sample_fsys sample_synced
    ltac:(discriminate) file_typed eq_refl) with (s := sample_kern) as ([] & s' & E & v' & x' & bl' & (Hu & _ & _ & Hf & _ & _ & _) & Hs).
  - split; vm_compute; intuition (congruence || lia).
  - exact sample_fs.
  - exists s', v', x', bl'. split; [exact E |]. split; [vm_compute; reflexivity |]. split; [| split; [exact Hf | exact Hs]].
    destruct (used sample_sb v' 25) eqn:Eu; [| reflexivity]. destruct (proj1 (Hu 25 ltac:(discriminate)) Eu) as [_ Hn].
    exfalso. apply Hn. split; [discriminate |]. right. exists 0. split; [split; [discriminate | reflexivity] | reflexivity].
Defined.

Lemma sample_root_ok : dok sample_sb sample_view (opened 1 root_ino).
Proof. split; [| reflexivity | reflexivity]. eapply (fok_ext sample_sb); [exact sample_root_fok | reflexivity | reflexivity | reflexivity]. Qed.

Lemma dirlink_dirlookup_witness : exists ip s', link_find 0 (str "copy") 2 (str "copy") sample_kern = Ok (0, Some (ip, 32)) s'.
Proof.
  destruct (dirlink_dirlookup 2 20 0 sample_sb sample_kern sample_view [] sample_inodes 0 (opened 1 root_ino) (str "copy") 2 (str "copy")
    eq_refl sample_root_ok sample_dwf) with (s := sample_kern) as (r & s' & E & v' & x' & bl' & Hr1 & Hr2).
  - split; [discriminate | reflexivity].
  - vm_compute. reflexivity.
  - split; reflexivity.
  - reflexivity.
  - apply Nat.leb_le. vm_compute. reflexivity.
  - intros i y [[_ ->] | [[_ ->] | ->]]%sample_ref; reflexivity.
  - vm_compute. discriminate.
  - split; vm_compute; intuition (congruence || lia).
  - rewrite sample_frees. apply Nat.leb_le. vm_compute. reflexivity.
  - left. reflexivity.
  - exact sample_fs.
  - rewrite decide_True in Hr2 by reflexivity. destruct Hr2 as (ip & ino' & [Hr2 _] & _). exists ip, s'. rewrite E. destruct r as [r1 r2].
    cbn [fst snd] in Hr1, Hr2. subst r1 r2. vm_compute (Z.of_nat _ * _). reflexivity.
Defined.

Lemma iupdate_ilock_witness : exists s' y', recycle 1 (set_i_ref 1 (on_dev 2 inode0)) sample_kern = Ok tt s' /\
  kn_inodes s' !! 1%nat = Some y' /\ i_type y' = T_FILE /\ i_size y' = 5.
Proof.
  destruct (iupdate_ilock 2 20 0 sample_sb sample_kern sample_view [] sample_inodes 1 (opened 2 file_ino) (set_i_ref 1 (on_dev 2 inode0)) eq_refl)
    with (s := sample_kern) as ([] & s' & E & v' & bl' & y' & (Hw & _) & Hs).
  - unfold NINODE. lia.
  - exact file_typed.
  - discriminate.
  - split; [discriminate | reflexivity].
  - reflexivity.
  - reflexivity.
  - reflexivity.
  - reflexivity.
  - reflexivity.
  - discriminate.
  - split; vm_compute; intuition (congruence || lia).
  - intros. apply ram_view_len.
  - exact sample_fs.
  - exists s', y'. split; [exact E |]. rewrite (f_ino _ _ _ _ _ _ _ _ _ _ Hs). split; [reflexivity |].
    split; [exact (f_equal i_type (eq_sym Hw)) | exact (f_equal i_size (eq_sym Hw))].
Defined.

Lemma writei_fits_transaction_witness : exists s', writei 1 (KSrc (replicate 3072 7)) 5 3072 sample_kern = Ok 3072 s' /\
  lh_n (kn_log s') <= MAXOPBLOCKS.
Proof.
  destruct (writei_fits_transaction 2 20 0 sample_sb sample_kern sample_view sample_inodes 1 (opened 2 file_ino) 5
    (KSrc (replicate 3072 7)) (replicate 3072 7) sample_dwf sample_file_ok eq_refl) with (s := sample_kern) as (r & s' & E & Er & Hn & _).
  - split; [discriminate | reflexivity].
  - split; discriminate.
  - vm_compute. discriminate.
  - vm_compute. discriminate.
  - discriminate.
  - rewrite sample_frees. apply Nat.leb_le. vm_compute. reflexivity.
  - apply supplies_kernel.
  - exact sample_fs.
  - exists s'. rewrite length_replicate in E, Er. split; [| exact Hn]. rewrite <- Er at 2. exact E.
Defined.
