(* ===== verification/Mkfs.v ===== *)
(** * mkfs/mkfs.c: the program that makes the disk image (definitions)

    The image file is a sequence of sectors. A [struct dinode] is the part of
    [inode] that is on disk, as in [iupdate] and [ilock]. The program runs on a
    host whose [lseek], [write] and [read] on the image succeed within the file;
    the contents of the other files are a parameter. A failed assertion and
    [die] end the run with [Panic]. The messages on the way are left out. *)

From S2P Require Import Prelude Riscv Mem Bytes StringLib State Printf Fs.

Definition NINODES : Z := 200.

Definition nbitmap : Z := FSSIZE / BPB + 1.
Definition ninodeblocks : Z := NINODES / IPB + 1.
Definition nlog : Z := LOGSIZE.

(** The image: its sectors that were written and its length in sectors; the
    static variables. *)
Record mkfs := mkMkfs {
  mk_img : gmap Z (list Z);
  mk_len : Z;
  mk_sb : superblock;
  mk_freeinode : Z;
  mk_freeblock : Z }.
Definition set_mk_img (m : gmap Z (list Z)) (n : Z) (s : mkfs) : mkfs := mkMkfs m n (mk_sb s) (mk_freeinode s) (mk_freeblock s).
Definition set_mk_sb (x : superblock) (s : mkfs) : mkfs := mkMkfs (mk_img s) (mk_len s) x (mk_freeinode s) (mk_freeblock s).
Definition set_mk_freeinode (x : Z) (s : mkfs) : mkfs := mkMkfs (mk_img s) (mk_len s) (mk_sb s) x (mk_freeblock s).
Definition set_mk_freeblock (x : Z) (s : mkfs) : mkfs := mkMkfs (mk_img s) (mk_len s) (mk_sb s) (mk_freeinode s) x.

Definition zeroes : list Z := replicate (Z.to_nat BSIZE) 0.

(** The static variables before [main], and the image just opened with O_TRUNC. *)
Definition mkfs0 : mkfs := mkMkfs ∅ 0 (mkSb 0 0 0 0 0 0 0 0) 1 0.

Definition assert_ (b : bool) (k : M mkfs unit) : M mkfs unit := if b then k else panic "assert".

(** Byte order: the value whose bytes in memory, on a little-endian host, are
    those stored into [a]. *)
Definition xshort (x : Z) : Z := of_le [u8 x; u8 (Z.shiftr x 8)].
Definition xint (x : Z) : Z := of_le [u8 x; u8 (Z.shiftr x 8); u8 (Z.shiftr x 16); u8 (Z.shiftr x 24)].

(** The sector that [lseek(fsfd, sec * BSIZE, 0)] moves to. *)
Definition sector (sec : Z) : Z := u32 (sec * BSIZE) / BSIZE.

Definition wsect (sec : Z) (buf : list Z) : M mkfs unit :=
  modify (fun s => set_mk_img (<[sector sec := buf]> (mk_img s)) (Z.max (mk_len s) (sector sec + 1)) s).

Definition rsect (sec : Z) : M mkfs (list Z) :=
  let* s := get in
  if sector sec <? mk_len s then ret (default zeroes (mk_img s !! sector sec)) else panic "read".

Definition winode (inum : Z) (ip : inode) : M mkfs unit :=
  let* sb := gets mk_sb in
  let bn := IBLOCK inum sb in
  let* buf := rsect bn in
  wsect bn (put_dinode (dinode_off inum) ip buf).

Definition rinode (inum : Z) : M mkfs inode :=
  let* sb := gets mk_sb in
  let bn := IBLOCK inum sb in
  let* buf := rsect bn in
  ret (get_dinode (dinode_off inum) buf inode0).

Definition ialloc (type : Z) : M mkfs Z :=
  let* inum := gets mk_freeinode in
  modify (set_mk_freeinode (u32 (inum + 1))) ;;;
  let din := inode0 in
  let din := set_i_type (i16 (xshort type)) din in
  let din := set_i_nlink (i16 (xshort 1)) din in
  let din := set_i_size (xint 0) din in
  winode inum din ;;;
  ret inum.

Fixpoint balloc_bits (n : nat) (i : Z) (buf : list Z) : list Z :=
  match n with
  | O => buf
  | S n =>
      balloc_bits n (i + 1)
        (<[Z.to_nat (i / 8) := Z.lor (default 0 (buf !! Z.to_nat (i / 8))) (Z.shiftl 1 (i mod 8))]> buf)
  end.

Definition balloc (used : Z) : M mkfs unit :=
  if negb (used <? BPB) then panic "assert" else
  let* sb := gets mk_sb in
  wsect (sb_bmapstart sb) (balloc_bits (Z.to_nat used) 0 zeroes).

(** [xint(freeblock++)] *)
Definition next_block : M mkfs Z :=
  let* b := gets mk_freeblock in
  modify (set_mk_freeblock (u32 (b + 1))) ;;;
  ret (xint b).

Definition din_addr (din : inode) (i : Z) : Z := default 0 (i_addrs din !! Z.to_nat i).
Definition set_din_addr (i a : Z) (din : inode) : inode := set_i_addrs (<[Z.to_nat i := a]> (i_addrs din)) din.

(** The sector of block [fbn] of the file, allocated if there is none. *)
Definition iappend_block (din : inode) (fbn : Z) : M mkfs (inode * Z) :=
  if fbn <? NDIRECT then
    let* din :=
      (if xint (din_addr din fbn) =? 0 then let* b := next_block in ret (set_din_addr fbn b din) else ret din) in
    ret (din, xint (din_addr din fbn))
  else
    let* din :=
      (if xint (din_addr din NDIRECT) =? 0 then let* b := next_block in ret (set_din_addr NDIRECT b din) else ret din) in
    let* indirect := rsect (xint (din_addr din NDIRECT)) in
    let* indirect :=
      (if get_u32 (4 * (fbn - NDIRECT)) indirect =? 0 then
         let* b := next_block in
         let indirect := put_32 (4 * (fbn - NDIRECT)) b indirect in
         wsect (xint (din_addr din NDIRECT)) indirect ;;;
         ret indirect
       else ret indirect) in
    ret (din, xint (get_u32 (4 * (fbn - NDIRECT)) indirect)).

(** The loop of [iappend]: the inode with its new blocks, and the offset after
    the bytes [p]. Every round consumes at least one byte. *)
Fixpoint iappend_loop (fuel : nat) (din : inode) (off : Z) (p : list Z) : M mkfs (inode * Z) :=
  match fuel with
  | O => fun _ => NoFuel
  | S fuel =>
      let n := Z.of_nat (length p) in
      if 0 <? n then
        let fbn := off / BSIZE in
        if negb (fbn <? MAXFILE) then panic "assert" else
        let* r := iappend_block din fbn in
        let '(din, x) := r in
        let n1 := Z.min n (u32 ((fbn + 1) * BSIZE - off)) in
        let* buf := rsect x in
        wsect x (splice (Z.to_nat (off - fbn * BSIZE)) (take (Z.to_nat n1) p) buf) ;;;
        iappend_loop fuel din (u32 (off + n1)) (drop (Z.to_nat n1) p)
      else ret (din, off)
  end.

Definition iappend (inum : Z) (p : list Z) : M mkfs unit :=
  let* din := rinode inum in
  let off := xint (i_size din) in
  let* r := iappend_loop (S (length p)) din off p in
  let '(din, off) := r in
  winode inum (set_i_size (xint off) din).

Fixpoint wsect_zeroes (n : nat) (i : Z) : M mkfs unit :=
  match n with
  | O => ret tt
  | S n => wsect i zeroes ;;; wsect_zeroes n (i + 1)
  end.

Definition sb_bytes (x : superblock) : list Z :=
  concat (le_bytes 4 <$> [sb_magic x; sb_size x; sb_nblocks x; sb_ninodes x; sb_nlog x; sb_logstart x; sb_inodestart x; sb_bmapstart x]).

(** The name of a file in the image: its path without a leading user/ and without
    a leading underscore after that. *)
Definition strip_dir (path : list Z) : list Z := if bool_decide (take 5 path = str "user/") then drop 5 path else path.
Definition strip_mark (name : list Z) : list Z := match name with c :: n => if c =? 95 then n else name | [] => [] end.

(** The loop [while((cc = read(fd, buf, sizeof(buf))) > 0)]. *)
Fixpoint copy_file (inum : Z) (chunks : list (list Z)) : M mkfs unit :=
  match chunks with
  | [] => ret tt
  | buf :: chunks =>
      if 0 <? Z.of_nat (length buf) then iappend inum buf ;;; copy_file inum chunks else ret tt
  end.

Section Main.
(** What successive calls of [read] on a file of the host return; [None] if it
    cannot be opened. *)
Context (host : list Z -> option (list (list Z))).

Fixpoint add_files (rootino : Z) (argv : list (list Z)) : M mkfs unit :=
  match argv with
  | [] => ret tt
  | arg :: argv =>
      let shortname := strip_dir arg in
      assert_ (bool_decide (SLASH ∉ shortname))
        (match host arg with
         | None => panic "open"
         | Some chunks =>
             let shortname := strip_mark shortname in
             assert_ (Z.of_nat (length shortname) <=? DIRSIZ)
               (let* inum := ialloc T_FILE in
                let de := mkDirent (xshort (u16 inum)) (strncpy_l (Z.to_nat DIRSIZ) shortname) in
                iappend rootino (dirent_bytes de) ;;;
                copy_file inum chunks ;;;
                add_files rootino argv)
         end)
  end.

(** [argv] without the name of the program. *)
Definition main (argv : list (list Z)) : M mkfs unit :=
  match argv with
  | [] => panic "usage"
  | _ :: argv =>
      let nmeta := 2 + nlog + ninodeblocks + nbitmap in
      let nblocks := FSSIZE - nmeta in
      let sb := mkSb FSMAGIC (xint FSSIZE) (xint nblocks) (xint NINODES) (xint nlog) (xint 2) (xint (2 + nlog))
                     (xint (2 + nlog + ninodeblocks)) in
      modify (set_mk_sb sb) ;;;
      modify (set_mk_freeblock nmeta) ;;;
      wsect_zeroes (Z.to_nat FSSIZE) 0 ;;;
      wsect 1 (splice 0 (sb_bytes sb) zeroes) ;;;
      let* rootino := ialloc T_DIR in
      assert_ (rootino =? ROOTINO)
        (iappend rootino (dirent_bytes (mkDirent (xshort (u16 rootino)) (strncpy_l (Z.to_nat DIRSIZ) (str ".")))) ;;;
         iappend rootino (dirent_bytes (mkDirent (xshort (u16 rootino)) (strncpy_l (Z.to_nat DIRSIZ) (str "..")))) ;;;
         add_files rootino argv ;;;
         let* din := rinode rootino in
         let off := xint (i_size din) in
         let off := u32 ((off / BSIZE + 1) * BSIZE) in
         winode rootino (set_i_size (xint off) din) ;;;
         let* freeblock := gets mk_freeblock in
         balloc (i32 freeblock))
  end.

End Main.
