(* ===== verification/MkfsProps.v ===== *)
(** * The image that mkfs makes

    The files of the image are those that mkfs was given; the image is a
    consistent file system for the kernel. Between two steps of the program the
    bitmap of the image is still empty: the blocks in use are those below
    [freeblock]. The view of the image that the proofs use has the bitmap that
    the last step writes, so that taking the next block is an allocation as
    [balloc] of the kernel makes it. *)

From S2P Require Import Prelude Riscv Mem Bytes StringLib Spinlock Kalloc Vm Proc ProcSpec Kctx State Sleeplock Bio BioList BioSpec BioRun RamDisk Log LogSpec BioProps LogProps LogTx Uart Printf Console Fs FsRun FsBlocks FsFile FsIo FsInode FsProps FsDir FsPath FsLink Mkfs.

(** ** Byte order *)

Lemma xshort_id x : 0 <= x < 2^16 -> xshort x = x.
Proof. intros H. unfold xshort, u8. cbn [of_le]. rewrite Z.shiftr_div_pow2 by lia. Z.to_euclidean_division_equations; lia. Qed.

Lemma xint_id x : 0 <= x < 2^32 -> xint x = x.
Proof. intros H. unfold xint, u8. cbn [of_le]. rewrite !Z.shiftr_div_pow2 by lia. Z.to_euclidean_division_equations; lia. Qed.

Lemma i16_small x : - 2^15 <= x < 2^15 -> i16 x = x.
Proof. intros H. unfold i16. rewrite Z.mod_small; lia. Qed.

(** ** The bitmap *)

Definition bitmap (n : Z) : list Z := balloc_bits (Z.to_nat n) 0 zeroes.

Lemma balloc_bits_snoc n : forall i buf, balloc_bits (S n) i buf = bit_set (balloc_bits n i buf) (i + Z.of_nat n).
Proof.
  induction n as [| n IH]; intros i buf; [cbn [balloc_bits]; by rewrite Z.add_0_r |].
  cbn [balloc_bits] in *. rewrite IH. f_equal. lia.
Qed.

Lemma bitmap_succ n : 0 <= n -> bitmap (n + 1) = bit_set (bitmap n) n.
Proof.
  intros Hn. unfold bitmap. replace (Z.to_nat (n + 1)) with (S (Z.to_nat n)) by lia. rewrite balloc_bits_snoc. f_equal. lia.
Qed.

Lemma length_bits n : forall i buf, length (balloc_bits n i buf) = length buf.
Proof. induction n as [| n IH]; intros i buf; [done |]. cbn [balloc_bits]. by rewrite IH, length_insert. Qed.

Lemma length_bitmap n : length (bitmap n) = Z.to_nat BSIZE.
Proof. unfold bitmap. rewrite length_bits. apply length_replicate. Qed.

Lemma bit_of_zeroes b : bit_of zeroes b = false.
Proof.
  unfold bit_of, zeroes. destruct (replicate (Z.to_nat BSIZE) 0 !! Z.to_nat (b / 8)) as [y |] eqn:E; [| apply Z.bits_0].
  apply lookup_replicate in E as [-> _]. apply Z.bits_0.
Qed.

Lemma bit_of_bitmap n b : 0 <= n <= BPB -> 0 <= b -> bit_of (bitmap n) b = (b <? n).
Proof.
  intros Hn Hb. rewrite <- (Z2Nat.id n) in * by lia. set (k := Z.to_nat n) in *. clearbody k. clear n.
  induction k as [| k IH]; [unfold bitmap; cbn; rewrite bit_of_zeroes; symmetry; apply Z.ltb_ge; lia |].
  rewrite Nat2Z.inj_succ, <- Z.add_1_r, bitmap_succ by lia.
  rewrite bit_of_set by (try done; rewrite length_bitmap; unfold BPB in *; rewrite Z2Nat.id by done; lia). rewrite IH by lia.
  destruct (Z.ltb_spec b (Z.of_nat k)), (Z.eqb_spec b (Z.of_nat k)), (Z.ltb_spec b (Z.of_nat k + 1)); try done; lia.
Qed.

(** ** The view of the image *)

Definition nmeta : Z := 2 + nlog + ninodeblocks + nbitmap.
(** The superblock that [main] writes. *)
Definition msb : superblock := mkSb FSMAGIC FSSIZE (FSSIZE - nmeta) NINODES nlog 2 (2 + nlog) (2 + nlog + ninodeblocks).
Abbreviation bm := (sb_bmapstart msb).
Abbreviation bsize := (Z.to_nat BSIZE).

(** Arithmetic with the numbers of the image. *)
Ltac mklia :=
  change nmeta with 46 in *; change bm with 45 in *; change (sb_size msb) with 2000 in *; change (sb_ninodes msb) with 200 in *;
  unfold FSSIZE, NINODES in *; lia.

Record mimg (s : mkfs) (v : Z -> list Z) : Prop := {
  mi_sb : mk_sb s = msb;
  mi_len : mk_len s = FSSIZE;
  mi_view : forall b, 0 <= b < FSSIZE -> b <> bm -> v b = default zeroes (mk_img s !! b);
  mi_bm : v bm = bitmap (mk_freeblock s);
  mi_out : forall b, ~ 0 <= b < FSSIZE -> v b = zeroes;
  mi_free : nmeta <= mk_freeblock s <= FSSIZE;
  mi_fresh : forall b, mk_freeblock s <= b < FSSIZE -> v b = zeroes }.

Lemma sector_id b : 0 <= b < FSSIZE -> sector b = b.
Proof. intros Hb. unfold sector, u32. rewrite Z.mod_small by (unfold BSIZE; mklia). by apply Z.div_mul. Qed.

Lemma rsect_ok s v b : mimg s v -> 0 <= b < FSSIZE -> b <> bm -> rsect b s = Ok (v b) s.
Proof.
  intros I Hb Hn. unfold rsect, bind, get. cbn [obind]. rewrite sector_id, (mi_len _ _ I) by done.
  rewrite (proj2 (Z.ltb_lt _ _)) by lia. by rewrite (mi_view _ _ I).
Qed.

Lemma wsect_ok s v b y : mimg s v -> 0 <= b < mk_freeblock s -> b <> bm ->
  exists s', wsect b y s = Ok tt s' /\ mimg s' (set_at b y v) /\ mk_freeblock s' = mk_freeblock s /\ mk_freeinode s' = mk_freeinode s.
Proof.
  intros [I1 I2 I3 I4 I5 I6 I7] Hb Hn. eexists. split; [reflexivity |]. rewrite sector_id by mklia. split; [| done].
  split; cbn [mk_sb mk_len mk_img mk_freeblock mk_freeinode set_mk_img]; try done.
  - rewrite I2. mklia.
  - intros c Hc Hcb. unfold set_at. destruct (Z.eqb_spec c b) as [-> | Hne]; [by rewrite lookup_insert_eq | rewrite lookup_insert_ne by done; auto].
  - rewrite set_at_ne by done. done.
  - intros c Hc. rewrite set_at_ne by mklia. auto.
  - intros c Hc. rewrite set_at_ne by mklia. auto.
Qed.

Lemma next_block_ok s v (a := mk_freeblock s) : mimg s v -> a < FSSIZE ->
  exists s', next_block s = Ok a s' /\ mimg s' (alloc msb a v) /\ mk_freeblock s' = a + 1 /\ mk_freeinode s' = mk_freeinode s.
Proof.
  intros [I1 I2 I3 I4 I5 I6 I7] Ha. subst a. set (a := mk_freeblock s) in *. eexists.
  split; [unfold next_block, bind, gets, modify; cbn [obind]; fold a; rewrite xint_id, u32_small by mklia; reflexivity |].
  split; [| done]. split; cbn [mk_sb mk_len mk_img mk_freeblock mk_freeinode set_mk_freeblock]; try done.
  - intros c Hc Hcb. rewrite alloc_at. destruct (Z.eqb_spec c a) as [-> | Hne]; [| rewrite (proj2 (Z.eqb_neq _ _) Hcb); auto].
    rewrite <- I3 by done. by rewrite I7 by mklia.
  - rewrite alloc_at, (proj2 (Z.eqb_neq _ _)), Z.eqb_refl by mklia. rewrite I4. symmetry. apply bitmap_succ. mklia.
  - intros c Hc. rewrite alloc_at, !(proj2 (Z.eqb_neq _ _)) by mklia. auto.
  - mklia.
  - intros c Hc. rewrite alloc_at, !(proj2 (Z.eqb_neq _ _)) by mklia. apply I7. mklia.
Qed.

Lemma mimg_used s v b : mimg s v -> 0 <= b -> used msb v b = (b <? mk_freeblock s).
Proof. intros I Hb. unfold used. rewrite (mi_bm _ _ I). apply bit_of_bitmap; [pose proof (mi_free _ _ I); unfold BPB, BSIZE; mklia | done]. Qed.

Lemma mimg_free s v : mimg s v -> mk_freeblock s < FSSIZE -> is_data msb (mk_freeblock s) /\ used msb v (mk_freeblock s) = false.
Proof.
  intros I Hlt. pose proof (mi_free _ _ I). split; [split; mklia |]. rewrite (mimg_used _ _ _ I) by mklia. apply Z.ltb_irrefl.
Qed.

Section Image.
Context `{PF : Platform} `{PA : Patience} `{BD : !BlockDev} `{BO : !BlockDevOk BD} `{LY : !layout 2 nlog}.
(** The disk is at least as large as the image. *)
Context (Hsize : FSSIZE <= nblocks).

#[local] Instance mkfs_layout : fslayout 2 nlog msb.
Proof. split; try done. Qed.

(** ** Appending to a file *)

Abbreviation dwf := (dwf msb).
Abbreviation iwf := (iwf msb).
Abbreviation fgrow := (fgrow msb).
Abbreviation written := (written msb).

(** The file has blocks for its first [off] bytes only, and zeros after them. *)
Record tight (v : Z -> list Z) (x : inode) (off : Z) : Prop := {
  tg_has : forall bn, in_file bn -> bn * BSIZE < off -> fblk v x bn <> 0;
  tg_none : forall bn, in_file bn -> off <= bn * BSIZE -> fblk v x bn = 0;
  tg_ind : addr x NDIRECT <> 0 <-> NDIRECT * BSIZE < off;
  tg_zero : forall o, off <= o < MAXFILE * BSIZE -> fbyte v x o = 0 }.

(** The number of blocks of a file of [n] bytes, the indirect one included. *)
Definition file_blocks (n : Z) : Z := (n + BSIZE - 1) / BSIZE + (if NDIRECT * BSIZE <? n then 1 else 0).

(** What the search for block [fbn] does. *)
Record placed (s : mkfs) (v : Z -> list Z) (x : inode) (fbn : Z) (s' : mkfs) (v' : Z -> list Z) (x' : inode) : Prop := {
  pl_img : mimg s' v';
  pl_grow : fgrow v x v' x';
  pl_bytes : same_bytes v x v' x';
  pl_blk : fblk v' x' fbn <> 0;
  pl_other : forall i, in_file i -> i <> fbn -> fblk v' x' i = fblk v x i;
  pl_ind : addr x' NDIRECT <> 0 <-> addr x NDIRECT <> 0 \/ NDIRECT <= fbn;
  pl_free : mk_freeblock s' = mk_freeblock s + (if fblk v x fbn =? 0 then 1 else 0) +
    (if (NDIRECT <=? fbn) && (addr x NDIRECT =? 0) then 1 else 0);
  pl_ino : mk_freeinode s' = mk_freeinode s }.

Lemma addr_range v x i : iwf v x -> 0 <= i <= NDIRECT -> 0 <= addr x i < 2^32.
Proof.
  intros Hx Hi. destruct (decide (addr x i = 0)) as [-> | Hn]; [done |]. assert (Hd : is_data msb (addr x i)).
  { destruct (decide (i = NDIRECT)) as [-> | Hne]; [by apply Hx |]. assert (E : fblk v x i = addr x i) by (unfold fblk; by rewrite (proj2 (Z.ltb_lt _ _)) by lia).
    rewrite <- E in Hn |- *. apply Hx; [unfold in_file; fslia | done]. }
  destruct Hd. mklia.
Qed.

Lemma block_range v x bn : iwf v x -> in_file bn -> 0 <= fblk v x bn < FSSIZE /\ fblk v x bn <> bm.
Proof.
  intros Hx Hbn. destruct (decide (fblk v x bn = 0)) as [-> | Hn]; [done |]. destruct (iw_blk _ _ _ Hx bn Hbn Hn) as [[] _]. mklia.
Qed.

Lemma place_direct s v x din fbn : mimg s v -> dwf v -> iwf v x -> i_addrs din = i_addrs x -> 0 <= fbn < NDIRECT ->
  (fblk v x fbn = 0 -> mk_freeblock s < FSSIZE) ->
  exists s' v' x', iappend_block din fbn s = Ok (set_i_addrs (i_addrs x') din, fblk v' x' fbn) s' /\ placed s v x fbn s' v' x'.
Proof.
  intros I Hd Hx Ea Hbn Hroom. assert (Eb : fblk v x fbn = addr x fbn) by (unfold fblk; by rewrite (proj2 (Z.ltb_lt _ _)) by lia).
  unfold iappend_block. rewrite (proj2 (Z.ltb_lt _ _)) by lia. unfold din_addr at 1. rewrite Ea. fold (addr x fbn).
  rewrite xint_id, <- Eb by (apply (addr_range v); [done | lia]). destruct (Z.eqb_spec (fblk v x fbn) 0) as [E | E].
  - destruct (mimg_free s v I (Hroom E)) as [Hda Hu]. destruct (next_block_ok s v I (Hroom E)) as (s' & En & I' & F1 & F2). set (a := mk_freeblock s) in *.
    destruct (grow_direct 2 nlog msb v x a fbn Hd Hx Hda Hu Hbn E) as (G1 & G2 & G3).
    exists s', (alloc msb a v), (set_addr fbn a x). split.
    + unfold bind at 1. rewrite (bind_ok _ _ _ _ _ En). cbn [obind ret]. rewrite G3. unfold din_addr, set_din_addr, set_addr. cbn [i_addrs set_i_addrs].
      rewrite Ea, list_lookup_insert_eq by (rewrite (iw_len _ _ _ Hx); unfold NDIRECT in *; lia). change (default 0 (Some a)) with a. rewrite xint_id by (destruct Hda; mklia). done.
    + split; try done; [rewrite G3; destruct Hda; mklia | | | ].
      * intros i Hi Hne. rewrite (fblk_direct 2 nlog msb v x a fbn Hx Hu Hbn i Hi). by rewrite (proj2 (Z.eqb_neq _ _) Hne).
      * rewrite addr_set by (apply Hx || fslia). rewrite (proj2 (Z.eqb_neq _ _)) by lia. naive_solver lia.
      * rewrite E, (proj2 (Z.leb_gt _ _)) by lia. cbn. lia.
  - exists s, v, x. split.
    + unfold bind, ret. cbn [obind]. unfold din_addr. rewrite Ea. fold (addr x fbn). rewrite Eb, xint_id by (apply (addr_range v); [done | lia]).
      rewrite <- Ea. by destruct din.
    + split; try done; [by apply (fgrow_refl msb) | naive_solver lia |]. rewrite (proj2 (Z.eqb_neq _ _) E), (proj2 (Z.leb_gt _ _)) by lia. cbn. lia.
Qed.

(** The indirect block, allocated if there is none. *)
Lemma place_indirect s v x din : mimg s v -> dwf v -> iwf v x -> i_addrs din = i_addrs x ->
  (addr x NDIRECT = 0 -> mk_freeblock s < FSSIZE) ->
  exists s' v' x',
    (if xint (din_addr din NDIRECT) =? 0 then let* b := next_block in ret (set_din_addr NDIRECT b din) else ret din) s =
      Ok (set_i_addrs (i_addrs x') din) s' /\
    mimg s' v' /\ fgrow v x v' x' /\ same_bytes v x v' x' /\ (forall i, in_file i -> fblk v' x' i = fblk v x i) /\ addr x' NDIRECT <> 0 /\
    mk_freeblock s' = mk_freeblock s + (if addr x NDIRECT =? 0 then 1 else 0) /\ mk_freeinode s' = mk_freeinode s.
Proof.
  intros I Hd Hx Ea Hroom. unfold din_addr. rewrite Ea. fold (addr x NDIRECT). rewrite xint_id by (apply (addr_range v); done).
  destruct (Z.eqb_spec (addr x NDIRECT) 0) as [E | E].
  - destruct (mimg_free s v I (Hroom E)) as [Hda Hu]. destruct (next_block_ok s v I (Hroom E)) as (s' & En & I' & F1 & F2). set (a := mk_freeblock s) in *.
    destruct (grow_indirect 2 nlog msb v x a Hd Hx Hda Hu E) as (G1 & G2 & G3). exists s', (alloc msb a v), (set_addr NDIRECT a x).
    rewrite (bind_ok _ _ _ _ _ En). split_and!; try done.
    + cbn [ret]. unfold set_din_addr, set_addr. by rewrite Ea.
    + rewrite addr_set by (apply Hx || fslia). rewrite Z.eqb_refl. destruct Hda. mklia.
  - exists s, v, x. split_and!; try done; [rewrite <- Ea; by destruct din | by apply (fgrow_refl msb) | lia].
Qed.

(** The entry of block [fbn] in the indirect block. *)
Lemma place_entry s v x din fbn : mimg s v -> dwf v -> iwf v x -> i_addrs din = i_addrs x -> addr x NDIRECT <> 0 -> NDIRECT <= fbn < MAXFILE ->
  (fblk v x fbn = 0 -> mk_freeblock s < FSSIZE) ->
  exists s' v',
    (let* indirect := rsect (xint (din_addr din NDIRECT)) in
     let* indirect :=
       (if get_u32 (4 * (fbn - NDIRECT)) indirect =? 0 then
          let* b := next_block in
          let indirect := put_32 (4 * (fbn - NDIRECT)) b indirect in
          wsect (xint (din_addr din NDIRECT)) indirect ;;;
          ret indirect
        else ret indirect) in
     ret (din, xint (get_u32 (4 * (fbn - NDIRECT)) indirect))) s = Ok (din, fblk v' x fbn) s' /\
    placed s v x fbn s' v' x.
Proof.
  intros I Hd Hx Ea Hn Hbn Hroom. unfold din_addr. rewrite Ea. fold (addr x NDIRECT). rewrite xint_id by (apply (addr_range v); done).
  destruct (iw_ind _ _ _ Hx Hn) as [Hdi Hui]. rewrite (mimg_used _ _ _ I), Z.ltb_lt in Hui by (destruct Hdi; mklia). set (ia := addr x NDIRECT) in *.
  assert (Hir : 0 <= ia < FSSIZE /\ ia <> bm) by (destruct Hdi; mklia). rewrite (bind_ok _ _ _ _ _ (rsect_ok s v ia I (proj1 Hir) (proj2 Hir))).
  assert (Hf : in_file fbn) by (unfold in_file; fslia).
  assert (Eb : forall w, fblk w x fbn = get_u32 (4 * (fbn - NDIRECT)) (w ia)).
  { intros w. unfold fblk. fold ia. by rewrite (proj2 (Z.ltb_ge _ _)), (proj2 (Z.eqb_neq _ _) Hn) by lia. }
  rewrite <- (Eb v). destruct (Z.eqb_spec (fblk v x fbn) 0) as [E | E].
  - destruct (mimg_free s v I (Hroom E)) as [Hda Hu]. destruct (next_block_ok s v I (Hroom E)) as (s1 & En & I1 & F1 & F2). set (a := mk_freeblock s) in *.
    destruct (grow_entry 2 nlog msb v x a fbn Hd Hx Hda Hu Hn Hbn E) as (G1 & G2 & G3).
    assert (Ek : alloc msb a v ia = v ia) by (apply (alloc_keeps 2 nlog); try done; rewrite (mimg_used _ _ _ I); [by apply Z.ltb_lt | lia]).
    destruct (wsect_ok s1 (alloc msb a v) ia (put_32 (4 * (fbn - NDIRECT)) a (v ia)) I1 ltac:(lia) (proj2 Hir)) as (s2 & Ew & I2 & F3 & F4).
    exists s2, (add_entry msb x fbn a v). assert (Ead : add_entry msb x fbn a v = set_at ia (put_32 (4 * (fbn - NDIRECT)) a (v ia)) (alloc msb a v)).
    { unfold add_entry. fold ia. by rewrite Ek. }
    split.
    + unfold bind at 1. rewrite (bind_ok _ _ _ _ _ En). cbv zeta. rewrite (bind_ok _ _ _ _ _ Ew). cbn [ret obind]. rewrite G3.
      do 2 f_equal. rewrite Eb in G3. rewrite Ead, set_at_eq in G3. rewrite G3. apply xint_id. destruct Hda; mklia.
    + rewrite <- Ead in I2. split; try done; [rewrite G3; destruct Hda; mklia | | naive_solver | |].
      * intros i Hi Hne. rewrite (fblk_entry 2 nlog msb v x a fbn Hd Hx Hda Hu Hn Hbn i Hi). by rewrite (proj2 (Z.eqb_neq _ _) Hne).
      * fold ia. rewrite E, (proj2 (Z.eqb_neq _ _) Hn), andb_false_r. cbn. lia.
      * by rewrite F4.
  - exists s, v. split.
    + unfold bind, ret. cbn [obind]. rewrite <- Eb, xint_id; [done |]. pose proof (block_range v x fbn Hx Hf). mklia.
    + split; try done; [by apply (fgrow_refl msb) | naive_solver |]. fold ia. rewrite (proj2 (Z.eqb_neq _ _) E), (proj2 (Z.eqb_neq _ _) Hn), andb_false_r. lia.
Qed.

(** The blocks that the search for block [fbn] allocates. *)
Definition to_place (v : Z -> list Z) (x : inode) (fbn : Z) : Z :=
  (if fblk v x fbn =? 0 then 1 else 0) + (if (NDIRECT <=? fbn) && (addr x NDIRECT =? 0) then 1 else 0).

Lemma place_block s v x din fbn : mimg s v -> dwf v -> iwf v x -> i_addrs din = i_addrs x -> in_file fbn ->
  mk_freeblock s + to_place v x fbn <= FSSIZE ->
  exists s' v' x', iappend_block din fbn s = Ok (set_i_addrs (i_addrs x') din, fblk v' x' fbn) s' /\ placed s v x fbn s' v' x'.
Proof.
  intros I Hd Hx Ea Hbn Hroom. unfold to_place in Hroom. destruct (decide (fbn < NDIRECT)) as [Hlt | Hge].
  { apply place_direct; try done; [destruct Hbn; lia |]. intros E. rewrite E in Hroom. cbn in Hroom. destruct (_ && _); lia. }
  assert (Hr : NDIRECT <= fbn < MAXFILE) by (destruct Hbn; lia). rewrite (proj2 (Z.leb_le _ _)) in Hroom by lia. cbn [andb] in Hroom.
  unfold iappend_block. rewrite (proj2 (Z.ltb_ge _ _)) by lia.
  destruct (place_indirect s v x din I Hd Hx Ea) as (s1 & v1 & x1 & E1 & I1 & G1 & B1 & Hblk & Hn & F1 & N1).
  { intros E. rewrite E in Hroom. cbn in Hroom. destruct (_ =? _); lia. }
  rewrite (bind_ok _ _ _ _ _ E1).
  destruct (place_entry s1 v1 x1 (set_i_addrs (i_addrs x1) din) fbn I1 (fg_dwf _ _ _ _ _ G1) (fg_iwf _ _ _ _ _ G1) eq_refl Hn Hr) as (s2 & v2 & E2 & P).
  { rewrite Hblk by done. intros E. rewrite E in Hroom. cbn in Hroom. destruct (_ =? _); lia. }
  exists s2, v2, x1. split; [exact E2 |]. destruct P as [P1 P2 P3 P4 P5 P6 P7 P8]. split; try done.
  - by eapply (fgrow_trans 2 nlog).
  - intros o Ho. by rewrite P3, B1.
  - intros i Hi Hne. rewrite P5 by done. by apply Hblk.
  - split; [intros _; right; lia | intros _; done].
  - rewrite P7, F1, Hblk by done. rewrite (proj2 (Z.eqb_neq _ _) Hn), andb_false_r, (proj2 (Z.leb_le NDIRECT fbn)) by lia. cbn [andb]. lia.
  - by rewrite P8.
Qed.

(** The number of blocks to allocate for one round of the loop. *)
Lemma tight_place v x off m : tight v x off -> 0 <= off -> 0 < m <= BSIZE - off mod BSIZE -> off + m <= MAXFILE * BSIZE ->
  to_place v x (off / BSIZE) = file_blocks (off + m) - file_blocks off.
Proof.
  intros [T1 T2 T3 T4] Ho Hm Hmax. pose proof (in_block off ltac:(lia)) as Hf. pose proof (Z.mod_pos_bound off BSIZE ltac:(done)) as Hb.
  pose proof (Z.div_mod off BSIZE ltac:(done)) as Ed. unfold to_place, file_blocks. set (k := off / BSIZE) in *. set (r := off mod BSIZE) in *.
  assert (E1 : (off + m + BSIZE - 1) / BSIZE = k + 1) by (symmetry; apply (Z.div_unique _ _ _ (r + m - 1)); unfold BSIZE in *; lia).
  rewrite E1. destruct (decide (r = 0)) as [Hr | Hr].
  - assert (E2 : (off + BSIZE - 1) / BSIZE = k) by (symmetry; apply (Z.div_unique _ _ _ (BSIZE - 1)); unfold BSIZE in *; lia).
    rewrite E2, (T2 k Hf) by lia. cbn [Z.eqb]. destruct (Z.leb_spec NDIRECT k) as [Hk | Hk]; cbn [andb].
    + rewrite (proj2 (Z.ltb_lt (NDIRECT * BSIZE) (off + m))) by (unfold BSIZE, NDIRECT in *; lia).
      destruct (Z.eqb_spec (addr x NDIRECT) 0) as [E | E], (Z.ltb_spec (NDIRECT * BSIZE) off) as [Hl | Hl]; lia.
    + rewrite !(proj2 (Z.ltb_ge (NDIRECT * BSIZE) _)) by (unfold BSIZE, NDIRECT in *; lia). lia.
  - assert (E2 : (off + BSIZE - 1) / BSIZE = k + 1) by (symmetry; apply (Z.div_unique _ _ _ (r - 1)); unfold BSIZE in *; lia).
    rewrite E2, (proj2 (Z.eqb_neq _ _) (T1 k Hf ltac:(lia))). destruct (Z.leb_spec NDIRECT k) as [Hk | Hk]; cbn [andb].
    + assert (Hl : NDIRECT * BSIZE < off) by (unfold BSIZE, NDIRECT in *; lia). pose proof (proj2 T3 Hl) as Hn.
      rewrite (proj2 (Z.eqb_neq _ _) Hn), !(proj2 (Z.ltb_lt (NDIRECT * BSIZE) _)) by lia. lia.
    + rewrite !(proj2 (Z.ltb_ge (NDIRECT * BSIZE) _)) by (unfold BSIZE, NDIRECT in *; lia). lia.
Qed.

(** The file after one round is tight. *)
Lemma tight_round s v x off bs s1 v1 x1 y (m := Z.of_nat (length bs)) (v2 := set_at (fblk v1 x1 (off / BSIZE)) y v1) :
  tight v x off -> placed s v x (off / BSIZE) s1 v1 x1 -> written v x off bs v2 x1 -> length y = bsize ->
  0 <= off -> 0 < m <= BSIZE - off mod BSIZE -> off + m <= MAXFILE * BSIZE -> tight v2 x1 (off + m).
Proof.
  intros [T1 T2 T3 T4] [P1 P2 P3 P4 P5 P6 _ _] W Hy Ho Hm Hmax. pose proof (in_block off ltac:(lia)) as Hf.
  pose proof (Z.mod_pos_bound off BSIZE ltac:(done)) as Hb. pose proof (Z.div_mod off BSIZE ltac:(done)) as Ed.
  destruct (grow_write 2 nlog msb v1 x1 (off / BSIZE) y (fg_dwf _ _ _ _ _ P2) (fg_iwf _ _ _ _ _ P2) Hf P4 Hy) as (_ & _ & _ & G4). fold v2 in G4.
  set (k := off / BSIZE) in *. split.
  - intros bn Hbn Hlt. rewrite G4 by done. destruct (decide (bn = k)) as [-> | Hne]; [done |]. rewrite P5 by done. apply T1; [done |]. unfold BSIZE in *. lia.
  - intros bn Hbn Hge. rewrite G4 by done. rewrite P5; [apply T2; [done | unfold BSIZE in *; lia] | done |]. intros ->. unfold BSIZE in *. lia.
  - rewrite P6, T3. unfold BSIZE, NDIRECT in *. lia.
  - intros o Hor. rewrite (wr_bytes _ _ _ _ _ _ _ W) by lia. rewrite decide_False by lia. apply T4. lia.
Qed.

Lemma iappend_loop_run fuel : forall s v x din off p (e := off + Z.of_nat (length p)), (length p < fuel)%nat -> mimg s v -> dwf v -> iwf v x ->
  tight v x off -> i_addrs din = i_addrs x -> 0 <= off -> e <= MAXFILE * BSIZE ->
  mk_freeblock s + (file_blocks e - file_blocks off) <= FSSIZE ->
  exists s' v' x', iappend_loop fuel din off p s = Ok (set_i_addrs (i_addrs x') din, e) s' /\ mimg s' v' /\ written v x off p v' x' /\ tight v' x' e /\
    mk_freeblock s' = mk_freeblock s + (file_blocks e - file_blocks off) /\ mk_freeinode s' = mk_freeinode s.
Proof.
  induction fuel as [| fuel IH]; intros s v x din off p e Hfu I Hd Hx Ht Ea Ho Hmax Hroom; [lia |]. cbn [iappend_loop].
  destruct p as [| c p0].
  { exists s, v, x. subst e. cbn [length Z.of_nat] in *. rewrite Z.add_0_r, Z.sub_diag, Z.add_0_r. split_and!; try done.
    - cbn. do 2 f_equal. rewrite <- Ea. by destruct din.
    - by apply (written_nil msb). }
  set (p := c :: p0) in *. assert (Hpos : (0 < length p)%nat) by (subst p; cbn; lia). clearbody p. rewrite (proj2 (Z.ltb_lt 0 _)) by lia.
  pose proof (in_block off ltac:(lia)) as Hf. pose proof (Z.mod_pos_bound off BSIZE ltac:(done)) as Hb. pose proof (Z.div_mod off BSIZE ltac:(done)) as Ed.
  rewrite (proj2 (Z.ltb_lt (off / BSIZE) MAXFILE)) by apply Hf. cbn [negb]. cbv zeta.
  assert (Emax : MAXFILE * BSIZE < 2^31) by done.
  replace (u32 ((off / BSIZE + 1) * BSIZE - off)) with (BSIZE - off mod BSIZE) by (rewrite u32_small; unfold BSIZE in *; lia).
  set (m := Z.min (Z.of_nat (length p)) (BSIZE - off mod BSIZE)). assert (Hm : 0 < m <= BSIZE - off mod BSIZE /\ m <= Z.of_nat (length p)) by lia.
  clearbody m. destruct Hm as [Hm Hm']. assert (Hl : length (take (Z.to_nat m) p) = Z.to_nat m) by (rewrite length_take; lia).
  assert (Hmono : file_blocks (off + m) <= file_blocks e).
  { unfold file_blocks. assert ((off + m + BSIZE - 1) / BSIZE <= (e + BSIZE - 1) / BSIZE) by (apply Z.div_le_mono; [done | lia]).
    destruct (Z.ltb_spec (NDIRECT * BSIZE) (off + m)), (Z.ltb_spec (NDIRECT * BSIZE) e); lia. }
  pose proof (tight_place v x off m Ht Ho Hm ltac:(lia)) as Ep.
  destruct (place_block s v x din (off / BSIZE) I Hd Hx Ea Hf ltac:(lia)) as (s1 & v1 & x1 & E1 & P). rewrite (bind_ok _ _ _ _ _ E1).
  pose proof P as [P1 P2 P3 P4 _ _ P7 P8]. pose proof (fg_iwf _ _ _ _ _ P2) as Hx1. pose proof (fg_dwf _ _ _ _ _ P2) as Hd1.
  destruct (block_range v1 x1 _ Hx1 Hf) as [Hr Hrb]. set (a := fblk v1 x1 (off / BSIZE)) in *. rewrite (bind_ok _ _ _ _ _ (rsect_ok s1 v1 a P1 Hr Hrb)).
  destruct (iw_blk _ _ _ Hx1 _ Hf P4) as [_ Hu]. fold a in Hu. rewrite (mimg_used _ _ _ P1), Z.ltb_lt in Hu by lia.
  replace (off - off / BSIZE * BSIZE) with (off mod BSIZE) by lia. set (y := splice _ _ _).
  destruct (wsect_ok s1 v1 a y P1 ltac:(lia) Hrb) as (s2 & E2 & I2 & F2 & N2). rewrite (bind_ok _ _ _ _ _ E2).
  assert (W : written v x off (take (Z.to_nat m) p) (set_at a y v1) x1).
  { apply (written_block 2 nlog msb); try done; rewrite Hl; lia. }
  assert (Hy : length y = bsize) by (unfold y; rewrite length_splice; apply (dw_len _ _ Hd1); pose proof Hsize; lia).
  assert (Ht2 : tight (set_at a y v1) x1 (off + m)).
  { replace m with (Z.of_nat (length (take (Z.to_nat m) p))) by lia. eapply tight_round; try done; rewrite Hl; lia. }
  rewrite u32_small by lia. pose proof (wr_grow _ _ _ _ _ _ _ W) as G2. unfold to_place in Ep.
  destruct (IH s2 (set_at a y v1) x1 (set_i_addrs (i_addrs x1) din) (off + m) (drop (Z.to_nat m) p)) as (s' & v' & x' & E3 & I3 & W3 & T3 & F3 & N3);
    try done; try (rewrite ?length_drop; lia); [apply G2 | apply G2 | |].
  { replace (off + m + Z.of_nat (length (drop (Z.to_nat m) p))) with e by (rewrite length_drop; lia). lia. }
  replace (off + m + Z.of_nat (length (drop (Z.to_nat m) p))) with e in * by (rewrite length_drop; lia).
  exists s', v', x'. rewrite E3. split_and!; [done | done | | done | lia | congruence].
  rewrite <- (take_drop (Z.to_nat m) p). eapply (written_app 2 nlog msb); try done; rewrite Hl; [rewrite length_drop; lia | by rewrite Z2Nat.id by lia].
Qed.

(** ** The files of the image *)

Abbreviation fsys := (fsys msb).
Abbreviation dinode := (dinode msb).
Abbreviation put_inode := (put_inode msb).
Abbreviation inum_ok := (inum_ok msb).
Abbreviation fok := (fok msb).

(** The file [x] is of type [ty] and holds the bytes [c]. *)
Record is_file (v : Z -> list Z) (x : inode) (ty : Z) (c : list Z) : Prop := {
  if_type : i_type x = ty;
  if_nz : ty <> 0;
  if_link : i_nlink x = 1;
  if_typed : ityped x;
  if_size : i_size x = Z.of_nat (length c);
  if_data : contents v x = c;
  if_tight : tight v x (i_size x) }.

(** The image before the first inode. *)
Definition empty_view (b : Z) : list Z := if b =? bm then bitmap nmeta else if b =? 1 then splice 0 (sb_bytes msb) zeroes else zeroes.

(** The blocks of all files. *)
Definition image_blocks (fl : list (Z * list Z)) : Z := foldr (fun f n => file_blocks (Z.of_nat (length f.2)) + n) 0 fl.

(** The image holds the files [fl], the first of them as inode 1. *)
Record made (s : mkfs) (v : Z -> list Z) (fl : list (Z * list Z)) : Prop := {
  md_img : mimg s v;
  md_fsys : fsys v;
  md_ino : mk_freeinode s = 1 + Z.of_nat (length fl);
  md_max : Z.of_nat (length fl) < NINODES;
  md_none : forall i, inum_ok i -> i = 0 \/ Z.of_nat (length fl) < i -> i_type (dinode v i) = 0;
  md_file : forall k ty c, fl !! k = Some (ty, c) -> is_file v (dinode v (Z.of_nat k + 1)) ty c;
  md_blocks : mk_freeblock s = nmeta + image_blocks fl;
  md_boot : forall b, 1 <= b < 2 + nlog -> v b = empty_view b }.

(** Stores into the inode blocks. *)
Lemma put_dinode_ext off x y d : with_disk x inode0 = with_disk y inode0 -> put_dinode off x d = put_dinode off y d.
Proof. intros [= E1 E2 E3 E4 E5 E6]. unfold put_dinode. by rewrite E1, E2, E3, E4, E5, E6. Qed.

Lemma iblock_range i : inum_ok i -> 32 <= IBLOCK i msb < bm.
Proof. intros Hi. destruct (IBLOCK_range 2 nlog msb i Hi) as [_ H]. exact H. Qed.

Lemma winode_ok s v i din x : mimg s v -> inum_ok i -> i_inum x = i -> with_disk din inode0 = with_disk x inode0 ->
  exists s', winode i din s = Ok tt s' /\ mimg s' (put_inode x v) /\ mk_freeblock s' = mk_freeblock s /\ mk_freeinode s' = mk_freeinode s.
Proof.
  intros I Hi Ei Ed. pose proof (iblock_range i Hi) as Hr. pose proof (mi_free _ _ I) as Hf. unfold winode.
  unfold bind at 1, gets. cbn [obind]. rewrite (mi_sb _ _ I), (bind_ok _ _ _ _ _ (rsect_ok s v (IBLOCK i msb) I ltac:(mklia) ltac:(lia))).
  rewrite (put_dinode_ext _ din x) by done. unfold FsInode.put_inode. rewrite Ei. apply wsect_ok; [done | mklia | lia].
Qed.

Lemma rinode_ok s v i : mimg s v -> inum_ok i -> rinode i s = Ok (with_disk (dinode v i) inode0) s.
Proof.
  intros I Hi. pose proof (iblock_range i Hi) as Hr. unfold rinode. unfold bind at 1, gets. cbn [obind].
  rewrite (mi_sb _ _ I), (bind_ok _ _ _ _ _ (rsect_ok s v (IBLOCK i msb) I ltac:(mklia) ltac:(lia))). reflexivity.
Qed.

(** A file whose blocks are unchanged is the same file. *)
Lemma is_file_frame v v' y ty c : fok v y -> is_file v y ty c -> (forall b, owns v y b -> v' b = v b) -> is_file v' y ty c.
Proof.
  intros [Hw Hs Hfl] [F1 F2 F3 F4 F5 F6 [T1 T2 T3 T4]] Hk.
  assert (Eb : forall bn, in_file bn -> fblk v' y bn = fblk v y bn).
  { intros bn _. unfold fblk. destruct (Z.ltb_spec bn NDIRECT); [done |]. destruct (Z.eqb_spec (addr y NDIRECT) 0) as [| Hn]; [done |].
    rewrite Hk; [done |]. split; [done | by left]. }
  assert (Eby : forall o, 0 <= o < MAXFILE * BSIZE -> fbyte v' y o = fbyte v y o).
  { intros o Ho. pose proof (in_block o Ho) as Hin. unfold fbyte. rewrite Eb by done. destruct (Z.eqb_spec (fblk v y (o / BSIZE)) 0) as [| Hn]; [done |].
    rewrite Hk; [done |]. split; [done | right; eauto]. }
  split; try done.
  - rewrite <- F6. unfold contents, fdata. apply list_fmap_ext. intros k o Ho. apply lookup_seqZ in Ho. apply Eby. lia.
  - split; [intros bn Hbn; rewrite Eb by done; auto | intros bn Hbn; rewrite Eb by done; auto | done |].
    intros o Ho. rewrite Eby by lia. by apply T4.
Qed.

Lemma made_allocated s v fl i : made s v fl -> allocated msb v i <-> 1 <= i <= Z.of_nat (length fl).
Proof.
  intros M. pose proof (md_max _ _ _ M). split.
  - intros [Hi Ht]. pose proof (proj1 Hi). destruct (decide (1 <= i <= Z.of_nat (length fl))); [done |]. by rewrite (md_none _ _ _ M) in Ht by (done || lia).
  - intros Hi. split; [split; mklia |]. destruct (lookup_lt_is_Some_2 fl (Z.to_nat (i - 1))) as [[ty c] Hf]; [lia |].
    pose proof (md_file _ _ _ M _ _ _ Hf) as F. replace (Z.of_nat (Z.to_nat (i - 1)) + 1) with i in F by lia. rewrite (if_type _ _ _ _ F). apply F.
Qed.

(** A new inode. *)
Definition fresh (i ty : Z) : inode := set_i_nlink 1 (set_i_type ty (blank i)).

Lemma addr_fresh i ty j : addr (fresh i ty) j = 0.
Proof. unfold addr, fresh, blank. cbn [i_addrs set_i_nlink set_i_type set_i_inum set_i_dev inode0]. destruct (_ !! _) eqn:E; [| done]. by apply lookup_replicate in E as [-> _]. Qed.

Lemma fblk_fresh v i ty bn : fblk v (fresh i ty) bn = 0.
Proof. unfold fblk. rewrite !addr_fresh. by destruct (bn <? NDIRECT). Qed.

Lemma fresh_file v i ty : 0 < ty < 2^15 -> fok v (fresh i ty) /\ is_file v (fresh i ty) ty [].
Proof.
  intros Ht. split.
  - split; [split | done | intros bn H1 H2; cbn in H2; unfold BSIZE in *; lia]; try done; try (intros; by rewrite fblk_fresh in * ); by rewrite addr_fresh.
  - split; try done; [lia | |].
    + split; cbn; try lia; [done |]. change (Forall (fun a => 0 <= a < 2^32) (replicate 13 0)). by apply Forall_replicate.
    + split; [intros bn [? ?] Hlt; cbn in Hlt; unfold BSIZE in *; lia | intros; apply fblk_fresh | rewrite addr_fresh; split; [done | intros Hq; vm_compute in Hq; done] |].
      intros o Ho. unfold fbyte. by rewrite fblk_fresh.
Qed.

(** The disk with a new inode. *)
Lemma fresh_fsys s v fl ty (i := 1 + Z.of_nat (length fl)) (v' := put_inode (fresh i ty) v) : made s v fl -> i < NINODES -> 0 < ty < 2^15 ->
  fsys v' /\ dinode v' i = fresh i ty /\ (forall j, inum_ok j -> j <> i -> dinode v' j = dinode v j) /\
  (forall b, is_data msb b -> v' b = v b).
Proof.
  intros M Hi Ht. pose proof (md_fsys _ _ _ M) as [Y1 Y2 Y3]. assert (Hio : inum_ok i) by (split; unfold i in *; mklia).
  pose proof (fresh_file v i ty Ht) as [[Hw _ _] _]. pose proof (fresh_file v' i ty Ht) as [Hf' Hff].
  destruct (put_inode_keeps 2 nlog msb v (fresh i ty) (fresh i ty) Hw Y1 Hio) as (K1 & _). fold v' in K1. pose proof (iblock_range i Hio) as Hr.
  assert (Hd : forall b, is_data msb b -> v' b = v b) by (intros b [Hb _]; apply set_at_ne; change (i_inum (fresh i ty)) with i; lia).
  assert (Hu : forall b, used msb v' b = used msb v b) by (intros b; unfold used; unfold v', FsInode.put_inode; rewrite set_at_ne by (change (i_inum (fresh i ty)) with i; lia); done).
  assert (E1 : dinode v' i = fresh i ty).
  { unfold FsProps.dinode, v'. rewrite (get_put_inode_eq 2 nlog msb); [done | apply Y1 | done | apply Hff | done]. }
  assert (E2 : forall j, inum_ok j -> j <> i -> dinode v' j = dinode v j).
  { intros j Hj Hne. unfold FsProps.dinode, v'. apply (get_put_inode_ne 2 nlog msb); try done; apply Y1. }
  assert (Hoth : forall j, allocated msb v' j -> j <> i -> allocated msb v j /\ fok v' (dinode v' j) /\ forall c, owns v' (dinode v' j) c -> owns v (dinode v j) c).
  { intros j [Hj Hjt] Hne. rewrite E2 in * by done. assert (Haj : allocated msb v j) by done. split; [done |]. apply (fok_frame msb); [by apply Y2 |].
    intros c Hc. destruct (owns_data msb v _ c (fk_iwf _ _ _ (Y2 j Haj)) Hc). rewrite Hu. auto. }
  assert (Hno : forall c, ~ owns v' (dinode v' i) c).
  { intros c. rewrite E1. intros [Hc [H | (bn & _ & H)]]; [by rewrite addr_fresh in H | by rewrite fblk_fresh in H]. }
  split_and!; [split | done | done | done].
  - exact K1.
  - intros j Hj. destruct (decide (j = i)) as [-> | Hne]; [by rewrite E1 | by apply Hoth].
  - intros j k c Hj Hk Hjk Hc Hc'. destruct (decide (j = i)) as [-> | Hne]; [by apply (Hno c) |]. destruct (decide (k = i)) as [-> | Hnk]; [by apply (Hno c) |].
    destruct (Hoth j Hj Hne) as (Aj & _ & Oj), (Hoth k Hk Hnk) as (Ak & _ & Ok'). apply (Y3 j k c); auto.
Qed.

Lemma image_blocks_snoc fl f : image_blocks (fl ++ [f]) = image_blocks fl + file_blocks (Z.of_nat (length f.2)).
Proof. induction fl as [| g fl IH]; cbn; [lia |]. unfold image_blocks in IH. rewrite IH. lia. Qed.

Lemma image_blocks_insert fl k f g : fl !! k = Some f ->
  image_blocks (<[k := g]> fl) = image_blocks fl - file_blocks (Z.of_nat (length f.2)) + file_blocks (Z.of_nat (length g.2)).
Proof.
  revert k. induction fl as [| h fl IH]; intros [| k] Hk; [done | done | injection Hk as ->; cbn; lia |]. specialize (IH k Hk).
  change (<[S k := g]> (h :: fl)) with (h :: <[k := g]> fl). unfold image_blocks in *. cbn [foldr]. rewrite IH. lia.
Qed.

Lemma mimg_freeinode s v n : mimg s v -> mimg (set_mk_freeinode n s) v.
Proof. by intros []. Qed.

Lemma ialloc_run s v fl ty : made s v fl -> 1 + Z.of_nat (length fl) < NINODES -> 0 < ty < 2^15 ->
  exists s' v', ialloc ty s = Ok (1 + Z.of_nat (length fl)) s' /\ made s' v' (fl ++ [(ty, [])]).
Proof.
  intros M Hi Ht. set (i := 1 + Z.of_nat (length fl)) in *. assert (Hio : inum_ok i) by (split; unfold i in *; mklia).
  destruct (fresh_fsys s v fl ty M Hi Ht) as (Y & E1 & E2 & Hd). fold i in Y, E1, E2, Hd. set (v' := put_inode (fresh i ty) v) in *.
  destruct (winode_ok (set_mk_freeinode (u32 (i + 1)) s) v i
    (set_i_size (xint 0) (set_i_nlink (i16 (xshort 1)) (set_i_type (i16 (xshort ty)) inode0))) (fresh i ty)) as (s' & Ew & I' & F1 & F2).
  { apply mimg_freeinode, M. }
  { done. }
  { done. }
  { rewrite (xshort_id ty), (i16_small ty) by lia. reflexivity. }
  exists s', v'. split.
  { unfold ialloc. unfold bind at 1, gets. cbn [obind]. rewrite (md_ino _ _ _ M). fold i. unfold bind at 1, modify. cbn [obind].
    cbv zeta. rewrite (bind_ok _ _ _ _ _ Ew). done. }
  split; try done.
  - rewrite F2, length_app. cbn. rewrite u32_small; unfold i in *; mklia.
  - rewrite length_app. cbn. unfold i in *. lia.
  - intros j Hj Hor. rewrite length_app in Hor. cbn in Hor. rewrite E2 by (try done; unfold i; lia). apply (md_none _ _ _ M); [done | lia].
  - intros k ty' c Hk. destruct (decide (k = length fl)) as [-> | Hne].
    + rewrite list_lookup_middle in Hk by done. injection Hk as <- <-. replace (Z.of_nat (length fl) + 1) with i by (unfold i; lia). rewrite E1. by apply fresh_file.
    + pose proof (lookup_lt_Some _ _ _ Hk) as Hl. rewrite length_app in Hl. cbn in Hl. rewrite lookup_app_l in Hk by lia. pose proof (md_file _ _ _ M _ _ _ Hk) as F.
      assert (Ha : allocated msb v (Z.of_nat k + 1)) by (apply (made_allocated s v fl _ M); lia). rewrite E2 by (apply Ha || (unfold i; lia)).
      apply (is_file_frame v); [by apply (fy_file _ _ (md_fsys _ _ _ M)) | done |]. intros b Hb. apply Hd.
      apply (owns_data msb v _ b (fk_iwf _ _ _ (fy_file _ _ (md_fsys _ _ _ M) _ Ha)) Hb).
  - rewrite F1, image_blocks_snoc. change (file_blocks (Z.of_nat (length (ty, @nil Z).2))) with 0. rewrite Z.add_0_r. apply M.
  - intros b Hb. pose proof (iblock_range i Hio). change (2 + nlog) with 32 in Hb. rewrite <- (md_boot _ _ _ M b Hb).
    apply set_at_ne. change (i_inum (fresh i ty)) with i. lia.
Qed.

(** The superblock and the log are not written. *)
Lemma written_boot v x off bs v1 x1 b : dwf v -> iwf v x -> written v x off bs v1 x1 -> 1 <= b < 2 + nlog -> v1 b = v b.
Proof.
  intros Hd Hx W Hb. change (2 + nlog) with 32 in Hb. destruct (meta_below msb v x b Hx ltac:(mklia)) as [M1 M2].
  apply (fg_frame _ _ _ _ _ (wr_grow _ _ _ _ _ _ _ W)); try done; [mklia | | mklia]. apply (dw_meta _ _ Hd). mklia.
Qed.

Lemma dinode_synced v i : get_inode msb v (dinode v i) = dinode v i.
Proof.
  unfold FsProps.dinode, get_inode, get_dinode, blank. cbn [i_dev i_inum i_ref i_lock i_valid i_type i_major i_minor i_nlink i_size i_addrs
    set_i_type set_i_major set_i_minor set_i_nlink set_i_size set_i_addrs set_i_inum set_i_dev]. reflexivity.
Qed.

(** Appending to file [k]. *)
Lemma wrote_made s v fl k ty c off bs s' v' x' : made s v fl -> fl !! k = Some (ty, c) -> off = Z.of_nat (length c) ->
  off + Z.of_nat (length bs) <= MAXFILE * BSIZE ->
  wrote msb v (dinode v (Z.of_nat k + 1)) off bs v' x' -> mimg s' v' -> tight v' x' (i_size x') ->
  mk_freeblock s' = mk_freeblock s + (file_blocks (off + Z.of_nat (length bs)) - file_blocks off) -> mk_freeinode s' = mk_freeinode s ->
  (forall b, 1 <= b < 2 + nlog -> v' b = v b) -> made s' v' (<[k := (ty, c ++ bs)]> fl).
Proof.
  intros M Hk -> Hmax W I' Ht' Hfb Hfi Hboot. pose proof (md_file _ _ _ M _ _ _ Hk) as F. set (i := Z.of_nat k + 1) in *. set (x := dinode v i) in *.
  pose proof (md_fsys _ _ _ M) as Y. pose proof (lookup_lt_Some _ _ _ Hk) as Hlt. pose proof (md_max _ _ _ M) as Hmx.
  assert (Ha : allocated msb v i) by (apply (made_allocated s v fl _ M); lia). pose proof (fy_file _ _ Y i Ha) as Hx. fold x in Hx.
  assert (Hsync : synced msb v x) by (split_and!; [reflexivity | apply Ha | apply dinode_synced]).
  destruct (wrote_fsys 2 nlog msb v x (Z.of_nat (length c)) bs v' x' Y Hsync) as [Y' [_ [_ Hg]]]; [rewrite (if_type _ _ _ _ F); apply F | apply F | done |].
  destruct (wo_sync _ _ _ _ _ _ _ W (if_typed _ _ _ _ F)) as [Hty' _]. pose proof (wo_meta _ _ _ _ _ _ _ W) as Em.
  assert (Ex : dinode v' i = x').
  { rewrite <- Hg, Em. reflexivity. }
  assert (Eo : forall j, inum_ok j -> j <> i -> dinode v' j = dinode v j) by (intros j Hj Hne; by apply (wo_ino _ _ _ _ _ _ _ W)).
  assert (Es : i_size x' = Z.of_nat (length (c ++ bs))).
  { rewrite (wo_size _ _ _ _ _ _ _ W), (if_size _ _ _ _ F), length_app. lia. }
  split; rewrite ?length_insert; try done.
  - rewrite Hfi. apply M.
  - intros j Hj Hor. rewrite Eo by (try done; unfold i; lia). apply (md_none _ _ _ M); [done | lia].
  - intros k' ty' c' Hk'. apply list_lookup_insert_Some in Hk' as [(<- & [= <- <-] & _) | (Hne & Hk')].
    + fold i. rewrite Ex. split; try done; [rewrite Em; apply F | apply F | rewrite Em; apply F |].
      rewrite (contents_write msb v x (Z.of_nat (length c)) bs v' x' Hx) by (try done; rewrite (if_size _ _ _ _ F); lia). unfold spec_write. rewrite (if_data _ _ _ _ F).
      rewrite Nat2Z.id, drop_ge, app_nil_r, take_ge by lia. done.
    + pose proof (lookup_lt_Some _ _ _ Hk') as Hl. assert (Ha' : allocated msb v (Z.of_nat k' + 1)) by (apply (made_allocated s v fl _ M); lia).
      rewrite Eo by (apply Ha' || (unfold i; lia)). pose proof (fy_file _ _ Y _ Ha') as Hy.
      apply (is_file_frame v); [done | by apply (md_file _ _ _ M) |]. intros b Hb. destruct (owns_data msb v _ b (fk_iwf _ _ _ Hy) Hb) as [Hbd Hbu].
      apply (wo_frame _ _ _ _ _ _ _ W); [done | done |]. intros Hbx. apply (fy_disjoint _ _ Y i (Z.of_nat k' + 1) b); try done. unfold i. lia.
  - rewrite Hfb, (md_blocks _ _ _ M), (image_blocks_insert fl k _ _ Hk). cbn [snd]. rewrite length_app, Nat2Z.inj_add. lia.
  - intros b Hb. rewrite Hboot by done. by apply (md_boot _ _ _ M).
Qed.

Lemma iappend_run s v fl k ty c bs (e := Z.of_nat (length (c ++ bs))) : made s v fl -> fl !! k = Some (ty, c) -> e <= MAXFILE * BSIZE ->
  nmeta + image_blocks (<[k := (ty, c ++ bs)]> fl) <= FSSIZE ->
  exists s' v', iappend (Z.of_nat k + 1) bs s = Ok tt s' /\ made s' v' (<[k := (ty, c ++ bs)]> fl).
Proof.
  intros M Hk Hmax Hroom. rewrite (image_blocks_insert fl k _ _ Hk) in Hroom. cbn [snd] in Hroom. fold e in Hroom. pose proof (md_blocks _ _ _ M) as Hfb.
  assert (Ee : e = Z.of_nat (length c) + Z.of_nat (length bs)) by (unfold e; rewrite length_app; lia).
  pose proof (md_file _ _ _ M _ _ _ Hk) as F. set (i := Z.of_nat k + 1) in *. set (x := dinode v i) in *. pose proof (md_fsys _ _ _ M) as Y.
  pose proof (lookup_lt_Some _ _ _ Hk) as Hlt. assert (Ha : allocated msb v i) by (apply (made_allocated s v fl _ M); lia). pose proof (fy_file _ _ Y i Ha) as Hx.
  fold x in Hx. set (off := Z.of_nat (length c)) in *. pose proof (if_tight _ _ _ _ F) as Ht. rewrite (if_size _ _ _ _ F) in Ht. fold off in Ht.
  assert (Emax : MAXFILE * BSIZE < 2^31) by done. unfold iappend. rewrite (bind_ok _ _ _ _ _ (rinode_ok s v i (md_img _ _ _ M) (proj1 Ha))). fold x.
  cbv zeta. change (i_size (with_disk x inode0)) with (i_size x). rewrite (if_size _ _ _ _ F). fold off. rewrite xint_id by (unfold off in *; lia).
  destruct (iappend_loop_run (S (length bs)) s v x (with_disk x inode0) off bs) as (s1 & v1 & x1 & E1 & I1 & W & T1 & F1 & N1);
    try (unfold off in *; lia); [apply M | apply Y | apply Hx | done | done | rewrite <- Ee; lia |].
  rewrite <- Ee in *. rewrite (bind_ok _ _ _ _ _ E1), xint_id by lia. pose proof (wr_grow _ _ _ _ _ _ _ W) as G.
  set (x2 := set_i_size (Z.max (i_size x) (off + Z.of_nat (length bs))) x1).
  assert (Em : Z.max (i_size x) (off + Z.of_nat (length bs)) = e) by (rewrite (if_size _ _ _ _ F); unfold off in *; lia).
  assert (Hi2 : i_inum x2 = i) by (unfold x2; by rewrite (fg_ino _ _ _ _ _ G)).
  destruct (winode_ok s1 v1 i (set_i_size e (set_i_addrs (i_addrs x1) (with_disk x inode0))) x2 I1 (proj1 Ha) Hi2) as (s2 & E2 & I2 & F2 & N2).
  { unfold x2. rewrite Em, (fg_ino _ _ _ _ _ G). reflexivity. }
  exists s2, (put_inode x2 v1). split; [exact E2 |]. apply (wrote_made s v fl k ty c off bs s2 _ x2 M Hk eq_refl); [lia | | done | | | |].
  - apply (wrote_of_written 2 nlog msb v x off bs v1 x1 x2 (fy_dwf _ _ Y) Hx (proj1 Ha)); [rewrite (if_size _ _ _ _ F); unfold off; lia | lia | done | done].
  - change (i_size x2) with (Z.max (i_size x) (off + Z.of_nat (length bs))). rewrite Em.
    destruct (put_inode_keeps 2 nlog msb v1 x1 x2 (fg_iwf _ _ _ _ _ G) (fg_dwf _ _ _ _ _ G)) as (_ & _ & K3 & K4 & _); [by rewrite Hi2; apply Ha |].
    destruct T1 as [T1 T2 T3 T4]. assert (K5 : forall bn, fblk (put_inode x2 v1) x2 bn = fblk v1 x1 bn) by (intros bn; apply (K3 bn)).
    split; [intros bn Hb Hl; rewrite (K5 bn); auto | intros bn Hb Hl; rewrite (K5 bn); auto | done |].
    intros o Ho. change (fbyte (put_inode x2 v1) x1 o = 0). rewrite (K4 o) by (unfold off in *; lia). by apply T4.
  - rewrite <- Ee. lia.
  - congruence.
  - intros b Hb. unfold FsInode.put_inode. pose proof (iblock_range i (proj1 Ha)). rewrite Hi2, set_at_ne by (change (2 + nlog) with 32 in Hb; lia).
    apply (written_boot v x off bs v1 x1); [apply Y | apply Hx | done | done].
Qed.

(** ** The empty image *)

Lemma wsect_zeroes_run n : forall i s, (forall b, default zeroes (mk_img s !! b) = zeroes) -> 0 <= i -> i + Z.of_nat n <= FSSIZE ->
  exists s', wsect_zeroes n i s = Ok tt s' /\ (forall b, default zeroes (mk_img s' !! b) = zeroes) /\ mk_sb s' = mk_sb s /\
    mk_freeblock s' = mk_freeblock s /\ mk_freeinode s' = mk_freeinode s /\
    mk_len s' = (if (0 <? n)%nat then Z.max (mk_len s) (i + Z.of_nat n) else mk_len s).
Proof.
  induction n as [| n IH]; intros i s Hz Hi Hn; [by exists s |]. cbn [wsect_zeroes]. unfold bind, wsect, modify. cbn [obind].
  set (s1 := set_mk_img _ _ s). destruct (IH (i + 1) s1) as (s' & E & Z' & S1 & S2 & S3 & S4); [| lia | lia |].
  - intros b. unfold s1. cbn [mk_img set_mk_img]. destruct (decide (b = sector i)) as [-> | Hne]; [by rewrite lookup_insert_eq | by rewrite lookup_insert_ne].
  - exists s'. split_and!; try done. rewrite S4. unfold s1. cbn [mk_len set_mk_img]. rewrite sector_id by lia.
    destruct n as [| n]; cbn [Nat.ltb Nat.leb]; lia.
Qed.

Lemma empty_dinode i : inum_ok i -> i_type (dinode empty_view i) = 0.
Proof.
  intros Hi. pose proof (iblock_range i Hi) as Hr. unfold FsProps.dinode, get_inode, get_dinode.
  cbn [i_type set_i_type set_i_major set_i_minor set_i_nlink set_i_size set_i_addrs]. change (i_inum (blank i)) with i. unfold empty_view.
  rewrite !(proj2 (Z.eqb_neq _ _)) by lia. unfold get_i16, getle, slice, zeroes. rewrite drop_replicate, take_replicate.
  destruct (2 `min` _)%nat as [| [| [| n]]] eqn:E; [done | done | done | lia].
Qed.

Lemma made_empty s : mk_sb s = msb -> mk_len s = FSSIZE -> mk_freeblock s = nmeta -> mk_freeinode s = 1 ->
  (forall b, default zeroes (mk_img s !! b) = if b =? 1 then splice 0 (sb_bytes msb) zeroes else zeroes) -> made s empty_view [].
Proof.
  intros E1 E2 E3 E4 E5. assert (I : mimg s empty_view).
  { split; try done; unfold empty_view.
    - intros b Hb Hn. rewrite (proj2 (Z.eqb_neq _ _) Hn). by rewrite E5.
    - by rewrite Z.eqb_refl, E3.
    - intros b Hb. rewrite !(proj2 (Z.eqb_neq _ _)) by mklia. done.
    - rewrite E3. mklia.
    - intros b Hb. rewrite E3 in Hb. rewrite !(proj2 (Z.eqb_neq _ _)) by mklia. done. }
  assert (Hno : forall i, ~ allocated msb empty_view i) by (intros i [Hi Ht]; by rewrite empty_dinode in Ht).
  split; try done; [split |].
  - split.
    + intros b _. unfold empty_view. repeat case_match; [apply length_bitmap | rewrite length_splice; apply length_replicate | apply length_replicate].
    + intros b Hb. rewrite (mimg_used _ _ _ I), E3 by lia. apply Z.ltb_lt. mklia.
  - intros i Hi. by apply Hno in Hi.
  - intros i j c Hi. by apply Hno in Hi.
  - intros i Hi _. by apply empty_dinode.
Qed.

(** ** Copying the files *)

(** [fl'] has the files of [fl], and they are at least as long. *)
Definition longer (fl fl' : list (Z * list Z)) : Prop :=
  forall k f, fl !! k = Some f -> exists f', fl' !! k = Some f' /\ (length f.2 <= length f'.2)%nat.

Lemma file_blocks_mono n m : 0 <= n <= m -> 0 <= file_blocks n <= file_blocks m.
Proof.
  intros H. unfold file_blocks. pose proof (Z.div_pos (n + BSIZE - 1) BSIZE ltac:(unfold BSIZE; lia) ltac:(done)).
  pose proof (Z.div_le_mono (n + BSIZE - 1) (m + BSIZE - 1) BSIZE ltac:(done) ltac:(lia)).
  destruct (Z.ltb_spec (NDIRECT * BSIZE) n), (Z.ltb_spec (NDIRECT * BSIZE) m); lia.
Qed.

Lemma image_blocks_mono fl : forall fl', longer fl fl' -> 0 <= image_blocks fl <= image_blocks fl'.
Proof.
  induction fl as [| f fl IH]; intros fl' H.
  - split; [done |]. clear H. induction fl' as [| f' fl' IH]; [done |]. unfold image_blocks in *. cbn [foldr] in *.
    pose proof (file_blocks_mono 0 (Z.of_nat (length f'.2)) ltac:(lia)). lia.
  - destruct (H 0%nat f eq_refl) as (f' & H0 & Hl). destruct fl' as [| g fl']; [done |]. injection H0 as ->.
    destruct (IH fl') as [I1 I2]; [intros k h Hk; by apply (H (S k))|]. unfold image_blocks in *. cbn [foldr].
    pose proof (file_blocks_mono (Z.of_nat (length f.2)) (Z.of_nat (length f'.2)) ltac:(lia)).
    pose proof (file_blocks_mono 0 (Z.of_nat (length f.2)) ltac:(lia)). lia.
Qed.

Lemma longer_refl fl : longer fl fl.
Proof. intros k f H. by exists f. Qed.

Lemma longer_insert fl fl' k ty c ty' c' : longer fl fl' -> fl' !! k = Some (ty', c') -> (length c <= length c')%nat -> longer (<[k := (ty, c)]> fl) fl'.
Proof.
  intros H Hk Hl j f Hj. apply list_lookup_insert_Some in Hj as [(<- & <- & _) | (Hne & Hj)]; [by exists (ty', c') | by apply H].
Qed.

Lemma copy_file_run chunks : forall s v fl k ty c fl', made s v fl -> fl !! k = Some (ty, c) -> Forall (fun b => b <> []) chunks ->
  Z.of_nat (length (c ++ concat chunks)) <= MAXFILE * BSIZE -> longer (<[k := (ty, c ++ concat chunks)]> fl) fl' -> nmeta + image_blocks fl' <= FSSIZE ->
  exists s' v', copy_file (Z.of_nat k + 1) chunks s = Ok tt s' /\ made s' v' (<[k := (ty, c ++ concat chunks)]> fl).
Proof.
  induction chunks as [| b chunks IH]; intros s v fl k ty c fl' M Hk Hne Hmax Hlong Hroom; cbn [copy_file concat] in *.
  { exists s, v. rewrite app_nil_r. split; [done |]. by rewrite list_insert_id. }
  apply Forall_cons in Hne as [Hb Hne]. rewrite app_assoc in *. pose proof (lookup_lt_Some _ _ _ Hk) as Hlt.
  assert (Hmid : longer (<[k := (ty, c ++ b)]> fl) fl').
  { intros j f Hj. destruct (decide (j = k)) as [-> | Hn].
    - rewrite list_lookup_insert_eq in Hj by done. injection Hj as <-.
      destruct (Hlong k (ty, (c ++ b) ++ concat chunks)) as (f' & Hf & Hl); [by rewrite list_lookup_insert_eq |].
      exists f'. split; [done |]. cbn [snd] in *. rewrite !length_app in *. lia.
    - apply Hlong. rewrite list_lookup_insert_ne in * by done. done. }
  pose proof (image_blocks_mono _ _ Hmid). rewrite (proj2 (Z.ltb_lt 0 _)) by (destruct b; [done | cbn; lia]).
  destruct (iappend_run s v fl k ty c b M Hk) as (s1 & v1 & E1 & M1); [rewrite !length_app in *; lia | lia |]. rewrite (bind_ok _ _ _ _ _ E1).
  destruct (IH s1 v1 (<[k := (ty, c ++ b)]> fl) k ty (c ++ b) fl' M1) as (s2 & v2 & E2 & M2); try done.
  - by rewrite list_lookup_insert_eq.
  - by rewrite list_insert_insert_eq.
  - exists s2, v2. split; [done |]. by rewrite list_insert_insert_eq in M2.
Qed.

(** The directory entry of a file, and those of files with successive inodes. *)
Definition entry (inum : Z) (name : list Z) : dirent := mkDirent inum (strncpy_l (Z.to_nat DIRSIZ) name).
Definition entries (names : list (list Z)) : list dirent := zip_with entry (seqZ 2 (Z.of_nat (length names))) names.
Definition root_entries (names : list (list Z)) : list dirent := entry 1 (str ".") :: entry 1 (str "..") :: entries names.

(** The files of the image for the host files [files], given by name and contents. *)
Definition image_files (files : list (list Z * list Z)) : list (Z * list Z) :=
  (T_DIR, concat (dirent_bytes <$> root_entries (fst <$> files))) :: ((fun f => (T_FILE, f.2)) <$> files).

(** The argument [arg] of mkfs stands for the file [f]. *)
Definition source (host : list Z -> option (list (list Z))) (arg : list Z) (f : list Z * list Z) : Prop :=
  (SLASH ∉ strip_dir arg) /\ f.1 = strip_mark (strip_dir arg) /\ Z.of_nat (length f.1) <= DIRSIZ /\
  exists chunks, host arg = Some chunks /\ Forall (fun b => b <> []) chunks /\ f.2 = concat chunks.

(** The files fit into the image. *)
Record fits (files : list (list Z * list Z)) : Prop := {
  ft_inodes : Z.of_nat (length files) + 1 < NINODES;
  ft_size : Forall (fun f => Z.of_nat (length f.2) <= MAXFILE * BSIZE) files;
  ft_blocks : nmeta + image_blocks (image_files files) <= FSSIZE;
  (** The root directory does not end at the end of a block. *)
  ft_root : (Z.of_nat (length files) + 2) mod 64 <> 0 }.

Lemma entries_snoc names n : entries (names ++ [n]) = entries names ++ [entry (2 + Z.of_nat (length names)) n].
Proof.
  unfold entries. rewrite length_app. cbn [length]. rewrite Nat2Z.inj_add, seqZ_app by lia. rewrite zip_with_app by (rewrite length_seqZ; lia).
  rewrite Z.add_comm. done.
Qed.

Lemma image_files_snoc files f : image_files (files ++ [f]) =
  <[0%nat := (T_DIR, concat (dirent_bytes <$> root_entries (fst <$> files)) ++ dirent_bytes (entry (2 + Z.of_nat (length files)) f.1))]>
    (image_files files ++ [(T_FILE, f.2)]).
Proof.
  unfold image_files, root_entries. rewrite !fmap_app. cbn [fmap list_fmap app insert list_insert]. rewrite entries_snoc, length_fmap. f_equal. f_equal.
  rewrite fmap_app. cbn [concat fmap list_fmap]. rewrite concat_app. cbn [concat]. by rewrite app_nil_r, !app_assoc.
Qed.

Lemma length_entries names : length (entries names) = length names.
Proof. unfold entries. rewrite length_zip_with, length_seqZ. lia. Qed.

Lemma length_dirents des : Forall (fun de => length (de_name de) = Z.to_nat DIRSIZ) des ->
  Z.of_nat (length (concat (dirent_bytes <$> des))) = dirent_size * Z.of_nat (length des).
Proof.
  induction 1 as [| de des Hd Hds IH]; [done |]. cbn [fmap list_fmap concat length]. rewrite length_app, Nat2Z.inj_add, IH.
  unfold dirent_bytes. rewrite length_app, length_le_bytes, Hd. unfold dirent_size. change (Z.to_nat DIRSIZ) with 14%nat. lia.
Qed.

Lemma entry_names names : Forall (fun de => length (de_name de) = Z.to_nat DIRSIZ) (root_entries names).
Proof.
  unfold root_entries. do 2 (constructor; [apply length_strncpy_l |]). unfold entries. apply Forall_forall. intros de Hde.
  apply elem_of_zip_with in Hde as (i & n & -> & _). apply length_strncpy_l.
Qed.

Lemma longer_app files rest : longer (image_files files) (image_files (files ++ rest)).
Proof.
  intros k f Hk. destruct k as [| k].
  - change (Some (T_DIR, concat (dirent_bytes <$> root_entries (fst <$> files))) = Some f) in Hk. apply (inj Some) in Hk as <-.
    exists (T_DIR, concat (dirent_bytes <$> root_entries (fst <$> (files ++ rest)))). split; [reflexivity |]. cbn [snd]. apply Nat2Z.inj_le. rewrite !length_dirents by apply entry_names.
    cbn [root_entries length]. rewrite !length_entries, !length_fmap, length_app. unfold dirent_size. lia.
  - exists f. split; [| done]. unfold image_files in *. cbn [lookup list_lookup] in *. rewrite fmap_app. by apply lookup_app_l_Some.
Qed.

Lemma length_image files : length (image_files files) = S (length files).
Proof. unfold image_files. cbn [length]. by rewrite length_fmap. Qed.

Lemma longer_trans fl1 fl2 fl3 : longer fl1 fl2 -> longer fl2 fl3 -> longer fl1 fl3.
Proof. intros H1 H2 k f Hk. destruct (H1 k f Hk) as (g & Hg & Hl). destruct (H2 k g Hg) as (h & Hh & Hl'). exists h. split; [done | lia]. Qed.

(** One file is added. *)
Lemma add_file_run s v files f chunks fl' (inum := 2 + Z.of_nat (length files)) : made s v (image_files files) -> inum < NINODES ->
  Forall (fun b => b <> []) chunks -> f.2 = concat chunks -> Z.of_nat (length f.2) <= MAXFILE * BSIZE ->
  longer (image_files (files ++ [f])) fl' -> nmeta + image_blocks fl' <= FSSIZE ->
  exists s1 v1 s2 v2 s3 v3, ialloc T_FILE s = Ok inum s1 /\ made s1 v1 (image_files files ++ [(T_FILE, [])]) /\
    iappend 1 (dirent_bytes (entry inum f.1)) s1 = Ok tt s2 /\ made s2 v2 (<[0%nat := (T_DIR, concat (dirent_bytes <$> root_entries (fst <$> files)) ++ dirent_bytes (entry inum f.1))]> (image_files files ++ [(T_FILE, [])])) /\
    copy_file inum chunks s2 = Ok tt s3 /\ made s3 v3 (image_files (files ++ [f])).
Proof.
  intros M Hi Hch Ef Hmax Hlong Hroom. pose proof (image_files_snoc files f) as Esn. fold inum in Esn.
  set (root := concat (dirent_bytes <$> root_entries (fst <$> files))) in *. set (de := dirent_bytes (entry inum f.1)) in *.
  destruct (ialloc_run s v (image_files files) T_FILE M) as (s1 & v1 & E1 & M1); [rewrite length_image; unfold inum in *; lia | done |].
  replace (1 + Z.of_nat (length (image_files files))) with inum in E1 by (rewrite length_image; unfold inum; lia).
  assert (H0 : (image_files files ++ [(T_FILE, [])]) !! 0%nat = Some (T_DIR, root)) by done.
  assert (Hlen : forall x, length (image_files files ++ [x]) = S (S (length files))) by (intros; rewrite length_app, length_image; cbn; lia).
  assert (L1 : longer (<[0%nat := (T_DIR, root ++ de)]> (image_files files ++ [(T_FILE, [])])) fl').
  { eapply longer_trans; [| exact Hlong]. rewrite Esn. intros j g Hj. destruct (decide (j = 0%nat)) as [-> | Hn].
    - rewrite list_lookup_insert_eq in Hj by (rewrite Hlen; lia). exists g. rewrite list_lookup_insert_eq by (rewrite Hlen; lia). done.
    - rewrite list_lookup_insert_ne in * by done. apply lookup_app_Some in Hj as [Hj | [Hge Hj]].
      + exists g. split; [by apply lookup_app_l_Some | done].
      + exists (T_FILE, f.2). pose proof (lookup_lt_Some _ _ _ Hj) as Hl1. cbn [length] in Hl1. replace (j - length (image_files files))%nat with 0%nat in Hj by lia. injection Hj as <-.
        rewrite lookup_app_r by done. replace (j - length (image_files files))%nat with 0%nat by lia. split; [done | cbn; lia]. }
  pose proof (image_blocks_mono _ _ L1).
  destruct (iappend_run s1 v1 _ 0%nat T_DIR root de M1 H0) as (s2 & v2 & E2 & M2); [| lia |].
  { unfold root, de. rewrite length_app, Nat2Z.inj_add, length_dirents by apply entry_names.
    unfold root_entries. cbn [length]. rewrite length_entries, length_fmap. unfold dirent_bytes, entry. cbn [de_inum de_name]. rewrite length_app, length_le_bytes, length_strncpy_l.
    change (MAXFILE * BSIZE) with 274432. change (Z.to_nat DIRSIZ) with 14%nat. unfold dirent_size, inum, NINODES in *. lia. }
  set (k := S (length files)). assert (Hk : <[0%nat := (T_DIR, root ++ de)]> (image_files files ++ [(T_FILE, [])]) !! k = Some (T_FILE, [])).
  { rewrite list_lookup_insert_ne by (unfold k; lia). rewrite list_lookup_middle; [done |]. by rewrite length_image. }
  assert (Efin : <[k := (T_FILE, [] ++ concat chunks)]> (<[0%nat := (T_DIR, root ++ de)]> (image_files files ++ [(T_FILE, [])])) = image_files (files ++ [f])).
  { rewrite Esn, list_insert_insert_ne by (unfold k; lia). f_equal. rewrite insert_app_r_alt by (rewrite length_image; unfold k; lia).
    rewrite length_image. unfold k. rewrite Nat.sub_diag. cbn [app]. by rewrite Ef. }
  destruct (copy_file_run chunks s2 v2 _ k T_FILE [] fl' M2 Hk Hch) as (s3 & v3 & E3 & M3); [cbn [app]; by rewrite <- Ef | by rewrite Efin | done |].
  exists s1, v1, s2, v2, s3, v3. rewrite Efin in M3. replace (Z.of_nat k + 1) with inum in E3 by (unfold k, inum; lia). split_and!; done.
Qed.

Lemma add_files_run host argv : forall files done s v, Forall2 (source host) argv files -> made s v (image_files done) -> fits (done ++ files) ->
  exists s' v', add_files host 1 argv s = Ok tt s' /\ made s' v' (image_files (done ++ files)).
Proof.
  induction argv as [| arg argv IH]; intros files done0 s v Hsrc M Hfit.
  { inversion Hsrc; subst. exists s, v. by rewrite app_nil_r. }
  apply Forall2_cons_inv_l in Hsrc as (f & rest & (S1 & S2 & S3 & chunks & S4 & S5 & S6) & Hsrc & ->). pose proof Hfit as [F1 F2 F3 F4].
  rewrite (cons_middle f) in *. rewrite (app_assoc done0) in *. rewrite !length_app in F1. cbn [length] in F1.
  apply Forall_app in F2 as [[_ [Hsz _]%Forall_cons]%Forall_app _].
  destruct (add_file_run s v done0 f chunks (image_files ((done0 ++ [f]) ++ rest)) M) as (s1 & v1 & s2 & v2 & s3 & v3 & E1 & _ & E2 & _ & E3 & M3);
    try done; [lia | apply longer_app |].
  destruct (IH rest (done0 ++ [f]) s3 v3 Hsrc M3 Hfit) as (s' & v' & E4 & M4). exists s', v'. split; [| done].
  cbn [add_files]. unfold assert_. rewrite bool_decide_eq_true_2, S4 by done. cbv zeta. rewrite <- S2, (proj2 (Z.leb_le _ _)) by done.
  rewrite (bind_ok _ _ _ _ _ E1). unfold u16. rewrite Z.mod_small, xshort_id by (unfold NINODES in *; lia).
  rewrite (bind_ok _ _ _ _ _ E2), (bind_ok _ _ _ _ _ E3). exact E4.
Qed.

(** ** The size of the root directory *)

Lemma round_up n (k := n / BSIZE) : 0 <= n -> n mod BSIZE <> 0 -> k * BSIZE < n < (k + 1) * BSIZE /\ n + (BSIZE - n mod BSIZE) = (k + 1) * BSIZE.
Proof.
  intros Hn Hm. pose proof (Z.mod_pos_bound n BSIZE ltac:(done)). pose proof (Z.div_mod n BSIZE ltac:(done)). unfold k. lia.
Qed.

Lemma pad_run s v fl k ty c (n := Z.of_nat (length c)) (z := BSIZE - n mod BSIZE) (x := dinode v (Z.of_nat k + 1)) :
  made s v fl -> fl !! k = Some (ty, c) -> n mod BSIZE <> 0 -> n + z <= MAXFILE * BSIZE ->
  exists s' v', winode (Z.of_nat k + 1) (set_i_size (n + z) (with_disk x inode0)) s = Ok tt s' /\
    made s' v' (<[k := (ty, c ++ replicate (Z.to_nat z) 0)]> fl).
Proof.
  intros M Hk Hm Hmax. pose proof (md_file _ _ _ M _ _ _ Hk) as F. fold x in F. pose proof (md_fsys _ _ _ M) as Y. pose proof (lookup_lt_Some _ _ _ Hk) as Hlt.
  set (i := Z.of_nat k + 1) in *. assert (Ha : allocated msb v i) by (apply (made_allocated s v fl _ M); lia). pose proof (fy_file _ _ Y i Ha) as Hx. fold x in Hx.
  pose proof (if_size _ _ _ _ F) as Es. fold n in Es. pose proof (if_tight _ _ _ _ F) as [T1 T2 T3 T4]. rewrite Es in *.
  destruct (round_up n ltac:(lia) Hm) as [Hr Er]. fold z in Er. set (q := n / BSIZE) in *. set (bs := replicate (Z.to_nat z) 0).
  pose proof (Z.mod_pos_bound n BSIZE ltac:(done)). assert (Hl : Z.of_nat (length bs) = z) by (unfold bs; rewrite length_replicate; lia).
  assert (W : written v x n bs v x).
  { split; [apply (fgrow_refl msb); [apply Y | apply Hx] | |].
    - intros o Ho. case_decide; [| done]. rewrite T4 by lia. unfold bs. rewrite lookup_replicate_2; [done | lia].
    - intros o Ho. rewrite Hl, Er in Ho. assert (Eq : o / BSIZE = q) by (symmetry; apply (Z.div_unique _ _ _ (o - q * BSIZE)); lia).
      rewrite Eq. apply T1; [| lia]. replace q with (n / BSIZE) by done. apply in_block. lia. }
  set (x2 := set_i_size (Z.max (i_size x) (n + Z.of_nat (length bs))) x).
  assert (Em : Z.max (i_size x) (n + Z.of_nat (length bs)) = n + z) by lia.
  destruct (winode_ok s v i (set_i_size (n + z) (with_disk x inode0)) x2 (md_img _ _ _ M) (proj1 Ha) eq_refl) as (s2 & E2 & I2 & F2 & N2).
  { unfold x2. rewrite Em. reflexivity. }
  destruct (put_inode_keeps 2 nlog msb v x x2 (fk_iwf _ _ _ Hx) (fy_dwf _ _ Y)) as (_ & _ & K3 & K4 & _); [apply Ha |].
  assert (K5 : forall bn, fblk (put_inode x2 v) x2 bn = fblk v x bn) by (intros bn; apply (K3 bn)).
  exists s2, (put_inode x2 v). split; [exact E2 |]. apply (wrote_made s v fl k ty c n bs s2 _ x2 M Hk eq_refl); try done.
  - rewrite Hl. lia.
  - apply (wrote_of_written 2 nlog msb v x n bs v x x2 (fy_dwf _ _ Y) Hx (proj1 Ha)); [lia | lia | done | done].
  - change (i_size x2) with (Z.max (i_size x) (n + Z.of_nat (length bs))). rewrite Em, Er. split.
    + intros bn Hb Hlt'. rewrite K5. apply T1; [done |]. unfold BSIZE in *. lia.
    + intros bn Hb Hge. rewrite K5. apply T2; [done | unfold BSIZE in *; lia].
    + change (addr x2 NDIRECT) with (addr x NDIRECT). rewrite T3. unfold NDIRECT, BSIZE in *. lia.
    + intros o Ho. change (fbyte (put_inode x2 v) x o = 0). rewrite (K4 o) by lia. apply T4. lia.
  - rewrite F2, Hl, Er. assert (file_blocks ((q + 1) * BSIZE) = file_blocks n); [| lia]. unfold file_blocks.
    replace (((q + 1) * BSIZE + BSIZE - 1) / BSIZE) with (q + 1) by (apply (Z.div_unique _ _ _ (BSIZE - 1)); unfold BSIZE; lia).
    replace ((n + BSIZE - 1) / BSIZE) with (q + 1) by (apply (Z.div_unique _ _ _ (n - 1 - q * BSIZE)); unfold BSIZE in *; lia).
    destruct (Z.ltb_spec (NDIRECT * BSIZE) ((q + 1) * BSIZE)), (Z.ltb_spec (NDIRECT * BSIZE) n); unfold NDIRECT, BSIZE in *; lia.
  - intros b Hb. unfold FsInode.put_inode. pose proof (iblock_range i (proj1 Ha)). change (i_inum x2) with i.
    rewrite set_at_ne by (change (2 + nlog) with 32 in Hb; lia). done.
Qed.

(** ** The entries of the root directory *)

Definition zero_ent : dirent := mkDirent 0 (replicate (Z.to_nat DIRSIZ) 0).
Definition ent_ok (de : dirent) : Prop := 0 <= de_inum de < 2^16 /\ length (de_name de) = Z.to_nat DIRSIZ.

(** The first [n] entries in the bytes [l]. *)
Definition ents_of (n : nat) (l : list Z) : list dirent := (fun k => dirent_of (take 16 (drop (16 * k) l))) <$> seq 0 n.

Lemma ents_of_cons n a l : length a = 16%nat -> ents_of (S n) (a ++ l) = dirent_of a :: ents_of n l.
Proof.
  intros Ha. unfold ents_of. cbn [seq fmap list_fmap]. rewrite Nat.mul_0_r, drop_0, take_app_le, take_ge by lia. f_equal.
  rewrite <- fmap_S_seq, <- list_fmap_compose. apply list_fmap_ext. intros k j _. cbn [compose]. unfold compose.
  rewrite drop_app_ge by lia. do 3 f_equal. lia.
Qed.

Lemma ents_of_zero n : ents_of n (replicate (16 * n) 0) = replicate n zero_ent.
Proof.
  induction n as [| n IH]; [done |]. replace (16 * S n)%nat with (16 + 16 * n)%nat by lia. rewrite replicate_add, ents_of_cons by apply length_replicate.
  rewrite IH. reflexivity.
Qed.

Lemma length_dirent16 de : length (de_name de) = Z.to_nat DIRSIZ -> length (dirent_bytes de) = 16%nat.
Proof. intros Hn. unfold dirent_bytes. by rewrite length_app, length_le_bytes, Hn. Qed.

Lemma ents_of_dirents des z : Forall ent_ok des ->
  ents_of (length des + z) (concat (dirent_bytes <$> des) ++ replicate (16 * z) 0) = des ++ replicate z zero_ent.
Proof.
  induction 1 as [| de des [H1 H2] Hds IH]; [apply ents_of_zero |]. cbn [length Nat.add fmap list_fmap concat]. rewrite <- app_assoc.
  rewrite ents_of_cons by (by apply length_dirent16). by rewrite IH, dirent_roundtrip.
Qed.

Lemma fdata_contents v x o n : 0 <= o -> 0 <= n -> o + n <= i_size x -> fdata v x o n = take (Z.to_nat n) (drop (Z.to_nat o) (contents v x)).
Proof.
  intros Ho Hn Hs. apply list_eq. intros i. rewrite lookup_fdata. destruct (decide (Z.of_nat i < n)) as [Hi | Hi].
  - rewrite lookup_take_lt, lookup_drop by lia. unfold contents. rewrite lookup_fdata, decide_True by lia. do 2 f_equal. lia.
  - rewrite lookup_take_ge by lia. done.
Qed.

Lemma dir_ents_of v x n : i_size x = 16 * Z.of_nat n -> dir_ents v x = ents_of n (contents v x).
Proof.
  intros Hs. unfold dir_ents, ents_of. rewrite Hs. unfold dirent_size. rewrite Z.mul_comm, Z.div_mul by done. unfold seqZ. rewrite Nat2Z.id.
  rewrite <- list_fmap_compose. apply list_fmap_ext. intros k j Hj. apply lookup_seq in Hj as [-> Hj]. unfold compose. cbn [Nat.add].
  rewrite fdata_contents by lia. change (Z.to_nat 16) with 16%nat. do 3 f_equal. lia.
Qed.

Lemma entries_lookup names k n : names !! k = Some n -> entries names !! k = Some (entry (2 + Z.of_nat k) n).
Proof.
  intros Hk. pose proof (lookup_lt_Some _ _ _ Hk). unfold entries. apply lookup_zip_with_Some. exists (2 + Z.of_nat k), n. split_and!; [done | | done].
  apply lookup_seqZ. lia.
Qed.

Lemma root_ents_ok names : Z.of_nat (length names) + 2 < 2^16 -> Forall ent_ok (root_entries names).
Proof.
  intros Hl. unfold root_entries. do 2 (constructor; [split; [done | apply length_strncpy_l] |]). apply Forall_lookup. intros k de Hk.
  pose proof (lookup_lt_Some _ _ _ Hk) as Hlt. rewrite length_entries in Hlt. destruct (lookup_lt_is_Some_2 names k Hlt) as [n Hn].
  rewrite (entries_lookup names k n Hn) in Hk. injection Hk as <-. split; [cbn; lia | apply length_strncpy_l].
Qed.

(** ** Names *)

(** A name of a file: bytes other than 0, at most DIRSIZ. *)
Definition good_name (n : list Z) : Prop := Forall (fun c => 0 < c < 256) n /\ (length n <= Z.to_nat DIRSIZ)%nat.

Lemma strncmp_zero n : forall p q, Forall (fun c => 0 <= c < 256) p -> Forall (fun c => 0 <= c < 256) q -> strncmp_l n p q = 0 ->
  take n (cstr p) = take n (cstr q).
Proof.
  induction n as [| n IH]; intros p q Hp Hq E; [done |]. cbn [strncmp_l] in E.
  destruct p as [| c p], q as [| d q]; cbn in E |- *; [done | | |].
  - apply Forall_cons in Hq as [Hd _]. destruct (Z.eqb_spec d 0) as [-> | Hn]; [done |]. rewrite i32_small in E; lia.
  - apply Forall_cons in Hp as [Hc _]. destruct (Z.eqb_spec c 0) as [-> | Hn]; [done |]. cbn in E. rewrite i32_small in E by lia. lia.
  - apply Forall_cons in Hp as [Hc Hp], Hq as [Hd Hq]. destruct (Z.eqb_spec c 0) as [-> | Hn]; cbn in E.
    + rewrite i32_small in E by lia. replace d with 0 by lia. done.
    + destruct (Z.eqb_spec c d) as [<- | Hcd]; cbn in E; [| rewrite i32_small in E by lia; lia].
      rewrite (proj2 (Z.eqb_neq c 0)) by done. cbn. f_equal. by apply IH.
Qed.

Lemma cstr_good n : Forall (fun c => 0 < c < 256) n -> cstr n = n.
Proof. induction 1 as [| c n Hc Hn IH]; [done |]. cbn. rewrite (proj2 (Z.eqb_neq c 0)) by lia. by rewrite IH. Qed.

Lemma take_strncpy n : good_name n -> take (Z.to_nat DIRSIZ) (cstr (strncpy_l (Z.to_nat DIRSIZ) n)) = n.
Proof.
  intros [Hn Hl]. unfold strncpy_l. rewrite cstr_take, take_take, Nat.min_id, (cstr_good n Hn), (take_ge n) by done.
  rewrite cstr_app_end by (by apply cstr_good). rewrite cstr_zeros, app_nil_r. by apply take_ge.
Qed.

Lemma strncpy_bytes n k : good_name n -> Forall (fun c => 0 <= c < 256) (strncpy_l k n).
Proof.
  intros [Hn _]. unfold strncpy_l. rewrite cstr_good by done. apply Forall_take, Forall_app. split; [apply Forall_take | by apply Forall_replicate].
  eapply Forall_impl; [exact Hn |]. intros c Hc. cbn beta in *. lia.
Qed.

Lemma namecmp_entry n m : good_name n -> good_name m -> namecmp n (strncpy_l (Z.to_nat DIRSIZ) m) = 0 <-> n = m.
Proof.
  intros Hn Hm. split; [| intros ->; apply namecmp_strncpy]. intros E.
  apply strncmp_zero in E; [| eapply Forall_impl; [apply Hn | cbn; lia] | by apply strncpy_bytes].
  rewrite take_strncpy in E by done. rewrite cstr_good, take_ge in E by apply Hn. done.
Qed.

(** The names of the image. *)
Definition good_names (names : list (list Z)) : Prop := Forall good_name names /\ NoDup (str "." :: str ".." :: names).

Lemma find_entry names k n z `{D : !forall x, Decision (is_entry n x)} : good_names names -> names !! k = Some n -> Z.of_nat (length names) + 2 < 2^16 ->
  exists j, list_find (is_entry n) (root_entries names ++ replicate z zero_ent) = Some (j, entry (2 + Z.of_nat k) n).
Proof.
  clear PF PA BD BO LY Hsize. intros [Hg Hnd] Hk Hmax. exists (S (S k)). pose proof (entries_lookup names k n Hk) as He. rewrite Forall_lookup in Hg.
  assert (Hgn : good_name n) by (by eapply Hg). apply list_find_Some. split_and!.
  - rewrite lookup_app_l; [exact He |]. unfold root_entries. cbn [length]. rewrite length_entries. apply lookup_lt_Some in Hk. lia.
  - split; [cbn; lia | by apply namecmp_entry].
  - assert (Hd : good_name (str ".") /\ good_name (str "..")) by (change (str ".") with [46]; change (str "..") with [46; 46];
      split; (split; [repeat first [apply Forall_nil_2 | apply Forall_cons_2; [lia |]] | change (Z.to_nat DIRSIZ) with 14%nat; cbn [length]; lia])).
    destruct Hd as [Hd1 Hd2]. apply NoDup_cons in Hnd as [N1 [N2 Hnd]%NoDup_cons]. pose proof (list_elem_of_lookup_2 _ _ _ Hk) as Hin.
    intros j y Hy Hlt [Hz Hc]. destruct j as [| [| j]].
    + injection Hy as <-. apply namecmp_entry in Hc; [| done | done]. subst n. apply N1. set_solver.
    + injection Hy as <-. apply namecmp_entry in Hc; [| done | done]. by subst n.
    + pose proof (lookup_lt_Some _ _ _ Hk) as Hl. assert (Hj : (j < k)%nat) by lia. destruct (lookup_lt_is_Some_2 names j) as [m Hm]; [lia |].
      change ((entries names ++ replicate z zero_ent) !! j = Some y) in Hy.
      rewrite lookup_app_l in Hy by (rewrite length_entries; lia). rewrite (entries_lookup names j m Hm) in Hy. injection Hy as <-.
      apply namecmp_entry in Hc; [| done | by eapply Hg]. subst m. pose proof (NoDup_lookup _ _ _ _ Hnd Hm Hk). lia.
Qed.

(** ** main *)

(** The part of [main] before the files. *)
Lemma start_run : exists s v, made s v (image_files []) /\
  forall k : Z -> M mkfs unit,
  (modify (set_mk_sb (mkSb FSMAGIC (xint FSSIZE) (xint (FSSIZE - nmeta)) (xint NINODES) (xint nlog) (xint 2) (xint (2 + nlog))
     (xint (2 + nlog + ninodeblocks)))) ;;;
   modify (set_mk_freeblock nmeta) ;;;
   wsect_zeroes (Z.to_nat FSSIZE) 0 ;;;
   wsect 1 (splice 0 (sb_bytes (mkSb FSMAGIC (xint FSSIZE) (xint (FSSIZE - nmeta)) (xint NINODES) (xint nlog) (xint 2) (xint (2 + nlog))
     (xint (2 + nlog + ninodeblocks)))) zeroes) ;;;
   let* rootino := ialloc T_DIR in
   assert_ (rootino =? ROOTINO)
     (iappend rootino (dirent_bytes (mkDirent (xshort (u16 rootino)) (strncpy_l (Z.to_nat DIRSIZ) (str ".")))) ;;;
      iappend rootino (dirent_bytes (mkDirent (xshort (u16 rootino)) (strncpy_l (Z.to_nat DIRSIZ) (str "..")))) ;;;
      k rootino)) mkfs0 = k 1 s.
Proof.
  replace (mkSb _ _ _ _ _ _ _ _) with msb by reflexivity. set (s1 := set_mk_freeblock nmeta (set_mk_sb msb mkfs0)).
  destruct (wsect_zeroes_run (Z.to_nat FSSIZE) 0 s1) as (s2 & E2 & Z2 & B2 & F2 & N2 & L2); [done | done | by rewrite Z2Nat.id |].
  set (s3 := set_mk_img (<[1 := splice 0 (sb_bytes msb) zeroes]> (mk_img s2)) (Z.max (mk_len s2) 2) s2).
  assert (M3 : made s3 empty_view []).
  { apply made_empty; try done.
    - unfold s3. cbn [mk_len set_mk_img]. rewrite L2. reflexivity.
    - intros b. unfold s3. cbn [mk_img set_mk_img]. destruct (Z.eqb_spec b 1) as [-> | Hn]; [by rewrite lookup_insert_eq | rewrite lookup_insert_ne by done; apply Z2]. }
  destruct (ialloc_run s3 empty_view [] T_DIR M3) as (s4 & v4 & E4 & M4); [done | done |].
  destruct (iappend_run s4 v4 [(T_DIR, [])] 0 T_DIR [] (dirent_bytes (entry 1 (str "."))) M4 eq_refl) as (s5 & v5 & E5 & M5); [done | done |].
  destruct (iappend_run s5 v5 _ 0 T_DIR _ (dirent_bytes (entry 1 (str ".."))) M5 eq_refl) as (s6 & v6 & E6 & M6); [done | done |].
  exists s6, v6. split; [exact M6 |]. intros k.
  unfold bind at 1, modify. cbn [obind]. unfold bind at 1. cbn [obind]. fold s1. rewrite (bind_ok _ _ _ _ _ E2).
  unfold bind at 1, wsect, modify. cbn [obind]. change (sector 1) with 1. fold s3. rewrite (bind_ok _ _ _ _ _ E4).
  change (1 + Z.of_nat (length (@nil (Z * list Z))) =? ROOTINO) with true. cbn [assert_].
  change (iappend (1 + Z.of_nat (length []))) with (iappend (Z.of_nat 0 + 1)).
  change (mkDirent (xshort (u16 (1 + Z.of_nat (length (@nil (Z * list Z)))))) (strncpy_l (Z.to_nat DIRSIZ) (str "."))) with (entry 1 (str ".")).
  change (mkDirent (xshort (u16 (1 + Z.of_nat (length (@nil (Z * list Z)))))) (strncpy_l (Z.to_nat DIRSIZ) (str ".."))) with (entry 1 (str "..")).
  by rewrite (bind_ok _ _ _ _ _ E5), (bind_ok _ _ _ _ _ E6).
Qed.

(** The files of the finished image: the root directory ends with empty entries. *)
Definition pad (files : list (list Z * list Z)) : nat := Z.to_nat (64 - (Z.of_nat (length files) + 2) mod 64).
Definition padded (files : list (list Z * list Z)) : list (Z * list Z) :=
  <[0%nat := (T_DIR, concat (dirent_bytes <$> root_entries (fst <$> files)) ++ replicate (16 * pad files) 0)]> (image_files files).

Lemma root_size (files : list (list Z * list Z)) (n := Z.of_nat (length (concat (dirent_bytes <$> root_entries (fst <$> files))))) :
  n = 16 * (Z.of_nat (length files) + 2) /\ n mod BSIZE = 16 * ((Z.of_nat (length files) + 2) mod 64).
Proof.
  assert (En : n = 16 * (Z.of_nat (length files) + 2)).
  { unfold n. rewrite length_dirents by apply entry_names. unfold root_entries. cbn [length]. rewrite length_entries, length_fmap. unfold dirent_size. lia. }
  split; [done |]. rewrite En. change BSIZE with (16 * 64). by apply Z.mul_mod_distr_l.
Qed.

(** The last step writes the bitmap of the view. *)
Lemma balloc_run s v : mimg s v -> exists s', balloc (i32 (mk_freeblock s)) s = Ok tt s' /\ mk_len s' = FSSIZE /\
  forall b, 0 <= b < FSSIZE -> default zeroes (mk_img s' !! b) = v b.
Proof.
  intros I. pose proof (mi_free _ _ I). rewrite i32_small by mklia. unfold balloc. rewrite (proj2 (Z.ltb_lt _ BPB)) by (unfold BPB, BSIZE; mklia). cbn [negb].
  eexists. split; [unfold bind, gets; cbn [obind]; rewrite (mi_sb _ _ I); reflexivity |]. rewrite sector_id by done.
  cbn [mk_len mk_img set_mk_img]. split; [rewrite (mi_len _ _ I); reflexivity |]. intros b Hb. destruct (decide (b = bm)) as [-> | Hn].
  - rewrite lookup_insert_eq. cbn. symmetry. apply (mi_bm _ _ I).
  - rewrite lookup_insert_ne by done. symmetry. by apply (mi_view _ _ I).
Qed.

Lemma main_run host arg0 argv files : Forall2 (source host) argv files -> fits files ->
  exists s s0 v, main host (arg0 :: argv) mkfs0 = Ok tt s /\ mk_len s = FSSIZE /\
    (forall b, 0 <= b < FSSIZE -> default zeroes (mk_img s !! b) = v b) /\ made s0 v (padded files).
Proof.
  intros Hsrc Hfit. destruct start_run as (s1 & v1 & M1 & Hstart). destruct (add_files_run host argv files [] s1 v1 Hsrc M1 Hfit) as (s2 & v2 & E2 & M2).
  cbn [app] in M2. set (root := concat (dirent_bytes <$> root_entries (fst <$> files))).
  assert (H0 : image_files files !! 0%nat = Some (T_DIR, root)) by done. destruct (root_size files) as [En Em]. fold root in En, Em.
  pose proof (Z.mod_pos_bound (Z.of_nat (length files) + 2) 64 ltac:(done)) as Hb. pose proof (ft_root _ Hfit) as Hr. pose proof (ft_inodes _ Hfit) as Hi.
  destruct (pad_run s2 v2 (image_files files) 0%nat T_DIR root M2 H0) as (s3 & v3 & E3 & M3).
  { rewrite Em. lia. }
  { change (MAXFILE * BSIZE) with 274432. rewrite Em, En. unfold BSIZE, NINODES in *. lia. }
  replace (replicate (Z.to_nat (BSIZE - Z.of_nat (length root) mod BSIZE)) 0) with (replicate (16 * pad files) 0) in M3
    by (f_equal; rewrite Em; unfold pad, BSIZE; lia).
  destruct (balloc_run s3 v3 (md_img _ _ _ M3)) as (s4 & E4 & L4 & V4). exists s4, s3, v3. split; [| done].
  cbv beta iota zeta delta [main]. change (2 + nlog + ninodeblocks + nbitmap) with nmeta. rewrite (Hstart (fun rootino => add_files host rootino argv ;;; _)), (bind_ok _ _ _ _ _ E2).
  assert (H1 : allocated msb v2 1) by (apply (made_allocated s2 v2 _ 1 M2); rewrite length_image; lia).
  rewrite (bind_ok _ _ _ _ _ (rinode_ok s2 v2 1 (md_img _ _ _ M2) (proj1 H1))).
  pose proof (md_file _ _ _ M2 0%nat _ _ H0) as F. change (Z.of_nat 0 + 1) with 1 in *. change (i_size (with_disk (dinode v2 1) inode0)) with (i_size (dinode v2 1)).
  rewrite (if_size _ _ _ _ F). assert (Emax : MAXFILE * BSIZE < 2^31) by done. destruct (round_up (Z.of_nat (length root)) ltac:(lia) ltac:(lia)) as [Q1 Q2].
  rewrite (xint_id (Z.of_nat (length root))) by (unfold NINODES in *; lia). rewrite <- Q2. rewrite u32_small, xint_id by (rewrite Em, En; unfold NINODES, BSIZE in *; lia).
  rewrite (bind_ok _ _ _ _ _ E3). exact E4.
Qed.

End Image.
