(* ===== verification/MkfsThms.v ===== *)
(** * mkfs and the kernel: theorems

    The image that mkfs makes is a file system as the kernel's code expects it,
    with the files that mkfs was given; [fsinit] mounts it. *)

From S2P Require Import Prelude Riscv Mem Bytes StringLib Spinlock Kalloc Vm Proc ProcSpec Kctx State Sleeplock Bio BioList BioSpec BioRun RamDisk Log LogSpec BioProps LogProps LogTx Uart Printf Console Fs FsRun FsBlocks FsFile FsIo FsInode FsProps FsDir FsPath FsLink Mkfs MkfsProps.

(** The superblock that [readsb] reads from the block [d]. *)
Definition sb_of (d : list Z) : superblock :=
  mkSb (get_u32 0 d) (get_u32 4 d) (get_u32 8 d) (get_u32 12 d) (get_u32 16 d) (get_u32 20 d) (get_u32 24 d) (get_u32 28 d).

Section Made.
Context `{PF : Platform} `{PA : Patience} `{BD : !BlockDev} `{BO : !BlockDevOk BD} `{LY : !layout 2 nlog}.
Context (files : list (list Z * list Z)) (s : mkfs) (v : Z -> list Z) (M : made s v (padded files)) (Hi : Z.of_nat (length files) + 1 < NINODES).

Lemma length_padded : length (padded files) = S (length files).
Proof. unfold padded. by rewrite length_insert, length_image. Qed.

Lemma padded_root : is_file v (dinode msb v 1) T_DIR (concat (dirent_bytes <$> root_entries (fst <$> files)) ++ replicate (16 * pad files) 0).
Proof. apply (md_file _ _ _ M 0%nat). apply list_lookup_insert_eq. rewrite length_image. lia. Qed.

Lemma padded_file k name c : files !! k = Some (name, c) -> is_file v (dinode msb v (2 + Z.of_nat k)) T_FILE c.
Proof.
  intros Hk. replace (2 + Z.of_nat k) with (Z.of_nat (S k) + 1) by lia. apply (md_file _ _ _ M). unfold padded. rewrite list_lookup_insert_ne by done.
  change (((fun f => (T_FILE, f.2)) <$> files) !! k = Some (T_FILE, c)). by rewrite list_lookup_fmap, Hk.
Qed.

Lemma padded_ents : dir_ents v (dinode msb v 1) = root_entries (fst <$> files) ++ replicate (pad files) zero_ent.
Proof.
  pose proof padded_root as F. assert (Hl : length (root_entries (fst <$> files)) = S (S (length files))).
  { unfold root_entries. cbn [length]. by rewrite length_entries, length_fmap. }
  rewrite (dir_ents_of v _ (length (root_entries (fst <$> files)) + pad files)), (if_data _ _ _ _ F).
  - apply ents_of_dirents, root_ents_ok. rewrite length_fmap. unfold NINODES in *. lia.
  - rewrite (if_size _ _ _ _ F), length_app, length_replicate. destruct (root_size files) as [En _]. rewrite Hl. lia.
Qed.

Lemma padded_alloc i : allocated msb v i <-> 1 <= i <= Z.of_nat (length files) + 1.
Proof. rewrite (made_allocated s v _ i M), length_padded. lia. Qed.

Lemma padded_link i : allocated msb v i -> i_nlink (dinode msb v i) <> 0.
Proof.
  intros Ha%padded_alloc. destruct (lookup_lt_is_Some_2 (padded files) (Z.to_nat (i - 1))) as [[ty c] Hk]; [rewrite length_padded; lia |].
  pose proof (md_file _ _ _ M _ _ _ Hk) as F. replace (Z.of_nat (Z.to_nat (i - 1)) + 1) with i in F by lia. by rewrite (if_link _ _ _ _ F).
Qed.

Lemma padded_dir i : allocated msb v i -> i_type (dinode msb v i) = T_DIR -> i = 1.
Proof.
  intros Ha%padded_alloc Ht. destruct (decide (i = 1)) as [| Hn]; [done |]. destruct (lookup_lt_is_Some_2 files (Z.to_nat (i - 2))) as [[n c] Hk]; [lia |].
  pose proof (padded_file _ _ _ Hk) as F. replace (2 + Z.of_nat (Z.to_nat (i - 2))) with i in F by lia. by rewrite (if_type _ _ _ _ F) in Ht.
Qed.

Lemma padded_tree : tree msb v.
Proof.
  split; [apply M | |].
  - intros i Ha Ht. rewrite (padded_dir i Ha Ht), (if_size _ _ _ _ padded_root), length_app, length_replicate. destruct (root_size files) as [En _].
    rewrite Nat2Z.inj_add, En. unfold dirent_size. replace (_ + _) with ((Z.of_nat (length files) + 2 + Z.of_nat (pad files)) * 16) by lia. by apply Z.mod_mul.
  - intros i de Ha Ht. rewrite (padded_dir i Ha Ht), padded_ents. intros Hde Hn.
    assert (Hal : allocated msb v (de_inum de)); [| split; [done | by apply padded_link]]. apply padded_alloc.
    apply elem_of_app in Hde as [Hde | ->%elem_of_replicate_inv]; [| done]. unfold root_entries in Hde.
    apply elem_of_cons in Hde as [-> | [-> | Hde]%elem_of_cons]; [cbn; lia | cbn; lia |]. apply list_elem_of_lookup in Hde as (k & Hk).
    pose proof (lookup_lt_Some _ _ _ Hk) as Hl. rewrite length_entries, length_fmap in Hl. destruct (lookup_lt_is_Some_2 (fst <$> files) k) as [n Hnm]; [by rewrite length_fmap |].
    rewrite (entries_lookup _ _ _ Hnm) in Hk. injection Hk as <-. cbn. lia.
Qed.

Lemma padded_walk k name c : good_names (fst <$> files) -> files !! k = Some (name, c) -> walk_path msb v false ROOTINO [name] = Some (2 + Z.of_nat k).
Proof.
  intros Hg Hk. cbn [walk_path]. change ROOTINO with 1. rewrite (if_type _ _ _ _ padded_root). cbn [Z.eqb negb andb]. unfold dir_find. rewrite padded_ents.
  destruct (find_entry (fst <$> files) k name (pad files) (D := is_entry_dec name) Hg) as (j & ->); [by rewrite list_lookup_fmap, Hk | rewrite length_fmap; unfold NINODES in *; lia | done].
Qed.

Lemma padded_boot : sb_of (v 1) = msb /\ hdr_n (v 2) = 0.
Proof. rewrite !(md_boot _ _ _ M) by done. by split. Qed.

End Made.

(** ** The kernel mounts the image *)

Section Mount.
Context (start nlog : Z) `{PF : Platform} `{PA : Patience} `{BD : !BlockDev} `{BO : !BlockDevOk BD} `{LY : !layout start nlog}.

Lemma readsb_run me s v : bio me s v ∅ ∅ -> 1 < nblocks ->
  exists s', readsb ROOTDEV s = Ok tt s' /\ bio me s' v ∅ ∅ /\ kn_sb s' = sb_of (v 1) /\ kn_log s' = kn_log s /\ forall c, dv s' c = dv s c.
Proof.
  intros Hb Hn. assert (Hv : v 1 = dv s 1) by (eapply cst_clean; [by apply cst_start | lia | set_solver | set_solver]).
  destruct (bread_run me s v ∅ ∅ 1 Hb ltac:(lia) (lookup_empty _)) as (i & s1 & E1 & B1 & F1 & D1).
  { right. rewrite dom_empty_L, union_empty_l_L, size_empty. unfold NBUF. lia. }
  set (s2 := set_kn_sb (sb_of (v 1)) s1). assert (B2 : bio me s2 v (<[1 := i]> ∅) ∅).
  { destruct B1 as [C1 C2 C3 C4]. split; try done. by eapply disk_ok_same. }
  destruct (brelse_run me s2 v (<[1 := i]> ∅) ∅ 1 i B2 (lookup_insert_eq _ _ _)) as (s3 & E3 & B3 & F3 & D3).
  { right. change (dv s2 1) with (dv s1 1). by rewrite D1. }
  exists s3. split; [| split_and!].
  - unfold readsb. rewrite (bind_ok _ _ _ _ _ E1). unfold data, getb, gets, bind at 1 2, ret, modify. cbn [obind].
    rewrite (held_data _ _ _ _ _ _ _ B1 (lookup_insert_eq _ _ _)). unfold bind. cbn [obind]. exact E3.
  - by rewrite delete_insert_id in B3.
  - rewrite (bf_sb _ _ F3). done.
  - rewrite (bf_log _ _ F3). apply (bf_log _ _ F1).
  - intros c. rewrite D3. change (dv s2 c) with (dv s1 c). apply D1.
Qed.

(** [fsinit] on a disk with an empty log. *)
Lemma fsinit_run me s v : bio me s v ∅ ∅ -> 1 < nblocks -> sb_magic (sb_of (dv s 1)) = FSMAGIC -> sb_logstart (sb_of (dv s 1)) = start ->
  sb_nlog (sb_of (dv s 1)) = nlog -> hdr_n (dv s start) = 0 -> length (lh_block (kn_log s)) = Z.to_nat LOGSIZE ->
  lg_outstanding (kn_log s) = 0 -> lg_committing (kn_log s) = 0 ->
  match fsinit ROOTDEV s with
  | Ok _ s' => kn_sb s' = sb_of (dv s 1) /\ quiescent start nlog me s' /\ home_eq start nlog (dv s') (dv s)
  | Panic msg _ => msg = "power off"%string
  | _ => False
  end.
Proof.
  intros Hb Hn Hmg Hst Hnl Hh Hlen Ho Hc. assert (Hv : v 1 = dv s 1) by (eapply cst_clean; [by apply cst_start | lia | set_solver | set_solver]).
  destruct (readsb_run me s v Hb Hn) as (s1 & E1 & B1 & S1 & L1 & D1). rewrite Hv in S1.
  unfold fsinit. rewrite (bind_ok _ _ _ _ _ E1). unfold bind, getsb, gets. cbn [obind]. rewrite S1, Hmg, Z.eqb_refl. cbn [negb].
  assert (Eh : hdr_blocks (dv s1 start) = []) by (unfold hdr_blocks; by rewrite D1, Hh).
  assert (Hr : forall c, recovered start (dv s1) c = dv s c) by (intros c; unfold recovered, rec_of; rewrite Eh; apply D1).
  assert (Hok : hdr_ok start nlog (dv s1)).
  { pose proof (ly_size start nlog). split; [by rewrite D1, Hh |]. rewrite Eh. split; cbn; [constructor | constructor | done | lia]. }
  rewrite <- L1 in Hlen, Ho, Hc. pose proof (initlog_run start nlog me s1 v (sb_of (dv s 1)) B1 Hst Hnl Hlen Ho Hc Hok) as H.
  destruct (initlog _ _ s1) as [u s' | msg s' | | |]; simpl in H; [| apply H | done..].
  destruct H as (Q & He & Hs). split_and!; [congruence | done |]. intros c Hc'. rewrite (He c Hc'). apply Hr.
Qed.

End Mount.

(** ** The theorem *)

(** C6: mkfs makes a file system, and the kernel mounts it. For any files that
    fit and do not fill the last block of the root directory, [main] returns, and the image it wrote is a consistent tree: every inode
    is a well-formed file, no block has two owners, the bitmap marks every block in
    use, and directory entries lead to allocated inodes. Each file is found under
    its name in the root directory and holds the bytes that were read. On a disk
    with this image [fsinit] returns with the superblock of mkfs and a log with
    nothing to recover, unless the power fails. *)
Theorem mkfs_boots `{PF : Platform} `{PA : Patience} `{BD : !BlockDev} `{BO : !BlockDevOk BD} `{LY : !layout 2 Mkfs.nlog}
    (host : list Z -> option (list (list Z))) (arg0 : list Z) (argv : list (list Z)) (files : list (list Z * list Z))
    (Hsize : FSSIZE <= nblocks) (Hsrc : Forall2 (source host) argv files) (Hfit : fits files) (Hnames : good_names (fst <$> files)) :
  exists s v, main host (arg0 :: argv) mkfs0 = Ok tt s /\ mk_len s = FSSIZE /\
    (forall b, 0 <= b < FSSIZE -> default zeroes (mk_img s !! b) = v b) /\ tree msb v /\
    (forall k name c, files !! k = Some (name, c) ->
       walk_path msb v false ROOTINO [name] = Some (2 + Z.of_nat k) /\
       i_type (dinode msb v (2 + Z.of_nat k)) = T_FILE /\ contents v (dinode msb v (2 + Z.of_nat k)) = c) /\
    forall me k w, bio me k w ∅ ∅ -> (forall b, 0 <= b < FSSIZE -> dv k b = v b) ->
      length (lh_block (kn_log k)) = Z.to_nat LOGSIZE -> lg_outstanding (kn_log k) = 0 -> lg_committing (kn_log k) = 0 ->
      match fsinit ROOTDEV k with
      | Ok _ k' => kn_sb k' = msb /\ quiescent 2 Mkfs.nlog me k' /\ home_eq 2 Mkfs.nlog (dv k') (dv k)
      | Panic msg _ => msg = "power off"%string
      | _ => False
      end.
Proof.
  destruct (main_run Hsize host arg0 argv files Hsrc Hfit) as (s & s0 & v & E & Hl & Hv & M). pose proof (ft_inodes _ Hfit) as Hi.
  destruct (padded_boot files s0 v M) as [Hsb Hh]. exists s, v. split_and!; [done | done | done | by apply (padded_tree files s0) | |].
  - intros k name c Hk. pose proof (padded_file files s0 v M k name c Hk) as F.
    split_and!; [by apply (padded_walk files s0 v M Hi k name c) | apply F | apply F].
  - intros me k w Hb Hd Hlen Ho Hc. assert (H1 : 1 < nblocks) by (unfold FSSIZE in Hsize; lia).
    assert (E1 : sb_of (dv k 1) = msb) by (rewrite (Hd 1) by (unfold FSSIZE; lia); exact Hsb).
    assert (E2 : hdr_n (dv k 2) = 0) by (rewrite (Hd 2) by (unfold FSSIZE; lia); exact Hh). clear Hsb Hh.
    pose proof (fsinit_run 2 Mkfs.nlog me k w Hb H1) as H. rewrite E1 in H. clear E1. exact (H eq_refl eq_refl eq_refl E2 Hlen Ho Hc).
Qed.

(** A disk of the size of the image, and two files for it. *)
Definition image_dev : BlockDevOk ram_rw := ram_dev (Z.to_nat FSSIZE).

Lemma image_nblocks : nblocks (BlockDevOk := image_dev) = FSSIZE.
Proof. change (Z.of_nat (Z.to_nat FSSIZE) = FSSIZE). apply Z2Nat.id. unfold FSSIZE. lia. Qed.

Lemma image_layout : layout (PF := ram_platform) (BO := image_dev) 2 Mkfs.nlog.
Proof. split; rewrite ?image_nblocks; unfold FSSIZE; change Mkfs.nlog with 30; lia. Qed.

Definition host_sample (arg : list Z) : option (list (list Z)) :=
  if bool_decide (arg = str "user/_cat") then Some [[1; 2]; [3]] else if bool_decide (arg = str "README") then Some [str "xv6"] else None.
Definition argv_sample : list (list Z) := [str "user/_cat"; str "README"].
Definition files_sample : list (list Z * list Z) := [(str "cat", [1; 2; 3]); (str "README", str "xv6")].

Lemma argv_sample_sources : Forall2 (source host_sample) argv_sample files_sample.
Proof.
  repeat constructor; try (by apply (bool_decide_unpack _); vm_compute); try (vm_compute; discriminate).
  - exists [[1; 2]; [3]]. split_and!; [reflexivity | repeat constructor; discriminate | reflexivity].
  - exists [str "xv6"]. split_and!; [reflexivity | repeat constructor; discriminate | reflexivity].
Qed.

Lemma files_sample_fits : fits files_sample.
Proof. split; [done | repeat constructor; vm_compute; discriminate | vm_compute; discriminate | done]. Qed.

Lemma files_sample_good : good_names (fst <$> files_sample).
Proof.
  split.
  - repeat first [apply Forall_nil_2 | apply Forall_cons_2 | split | (vm_compute; lia)]; vm_compute; lia.
  - apply (bool_decide_unpack _). by vm_compute.
Qed.

Lemma mkfs_boots_witness : exists s v, main host_sample (str "fs.img" :: argv_sample) mkfs0 = Ok tt s /\
  tree (PF := ram_platform) (BO := image_dev) msb v /\ contents v (dinode msb v 2) = [1; 2; 3] /\ contents v (dinode msb v 3) = str "xv6".
Proof.
  destruct (mkfs_boots (PF := ram_platform) (PA := 0%nat) (BO := image_dev) (LY := image_layout) host_sample (str "fs.img") argv_sample files_sample
    ltac:(rewrite image_nblocks; lia) argv_sample_sources files_sample_fits files_sample_good) as (s & v & E & _ & _ & Ht & Hf & _).
  exists s, v. split; [exact E |]. split; [exact Ht |].
  split; [exact (proj2 (proj2 (Hf 0%nat _ _ eq_refl))) | exact (proj2 (proj2 (Hf 1%nat _ _ eq_refl)))].
Defined.
