(* ===== verification/Exec.v ===== *)
(** * kernel/exec.c (definitions)

    Replacing the program of a process. Argument strings are in pages of
    physical memory, as [sys_exec] puts them there. *)

From S2P Require Import Prelude Riscv Mem Bytes StringLib Spinlock Kalloc Vm Proc State Sleeplock Bio Log Uart Printf Console Fs File.

(** ** kernel/elf.h *)

Definition ELF_MAGIC : Z := 0x464C457F.
Definition ELF_PROG_LOAD : Z := 1.

Record elfhdr := mkElf {
  elf_magic : Z; elf_ident : list Z; elf_type : Z; elf_machine : Z; elf_version : Z; elf_entry : Z;
  elf_phoff : Z; elf_shoff : Z; elf_flags : Z; elf_ehsize : Z; elf_phentsize : Z; elf_phnum : Z;
  elf_shentsize : Z; elf_shnum : Z; elf_shstrndx : Z }.
Definition elfhdr_size : Z := 64.
Definition elfhdr_of (l : list Z) : elfhdr :=
  mkElf (get_u32 0 l) (slice 4 12 l) (get_u16 16 l) (get_u16 18 l) (get_u32 20 l) (getle 8 24 l)
    (getle 8 32 l) (getle 8 40 l) (get_u32 48 l) (get_u16 52 l) (get_u16 54 l) (get_u16 56 l)
    (get_u16 58 l) (get_u16 60 l) (get_u16 62 l).

Record proghdr := mkPh {
  ph_type : Z; ph_flags : Z; ph_off : Z; ph_vaddr : Z; ph_paddr : Z; ph_filesz : Z; ph_memsz : Z; ph_align : Z }.
Definition proghdr_size : Z := 56.
Definition proghdr_of (l : list Z) : proghdr :=
  mkPh (get_u32 0 l) (get_u32 4 l) (getle 8 8 l) (getle 8 16 l) (getle 8 24 l) (getle 8 32 l) (getle 8 40 l) (getle 8 48 l).

Definition flags2perm (flags : Z) : Z :=
  let perm := if truthy (Z.land flags 0x1) then PTE_X else 0 in
  if truthy (Z.land flags 0x2) then Z.lor perm PTE_W else perm.

(** [safestrcpy] into an array [s] of [n] characters. *)
Definition safestrcpy_l (s t : list Z) (n : nat) : list Z :=
  splice 0 (take (n - 1) (cstr t) ++ [0]) s.

Section Exec.
Context `{PF : Platform} `{PA : Patience} `{BD : !BlockDev} `{HI : Image} `{UN : Uninit}.

Fixpoint loadseg_loop (fuel : nat) (pagetable va : Z) (ip : nat) (offset sz i : Z) : M kern Z :=
  match fuel with
  | O => fun _ => NoFuel
  | S fuel =>
      if i <? sz then
        let* pa := lk_ (zoom Lmach (walkaddr pagetable (u64 (va + i)))) in
        if pa =? 0 then panic "loadseg: address should exist" else
        let n := if sz - i <? PGSIZE then sz - i else PGSIZE in
        let* r := readi ip false pa (u32 (offset + i)) n in
        lk_ (zoom Lmach (store_bytes pa r.2)) ;;;
        if negb (r.1 =? n) then ret (-1) else
        loadseg_loop fuel pagetable va ip offset sz (u32 (i + PGSIZE))
      else ret 0
  end.

Definition loadseg (pagetable va : Z) (ip : nat) (offset sz : Z) : M kern Z :=
  loadseg_loop (S (S (Z.to_nat (sz / PGSIZE)))) pagetable va ip offset sz 0.

(** The loop over the program headers; returns whether to go on, and [sz]. *)
Fixpoint exec_load (n : nat) (ip : nat) (pagetable off sz : Z) : M kern (bool * Z) :=
  match n with
  | O => ret (true, sz)
  | S n =>
      let* r := readi ip false 0 (u32 off) proghdr_size in
      if negb (r.1 =? proghdr_size) then ret (false, sz) else
      let ph := proghdr_of r.2 in
      if negb (ph_type ph =? ELF_PROG_LOAD) then exec_load n ip pagetable (i32 (off + proghdr_size)) sz else
      if ph_memsz ph <? ph_filesz ph then ret (false, sz) else
      if u64 (ph_vaddr ph + ph_memsz ph) <? ph_vaddr ph then ret (false, sz) else
      if negb (ph_vaddr ph mod PGSIZE =? 0) then ret (false, sz) else
      let* sz1 := lk_ (zoom Lmach (uvmalloc pagetable sz (u64 (ph_vaddr ph + ph_memsz ph)) (flags2perm (ph_flags ph)))) in
      if sz1 =? 0 then ret (false, sz) else
      let* l := loadseg pagetable (ph_vaddr ph) ip (u32 (ph_off ph)) (u32 (ph_filesz ph)) in
      if l <? 0 then ret (false, sz1) else
      exec_load n ip pagetable (i32 (off + proghdr_size)) sz1
  end.

(** Push the argument strings; [None] means [goto bad]. Returns [argc], [sp] and
    the array [ustack]. *)
Fixpoint exec_args (fuel : nat) (pagetable sp stackbase : Z) (argv : list Z) (argc : Z) (ustack : list Z)
    : M kern (option (Z * Z * list Z)) :=
  match fuel with
  | O => fun _ => NoFuel
  | S fuel =>
      let* a := arr_get argv argc in
      if truthy a then
        if Z.of_nat MAXARG <=? argc then ret None else
        let* s := kstr a in
        let len := Z.of_nat (length s) + 1 in
        let sp := u64 (sp - len) in
        let sp := sp - sp mod 16 in
        if sp <? stackbase then ret None else
        let* r := lk_ (zoom Lmach (copyout pagetable sp (s ++ [0]) len)) in
        if r <? 0 then ret None else
        let* ustack := arr_set ustack argc sp in
        exec_args fuel pagetable sp stackbase argv (argc + 1) ustack
      else
        let* ustack := arr_set ustack argc 0 in
        ret (Some (argc, sp, ustack))
  end.

(** [bad:] *)
Definition exec_bad (ip : option nat) (pagetable sz : Z) : M kern Z :=
  when (truthy pagetable) (lk_ (zoom Lmach (proc_freepagetable pagetable sz))) ;;;
  match ip with Some ip => iunlockput ip ;;; end_op | None => ret tt end ;;;
  ret (-1).

(** The part of the path after the last slash. *)
Fixpoint last_elem (last s : list Z) : list Z :=
  match s with
  | [] => last
  | c :: s => last_elem (if c =? SLASH then s else last) s
  end.

Definition set_tf (p : nat) (off v : Z) : M kern unit :=
  let* q := lk_ (getp p) in lk_ (zoom Lmach (store64 (p_trapframe q + off) v)).

(** After the program is loaded: the stack, the arguments, and the commit. *)
Definition exec_start (p : nat) (path argv : list Z) (elf : elfhdr) (pagetable sz : Z) : M kern Z :=
  let* q := lk_ (getp p) in
  let oldsz := p_sz q in
  let sz := PGROUNDUP sz in
  let* sz1 := lk_ (zoom Lmach (uvmalloc pagetable sz (u64 (sz + (USERSTACK + 1) * PGSIZE)) PTE_W)) in
  if sz1 =? 0 then exec_bad None pagetable sz else
  let sz := sz1 in
  lk_ (zoom Lmach (uvmclear pagetable (u64 (sz - (USERSTACK + 1) * PGSIZE)))) ;;;
  let stackbase := u64 (sz - USERSTACK * PGSIZE) in
  let* r := exec_args (S MAXARG) pagetable sz stackbase argv 0 (uninit MAXARG) in
  match r with
  | None => exec_bad None pagetable sz
  | Some (argc, sp, ustack) =>
      let sp := u64 (sp - (argc + 1) * 8) in
      let sp := sp - sp mod 16 in
      if sp <? stackbase then exec_bad None pagetable sz else
      let* r := lk_ (zoom Lmach (copyout pagetable sp (concat (le_bytes 8 <$> take (Z.to_nat (argc + 1)) ustack)) ((argc + 1) * 8))) in
      if r <? 0 then exec_bad None pagetable sz else
      set_tf p (TF_a 1) sp ;;;
      lk_ (updp p (fun q => set_name (safestrcpy_l (p_name q) (last_elem path path) 16) q)) ;;;
      let* q := lk_ (getp p) in
      let oldpagetable := p_pagetable q in
      lk_ (updp p (set_pagetable pagetable)) ;;;
      lk_ (updp p (set_sz sz)) ;;;
      set_tf p TF_epc (elf_entry elf) ;;;
      set_tf p TF_sp sp ;;;
      lk_ (zoom Lmach (proc_freepagetable oldpagetable oldsz)) ;;;
      ret (i32 argc)
  end.

Definition exec (path argv : list Z) : M kern Z :=
  let* p := my_index in
  begin_op ;;;
  let* ip := namei path in
  match ip with
  | None => end_op ;;; ret (-1)
  | Some ip =>
      ilock (Some ip) ;;;
      let* r := readi ip false 0 0 elfhdr_size in
      if negb (r.1 =? elfhdr_size) then exec_bad (Some ip) 0 0 else
      let elf := elfhdr_of r.2 in
      if negb (elf_magic elf =? ELF_MAGIC) then exec_bad (Some ip) 0 0 else
      let* q := lk_ (getp p) in
      let* pagetable := lk_ (zoom Lmach (proc_pagetable (p_trapframe q))) in
      if pagetable =? 0 then exec_bad (Some ip) 0 0 else
      let* r := exec_load (Z.to_nat (elf_phnum elf)) ip pagetable (i32 (elf_phoff elf)) 0 in
      let '(ok, sz) := r in
      if negb ok then exec_bad (Some ip) pagetable sz else
      iunlockput ip ;;;
      end_op ;;;
      let* p := my_index in
      exec_start p path argv elf pagetable sz
  end.

End Exec.
