(* ===== verification/Syscall.v ===== *)
(** * kernel/syscall.c: fetching system-call arguments (definitions)

    The dispatcher [syscall] is in [Trap], above the system calls. *)

From S2P Require Import Prelude Riscv Mem Bytes StringLib Spinlock Kalloc Vm Proc State Printf.

Section Syscall.
Context `{PF : Platform} `{PA : Patience} `{HI : Image}.

(** The status and the word fetched. *)
Definition fetchaddr (addr : Z) : M kern (Z * Z) :=
  let* p := my_proc in
  if (p_sz p <=? addr) || (p_sz p <? u64 (addr + 8)) then ret (-1, 0) else
  let* r := lk_ (zoom Lmach (copyin (p_pagetable p) addr 8)) in
  if negb (r.1 =? 0) then ret (-1, 0) else ret (0, of_le r.2).

(** The length or -1, and what the buffer received. *)
Definition fetchstr (addr max : Z) : M kern (Z * list Z) :=
  let* p := my_proc in
  let* r := lk_ (zoom Lmach (copyinstr (p_pagetable p) addr max)) in
  if r.1 <? 0 then ret (-1, r.2) else ret (Z.of_nat (length (cstr r.2)), r.2).

Definition argraw (n : Z) : M kern Z :=
  let* p := my_proc in
  if (0 <=? n) && (n <=? 5) then lk_ (zoom Lmach (load64 (p_trapframe p + TF_a n)))
  else panic "argraw".

Definition argint (n : Z) : M kern Z := let* x := argraw n in ret (i32 x).
Definition argaddr (n : Z) : M kern Z := argraw n.

Definition argstr (n max : Z) : M kern (Z * list Z) :=
  let* addr := argaddr n in fetchstr addr max.

End Syscall.
