(* ===== verification/ProcFs.v ===== *)
(** * kernel/proc.c: the operations that involve files (definitions)

    [userinit], [fork] and [exit], above the file system. *)

From S2P Require Import Prelude Riscv Mem Bytes StringLib Spinlock Kalloc Vm Proc State Sleeplock Bio Log Uart Printf Console Fs File Exec.

(** The first user program: exec("/init"), assembled from user/initcode.S. *)
Definition initcode : list Z :=
  [0x17; 0x05; 0x00; 0x00; 0x13; 0x05; 0x45; 0x02;
   0x97; 0x05; 0x00; 0x00; 0x93; 0x85; 0x35; 0x02;
   0x93; 0x08; 0x70; 0x00; 0x73; 0x00; 0x00; 0x00;
   0x93; 0x08; 0x20; 0x00; 0x73; 0x00; 0x00; 0x00;
   0xef; 0xf0; 0x9f; 0xff; 0x2f; 0x69; 0x6e; 0x69;
   0x74; 0x00; 0x00; 0x24; 0x00; 0x00; 0x00; 0x00;
   0x00; 0x00; 0x00; 0x00].

Section ProcFs.
Context `{PF : Platform} `{PA : Patience} `{BD : !BlockDev} `{HI : Image} `{HT : KText} `{UN : Uninit}.

Definition userinit : M kern unit :=
  let* p := lk_ allocproc in
  lk_ (modify (set_initproc p)) ;;;
  match p with
  | None => kfault
  | Some p =>
      let* q := lk_ (getp p) in
      lk_ (zoom Lmach (uvmfirst (p_pagetable q) initcode (Z.of_nat (length initcode)))) ;;;
      lk_ (updp p (set_sz PGSIZE)) ;;;
      set_tf p TF_epc 0 ;;;
      set_tf p TF_sp PGSIZE ;;;
      lk_ (updp p (fun q => set_name (safestrcpy_l (p_name q) (str "initcode") 16) q)) ;;;
      let* ip := namei (str "/") in
      lk_ (updp p (set_cwd ip)) ;;;
      lk_ (updp p (set_state RUNNABLE)) ;;;
      lk_ (rel (ProcLock p))
  end.

(** The loop that shares the parent's open files. *)
Fixpoint fork_files (n i : nat) (p np : nat) : M kern unit :=
  match n with
  | O => ret tt
  | S n =>
      let* q := lk_ (getp p) in
      match mjoin (p_ofile q !! i) with
      | Some f =>
          let* f := filedup f in
          lk_ (updp np (fun q => set_ofile (<[i := Some f]> (p_ofile q)) q))
      | None => ret tt
      end ;;;
      fork_files n (S i) p np
  end.

Definition fork : M kern Z :=
  let* p := my_index in
  let* np := lk_ allocproc in
  match np with
  | None => ret (-1)
  | Some np =>
      let* q := lk_ (getp p) in
      let* nq := lk_ (getp np) in
      let* r := lk_ (zoom Lmach (uvmcopy (p_pagetable q) (p_pagetable nq) (p_sz q))) in
      if r <? 0 then
        lk_ (freeproc np) ;;;
        lk_ (rel (ProcLock np)) ;;;
        ret (-1)
      else
        lk_ (updp np (set_sz (p_sz q))) ;;;
        lk_ (zoom Lmach (memmove_m (p_trapframe nq) (p_trapframe q) TF_size)) ;;;
        set_tf np (TF_a 0) 0 ;;;
        fork_files NOFILE 0 p np ;;;
        let* q := lk_ (getp p) in
        let* ip := (match p_cwd q with Some ip => idup ip | None => kfault end) in
        lk_ (updp np (set_cwd (Some ip))) ;;;
        lk_ (updp np (fun nq => set_name (safestrcpy_l (p_name nq) (p_name q) 16) nq)) ;;;
        let* nq := lk_ (getp np) in
        let pid := p_pid nq in
        lk_ (rel (ProcLock np)) ;;;
        lk_ (acq WaitLock) ;;;
        lk_ (updp np (set_parent (Some p))) ;;;
        lk_ (rel WaitLock) ;;;
        lk_ (acq (ProcLock np)) ;;;
        lk_ (updp np (set_state RUNNABLE)) ;;;
        lk_ (rel (ProcLock np)) ;;;
        ret pid
  end.

(** The loop that closes the open files. *)
Fixpoint exit_files (n i : nat) (p : nat) : M kern unit :=
  match n with
  | O => ret tt
  | S n =>
      let* q := lk_ (getp p) in
      match mjoin (p_ofile q !! i) with
      | Some f =>
          fileclose f ;;;
          lk_ (updp p (fun q => set_ofile (<[i := None]> (p_ofile q)) q))
      | None => ret tt
      end ;;;
      exit_files n (S i) p
  end.

Definition exit {A} (status : Z) : M kern A :=
  let* p := my_index in
  let* init := lk_ (gets k_initproc) in
  if bool_decide (Some p = init) then panic "init exiting" else
  exit_files NOFILE 0 p ;;;
  begin_op ;;;
  let* q := lk_ (getp p) in
  match p_cwd q with Some ip => iput ip | None => kfault end ;;;
  end_op ;;;
  lk_ (updp p (set_cwd None)) ;;;
  lk_ (acq WaitLock) ;;;
  lk_ (reparent p) ;;;
  let* q := lk_ (getp p) in
  lk_ (wakeup (match p_parent q with Some pp => ChProc pp | None => ChNone end)) ;;;
  lk_ (acq (ProcLock p)) ;;;
  lk_ (updp p (set_xstate status)) ;;;
  lk_ (updp p (set_state ZOMBIE)) ;;;
  lk_ (rel WaitLock) ;;;
  lk_ sched ;;;
  panic "zombie exit".

End ProcFs.
