(* ===== verification/Sysfile.v ===== *)
(** * kernel/sysfile.c: the file-system calls (definitions)

    A system call's result is the C return value; [syscall] stores it in [a0] as
    64 bits. A path is the C string in the buffer [argstr] filled. *)

From S2P Require Import Prelude Riscv Mem Bytes StringLib Spinlock Kalloc Vm Proc State Sleeplock Bio Log Uart Printf Console Fs File Exec Syscall.

(** ** kernel/fcntl.h *)

Definition O_RDONLY : Z := 0x000.
Definition O_WRONLY : Z := 0x001.
Definition O_RDWR : Z := 0x002.
Definition O_CREATE : Z := 0x200.
Definition O_TRUNC : Z := 0x400.

Section Sysfile.
Context `{PF : Platform} `{PA : Patience} `{BD : !BlockDev} `{HI : Image} `{UN : Uninit}.

(** ** Descriptors *)

(** The descriptor and the file, or an error. *)
Definition argfd (n : Z) : M kern (option (Z * nat)) :=
  let* fd := argint n in
  if (fd <? 0) || (Z.of_nat NOFILE <=? fd) then ret None else
  let* p := my_proc in
  ret (match mjoin (p_ofile p !! Z.to_nat fd) with Some f => Some (fd, f) | None => None end).

Definition set_fd (p : nat) (fd : Z) (f : option nat) : M kern unit :=
  lk_ (updp p (fun q => set_ofile (<[Z.to_nat fd := f]> (p_ofile q)) q)).

Fixpoint fdalloc_loop (n : nat) (p : nat) (fd : Z) (f : nat) : M kern Z :=
  match n with
  | O => ret (-1)
  | S n =>
      let* q := lk_ (getp p) in
      match mjoin (p_ofile q !! Z.to_nat fd) with
      | None => set_fd p fd (Some f) ;;; ret fd
      | Some _ => fdalloc_loop n p (fd + 1) f
      end
  end.

Definition fdalloc (f : nat) : M kern Z :=
  let* p := my_index in fdalloc_loop NOFILE p 0 f.

Definition sys_dup : M kern Z :=
  let* a := argfd 0 in
  match a with
  | None => ret (-1)
  | Some (_, f) =>
      let* fd := fdalloc f in
      if fd <? 0 then ret (-1) else
      filedup f ;;;
      ret fd
  end.

Definition sys_read : M kern Z :=
  let* p := argaddr 1 in
  let* n := argint 2 in
  let* a := argfd 0 in
  match a with
  | None => ret (-1)
  | Some (_, f) => fileread f p n
  end.

Definition sys_write : M kern Z :=
  let* p := argaddr 1 in
  let* n := argint 2 in
  let* a := argfd 0 in
  match a with
  | None => ret (-1)
  | Some (_, f) => filewrite f p n
  end.

Definition sys_close : M kern Z :=
  let* a := argfd 0 in
  match a with
  | None => ret (-1)
  | Some (fd, f) =>
      let* p := my_index in
      set_fd p fd None ;;;
      fileclose f ;;;
      ret 0
  end.

Definition sys_fstat : M kern Z :=
  let* st := argaddr 1 in
  let* a := argfd 0 in
  match a with
  | None => ret (-1)
  | Some (_, f) => filestat f st
  end.

(** ** Links *)

Definition name_buf : list Z := uninit (Z.to_nat DIRSIZ).

(** [bad:] of [sys_link] *)
Definition sys_link_bad (ip : nat) : M kern Z :=
  ilock (Some ip) ;;;
  upd_inode ip (fun x => set_i_nlink (i16 (i_nlink x - 1)) x) ;;;
  iupdate ip ;;;
  iunlockput ip ;;;
  end_op ;;;
  ret (-1).

Definition sys_link : M kern Z :=
  let* old := argstr 0 MAXPATH in
  if old.1 <? 0 then ret (-1) else
  let* new := argstr 1 MAXPATH in
  if new.1 <? 0 then ret (-1) else
  begin_op ;;;
  let* ip := namei (cstr old.2) in
  match ip with
  | None => end_op ;;; ret (-1)
  | Some ip =>
      ilock (Some ip) ;;;
      let* x := geti ip in
      if i_type x =? T_DIR then iunlockput ip ;;; end_op ;;; ret (-1) else
      upd_inode ip (fun x => set_i_nlink (i16 (i_nlink x + 1)) x) ;;;
      iupdate ip ;;;
      iunlock (Some ip) ;;;
      let* r := nameiparent (cstr new.2) name_buf in
      match r with
      | (None, _) => sys_link_bad ip
      | (Some dp, name) =>
          ilock (Some dp) ;;;
          let* d := geti dp in
          let* x := geti ip in
          let* l := (if negb (i_dev d =? i_dev x) then ret (-1) else dirlink dp name (i_inum x)) in
          if l <? 0 then iunlockput dp ;;; sys_link_bad ip else
          iunlockput dp ;;;
          iput ip ;;;
          end_op ;;;
          ret 0
      end
  end.

Fixpoint isdirempty_loop (fuel : nat) (dp : nat) (off : Z) : M kern bool :=
  match fuel with
  | O => fun _ => NoFuel
  | S fuel =>
      let* x := geti dp in
      if off <? i_size x then
        let* r := readi dp false 0 off dirent_size in
        if negb (r.1 =? dirent_size) then panic "isdirempty: readi" else
        if negb (de_inum (dirent_of r.2) =? 0) then ret false
        else isdirempty_loop fuel dp (off + dirent_size)
      else ret true
  end.

Definition isdirempty (dp : nat) : M kern bool :=
  let* x := geti dp in
  isdirempty_loop (S (S (Z.to_nat (i_size x / dirent_size)))) dp (2 * dirent_size).

(** [bad:] of [sys_unlink] *)
Definition sys_unlink_bad (dp : nat) : M kern Z :=
  iunlockput dp ;;; end_op ;;; ret (-1).

Definition sys_unlink : M kern Z :=
  let* path := argstr 0 MAXPATH in
  if path.1 <? 0 then ret (-1) else
  begin_op ;;;
  let* r := nameiparent (cstr path.2) name_buf in
  match r with
  | (None, _) => end_op ;;; ret (-1)
  | (Some dp, name) =>
      ilock (Some dp) ;;;
      if (namecmp name (str ".") =? 0) || (namecmp name (str "..") =? 0) then sys_unlink_bad dp else
      let* e := dirlookup dp name in
      match e with
      | None => sys_unlink_bad dp
      | Some (ip, off) =>
          ilock (Some ip) ;;;
          let* x := geti ip in
          if i_nlink x <? 1 then panic "unlink: nlink < 1" else
          let* empty := (if i_type x =? T_DIR then isdirempty ip else ret true) in
          if negb empty then iunlockput ip ;;; sys_unlink_bad dp else
          let* w := writei dp (KSrc (replicate (Z.to_nat dirent_size) 0)) off dirent_size in
          if negb (w =? dirent_size) then panic "unlink: writei" else
          let* x := geti ip in
          when (i_type x =? T_DIR)
            (upd_inode dp (fun x => set_i_nlink (i16 (i_nlink x - 1)) x) ;;;
             iupdate dp) ;;;
          iunlockput dp ;;;
          upd_inode ip (fun x => set_i_nlink (i16 (i_nlink x - 1)) x) ;;;
          iupdate ip ;;;
          iunlockput ip ;;;
          end_op ;;;
          ret 0
      end
  end.

(** ** Creation *)

(** [fail:] of [create] *)
Definition create_fail (ip dp : nat) : M kern (option nat) :=
  upd_inode ip (set_i_nlink 0) ;;;
  iupdate ip ;;;
  iunlockput ip ;;;
  iunlockput dp ;;;
  ret None.

Definition create (path : list Z) (type major minor : Z) : M kern (option nat) :=
  let* r := nameiparent path name_buf in
  match r with
  | (None, _) => ret None
  | (Some dp, name) =>
      ilock (Some dp) ;;;
      let* e := dirlookup dp name in
      match e with
      | Some (ip, _) =>
          iunlockput dp ;;;
          ilock (Some ip) ;;;
          let* x := geti ip in
          if (type =? T_FILE) && ((i_type x =? T_FILE) || (i_type x =? T_DEVICE)) then ret (Some ip) else
          iunlockput ip ;;;
          ret None
      | None =>
          let* d := geti dp in
          let* ip := ialloc (i_dev d) type in
          match ip with
          | None => iunlockput dp ;;; ret None
          | Some ip =>
              ilock (Some ip) ;;;
              upd_inode ip (set_i_major major) ;;;
              upd_inode ip (set_i_minor minor) ;;;
              upd_inode ip (set_i_nlink 1) ;;;
              iupdate ip ;;;
              let* x := geti ip in
              let* dots :=
                (if type =? T_DIR then
                   let* l := dirlink ip (str ".") (i_inum x) in
                   if l <? 0 then ret (-1) else
                   let* d := geti dp in
                   dirlink ip (str "..") (i_inum d)
                 else ret 0) in
              if dots <? 0 then create_fail ip dp else
              let* x := geti ip in
              let* l := dirlink dp name (i_inum x) in
              if l <? 0 then create_fail ip dp else
              when (type =? T_DIR)
                (upd_inode dp (fun x => set_i_nlink (i16 (i_nlink x + 1)) x) ;;;
                 iupdate dp) ;;;
              iunlockput dp ;;;
              ret (Some ip)
          end
      end
  end.

(** Give up the inode and the transaction. *)
Definition sys_open_bad (ip : nat) : M kern Z :=
  iunlockput ip ;;; end_op ;;; ret (-1).

(** [sys_open] from the inode, locked, on. *)
Definition sys_open_file (ip : nat) (omode : Z) : M kern Z :=
  let* x := geti ip in
  if (i_type x =? T_DEVICE) && ((i_major x <? 0) || (NDEV <=? i_major x)) then sys_open_bad ip else
  let* f := filealloc in
  match f with
  | None => sys_open_bad ip
  | Some f =>
      let* fd := fdalloc f in
      if fd <? 0 then fileclose f ;;; sys_open_bad ip else
      let* x := geti ip in
      (if i_type x =? T_DEVICE then
         updf f (set_f_type FD_DEVICE) ;;;
         updf f (set_f_major (i_major x))
       else
         updf f (set_f_type FD_INODE) ;;;
         updf f (set_f_off 0)) ;;;
      updf f (set_f_ip (Some ip)) ;;;
      updf f (set_f_readable (b2z (negb (truthy (Z.land omode O_WRONLY))))) ;;;
      updf f (set_f_writable (b2z (truthy (Z.land omode O_WRONLY) || truthy (Z.land omode O_RDWR)))) ;;;
      when (truthy (Z.land omode O_TRUNC) && (i_type x =? T_FILE)) (itrunc ip) ;;;
      iunlock (Some ip) ;;;
      end_op ;;;
      ret fd
  end.

Definition sys_open : M kern Z :=
  let* omode := argint 1 in
  let* path := argstr 0 MAXPATH in
  if path.1 <? 0 then ret (-1) else
  begin_op ;;;
  if truthy (Z.land omode O_CREATE) then
    let* ip := create (cstr path.2) T_FILE 0 0 in
    match ip with
    | None => end_op ;;; ret (-1)
    | Some ip => sys_open_file ip omode
    end
  else
    let* ip := namei (cstr path.2) in
    match ip with
    | None => end_op ;;; ret (-1)
    | Some ip =>
        ilock (Some ip) ;;;
        let* x := geti ip in
        if (i_type x =? T_DIR) && negb (omode =? O_RDONLY) then sys_open_bad ip
        else sys_open_file ip omode
    end.

Definition sys_mkdir : M kern Z :=
  begin_op ;;;
  let* path := argstr 0 MAXPATH in
  if path.1 <? 0 then end_op ;;; ret (-1) else
  let* ip := create (cstr path.2) T_DIR 0 0 in
  match ip with
  | None => end_op ;;; ret (-1)
  | Some ip => iunlockput ip ;;; end_op ;;; ret 0
  end.

(** The [int] arguments are passed to [create] as [short]. *)
Definition sys_mknod : M kern Z :=
  begin_op ;;;
  let* major := argint 1 in
  let* minor := argint 2 in
  let* path := argstr 0 MAXPATH in
  if path.1 <? 0 then end_op ;;; ret (-1) else
  let* ip := create (cstr path.2) T_DEVICE (i16 major) (i16 minor) in
  match ip with
  | None => end_op ;;; ret (-1)
  | Some ip => iunlockput ip ;;; end_op ;;; ret 0
  end.

Definition sys_chdir : M kern Z :=
  let* p := my_index in
  begin_op ;;;
  let* path := argstr 0 MAXPATH in
  if path.1 <? 0 then end_op ;;; ret (-1) else
  let* ip := namei (cstr path.2) in
  match ip with
  | None => end_op ;;; ret (-1)
  | Some ip =>
      ilock (Some ip) ;;;
      let* x := geti ip in
      if negb (i_type x =? T_DIR) then iunlockput ip ;;; end_op ;;; ret (-1) else
      iunlock (Some ip) ;;;
      let* q := lk_ (getp p) in
      match p_cwd q with Some cwd => iput cwd | None => kfault end ;;;
      end_op ;;;
      lk_ (updp p (set_cwd (Some ip))) ;;;
      ret 0
  end.

(** ** exec and pipe *)

(** The loop that copies the argument strings, each to a page of its own;
    [false] means [goto bad]. Returns [argv]. *)
Fixpoint fetch_argv (n : nat) (uargv i : Z) (argv : list Z) : M kern (bool * list Z) :=
  match n with
  | O => ret (false, argv)
  | S n =>
      let* a := fetchaddr (u64 (uargv + 8 * i)) in
      if a.1 <? 0 then ret (false, argv) else
      if a.2 =? 0 then ret (true, <[Z.to_nat i := 0]> argv) else
      let* pg := lk_ (zoom Lmach kalloc) in
      let argv := <[Z.to_nat i := pg]> argv in
      if pg =? 0 then ret (false, argv) else
      let* r := fetchstr a.2 PGSIZE in
      lk_ (zoom Lmach (store_bytes pg r.2)) ;;;
      if r.1 <? 0 then ret (false, argv) else fetch_argv n uargv (i + 1) argv
  end.

Fixpoint free_argv (argv : list Z) : M kern unit :=
  match argv with
  | [] => ret tt
  | a :: argv => if a =? 0 then ret tt else lk_ (zoom Lmach (kfree a)) ;;; free_argv argv
  end.

Definition sys_exec : M kern Z :=
  let* uargv := argaddr 1 in
  let* path := argstr 0 MAXPATH in
  if path.1 <? 0 then ret (-1) else
  let* r := fetch_argv MAXARG uargv 0 (replicate MAXARG 0) in
  if negb r.1 then free_argv r.2 ;;; ret (-1) else
  let* x := exec (cstr path.2) r.2 in
  free_argv r.2 ;;;
  ret x.

Definition sys_pipe : M kern Z :=
  let* p := my_index in
  let* fdarray := argaddr 0 in
  let* r := pipealloc in
  match r with
  | None => ret (-1)
  | Some (rf, wf) =>
      let* fd0 := fdalloc rf in
      let* fd1 := (if fd0 <? 0 then ret (-1) else fdalloc wf) in
      if fd1 <? 0 then
        when (0 <=? fd0) (set_fd p fd0 None) ;;;
        fileclose rf ;;;
        fileclose wf ;;;
        ret (-1)
      else
        let* q := lk_ (getp p) in
        let* c0 := lk_ (zoom Lmach (copyout (p_pagetable q) fdarray (int_bytes fd0) 4)) in
        let* c1 := (if c0 <? 0 then ret (-1)
                    else lk_ (zoom Lmach (copyout (p_pagetable q) (u64 (fdarray + 4)) (int_bytes fd1) 4))) in
        if c1 <? 0 then
          set_fd p fd0 None ;;;
          set_fd p fd1 None ;;;
          fileclose rf ;;;
          fileclose wf ;;;
          ret (-1)
        else ret 0
  end.

End Sysfile.
