(* ===== verification/Sysproc.v ===== *)
(** * kernel/sysproc.c: the process calls (definitions) *)

From S2P Require Import Prelude Riscv Mem Bytes StringLib Spinlock Kalloc Vm Proc State Sleeplock Bio Log Uart Printf Console Fs File Exec Syscall ProcFs Sysfile.

Section Sysproc.
Context `{PF : Platform} `{PA : Patience} `{BD : !BlockDev} `{HI : Image} `{HT : KText} `{UN : Uninit}.

Definition sys_exit : M kern Z := let* n := argint 0 in exit n.

Definition sys_getpid : M kern Z := let* p := my_proc in ret (p_pid p).

Definition sys_fork : M kern Z := fork.

Definition sys_wait : M kern Z :=
  let* p := argaddr 0 in lk_ (wait (S patience) p).

Definition sys_sbrk : M kern Z :=
  let* n := argint 0 in
  let* p := my_proc in
  let addr := p_sz p in
  let* r := lk_ (growproc n) in
  if r <? 0 then ret (-1) else ret addr.

(** [ticks - ticks0 < n] compares unsigned ints. *)
Fixpoint sys_sleep_loop (fuel : nat) (ticks0 n : Z) : M kern Z :=
  match fuel with
  | O => fun _ => NoFuel
  | S fuel =>
      let* ticks := lk_ (gets k_ticks) in
      if u32 (ticks - ticks0) <? u32 n then
        let* p := my_index in
        let* k := lk_ (killed p) in
        if truthy k then lk_ (rel TicksLock) ;;; ret (-1) else
        lk_ (sleep ChTicks TicksLock) ;;;
        sys_sleep_loop fuel ticks0 n
      else lk_ (rel TicksLock) ;;; ret 0
  end.

Definition sys_sleep : M kern Z :=
  let* n := argint 0 in
  let n := if n <? 0 then 0 else n in
  lk_ (acq TicksLock) ;;;
  let* ticks0 := lk_ (gets k_ticks) in
  sys_sleep_loop (S patience) ticks0 n.

Definition sys_kill : M kern Z := let* pid := argint 0 in lk_ (kill pid).

Definition sys_uptime : M kern Z :=
  lk_ (acq TicksLock) ;;;
  let* xticks := lk_ (gets k_ticks) in
  lk_ (rel TicksLock) ;;;
  ret xticks.

Definition sys_ps : M kern Z :=
  let* argc := argint 0 in
  let* uargv := argaddr 1 in
  let* r := fetch_argv MAXARG uargv 0 (replicate MAXARG 0) in
  if negb r.1 then free_argv r.2 ;;; ret (-1) else
  let* x := ps argc r.2 in
  free_argv r.2 ;;;
  ret x.

End Sysproc.
