(* ===== verification/Virtio.v ===== *)
(** * kernel/virtio_disk.c: the disk driver (definitions)

    The descriptor table and the rings are shared with the device. The addresses
    the driver stores in descriptors are of three kinds ([daddr]): a command
    header, a buffer's data, a status byte. *)

From S2P Require Import Prelude Riscv Mem Bytes StringLib Spinlock Kalloc Vm Proc State Sleeplock Bio.

(** ** kernel/virtio.h *)

Definition VIRTIO_MMIO_MAGIC_VALUE : Z := 0x000.
Definition VIRTIO_MMIO_VERSION : Z := 0x004.
Definition VIRTIO_MMIO_DEVICE_ID : Z := 0x008.
Definition VIRTIO_MMIO_VENDOR_ID : Z := 0x00c.
Definition VIRTIO_MMIO_DEVICE_FEATURES : Z := 0x010.
Definition VIRTIO_MMIO_DRIVER_FEATURES : Z := 0x020.
Definition VIRTIO_MMIO_QUEUE_SEL : Z := 0x030.
Definition VIRTIO_MMIO_QUEUE_NUM_MAX : Z := 0x034.
Definition VIRTIO_MMIO_QUEUE_NUM : Z := 0x038.
Definition VIRTIO_MMIO_QUEUE_READY : Z := 0x044.
Definition VIRTIO_MMIO_QUEUE_NOTIFY : Z := 0x050.
Definition VIRTIO_MMIO_INTERRUPT_STATUS : Z := 0x060.
Definition VIRTIO_MMIO_INTERRUPT_ACK : Z := 0x064.
Definition VIRTIO_MMIO_STATUS : Z := 0x070.
Definition VIRTIO_MMIO_QUEUE_DESC_LOW : Z := 0x080.
Definition VIRTIO_MMIO_QUEUE_DESC_HIGH : Z := 0x084.
Definition VIRTIO_MMIO_DRIVER_DESC_LOW : Z := 0x090.
Definition VIRTIO_MMIO_DRIVER_DESC_HIGH : Z := 0x094.
Definition VIRTIO_MMIO_DEVICE_DESC_LOW : Z := 0x0a0.
Definition VIRTIO_MMIO_DEVICE_DESC_HIGH : Z := 0x0a4.
Definition VIRTIO_CONFIG_S_ACKNOWLEDGE : Z := 1.
Definition VIRTIO_CONFIG_S_DRIVER : Z := 2.
Definition VIRTIO_CONFIG_S_DRIVER_OK : Z := 4.
Definition VIRTIO_CONFIG_S_FEATURES_OK : Z := 8.
Definition VIRTIO_BLK_F_RO : Z := 5.
Definition VIRTIO_BLK_F_SCSI : Z := 7.
Definition VIRTIO_BLK_F_CONFIG_WCE : Z := 11.
Definition VIRTIO_BLK_F_MQ : Z := 12.
Definition VIRTIO_F_ANY_LAYOUT : Z := 27.
Definition VIRTIO_RING_F_INDIRECT_DESC : Z := 28.
Definition VIRTIO_RING_F_EVENT_IDX : Z := 29.
Definition NUM : nat := 8.
Definition VRING_DESC_F_NEXT : Z := 1.
Definition VRING_DESC_F_WRITE : Z := 2.
Definition VIRTIO_BLK_T_IN : Z := 0.
Definition VIRTIO_BLK_T_OUT : Z := 1.

Definition R (r : Z) : Z := VIRTIO0 + r.

Section Virtio.
Context `{PF : Platform} `{PA : Patience} `{HI : Image}.

Definition getvd : M kern vdisk := gets (fun s => io_vd (kn_io s)).
Definition upd_vd (f : vdisk -> vdisk) : M kern unit := upd_io (fun io => set_io_vd (f (io_vd io)) io).
Definition ReadR (r : Z) : M kern Z := let* v := mmio_read (R r) in ret (u32 v).
Definition WriteR (r v : Z) : M kern unit := mmio_write (R r) (u32 v).

(** [features &= ~(1 << b)] *)
Definition clear_feature (b : Z) (features : Z) : Z := Z.land features (u64 (Z.lnot (Z.shiftl 1 b))).

Definition virtio_disk_init : M kern unit :=
  lk_ (zoom Lkhw (initlock VdiskLock "virtio_disk")) ;;;
  let* magic := ReadR VIRTIO_MMIO_MAGIC_VALUE in
  if negb (magic =? 0x74726976) then panic "could not find virtio disk" else
  let* version := ReadR VIRTIO_MMIO_VERSION in
  if negb (version =? 2) then panic "could not find virtio disk" else
  let* id := ReadR VIRTIO_MMIO_DEVICE_ID in
  if negb (id =? 2) then panic "could not find virtio disk" else
  let* vendor := ReadR VIRTIO_MMIO_VENDOR_ID in
  if negb (vendor =? 0x554d4551) then panic "could not find virtio disk" else
  let status := 0 in
  WriteR VIRTIO_MMIO_STATUS status ;;;
  let status := Z.lor status VIRTIO_CONFIG_S_ACKNOWLEDGE in
  WriteR VIRTIO_MMIO_STATUS status ;;;
  let status := Z.lor status VIRTIO_CONFIG_S_DRIVER in
  WriteR VIRTIO_MMIO_STATUS status ;;;
  let* features := ReadR VIRTIO_MMIO_DEVICE_FEATURES in
  let features := clear_feature VIRTIO_BLK_F_RO features in
  let features := clear_feature VIRTIO_BLK_F_SCSI features in
  let features := clear_feature VIRTIO_BLK_F_CONFIG_WCE features in
  let features := clear_feature VIRTIO_BLK_F_MQ features in
  let features := clear_feature VIRTIO_F_ANY_LAYOUT features in
  let features := clear_feature VIRTIO_RING_F_EVENT_IDX features in
  let features := clear_feature VIRTIO_RING_F_INDIRECT_DESC features in
  WriteR VIRTIO_MMIO_DRIVER_FEATURES features ;;;
  let status := Z.lor status VIRTIO_CONFIG_S_FEATURES_OK in
  WriteR VIRTIO_MMIO_STATUS status ;;;
  let* status := ReadR VIRTIO_MMIO_STATUS in
  if Z.land status VIRTIO_CONFIG_S_FEATURES_OK =? 0 then panic "virtio disk FEATURES_OK unset" else
  WriteR VIRTIO_MMIO_QUEUE_SEL 0 ;;;
  let* ready := ReadR VIRTIO_MMIO_QUEUE_READY in
  if truthy ready then panic "virtio disk should not be ready" else
  let* max := ReadR VIRTIO_MMIO_QUEUE_NUM_MAX in
  if max =? 0 then panic "virtio disk has no queue 0" else
  if max <? Z.of_nat NUM then panic "virtio disk max queue too short" else
  let* desc := lk_ (zoom Lmach kalloc) in
  let* avail := lk_ (zoom Lmach kalloc) in
  let* used := lk_ (zoom Lmach kalloc) in
  if (desc =? 0) || (avail =? 0) || (used =? 0) then panic "virtio disk kalloc" else
  lk_ (zoom Lmach (memset_m desc 0 PGSIZE)) ;;;
  lk_ (zoom Lmach (memset_m avail 0 PGSIZE)) ;;;
  lk_ (zoom Lmach (memset_m used 0 PGSIZE)) ;;;
  upd_vd (fun d => set_vd_desc (replicate NUM desc0) (set_vd_avail_idx 0 (set_vd_avail_ring (replicate NUM 0)
                   (set_vd_used_idx_dev 0 (set_vd_used_ring (replicate NUM 0) d))))) ;;;
  WriteR VIRTIO_MMIO_QUEUE_NUM (Z.of_nat NUM) ;;;
  WriteR VIRTIO_MMIO_QUEUE_DESC_LOW desc ;;;
  WriteR VIRTIO_MMIO_QUEUE_DESC_HIGH (Z.shiftr desc 32) ;;;
  WriteR VIRTIO_MMIO_DRIVER_DESC_LOW avail ;;;
  WriteR VIRTIO_MMIO_DRIVER_DESC_HIGH (Z.shiftr avail 32) ;;;
  WriteR VIRTIO_MMIO_DEVICE_DESC_LOW used ;;;
  WriteR VIRTIO_MMIO_DEVICE_DESC_HIGH (Z.shiftr used 32) ;;;
  WriteR VIRTIO_MMIO_QUEUE_READY 0x1 ;;;
  upd_vd (set_vd_free (replicate NUM 1)) ;;;
  WriteR VIRTIO_MMIO_STATUS (Z.lor status VIRTIO_CONFIG_S_DRIVER_OK).

Fixpoint alloc_desc_loop (n : nat) (i : Z) : M kern Z :=
  match n with
  | O => ret (-1)
  | S n =>
      let* d := getvd in
      let* f := arr_get (vd_free d) i in
      if truthy f then
        let* l := arr_set (vd_free d) i 0 in
        upd_vd (set_vd_free l) ;;;
        ret i
      else alloc_desc_loop n (i + 1)
  end.

Definition alloc_desc : M kern Z := alloc_desc_loop NUM 0.

Definition set_desc (i : Z) (f : virtq_desc -> virtq_desc) : M kern unit :=
  let* d := getvd in
  let* x := arr_get (vd_desc d) i in
  let* l := arr_set (vd_desc d) i (f x) in
  upd_vd (set_vd_desc l).

Definition free_desc (i : Z) : M kern unit :=
  if Z.of_nat NUM <=? i then panic "free_desc 1" else
  let* d := getvd in
  let* f := arr_get (vd_free d) i in
  if truthy f then panic "free_desc 2" else
  set_desc i (set_d_addr ANull) ;;;
  set_desc i (set_d_len 0) ;;;
  set_desc i (set_d_flags 0) ;;;
  set_desc i (set_d_next 0) ;;;
  let* d := getvd in
  let* l := arr_set (vd_free d) i 1 in
  upd_vd (set_vd_free l) ;;;
  lk_ (wakeup ChDiskFree).

(** A chain has at most NUM descriptors: freeing one twice panics. *)
Fixpoint free_chain_loop (n : nat) (i : Z) : M kern unit :=
  match n with
  | O => fun _ => NoFuel
  | S n =>
      let* d := getvd in
      let* x := arr_get (vd_desc d) i in
      free_desc i ;;;
      if truthy (Z.land (d_flags x) VRING_DESC_F_NEXT) then free_chain_loop n (d_next x) else ret tt
  end.

Definition free_chain (i : Z) : M kern unit := free_chain_loop (S NUM) i.

(** [idx[0]], [idx[1]], [idx[2]], or -1 and the descriptors given back. *)
Definition alloc3_desc : M kern (option (Z * Z * Z)) :=
  let* i0 := alloc_desc in
  if i0 <? 0 then ret None else
  let* i1 := alloc_desc in
  if i1 <? 0 then free_desc i0 ;;; ret None else
  let* i2 := alloc_desc in
  if i2 <? 0 then free_desc i0 ;;; free_desc i1 ;;; ret None else
  ret (Some (i0, i1, i2)).

Fixpoint rw_alloc (n : nat) : M kern (Z * Z * Z) :=
  match n with
  | O => fun _ => NoFuel
  | S n =>
      let* r := alloc3_desc in
      match r with
      | Some idx => ret idx
      | None => lk_ (sleep ChDiskFree VdiskLock) ;;; rw_alloc n
      end
  end.

Fixpoint rw_wait (n : nat) (b : nat) : M kern unit :=
  match n with
  | O => fun _ => NoFuel
  | S n =>
      let* x := getb b in
      if b_disk x =? 1 then lk_ (sleep (ChBuf b) VdiskLock) ;;; rw_wait n b else ret tt
  end.

Definition virtio_disk_rw (b : nat) (write : bool) : M kern unit :=
  let* x := getb b in
  let sector := u32 (b_blockno x * (BSIZE / 512)) in
  lk_ (acq VdiskLock) ;;;
  let* idx := rw_alloc (S patience) in
  let '(i0, i1, i2) := idx in
  upd_vd (fun d => set_vd_op_type (<[Z.to_nat i0 := if write then VIRTIO_BLK_T_OUT else VIRTIO_BLK_T_IN]> (vd_op_type d)) d) ;;;
  upd_vd (fun d => set_vd_op_reserved (<[Z.to_nat i0 := 0]> (vd_op_reserved d)) d) ;;;
  upd_vd (fun d => set_vd_op_sector (<[Z.to_nat i0 := sector]> (vd_op_sector d)) d) ;;;
  set_desc i0 (set_d_addr (AOps i0)) ;;;
  set_desc i0 (set_d_len 16) ;;;
  set_desc i0 (set_d_flags VRING_DESC_F_NEXT) ;;;
  set_desc i0 (set_d_next i1) ;;;
  set_desc i1 (set_d_addr (ABuf b)) ;;;
  set_desc i1 (set_d_len BSIZE) ;;;
  set_desc i1 (set_d_flags (if write then 0 else VRING_DESC_F_WRITE)) ;;;
  set_desc i1 (fun d => set_d_flags (Z.lor (d_flags d) VRING_DESC_F_NEXT) d) ;;;
  set_desc i1 (set_d_next i2) ;;;
  upd_vd (fun d => set_vd_info_status (<[Z.to_nat i0 := 0xff]> (vd_info_status d)) d) ;;;
  set_desc i2 (set_d_addr (AStatus i0)) ;;;
  set_desc i2 (set_d_len 1) ;;;
  set_desc i2 (set_d_flags VRING_DESC_F_WRITE) ;;;
  set_desc i2 (set_d_next 0) ;;;
  upd_buf b (set_b_disk 1) ;;;
  upd_vd (fun d => set_vd_info_b (<[Z.to_nat i0 := Some b]> (vd_info_b d)) d) ;;;
  upd_vd (fun d => set_vd_avail_ring (<[Z.to_nat (vd_avail_idx d mod Z.of_nat NUM) := i0]> (vd_avail_ring d)) d) ;;;
  upd_vd (fun d => set_vd_avail_idx (u16 (vd_avail_idx d + 1)) d) ;;;
  WriteR VIRTIO_MMIO_QUEUE_NOTIFY 0 ;;;
  rw_wait (S patience) b ;;;
  upd_vd (fun d => set_vd_info_b (<[Z.to_nat i0 := None]> (vd_info_b d)) d) ;;;
  free_chain i0 ;;;
  lk_ (rel VdiskLock).

(** The completions not yet seen: [used->idx - used_idx] of them, modulo 2^16. *)
Fixpoint virtio_disk_intr_loop (n : nat) : M kern unit :=
  match n with
  | O => fun _ => NoFuel
  | S n =>
      let* d := getvd in
      if vd_used_idx d =? vd_used_idx_dev d then ret tt else
      let* id := arr_get (vd_used_ring d) (vd_used_idx d mod Z.of_nat NUM) in
      let* st := arr_get (vd_info_status d) id in
      if negb (st =? 0) then panic "virtio_disk_intr status" else
      let* b := arr_get (vd_info_b d) id in
      match b with
      | None => kfault
      | Some b =>
          upd_buf b (set_b_disk 0) ;;;
          lk_ (wakeup (ChBuf b)) ;;;
          upd_vd (fun d => set_vd_used_idx (u16 (vd_used_idx d + 1)) d) ;;;
          virtio_disk_intr_loop n
      end
  end.

Definition virtio_disk_intr : M kern unit :=
  lk_ (acq VdiskLock) ;;;
  let* st := ReadR VIRTIO_MMIO_INTERRUPT_STATUS in
  WriteR VIRTIO_MMIO_INTERRUPT_ACK (Z.land st 0x3) ;;;
  let* d := getvd in
  virtio_disk_intr_loop (S (Z.to_nat (u16 (vd_used_idx_dev d - vd_used_idx d)))) ;;;
  lk_ (rel VdiskLock).

End Virtio.
