(* ===== verification/Trap.v ===== *)
(** * Interrupts, exceptions and system calls (definitions)

    kernel/plic.c, kernel/trap.c, the dispatcher of kernel/syscall.c, [forkret] of
    kernel/proc.c and kernel/main.c. *)

From S2P Require Import Prelude Riscv Mem Bytes StringLib Spinlock Kalloc Vm Proc State Sleeplock Bio Log Uart Printf Console Fs File Exec Syscall ProcFs Sysfile Sysproc Virtio.

(** ** kernel/memlayout.h: PLIC registers *)

Definition PLIC_SENABLE (hart : Z) : Z := PLIC + 0x2080 + hart * 0x100.
Definition PLIC_SPRIORITY (hart : Z) : Z := PLIC + 0x201000 + hart * 0x2000.
Definition PLIC_SCLAIM (hart : Z) : Z := PLIC + 0x201004 + hart * 0x2000.

(** ** kernel/syscall.h *)

Definition SYS_fork : Z := 1.
Definition SYS_exit : Z := 2.
Definition SYS_wait : Z := 3.
Definition SYS_pipe : Z := 4.
Definition SYS_read : Z := 5.
Definition SYS_kill : Z := 6.
Definition SYS_exec : Z := 7.
Definition SYS_fstat : Z := 8.
Definition SYS_chdir : Z := 9.
Definition SYS_dup : Z := 10.
Definition SYS_getpid : Z := 11.
Definition SYS_sbrk : Z := 12.
Definition SYS_sleep : Z := 13.
Definition SYS_uptime : Z := 14.
Definition SYS_open : Z := 15.
Definition SYS_write : Z := 16.
Definition SYS_mknod : Z := 17.
Definition SYS_unlink : Z := 18.
Definition SYS_link : Z := 19.
Definition SYS_mkdir : Z := 20.
Definition SYS_close : Z := 21.
Definition SYS_ps : Z := 22.

Section Trap.
Context `{PF : Platform} `{PA : Patience} `{BD : !BlockDev} `{HI : Image} `{HT : KText} `{UN : Uninit}.

(** ** Registers of the hart *)

Definition getcsr : M kern csr := gets (fun s => io_csr (kn_io s)).
Definition updcsr (f : csr -> csr) : M kern unit := upd_io (fun io => set_io_csr (f (io_csr io)) io).
Definition r_sstatus : M kern Z := lk_ (zoom Lkhw (gets hw_sstatus)).
Definition w_sstatus (x : Z) : M kern unit := lk_ (zoom Lkhw (modify (set_sstatus x))).
Definition cpuid_ : M kern Z := let* c := lk_ (zoom Lkhw cpuid) in ret (Z.of_nat c).

(** ** kernel/plic.c *)

Definition plicinit : M kern unit :=
  mmio_write (PLIC + UART0_IRQ * 4) 1 ;;;
  mmio_write (PLIC + VIRTIO0_IRQ * 4) 1.

Definition plicinithart : M kern unit :=
  let* hart := cpuid_ in
  mmio_write (PLIC_SENABLE hart) (Z.lor (Z.shiftl 1 UART0_IRQ) (Z.shiftl 1 VIRTIO0_IRQ)) ;;;
  mmio_write (PLIC_SPRIORITY hart) 0.

Definition plic_claim : M kern Z :=
  let* hart := cpuid_ in
  let* irq := mmio_read (PLIC_SCLAIM hart) in
  ret (i32 irq).

Definition plic_complete (irq : Z) : M kern unit :=
  let* hart := cpuid_ in
  mmio_write (PLIC_SCLAIM hart) (u32 irq).

(** ** kernel/syscall.c: syscall *)

(** The table [syscalls]. *)
Definition syscalls : list (Z * M kern Z) :=
  [(SYS_fork, sys_fork); (SYS_exit, sys_exit); (SYS_wait, sys_wait); (SYS_pipe, sys_pipe);
   (SYS_read, sys_read); (SYS_kill, sys_kill); (SYS_exec, sys_exec); (SYS_fstat, sys_fstat);
   (SYS_chdir, sys_chdir); (SYS_dup, sys_dup); (SYS_getpid, sys_getpid); (SYS_sbrk, sys_sbrk);
   (SYS_sleep, sys_sleep); (SYS_uptime, sys_uptime); (SYS_open, sys_open); (SYS_write, sys_write);
   (SYS_mknod, sys_mknod); (SYS_unlink, sys_unlink); (SYS_link, sys_link); (SYS_mkdir, sys_mkdir);
   (SYS_close, sys_close); (SYS_ps, sys_ps)].

Fixpoint find_syscall (num : Z) (l : list (Z * M kern Z)) : option (M kern Z) :=
  match l with
  | [] => None
  | (n, f) :: l => if num =? n then Some f else find_syscall num l
  end.

(** [NELEM(syscalls)] is 23. *)
Definition syscall : M kern unit :=
  let* p := my_index in
  let* q := lk_ (getp p) in
  let* a7 := lk_ (zoom Lmach (load64 (p_trapframe q + TF_a 7))) in
  let num := i32 a7 in
  match (if (0 <? num) && (num <? SYS_ps + 1) then find_syscall num syscalls else None) with
  | Some f =>
      let* r := f in
      set_tf p (TF_a 0) (u64 r)
  | None =>
      let* q := lk_ (getp p) in
      printf (str "%d %s: unknown sys call %d" ++ [NL]) [VInt (p_pid q); VStr (cstr (p_name q)); VInt num] ;;;
      set_tf p (TF_a 0) (u64 (-1))
  end.

(** ** kernel/trap.c *)

Definition trapinit : M kern unit := lk_ (zoom Lkhw (initlock TicksLock "time")).

Definition trapinithart : M kern unit := updcsr (set_r_stvec kernelvec_pc).

Definition clockintr : M kern unit :=
  let* c := cpuid_ in
  when (c =? 0)
    (lk_ (acq TicksLock) ;;;
     lk_ (modify (fun s => set_ticks (u32 (k_ticks s + 1)) s)) ;;;
     lk_ (wakeup ChTicks) ;;;
     lk_ (rel TicksLock)) ;;;
  updcsr (fun r => set_r_stimecmp (u64 (r_time r + 1000000)) r).

Definition devintr : M kern Z :=
  let* r := getcsr in
  let scause := r_scause r in
  if scause =? 0x8000000000000009 then
    let* irq := plic_claim in
    (if irq =? UART0_IRQ then uartintr
     else if irq =? VIRTIO0_IRQ then virtio_disk_intr
     else when (truthy irq) (printf (str "unexpected interrupt irq=%d" ++ [NL]) [VInt irq])) ;;;
    when (truthy irq) (plic_complete irq) ;;;
    ret 1
  else if scause =? 0x8000000000000005 then
    clockintr ;;;
    ret 2
  else ret 0.

(** Returns the argument of [userret]. *)
Definition usertrapret : M kern Z :=
  let* p := my_index in
  lk_ (zoom Lkhw intr_off) ;;;
  updcsr (set_r_stvec (TRAMPOLINE + uservec_off)) ;;;
  let* satp := lk_ (zoom Lmach (gets m_satp)) in
  set_tf p TF_kernel_satp satp ;;;
  let* q := lk_ (getp p) in
  set_tf p TF_kernel_sp (u64 (p_kstack q + PGSIZE)) ;;;
  set_tf p TF_kernel_trap usertrap_pc ;;;
  let* tp := cpuid_ in
  set_tf p TF_kernel_hartid tp ;;;
  let* x := r_sstatus in
  let x := Z.land x (u64 (Z.lnot SSTATUS_SPP)) in
  let x := Z.lor x SSTATUS_SPIE in
  w_sstatus x ;;;
  let* q := lk_ (getp p) in
  let* epc := lk_ (zoom Lmach (load64 (p_trapframe q + TF_epc))) in
  updcsr (set_r_sepc epc) ;;;
  ret (MAKE_SATP (p_pagetable q)).

Definition usertrap : M kern Z :=
  let* st := r_sstatus in
  if negb (Z.land st SSTATUS_SPP =? 0) then panic "usertrap: not from user mode" else
  updcsr (set_r_stvec kernelvec_pc) ;;;
  let* p := my_index in
  let* r := getcsr in
  set_tf p TF_epc (r_sepc r) ;;;
  let* which_dev :=
    (if r_scause r =? 8 then
       let* k := lk_ (killed p) in
       when (truthy k) (exit (-1)) ;;;
       let* q := lk_ (getp p) in
       let* epc := lk_ (zoom Lmach (load64 (p_trapframe q + TF_epc))) in
       set_tf p TF_epc (u64 (epc + 4)) ;;;
       lk_ (zoom Lkhw intr_on) ;;;
       syscall ;;;
       ret 0
     else
       let* which_dev := devintr in
       if truthy which_dev then ret which_dev else
       let* r := getcsr in
       let* q := lk_ (getp p) in
       printf (str "usertrap(): unexpected scause 0x%lx pid=%d" ++ [NL]) [VInt (r_scause r); VInt (p_pid q)] ;;;
       printf (str "            sepc=0x%lx stval=0x%lx" ++ [NL]) [VInt (r_sepc r); VInt (r_stval r)] ;;;
       lk_ (setkilled p) ;;;
       ret 0) in
  let* k := lk_ (killed p) in
  when (truthy k) (exit (-1)) ;;;
  when (which_dev =? 2) (lk_ yield) ;;;
  usertrapret.

Definition kerneltrap : M kern unit :=
  let* r := getcsr in
  let sepc := r_sepc r in
  let* sstatus := r_sstatus in
  let scause := r_scause r in
  if Z.land sstatus SSTATUS_SPP =? 0 then panic "kerneltrap: not from supervisor mode" else
  let* en := lk_ (zoom Lkhw intr_get) in
  if negb (en =? 0) then panic "kerneltrap: interrupts enabled" else
  let* which_dev := devintr in
  if which_dev =? 0 then
    let* r := getcsr in
    printf (str "scause=0x%lx sepc=0x%lx stval=0x%lx" ++ [NL]) [VInt scause; VInt (r_sepc r); VInt (r_stval r)] ;;;
    panic "kerneltrap"
  else
    let* me := (if which_dev =? 2 then lk_ myproc else ret None) in
    when (bool_decide (me <> None)) (lk_ yield) ;;;
    updcsr (set_r_sepc sepc) ;;;
    w_sstatus sstatus.

(** ** kernel/proc.c: forkret *)

Definition forkret : M kern Z :=
  let* p := my_index in
  lk_ (rel (ProcLock p)) ;;;
  let* io := getio in
  when (truthy (io_first io)) (fsinit ROOTDEV ;;; upd_io (set_io_first 0)) ;;;
  usertrapret.

(** ** kernel/main.c *)

Fixpoint wait_started (n : nat) : M kern unit :=
  match n with
  | O => fun _ => NoFuel
  | S n => let* io := getio in if io_started io =? 0 then wait_started n else ret tt
  end.

(** [main] up to the call of [scheduler]. *)
Definition main_init : M kern unit :=
  let* c := cpuid_ in
  if c =? 0 then
    consoleinit ;;;
    printfinit ;;;
    printf [NL] [] ;;;
    printf (str "xv6 kernel is booting" ++ [NL]) [] ;;;
    printf [NL] [] ;;;
    lk_ (zoom Lmach kinit) ;;;
    lk_ (zoom Lmach kvminit) ;;;
    lk_ (zoom Lmach kvminithart) ;;;
    lk_ procinit ;;;
    trapinit ;;;
    trapinithart ;;;
    plicinit ;;;
    plicinithart ;;;
    binit ;;;
    iinit ;;;
    fileinit ;;;
    virtio_disk_init ;;;
    userinit ;;;
    upd_io (set_io_started 1)
  else
    wait_started (S patience) ;;;
    let* c := cpuid_ in
    printf (str "hart %d starting" ++ [NL]) [VInt c] ;;;
    lk_ (zoom Lmach kvminithart) ;;;
    trapinithart ;;;
    plicinithart.

Definition main (rounds : nat) : M kern unit :=
  main_init ;;;
  lk_ (scheduler rounds).

End Trap.
