(* ===== verification/Asm.v ===== *)
(** * Assembly: kernel/trampoline.S, kernel/swtch.S, kernel/kernelvec.S, kernel/entry.S

    The instructions these files use, what they do to the registers of a hart and
    to memory, the code as lists of instructions in the source's order, and what
    the code does: user registers survive a trap, a context switch resumes the
    other thread, a kernel interrupt restores what it interrupted. *)

From S2P Require Import Prelude Riscv Mem.

(** ** Registers and instructions *)

Inductive reg :=
| x0 | ra | sp | gp | tp | t0 | t1 | t2 | s0 | s1 | a0 | a1 | a2 | a3 | a4 | a5 | a6 | a7
| s2 | s3 | s4 | s5 | s6 | s7 | s8 | s9 | s10 | s11 | t3 | t4 | t5 | t6.
#[global] Instance reg_eq_dec : EqDecision reg.
Proof. solve_decision. Defined.

Inductive csrname := SSCRATCH | SATP | MHARTID.

Inductive instr :=
| Sd (rs : reg) (off : Z) (rb : reg)
| Ld (rd : reg) (off : Z) (rb : reg)
| Li (rd : reg) (imm : Z)
| Addi (rd rs : reg) (imm : Z)
| Add (rd rs rt : reg)
| Mul (rd rs rt : reg)
| Csrw (c : csrname) (rs : reg)
| Csrr (rd : reg) (c : csrname)
| SfenceVma
| Jr (rs : reg)
| Sret.

(** A hart: [h_user] is its mode, [h_spp] the mode [sret] returns to, and [h_pc]
    where it goes next once the code has jumped. *)
Record hart := mkHart {
  h_x : reg -> Z; h_sscratch : Z; h_satp : Z; h_mhartid : Z; h_sepc : Z; h_spp : bool; h_user : bool;
  h_pc : option Z; h_mem : mem }.

Definition set_x (r : reg) (v : Z) (h : hart) : hart :=
  mkHart (fun q => if decide (q = r) then (if decide (r = x0) then 0 else v) else h_x h q)
    (h_sscratch h) (h_satp h) (h_mhartid h) (h_sepc h) (h_spp h) (h_user h) (h_pc h) (h_mem h).
Definition set_hmem (m : mem) (h : hart) : hart :=
  mkHart (h_x h) (h_sscratch h) (h_satp h) (h_mhartid h) (h_sepc h) (h_spp h) (h_user h) (h_pc h) m.
Definition jump (pc : Z) (user : bool) (h : hart) : hart :=
  mkHart (h_x h) (h_sscratch h) (h_satp h) (h_mhartid h) (h_sepc h) (h_spp h) user (Some pc) (h_mem h).
Definition rd_csr (c : csrname) (h : hart) : Z :=
  match c with SSCRATCH => h_sscratch h | SATP => h_satp h | MHARTID => h_mhartid h end.
Definition wr_csr (c : csrname) (v : Z) (h : hart) : hart :=
  match c with
  | SSCRATCH => mkHart (h_x h) v (h_satp h) (h_mhartid h) (h_sepc h) (h_spp h) (h_user h) (h_pc h) (h_mem h)
  | SATP => mkHart (h_x h) (h_sscratch h) v (h_mhartid h) (h_sepc h) (h_spp h) (h_user h) (h_pc h) (h_mem h)
  | MHARTID => h
  end.

(** Sv39 address translation: three levels of page table below the root in satp. Only
    the valid bit decides on a fault: the permission bits are not checked, and an entry
    of the upper levels is always taken for a pointer to a table, since the kernel makes
    no larger pages. *)
Definition sv39_root (satp : Z) : Z := Z.shiftl (Z.land satp (Z.ones 44)) 12.
Definition sv39_entry (m : mem) (table level va : Z) : option Z :=
  let e := rd64 m (table + 8 * PX level va) in
  if truthy (Z.land e PTE_V) then Some (PTE2PA e) else None.
Definition sv39 (m : mem) (satp va : Z) : option Z :=
  match sv39_entry m (sv39_root satp) 2 va with
  | None => None
  | Some p1 =>
      match sv39_entry m p1 1 va with
      | None => None
      | Some p0 =>
          match sv39_entry m p0 0 va with
          | None => None
          | Some pa => Some (pa + va mod PGSIZE)
          end
      end
  end.

(** One instruction; [None] is a page fault. *)
Definition exec_instr (i : instr) (h : hart) : option hart :=
  match i with
  | Sd rs off rb =>
      match sv39 (h_mem h) (h_satp h) (u64 (h_x h rb + off)) with
      | Some pa => Some (set_hmem (wr64 (h_mem h) pa (h_x h rs)) h)
      | None => None
      end
  | Ld rd off rb =>
      match sv39 (h_mem h) (h_satp h) (u64 (h_x h rb + off)) with
      | Some pa => Some (set_x rd (rd64 (h_mem h) pa) h)
      | None => None
      end
  | Li rd imm => Some (set_x rd imm h)
  | Addi rd rs imm => Some (set_x rd (u64 (h_x h rs + imm)) h)
  | Add rd rs rt => Some (set_x rd (u64 (h_x h rs + h_x h rt)) h)
  | Mul rd rs rt => Some (set_x rd (u64 (h_x h rs * h_x h rt)) h)
  | Csrw c rs => Some (wr_csr c (h_x h rs) h)
  | Csrr rd c => Some (set_x rd (rd_csr c h) h)
  | SfenceVma => Some h
  | Jr rs => Some (jump (h_x h rs) (h_user h) h)
  | Sret => Some (jump (h_sepc h) (h_spp h) h)
  end.

Fixpoint run_code (l : list instr) (h : hart) : option hart :=
  match l with
  | [] => Some h
  | i :: l => match exec_instr i h with Some h => run_code l h | None => None end
  end.

(** ** The code *)

Definition uservec : list instr :=
  [Csrw SSCRATCH a0; Li a0 TRAPFRAME;
   Sd ra 40 a0; Sd sp 48 a0; Sd gp 56 a0; Sd tp 64 a0; Sd t0 72 a0; Sd t1 80 a0; Sd t2 88 a0; Sd s0 96 a0;
   Sd s1 104 a0; Sd a1 120 a0; Sd a2 128 a0; Sd a3 136 a0; Sd a4 144 a0; Sd a5 152 a0; Sd a6 160 a0;
   Sd a7 168 a0; Sd s2 176 a0; Sd s3 184 a0; Sd s4 192 a0; Sd s5 200 a0; Sd s6 208 a0; Sd s7 216 a0;
   Sd s8 224 a0; Sd s9 232 a0; Sd s10 240 a0; Sd s11 248 a0; Sd t3 256 a0; Sd t4 264 a0; Sd t5 272 a0; Sd t6 280 a0;
   Csrr t0 SSCRATCH; Sd t0 112 a0;
   Ld sp 8 a0; Ld tp 32 a0; Ld t0 16 a0; Ld t1 0 a0;
   SfenceVma; Csrw SATP t1; SfenceVma; Jr t0].

Definition userret : list instr :=
  [SfenceVma; Csrw SATP a0; SfenceVma; Li a0 TRAPFRAME;
   Ld ra 40 a0; Ld sp 48 a0; Ld gp 56 a0; Ld tp 64 a0; Ld t0 72 a0; Ld t1 80 a0; Ld t2 88 a0; Ld s0 96 a0;
   Ld s1 104 a0; Ld a1 120 a0; Ld a2 128 a0; Ld a3 136 a0; Ld a4 144 a0; Ld a5 152 a0; Ld a6 160 a0;
   Ld a7 168 a0; Ld s2 176 a0; Ld s3 184 a0; Ld s4 192 a0; Ld s5 200 a0; Ld s6 208 a0; Ld s7 216 a0;
   Ld s8 224 a0; Ld s9 232 a0; Ld s10 240 a0; Ld s11 248 a0; Ld t3 256 a0; Ld t4 264 a0; Ld t5 272 a0; Ld t6 280 a0;
   Ld a0 112 a0; Sret].

(** [swtch(old, new)]; [ret] is a jump to [ra]. *)
Definition swtch_code : list instr :=
  [Sd ra 0 a0; Sd sp 8 a0; Sd s0 16 a0; Sd s1 24 a0; Sd s2 32 a0; Sd s3 40 a0; Sd s4 48 a0; Sd s5 56 a0;
   Sd s6 64 a0; Sd s7 72 a0; Sd s8 80 a0; Sd s9 88 a0; Sd s10 96 a0; Sd s11 104 a0;
   Ld ra 0 a1; Ld sp 8 a1; Ld s0 16 a1; Ld s1 24 a1; Ld s2 32 a1; Ld s3 40 a1; Ld s4 48 a1; Ld s5 56 a1;
   Ld s6 64 a1; Ld s7 72 a1; Ld s8 80 a1; Ld s9 88 a1; Ld s10 96 a1; Ld s11 104 a1;
   Jr ra].

(** [kernelvec] up to and from the call of [kerneltrap]. *)
Definition kernelvec_enter : list instr :=
  [Addi sp sp (-256);
   Sd ra 0 sp; Sd sp 8 sp; Sd gp 16 sp; Sd tp 24 sp; Sd t0 32 sp; Sd t1 40 sp; Sd t2 48 sp; Sd a0 72 sp;
   Sd a1 80 sp; Sd a2 88 sp; Sd a3 96 sp; Sd a4 104 sp; Sd a5 112 sp; Sd a6 120 sp; Sd a7 128 sp;
   Sd t3 216 sp; Sd t4 224 sp; Sd t5 232 sp; Sd t6 240 sp].
Definition kernelvec_leave : list instr :=
  [Ld ra 0 sp; Ld sp 8 sp; Ld gp 16 sp; Ld t0 32 sp; Ld t1 40 sp; Ld t2 48 sp; Ld a0 72 sp;
   Ld a1 80 sp; Ld a2 88 sp; Ld a3 96 sp; Ld a4 104 sp; Ld a5 112 sp; Ld a6 120 sp; Ld a7 128 sp;
   Ld t3 216 sp; Ld t4 224 sp; Ld t5 232 sp; Ld t6 240 sp;
   Addi sp sp 256; Sret].

(** [_entry] up to the call of [start]; [stack0] is an address of the image. *)
Definition entry_code (stack0 : Z) : list instr :=
  [Li sp stack0; Li a0 (1024 * 4); Csrr a1 MHARTID; Addi a1 a1 1; Mul a0 a0 a1; Add sp sp a0].

(** ** A window of memory the code sees at [va] *)

(** The [n] bytes from [va] on are those from [pa] on, also after any change of
    memory that [W] admits. *)
Definition mapped (W : Z -> Prop) (m : mem) (satp va pa n : Z) : Prop :=
  forall m' o, (forall a, ~ W a -> rd8 m' a = rd8 m a) -> 0 <= o < n ->
    sv39 m' satp (u64 (va + o)) = Some (pa + o).

Definition window (pa n a : Z) : Prop := pa <= a < pa + n.

(** The registers saved at their offsets. *)
Definition save_regs (pa : Z) (f : reg -> Z) (l : list (reg * Z)) (m : mem) : mem :=
  foldl (fun m ro => wr64 m (pa + ro.2) (f ro.1)) m l.
Definition saves (rb : reg) (l : list (reg * Z)) : list instr := (fun ro => Sd ro.1 ro.2 rb) <$> l.
Definition loads (rb : reg) (l : list (reg * Z)) : list instr := (fun ro => Ld ro.1 ro.2 rb) <$> l.

(** Offsets of 8-byte slots below [n], no two the same. *)
Definition slots_ok (n : Z) (l : list (reg * Z)) : Prop :=
  Forall (fun ro => 0 <= ro.2 /\ ro.2 + 8 <= n /\ ro.2 mod 8 = 0) l /\ NoDup l.*2.

(** [struct trapframe] of kernel/proc.h: where each user register is saved. *)
Definition tf_layout : list (reg * Z) :=
  [(ra, 40); (sp, 48); (gp, 56); (tp, 64); (t0, 72); (t1, 80); (t2, 88); (s0, 96); (s1, 104); (a0, 112);
   (a1, 120); (a2, 128); (a3, 136); (a4, 144); (a5, 152); (a6, 160); (a7, 168); (s2, 176); (s3, 184);
   (s4, 192); (s5, 200); (s6, 208); (s7, 216); (s8, 224); (s9, 232); (s10, 240); (s11, 248); (t3, 256);
   (t4, 264); (t5, 272); (t6, 280)].
Definition tf_others : list (reg * Z) := filter (fun ro => ro.1 <> a0) tf_layout.

(** [struct context] of kernel/proc.h. *)
Definition ctx_layout : list (reg * Z) :=
  [(ra, 0); (sp, 8); (s0, 16); (s1, 24); (s2, 32); (s3, 40); (s4, 48); (s5, 56); (s6, 64); (s7, 72);
   (s8, 80); (s9, 88); (s10, 96); (s11, 104)].

(** ** Running saves and loads *)

Definition set_xs (f : reg -> Z) (h : hart) : hart :=
  mkHart f (h_sscratch h) (h_satp h) (h_mhartid h) (h_sepc h) (h_spp h) (h_user h) (h_pc h) (h_mem h).

Lemma run_code_app l1 l2 h :
  run_code (l1 ++ l2) h = match run_code l1 h with Some h => run_code l2 h | None => None end.
Proof. revert h. induction l1 as [| i l1 IH]; intros h; simpl; [done |]. destruct (exec_instr i h); [apply IH | done]. Qed.

Lemma mapped_agree W m m' satp va pa n : mapped W m satp va pa n ->
  (forall a, ~ W a -> rd8 m' a = rd8 m a) -> mapped W m' satp va pa n.
Proof. intros H E m2 o E2 Ho. apply H; [| done]. intros a Ha. by rewrite (E2 a Ha), (E a Ha). Qed.

Lemma mapped_mono (W W' : Z -> Prop) m satp va pa n : (forall a, W' a -> W a) -> mapped W m satp va pa n -> mapped W' m satp va pa n.
Proof. intros HW H m' o Hm Ho. apply H; [| done]. intros a Ha. apply Hm. auto. Qed.

Lemma mapped_sub W m satp va pa n n' d : mapped W m satp va pa n -> 0 <= d -> d + n' <= n ->
  mapped W m satp (va + d) (pa + d) n'.
Proof. intros H Hd Hn m' o Hm Ho. rewrite <- !Z.add_assoc. apply H; [done | lia]. Qed.

Lemma save_regs_out pa f l n m a :
  Forall (fun ro => 0 <= ro.2 /\ ro.2 + 8 <= n /\ ro.2 mod 8 = 0) l -> ~ (pa <= a < pa + n) ->
  rd8 (save_regs pa f l m) a = rd8 m a.
Proof.
  intros Hl Ha. revert m. induction Hl as [| [r o] l Ho Hl IH]; intros m; [done |].
  change (save_regs pa f ((r, o) :: l) m) with (save_regs pa f l (wr64 m (pa + o) (f r))).
  rewrite IH. apply rd8_wr64_out. cbn [snd] in Ho. lia.
Qed.

Lemma save_regs_ne pa f l n m o :
  Forall (fun ro => 0 <= ro.2 /\ ro.2 + 8 <= n /\ ro.2 mod 8 = 0) l -> o mod 8 = 0 -> o ∉ l.*2 ->
  rd64 (save_regs pa f l m) (pa + o) = rd64 m (pa + o).
Proof.
  intros Hl Ho. revert m. induction Hl as [| [r q] l Hq Hl IH]; intros m Hn; [done |].
  change (save_regs pa f ((r, q) :: l) m) with (save_regs pa f l (wr64 m (pa + q) (f r))).
  cbn [fmap list_fmap snd] in *. apply not_elem_of_cons in Hn as [Hne Hn]. rewrite IH by done.
  apply rd64_wr64_ne. pose proof (Z.div_mod o 8). pose proof (Z.div_mod q 8). lia.
Qed.

Lemma save_regs_in pa f l n m r o : slots_ok n l -> (r, o) ∈ l -> 0 <= f r < 2^64 ->
  rd64 (save_regs pa f l m) (pa + o) = f r.
Proof.
  intros [Hl Hd] Hin Hr. revert m Hd Hin. induction Hl as [| [q p] l Hq Hl IH]; intros m Hd Hin; [by apply not_elem_of_nil in Hin |].
  change (save_regs pa f ((q, p) :: l) m) with (save_regs pa f l (wr64 m (pa + p) (f q))).
  cbn [fmap list_fmap snd] in *. apply NoDup_cons in Hd as [Hp Hd]. apply elem_of_cons in Hin as [[= <- <-] | Hin].
  - rewrite (save_regs_ne pa f l n) by (done || lia). by apply rd64_wr64_eq.
  - by apply IH.
Qed.

Lemma run_saves W rb l h va pa n : mapped W (h_mem h) (h_satp h) va pa n -> (forall a, window pa n a -> W a) -> h_x h rb = va ->
  Forall (fun ro => 0 <= ro.2 /\ ro.2 + 8 <= n /\ ro.2 mod 8 = 0) l ->
  run_code (saves rb l) h = Some (set_hmem (save_regs pa (h_x h) l (h_mem h)) h).
Proof.
  intros Hm HW Hb Hl. revert h Hm Hb. induction Hl as [| [r o] l Ho Hl IH]; intros h Hm Hb; [by destruct h |].
  unfold saves. cbn [fmap list_fmap run_code exec_instr fst snd] in *.
  rewrite Hb, (Hm (h_mem h) o) by (done || lia). fold (saves rb l).
  rewrite IH; [done | | done]. cbn [h_mem h_satp set_hmem]. apply (mapped_agree _ _ _ _ _ _ _ Hm).
  intros a Ha. apply rd8_wr64_out. destruct (decide (a < pa + o)); [by left | right]. destruct (decide (pa + o + 8 <= a)); [done |].
  exfalso. apply Ha, HW. unfold window. lia.
Qed.

Lemma run_loads W rb l h va pa n : mapped W (h_mem h) (h_satp h) va pa n -> h_x h rb = va ->
  Forall (fun ro => 0 <= ro.2 /\ ro.2 + 8 <= n /\ ro.2 mod 8 = 0) l ->
  rb ∉ l.*1 -> x0 ∉ l.*1 -> NoDup l.*1 ->
  exists f, run_code (loads rb l) h = Some (set_xs f h) /\
    (forall r o, (r, o) ∈ l -> f r = rd64 (h_mem h) (pa + o)) /\ (forall r, r ∉ l.*1 -> f r = h_x h r).
Proof.
  intros Hm Hb Hl. revert h Hm Hb. induction Hl as [| [r o] l Ho Hl IH]; intros h Hm Hb Hrb Hx Hd.
  { exists (h_x h). split; [by destruct h |]. split; [| done]. intros r o H. by apply not_elem_of_nil in H. }
  unfold loads. cbn [fmap list_fmap run_code exec_instr fst snd] in *.
  apply not_elem_of_cons in Hrb as [Hrb1 Hrb2]. apply not_elem_of_cons in Hx as [Hx1 Hx2]. apply NoDup_cons in Hd as [Hd1 Hd2].
  rewrite Hb, (Hm (h_mem h) o) by (done || lia). fold (loads rb l).
  destruct (IH (set_x r (rd64 (h_mem h) (pa + o)) h)) as (f & E & Hin & Hout); try done.
  { cbn [h_x set_x]. by rewrite decide_False. }
  exists f. split; [exact E |]. split.
  - intros q p [[= -> ->] | Hq]%elem_of_cons; [| by apply Hin]. rewrite Hout by done. cbn [h_x set_x].
    by rewrite decide_True, decide_False.
  - intros q [Hq1 Hq2]%not_elem_of_cons. rewrite Hout by done. cbn [h_x set_x]. by rewrite decide_False.
Qed.

(** ** Traps from user space *)

Lemma slots_tf : slots_ok PGSIZE tf_layout.
Proof. split; [repeat constructor; unfold PGSIZE; cbn; lia | apply (bool_decide_unpack _); vm_compute; exact I]. Qed.

Lemma slots_others : slots_ok PGSIZE tf_others.
Proof. split; [apply (bool_decide_unpack _); vm_compute; exact I .. ]. Qed.

Lemma tf_others_in r o : (r, o) ∈ tf_layout -> r <> a0 -> (r, o) ∈ tf_others.
Proof. intros H Hr. by apply list_elem_of_filter. Qed.

Lemma tf_a0 o : (a0, o) ∈ tf_layout -> o = 112.
Proof.
  intros H. assert (Hf : Forall (fun ro => ro.1 = a0 -> ro.2 = 112) tf_layout) by (repeat constructor; done).
  rewrite Forall_forall in Hf. by apply (Hf _ H).
Qed.

Lemma tf_112 r : (r, 112) ∈ tf_layout -> r = a0.
Proof.
  intros H. assert (Hf : Forall (fun ro => ro.2 = 112 -> ro.1 = a0) tf_layout) by (repeat constructor; done).
  rewrite Forall_forall in Hf. by apply (Hf _ H).
Qed.

Lemma tf_off r o : (r, o) ∈ tf_layout -> 40 <= o /\ o + 8 <= 288 /\ o mod 8 = 0 /\ r <> x0.
Proof.
  intros H. assert (Hf : Forall (fun ro => 40 <= ro.2 /\ ro.2 + 8 <= 288 /\ ro.2 mod 8 = 0 /\ ro.1 <> x0) tf_layout)
    by (repeat constructor; cbn; congruence || lia).
  rewrite Forall_forall in Hf. by apply (Hf _ H).
Qed.

Lemma tf_slot r : r <> x0 -> exists o, (r, o) ∈ tf_layout.
Proof. intros Hr. unfold tf_layout. destruct r; [done | eexists; repeat first [apply list_elem_of_here | apply list_elem_of_further] ..]. Qed.

(** The end of [uservec]: the kernel's stack pointer, hart and page table, and the jump. *)
Definition kernel_fields : list (reg * Z) := [(sp, 8); (tp, 32); (t0, 16); (t1, 0)].

Lemma uservec_parts : uservec =
  [Csrw SSCRATCH a0; Li a0 TRAPFRAME] ++ saves a0 tf_others ++ [Csrr t0 SSCRATCH; Sd t0 112 a0] ++
  loads a0 kernel_fields ++ [SfenceVma; Csrw SATP t1; SfenceVma; Jr t0].
Proof. reflexivity. Qed.

Lemma userret_parts : userret =
  [SfenceVma; Csrw SATP a0; SfenceVma; Li a0 TRAPFRAME] ++ loads a0 tf_others ++ [Ld a0 112 a0; Sret].
Proof. reflexivity. Qed.

(** The trap frame after [uservec]. *)
Definition trapped (tf : Z) (h : hart) : mem :=
  wr64 (save_regs tf (fun q => if decide (q = a0) then TRAPFRAME else h_x h q) tf_others (h_mem h)) (tf + 112) (h_x h a0).

Lemma trapped_out tf h a : ~ window tf PGSIZE a -> rd8 (trapped tf h) a = rd8 (h_mem h) a.
Proof.
  intros Ha. unfold trapped. rewrite rd8_wr64_out by (unfold window, PGSIZE in Ha; lia).
  by apply (save_regs_out _ _ _ PGSIZE); [apply slots_others |].
Qed.

Lemma trapped_reg tf h r o : (forall q, 0 <= h_x h q < 2^64) -> (r, o) ∈ tf_layout -> rd64 (trapped tf h) (tf + o) = h_x h r.
Proof.
  intros Hok Hin. unfold trapped. pose proof (tf_off _ _ Hin). destruct (decide (r = a0)) as [-> | Hr].
  - rewrite (tf_a0 _ Hin). by apply rd64_wr64_eq.
  - assert (o <> 112). { intros ->. by apply Hr, tf_112. }
    rewrite rd64_wr64_ne by (pose proof (Z.div_mod o 8); lia).
    rewrite (save_regs_in _ _ _ PGSIZE _ r) by (apply slots_others || by apply tf_others_in || (rewrite decide_False by done; apply Hok)).
    by rewrite decide_False.
Qed.

Lemma trapped_kernel tf h o : o mod 8 = 0 -> o < 40 -> rd64 (trapped tf h) (tf + o) = rd64 (h_mem h) (tf + o).
Proof.
  intros Ho H. unfold trapped. rewrite rd64_wr64_ne by lia. apply (save_regs_ne _ _ _ PGSIZE); [apply slots_others | done |].
  intros Hin. assert (Hf : Forall (fun x => 40 <= x) tf_others.*2) by (vm_compute; repeat constructor; congruence).
  rewrite Forall_forall in Hf. specialize (Hf _ Hin). lia.
Qed.

Lemma uservec_run h tf : mapped (window tf PGSIZE) (h_mem h) (h_satp h) TRAPFRAME tf PGSIZE ->
  exists f, run_code uservec h = Some (mkHart f (h_x h a0) (rd64 (h_mem h) tf) (h_mhartid h) (h_sepc h) (h_spp h) (h_user h)
      (Some (rd64 (h_mem h) (tf + 16))) (trapped tf h)) /\
    f sp = rd64 (h_mem h) (tf + 8) /\ f tp = rd64 (h_mem h) (tf + 32).
Proof.
  intros Hm. rewrite uservec_parts, run_code_app. cbn [run_code exec_instr].
  set (h1 := set_x a0 TRAPFRAME (wr_csr SSCRATCH (h_x h a0) h)). rewrite run_code_app.
  rewrite (run_saves (window tf PGSIZE) a0 tf_others h1 TRAPFRAME tf PGSIZE); [| done | done | done | apply slots_others].
  rewrite run_code_app. cbn [run_code exec_instr].
  assert (Hm2 : mapped (window tf PGSIZE) (trapped tf h) (h_satp h) TRAPFRAME tf PGSIZE).
  { apply (mapped_agree _ _ _ _ _ _ _ Hm). apply trapped_out. }
  match goal with |- context [sv39 ?m ?s (u64 ?v)] => assert (Hx : sv39 m s (u64 v) = Some (tf + 112)) end.
  { cbn [h_x h_mem h_satp set_x set_hmem rd_csr]. apply (Hm _ 112); [| unfold PGSIZE; lia].
    intros a Ha. by apply (save_regs_out _ _ _ PGSIZE); [apply slots_others |]. }
  rewrite Hx. rewrite run_code_app.
  match goal with |- context [run_code (loads a0 kernel_fields) ?x] => set (h2 := x) end.
  destruct (run_loads _ a0 kernel_fields h2 TRAPFRAME tf PGSIZE Hm2 eq_refl) as (f & E & Hin & _).
  { repeat constructor; unfold PGSIZE; cbn; lia. }
  { apply (bool_decide_unpack _). reflexivity. }
  { apply (bool_decide_unpack _). reflexivity. }
  { apply (bool_decide_unpack _). reflexivity. }
  rewrite E. cbn [run_code exec_instr]. exists f.
  assert (Hk : forall r o, (r, o) ∈ kernel_fields -> o mod 8 = 0 -> o < 40 -> f r = rd64 (h_mem h) (tf + o)).
  { intros r o Hr Ho Hlt. rewrite (Hin _ _ Hr). exact (trapped_kernel tf h o Ho Hlt). }
  unfold wr_csr, set_xs, jump. cbn [h_x h_sscratch h_satp h_mhartid h_sepc h_spp h_user h_pc h_mem].
  rewrite (Hk t1 0), (Hk t0 16), Z.add_0_r by (set_solver || done). split; [done |].
  split; (apply Hk; [set_solver | done | lia]).
Qed.

Lemma userret_run k tf : mapped (window tf PGSIZE) (h_mem k) (h_x k a0) TRAPFRAME tf PGSIZE ->
  exists f, run_code userret k = Some (mkHart f (h_sscratch k) (h_x k a0) (h_mhartid k) (h_sepc k) (h_spp k) (h_spp k)
      (Some (h_sepc k)) (h_mem k)) /\
    forall r o, (r, o) ∈ tf_layout -> f r = rd64 (h_mem k) (tf + o).
Proof.
  intros Hm. rewrite userret_parts, run_code_app. cbn [run_code exec_instr]. rewrite run_code_app.
  match goal with |- context [run_code (loads a0 tf_others) ?x] => set (k1 := x) end.
  destruct (run_loads _ a0 tf_others k1 TRAPFRAME tf PGSIZE Hm eq_refl) as (f & E & Hin & Hout).
  { apply slots_others. }
  { apply (bool_decide_unpack _). vm_compute. exact I. }
  { apply (bool_decide_unpack _). vm_compute. exact I. }
  { apply (bool_decide_unpack _). vm_compute. exact I. }
  rewrite E. cbn [run_code exec_instr].
  match goal with |- context [sv39 ?m ?s (u64 ?v)] => assert (Hx : sv39 m s (u64 v) = Some (tf + 112)) end.
  { cbn [h_x set_xs h_mem h_satp]. rewrite Hout by (apply (bool_decide_unpack _); vm_compute; exact I).
    apply (Hm _ 112); [done | unfold PGSIZE; lia]. }
  rewrite Hx. eexists. split; [reflexivity |]. intros r o Hr. cbn [h_x set_x set_xs]. destruct (decide (r = a0)) as [-> | Hne].
  - by rewrite (tf_a0 _ Hr).
  - apply Hin. by apply tf_others_in.
Qed.

(** ** Translations that do not go through the window *)

Lemma PX_page level va o : 0 <= level -> 0 <= va -> 0 <= o -> va mod PGSIZE + o < PGSIZE -> PX level (va + o) = PX level va.
Proof.
  intros Hl Hva Ho H. unfold PX, PXSHIFT, PGSHIFT. f_equal. rewrite !Z.shiftr_div_pow2, !Z.pow_add_r, <- !Z.div_div by lia.
  f_equal. change (2 ^ 12) with PGSIZE. unfold PGSIZE in *. pose proof (Z.div_mod va 4096). pose proof (Z.div_mod (va + o) 4096).
  pose proof (Z.mod_pos_bound (va + o) 4096). pose proof (Z.mod_pos_bound va 4096). nia.
Qed.

Lemma sv39_mapped W m satp va n p1 p0 pg : 0 <= va -> va + n <= MAXVA -> va mod PGSIZE + n <= PGSIZE ->
  sv39_entry m (sv39_root satp) 2 va = Some p1 -> sv39_entry m p1 1 va = Some p0 -> sv39_entry m p0 0 va = Some pg ->
  (forall a i, W a -> 0 <= i < 8 -> a <> sv39_root satp + 8 * PX 2 va + i /\ a <> p1 + 8 * PX 1 va + i /\ a <> p0 + 8 * PX 0 va + i) ->
  mapped W m satp va (pg + va mod PGSIZE) n.
Proof.
  intros Hva Hmax Hpg E2 E1 E0 HW m' o Hm Ho.
  assert (HE : forall t level, 0 <= level -> (forall i, 0 <= i < 8 -> ~ W (t + 8 * PX level va + i)) ->
      sv39_entry m' t level (va + o) = sv39_entry m t level va).
  { intros t level Hl Ht. unfold sv39_entry. rewrite PX_page by lia.
    rewrite (rd64_ext m' m); [done |]. intros a Ha. apply Hm. replace a with (t + 8 * PX level va + (a - (t + 8 * PX level va))) by lia.
    apply Ht. lia. }
  unfold sv39. change MAXVA with 274877906944 in Hmax. rewrite u64_small by lia.
  rewrite !HE, E2 by (try lia; intros i Hi Hc; by destruct (HW _ i Hc Hi) as (? & ? & ?)).
  rewrite !HE, E1 by (try lia; intros i Hi Hc; by destruct (HW _ i Hc Hi) as (? & ? & ?)).
  rewrite !HE, E0 by (try lia; intros i Hi Hc; by destruct (HW _ i Hc Hi) as (? & ? & ?)).
  f_equal. pose proof (Z.div_mod va PGSIZE). pose proof (Z.div_mod (va + o) PGSIZE). unfold PGSIZE in *.
  pose proof (Z.mod_pos_bound (va + o) 4096). pose proof (Z.mod_pos_bound va 4096). nia.
Qed.

(** ** Context switches *)

Lemma slots_ctx : slots_ok 112 ctx_layout.
Proof. split; [repeat constructor; cbn; lia | apply (bool_decide_unpack _); vm_compute; exact I]. Qed.

Lemma swtch_parts : swtch_code = saves a0 ctx_layout ++ loads a1 ctx_layout ++ [Jr ra].
Proof. reflexivity. Qed.

(** [old] and [new] are where the two contexts are. *)
Definition switchable (h : hart) (old new : Z) : Prop :=
  mapped (window old 112) (h_mem h) (h_satp h) (h_x h a0) old 112 /\
  mapped (window old 112) (h_mem h) (h_satp h) (h_x h a1) new 112 /\
  (old + 112 <= new \/ new + 112 <= old).

Lemma swtch_run h old new : switchable h old new ->
  exists f, run_code swtch_code h = Some (mkHart f (h_sscratch h) (h_satp h) (h_mhartid h) (h_sepc h) (h_spp h) (h_user h)
      (Some (rd64 (h_mem h) new)) (save_regs old (h_x h) ctx_layout (h_mem h))) /\
    forall r o, (r, o) ∈ ctx_layout -> f r = rd64 (h_mem h) (new + o).
Proof.
  intros (Ho & Hn & Hd). rewrite swtch_parts, run_code_app.
  rewrite (run_saves (window old 112) a0 ctx_layout h (h_x h a0) old 112); [| done | done | done | apply slots_ctx].
  rewrite run_code_app. set (h1 := set_hmem _ h).
  assert (Hout : forall a, ~ window old 112 a -> rd8 (h_mem h1) a = rd8 (h_mem h) a).
  { intros a Ha. by apply (save_regs_out _ _ _ 112); [apply slots_ctx |]. }
  destruct (run_loads (window old 112) a1 ctx_layout h1 (h_x h a1) new 112) as (f & E & Hin & _).
  { by apply (mapped_agree _ (h_mem h)). }
  { done. }
  { apply slots_ctx. }
  { apply (bool_decide_unpack _). vm_compute. exact I. }
  { apply (bool_decide_unpack _). vm_compute. exact I. }
  { apply (bool_decide_unpack _). vm_compute. exact I. }
  assert (Hf : forall r o, (r, o) ∈ ctx_layout -> f r = rd64 (h_mem h) (new + o)).
  { intros r o Hr. rewrite (Hin _ _ Hr). apply rd64_ext. intros a Ha. apply Hout.
    assert (Hs := proj1 slots_ctx). rewrite Forall_forall in Hs. specialize (Hs _ Hr). cbn [snd] in Hs. unfold window. lia. }
  rewrite E. cbn [run_code exec_instr]. exists f. split; [| exact Hf].
  unfold jump, set_xs. cbn [h_x h_sscratch h_satp h_mhartid h_sepc h_spp h_user h_mem].
  rewrite (Hf ra 0), Z.add_0_r by set_solver. done.
Qed.

(** ** Interrupts in the kernel *)

(** The slots of the frame [kernelvec] pushes; [tp] is saved and not restored. *)
Definition kv_tail : list (reg * Z) :=
  [(gp, 16); (t0, 32); (t1, 40); (t2, 48); (a0, 72); (a1, 80); (a2, 88); (a3, 96); (a4, 104); (a5, 112);
   (a6, 120); (a7, 128); (t3, 216); (t4, 224); (t5, 232); (t6, 240)].
Definition kv_layout : list (reg * Z) :=
  [(ra, 0); (sp, 8); (gp, 16); (tp, 24); (t0, 32); (t1, 40); (t2, 48); (a0, 72); (a1, 80); (a2, 88); (a3, 96);
   (a4, 104); (a5, 112); (a6, 120); (a7, 128); (t3, 216); (t4, 224); (t5, 232); (t6, 240)].
Definition callee_saved : list reg := [s0; s1; s2; s3; s4; s5; s6; s7; s8; s9; s10; s11].

Lemma slots_kv : slots_ok 256 kv_layout.
Proof. split; [repeat constructor; cbn; lia | apply (bool_decide_unpack _); vm_compute; exact I]. Qed.

Lemma kv_tail_in r o : (r, o) ∈ kv_layout -> r <> ra -> r <> sp -> r <> tp -> (r, o) ∈ kv_tail.
Proof.
  intros H H1 H2 H3. assert (Hf : Forall (fun ro => ro.1 = ra \/ ro.1 = sp \/ ro.1 = tp \/ ro ∈ kv_tail) kv_layout)
    by (apply (bool_decide_unpack _); vm_compute; exact I).
  rewrite Forall_forall in Hf. destruct (Hf _ H) as [? | [? | [? | ?]]]; done.
Qed.

Lemma kv_regs r : r = sp \/ r = ra \/ r ∈ kv_tail.*1 -> r ∈ kv_layout.*1.
Proof.
  intros H. assert (Hf : Forall (fun r => r ∈ kv_layout.*1) (sp :: ra :: kv_tail.*1)) by (apply (bool_decide_unpack _); vm_compute; exact I).
  rewrite Forall_forall in Hf. apply Hf. rewrite !elem_of_cons. exact H.
Qed.

Lemma kernelvec_enter_run h pa : mapped (window pa 256) (h_mem h) (h_satp h) (u64 (h_x h sp - 256)) pa 256 ->
  run_code kernelvec_enter h = Some (set_hmem (save_regs pa (h_x (set_x sp (u64 (h_x h sp - 256)) h)) kv_layout (h_mem h))
    (set_x sp (u64 (h_x h sp - 256)) h)).
Proof.
  intros Hm. change kernelvec_enter with (Addi sp sp (-256) :: saves sp kv_layout). cbn [run_code exec_instr].
  change (h_x h sp + -256) with (h_x h sp - 256).
  by apply (run_saves (window pa 256) sp kv_layout (set_x sp (u64 (h_x h sp - 256)) h) (u64 (h_x h sp - 256)) pa 256); [| | | apply slots_kv].
Qed.

Lemma kernelvec_leave_run k va pa : mapped (window pa 256) (h_mem k) (h_satp k) va pa 256 -> h_x k sp = va ->
  rd64 (h_mem k) (pa + 8) = va ->
  exists f, run_code kernelvec_leave k = Some (mkHart f (h_sscratch k) (h_satp k) (h_mhartid k) (h_sepc k) (h_spp k) (h_spp k)
      (Some (h_sepc k)) (h_mem k)) /\
    f sp = u64 (va + 256) /\ (forall r o, (r, o) ∈ kv_layout -> r <> sp -> r <> tp -> f r = rd64 (h_mem k) (pa + o)) /\
    (forall r, r ∉ kv_layout.*1 -> f r = h_x k r) /\ f tp = h_x k tp.
Proof.
  intros Hm Hsp H8. change kernelvec_leave with (loads sp [(ra, 0); (sp, 8)] ++ loads sp kv_tail ++ [Addi sp sp 256; Sret]).
  rewrite run_code_app. unfold loads at 1. cbn [fmap list_fmap run_code exec_instr fst snd].
  rewrite Hsp, (Hm (h_mem k) 0) by (done || lia).
  assert (E8 : sv39 (h_mem k) (h_satp k) (u64 (h_x (set_x ra (rd64 (h_mem k) (pa + 0)) k) sp + 8)) = Some (pa + 8)).
  { cbn [h_x set_x]. rewrite decide_False by done. rewrite Hsp. apply Hm; [done | lia]. }
  cbn [h_mem h_satp set_x] in *. rewrite E8. rewrite H8, run_code_app.
  match goal with |- context [run_code (loads sp kv_tail) ?x] => set (k1 := x) end.
  destruct (run_loads (window pa 256) sp kv_tail k1 va pa 256 Hm eq_refl) as (f & E & Hin & Hout).
  { repeat constructor; cbn; lia. }
  { apply (bool_decide_unpack _). vm_compute. exact I. }
  { apply (bool_decide_unpack _). vm_compute. exact I. }
  { apply (bool_decide_unpack _). vm_compute. exact I. }
  rewrite E. cbn [run_code exec_instr]. eexists. split; [reflexivity |]. cbn [h_x set_x set_xs].
  assert (Hs : f sp = va) by (apply Hout; apply (bool_decide_unpack _); vm_compute; exact I).
  split; [by rewrite Hs |]. split; [| split].
  - intros r o Hr Hne Ht. rewrite decide_False by done. destruct (decide (r = ra)) as [-> | Hra].
    + rewrite Hout by (apply (bool_decide_unpack _); vm_compute; exact I). cbn [k1 h_x set_x].
      assert (Ho : Forall (fun ro => ro.1 = ra -> ro.2 = 0) kv_layout) by (repeat constructor; done).
      rewrite Forall_forall in Ho. pose proof (Ho _ Hr eq_refl) as Eo. cbn [snd] in Eo. by rewrite Eo.
    + apply Hin. by apply kv_tail_in.
  - intros r Hr. assert (Hr' : r <> sp /\ r <> ra /\ r ∉ kv_tail.*1).
    { split_and!; [intros -> | intros -> | intros Hc]; apply Hr; apply kv_regs; tauto. }
    destruct Hr' as (H1 & H2 & H3). rewrite decide_False by done. rewrite Hout by done. cbn [k1 h_x set_x].
    by rewrite !decide_False.
  - rewrite decide_False by done. rewrite Hout by (apply (bool_decide_unpack _); vm_compute; exact I).
    cbn [k1 h_x set_x]. by rewrite !decide_False.
Qed.

(** ** Example memories *)

(** A page table at 0x80001000 that maps page [va] to page [pg]. *)
Definition example_satp : Z := MAKE_SATP 0x80001000.
Definition example_table (va pg : Z) (m : mem) : mem :=
  wr64 (wr64 (wr64 m (0x80001000 + 8 * PX 2 va) (Z.lor (PA2PTE 0x80002000) PTE_V))
             (0x80002000 + 8 * PX 1 va) (Z.lor (PA2PTE 0x80003000) PTE_V))
       (0x80003000 + 8 * PX 0 va) (Z.lor (PA2PTE pg) (Z.lor PTE_V (Z.lor PTE_R PTE_W))).

Definition example_hart (va pg : Z) (x : reg -> Z) : hart :=
  mkHart x 0 example_satp 0 0x1234 true true None (example_table va pg ∅).

(** Registers with distinct values. *)
Definition example_x (r : reg) : Z :=
  match r with
  | x0 => 0 | ra => 1 | sp => 2 | gp => 3 | tp => 4 | t0 => 5 | t1 => 6 | t2 => 7 | s0 => 8 | s1 => 9 | a0 => 10 | a1 => 11
  | a2 => 12 | a3 => 13 | a4 => 14 | a5 => 15 | a6 => 16 | a7 => 17 | s2 => 18 | s3 => 19 | s4 => 20 | s5 => 21 | s6 => 22
  | s7 => 23 | s8 => 24 | s9 => 25 | s10 => 26 | s11 => 27 | t3 => 28 | t4 => 29 | t5 => 30 | t6 => 31
  end.

Lemma example_mapped W va pg pa n : 0 <= va -> va + n <= MAXVA -> va mod PGSIZE + n <= PGSIZE -> pa = pg + va mod PGSIZE ->
  sv39_entry (example_table va pg ∅) 0x80001000 2 va = Some 0x80002000 ->
  sv39_entry (example_table va pg ∅) 0x80002000 1 va = Some 0x80003000 ->
  sv39_entry (example_table va pg ∅) 0x80003000 0 va = Some pg ->
  (forall a, W a -> 0x80004000 <= a) ->
  mapped W (example_table va pg ∅) example_satp va pa n.
Proof.
  intros Hva Hmax Hpg -> E2 E1 E0 HW. apply (sv39_mapped _ _ _ _ _ 0x80002000 0x80003000); try done.
  intros a i Ha Hi. specialize (HW _ Ha). change (sv39_root example_satp) with 0x80001000.
  pose proof (PX_range 2 va ltac:(lia)). pose proof (PX_range 1 va ltac:(lia)). pose proof (PX_range 0 va ltac:(lia)). lia.
Qed.

(** ** Properties *)

(** C30: User registers survive a trap. From a hart whose page table maps the trap
    frame page at TRAPFRAME, [uservec] does not fault, saves every user register in
    the trap frame, and jumps to the address in [kernel_trap] with the kernel's
    stack pointer, hart id and page table from the trap frame; outside the frame
    page memory is unchanged. When [userret] later runs on a hart [k], each user
    register becomes what its slot of the trap frame then holds: if the kernel has
    left the slots alone, all registers are those of the trapped program. *)
Theorem trap_restores_registers (h : hart) (tf : Z) (Hok : forall q, 0 <= h_x h q < 2^64)
    (Hm : mapped (window tf PGSIZE) (h_mem h) (h_satp h) TRAPFRAME tf PGSIZE) :
  exists h1, run_code uservec h = Some h1 /\
    h_pc h1 = Some (rd64 (h_mem h) (tf + 16)) /\ h_satp h1 = rd64 (h_mem h) tf /\
    h_x h1 sp = rd64 (h_mem h) (tf + 8) /\ h_x h1 tp = rd64 (h_mem h) (tf + 32) /\
    (forall r o, (r, o) ∈ tf_layout -> rd64 (h_mem h1) (tf + o) = h_x h r) /\
    (forall a, ~ window tf PGSIZE a -> rd8 (h_mem h1) a = rd8 (h_mem h) a) /\
    forall k, mapped (window tf PGSIZE) (h_mem k) (h_x k a0) TRAPFRAME tf PGSIZE ->
      exists h2, run_code userret k = Some h2 /\
        h_pc h2 = Some (h_sepc k) /\ h_user h2 = h_spp k /\ h_satp h2 = h_x k a0 /\ h_mem h2 = h_mem k /\
        (forall r o, (r, o) ∈ tf_layout -> h_x h2 r = rd64 (h_mem k) (tf + o)) /\
        ((forall a, tf + 40 <= a < tf + 288 -> rd8 (h_mem k) a = rd8 (h_mem h1) a) ->
          forall r, r <> x0 -> h_x h2 r = h_x h r).
Proof.
  destruct (uservec_run h tf Hm) as (f & E & Hsp & Htp). eexists. split; [exact E |]. cbn [h_pc h_satp h_x h_mem].
  do 4 (split; [done |]). split; [intros r o Hr; by apply trapped_reg |]. split; [apply trapped_out |].
  intros k Hk. destruct (userret_run k tf Hk) as (g & Ek & Hg). eexists. split; [exact Ek |]. cbn [h_pc h_user h_satp h_mem h_x].
  do 4 (split; [done |]). split; [exact Hg |]. intros Hsame r Hr.
  destruct (tf_slot r Hr) as [o Hin]. rewrite (Hg _ _ Hin), <- (trapped_reg tf h r o Hok Hin). pose proof (tf_off _ _ Hin).
  apply rd64_ext. intros a Ha. apply Hsame. lia.
Qed.

Lemma trap_restores_registers_witness :
  exists h1, run_code uservec (example_hart TRAPFRAME 0x80004000 example_x) = Some h1 /\
    exists h2, run_code userret (set_xs (fun r => if decide (r = a0) then example_satp else 77) (wr_csr SATP 0 h1)) = Some h2 /\
      forall r, r <> x0 -> h_x h2 r = example_x r.
Proof.
  assert (Hw : forall a, window 0x80004000 PGSIZE a -> 0x80004000 <= a) by (unfold window; lia).
  assert (Hm : mapped (window 0x80004000 PGSIZE) (example_table TRAPFRAME 0x80004000 ∅) example_satp TRAPFRAME 0x80004000 PGSIZE).
  { apply (example_mapped _ TRAPFRAME 0x80004000 0x80004000 PGSIZE); [vm_compute; congruence .. | exact Hw]. }
  destruct (trap_restores_registers (example_hart TRAPFRAME 0x80004000 example_x) 0x80004000) as (h1 & E & _ & _ & _ & _ & _ & Hout & Hk).
  - intros []; vm_compute; (split; [congruence | reflexivity]).
  - exact Hm.
  - exists h1. split; [exact E |].
    destruct (Hk (set_xs (fun r => if decide (r = a0) then example_satp else 77) (wr_csr SATP 0 h1))) as (h2 & E2 & _ & _ & _ & _ & _ & Hr).
    + apply (mapped_agree _ _ _ _ _ _ _ Hm). exact Hout.
    + exists h2. split; [exact E2 |]. apply Hr. intros a _. reflexivity.
Defined.

(** C31: A context switch resumes the other thread, and can be undone. [swtch(old,
    new)] saves the caller's return address, stack pointer and callee-saved
    registers in [old], and continues at the return address in [new] with the
    registers saved there, changing no memory but [old]. When some thread [k] later
    switches to the context [old], unchanged since, the first thread continues after
    its call of [swtch] with all these registers as they were. *)
Theorem swtch_resumes (h : hart) (old new : Z) (Hok : forall q, 0 <= h_x h q < 2^64) (Hs : switchable h old new) :
  exists h1, run_code swtch_code h = Some h1 /\
    h_pc h1 = Some (rd64 (h_mem h) new) /\ h_satp h1 = h_satp h /\
    (forall r o, (r, o) ∈ ctx_layout -> h_x h1 r = rd64 (h_mem h) (new + o)) /\
    (forall a, ~ window old 112 a -> rd8 (h_mem h1) a = rd8 (h_mem h) a) /\
    forall k other, switchable k other old -> (forall a, window old 112 a -> rd8 (h_mem k) a = rd8 (h_mem h1) a) ->
      exists k1, run_code swtch_code k = Some k1 /\ h_pc k1 = Some (h_x h ra) /\
        forall r, r ∈ ctx_layout.*1 -> h_x k1 r = h_x h r.
Proof.
  destruct (swtch_run h old new Hs) as (f & E & Hf). eexists. split; [exact E |]. cbn [h_pc h_x h_mem].
  do 2 (split; [done |]). split; [exact Hf |]. split.
  { intros a Ha. by apply (save_regs_out _ _ _ 112); [apply slots_ctx |]. }
  intros k other Hk Hsame. destruct (swtch_run k other old Hk) as (g & Ek & Hg). eexists. split; [exact Ek |]. cbn [h_pc h_x].
  assert (Hr : forall r o, (r, o) ∈ ctx_layout -> rd64 (h_mem k) (old + o) = h_x h r).
  { intros r o Hin. rewrite <- (save_regs_in old (h_x h) ctx_layout 112 (h_mem h) r o slots_ctx Hin (Hok r)).
    apply rd64_ext. intros a Ha. apply Hsame. assert (Hl := proj1 slots_ctx). rewrite Forall_forall in Hl.
    specialize (Hl _ Hin). cbn [snd] in Hl. unfold window. lia. }
  split.
  - rewrite <- (Hr ra 0), Z.add_0_r; [done | apply list_elem_of_here].
  - intros r Hin. apply list_elem_of_fmap in Hin as ([r' o] & -> & Hin). cbn [fst]. by rewrite (Hg _ _ Hin), (Hr _ _ Hin).
Qed.

(** Contexts at 0x100 and 0x200 of a page mapped at 0x80005000. *)
Definition example_switch : hart :=
  example_hart 0x80005000 0x80005000 (fun r => if decide (r = a0) then 0x80005100 else if decide (r = a1) then 0x80005200 else example_x r).

Lemma swtch_resumes_witness :
  exists h1, run_code swtch_code example_switch = Some h1 /\
    exists k1, run_code swtch_code (set_xs (fun r => if decide (r = a0) then 0x80005200 else if decide (r = a1) then 0x80005100 else 99) h1) = Some k1 /\
      forall r, r ∈ ctx_layout.*1 -> h_x k1 r = example_x r.
Proof.
  assert (Hm : forall W d, (forall a, W a -> 0x80005000 <= a) -> 0 <= d -> d + 112 <= PGSIZE ->
      mapped W (example_table 0x80005000 0x80005000 ∅) example_satp (0x80005000 + d) (0x80005000 + d) 112).
  { intros W d HW Hd Hd2. apply (mapped_sub _ _ _ _ _ PGSIZE); [| lia | exact Hd2].
    apply example_mapped; [vm_compute; congruence .. |]. intros a Ha. specialize (HW a Ha). lia. }
  destruct (swtch_resumes example_switch 0x80005100 0x80005200) as (h1 & E & _ & Es & _ & Hout & Hk).
  - intros []; vm_compute; (split; [congruence | reflexivity]).
  - split; [apply (Hm _ 0x100) | split; [apply (Hm _ 0x200) | lia]]; unfold window, PGSIZE; lia.
  - exists h1. split; [exact E |].
    change (h_satp example_switch) with example_satp in Es.
    destruct (Hk (set_xs (fun r => if decide (r = a0) then 0x80005200 else if decide (r = a1) then 0x80005100 else 99) h1) 0x80005200)
      as (k1 & Ek & _ & Hr).
    + unfold switchable, set_xs. cbn [h_mem h_satp h_x]. rewrite Es.
      assert (Hw : forall W d, (forall a, W a -> 0x80005000 <= a) -> 0 <= d -> d + 112 <= PGSIZE ->
          mapped W (h_mem h1) example_satp (0x80005000 + d) (0x80005000 + d) 112).
      { intros W d HW Hd Hd2. apply (mapped_mono (fun a => W a \/ window 0x80005100 112 a)); [tauto |].
        apply (mapped_agree _ (example_table 0x80005000 0x80005000 ∅)); [apply Hm; [| done ..] |].
        - intros a [Ha | Ha]; [by apply HW |]. unfold window in Ha. lia.
        - intros a Ha. apply Hout. tauto. }
      split; [apply (Hw _ 0x200) | split; [apply (Hw _ 0x100) | lia]]; unfold window, PGSIZE; lia.
    + intros a _. reflexivity.
    + exists k1. split; [exact Ek |]. intros r Hin. rewrite (Hr r Hin). cbn [h_x example_switch example_hart].
      assert (Hne : r <> a0 /\ r <> a1) by (split; intros ->; revert Hin; apply (bool_decide_unpack _); vm_compute; exact I).
      destruct Hne as [H0 H1]. rewrite (decide_False _ _ H0), (decide_False _ _ H1). reflexivity.
Defined.

(** C32: An interrupt in the kernel is invisible to what it interrupted. Whatever
    [kerneltrap] does between the two halves of [kernelvec], provided it respects the
    calling convention (it preserves the stack pointer, the frame on the stack and
    the callee-saved registers), every register but [tp] is restored and the hart
    continues at [sepc]; [tp] stays that of the hart the thread now runs on. *)
Theorem kernelvec_restores (h : hart) (pa : Z) (Hok : forall q, 0 <= h_x h q < 2^64)
    (Hm : mapped (window pa 256) (h_mem h) (h_satp h) (u64 (h_x h sp - 256)) pa 256) :
  exists h1, run_code kernelvec_enter h = Some h1 /\ h_x h1 sp = u64 (h_x h sp - 256) /\ h_satp h1 = h_satp h /\
    (forall a, ~ window pa 256 a -> rd8 (h_mem h1) a = rd8 (h_mem h) a) /\
    forall k, mapped (window pa 256) (h_mem k) (h_satp k) (u64 (h_x h sp - 256)) pa 256 ->
      (forall a, window pa 256 a -> rd8 (h_mem k) a = rd8 (h_mem h1) a) ->
      (forall r, r = sp \/ r ∈ callee_saved -> h_x k r = h_x h1 r) ->
      exists h2, run_code kernelvec_leave k = Some h2 /\ h_pc h2 = Some (h_sepc k) /\ h_mem h2 = h_mem k /\
        h_x h2 tp = h_x k tp /\ forall r, r <> x0 -> r <> tp -> h_x h2 r = h_x h r.
Proof.
  rewrite (kernelvec_enter_run h pa Hm). eexists. split; [reflexivity |]. do 2 (split; [done |]). split.
  { intros a Ha. cbn [h_mem set_hmem]. by apply (save_regs_out _ _ _ 256); [apply slots_kv |]. }
  set (va := u64 (h_x h sp - 256)) in *. set (g := h_x (set_x sp va h)). intros k Hk Hsame Hconv.
  assert (Hg : forall q, 0 <= g q < 2^64) by (intros q; unfold g; cbn [h_x set_x]; case_decide; [apply u64_range | apply Hok]).
  assert (Hr : forall r o, (r, o) ∈ kv_layout -> rd64 (h_mem k) (pa + o) = g r).
  { intros r o Hin. rewrite <- (save_regs_in pa g kv_layout 256 (h_mem h) r o slots_kv Hin (Hg r)).
    apply rd64_ext. intros a Ha. apply Hsame. assert (Hl := proj1 slots_kv). rewrite Forall_forall in Hl.
    specialize (Hl _ Hin). cbn [snd] in Hl. unfold window. lia. }
  destruct (kernelvec_leave_run k va pa Hk) as (f & E & Hsp & Hin & Hout & Htp).
  { rewrite (Hconv sp) by tauto. done. }
  { rewrite (Hr sp 8); [done |]. apply list_elem_of_further, list_elem_of_here. }
  eexists. split; [exact E |]. cbn [h_pc h_mem h_x]. do 2 (split; [done |]). split; [exact Htp |]. intros r Hx Ht.
  destruct (decide (r = sp)) as [-> | Hs].
  { rewrite Hsp. unfold va, u64. rewrite Zplus_mod_idemp_l. replace (h_x h sp - 256 + 256) with (h_x h sp) by lia. by apply Z.mod_small. }
  destruct (decide (r ∈ kv_layout.*1)) as [Hl | Hl].
  - apply list_elem_of_fmap in Hl as ([r' o] & -> & Hl). cbn [fst] in *. rewrite (Hin _ _ Hl Hs Ht), (Hr _ _ Hl).
    unfold g. cbn [h_x set_x]. by rewrite decide_False.
  - rewrite (Hout r Hl), Hconv; [unfold g in *; cbn [h_x set_x set_hmem]; by rewrite decide_False |]. right.
    revert Hx Ht Hs Hl. clear. destruct r; intros; try done; first [by (exfalso; apply Hl; apply (bool_decide_unpack _)) | by apply (bool_decide_unpack _)].
Qed.

Definition example_interrupt : hart :=
  example_hart 0x80005000 0x80005000 (fun r => if decide (r = sp) then 0x80005800 else example_x r).

Lemma kernelvec_restores_witness :
  exists h1, run_code kernelvec_enter example_interrupt = Some h1 /\
    exists h2, run_code kernelvec_leave (set_x t0 5 (set_x a0 77 (set_x tp 3 h1))) = Some h2 /\
      h_x h2 tp = 3 /\ forall r, r <> x0 -> r <> tp -> h_x h2 r = h_x example_interrupt r.
Proof.
  assert (Hm : mapped (window 0x80005700 256) (example_table 0x80005000 0x80005000 ∅) example_satp (0x80005000 + 0x700) (0x80005000 + 0x700) 256).
  { apply (mapped_sub _ _ _ _ _ PGSIZE); [| lia | unfold PGSIZE; lia].
    apply example_mapped; [vm_compute; congruence .. |]. unfold window. lia. }
  destruct (kernelvec_restores example_interrupt 0x80005700) as (h1 & E & _ & Es & Hout & Hk).
  - intros []; vm_compute; (split; [congruence | reflexivity]).
  - exact Hm.
  - exists h1. split; [exact E |].
    change (h_satp example_interrupt) with example_satp in Es.
    destruct (Hk (set_x t0 5 (set_x a0 77 (set_x tp 3 h1)))) as (h2 & E2 & _ & _ & Etp & Hr).
    + cbn [h_mem h_satp set_x]. rewrite Es. apply (mapped_agree _ _ _ _ _ _ _ Hm). exact Hout.
    + intros a _. reflexivity.
    + intros r Hs. assert (Hne : r <> t0 /\ r <> a0 /\ r <> tp).
      { split_and!; intros ->; (destruct Hs as [[=] | Hs]; revert Hs; apply (bool_decide_unpack _); vm_compute; exact I). }
      destruct Hne as (H0 & H1 & H2). cbn [h_x set_x]. rewrite (decide_False _ _ H0), (decide_False _ _ H1), (decide_False _ _ H2). reflexivity.
    + exists h2. split; [exact E2 |]. split; [exact Etp | exact Hr].
Defined.
