(* ===== verification/Start.v ===== *)
(** * kernel/entry.S and kernel/start.c: from reset to main

    Machine-mode initialisation of a hart. [_entry] gives the hart a stack of its
    own; [start] and [timerinit] set control registers and return to [main] in
    supervisor mode. *)

From S2P Require Import Prelude Riscv Mem Asm.

Definition MSTATUS_MPP_MASK : Z := Z.shiftl 3 11.
Definition MSTATUS_MPP_S : Z := Z.shiftl 1 11.
Definition SIE_SEIE : Z := Z.shiftl 1 9.
Definition SIE_STIE : Z := Z.shiftl 1 5.
Definition SIE_SSIE : Z := Z.shiftl 1 1.
Definition MIE_STIE : Z := Z.shiftl 1 5.

(** The registers [start] reads or writes. *)
Record mregs := mkMregs {
  mr_mstatus : Z; mr_mepc : Z; mr_satp : Z; mr_medeleg : Z; mr_mideleg : Z; mr_sie : Z; mr_pmpaddr0 : Z;
  mr_pmpcfg0 : Z; mr_mie : Z; mr_menvcfg : Z; mr_mcounteren : Z; mr_stimecmp : Z; mr_time : Z; mr_mhartid : Z;
  mr_tp : Z }.

Definition set_mstatus (x : Z) (r : mregs) : mregs :=
  mkMregs x (mr_mepc r) (mr_satp r) (mr_medeleg r) (mr_mideleg r) (mr_sie r) (mr_pmpaddr0 r) (mr_pmpcfg0 r)
    (mr_mie r) (mr_menvcfg r) (mr_mcounteren r) (mr_stimecmp r) (mr_time r) (mr_mhartid r) (mr_tp r).
Definition set_traps (mepc satp medeleg mideleg sie : Z) (r : mregs) : mregs :=
  mkMregs (mr_mstatus r) mepc satp medeleg mideleg sie (mr_pmpaddr0 r) (mr_pmpcfg0 r)
    (mr_mie r) (mr_menvcfg r) (mr_mcounteren r) (mr_stimecmp r) (mr_time r) (mr_mhartid r) (mr_tp r).
Definition set_pmp (addr cfg : Z) (r : mregs) : mregs :=
  mkMregs (mr_mstatus r) (mr_mepc r) (mr_satp r) (mr_medeleg r) (mr_mideleg r) (mr_sie r) addr cfg
    (mr_mie r) (mr_menvcfg r) (mr_mcounteren r) (mr_stimecmp r) (mr_time r) (mr_mhartid r) (mr_tp r).
Definition set_timer (mie menvcfg mcounteren stimecmp : Z) (r : mregs) : mregs :=
  mkMregs (mr_mstatus r) (mr_mepc r) (mr_satp r) (mr_medeleg r) (mr_mideleg r) (mr_sie r) (mr_pmpaddr0 r) (mr_pmpcfg0 r)
    mie menvcfg mcounteren stimecmp (mr_time r) (mr_mhartid r) (mr_tp r).
Definition set_mtp (x : Z) (r : mregs) : mregs :=
  mkMregs (mr_mstatus r) (mr_mepc r) (mr_satp r) (mr_medeleg r) (mr_mideleg r) (mr_sie r) (mr_pmpaddr0 r) (mr_pmpcfg0 r)
    (mr_mie r) (mr_menvcfg r) (mr_mcounteren r) (mr_stimecmp r) (mr_time r) (mr_mhartid r) x.

(** kernel/start.c *)
Definition timerinit (r : mregs) : mregs :=
  set_timer (Z.lor (mr_mie r) MIE_STIE) (Z.lor (mr_menvcfg r) (Z.shiftl 1 63)) (Z.lor (mr_mcounteren r) 2)
    (u64 (mr_time r + 1000000)) r.

(** [start] up to [mret]; [main_pc] is the address of [main]. *)
Definition start (main_pc : Z) (r : mregs) : mregs :=
  let x := mr_mstatus r in
  let x := Z.land x (u64 (Z.lnot MSTATUS_MPP_MASK)) in
  let x := Z.lor x MSTATUS_MPP_S in
  let r := set_mstatus x r in
  let r := set_traps main_pc 0 0xffff 0xffff (Z.lor (Z.lor (Z.lor (mr_sie r) SIE_SEIE) SIE_STIE) SIE_SSIE) r in
  let r := set_pmp 0x3fffffffffffff 0xf r in
  let r := timerinit r in
  set_mtp (i32 (mr_mhartid r)) r.

(** [mret]: the mode in [mstatus.MPP], and the address in [mepc]. *)
Definition mret (r : mregs) : Z * Z := (Z.land (Z.shiftr (mr_mstatus r) 11) 3, mr_mepc r).

(** ** Properties *)

(** The stack of a hart: the 4096 bytes below its initial stack pointer. *)
Definition in_stack (top a : Z) : Prop := top - 4096 <= a < top.

(** C33: Every hart starts on a stack of its own and enters [main] in supervisor
    mode. For each of the NCPU harts, [_entry] sets [sp] to the top of a 4096-byte
    stack that lies within [stack0] and is disjoint from the stacks of the other
    harts; [start] then returns to [main] with previous mode S (1), paging off,
    all supervisor interrupts enabled, and [tp] holding the hart id. *)
Theorem harts_start_apart (stack0 main_pc : Z) (h : hart) (r : mregs)
    (Hs : 0 <= stack0 /\ stack0 + 4096 * Z.of_nat NCPU < 2^64) (Hi : 0 <= h_mhartid h < Z.of_nat NCPU)
    (Hr : mr_mhartid r = h_mhartid h) :
  exists h', run_code (entry_code stack0) h = Some h' /\
    (forall a, in_stack (h_x h' sp) a -> stack0 <= a < stack0 + 4096 * Z.of_nat NCPU) /\
    (forall g g' a, run_code (entry_code stack0) g = Some g' -> 0 <= h_mhartid g < Z.of_nat NCPU ->
       h_mhartid g <> h_mhartid h -> in_stack (h_x h' sp) a -> in_stack (h_x g' sp) a -> False) /\
    mret (start main_pc r) = (1, main_pc) /\ mr_satp (start main_pc r) = 0 /\ mr_tp (start main_pc r) = h_mhartid h /\
    Z.testbit (mr_sie (start main_pc r)) 9 = true /\ Z.testbit (mr_sie (start main_pc r)) 5 = true.
Proof.
  assert (Hrun : forall g, 0 <= h_mhartid g < Z.of_nat NCPU ->
      exists g', run_code (entry_code stack0) g = Some g' /\ h_x g' sp = stack0 + 4096 * (h_mhartid g + 1)).
  { intros g Hg. unfold NCPU in *. eexists. split; [reflexivity |]. cbn [h_x set_x rd_csr h_mhartid].
    repeat first [rewrite (decide_True (P := a0 = a0)) by done | rewrite (decide_True (P := a1 = a1)) by done
      | rewrite (decide_True (P := sp = sp)) by done | rewrite decide_False by done].
    rewrite (u64_small (h_mhartid g + 1)), (u64_small (1024 * 4 * _)), u64_small by lia. lia. }
  destruct (Hrun h Hi) as (h' & E & Ex). exists h'. split; [exact E |]. unfold in_stack, NCPU in *. split; [lia |]. split.
  { intros g g' a Eg Hg Hne Ha Ha'. destruct (Hrun g Hg) as (g2 & Eg2 & Ex2). rewrite Eg in Eg2. injection Eg2 as <-. lia. }
  split.
  { unfold mret, start. cbn [mr_mstatus mr_mepc set_mtp set_mstatus set_traps set_pmp timerinit set_timer]. f_equal.
    apply Z.bits_inj'. intros i Hn. rewrite Z.land_spec, Z.shiftr_spec, Z.lor_spec, Z.land_spec by done.
    destruct (decide (i < 2)).
    - assert (Hc : i = 0 \/ i = 1) by lia. destruct Hc as [-> | ->]; cbn -[Z.land Z.lor]; by rewrite ?andb_false_r, ?orb_true_r.
    - change 3 with (Z.ones 2). rewrite (Z.ones_spec_high 2) by lia. rewrite andb_false_r. symmetry. apply (Z.bits_above_log2 1); cbn; lia. }
  split; [done |]. split.
  { cbn. rewrite Hr. apply i32_small. lia. }
  unfold start. cbn [mr_sie set_mtp set_mstatus set_traps set_pmp timerinit set_timer]. rewrite !Z.lor_spec.
  split; by rewrite !orb_true_r.
Qed.

Definition reset_regs (hartid : Z) : mregs := mkMregs 0x1800 0 0 0 0 0 0 0 0 0 0 0 0 hartid 0.

Lemma harts_start_apart_witness :
  exists h', run_code (entry_code 0x80010000) (mkHart example_x 0 0 3 0 false false None ∅) = Some h' /\
    (forall a, in_stack (h_x h' sp) a -> 0x80010000 <= a < 0x80018000) /\
    mret (start 0x80000e00 (reset_regs 3)) = (1, 0x80000e00).
Proof.
  destruct (harts_start_apart 0x80010000 0x80000e00 (mkHart example_x 0 0 3 0 false false None ∅) (reset_regs 3)) as (h' & E & H & _ & Hm & _).
  - split; [lia | reflexivity].
  - split; [cbn; lia | reflexivity].
  - reflexivity.
  - exists h'. split; [exact E |]. split; [exact H | exact Hm].
Defined.
