(* ===== verification/Initcode.v ===== *)
(** * The first user program (kernel/proc.c: initcode; user/initcode.S)

    A decoder and interpreter for the RV64I instructions of [initcode], and what the
    program does: its bytes are run from address 0 of a zeroed page. *)

From S2P Require Import Prelude Riscv Mem Bytes StringLib Spinlock Kalloc Vm Proc State Sleeplock Bio Log Uart Printf Console Fs File Exec ProcFs Syscall Sysfile Sysproc Virtio Trap.

(** ** RV64I: auipc, addi, jal, ecall *)

Definition bits (x lo n : Z) : Z := Z.land (Z.shiftr x lo) (Z.ones n).
(** Sign extension of an [n]-bit field. *)
Definition sext (n x : Z) : Z := if Z.testbit x (n - 1) then x - 2^n else x.

Inductive uinstr := Auipc (rd imm : Z) | UAddi (rd rs1 imm : Z) | Jal (rd imm : Z) | Ecall | Unknown.

Definition decode (w : Z) : uinstr :=
  let opcode := bits w 0 7 in
  if opcode =? 0x17 then Auipc (bits w 7 5) (Z.shiftl (sext 20 (bits w 12 20)) 12)
  else if (opcode =? 0x13) && (bits w 12 3 =? 0) then UAddi (bits w 7 5) (bits w 15 5) (sext 12 (bits w 20 12))
  else if opcode =? 0x6f then
    Jal (bits w 7 5)
      (sext 21 (Z.lor (Z.lor (Z.shiftl (bits w 31 1) 20) (Z.shiftl (bits w 12 8) 12))
                      (Z.lor (Z.shiftl (bits w 20 1) 11) (Z.shiftl (bits w 21 10) 1))))
  else if w =? 0x73 then Ecall else Unknown.

Record ustate := mkUstate { u_pc : Z; u_x : list Z; u_page : list Z }.

Definition ureg (s : ustate) (r : Z) : Z := default 0 (u_x s !! Z.to_nat r).
Definition setreg (r v : Z) (s : ustate) : ustate :=
  if r =? 0 then s else mkUstate (u_pc s) (<[Z.to_nat r := u64 v]> (u_x s)) (u_page s).
Definition setpc (pc : Z) (s : ustate) : ustate := mkUstate pc (u_x s) (u_page s).

(** Run to the next system call; the program counter is left at the [ecall]. *)
Fixpoint run_user (fuel : nat) (s : ustate) : option ustate :=
  match fuel with
  | O => None
  | S fuel =>
      match decode (getle 4 (Z.to_nat (u_pc s)) (u_page s)) with
      | Auipc rd imm => run_user fuel (setpc (u_pc s + 4) (setreg rd (u_pc s + imm) s))
      | UAddi rd rs imm => run_user fuel (setpc (u_pc s + 4) (setreg rd (ureg s rs + imm) s))
      | Jal rd imm => run_user fuel (setpc (u_pc s + imm) (setreg rd (u_pc s + 4) s))
      | Ecall => Some s
      | Unknown => None
      end
  end.

(** The user page [uvmfirst] makes of [initcode]. *)
Definition init_page : list Z := initcode ++ replicate (Z.to_nat PGSIZE - length initcode) 0.

(** Return from a system call: [a0] (register 10) is the result, and the program
    continues after the [ecall]. *)
Definition sysret (r : Z) (s : ustate) : ustate := setpc (u_pc s + 4) (setreg 10 r s).

Definition a7_ : Z := 17.
Definition a0_ : Z := 10.
Definition a1_ : Z := 11.

(** ** Running it *)

(** The instructions of initcode.S, for the addresses of its labels [init] and
    [argv]: [la] is an [auipc] and an [addi], [li] is an [addi]. *)
Definition initcode_asm (init argv : Z) : list uinstr :=
  [Auipc a0_ 0; UAddi a0_ a0_ (init - 0); Auipc a1_ 0; UAddi a1_ a1_ (argv - 8); UAddi a7_ 0 SYS_exec; Ecall;
   UAddi a7_ 0 SYS_exit; Ecall; Jal 1 (-8)].

(** The bytes in proc.c are that program; [argv] is not aligned as the directive
    in initcode.S asks. *)
Lemma initcode_assembled : (fun i => decode (getle 4 (4 * i) init_page)) <$> seq 0 9 = initcode_asm 36 43.
Proof. vm_compute. reflexivity. Qed.

(** The program, instruction by instruction. *)
Lemma initcode_decode :
  decode (getle 4 0 init_page) = Auipc 10 0 /\ decode (getle 4 4 init_page) = UAddi 10 10 36 /\
  decode (getle 4 8 init_page) = Auipc 11 0 /\ decode (getle 4 12 init_page) = UAddi 11 11 35 /\
  decode (getle 4 16 init_page) = UAddi 17 0 7 /\ decode (getle 4 20 init_page) = Ecall /\
  decode (getle 4 24 init_page) = UAddi 17 0 2 /\ decode (getle 4 28 init_page) = Ecall /\
  decode (getle 4 32 init_page) = Jal 1 (-8).
Proof. vm_compute. repeat split. Qed.

Lemma run_user_S n pc x page : run_user (S n) (mkUstate pc x page) =
  match decode (getle 4 (Z.to_nat pc) page) with
  | Auipc rd imm => run_user n (setpc (pc + 4) (setreg rd (pc + imm) (mkUstate pc x page)))
  | UAddi rd rs imm => run_user n (setpc (pc + 4) (setreg rd (ureg (mkUstate pc x page) rs + imm) (mkUstate pc x page)))
  | Jal rd imm => run_user n (setpc (pc + imm) (setreg rd (pc + 4) (mkUstate pc x page)))
  | Ecall => Some (mkUstate pc x page)
  | Unknown => None
  end.
Proof. reflexivity. Qed.

(** Take one step, with the decoded instruction [D] at [pc]. *)
Ltac ustep D pc n :=
  rewrite run_user_S; match goal with |- context [getle 4 (Z.to_nat ?e) init_page] => replace (Z.to_nat e) with n by reflexivity end; rewrite D; cbv beta iota;
  unfold setreg, setpc, ureg; cbn [u_pc u_x u_page Z.eqb Z.add Pos.add Pos.succ Z.pos_sub Pos.pred_double Pos.eqb].

Lemma initcode_exec x : length x = 32%nat -> ureg (mkUstate 0 x init_page) 0 = 0 ->
  run_user 6 (mkUstate 0 x init_page) = Some (mkUstate 20 (<[17%nat := 7]> (<[11%nat := 43]> (<[10%nat := 36]> x))) init_page).
Proof.
  intros Hx H0. destruct initcode_decode as (D0 & D4 & D8 & D12 & D16 & D20 & _).
  do 32 (destruct x as [| ? x]; [done |]). destruct x; [| done]. vm_compute in H0. subst.
  ustep D0 0 0%nat. ustep D4 4 4%nat. ustep D8 8 8%nat. ustep D12 12 12%nat. ustep D16 16 16%nat. ustep D20 20 20%nat. reflexivity.
Qed.

Lemma initcode_exit x pc : length x = 32%nat -> ureg (mkUstate pc x init_page) 0 = 0 -> pc = 24 \/ pc = 32 ->
  exists y, run_user 3 (mkUstate pc x init_page) = Some (mkUstate 28 (<[17%nat := 2]> y) init_page) /\
    length y = 32%nat /\ ureg (mkUstate 28 y init_page) 0 = 0.
Proof.
  intros Hx H0 Hpc. destruct initcode_decode as (_ & _ & _ & _ & _ & _ & D24 & D28 & D32).
  do 32 (destruct x as [| ? x]; [done |]). destruct x; [| done]. vm_compute in H0. subst. destruct Hpc as [-> | ->].
  - eexists. split; [ustep D24 24 24%nat; ustep D28 28 28%nat; reflexivity | by split].
  - eexists. split; [ustep D32 32 32%nat; ustep D24 24 24%nat; ustep D28 28 28%nat; reflexivity | by split].
Qed.

(** ** Property *)

(** C34: The first process executes "/init". Run from address 0, [initcode] makes
    the system call exec with the string "/init" and an argument vector of one
    pointer to that string and a null pointer; should exec return, it calls exit,
    and again each time exit returns. *)
Theorem initcode_execs_init (x : list Z) (Hx : length x = 32%nat) (H0 : ureg (mkUstate 0 x init_page) 0 = 0) :
  exists s, run_user 6 (mkUstate 0 x init_page) = Some s /\
    ureg s a7_ = SYS_exec /\
    cstr (drop (Z.to_nat (ureg s a0_)) (u_page s)) = str "/init" /\
    getle 8 (Z.to_nat (ureg s a1_)) (u_page s) = ureg s a0_ /\
    getle 8 (Z.to_nat (ureg s a1_ + 8)) (u_page s) = 0 /\
    forall r, exists s', run_user 3 (sysret r s) = Some s' /\ ureg s' a7_ = SYS_exit /\
      forall r', exists s'', run_user 3 (sysret r' s') = Some s'' /\ ureg s'' a7_ = SYS_exit /\ u_pc s'' = u_pc s'.
Proof.
  rewrite (initcode_exec x Hx H0). eexists. split; [reflexivity |].
  do 32 (destruct x as [| ? x]; [done |]). destruct x; [| done]. vm_compute in H0. subst.
  do 4 (split; [vm_compute; reflexivity |]). intros r.
  match goal with |- context [run_user 3 (sysret r ?s)] => destruct (initcode_exit (<[10%nat := u64 r]> (u_x s)) 24) as (y & E & Hy & Hy0) end;
    [reflexivity .. | by left |].
  eexists. split; [exact E |]. do 32 (destruct y as [| ? y]; [done |]). destruct y; [| done]. vm_compute in Hy0. subst.
  split; [reflexivity |]. intros r'.
  match goal with |- context [run_user 3 (sysret r' ?s)] => destruct (initcode_exit (<[10%nat := u64 r']> (u_x s)) 32) as (y & E' & Hy' & Hy0') end;
    [reflexivity .. | by right |].
  eexists. split; [exact E' |]. do 32 (destruct y as [| ? y]; [done |]). destruct y; [| done]. split; reflexivity.
Qed.

Lemma initcode_execs_init_witness :
  exists s, run_user 6 (mkUstate 0 (replicate 32 0) init_page) = Some s /\ ureg s a7_ = 7.
Proof.
  destruct (initcode_execs_init (replicate 32 0)) as (s & E & H & _); [reflexivity .. |].
  exists s. split; [exact E | exact H].
Defined.
