(* ===== verification/User.v ===== *)
(** * User programs: the system calls they make

    A user program runs against an environment: the class [Os] has the system calls
    the modelled programs make, on a world of the environment's own. Strings are
    given by their characters, without the terminating nul. A run follows one
    process: the result of [fork] is 0 in a run that goes on in the child. [exit]
    ends a run with the outcome [Panic "exit"]. [malloc] is given by its contract
    (Umalloc.v): it succeeds or not.

    [FileIo] is an environment with standard input and output only: reads return
    the next bytes of the input, in pieces whose sizes a schedule chooses, and
    writes are appended to the output. *)

From S2P Require Import Prelude Riscv Mem StringLib Spinlock Kalloc Vm Proc State Uart Printf Fs.
From Stdlib Require Import Ascii.

Class Os := {
  world : Type;
  u_read : Z -> Z -> M world (Z * list Z);    (** the result and the bytes read *)
  u_write : Z -> list Z -> M world Z;
  u_open : list Z -> Z -> M world Z;
  u_close : Z -> M world Z;
  u_fork : M world Z;
  u_wait : M world Z;
  u_pipe : M world (Z * (Z * Z));
  u_dup : Z -> M world Z;
  u_exec : list Z -> list (list Z) -> M world Z;
  u_chdir : list Z -> M world Z;
  u_mknod : list Z -> Z -> Z -> M world Z;
  u_unlink : list Z -> M world Z;
  u_link : list Z -> list Z -> M world Z;
  u_mkdir : list Z -> M world Z;
  u_fstat : Z -> M world (Z * stat);
  u_kill : Z -> M world Z;
  u_sleep : Z -> M world Z;
  u_ps : Z -> list (list Z) -> M world Z;
  u_malloc : Z -> M world bool;
  u_exited : Z -> world -> world              (** the world after exit, with its status *) }.

Definition u_exit `{OS : Os} {A} (status : Z) : M world A := fun w => Panic "exit" (u_exited status w).

(** What C leaves undefined, e.g. an argument of the wrong type for a format. *)
Definition u_undef `{OS : Os} {A} : M world A := fun w => Panic "undefined behaviour" w.

(** ** Standard input and output *)

Record iow := mkIow { w_in : list Z; w_sched : list nat; w_out : list Z }.
Definition no_stat : stat := mkStat 0 0 0 0 0.

(** A read of at most [n] bytes: at least one if there is input and room. *)
Definition io_read (fd n : Z) : M iow (Z * list Z) := fun w =>
  let want := match w_sched w with [] => length (w_in w) | k :: _ => S k end in
  let k := Nat.min want (Nat.min (Z.to_nat n) (length (w_in w))) in
  Ok (Z.of_nat k, take k (w_in w)) (mkIow (drop k (w_in w)) (tail (w_sched w)) (w_out w)).
Definition io_write (fd : Z) (bs : list Z) : M iow Z := fun w =>
  Ok (Z.of_nat (length bs)) (mkIow (w_in w) (w_sched w) (w_out w ++ bs)).

Definition FileIo : Os := {|
  world := iow; u_read := io_read; u_write := io_write;
  u_open _ _ := ret (-1); u_close _ := ret (-1); u_fork := ret (-1); u_wait := ret (-1);
  u_pipe := ret (-1, (0, 0)); u_dup _ := ret (-1); u_exec _ _ := ret (-1); u_chdir _ := ret (-1);
  u_mknod _ _ _ := ret (-1); u_unlink _ := ret (-1); u_link _ _ := ret (-1); u_mkdir _ := ret (-1);
  u_fstat _ := ret (-1, no_stat); u_kill _ := ret (-1); u_sleep _ := ret 0; u_ps _ _ := ret (-1);
  u_malloc _ := ret true; u_exited _ w := w |}.

Lemma io_read_run fd n w : 0 < n -> w_in w <> [] ->
  exists k s, io_read fd n w = Ok (Z.of_nat (S k), take (S k) (w_in w)) (mkIow (drop (S k) (w_in w)) s (w_out w)) /\
    (S k <= Z.to_nat n)%nat /\ (S k <= length (w_in w))%nat.
Proof.
  intros Hn Hi. unfold io_read.
  set (want := match w_sched w with [] => length (w_in w) | k :: _ => S k end).
  assert (Hw : (0 < want)%nat) by (unfold want; destruct (w_sched w); [destruct (w_in w); simpl; [done | lia] | lia]).
  assert (Hl : (0 < length (w_in w))%nat) by (destruct (w_in w); simpl; [done | lia]).
  destruct (Nat.min want (Nat.min (Z.to_nat n) (length (w_in w)))) as [| k] eqn:Ek; [lia |].
  exists k, (tail (w_sched w)). split; [done | lia].
Qed.

Lemma io_read_end fd n w : w_in w = [] -> exists s, io_read fd n w = Ok (0, []) (mkIow [] s (w_out w)).
Proof. intros Hi. unfold io_read. rewrite Hi. simpl. rewrite !Nat.min_0_r. eexists. reflexivity. Qed.
