(* ===== verification/Ulib.v ===== *)
(** * user/ulib.c: the C library of user programs

    [memset], [memmove], [memcmp], [memcpy] and [strcpy] work on byte memory. The
    functions that only read strings take the bytes from the pointer on; a string
    ends before its first nul, or with the list. *)

From S2P Require Import Prelude Riscv Mem StringLib Spinlock Kalloc Vm Proc State Uart Printf Fs User.

(** ** Memory *)

Definition memset (m : mem) (dst c n : Z) : mem := memset_loop (Z.to_nat (u32 n)) m dst c 0.

Definition memmove (m : mem) (dst src n : Z) : mem :=
  if dst <? src then copy_up (Z.to_nat n) m dst src else copy_down (Z.to_nat n) m (dst + n) (src + n).

(** Plain [char] is unsigned on RISC-V. *)
Fixpoint memcmp_loop (n : nat) (m : mem) (p1 p2 : Z) : Z :=
  match n with
  | O => 0
  | S n =>
      if negb (rd8 m p1 =? rd8 m p2) then rd8 m p1 - rd8 m p2
      else memcmp_loop n m (p1 + 1) (p2 + 1)
  end.

Definition memcmp (m : mem) (s1 s2 n : Z) : Z := memcmp_loop (Z.to_nat (u32 n)) m s1 s2.

Definition memcpy (m : mem) (dst src n : Z) : mem := memmove m dst src (i32 n).

(** [None] when there is no nul in [fuel] bytes from [t]. *)
Fixpoint strcpy (fuel : nat) (m : mem) (s t : Z) : option mem :=
  match fuel with
  | O => None
  | S fuel =>
      let c := rd8 m t in
      let m := wr8 m s c in
      if c =? 0 then Some m else strcpy fuel m (s + 1) (t + 1)
  end.

(** ** Strings *)

Fixpoint strcmp (p q : list Z) : Z :=
  let c := default 0 (head p) in
  let d := default 0 (head q) in
  match p with
  | x :: p => if negb (x =? 0) && (x =? d) then strcmp p (tail q) else u8 c - u8 d
  | [] => u8 c - u8 d
  end.

Fixpoint strlen (s : list Z) : Z := match s with c :: s => if c =? 0 then 0 else 1 + strlen s | [] => 0 end.

(** [strchr(p, c)]: the index of the character. *)
Fixpoint strchr (p : list Z) (c : Z) : option nat :=
  match p with
  | [] => None
  | x :: p => if x =? 0 then None else if x =? c then Some O else S <$> strchr p c
  end.

Fixpoint atoi_loop (s : list Z) (n : Z) : Z :=
  match s with
  | c :: s => if (48 <=? c) && (c <=? 57) then atoi_loop s (i32 (n * 10 + c - 48)) else n
  | [] => n
  end.
Definition atoi (s : list Z) : Z := atoi_loop s 0.

Section Calls.
Context `{OS : Os}.

(** The characters of the line; the byte after them in the buffer is set to 0. At
    most [max - 1] are read. *)
Fixpoint gets_loop (n : nat) (buf : list Z) : M world (list Z) :=
  match n with
  | O => ret buf
  | S n =>
      let* r := u_read 0 1 in
      let '(cc, l) := r in
      match l with
      | c :: _ =>
          if cc <? 1 then ret buf
          else if (c =? 10) || (c =? 13) then ret (buf ++ [c])
          else gets_loop n (buf ++ [c])
      | [] => ret buf
      end
  end.

Definition gets (max : Z) : M world (list Z) := gets_loop (Z.to_nat (max - 1)) [].

Definition stat (n : list Z) : M world (Z * stat) :=
  let* fd := u_open n 0 in
  if fd <? 0 then ret (-1, no_stat) else
  let* r := u_fstat fd in
  u_close fd ;;;
  ret r.

(** [start] calls [main] and exits. *)
Definition start (main : M world Z) : M world unit := main ;;; u_exit 0.

End Calls.

(** ** The functions do what they are for *)

(** Source and destination may overlap. *)
Lemma umemmove_spec m dst src n x : mem_ok m -> 0 <= n ->
  rd8 (memmove m dst src n) x = if (dst <=? x) && (x <? dst + n) then rd8 m (src + (x - dst)) else rd8 m x.
Proof.
  intros Hok Hn. unfold memmove. destruct (Z.ltb_spec dst src).
  - rewrite copy_up_spec, Z2Nat.id by (done || lia). done.
  - rewrite copy_down_spec, Z2Nat.id by (done || lia). replace (dst + n - n) with dst by lia.
    replace (src + n + (x - (dst + n))) with (src + (x - dst)) by lia. done.
Qed.

Lemma strlen_cstr s : strlen s = Z.of_nat (length (cstr s)).
Proof. induction s as [| c s IH]; cbn [strlen cstr]; [done |]. destruct (c =? 0); [done |]. cbn [length]. lia. Qed.

Lemma strcmp_eq p q : Forall (fun c => 0 <= c < 256) p -> Forall (fun c => 0 <= c < 256) q -> strcmp p q = 0 <-> cstr p = cstr q.
Proof.
  assert (H8 : forall c, 0 <= c < 256 -> u8 c = c) by (intros; apply Z.mod_small; lia).
  revert q. induction p as [| c p IH]; intros q Hp Hq; cbn [strcmp cstr head from_option id].
  - destruct q as [| d q]; cbn [head default from_option id cstr]; [done |]. apply Forall_cons in Hq as [Hd _]. rewrite !H8 by (exact Hd || lia).
    destruct (Z.eqb_spec d 0); [subst; split; done |]. split; [lia | done].
  - apply Forall_cons in Hp as [Hc Hp]. destruct q as [| d q].
    + cbn [head default from_option id cstr tail]. rewrite !H8 by (exact Hc || lia). destruct (Z.eqb_spec c 0) as [-> |]; cbn [negb andb]; [done |].
      split; [lia | done].
    + apply Forall_cons in Hq as [Hd Hq]. cbn [head default from_option id cstr tail]. rewrite !H8 by (exact Hd || exact Hc).
      destruct (Z.eqb_spec c 0) as [-> |]; cbn [negb andb].
      { destruct (Z.eqb_spec d 0) as [-> |]; [done |]. split; [lia | done]. }
      destruct (Z.eqb_spec c d) as [<- | ?].
      * rewrite (proj2 (Z.eqb_neq c 0)) by done. rewrite (IH q Hp Hq). split; [by intros -> | by intros [= ?]].
      * split; [lia |]. destruct (Z.eqb_spec d 0); [done | by intros [= ? ?]].
Qed.
