(* ===== verification/Uprintf.v ===== *)
(** * user/printf.c: formatted output of user programs

    Every character goes out in a [write] of its own. A pointer to a string is given
    by the bytes from it on. *)

From S2P Require Import Prelude Riscv Mem StringLib Spinlock Kalloc Vm Proc State Uart Printf User.
From Stdlib Require Import Ascii.

Definition digits : list Z := str "0123456789ABCDEF".
Definition digit (d : Z) : Z := default 0 (digits !! Z.to_nat d).

(** The do-while loop that fills [buf], least significant digit first. *)
Fixpoint printint_digits (n : nat) (x base : Z) : list Z :=
  match n with
  | O => []
  | S n => digit (x mod base) :: if truthy (x / base) then printint_digits n (x / base) base else []
  end.

(** The contents of [buf] after the loop and the sign: an unsigned int has at most 32
    digits. *)
Definition printint_buf (xx base : Z) (sgn : bool) : list Z :=
  let neg := sgn && (xx <? 0) in
  let x := if neg then u32 (- xx) else u32 xx in
  printint_digits 32 x base ++ (if neg then [45] else []).

Section Printf.
Context `{OS : Os}.

Definition putc (fd c : Z) : M world unit := u_write fd [u8 c] ;;; ret tt.

Fixpoint puts (fd : Z) (l : list Z) : M world unit :=
  match l with [] => ret tt | c :: l => putc fd c ;;; puts fd l end.

Definition printint (fd xx base : Z) (sgn : bool) : M world unit := puts fd (rev (printint_buf xx base sgn)).

Fixpoint printptr_loop (n : nat) (fd x : Z) : M world unit :=
  match n with
  | O => ret tt
  | S n => putc fd (digit (Z.shiftr x 60)) ;;; printptr_loop n fd (u64 (Z.shiftl x 4))
  end.
Definition printptr (fd x : Z) : M world unit := putc fd 48 ;;; putc fd 120 ;;; printptr_loop 16 fd x.

(** [va_arg(ap, int)], [va_arg(ap, uint64)] passed to an [int] parameter, [va_arg(ap,
    uint64)] and [va_arg(ap, char * )] *)
Definition va_int (ap : list varg) : M world (Z * list varg) :=
  match ap with VInt x :: ap => ret (i32 x, ap) | _ => u_undef end.
Definition va_uint64 (ap : list varg) : M world (Z * list varg) :=
  match ap with VInt x :: ap => ret (u64 x, ap) | _ => u_undef end.
Definition va_str (ap : list varg) : M world (list Z * list varg) :=
  match ap with
  | VStr s :: ap => ret (s, ap)
  | VInt x :: ap => if u64 x =? 0 then ret (str "(null)", ap) else u_undef
  | [] => u_undef
  end.

(** The conversion at index [i], after a percent sign: how many more characters of
    the format it takes, and the arguments left. *)
Definition conversion (fd : Z) (fmt : list Z) (i : nat) (ap : list varg) : M world (nat * list varg) :=
  let c0 := fmt_at fmt i in
  let c1 := if truthy c0 then fmt_at fmt (i + 1) else 0 in
  let c2 := if truthy c1 then fmt_at fmt (i + 2) else 0 in
  let eqc c a := c =? chr a in
  if eqc c0 "d"%char then let* a := va_int ap in printint fd a.1 10 true ;;; ret (0%nat, a.2)
  else if eqc c0 "l"%char && eqc c1 "d"%char then
    let* a := va_uint64 ap in printint fd (i32 a.1) 10 true ;;; ret (1%nat, a.2)
  else if eqc c0 "l"%char && eqc c1 "l"%char && eqc c2 "d"%char then
    let* a := va_uint64 ap in printint fd (i32 a.1) 10 true ;;; ret (2%nat, a.2)
  else if eqc c0 "u"%char then let* a := va_int ap in printint fd a.1 10 false ;;; ret (0%nat, a.2)
  else if eqc c0 "l"%char && eqc c1 "u"%char then
    let* a := va_uint64 ap in printint fd (i32 a.1) 10 false ;;; ret (1%nat, a.2)
  else if eqc c0 "l"%char && eqc c1 "l"%char && eqc c2 "u"%char then
    let* a := va_uint64 ap in printint fd (i32 a.1) 10 false ;;; ret (2%nat, a.2)
  else if eqc c0 "x"%char then let* a := va_int ap in printint fd a.1 16 false ;;; ret (0%nat, a.2)
  else if eqc c0 "l"%char && eqc c1 "x"%char then
    let* a := va_uint64 ap in printint fd (i32 a.1) 16 false ;;; ret (1%nat, a.2)
  else if eqc c0 "l"%char && eqc c1 "l"%char && eqc c2 "x"%char then
    let* a := va_uint64 ap in printint fd (i32 a.1) 16 false ;;; ret (2%nat, a.2)
  else if eqc c0 "p"%char then let* a := va_uint64 ap in printptr fd a.1 ;;; ret (0%nat, a.2)
  else if eqc c0 "s"%char then let* a := va_str ap in puts fd (cstr a.1) ;;; ret (0%nat, a.2)
  else if eqc c0 "%"%char then putc fd (chr "%") ;;; ret (0%nat, ap)
  else putc fd (chr "%") ;;; putc fd c0 ;;; ret (0%nat, ap).

(** The loop over the format; [state] is whether a percent sign came before. *)
Fixpoint vprintf_loop (n : nat) (fd : Z) (fmt : list Z) (i : nat) (state : bool) (ap : list varg) : M world unit :=
  match n with
  | O => fun _ => NoFuel
  | S n =>
      let c0 := fmt_at fmt i in
      if c0 =? 0 then ret tt
      else if negb state then
        if c0 =? chr "%" then vprintf_loop n fd fmt (i + 1) true ap
        else putc fd c0 ;;; vprintf_loop n fd fmt (i + 1) false ap
      else
        let* r := conversion fd fmt i ap in
        vprintf_loop n fd fmt (i + r.1 + 1) false r.2
  end.

Definition vprintf (fd : Z) (fmt : list Z) (ap : list varg) : M world unit :=
  vprintf_loop (S (length fmt)) fd fmt 0 false ap.
Definition fprintf (fd : Z) (fmt : list Z) (ap : list varg) : M world unit := vprintf fd fmt ap.
Definition printf (fmt : list Z) (ap : list varg) : M world unit := vprintf 1 fmt ap.

End Printf.

(** ** What is printed *)

(** The number that digits denote, least significant first. *)
Fixpoint value (base : Z) (l : list Z) : Z :=
  match l with
  | [] => 0
  | c :: l => (match list_find (fun d => d = c) digits with Some (d, _) => Z.of_nat d | None => 0 end) + base * value base l
  end.

Lemma digit_value d : 0 <= d < 16 -> exists k, list_find (fun x => x = digit d) digits = Some (k, digit d) /\ Z.of_nat k = d.
Proof.
  intros H. assert (E : d ∈ ([0;1;2;3;4;5;6;7;8;9;10;11;12;13;14;15] : list Z)) by (rewrite !elem_of_cons; lia).
  rewrite !elem_of_cons, elem_of_nil in E. destruct_or! E; try done; subst; eexists; split; reflexivity.
Qed.

(** The digits are those of the number, with no needless zero in front. *)
Lemma printint_digits_value n base x : 2 <= base <= 16 -> 0 <= x < base ^ Z.of_nat n ->
  value base (printint_digits n x base) = x /\ (0 < x -> last (printint_digits n x base) <> Some (digit 0)).
Proof.
  intros Hb. revert x. induction n as [| n IH]; intros x Hx; [simpl in *; lia |].
  rewrite Nat2Z.inj_succ, Z.pow_succ_r in Hx by lia. cbn [printint_digits value].
  pose proof (Z.mod_pos_bound x base ltac:(lia)) as Hm. destruct (digit_value (x mod base) ltac:(lia)) as (k & -> & Hk).
  pose proof (Z.div_mod x base ltac:(lia)) as E. unfold truthy. destruct (Z.eqb_spec (x / base) 0) as [E0 | E0]; cbn [negb].
  - rewrite E0 in E. split; [cbn [value]; lia |]. intros Hp [= H]. assert (E' : x mod base = x) by lia. rewrite E' in H.
    destruct (digit_value x ltac:(lia)) as (a & Ha & <-). destruct (digit_value 0 ltac:(lia)) as (b & Hb' & ?).
    rewrite H, Hb' in Ha. injection Ha as <-. lia.
  - assert (Hq : 0 <= x / base < base ^ Z.of_nat n) by (split; [apply Z.div_pos; lia | apply Z.div_lt_upper_bound; lia]).
    destruct (IH _ Hq) as [Hv Hl]. rewrite Hv. split; [lia |]. intros _. rewrite last_cons.
    specialize (Hl ltac:(lia)). destruct (last (printint_digits n (x / base) base)) eqn:El; [done |].
    exfalso. apply last_None in El. rewrite El in Hv. cbn in Hv. lia.
Qed.

(** The text of an int is at most 33 characters, 11 in decimal. *)
Lemma printint_buf_fits xx sgn : -(2^31) <= xx < 2^31 -> (length (printint_buf xx 10 sgn) <= 16)%nat.
Proof.
  intros H. unfold printint_buf. rewrite length_app.
  assert (Hd : forall m n x, 0 <= x < 10 ^ Z.of_nat (S m) -> (length (printint_digits n x 10) <= S m)%nat).
  { induction m as [| m IH]; intros n x Hx; (destruct n as [| n]; cbn [printint_digits length]; [lia |]); unfold truthy.
    - rewrite Z.div_small by (simpl in Hx; lia). cbn. lia.
    - destruct (negb _); cbn [length]; [| lia]. apply le_n_S. apply IH. rewrite Nat2Z.inj_succ, Z.pow_succ_r in Hx by lia.
      split; [apply Z.div_pos; lia | apply Z.div_lt_upper_bound; lia]. }
  set (x := if sgn && (xx <? 0) then u32 (- xx) else u32 xx).
  assert (Hx : 0 <= x < 2 ^ 32) by (unfold x; destruct (_ && _); apply Z.mod_pos_bound; lia).
  pose proof (Hd 9%nat 32%nat x ltac:(simpl; lia)). destruct (_ && _); cbn [length]; lia.
Qed.

(** Printing to an environment whose [write] appends. *)
Lemma puts_io fd l w : @puts FileIo fd l w = Ok tt (mkIow (w_in w) (w_sched w) (w_out w ++ (u8 <$> l))).
Proof.
  revert w. induction l as [| c l IH]; intros w; cbn [puts fmap list_fmap].
  - destruct w. cbn. by rewrite app_nil_r.
  - etransitivity; [exact (IH (mkIow (w_in w) (w_sched w) (w_out w ++ [u8 c]))) |]. cbn. by rewrite <- app_assoc.
Qed.


(** ** Printing succeeds where [write] does *)

Class Writes (OS : Os) : Prop := writes : forall fd bs w, exists r w', u_write fd bs w = Ok r w'.

Section Total.
Context `{WR : Writes}.

Lemma putc_ok fd c w : exists w', putc fd c w = Ok tt w'.
Proof. destruct (writes fd [u8 c] w) as (r & w' & E). exists w'. unfold putc. by rewrite (bind_ok _ _ _ _ _ E). Qed.

Lemma puts_ok fd l w : exists w', puts fd l w = Ok tt w'.
Proof.
  revert w. induction l as [| c l IH]; intros w; cbn [puts]; [by eexists |].
  destruct (putc_ok fd c w) as [w1 E]. rewrite (bind_ok _ _ _ _ _ E). apply IH.
Qed.

(** The one conversion of the format is a string, at [p]. *)
Definition one_string (fmt : list Z) (p : nat) : bool :=
  (fmt_at fmt p =? chr "%") && (fmt_at fmt (p + 1) =? chr "s") &&
  forallb (fun j => Nat.eqb j p || negb (fmt_at fmt j =? chr "%")) (seq 0 (length fmt)).

Lemma fmt_end fmt i : (length fmt <= i)%nat -> fmt_at fmt i = 0.
Proof. intros H. unfold fmt_at. by rewrite lookup_ge_None_2. Qed.

Lemma vprintf_tail n fd fmt i ap w : (length fmt - i < n)%nat ->
  (forall j, (i <= j)%nat -> fmt_at fmt j <> chr "%") -> exists w', vprintf_loop n fd fmt i false ap w = Ok tt w'.
Proof.
  revert i w. induction n as [| n IH]; intros i w Hn Hp; [lia |]. cbn [vprintf_loop negb].
  destruct (Z.eqb_spec (fmt_at fmt i) 0) as [| H0]; [by eexists |]. rewrite (proj2 (Z.eqb_neq _ _) (Hp i ltac:(lia))).
  destruct (putc_ok fd (fmt_at fmt i) w) as [w1 E]. rewrite (bind_ok _ _ _ _ _ E). apply IH; [| intros; apply Hp; lia].
  destruct (decide (length fmt <= i)%nat); [by rewrite fmt_end in H0 | lia].
Qed.

Lemma conversion_s fd fmt i ap : fmt_at fmt i = chr "s" ->
  conversion fd fmt i ap = (let* a := va_str ap in puts fd (cstr a.1) ;;; ret (0%nat, a.2)).
Proof. intros H. unfold conversion. rewrite H. reflexivity. Qed.

Lemma vprintf_string n fd fmt i p s w : one_string fmt p = true -> (i <= p)%nat -> (length fmt - i < n)%nat ->
  exists w', vprintf_loop n fd fmt i false [VStr s] w = Ok tt w'.
Proof.
  intros H. apply andb_prop in H as [[H1%Z.eqb_eq H2%Z.eqb_eq]%andb_prop H3]. rewrite forallb_forall in H3.
  assert (Hp : forall j, j <> p -> fmt_at fmt j <> chr "%").
  { intros j Hj E. destruct (decide (length fmt <= j)%nat); [by rewrite fmt_end in E |].
    specialize (H3 j ltac:(apply in_seq; lia)). rewrite E in H3. apply orb_prop in H3 as [?%Nat.eqb_eq | ?]; done. }
  revert i w. induction n as [| n IH]; intros i w Hi Hn; [lia |]. cbn [vprintf_loop negb].
  destruct (Z.eqb_spec (fmt_at fmt i) 0) as [| H0]; [by eexists |].
  assert (Hl : (i < length fmt)%nat) by (destruct (decide (length fmt <= i)%nat); [by rewrite fmt_end in H0 | lia]).
  destruct (decide (i = p)) as [-> | Hne].
  - rewrite H1, Z.eqb_refl. destruct n as [| n]; [lia |]. cbn [vprintf_loop negb]. rewrite H2. change (chr "s" =? 0) with false. cbn iota.
    rewrite (conversion_s fd fmt _ _ H2).
    destruct (puts_ok fd (cstr s) w) as [w1 E].
    match goal with |- context [bind (bind ?m ?f) ?k] => assert (E1 : bind m f w = Ok (0%nat, []) w1) end.
    { unfold va_str. erewrite bind_ok by reflexivity. cbn [fst snd]. by erewrite bind_ok by exact E. }
    assert (Hl1 : (p + 1 < length fmt)%nat) by (destruct (decide (length fmt <= p + 1)%nat); [by rewrite fmt_end in H2 | lia]).
    rewrite (bind_ok _ _ _ _ _ E1). cbn [fst snd]. apply vprintf_tail; [lia |]. intros j Hj. apply Hp. lia.
  - rewrite (proj2 (Z.eqb_neq _ _) (Hp i Hne)). destruct (putc_ok fd (fmt_at fmt i) w) as [w1 E].
    rewrite (bind_ok _ _ _ _ _ E). apply IH; lia.
Qed.

Lemma fprintf_string fd fmt p s w : one_string fmt p = true -> exists w', fprintf fd fmt [VStr s] w = Ok tt w'.
Proof. intros H. by apply (vprintf_string _ _ _ 0 p); [| lia | lia]. Qed.
End Total.

(** ** The arguments that a format takes *)

Inductive akind := KInt | KStr.

(** The argument of the conversion at [i], and its further characters. *)
Definition conv_kind (fmt : list Z) (i : nat) : option akind * nat :=
  let c0 := fmt_at fmt i in
  let c1 := if truthy c0 then fmt_at fmt (i + 1) else 0 in
  let c2 := if truthy c1 then fmt_at fmt (i + 2) else 0 in
  let number c := (c =? chr "d") || (c =? chr "u") || (c =? chr "x") in
  if number c0 then (Some KInt, 0%nat)
  else if (c0 =? chr "l") && number c1 then (Some KInt, 1%nat)
  else if (c0 =? chr "l") && (c1 =? chr "l") && number c2 then (Some KInt, 2%nat)
  else if c0 =? chr "p" then (Some KInt, 0%nat)
  else if c0 =? chr "s" then (Some KStr, 0%nat)
  else (None, 0%nat).

Fixpoint kinds_from (n : nat) (fmt : list Z) (i : nat) (state : bool) : list akind :=
  match n with
  | O => []
  | S n =>
      if fmt_at fmt i =? 0 then []
      else if negb state then kinds_from n fmt (i + 1) (fmt_at fmt i =? chr "%")
      else
        let '(k, m) := conv_kind fmt i in
        (match k with Some k => [k] | None => [] end) ++ kinds_from n fmt (i + m + 1) false
  end.
Definition kinds (fmt : list Z) : list akind := kinds_from (S (length fmt)) fmt 0 false.

(** A string argument may be the null pointer. *)
Definition suits (k : akind) (a : varg) : bool :=
  match k, a with KInt, VInt _ => true | KStr, VStr _ => true | KStr, VInt x => u64 x =? 0 | KInt, VStr _ => false end.
(** The arguments begin with those that the format takes. *)
Fixpoint suit (ks : list akind) (ap : list varg) : bool :=
  match ks, ap with
  | [], _ => true
  | k :: ks, a :: ap => suits k a && suit ks ap
  | _ :: _, [] => false
  end.

Section Typed.
Context `{WR : Writes}.

Lemma printptr_ok fd x w : exists w', printptr fd x w = Ok tt w'.
Proof.
  unfold printptr. destruct (putc_ok fd 48 w) as [w1 E1]. rewrite (bind_ok _ _ _ _ _ E1). destruct (putc_ok fd 120 w1) as [w2 E2]. rewrite (bind_ok _ _ _ _ _ E2).
  clear E1 E2. generalize 16%nat as n. intros n. revert x w2. induction n as [| n IH]; intros x w2; cbn [printptr_loop]; [by eexists |].
  destruct (putc_ok fd (digit (Z.shiftr x 60)) w2) as [w3 E3]. rewrite (bind_ok _ _ _ _ _ E3). apply IH.
Qed.

(** A conversion succeeds when the argument suits it and is undefined otherwise. *)
Definition conv_ok' (k : akind) (m : nat) (ap : list varg) (o : outcome world (nat * list varg)) : Prop :=
  match ap with
  | a :: ap' => if suits k a then exists w', o = Ok (m, ap') w' else exists w', o = Panic "undefined behaviour" w'
  | [] => exists w', o = Panic "undefined behaviour" w'
  end.
Definition conv_ok (fmt : list Z) (i : nat) (ap : list varg) (o : outcome world (nat * list varg)) : Prop :=
  let '(k, m) := conv_kind fmt i in
  match k with None => exists w', o = Ok (m, ap) w' | Some k => conv_ok' k m ap o end.

Lemma int_conv fd base sgn (m : nat) ap w :
  let o1 := (let* a := va_int ap in printint fd a.1 base sgn ;;; ret (m, a.2)) w in
  let o2 := (let* a := va_uint64 ap in printint fd (i32 a.1) base sgn ;;; ret (m, a.2)) w in
  match ap with
  | a :: ap' => if suits KInt a then (exists w', o1 = Ok (m, ap') w') /\ (exists w', o2 = Ok (m, ap') w')
                else (exists w', o1 = Panic "undefined behaviour" w') /\ (exists w', o2 = Panic "undefined behaviour" w')
  | [] => (exists w', o1 = Panic "undefined behaviour" w') /\ (exists w', o2 = Panic "undefined behaviour" w')
  end.
Proof.
  intros o1 o2. destruct ap as [| [x | s] ap]; cbn [suits]; try (split; by eexists). split.
  - destruct (puts_ok fd (rev (printint_buf (i32 x) base sgn)) w) as [w' E]. exists w'. unfold o1. erewrite bind_ok by reflexivity. cbn [fst snd].
    by rewrite (bind_ok _ _ _ _ _ E).
  - destruct (puts_ok fd (rev (printint_buf (i32 (u64 x)) base sgn)) w) as [w' E]. exists w'. unfold o2. erewrite bind_ok by reflexivity. cbn [fst snd].
    by rewrite (bind_ok _ _ _ _ _ E).
Qed.

Lemma two_chars fd c (r : nat * list varg) w : exists w', (putc fd (chr "%") ;;; putc fd c ;;; ret r) w = Ok r w'.
Proof.
  destruct (putc_ok fd (chr "%") w) as [w1 E1]. rewrite (bind_ok _ _ _ _ _ E1). destruct (putc_ok fd c w1) as [w2 E2]. exists w2. by rewrite (bind_ok _ _ _ _ _ E2).
Qed.

Lemma ptr_conv fd (m : nat) ap w : conv_ok' KInt m ap ((let* a := va_uint64 ap in printptr fd a.1 ;;; ret (m, a.2)) w).
Proof.
  destruct ap as [| [x | s] ap]; cbn [conv_ok' suits]; [by eexists | | by eexists]. destruct (printptr_ok fd (u64 x) w) as [w' E]. exists w'.
  erewrite bind_ok by reflexivity. cbn [fst snd]. by rewrite (bind_ok _ _ _ _ _ E).
Qed.

Lemma str_conv fd (m : nat) ap w : conv_ok' KStr m ap ((let* a := va_str ap in puts fd (cstr a.1) ;;; ret (m, a.2)) w).
Proof.
  assert (H : forall s ap, exists w', (puts fd (cstr s) ;;; ret (m, ap)) w = Ok (m, ap : list varg) w').
  { intros s ap'. destruct (puts_ok fd (cstr s) w) as [w' E]. exists w'. by rewrite (bind_ok _ _ _ _ _ E). }
  destruct ap as [| [x | s] ap]; cbn [conv_ok' suits]; [by eexists | | exact (H s ap)].
  unfold bind at 1, va_str. destruct (u64 x =? 0); [exact (H (str "(null)") ap) | by eexists].
Qed.

Lemma conversion_typed fd fmt i ap w : conv_ok fmt i ap (conversion fd fmt i ap w).
Proof.
  unfold conv_ok, conv_kind, conversion. set (c0 := fmt_at fmt i). set (c1 := if truthy c0 then _ else 0). set (c2 := if truthy c1 then _ else 0).
  assert (H1 : forall b s (m : nat), conv_ok' KInt m ap ((let* a := va_int ap in printint fd a.1 b s ;;; ret (m, a.2)) w)).
  { intros b s m. pose proof (int_conv fd b s m ap w) as H. unfold conv_ok'. destruct ap as [| a ap']; [apply H |]. by destruct (suits KInt a); apply H. }
  assert (H2 : forall b s (m : nat), conv_ok' KInt m ap ((let* a := va_uint64 ap in printint fd (i32 a.1) b s ;;; ret (m, a.2)) w)).
  { intros b s m. pose proof (int_conv fd b s m ap w) as H. unfold conv_ok'. destruct ap as [| a ap']; [apply H |]. by destruct (suits KInt a); apply H. }
  clearbody c2 c1 c0. destruct (Z.eqb_spec c0 (chr "l")) as [-> | Hl].
  - change (chr "l" =? chr "d") with false. change (chr "l" =? chr "u") with false. change (chr "l" =? chr "x") with false.
    change (chr "l" =? chr "p") with false. change (chr "l" =? chr "s") with false. change (chr "l" =? chr "%") with false. cbn [orb andb].
    destruct (c1 =? chr "d") eqn:E1d; [exact (H2 10 true 1%nat) |]. destruct (c1 =? chr "u") eqn:E1u; cbn [orb andb].
    { apply Z.eqb_eq in E1u. subst c1. exact (H2 10 false 1%nat). }
    destruct (c1 =? chr "x") eqn:E1x; cbn [orb andb]. { apply Z.eqb_eq in E1x. subst c1. exact (H2 16 false 1%nat). }
    destruct (c1 =? chr "l"); cbn [orb andb].
    + destruct (c2 =? chr "d"); [exact (H2 10 true 2%nat) |]. destruct (c2 =? chr "u"); [exact (H2 10 false 2%nat) |]. destruct (c2 =? chr "x"); [exact (H2 16 false 2%nat) |].
      apply two_chars.
    + apply two_chars.
  - cbn [andb]. destruct (c0 =? chr "d"); [exact (H1 10 true 0%nat) |]. destruct (c0 =? chr "u"); [exact (H1 10 false 0%nat) |]. destruct (c0 =? chr "x"); [exact (H1 16 false 0%nat) |].
    cbn [orb]. destruct (c0 =? chr "p"); [apply ptr_conv |]. destruct (c0 =? chr "s"); [apply str_conv |].
    destruct (c0 =? chr "%"); [| apply two_chars]. destruct (putc_ok fd (chr "%") w) as [w1 E1]. exists w1. by rewrite (bind_ok _ _ _ _ _ E1).
Qed.

(** The whole format. *)
Lemma vprintf_typed n fd fmt i st ap w : (length fmt < n + i)%nat -> (0 < n)%nat ->
  if suit (kinds_from n fmt i st) ap then exists w', vprintf_loop n fd fmt i st ap w = Ok tt w'
  else exists w', vprintf_loop n fd fmt i st ap w = Panic "undefined behaviour" w'.
Proof.
  revert i st ap w. induction n as [| n IH]; intros i st ap w Hn Hp; [lia |]. cbn [kinds_from vprintf_loop].
  destruct (Z.eqb_spec (fmt_at fmt i) 0) as [| H0]; [by eexists |].
  assert (Hl : (i < length fmt)%nat) by (destruct (decide (length fmt <= i)%nat); [by rewrite fmt_end in H0 | lia]).
  destruct st; cbn [negb].
  - pose proof (conversion_typed fd fmt i ap w) as Hc. unfold conv_ok in Hc. destruct (conv_kind fmt i) as [[k |] m].
    + cbn [app suit]. destruct ap as [| a ap]; cbn [conv_ok'] in Hc; [destruct Hc as [w' E]; exists w'; by apply bind_panic |].
      destruct (suits k a); cbn [andb]; [| destruct Hc as [w' E]; exists w'; by apply bind_panic].
      destruct Hc as [w' E]. rewrite (bind_ok _ _ _ _ _ E). cbn [fst snd]. apply IH; lia.
    + destruct Hc as [w' E]. rewrite (bind_ok _ _ _ _ _ E). cbn [fst snd app]. apply IH; lia.
  - destruct (fmt_at fmt i =? chr "%"); [apply IH; lia |]. destruct (putc_ok fd (fmt_at fmt i) w) as [w' E]. rewrite (bind_ok _ _ _ _ _ E). apply IH; lia.
Qed.
End Typed.

(** C40: formatted printing is type safe, exactly. [vprintf] takes one argument for each
    conversion of the format, in order: it returns for every list of arguments that
    begins with numbers where the format has a conversion for a number and strings (or
    null) where it has one for a string, and reads an argument as what it is not, or
    one that is not there, for every other list. It always ends. *)
Theorem vprintf_type_safe {OS : Os} {WR : Writes OS} (fd : Z) (fmt : list Z) (ap : list varg) (w : world) :
  if suit (kinds fmt) ap then exists w', vprintf fd fmt ap w = Ok tt w'
  else exists w', vprintf fd fmt ap w = Panic "undefined behaviour" w'.
Proof. apply vprintf_typed; lia. Qed.

#[export] Instance FileIo_writes : Writes FileIo.
Proof. intros fd bs w. by do 2 eexists. Qed.

Lemma vprintf_type_safe_witness :
  kinds (str "%s %d %lx%%") = [KStr; KInt; KInt] /\
  exists w', @vprintf FileIo 1 (str "%s %d %lx%%") [VStr (str "f"); VInt (-5); VInt 31] (mkIow [] [] []) = Ok tt w'.
Proof. split; [reflexivity |]. exact (vprintf_type_safe (OS := FileIo) 1 (str "%s %d %lx%%") [VStr (str "f"); VInt (-5); VInt 31] (mkIow [] [] [])). Defined.
