(* ===== verification/Sh.v ===== *)
(** * user/sh.c: the shell (definitions)

    The state of the shell is the outside world, the line buffer and the command
    structures in the heap. A pointer into the buffer is an index, a pointer to a
    command is the index of its structure; the parsing functions return the moved
    pointer [*ps] with their result. A run follows one process (User.v). *)

From S2P Require Import Prelude Riscv Mem StringLib Spinlock Kalloc Vm Proc State Uart Printf Fs File Exec Syscall Sysfile User Ulib Uprintf.
From Stdlib Require Import Ascii.

Definition MAXARGS : nat := 10.

(** The five structures. A null pointer in [argv] is [None]. *)
Inductive node :=
| NExec (argv eargv : list (option nat))
| NRedir (cmd file efile : nat) (mode fd : Z)
| NPipe (left right : nat)
| NList (left right : nat)
| NBack (cmd : nat).

Definition whitespace : list Z := [32; 9; 13; 10; 11].
Definition symbols : list Z := str "<|>&;()".

Definition rd (buf : list Z) (s : nat) : Z := default 0 (buf !! s).
Definition has (l : list Z) (c : Z) : bool := match strchr l c with Some _ => true | None => false end.

(** [while(s < es && p(...)) s++], for [n = es - s]. These functions are [None] where
    they read outside the buffer. *)
Fixpoint skip (n : nat) (p : Z -> bool) (buf : list Z) (s : nat) : option nat :=
  match n with
  | O => Some s
  | S n => c ← buf !! s; if p c then skip n p buf (S s) else Some s
  end.

(** The token, its start and its end, and the new [*ps]. *)
Definition gettoken (buf : list Z) (s es : nat) : option (Z * nat * nat * nat) :=
  s ← skip (es - s) (has whitespace) buf s;
  let q := s in
  c ← buf !! s;
  '(ret, s) ←
    (if c =? 0 then Some (c, s)
     else if has (str "|();&<") c then Some (c, S s)
     else if c =? chr ">" then
       c' ← buf !! S s;
       Some (if c' =? chr ">" then (chr "+", S (S s)) else (c, S s))
     else
       s ← skip (es - s) (fun c => negb (has whitespace c) && negb (has symbols c)) buf s;
       Some (chr "a", s));
  let eq := s in
  s ← skip (es - s) (has whitespace) buf s;
  Some (ret, q, eq, s).

Definition peek (buf : list Z) (s es : nat) (toks : list Z) : option (bool * nat) :=
  s ← skip (es - s) (has whitespace) buf s;
  c ← buf !! s;
  Some (truthy c && has toks c, s).

(** The C string at a pointer into the buffer. *)
Definition cstring (buf : list Z) (s : nat) : list Z := cstr (drop s buf).

(** The strings of [argv] up to its null pointer. *)
Fixpoint arg_strings (buf : list Z) (argv : list (option nat)) : list (list Z) :=
  match argv with
  | Some q :: argv => cstring buf q :: arg_strings buf argv
  | _ => []
  end.

Section Shell.
Context `{OS : Os}.

Record shell := mkShell { sh_world : world; sh_buf : list Z; sh_heap : list node }.

Definition Lworld : lens shell world := Lens sh_world (fun w s => mkShell w (sh_buf s) (sh_heap s)).
Definition os {A} (m : M world A) : M shell A := zoom Lworld m.

Definition set_buf (b : list Z) : M shell unit := modify (fun s => mkShell (sh_world s) b (sh_heap s)).
Definition set_heap (h : list node) : M shell unit := modify (fun s => mkShell (sh_world s) (sh_buf s) h).
Definition get_node (cmd : nat) : M shell node :=
  let* h := Prelude.gets sh_heap in
  match h !! cmd with Some n => ret n | None => os u_undef end.

(** A read outside the buffer is undefined. *)
Definition look {A} (o : option A) : M shell A := match o with Some a => ret a | None => os u_undef end.

Definition panic {A} (s : string) : M shell A :=
  os (fprintf 2 (str "%s" ++ [NL]) [VStr (str s)]) ;;;
  os (u_exit 1).

Definition fork1 : M shell Z :=
  let* pid := os u_fork in
  if pid =? -1 then panic "fork" else ret pid.

(** ** Constructors *)

(** [malloc], [memset] and the stores; a null pointer from [malloc] is written through. *)
Definition new (size : Z) (n : node) : M shell nat :=
  let* ok := os (u_malloc size) in
  if negb ok then os u_undef else
  let* h := Prelude.gets sh_heap in
  set_heap (h ++ [n]) ;;;
  ret (length h).

Definition execcmd : M shell nat := new 168 (NExec (replicate MAXARGS None) (replicate MAXARGS None)).
Definition redircmd (subcmd file efile : nat) (mode fd : Z) : M shell nat := new 40 (NRedir subcmd file efile mode fd).
Definition pipecmd (left right : nat) : M shell nat := new 24 (NPipe left right).
Definition listcmd (left right : nat) : M shell nat := new 24 (NList left right).
Definition backcmd (subcmd : nat) : M shell nat := new 16 (NBack subcmd).

(** ** Parsing *)

Fixpoint parseredirs_loop (n : nat) (cmd s es : nat) : M shell (nat * nat) :=
  match n with
  | O => fun _ => NoFuel
  | S n =>
      let* buf := Prelude.gets sh_buf in
      let* '(b, s) := look (peek buf s es (str "<>")) in
      if negb b then ret (cmd, s) else
      let* '(tok, _, _, s) := look (gettoken buf s es) in
      let* '(t, q, eq, s) := look (gettoken buf s es) in
      if negb (t =? chr "a") then panic "missing file for redirection" else
      let* cmd :=
        (if tok =? chr "<" then redircmd cmd q eq O_RDONLY 0
         else if tok =? chr ">" then redircmd cmd q eq (Z.lor (Z.lor O_WRONLY O_CREATE) O_TRUNC) 1
         else if tok =? chr "+" then redircmd cmd q eq (Z.lor O_WRONLY O_CREATE) 1
         else ret cmd) in
      parseredirs_loop n cmd s es
  end.

(** Each turn takes at least one character, so [es - s + 1] turns are enough. *)
Definition parseredirs (cmd s es : nat) : M shell (nat * nat) := parseredirs_loop (S (es - s)) cmd s es.

(** [cmd->argv[i] = q; cmd->eargv[i] = eq;]. A store outside the arrays is undefined. *)
Definition set_arg (cmd i : nat) (q eq : option nat) : M shell unit :=
  let* x := get_node cmd in
  let* h := Prelude.gets sh_heap in
  match x with
  | NExec argv eargv =>
      if bool_decide (i < length argv /\ i < length eargv)%nat
      then set_heap (<[cmd := NExec (<[i := q]> argv) (<[i := eq]> eargv)]> h)
      else os u_undef
  | _ => os u_undef
  end.

(** The while loop of [parseexec]; returns [argc], [ret] and the pointer. *)
Fixpoint parseargs (n : nat) (cmd rt argc s es : nat) : M shell (nat * nat * nat) :=
  match n with
  | O => fun _ => NoFuel
  | S n =>
      let* buf := Prelude.gets sh_buf in
      let* '(b, s) := look (peek buf s es (str "|)&;")) in
      if b then ret (argc, rt, s) else
      let* '(tok, q, eq, s) := look (gettoken buf s es) in
      if tok =? 0 then ret (argc, rt, s) else
      if negb (tok =? chr "a") then panic "syntax" else
      set_arg cmd argc (Some q) (Some eq) ;;;
      let argc := S argc in
      if bool_decide (MAXARGS <= argc)%nat then panic "too many args" else
      let* r := parseredirs rt s es in
      parseargs n cmd r.1 argc r.2 es
  end.

(** The while loop of [parseline]. *)
Fixpoint parsebacks (n : nat) (cmd s es : nat) : M shell (nat * nat) :=
  match n with
  | O => fun _ => NoFuel
  | S n =>
      let* buf := Prelude.gets sh_buf in
      let* '(b, s) := look (peek buf s es (str "&")) in
      if negb b then ret (cmd, s) else
      let* '(_, _, _, s) := look (gettoken buf s es) in
      let* cmd := backcmd cmd in
      parsebacks n cmd s es
  end.

(** The part of [parseexec] after the test for a block. *)
Definition parsesimple (s es : nat) : M shell (nat * nat) :=
  let* cmd := execcmd in
  let* r := parseredirs cmd s es in
  let* a := parseargs (S (es - r.2)) cmd r.1 0 r.2 es in
  let '(argc, rt, s) := a in
  set_arg cmd argc None None ;;;
  ret (rt, s).

Fixpoint parseline (n : nat) (s es : nat) : M shell (nat * nat) :=
  match n with
  | O => fun _ => NoFuel
  | S n =>
      let* r := parsepipe n s es in
      let* r := parsebacks (S (es - r.2)) r.1 r.2 es in
      let* buf := Prelude.gets sh_buf in
      let* '(b, s) := look (peek buf r.2 es (str ";")) in
      if negb b then ret (r.1, s) else
      let* '(_, _, _, s) := look (gettoken buf s es) in
      let* r' := parseline n s es in
      let* cmd := listcmd r.1 r'.1 in
      ret (cmd, r'.2)
  end
with parsepipe (n : nat) (s es : nat) : M shell (nat * nat) :=
  match n with
  | O => fun _ => NoFuel
  | S n =>
      let* r := parseexec n s es in
      let* buf := Prelude.gets sh_buf in
      let* '(b, s) := look (peek buf r.2 es (str "|")) in
      if negb b then ret (r.1, s) else
      let* '(_, _, _, s) := look (gettoken buf s es) in
      let* r' := parsepipe n s es in
      let* cmd := pipecmd r.1 r'.1 in
      ret (cmd, r'.2)
  end
with parseexec (n : nat) (s es : nat) : M shell (nat * nat) :=
  match n with
  | O => fun _ => NoFuel
  | S n =>
      let* buf := Prelude.gets sh_buf in
      let* '(b, s) := look (peek buf s es (str "(")) in
      if b then parseblock n s es else parsesimple s es
  end
with parseblock (n : nat) (s es : nat) : M shell (nat * nat) :=
  match n with
  | O => fun _ => NoFuel
  | S n =>
      let* buf := Prelude.gets sh_buf in
      let* '(b, s) := look (peek buf s es (str "(")) in
      if negb b then panic "parseblock" else
      let* '(_, _, _, s) := look (gettoken buf s es) in
      let* r := parseline n s es in
      let* buf := Prelude.gets sh_buf in
      let* '(b, s) := look (peek buf r.2 es (str ")")) in
      if negb b then panic "syntax - missing )" else
      let* '(_, _, _, s) := look (gettoken buf s es) in
      parseredirs r.1 s es
  end.

(** [*p = 0]. A store outside the buffer is undefined. *)
Definition set_nul (p : nat) : M shell unit :=
  let* buf := Prelude.gets sh_buf in
  if bool_decide (p < length buf)%nat then set_buf (<[p := 0]> buf) else os u_undef.

Fixpoint nul_args (argv eargv : list (option nat)) : M shell unit :=
  match argv, eargv with
  | Some _ :: argv, Some e :: eargv => set_nul e ;;; nul_args argv eargv
  | Some _ :: _, _ => os u_undef
  | _, _ => ret tt
  end.

(** A structure only points to older ones, so [cmd + 1] levels are enough. *)
Fixpoint nulterminate (n : nat) (cmd : nat) : M shell unit :=
  match n with
  | O => fun _ => NoFuel
  | S n =>
      let* x := get_node cmd in
      match x with
      | NExec argv eargv => nul_args argv eargv
      | NRedir c _ efile _ _ => nulterminate n c ;;; set_nul efile
      | NPipe l r | NList l r => nulterminate n l ;;; nulterminate n r
      | NBack c => nulterminate n c
      end
  end.

(** The parsing functions go at most four levels deep for each character. *)
Definition parsecmd : M shell nat :=
  let* buf := Prelude.gets sh_buf in
  let es := Z.to_nat (strlen buf) in
  let* r := parseline (4 * es + 4) 0 es in
  let* buf := Prelude.gets sh_buf in
  let* '(_, s) := look (peek buf r.2 es []) in
  if negb (Nat.eqb s es) then
    os (fprintf 2 (str "leftovers: %s" ++ [NL]) [VStr (cstring buf s)]) ;;;
    panic "syntax"
  else
    nulterminate (S r.1) r.1 ;;;
    ret r.1.

(** ** Running commands *)

(** [runcmd] does not return: it ends in [exec] or [exit]. *)
Fixpoint runcmd (n : nat) (cmd : nat) : M shell unit :=
  match n with
  | O => fun _ => NoFuel
  | S n =>
      let* x := get_node cmd in
      let* buf := Prelude.gets sh_buf in
      match x with
      | NExec argv _ =>
          match arg_strings buf argv with
          | [] => os (u_exit 1)
          | path :: _ =>
              os (u_exec path (arg_strings buf argv)) ;;;
              os (fprintf 2 (str "exec %s failed" ++ [NL]) [VStr path])
          end
      | NRedir c file _ mode fd =>
          os (u_close fd) ;;;
          let* f := os (u_open (cstring buf file) mode) in
          (if f <? 0 then
             os (fprintf 2 (str "open %s failed" ++ [NL]) [VStr (cstring buf file)]) ;;;
             os (u_exit 1)
           else ret tt) ;;;
          runcmd n c
      | NList l r =>
          let* pid := fork1 in
          when (pid =? 0) (runcmd n l) ;;;
          os u_wait ;;;
          runcmd n r
      | NPipe l r =>
          let* p := os u_pipe in
          let '(res, (p0, p1)) := p in
          (if res <? 0 then panic "pipe" else ret tt) ;;;
          let* pid := fork1 in
          when (pid =? 0)
            (os (u_close 1) ;;; os (u_dup p1) ;;; os (u_close p0) ;;; os (u_close p1) ;;; runcmd n l) ;;;
          let* pid := fork1 in
          when (pid =? 0)
            (os (u_close 0) ;;; os (u_dup p0) ;;; os (u_close p0) ;;; os (u_close p1) ;;; runcmd n r) ;;;
          os (u_close p0) ;;;
          os (u_close p1) ;;;
          os u_wait ;;;
          os u_wait ;;;
          ret tt
      | NBack c =>
          let* pid := fork1 in
          when (pid =? 0) (runcmd n c)
      end ;;;
      os (u_exit 0)
  end.

(** ** The command loop *)

Definition getcmd (nbuf : nat) : M shell Z :=
  os (u_write 2 (str "$ ")) ;;;
  let* l := os (Ulib.gets (Z.of_nat nbuf)) in
  set_buf (l ++ replicate (nbuf - length l) 0) ;;;
  let* buf := Prelude.gets sh_buf in
  ret (if rd buf 0 =? 0 then -1 else 0).

(** Ensure that three file descriptors are open. *)
Fixpoint open_console (n : nat) : M world unit :=
  match n with
  | O => fun _ => NoFuel
  | S n =>
      let* fd := u_open (str "console") O_RDWR in
      if 0 <=? fd then
        if 3 <=? fd then u_close fd ;;; ret tt else open_console n
      else ret tt
  end.

(** Read and run input commands: one turn of the loop per line. *)
Fixpoint command_loop (n : nat) : M shell unit :=
  match n with
  | O => fun _ => NoFuel
  | S n =>
      let* r := getcmd 100 in
      if r <? 0 then ret tt else
      let* buf := Prelude.gets sh_buf in
      if (rd buf 0 =? chr "c") && (rd buf 1 =? chr "d") && (rd buf 2 =? 32) then
        set_buf (<[Z.to_nat (strlen buf - 1) := 0]> buf) ;;;
        let* buf := Prelude.gets sh_buf in
        let* e := os (u_chdir (cstring buf 3)) in
        when (e <? 0) (os (fprintf 2 (str "cannot cd %s" ++ [NL]) [VStr (cstring buf 3)])) ;;;
        command_loop n
      else
        let* pid := fork1 in
        when (pid =? 0) (let* cmd := parsecmd in runcmd (S cmd) cmd) ;;;
        os u_wait ;;;
        command_loop n
  end.

Definition main (n : nat) : M shell unit :=
  os (open_console n) ;;;
  command_loop n ;;;
  os (u_exit 0).

End Shell.
