(* ===== verification/ShLex.v ===== *)
(** * user/sh.c: the tokens of a line

    [lexes] says which tokens a text has; [lex] is the sequence that [gettoken]
    delivers from a position in the buffer. The two agree, and [peek] looks at the
    next token. *)

From S2P Require Import Prelude Riscv Mem StringLib Spinlock Kalloc Vm Proc State Uart Printf Fs User Ulib Sh.
From Stdlib Require Import Ascii.

(** ** What the tokens of a text are *)

Inductive stok := SWord (w : list Z) | SSym (c : Z) | SApp.

Definition isspace (c : Z) : bool := has whitespace c.
Definition wordc (c : Z) : bool := negb (isspace c) && negb (has symbols c) && negb (c =? 0).
(** The symbols that are always a token of their own. *)
Definition single (c : Z) : bool := has (str "|();&<") c.
(** The character of [l] at its head is not [P]. *)
Definition starts_not (P : Z -> bool) (l : list Z) : Prop := match l with [] => True | c :: _ => P c = false end.

Inductive lexes : list Z -> list stok -> Prop :=
| lexes_end : lexes [] []
| lexes_space c t ts : isspace c = true -> lexes t ts -> lexes (c :: t) ts
| lexes_sym c t ts : single c = true -> lexes t ts -> lexes (c :: t) (SSym c :: ts)
| lexes_gt t ts : starts_not (fun c => c =? chr ">") t -> lexes t ts -> lexes (chr ">" :: t) (SSym (chr ">") :: ts)
| lexes_app t ts : lexes t ts -> lexes (chr ">" :: chr ">" :: t) (SApp :: ts)
| lexes_word w t ts : w <> [] -> Forall (fun c => wordc c = true) w -> starts_not wordc t -> lexes t ts ->
    lexes (w ++ t) (SWord w :: ts).

(** ** What [gettoken] delivers *)

Definition token : Type := Z * nat * nat.
Definition ty (k : token) : Z := k.1.1.

(** [skip] on a buffer whose reads are all within it. *)
Fixpoint skips (n : nat) (p : Z -> bool) (buf : list Z) (s : nat) : nat :=
  match n with
  | O => s
  | S n => if p (rd buf s) then skips n p buf (S s) else s
  end.

Section Lex.
Context (b : list Z) (es : nat).

Inductive lex : nat -> list token -> Prop :=
| lex_end s : (s <= es)%nat -> skips (es - s) (has whitespace) b s = es -> lex s []
| lex_tok s c q e s' ts : (s <= es)%nat -> gettoken b s es = Some (c, q, e, s') -> c <> 0 -> (s < s')%nat -> lex s' ts ->
    lex s ((c, q, e) :: ts).

(** A word's characters, and what comes after them. *)
Definition span (q e : nat) : list Z := take (e - q) (drop q b).
Definition is_word (q e : nat) : Prop :=
  (q < e <= es)%nat /\ Forall (fun c => wordc c = true) (span q e) /\ wordc (rd b e) = false.

Definition stok_of (k : token) : stok :=
  let '(c, q, e) := k in
  if c =? chr "a" then SWord (span q e) else if c =? chr "+" then SApp else SSym c.

(** The first character of a token of a type: [peek] is only asked for symbols. *)
Definition tychar (c : Z) : Z := if c =? chr "+" then chr ">" else c.
Definition next (set : list Z) (ts : list token) : bool :=
  match ts with [] => false | k :: _ => has set (tychar (ty k)) end.
End Lex.

(** ** Skipping *)

Lemma rd_lookup b i : (i < length b)%nat -> b !! i = Some (rd b i).
Proof. intros [c Hc]%lookup_lt_is_Some. unfold rd. by rewrite Hc. Qed.

Lemma skip_some n p b s : (s + n <= length b)%nat -> skip n p b s = Some (skips n p b s).
Proof.
  revert s. induction n as [| n IH]; intros s Hn; cbn [skip skips]; [done |]. rewrite rd_lookup by lia. cbn [mbind option_bind].
  destruct (p (rd b s)); [apply IH; lia | done].
Qed.

Lemma skip_bounds n p b s : (s <= skips n p b s <= s + n)%nat.
Proof. revert s. induction n as [| n IH]; intros s; cbn [skips]; [lia |]. destruct (p (rd b s)); [specialize (IH (S s)) |]; lia. Qed.

Lemma skip_stop n p b s : (skips n p b s < s + n)%nat -> p (rd b (skips n p b s)) = false.
Proof.
  revert s. induction n as [| n IH]; intros s; cbn [skips]; [lia |]. destruct (p (rd b s)) eqn:E; [| done].
  intros H. apply IH. lia.
Qed.

Lemma skip_in n p b s i : (s <= i < skips n p b s)%nat -> p (rd b i) = true.
Proof.
  revert s. induction n as [| n IH]; intros s; cbn [skips]; [lia |]. destruct (p (rd b s)) eqn:E; [| lia].
  intros H. destruct (decide (i = s)) as [-> | ?]; [done |]. apply (IH (S s)). lia.
Qed.

Lemma skip_idem es p b s : (s <= es)%nat ->
  skips (es - skips (es - s) p b s) p b (skips (es - s) p b s) = skips (es - s) p b s.
Proof.
  intros H. pose proof (skip_bounds (es - s) p b s). set (s' := skips (es - s) p b s) in *.
  destruct (es - s')%nat as [| n] eqn:E; [done |]. cbn [skips]. unfold s' at 1. rewrite skip_stop by (fold s'; lia). done.
Qed.

Lemma has_nonzero l c : has l c = true -> c <> 0.
Proof.
  unfold has. induction l as [| x l IH]; cbn [strchr]; [done |]. destruct (Z.eqb_spec x 0); [done |].
  destruct (Z.eqb_spec x c); [congruence |]. destruct (strchr l c); [by intros; apply IH | done].
Qed.

Lemma has_in l c : forallb (fun x => negb (x =? 0)) l = true -> has l c = true <-> c ∈ l.
Proof.
  unfold has. induction l as [| x l IH]; cbn [strchr forallb]; intros H0; [split; [done | by rewrite elem_of_nil] |].
  apply andb_prop in H0 as [Hx H0]. destruct (Z.eqb_spec x 0) as [? | _]; [done |].
  rewrite elem_of_cons. destruct (Z.eqb_spec x c) as [-> |]; [split; [by left | done] |]. rewrite <- IH by done.
  destruct (strchr l c); cbn; split; [by right | done | done | by intros [-> | ?]].
Qed.

(** The classes of characters. *)
Lemma class_cases c : c = 0 \/ isspace c = true \/ single c = true \/ c = chr ">" \/ wordc c = true.
Proof.
  unfold wordc. destruct (isspace c) eqn:E1; [by auto |]. destruct (Z.eqb_spec c 0) as [-> |]; [by left |].
  destruct (has symbols c) eqn:E2; [| by right; right; right; right]. do 2 right.
  apply has_in in E2; [| reflexivity]. unfold single. rewrite has_in by reflexivity.
  change symbols with [60; 124; 62; 38; 59; 40; 41] in E2. change (str "|();&<") with [124; 40; 41; 59; 38; 60]. change (chr ">") with 62.
  rewrite !elem_of_cons, elem_of_nil in E2. rewrite !elem_of_cons, elem_of_nil. destruct_or! E2; subst; auto 10.
Qed.

Lemma single_facts c : single c = true ->
  isspace c = false /\ wordc c = false /\ c <> chr ">" /\ c <> chr "a" /\ c <> chr "+" /\ c <> 0.
Proof.
  unfold single. rewrite has_in by reflexivity. change (str "|();&<") with [124; 40; 41; 59; 38; 60].
  rewrite !elem_of_cons, elem_of_nil. intros H. destruct_or! H; try done; subst; done.
Qed.

Lemma wordc_facts c : wordc c = true -> isspace c = false /\ single c = false /\ c <> chr ">" /\ c <> 0.
Proof.
  intros H. split; [unfold wordc in H; by destruct (isspace c) |]. split.
  - destruct (single c) eqn:E; [| done]. apply single_facts in E as (_ & E & _). congruence.
  - split; [by intros -> | by intros ->].
Qed.

Lemma isspace_facts c : isspace c = true -> single c = false /\ wordc c = false /\ c <> chr ">" /\ c <> 0.
Proof.
  intros H. split; [destruct (single c) eqn:E; [| done]; apply single_facts in E; destruct E; congruence |].
  split; [unfold wordc; by rewrite H |]. split; [by intros -> | by intros ->].
Qed.

Section Line.
Context (b : list Z) (es : nat) (Hlen : (es < length b)%nat).
Context (Hend : rd b es = 0) (Hin : forall i, (i < es)%nat -> rd b i <> 0).

(** The token at a position that is not a space. *)
Definition tok_at (q : nat) (c : Z) (e : nat) : Prop :=
  (q < e <= es)%nat /\
  (single (rd b q) = true /\ c = rd b q /\ e = S q \/
   rd b q = chr ">" /\ rd b (S q) <> chr ">" /\ c = chr ">" /\ e = S q \/
   rd b q = chr ">" /\ rd b (S q) = chr ">" /\ c = chr "+" /\ e = S (S q) \/
   c = chr "a" /\ is_word b es q e).

Lemma lt_es i : rd b i <> 0 -> (i <= es)%nat -> (i < es)%nat.
Proof. intros H Hi. destruct (decide (i = es)) as [-> |]; [done | lia]. Qed.

Lemma rd_length i : rd b i <> 0 -> (i < length b)%nat.
Proof. unfold rd. intros H. destruct (b !! i) eqn:E; [by apply lookup_lt_Some in E | done]. Qed.

Lemma word_skip s : (s < es)%nat -> wordc (rd b s) = true ->
  is_word b es s (skips (es - s) (fun c => negb (has whitespace c) && negb (has symbols c)) b s).
Proof.
  intros Hs Hw. set (p := fun c => _). pose proof (skip_bounds (es - s) p b s) as Hb.
  assert (Hp : forall i, (i < es)%nat -> p (rd b i) = wordc (rd b i)).
  { intros i Hi. unfold p, wordc, isspace. rewrite (proj2 (Z.eqb_neq _ _) (Hin i Hi)). cbn [negb]. by rewrite andb_true_r. }
  assert (Hgt : (s < skips (es - s) p b s)%nat).
  { destruct (es - s)%nat as [| n] eqn:En; [lia |]. cbn [skips]. rewrite Hp, Hw by lia. pose proof (skip_bounds n p b (S s)). lia. }
  repeat split; [lia | lia | |].
  - apply Forall_lookup_2. intros i c. unfold span. intros [Hi Hl]%lookup_take_Some. rewrite lookup_drop in Hi.
    assert (E : rd b (s + i) = c) by (unfold rd; by rewrite Hi). rewrite <- E, <- Hp by lia. apply (skip_in (es - s) p b s). lia.
  - destruct (decide (skips (es - s) p b s = es)) as [E | E]; [by rewrite E, Hend |]. rewrite <- Hp by lia. apply skip_stop. lia.
Qed.

Lemma gettoken_cases s : (s <= es)%nat ->
  let s1 := skips (es - s) (has whitespace) b s in
  (s1 = es /\ gettoken b s es = Some (0, es, es, es)) \/
  ((s1 < es)%nat /\ exists c e, tok_at s1 c e /\ gettoken b s es = Some (c, s1, e, skips (es - e) (has whitespace) b e)).
Proof.
  intros Hs s1. pose proof (skip_bounds (es - s) (has whitespace) b s) as Hb. fold s1 in Hb. unfold gettoken.
  rewrite skip_some by lia. fold s1. cbn [mbind option_bind]. rewrite (rd_lookup b s1) by lia. cbn [mbind option_bind].
  destruct (decide (s1 = es)) as [E | E]; [left | right].
  - split; [done |]. rewrite E, Hend. cbn [Z.eqb mbind option_bind]. by rewrite Nat.sub_diag.
  - split; [lia |]. rewrite (proj2 (Z.eqb_neq _ _) (Hin s1 ltac:(lia))).
    assert (Hsp : isspace (rd b s1) = false) by (apply skip_stop; fold s1; lia). fold (single (rd b s1)).
    destruct (class_cases (rd b s1)) as [Hc | [Hc | [Hc | [Hc | Hc]]]]; [by destruct (Hin s1 ltac:(lia)) | congruence | | |].
    + rewrite Hc. cbn [mbind option_bind]. rewrite skip_some by lia. do 2 eexists. split; [| reflexivity]. split; [lia |]. by left.
    + rewrite !Hc. cbn [single]. change (single (chr ">")) with false. cbn iota. rewrite Z.eqb_refl, rd_lookup by lia. cbn [mbind option_bind].
      destruct (Z.eqb_spec (rd b (S s1)) (chr ">")) as [Hg | Hg].
      * assert (S s1 < es)%nat by (apply lt_es; [by rewrite Hg | lia]). rewrite skip_some by lia.
        do 2 eexists. split; [| reflexivity]. split; [lia |]. right; right; left. done.
      * rewrite skip_some by lia. do 2 eexists. split; [| reflexivity]. split; [lia |]. right; left. done.
    + destruct (wordc_facts _ Hc) as (_ & -> & Hg & _). cbn iota. rewrite (proj2 (Z.eqb_neq _ _) Hg), skip_some by lia. cbn [mbind option_bind].
      pose proof (word_skip s1 ltac:(lia) Hc) as Hw. rewrite skip_some by (pose proof (proj1 Hw); lia).
      do 2 eexists. split; [| reflexivity]. split; [apply Hw | by right; right; right].
Qed.

Lemma tok_at_nonzero q c e : tok_at q c e -> c <> 0.
Proof. intros (_ & [(H & -> & _) | [(_ & _ & -> & _) | [(_ & _ & -> & _) | [-> _]]]]); try done. by destruct (single_facts _ H) as (_ & _ & _ & _ & _ & ?). Qed.

(** Tokens take characters, so every position has its tokens. *)
Lemma lex_exists s : (s <= es)%nat -> exists ts, lex b es s ts.
Proof.
  remember (es - s)%nat as n eqn:En. revert s En. induction n as [n IH] using lt_wf_ind. intros s -> Hs.
  destruct (gettoken_cases s Hs) as [[E _] | (Hlt & c & e & Hk & E)].
  - exists []. by constructor.
  - pose proof (skip_bounds (es - s) (has whitespace) b s). pose proof (skip_bounds (es - e) (has whitespace) b e).
    pose proof (proj1 Hk). set (s' := skips (es - e) (has whitespace) b e) in *.
    destruct (IH (es - s')%nat ltac:(lia) s' eq_refl ltac:(lia)) as [ts Hts].
    eexists. eapply lex_tok; [done | exact E | by eapply tok_at_nonzero | lia | done].
Qed.

Lemma lex_le s ts : lex b es s ts -> (s + length ts <= es)%nat.
Proof. clear Hlen. induction 1 as [| s c q e s' ts Hs Hg Hc Hlt Hl IH]; cbn [length]; lia. Qed.

Lemma lex_cons s k ts : lex b es s (k :: ts) ->
  let s1 := skips (es - s) (has whitespace) b s in
  (s <= s1 < es)%nat /\ exists c e s', k = (c, s1, e) /\ s' = skips (es - e) (has whitespace) b e /\ tok_at s1 c e /\
    gettoken b s es = Some (c, s1, e, s') /\ lex b es s' ts.
Proof.
  intros H s1. inversion H as [| ? c q e s' ? Hs Hg Hc Hlt Hl]; subst.
  pose proof (skip_bounds (es - s) (has whitespace) b s) as Hb. fold s1 in Hb.
  destruct (gettoken_cases s Hs) as [[_ E] | (Hlt1 & c' & e' & Hk & E)].
  - congruence.
  - fold s1 in Hlt1, Hk, E. rewrite E in Hg. injection Hg as <- <- <- <-. split; [lia |]. by exists c', e', (skips (es - e') (has whitespace) b e').
Qed.

Lemma gettoken_skip s : (s <= es)%nat -> gettoken b (skips (es - s) (has whitespace) b s) es = gettoken b s es.
Proof.
  intros H. pose proof (skip_bounds (es - s) (has whitespace) b s). unfold gettoken.
  rewrite !skip_some by lia. cbn [mbind option_bind]. by rewrite skip_idem.
Qed.

Lemma lex_skip s ts : lex b es s ts -> lex b es (skips (es - s) (has whitespace) b s) ts.
Proof.
  intros H. pose proof (skip_bounds (es - s) (has whitespace) b s) as Hb. destruct ts as [| k ts].
  - inversion H; subst. constructor; [lia | by rewrite skip_idem].
  - destruct (lex_cons s k ts H) as (Hlt & c & e & s' & -> & Es' & Hk & Hg & Hl).
    assert (s <= es)%nat by (inversion H; done). rewrite <- gettoken_skip in Hg by done.
    eapply lex_tok; [lia | exact Hg | by eapply tok_at_nonzero | | done].
    subst s'. pose proof (proj1 Hk). pose proof (skip_bounds (es - e) (has whitespace) b e). lia.
Qed.

Lemma word_head q e : is_word b es q e -> wordc (rd b q) = true.
Proof.
  intros (Hq & Hf & He). rewrite Forall_lookup in Hf. destruct (span b q e !! 0%nat) as [x |] eqn:E.
  - rewrite <- (Hf 0%nat x E). apply lookup_take_Some in E as [E _]. rewrite lookup_drop, Nat.add_0_r in E. unfold rd. by rewrite E.
  - exfalso. apply lookup_ge_None in E. unfold span in E. rewrite length_take, length_drop in E.
    destruct (decide (q < length b)%nat) as [? | Hl]; [lia |]. destruct (Hin q ltac:(lia)).
    unfold rd. by rewrite lookup_ge_None_2 by lia.
Qed.

Lemma peek_some set s : (s <= es)%nat -> let s1 := skips (es - s) (has whitespace) b s in
  peek b s es set = Some (truthy (rd b s1) && has set (rd b s1), s1).
Proof.
  intros Hs s1. pose proof (skip_bounds (es - s) (has whitespace) b s). unfold peek. rewrite skip_some by lia. cbn [mbind option_bind].
  fold s1. by rewrite rd_lookup by (unfold s1; lia).
Qed.

(** [peek] for a set of symbols looks at the next token. *)
Lemma peek_lex set s ts : (forall c, has set c = true -> has symbols c = true) -> lex b es s ts ->
  let s1 := skips (es - s) (has whitespace) b s in peek b s es set = Some (next set ts, s1) /\ lex b es s1 ts.
Proof.
  intros Hset H s1. split; [| by apply lex_skip]. rewrite (peek_some set s) by (by inversion H). fold s1. do 2 f_equal. destruct ts as [| k ts].
  - inversion H as [? ? E |]; subst. unfold s1. rewrite E, Hend. done.
  - destruct (lex_cons s k ts H) as (Hlt & c & e & s' & -> & _ & Hk & _). fold s1 in Hlt, Hk |- *. unfold truthy.
    rewrite (proj2 (Z.eqb_neq _ _) (Hin s1 ltac:(lia))). cbn [negb andb next ty fst]. unfold tychar.
    destruct (proj2 Hk) as [(Hs & -> & _) | [(-> & _ & -> & _) | [(-> & _ & -> & _) | [-> Hw]]]]; try reflexivity.
    + destruct (single_facts _ Hs) as (_ & _ & _ & _ & Hp & _). by rewrite (proj2 (Z.eqb_neq _ _) Hp).
    + apply word_head in Hw. assert (Hn : forall x, wordc x = true -> has set x = false).
      { intros x Hx. destruct (has set x) eqn:E; [| done]. apply Hset in E. unfold wordc in Hx. rewrite E in Hx.
        by destruct (isspace x). }
      by rewrite !Hn.
Qed.

(** A token of type 'a' is a word. *)
Lemma lex_word s ts q e : lex b es s ts -> (chr "a", q, e) ∈ ts -> is_word b es q e.
Proof.
  revert s. induction ts as [| k ts IH]; intros s H; [by rewrite elem_of_nil |]. destruct (lex_cons s k ts H) as (_ & c & e' & s' & -> & _ & Hk & _ & Hl).
  rewrite elem_of_cons. intros [[= <- -> ->] | Hi]; [| by eapply IH].
  destruct (proj2 Hk) as [(Hs & Hc & _) | [(_ & _ & Hc & _) | [(_ & _ & Hc & _) | [_ Hw]]]]; try done. rewrite <- Hc in Hs. by apply single_facts in Hs as (_ & _ & _ & ? & _).
Qed.

(** The characters from [s] to the end of the line. *)
Definition rest (s : nat) : list Z := take (es - s) (drop s b).

Lemma rest_cons s : (s < es)%nat -> rest s = rd b s :: rest (S s).
Proof.
  intros Hs. pose proof (rd_length s (Hin s Hs)) as Hl. apply lookup_lt_is_Some in Hl as [x Hx].
  unfold rest, rd. rewrite (drop_S _ x s Hx), Hx. replace (es - s)%nat with (S (es - S s)) by lia. done.
Qed.

Lemma rest_end : rest es = [].
Proof. unfold rest. by rewrite Nat.sub_diag. Qed.

Lemma rest_span q e : (q <= e <= es)%nat -> rest q = span b q e ++ rest e.
Proof.
  intros H. unfold rest, span. rewrite <- (take_drop (e - q) (take (es - q) (drop q b))).
  rewrite take_take, Nat.min_l by lia. f_equal. rewrite skipn_firstn_comm, drop_drop. f_equal; [lia |]. f_equal. lia.
Qed.

Lemma lexes_skip s ts : (s <= es)%nat ->
  lexes (rest (skips (es - s) (has whitespace) b s)) ts -> lexes (rest s) ts.
Proof.
  remember (es - s)%nat as n eqn:En. revert s En. induction n as [| n IH]; intros s En Hs; cbn [skips]; [done |].
  destruct (has whitespace (rd b s)) eqn:E; [| done]. intros H. rewrite rest_cons by lia. constructor; [done |].
  apply IH; [lia | lia | done].
Qed.

(** What [gettoken] delivers are the tokens of the text. *)
Lemma lex_lexes s ts : lex b es s ts -> lexes (rest s) (stok_of b <$> ts).
Proof.
  intros H. remember (length ts) as n eqn:En. revert s ts En H. induction n as [| n IH]; intros s ts En H.
  - destruct ts; [| done]. inversion H as [? Hs E |]; subst. apply lexes_skip; [done |]. rewrite E, rest_end. constructor.
  - destruct ts as [| k ts]; [done |]. assert (Hs : (s <= es)%nat) by (inversion H; done).
    destruct (lex_cons s k ts H) as (Hlt & c & e & s' & -> & Es' & Hk & _ & Hl). apply lexes_skip; [done |].
    set (s1 := skips (es - s) (has whitespace) b s) in *. injection En as En. specialize (IH s' ts En Hl).
    subst s'. apply lexes_skip in IH; [| apply (proj1 Hk)]. rewrite fmap_cons. unfold stok_of at 1.
    destruct Hk as (He & [(Hc & -> & ->) | [(Hc & Hn & -> & ->) | [(Hc & Hn & -> & ->) | [-> Hw]]]]).
    + destruct (single_facts _ Hc) as (_ & _ & _ & Ha & Hp & _). rewrite (proj2 (Z.eqb_neq _ _) Ha), (proj2 (Z.eqb_neq _ _) Hp).
      rewrite rest_cons by lia. by apply lexes_sym.
    + rewrite rest_cons by lia. rewrite Hc. change (chr ">" =? chr "a") with false. change (chr ">" =? chr "+") with false. cbn iota.
      apply lexes_gt; [| done]. destruct (decide (S s1 = es)) as [-> |]; [by rewrite rest_end |]. rewrite rest_cons by lia. cbn. by apply Z.eqb_neq.
    + rewrite rest_cons by lia. rewrite rest_cons by lia. rewrite Hc, Hn. by apply lexes_app.
    + rewrite Z.eqb_refl. rewrite (rest_span s1 e) by lia. destruct Hw as (_ & Hf & Hn). apply lexes_word; [| done | | done].
      * intros E. apply (f_equal length) in E. unfold span in E. rewrite length_take, length_drop in E. cbn in E.
        pose proof (rd_length s1 (Hin s1 ltac:(lia))). lia.
      * destruct (decide (e = es)) as [-> |]; [by rewrite rest_end |]. rewrite rest_cons by lia. done.
Qed.
End Line.

(** A text has one sequence of tokens. *)
Lemma word_prefix w w' t t' : w ++ t = w' ++ t' -> Forall (fun c => wordc c = true) w -> Forall (fun c => wordc c = true) w' ->
  starts_not wordc t -> starts_not wordc t' -> w = w' /\ t = t'.
Proof.
  revert w'. induction w as [| c w IH]; intros [| c' w'] E Hw Hw' Ht Ht'; cbn in E; subst.
  - done.
  - apply Forall_cons in Hw' as [? _]. cbn in Ht. congruence.
  - apply Forall_cons in Hw as [? _]. cbn in Ht'. congruence.
  - injection E as -> E. apply Forall_cons in Hw as [_ Hw], Hw' as [_ Hw']. by destruct (IH w' E Hw Hw' Ht Ht') as [-> ->].
Qed.

Lemma lexes_fun t ts ts' : lexes t ts -> lexes t ts' -> ts = ts'.
Proof.
  intros H. revert ts'.
  assert (Hh : forall w c (t : list Z), w <> [] -> Forall (fun c => wordc c = true) w -> forall x, w ++ t = c :: x -> wordc c = true).
  { intros [| d w] c t0 Hw Hf x E; [done |]. injection E as -> _. by apply Forall_cons in Hf as [? _]. }
  induction H as [| c t ts Hc H IH | c t ts Hc H IH | t ts Hn H IH | t ts H IH | w t ts Hw Hf Hn H IH]; intros ts' H'.
  - inversion H' as [| | | | | w t ts Hw Hf Hn Hl E]; [done |]. destruct w; [done | discriminate].
  - destruct (isspace_facts c Hc) as (Hs1 & Hw1 & Hg1 & _). inversion H' as [| | | | | w t0 ts0 Hw Hf Hn Hl E]; subst; try congruence; [by apply IH |].
    rewrite (Hh w c t0 Hw Hf _ E) in Hw1. done.
  - destruct (single_facts c Hc) as (Hs1 & Hw1 & Hg1 & _). inversion H' as [| | | | | w t0 ts0 Hw Hf Hn Hl E]; subst; try congruence; [by f_equal; apply IH |].
    rewrite (Hh w c t0 Hw Hf _ E) in Hw1. done.
  - inversion H' as [| ? ? ? Hc | ? ? ? Hc | ? ? Hn' | | w t0 ts0 Hw Hf Hn' Hl E]; subst; try done; [by f_equal; apply IH |].
    by pose proof (Hh w _ t0 Hw Hf _ E).
  - inversion H' as [| ? ? ? Hc | ? ? ? Hc | ? ? Hn' | | w t0 ts0 Hw Hf Hn' Hl E]; subst; try done; [by f_equal; apply IH |].
    by pose proof (Hh w _ t0 Hw Hf _ E).
  - assert (Hd : forall c x, w ++ t = c :: x -> wordc c = true) by (intros c x; by apply Hh).
    inversion H' as [E | c ? ? Hc ? E | c ? ? Hc ? E | ? ? Hn' ? E | ? ? ? E | w0 t0 ts0 Hw0 Hf0 Hn0 Hl E]; subst.
    + destruct w; done.
    + apply isspace_facts in Hc as (_ & Hc & _). rewrite (Hd c _ (eq_sym E)) in Hc. done.
    + apply single_facts in Hc as (_ & Hc & _). rewrite (Hd c _ (eq_sym E)) in Hc. done.
    + by pose proof (Hd _ _ (eq_sym E)).
    + by pose proof (Hd _ _ (eq_sym E)).
    + destruct (word_prefix w0 w t0 t E Hf0 Hf Hn0 Hn) as [-> ->]. f_equal. by apply IH.
Qed.
