(* ===== verification/ShParse.v ===== *)
(** * user/sh.c: a parser of tokens

    [pline] and its companions parse a list of tokens into a tree; [layout] is where
    the shell puts the structures of a tree in its heap. ShRefine.v proves that the
    functions of the shell, which walk over the buffer, do the same. *)

From S2P Require Import Prelude Riscv Mem StringLib Spinlock Kalloc Vm Proc State Uart Printf Fs File Exec Syscall Sysfile User Ulib Uprintf Sh ShLex.
From Stdlib Require Import Ascii.

(** ** Trees over the buffer, and where they are in the heap *)

Inductive ptree :=
| PExec (args : list (nat * nat))
| PRedir (c : ptree) (q e : nat) (mode fd : Z)
| PPipe (l r : ptree)
| PList (l r : ptree)
| PBack (c : ptree).

Fixpoint size (t : ptree) : nat :=
  match t with
  | PExec _ => 1
  | PRedir c _ _ _ _ | PBack c => S (size c)
  | PPipe l r | PList l r => S (size l + size r)
  end.

(** The address of a tree that was built from [base] on: its last structure. *)
Definition ptr (base : nat) (t : ptree) : nat := (base + size t - 1)%nat.

Definition slots (l : list nat) : list (option nat) := (Some <$> l) ++ replicate (MAXARGS - length l) None.

Fixpoint layout (base : nat) (t : ptree) : list node :=
  match t with
  | PExec args => [NExec (slots (args.*1)) (slots (args.*2))]
  | PRedir c q e mode fd => layout base c ++ [NRedir (ptr base c) q e mode fd]
  | PPipe l r => layout base l ++ layout (base + size l) r ++ [NPipe (ptr base l) (ptr (base + size l) r)]
  | PList l r => layout base l ++ layout (base + size l) r ++ [NList (ptr base l) (ptr (base + size l) r)]
  | PBack c => layout base c ++ [NBack (ptr base c)]
  end.

(** ** Parsing a list of tokens *)

Inductive result (A : Type) := PDone (a : A) | PErr | POut.
Arguments PDone {A} a.
Arguments PErr {A}.
Arguments POut {A}.

Definition rbind {A B} (r : result A) (f : A -> result B) : result B :=
  match r with PDone a => f a | PErr => PErr | POut => POut end.

(** Mode and descriptor of a redirection. *)
Definition redir_of (c : Z) : option (Z * Z) :=
  if c =? chr "<" then Some (O_RDONLY, 0)
  else if c =? chr ">" then Some (Z.lor (Z.lor O_WRONLY O_CREATE) O_TRUNC, 1)
  else if c =? chr "+" then Some (Z.lor O_WRONLY O_CREATE, 1)
  else None.

Fixpoint predirs (ts : list token) (t : ptree) : result (ptree * list token) :=
  match ts with
  | [] => PDone (t, [])
  | k :: ts1 =>
      match redir_of (ty k) with
      | None => PDone (t, ts)
      | Some (mode, fd) =>
          match ts1 with
          | (c, q, e) :: ts2 => if c =? chr "a" then predirs ts2 (PRedir t q e mode fd) else PErr
          | [] => PErr
          end
      end
  end.

(** One more argument for the command inside redirections. *)
Fixpoint add_arg (t : ptree) (a : nat * nat) : ptree :=
  match t with
  | PExec args => PExec (args ++ [a])
  | PRedir c q e mode fd => PRedir (add_arg c a) q e mode fd
  | _ => t
  end.

Fixpoint pargs (ts : list token) (t : ptree) (argc : nat) : result (ptree * list token) :=
  match ts with
  | [] => PDone (t, [])
  | k :: ts1 =>
      if has (str "|)&;") (tychar (ty k)) then PDone (t, ts) else
      match redir_of (ty k) with
      | Some (mode, fd) =>
          match ts1 with
          | (c, q, e) :: ts2 => if c =? chr "a" then pargs ts2 (PRedir t q e mode fd) argc else PErr
          | [] => PErr
          end
      | None =>
          if ty k =? chr "a" then
            if bool_decide (MAXARGS <= S argc)%nat then PErr else pargs ts1 (add_arg t (k.1.2, k.2)) (S argc)
          else PErr
      end
  end.

Fixpoint pbacks (ts : list token) (t : ptree) : ptree * list token :=
  match ts with
  | k :: ts1 => if ty k =? chr "&" then pbacks ts1 (PBack t) else (t, ts)
  | [] => (t, [])
  end.

(** The token is there: the rest of the tokens. *)
Definition expect (c : Z) (ts : list token) : option (list token) :=
  match ts with k :: ts => if ty k =? c then Some ts else None | [] => None end.

Fixpoint pline (n : nat) (ts : list token) : result (ptree * list token) :=
  match n with
  | O => POut
  | S n =>
      rbind (ppipe n ts) (fun r =>
      let '(t, ts) := pbacks r.2 r.1 in
      match expect (chr ";") ts with
      | None => PDone (t, ts)
      | Some ts => rbind (pline n ts) (fun r => PDone (PList t r.1, r.2))
      end)
  end
with ppipe (n : nat) (ts : list token) : result (ptree * list token) :=
  match n with
  | O => POut
  | S n =>
      rbind (pexec n ts) (fun r =>
      match expect (chr "|") r.2 with
      | None => PDone r
      | Some ts => rbind (ppipe n ts) (fun r' => PDone (PPipe r.1 r'.1, r'.2))
      end)
  end
with pexec (n : nat) (ts : list token) : result (ptree * list token) :=
  match n with
  | O => POut
  | S n => match expect (chr "(") ts with Some _ => pblock n ts | None => pargs ts (PExec []) 0 end
  end
with pblock (n : nat) (ts : list token) : result (ptree * list token) :=
  match n with
  | O => POut
  | S n =>
      match expect (chr "(") ts with
      | None => PErr
      | Some ts =>
          rbind (pline n ts) (fun r =>
          match expect (chr ")") r.2 with None => PErr | Some ts => predirs ts r.1 end)
      end
  end.

(** ** Layout *)

Lemma size_pos t : (0 < size t)%nat.
Proof. destruct t; simpl; lia. Qed.

Lemma layout_length base t : length (layout base t) = size t.
Proof. revert base. induction t; intros base; cbn [layout size]; rewrite ?length_app; cbn [length]; rewrite ?IHt, ?IHt1, ?IHt2; lia. Qed.

(** The arguments so far of a command inside redirections. *)
Fixpoint exec_args (t : ptree) : option (list (nat * nat)) :=
  match t with PExec args => Some args | PRedir c _ _ _ _ => exec_args c | _ => None end.

Lemma exec_args_add t args a : exec_args t = Some args -> exec_args (add_arg t a) = Some (args ++ [a]).
Proof. induction t; cbn; try done. by intros [= ->]. Qed.

Lemma size_add t a : size (add_arg t a) = size t.
Proof. induction t; cbn; congruence. Qed.

Lemma length_slots l : (length l <= MAXARGS)%nat -> length (slots l) = MAXARGS.
Proof. intros H. unfold slots. rewrite length_app, length_fmap, length_replicate. lia. Qed.

Lemma slots_insert l x : (length l < MAXARGS)%nat -> <[length l := Some x]> (slots l) = slots (l ++ [x]).
Proof.
  intros H. unfold slots. rewrite insert_app_r_alt by (rewrite length_fmap; lia). rewrite length_fmap, Nat.sub_diag.
  rewrite fmap_app, length_app, <- app_assoc. f_equal. destruct (MAXARGS - length l)%nat as [| m] eqn:E; [lia |].
  cbn [replicate length]. replace (MAXARGS - (length l + 1))%nat with m by lia. done.
Qed.

Lemma slots_last l : (length l < MAXARGS)%nat -> <[length l := None]> (slots l) = slots l.
Proof.
  intros H. apply list_insert_id. unfold slots. rewrite lookup_app_r by (rewrite length_fmap; lia).
  rewrite length_fmap, Nat.sub_diag, lookup_replicate. split; [done | lia].
Qed.

Lemma layout_exec base t args : exec_args t = Some args ->
  exists k, layout base t = NExec (slots (args.*1)) (slots (args.*2)) :: k /\
    forall a, layout base (add_arg t a) = NExec (slots ((args ++ [a]).*1)) (slots ((args ++ [a]).*2)) :: k.
Proof.
  induction t as [args' | c IH q e mode fd | | |]; cbn [exec_args]; try done.
  - intros [= ->]. by exists [].
  - intros H. destruct (IH H) as (k & E & Ea). exists (k ++ [NRedir (ptr base c) q e mode fd]). split; [cbn; by rewrite E |].
    intros a. cbn [add_arg layout]. rewrite Ea. unfold ptr. by rewrite size_add.
Qed.

Lemma redir_not_stop c r : redir_of c = Some r -> has (str "|)&;") (tychar c) = false.
Proof.
  unfold redir_of, tychar. intros H. destruct (Z.eqb_spec c (chr "+")) as [-> |]; [done |].
  destruct (Z.eqb_spec c (chr "<")) as [-> |]; [done |]. destruct (Z.eqb_spec c (chr ">")) as [-> |]; done.
Qed.

Lemma predirs_total ts t : predirs ts t <> POut.
Proof.
  remember (length ts) as m eqn:Em. revert ts t Em. induction m as [m IH] using lt_wf_ind. intros ts t ->.
  destruct ts as [| k ts]; [done |]. cbn [predirs]. destruct (redir_of (ty k)) as [[mode fd] |]; [| done].
  destruct ts as [| [[c q] e] ts]; [done |]. destruct (c =? chr "a"); [| done]. apply (IH (length ts)); [cbn [length]; lia | done].
Qed.
