(* ===== verification/ShGrammar.v ===== *)
(** * user/sh.c: the command language

    [line], [pipe] and [command] are the sentences of the language, [print_line]
    their tokens and [ast_line] their meaning as trees. The parser of tokens accepts
    exactly the sentences and gives their trees. *)

From S2P Require Import Prelude Riscv Mem StringLib Spinlock Kalloc Vm Proc State Uart Printf Fs File Exec Syscall Sysfile User Ulib Uprintf Sh ShLex ShParse.
From Stdlib Require Import Ascii.

(** ** The language *)

Inductive rkind := RIn | ROut | RApp.
Inductive item := IWord (w : list Z) | IRedir (k : rkind) (f : list Z).

(** A line is pipelines separated by semicolons, each followed by any number of
    ampersands; a pipeline is commands separated by bars; a command is words and
    redirections, or a line in parentheses followed by redirections. *)
Inductive line :=
| LLast (p : pipe) (backs : nat)
| LSeq (p : pipe) (backs : nat) (l : line)
with pipe :=
| PiLast (c : command)
| PiMore (c : command) (p : pipe)
with command :=
| CSimple (items : list item)
| CBlock (l : line) (rs : list (rkind * list Z)).

Scheme line_mut := Induction for line Sort Prop
with pipe_mut := Induction for pipe Sort Prop
with command_mut := Induction for command Sort Prop.
Combined Scheme syntax_ind from line_mut, pipe_mut, command_mut.

Definition print_rkind (k : rkind) : stok := match k with RIn => SSym (chr "<") | ROut => SSym (chr ">") | RApp => SApp end.
Definition print_redir (r : rkind * list Z) : list stok := [print_rkind r.1; SWord r.2].
Definition print_item (i : item) : list stok := match i with IWord w => [SWord w] | IRedir k f => print_redir (k, f) end.
Definition print_backs (n : nat) : list stok := replicate n (SSym (chr "&")).

Fixpoint print_line (l : line) : list stok :=
  match l with
  | LLast p n => print_pipe p ++ print_backs n
  | LSeq p n l => print_pipe p ++ print_backs n ++ SSym (chr ";") :: print_line l
  end
with print_pipe (p : pipe) : list stok :=
  match p with
  | PiLast c => print_command c
  | PiMore c p => print_command c ++ SSym (chr "|") :: print_pipe p
  end
with print_command (c : command) : list stok :=
  match c with
  | CSimple items => items ≫= print_item
  | CBlock l rs => SSym (chr "(") :: print_line l ++ SSym (chr ")") :: (rs ≫= print_redir)
  end.

(** ** What a sentence means *)

Inductive ast :=
| AExec (args : list (list Z))
| ARedir (c : ast) (file : list Z) (mode fd : Z)
| APipe (l r : ast)
| AList (l r : ast)
| ABack (c : ast).

Definition redir_params (k : rkind) : Z * Z :=
  match k with
  | RIn => (O_RDONLY, 0)
  | ROut => (Z.lor (Z.lor O_WRONLY O_CREATE) O_TRUNC, 1)
  | RApp => (Z.lor O_WRONLY O_CREATE, 1)
  end.

(** The first redirection is the innermost. *)
Definition wrap (a : ast) (r : rkind * list Z) : ast := ARedir a r.2 (redir_params r.1).1 (redir_params r.1).2.
Definition wraps (rs : list (rkind * list Z)) (a : ast) : ast := foldl wrap a rs.

Definition words (items : list item) : list (list Z) := items ≫= fun i => match i with IWord w => [w] | _ => [] end.
Definition redirs (items : list item) : list (rkind * list Z) := items ≫= fun i => match i with IRedir k f => [(k, f)] | _ => [] end.

Fixpoint backs_of (n : nat) (a : ast) : ast := match n with O => a | S n => ABack (backs_of n a) end.

Fixpoint ast_line (l : line) : ast :=
  match l with
  | LLast p n => backs_of n (ast_pipe p)
  | LSeq p n l => AList (backs_of n (ast_pipe p)) (ast_line l)
  end
with ast_pipe (p : pipe) : ast :=
  match p with PiLast c => ast_command c | PiMore c p => APipe (ast_command c) (ast_pipe p) end
with ast_command (c : command) : ast :=
  match c with
  | CSimple items => wraps (redirs items) (AExec (words items))
  | CBlock l rs => wraps rs (ast_line l)
  end.

(** Every command has fewer than MAXARGS words. *)
Fixpoint few_line (l : line) : Prop :=
  match l with LLast p _ => few_pipe p | LSeq p _ l => few_pipe p /\ few_line l end
with few_pipe (p : pipe) : Prop :=
  match p with PiLast c => few_command c | PiMore c p => few_command c /\ few_pipe p end
with few_command (c : command) : Prop :=
  match c with CSimple items => (length (words items) < MAXARGS)%nat | CBlock l _ => few_line l end.

(** ** The tree of a parse and its words *)

Section Grammar.
Context (b : list Z).

Fixpoint ast_of (t : ptree) : ast :=
  match t with
  | PExec args => AExec ((fun a => span b a.1 a.2) <$> args)
  | PRedir c q e mode fd => ARedir (ast_of c) (span b q e) mode fd
  | PPipe l r => APipe (ast_of l) (ast_of r)
  | PList l r => AList (ast_of l) (ast_of r)
  | PBack c => ABack (ast_of c)
  end.

Fixpoint spans (t : ptree) : list (nat * nat) :=
  match t with
  | PExec args => args
  | PRedir c q e _ _ => spans c ++ [(q, e)]
  | PPipe l r | PList l r => spans l ++ spans r
  | PBack c => spans c
  end.

Local Abbreviation toks := (fmap (stok_of b)).

Lemma stok_sym k c : stok_of b k = SSym c -> ty k = c.
Proof. destruct k as [[x q] e]. cbn. destruct (x =? chr "a"), (x =? chr "+"); try done. by intros [= <-]. Qed.
Lemma stok_word k w : stok_of b k = SWord w -> ty k = chr "a" /\ span b k.1.2 k.2 = w.
Proof. destruct k as [[x q] e]. cbn. destruct (Z.eqb_spec x (chr "a")) as [-> |]; [by intros [= <-] | by destruct (x =? chr "+")]. Qed.
Lemma word_stok k : ty k = chr "a" -> stok_of b k = SWord (span b k.1.2 k.2).
Proof. destruct k as [[x q] e]. cbn. by intros ->. Qed.
Lemma sym_stok k c : ty k = c -> c <> chr "a" -> c <> chr "+" -> stok_of b k = SSym c.
Proof. destruct k as [[x q] e]. cbn. intros -> H1 H2. by rewrite (proj2 (Z.eqb_neq _ _) H1), (proj2 (Z.eqb_neq _ _) H2). Qed.

Lemma redir_stok k r : redir_of (ty k) = Some r -> exists rk, stok_of b k = print_rkind rk /\ r = redir_params rk.
Proof.
  destruct k as [[x q] e]. unfold redir_of. cbn [ty fst]. destruct (Z.eqb_spec x (chr "<")) as [-> |]; [intros [= <-]; by exists RIn |].
  destruct (Z.eqb_spec x (chr ">")) as [-> |]; [intros [= <-]; by exists ROut |].
  destruct (Z.eqb_spec x (chr "+")) as [-> |]; [intros [= <-]; by exists RApp | done].
Qed.
Lemma stok_redir k rk : stok_of b k = print_rkind rk -> redir_of (ty k) = Some (redir_params rk).
Proof.
  destruct k as [[x q] e]. cbn. destruct (Z.eqb_spec x (chr "a")) as [-> |]; [by destruct rk |].
  destruct (Z.eqb_spec x (chr "+")) as [-> |]; [by destruct rk |]. destruct rk; try done; by intros [= ->].
Qed.

(** The token of a word is in the list with its position. *)
Definition from (ts : list token) (t : ptree) : Prop := forall q e, (q, e) ∈ spans t -> (chr "a", q, e) ∈ ts.

(** ** Soundness *)

Lemma predirs_sound n ts t t' ts' : (length ts <= n)%nat -> predirs ts t = PDone (t', ts') ->
  exists rs ts1, ts = ts1 ++ ts' /\ toks ts1 = rs ≫= print_redir /\ ast_of t' = wraps rs (ast_of t) /\
    forall q e, (q, e) ∈ spans t' -> (q, e) ∈ spans t \/ (chr "a", q, e) ∈ ts1.
Proof.
  revert ts t. induction n as [| n IH]; intros ts t Hn; (destruct ts as [| k ts]; [intros [= <- <-]; exists [], []; auto |]); [cbn in Hn; lia |].
  cbn [predirs]. destruct (redir_of (ty k)) as [r |] eqn:Er; [| intros [= <- <-]; exists [], []; auto].
  destruct r as [mode fd]. destruct ts as [| [[c q] e] ts]; [done |]. destruct (Z.eqb_spec c (chr "a")) as [-> |]; [| done]. intros H. cbn [length] in Hn.
  destruct (IH ts _ ltac:(lia) H) as (rs & ts1 & -> & E1 & E2 & E3). destruct (redir_stok k _ Er) as (rk & Ek & Ep).
  exists ((rk, span b q e) :: rs), (k :: (chr "a", q, e) :: ts1). split; [done |]. split.
  { cbn. by rewrite Ek, E1. }
  split. { rewrite E2. cbn. unfold wrap at 2. cbn. by rewrite <- Ep. }
  intros q' e' Hq. destruct (E3 q' e' Hq) as [Hs | Hs]; [| right; by do 2 right].
  cbn [spans] in Hs. rewrite elem_of_app, list_elem_of_singleton in Hs. destruct Hs as [Hs | [= -> ->]]; [by left |]. right. by right; left.
Qed.

Lemma wraps_app rs rs' a : wraps (rs ++ rs') a = wraps rs' (wraps rs a).
Proof. apply foldl_app. Qed.

Lemma add_arg_ast t args rs ws a : exec_args t = Some args -> ast_of t = wraps rs (AExec ws) ->
  ast_of (add_arg t a) = wraps rs (AExec (ws ++ [span b a.1 a.2])).
Proof.
  revert rs. induction t as [args' | c IH q e mode fd | | |]; cbn [exec_args]; try done.
  - intros rs _. destruct rs as [| r rs _] using rev_ind; [| by rewrite wraps_app]. cbn. intros [= <-]. by rewrite fmap_app.
  - intros rs Ha. destruct rs as [| r rs _] using rev_ind; [done |]. rewrite !wraps_app. cbn. unfold wrap. intros [= E -> -> ->].
    by rewrite (IH rs Ha E).
Qed.

Lemma add_arg_spans t a x : x ∈ spans (add_arg t a) -> x ∈ spans t \/ x = a.
Proof.
  induction t; cbn; try by left.
  - rewrite elem_of_app, list_elem_of_singleton. tauto.
  - rewrite !elem_of_app, !list_elem_of_singleton. tauto.
Qed.

Lemma pargs_sound n ts : forall t t' ts' args rs ws, (length ts <= n)%nat -> pargs ts t (length ws) = PDone (t', ts') ->
  exec_args t = Some args -> ast_of t = wraps rs (AExec ws) -> (length ws < MAXARGS)%nat ->
  exists items ts1, ts = ts1 ++ ts' /\ toks ts1 = items ≫= print_item /\
    ast_of t' = wraps (rs ++ redirs items) (AExec (ws ++ words items)) /\ (length (ws ++ words items) < MAXARGS)%nat /\
    forall q e, (q, e) ∈ spans t' -> (q, e) ∈ spans t \/ (chr "a", q, e) ∈ ts1.
Proof.
  revert ts. induction n as [| n IH]; intros ts t t' ts' args rs ws Hn;
    (destruct ts as [| k ts]; [intros [= <- <-] Ha Ht Hw; exists [], []; cbn; rewrite !app_nil_r; auto 10 |]); [cbn in Hn; lia |].
  cbn [pargs]. destruct (has _ _); [intros [= <- <-] Ha Ht Hw; exists [], []; cbn; rewrite !app_nil_r; auto 10 |].
  destruct (redir_of (ty k)) as [[mode fd] |] eqn:Er.
  - destruct ts as [| [[c q] e] ts]; [done |]. destruct (Z.eqb_spec c (chr "a")) as [-> |]; [| done]. intros H Ha Ht Hw. cbn [length] in Hn.
    destruct (redir_stok k _ Er) as (rk & Ek & Ep).
    destruct (IH ts (PRedir t q e mode fd) t' ts' args (rs ++ [(rk, span b q e)]) ws ltac:(lia) H Ha) as (items & ts1 & -> & E1 & E2 & E3 & E4); [| done |].
    { rewrite wraps_app, <- Ht. cbn. unfold wrap. cbn. by rewrite <- Ep. }
    exists (IRedir rk (span b q e) :: items), (k :: (chr "a", q, e) :: ts1). split; [done |]. split; [cbn; by rewrite Ek, E1 |].
    split; [rewrite E2, <- app_assoc; done |]. split; [done |]. intros q' e' Hq. destruct (E4 q' e' Hq) as [Hs | Hs]; [| right; by do 2 right].
    cbn [spans] in Hs. rewrite elem_of_app, list_elem_of_singleton in Hs. destruct Hs as [Hs | [= -> ->]]; [by left |]. right. by right; left.
  - destruct (Z.eqb_spec (ty k) (chr "a")) as [Ea |]; [| done]. destruct (bool_decide _) eqn:Em; [done |]. apply bool_decide_eq_false in Em.
    intros H Ha Ht Hw. cbn [length] in Hn. destruct k as [[c q] e]. cbn in Ea. subst c. cbn [fst snd] in *.
    pose proof (add_arg_ast t args rs ws (q, e) Ha Ht) as Ht2. cbn [fst snd] in Ht2.
    replace (S (length ws)) with (length (ws ++ [span b q e])) in H by (rewrite length_app; cbn; lia).
    destruct (IH ts _ t' ts' _ rs (ws ++ [span b q e]) ltac:(lia) H (exec_args_add _ _ _ Ha) Ht2) as (items & ts1 & -> & E1 & E2 & E3 & E4);
      [rewrite length_app; cbn; lia |].
    exists (IWord (span b q e) :: items), ((chr "a", q, e) :: ts1). split; [done |]. split; [cbn; by rewrite E1 |].
    rewrite <- !app_assoc in *. split; [done |]. split; [done |]. intros q' e' Hq. destruct (E4 q' e' Hq) as [Hs | Hs]; [| right; by right].
    apply add_arg_spans in Hs as [Hs | [= -> ->]]; [by left |]. right. by left.
Qed.

Lemma backs_back n a : backs_of n (ABack a) = ABack (backs_of n a).
Proof. induction n; cbn; congruence. Qed.

Lemma pbacks_sound ts : forall t t' ts', pbacks ts t = (t', ts') ->
  exists n ts1, ts = ts1 ++ ts' /\ toks ts1 = print_backs n /\ ast_of t' = backs_of n (ast_of t) /\ spans t' = spans t.
Proof.
  induction ts as [| k ts IH]; intros t t' ts'; cbn [pbacks]; [intros [= <- <-]; by exists 0%nat, [] |].
  destruct (Z.eqb_spec (ty k) (chr "&")) as [E |]; [| intros [= <- <-]; by exists 0%nat, []].
  intros H. destruct (IH _ _ _ H) as (n & ts1 & -> & E1 & E2 & E3). exists (S n), (k :: ts1). split; [done |]. split.
  - cbn. by rewrite (sym_stok k _ E), E1.
  - split; [rewrite E2; cbn; by rewrite backs_back | done].
Qed.

Lemma expect_sound c ts ts' : expect c ts = Some ts' -> c <> chr "a" -> c <> chr "+" -> exists k, ts = k :: ts' /\ stok_of b k = SSym c.
Proof.
  destruct ts as [| k ts]; cbn; [done |]. destruct (Z.eqb_spec (ty k) c) as [E |]; [| done]. intros [= <-] H1 H2. exists k. split; [done |]. by apply sym_stok.
Qed.

Lemma parse_sound n :
  (forall ts t ts', pline n ts = PDone (t, ts') -> exists l ts1, ts = ts1 ++ ts' /\ toks ts1 = print_line l /\
     ast_of t = ast_line l /\ few_line l /\ from ts1 t) /\
  (forall ts t ts', ppipe n ts = PDone (t, ts') -> exists l ts1, ts = ts1 ++ ts' /\ toks ts1 = print_pipe l /\
     ast_of t = ast_pipe l /\ few_pipe l /\ from ts1 t) /\
  (forall ts t ts', pexec n ts = PDone (t, ts') -> exists l ts1, ts = ts1 ++ ts' /\ toks ts1 = print_command l /\
     ast_of t = ast_command l /\ few_command l /\ from ts1 t) /\
  (forall ts t ts', pblock n ts = PDone (t, ts') -> exists l ts1, ts = ts1 ++ ts' /\ toks ts1 = print_command l /\
     ast_of t = ast_command l /\ few_command l /\ from ts1 t).
Proof.
  induction n as [| n (IHl & IHp & IHe & IHb)]; [done |]. repeat split; intros ts t ts'.
  - cbn [pline]. destruct (ppipe n ts) as [[t1 ts1] | |] eqn:Ep; cbn [rbind fst snd]; try done.
    destruct (IHp _ _ _ Ep) as (p & x1 & -> & E1 & E2 & E3 & E4). destruct (pbacks ts1 t1) as [t2 ts2] eqn:Eb.
    destruct (pbacks_sound _ _ _ _ Eb) as (m & x2 & -> & F1 & F2 & F3).
    destruct (expect (chr ";") ts2) as [ts3 |] eqn:Ex.
    + destruct (expect_sound _ _ _ Ex ltac:(done) ltac:(done)) as (k & -> & Hk).
      destruct (pline n ts3) as [[t4 ts4] | |] eqn:El; cbn [rbind fst snd]; try done. intros [= <- <-].
      destruct (IHl _ _ _ El) as (l & x4 & -> & G1 & G2 & G3 & G4). exists (LSeq p m l), (x1 ++ x2 ++ k :: x4).
      split; [by rewrite <- !app_assoc |]. split; [cbn [print_line]; rewrite !fmap_app, fmap_cons, E1, F1, G1, Hk; done |].
      split; [cbn; by rewrite F2, E2, G2 |]. split; [done |]. intros q e. cbn [spans]. rewrite F3, !elem_of_app, elem_of_cons.
      intros [Hq | Hq]; [left; by apply E4 | right; right; right; by apply G4].
    + intros [= <- <-]. exists (LLast p m), (x1 ++ x2). split; [by rewrite <- app_assoc |]. split; [cbn [print_line]; by rewrite fmap_app, E1, F1 |].
      split; [cbn; by rewrite F2, E2 |]. split; [done |]. intros q e. rewrite F3, elem_of_app. intros Hq. left. by apply E4.
  - cbn [ppipe]. destruct (pexec n ts) as [[t1 ts1] | |] eqn:Ep; cbn [rbind fst snd]; try done.
    destruct (IHe _ _ _ Ep) as (c & x1 & -> & E1 & E2 & E3 & E4). destruct (expect (chr "|") ts1) as [ts3 |] eqn:Ex.
    + destruct (expect_sound _ _ _ Ex ltac:(done) ltac:(done)) as (k & -> & Hk).
      destruct (ppipe n ts3) as [[t4 ts4] | |] eqn:El; cbn [rbind fst snd]; try done. intros [= <- <-].
      destruct (IHp _ _ _ El) as (l & x4 & -> & G1 & G2 & G3 & G4). exists (PiMore c l), (x1 ++ k :: x4).
      split; [by rewrite <- !app_assoc |]. split; [cbn [print_pipe]; rewrite fmap_app, fmap_cons, E1, G1, Hk; done |].
      split; [cbn; by rewrite E2, G2 |]. split; [done |]. intros q e. cbn [spans]. rewrite !elem_of_app, elem_of_cons.
      intros [Hq | Hq]; [left; by apply E4 | right; right; by apply G4].
    + intros [= <- <-]. by exists (PiLast c), x1.
  - cbn [pexec]. destruct (expect (chr "(") ts); [by apply IHb |]. intros H.
    destruct (pargs_sound _ ts (PExec []) t ts' [] [] [] (le_n _) H eq_refl eq_refl ltac:(cbn; unfold MAXARGS; lia)) as (items & ts1 & -> & E1 & E2 & E3 & E4).
    exists (CSimple items), ts1. repeat split; try done. intros q e Hq. destruct (E4 q e Hq) as [Hs | Hs]; [| done]. by apply elem_of_nil in Hs.
  - cbn [pblock]. destruct (expect (chr "(") ts) as [ts1 |] eqn:Ex; [| done].
    destruct (expect_sound _ _ _ Ex ltac:(done) ltac:(done)) as (k & -> & Hk).
    destruct (pline n ts1) as [[t2 ts2] | |] eqn:El; cbn [rbind fst snd]; try done.
    destruct (IHl _ _ _ El) as (l & x2 & -> & G1 & G2 & G3 & G4). destruct (expect (chr ")") ts2) as [ts3 |] eqn:Ey; [| done].
    destruct (expect_sound _ _ _ Ey ltac:(done) ltac:(done)) as (k' & -> & Hk'). intros H.
    destruct (predirs_sound _ _ _ _ _ (le_n _) H) as (rs & x3 & -> & E1 & E2 & E3). exists (CBlock l rs), (k :: x2 ++ k' :: x3).
    split; [cbn; by rewrite <- !app_assoc |]. split; [cbn; rewrite !fmap_app, fmap_cons, Hk, Hk', G1, E1; done |].
    split; [by rewrite E2, G2 |]. split; [done |]. intros q e Hq. rewrite elem_of_cons, elem_of_app, elem_of_cons.
    destruct (E3 q e Hq) as [Hs | Hs]; [right; left; by apply G4 | by right; right; right].
Qed.

(** ** The parser ends *)

Lemma pargs_total n ts t argc : (length ts <= n)%nat -> pargs ts t argc <> POut.
Proof.
  revert ts t argc. induction n as [| n IH]; intros ts t argc Hn; (destruct ts as [| k ts]; [done |]); [cbn in Hn; lia |]. cbn [pargs length] in *.
  destruct (has _ _); [done |]. destruct (redir_of (ty k)) as [[mode fd] |].
  - destruct ts as [| [[c q] e] ts]; [done |]. destruct (c =? chr "a"); [| done]. apply IH. cbn [length] in Hn. lia.
  - destruct (ty k =? chr "a"); [| done]. destruct (bool_decide _); [done |]. apply IH. lia.
Qed.

Lemma expect_length c ts ts' : expect c ts = Some ts' -> length ts = S (length ts').
Proof. destruct ts as [| k ts]; cbn; [done |]. destruct (ty k =? c); [by intros [= <-] | done]. Qed.

Lemma parse_total n :
  (forall ts, (4 * length ts + 4 <= n)%nat -> pline n ts <> POut) /\
  (forall ts, (4 * length ts + 3 <= n)%nat -> ppipe n ts <> POut) /\
  (forall ts, (4 * length ts + 2 <= n)%nat -> pexec n ts <> POut) /\
  (forall ts, (4 * length ts + 1 <= n)%nat -> pblock n ts <> POut).
Proof.
  induction n as [| n (IHl & IHp & IHe & IHb)]; [repeat split; intros; lia |]. destruct (parse_sound n) as (Sl & Sp & Se & _).
  repeat split; intros ts Hn.
  - cbn [pline]. specialize (IHp ts ltac:(lia)). destruct (ppipe n ts) as [[t1 ts1] | |] eqn:Ep; cbn [rbind fst snd]; try done.
    destruct (Sp _ _ _ Ep) as (? & x1 & -> & _). destruct (pbacks ts1 t1) as [t2 ts2] eqn:Eb.
    destruct (pbacks_sound _ _ _ _ Eb) as (? & x2 & -> & _). destruct (expect (chr ";") ts2) as [ts3 |] eqn:Ex; [| done].
    apply expect_length in Ex. rewrite !length_app in Hn. specialize (IHl ts3 ltac:(lia)). by destruct (pline n ts3).
  - cbn [ppipe]. specialize (IHe ts ltac:(lia)). destruct (pexec n ts) as [[t1 ts1] | |] eqn:Ep; cbn [rbind fst snd]; try done.
    destruct (Se _ _ _ Ep) as (? & x1 & -> & _). destruct (expect (chr "|") ts1) as [ts3 |] eqn:Ex; [| done].
    apply expect_length in Ex. rewrite length_app in Hn. specialize (IHp ts3 ltac:(lia)). by destruct (ppipe n ts3).
  - cbn [pexec]. destruct (expect (chr "(") ts); [apply IHb; lia | by eapply pargs_total].
  - cbn [pblock]. destruct (expect (chr "(") ts) as [ts1 |] eqn:Ex; [| done]. apply expect_length in Ex.
    specialize (IHl ts1 ltac:(lia)). destruct (pline n ts1) as [[t2 ts2] | |]; cbn [rbind fst snd]; try done.
    destruct (expect (chr ")") ts2); [apply predirs_total | done].
Qed.

(** ** Completeness *)

(** The next token is one of the set. *)
Definition follow (set : list Z) (ts : list token) : Prop := match ts with [] => True | k :: _ => ty k ∈ set end.
Definition after_line : list Z := [chr ")"].
Definition after_pipe : list Z := [chr ")"; chr "&"; chr ";"].
Definition after_command : list Z := [chr ")"; chr "&"; chr ";"; chr "|"].

Lemma follow_redir ts : follow after_command ts -> match ts with k :: _ => redir_of (ty k) = None /\ has (str "|)&;") (tychar (ty k)) = true | [] => True end.
Proof.
  destruct ts as [| k ts]; [done |]. unfold follow, after_command. rewrite !elem_of_cons, elem_of_nil. intros H. destruct_or! H; try done; rewrite H; done.
Qed.

Lemma follow_expect set c ts : follow set ts -> bool_decide (c ∈ set) = false -> expect c ts = None.
Proof.
  destruct ts as [| k ts]; [done |]. cbn. intros Hs Hc%bool_decide_eq_false. destruct (Z.eqb_spec (ty k) c) as [<- |]; done.
Qed.

Lemma follow_weaken set set' ts : follow set ts -> (forall c, c ∈ set -> c ∈ set') -> follow set' ts.
Proof. destruct ts; cbn; auto. Qed.

Lemma predirs_complete rs : forall ts1 ts2 t, toks ts1 = rs ≫= print_redir -> follow after_command ts2 ->
  exists t', predirs (ts1 ++ ts2) t = PDone (t', ts2) /\ ast_of t' = wraps rs (ast_of t).
Proof.
  induction rs as [| [rk f] rs IH]; intros ts1 ts2 t H Hf; cbn in H.
  - apply fmap_nil_inv in H as ->. exists t. split; [| done]. apply follow_redir in Hf. destruct ts2 as [| k ts2]; [done |]. cbn. by destruct Hf as [-> _].
  - destruct ts1 as [| k [| k2 ts1]]; [done | done |]. injection H as Hk Hw H. apply stok_redir in Hk. apply stok_word in Hw as [Ha Hw]. destruct k2 as [[c q] e].
    cbn [ty fst snd] in Ha, Hw. subst c f. cbn [app predirs]. rewrite Hk. destruct (redir_params rk) as [mode fd] eqn:Er. rewrite Z.eqb_refl.
    destruct (IH ts1 ts2 (PRedir t q e mode fd) H Hf) as (t' & E1 & E2). exists t'. split; [done |]. rewrite E2. cbn. unfold wrap at 2. cbn. by rewrite Er.
Qed.

Lemma pargs_complete items : forall ts1 ts2 t args rs ws, toks ts1 = items ≫= print_item -> follow after_command ts2 ->
  exec_args t = Some args -> ast_of t = wraps rs (AExec ws) -> (length (ws ++ words items) < MAXARGS)%nat ->
  exists t', pargs (ts1 ++ ts2) t (length ws) = PDone (t', ts2) /\ ast_of t' = wraps (rs ++ redirs items) (AExec (ws ++ words items)).
Proof.
  induction items as [| [w | rk f] items IH]; intros ts1 ts2 t args rs ws H Hf Ha Ht Hn; cbn in H.
  - apply fmap_nil_inv in H as ->. exists t. cbn. rewrite !app_nil_r. split; [| done]. apply follow_redir in Hf. destruct ts2 as [| k ts2]; [done |].
    cbn [app pargs]. by destruct Hf as [_ ->].
  - destruct ts1 as [| k2 ts1]; [done |]. injection H as Hw H. apply stok_word in Hw as [Hc Hw]. destruct k2 as [[c q] e]. cbn [ty fst snd] in Hc, Hw. subst c w.
    cbn [app pargs ty fst snd]. change (has (str "|)&;") (tychar (chr "a"))) with false. change (redir_of (chr "a")) with (@None (Z * Z)). cbn iota. rewrite Z.eqb_refl.
    change (words (IWord (span b q e) :: items)) with ([span b q e] ++ words items) in *. rewrite (assoc_L (++)) in *.
    rewrite !length_app in Hn. cbn [length] in Hn. rewrite bool_decide_eq_false_2 by lia.
    replace (S (length ws)) with (length (ws ++ [span b q e])) by (rewrite length_app; cbn; lia).
    apply (IH ts1 ts2 _ _ _ _ H Hf (exec_args_add _ _ (q, e) Ha) (add_arg_ast t args rs ws (q, e) Ha Ht)).
    rewrite !length_app. cbn [length]. lia.
  - destruct ts1 as [| k [| k2 ts1]]; [done | done |]. injection H as Hk Hw H. apply stok_redir in Hk. apply stok_word in Hw as [Hc Hw]. destruct k2 as [[c q] e].
    cbn [ty fst snd] in Hc, Hw. subst c f. cbn [app pargs].
    rewrite (redir_not_stop _ _ Hk), Hk. destruct (redir_params rk) as [mode fd] eqn:Er. rewrite Z.eqb_refl.
    change (redirs (IRedir rk (span b q e) :: items)) with ([(rk, span b q e)] ++ redirs items) in *. rewrite (assoc_L (++)).
    apply (IH ts1 ts2 (PRedir t q e mode fd) args _ ws H Hf Ha); [| done]. rewrite wraps_app, <- Ht. cbn. unfold wrap. cbn. by rewrite Er.
Qed.

Lemma pbacks_complete n : forall ts1 ts2 t, toks ts1 = print_backs n -> follow [chr ")"; chr ";"] ts2 ->
  exists t', pbacks (ts1 ++ ts2) t = (t', ts2) /\ ast_of t' = backs_of n (ast_of t).
Proof.
  induction n as [| n IH]; intros ts1 ts2 t H Hf; cbn in H.
  - apply fmap_nil_inv in H as ->. exists t. split; [| done]. destruct ts2 as [| k ts2]; [done |]. cbn [app pbacks].
    destruct (Z.eqb_spec (ty k) (chr "&")) as [E |]; [| done]. cbn in Hf. rewrite E, !elem_of_cons, elem_of_nil in Hf. by destruct_or! Hf.
  - destruct ts1 as [| k ts1]; [done |]. injection H as Hk H. apply stok_sym in Hk. cbn [app pbacks]. rewrite Hk, Z.eqb_refl.
    destruct (IH ts1 ts2 (PBack t) H Hf) as (t' & E1 & E2). exists t'. split; [done |]. rewrite E2. cbn. apply backs_back.
Qed.

(** The tokens of a concatenation. *)
Lemma toks_app ts x y : toks ts = x ++ y -> exists t1 t2, ts = t1 ++ t2 /\ toks t1 = x /\ toks t2 = y.
Proof. intros H. apply fmap_app_inv in H as (t1 & t2 & -> & -> & ->). by exists t1, t2. Qed.
Lemma toks_cons ts x y : toks ts = x :: y -> exists k t, ts = k :: t /\ stok_of b k = x /\ toks t = y.
Proof. destruct ts as [| k t]; [done |]. intros [= <- <-]. by exists k, t. Qed.

Lemma expect_hit k c ts : stok_of b k = SSym c -> expect c (k :: ts) = Some ts.
Proof. intros H. cbn. by rewrite (stok_sym k c H), Z.eqb_refl. Qed.

(** A simple command does not start with a parenthesis. *)
Lemma items_start items ts1 ts2 : toks ts1 = items ≫= print_item -> follow after_command ts2 -> expect (chr "(") (ts1 ++ ts2) = None.
Proof.
  intros H Hf. destruct items as [| i items].
  - apply fmap_nil_inv in H as ->. by apply (follow_expect after_command).
  - assert (Hi : exists x y, (i :: items) ≫= print_item = x :: y /\ x <> SSym (chr "(")) by (destruct i as [w | [] f]; cbn; by do 2 eexists).
    destruct Hi as (x & y & E & Hx). rewrite E in H. apply toks_cons in H as (k & t & -> & Hk & _). cbn.
    destruct (Z.eqb_spec (ty k) (chr "(")) as [Ht |]; [| done]. by rewrite (sym_stok k _ Ht) in Hk.
Qed.

Lemma parse_complete :
  (forall l, few_line l -> forall ts1 ts2 n, toks ts1 = print_line l -> follow after_line ts2 -> (4 * length (ts1 ++ ts2) + 4 <= n)%nat ->
     exists t, pline n (ts1 ++ ts2) = PDone (t, ts2) /\ ast_of t = ast_line l) /\
  (forall p, few_pipe p -> forall ts1 ts2 n, toks ts1 = print_pipe p -> follow after_pipe ts2 -> (4 * length (ts1 ++ ts2) + 3 <= n)%nat ->
     exists t, ppipe n (ts1 ++ ts2) = PDone (t, ts2) /\ ast_of t = ast_pipe p) /\
  (forall c, few_command c -> forall ts1 ts2 n, toks ts1 = print_command c -> follow after_command ts2 -> (4 * length (ts1 ++ ts2) + 2 <= n)%nat ->
     exists t, pexec n (ts1 ++ ts2) = PDone (t, ts2) /\ ast_of t = ast_command c).
Proof.
  apply syntax_ind.
  - intros p IHp m Hw ts1 ts2 n H Hf Hn. destruct n as [| n]; [lia |]. cbn [print_line] in H. apply toks_app in H as (x1 & x2 & -> & H1 & H2).
    rewrite <- app_assoc in *. cbn [pline]. destruct (IHp Hw x1 (x2 ++ ts2) n H1) as (t1 & -> & E1); [| lia |].
    { destruct x2; [by apply (follow_weaken after_line); [| set_solver] |]. destruct m; [done |]. injection H2 as H2 _. apply stok_sym in H2. cbn. rewrite H2. set_solver. }
    cbn [rbind fst snd]. destruct (pbacks_complete m x2 ts2 t1 H2) as (t2 & -> & E2); [by apply (follow_weaken after_line); [| set_solver] |].
    rewrite (follow_expect after_line) by done. exists t2. split; [done |]. cbn. by rewrite E2, E1.
  - intros p IHp m l IHl [Hw1 Hw2] ts1 ts2 n H Hf Hn. destruct n as [| n]; [lia |]. cbn [print_line] in H. apply toks_app in H as (x1 & x2 & -> & H1 & H2).
    apply toks_app in H2 as (x3 & x4 & -> & H3 & H4). apply toks_cons in H4 as (k & x5 & -> & Hk & H5).
    rewrite <- !app_assoc in *. cbn [app] in *. cbn [pline]. destruct (IHp Hw1 x1 (x3 ++ k :: x5 ++ ts2) n H1) as (t1 & -> & E1); [| lia |].
    { destruct x3; [cbn; rewrite (stok_sym k _ Hk); set_solver |]. destruct m; [done |]. injection H3 as H3 _. apply stok_sym in H3. cbn. rewrite H3. set_solver. }
    cbn [rbind fst snd]. destruct (pbacks_complete m x3 (k :: x5 ++ ts2) t1 H3) as (t2 & -> & E2); [cbn; rewrite (stok_sym k _ Hk); set_solver |].
    rewrite (expect_hit k) by done. rewrite !length_app in Hn. cbn [length] in Hn. rewrite length_app in Hn.
    destruct (IHl Hw2 x5 ts2 n H5 Hf) as (t3 & -> & E3); [rewrite length_app; lia |]. eexists. split; [done |]. cbn. by rewrite E2, E1, E3.
  - intros c IHc Hw ts1 ts2 n H Hf Hn. destruct n as [| n]; [lia |]. cbn [ppipe].
    destruct (IHc Hw ts1 ts2 n H) as (t & -> & E); [by apply (follow_weaken after_pipe); [| set_solver] | lia |].
    cbn [rbind fst snd]. rewrite (follow_expect after_pipe) by done. by exists t.
  - intros c IHc p IHp [Hw1 Hw2] ts1 ts2 n H Hf Hn. destruct n as [| n]; [lia |]. cbn [print_pipe] in H. apply toks_app in H as (x1 & x2 & -> & H1 & H2).
    apply toks_cons in H2 as (k & x5 & -> & Hk & H5). rewrite <- app_assoc in *. cbn [app] in *. cbn [ppipe].
    destruct (IHc Hw1 x1 (k :: x5 ++ ts2) n H1) as (t1 & -> & E1); [cbn; rewrite (stok_sym k _ Hk); set_solver | lia |].
    cbn [rbind fst snd]. rewrite (expect_hit k) by done. rewrite !length_app in Hn. cbn [length] in Hn. rewrite length_app in Hn.
    destruct (IHp Hw2 x5 ts2 n H5 Hf) as (t3 & -> & E3); [rewrite length_app; lia |]. eexists. split; [done |]. cbn. by rewrite E1, E3.
  - intros items Hw ts1 ts2 n H Hf Hn. destruct n as [| n]; [lia |]. cbn [pexec]. rewrite (items_start items) by done.
    by apply (pargs_complete items ts1 ts2 (PExec []) [] [] []).
  - intros l IHl rs Hw ts1 ts2 n H Hf Hn. destruct n as [| [| n]]; [lia | lia |]. cbn [print_command] in H. apply toks_cons in H as (k & x & -> & Hk & H).
    apply toks_app in H as (x1 & x2 & -> & H1 & H2). apply toks_cons in H2 as (k' & x3 & -> & Hk' & H3). cbn [app] in *. rewrite <- app_assoc in *. cbn [app] in *.
    cbn [pexec pblock]. rewrite (expect_hit k) by done. cbn [length] in Hn. rewrite !length_app in Hn. cbn [length] in Hn.
    destruct (IHl Hw x1 (k' :: x3 ++ ts2) n H1) as (t1 & -> & E1); [cbn; rewrite (stok_sym k' _ Hk'); set_solver | rewrite !length_app; cbn [length]; rewrite length_app in *; lia |].
    cbn [rbind fst snd]. rewrite (expect_hit k') by done. destruct (predirs_complete rs x3 ts2 t1 H3 Hf) as (t2 & -> & E2).
    exists t2. split; [done |]. by rewrite E2, E1.
Qed.
End Grammar.
