(* ===== verification/ShRefine.v ===== *)
(** * user/sh.c: the parsing functions implement the parser of tokens

    Where [malloc] and [write] succeed, [parseline] and its companions return the
    address of the tree that [pline] gives, laid out in the heap behind what was
    there, or exit with a message when [pline] reports an error. *)

From S2P Require Import Prelude Riscv Mem StringLib Spinlock Kalloc Vm Proc State Uart Printf Fs File Exec Syscall Sysfile User Ulib Uprintf Sh ShLex ShParse.
From Stdlib Require Import Ascii.

(** [malloc] does not fail; see Umalloc.v for what it does. *)
Class Mallocs (OS : Os) : Prop := mallocs : forall n w, exists w', u_malloc n w = Ok true w'.

Section Refine.
Context {OS : Os} {WR : Writes OS} {MA : Mallocs OS}.
Context (b : list Z) (es : nat) (Hlen : (es < length b)%nat).
Context (Hend : rd b es = 0) (Hin : forall i, (i < es)%nat -> rd b i <> 0).

(** The parsing functions ask the system for memory only. *)
Inductive calls : world -> world -> Prop :=
| calls_none w : calls w w
| calls_malloc n w w1 w2 : u_malloc n w = Ok true w1 -> calls w1 w2 -> calls w w2.

(** The part of the line that is left over has been printed, or nothing has. *)
Definition leftovers (w w1 : world) : Prop :=
  w1 = w \/ exists s, fprintf 2 (str "leftovers: %s" ++ [NL]) [VStr s] w = Ok tt w1.

(** The messages of the parsing functions. *)
Definition complaints : list string :=
  ["missing file for redirection"; "syntax"; "too many args"; "parseblock"; "syntax - missing )"].

(** The process has printed one of the messages on the standard error and exited with
    status 1; it started in [w]. *)
Definition exits {A} (w : world) (o : outcome shell A) : Prop :=
  exists msg w0 w1 w2 b h, calls w w0 /\ leftovers w0 w1 /\ msg ∈ complaints /\
    fprintf 2 (str "%s" ++ [NL]) [VStr (str msg)] w1 = Ok tt w2 /\ o = Panic "exit" (mkShell (u_exited 1 w2) b h).

(** The outcome of a parsing function that starts in [w] is what the parser of tokens
    gives. The tree is built behind the structures [h]. *)
Definition agrees (w : world) (h : list node) (o : outcome shell (nat * nat)) (r : result (ptree * list token)) : Prop :=
  match r with
  | PDone (t, ts) =>
      exists w' s, calls w w' /\ o = Ok (ptr (length h) t, s) (mkShell w' b (h ++ layout (length h) t)) /\ lex b es s ts
  | PErr => exits w o
  | POut => True
  end.

Lemma calls_trans w1 w2 w3 : calls w1 w2 -> calls w2 w3 -> calls w1 w3.
Proof. induction 1; eauto using calls. Qed.

Lemma exits_after {A} w w1 (o : outcome shell A) : calls w w1 -> exits w1 o -> exits w o.
Proof. intros Hc (msg & w0 & w2 & w3 & b' & h & H & Hr). exists msg, w0, w2, w3, b', h. split; [by eapply calls_trans | done]. Qed.

Lemma agrees_after w w1 h o r : calls w w1 -> agrees w1 h o r -> agrees w h o r.
Proof.
  intros Hc. destruct r as [[t ts] | |]; cbn [agrees]; [| by apply exits_after | done].
  intros (w' & s & H & Hr). exists w', s. split; [by eapply calls_trans | done].
Qed.

Lemma gets_buf {A} (k : list Z -> M shell A) w b' h : bind (Prelude.gets sh_buf) k (mkShell w b' h) = k b' (mkShell w b' h).
Proof. reflexivity. Qed.

Lemma look_some {A B} (a : A) (k : A -> M shell B) st : bind (look (Some a)) k st = k a st.
Proof. reflexivity. Qed.

Lemma panic_run {A} msg w b' h : exists w1, fprintf 2 (str "%s" ++ [NL]) [VStr (str msg)] w = Ok tt w1 /\
  panic (A := A) msg (mkShell w b' h) = Panic "exit" (mkShell (u_exited 1 w1) b' h).
Proof.
  destruct (fprintf_string 2 (str "%s" ++ [NL]) 0 (str msg) w eq_refl) as [w1 E]. exists w1. split; [exact E |].
  unfold panic, os. erewrite bind_ok by (apply zoom_ok; exact E). done.
Qed.

Lemma panic_after {A} msg w w1 b' h : bool_decide (msg ∈ complaints) = true -> leftovers w w1 ->
  exits w (panic (A := A) msg (mkShell w1 b' h)).
Proof.
  intros Hm%bool_decide_eq_true Hlo. destruct (panic_run (A := A) msg w1 b' h) as (w2 & E & Ep).
  exists msg, w, w1, w2, b', h. split_and!; [constructor | done | done | exact E | exact Ep].
Qed.

Lemma panic_exits {A} msg w b' h : bool_decide (msg ∈ complaints) = true -> exits w (panic (A := A) msg (mkShell w b' h)).
Proof. intros Hm. apply panic_after; [done | by left]. Qed.

Lemma exits_bind {A B} w (m : M shell A) (f : A -> M shell B) st : exits w (m st) -> exits w (bind m f st).
Proof.
  intros (msg & w0 & w1 & w2 & b' & h & Hc & Hlo & Hm & Ef & E). exists msg, w0, w1, w2, b', h.
  split_and!; [done | done | done | exact Ef | by apply bind_panic].
Qed.

Lemma new_run n x w h : exists w', calls w w' /\ new n x (mkShell w b h) = Ok (length h) (mkShell w' b (h ++ [x])).
Proof.
  destruct (mallocs n w) as [w' E]. exists w'. split; [eapply calls_malloc; [exact E | constructor] |].
  unfold new, os. erewrite bind_ok by (apply zoom_ok; exact E). done.
Qed.

(** A structure on top of the tree that was built last. *)
Lemma new_on n x w h t t' : layout (length h) t' = layout (length h) t ++ [x] ->
  exists w', calls w w' /\ new n x (mkShell w b (h ++ layout (length h) t)) = Ok (ptr (length h) t') (mkShell w' b (h ++ layout (length h) t')).
Proof.
  intros E. destruct (new_run n x w (h ++ layout (length h) t)) as (w' & Hc & ->). exists w'. split; [done |]. rewrite E, app_assoc. f_equal.
  apply (f_equal length) in E. rewrite length_app, !layout_length in E. cbn in E. unfold ptr. rewrite length_app, layout_length. lia.
Qed.

Lemma has_cons x l c : x <> 0 -> has (x :: l) c = (c =? x) || has l c.
Proof.
  intros H. unfold has. cbn [strchr]. rewrite (proj2 (Z.eqb_neq _ _) H), (Z.eqb_sym x c).
  destruct (c =? x); [done |]. by destruct (strchr l c).
Qed.

Lemma next_redir k ts : next (str "<>") (k :: ts) = match redir_of (ty k) with Some _ => true | None => false end.
Proof.
  cbn [next]. unfold redir_of, tychar. change (str "<>") with [chr "<"; chr ">"]. rewrite !has_cons by done. cbn [has strchr].
  destruct (Z.eqb_spec (ty k) (chr "+")) as [-> |]; [done |].
  by destruct (ty k =? chr "<"), (ty k =? chr ">").
Qed.

Lemma next_one x ts : x <> 0 -> x <> chr "+" -> x <> chr ">" ->
  next [x] ts = match expect x ts with Some _ => true | None => false end.
Proof.
  intros H0 H1 H2. destruct ts as [| k ts]; [done |]. cbn [next expect]. unfold tychar. rewrite has_cons by done. cbn [has strchr].
  rewrite orb_false_r. destruct (Z.eqb_spec (ty k) (chr "+")) as [-> |]; [| by destruct (ty k =? x)].
  rewrite (proj2 (Z.eqb_neq (chr ">") x)), (proj2 (Z.eqb_neq (chr "+") x)) by congruence. done.
Qed.

Lemma sub_symbols set : forallb (fun c => has symbols c) set = true -> forall c, has set c = true -> has symbols c = true.
Proof.
  intros H c. unfold has at 1. induction set as [| x set IH]; cbn [strchr]; [done |]. cbn [forallb] in H. apply andb_prop in H as [Hx H].
  destruct (x =? 0); [done |]. destruct (Z.eqb_spec x c) as [<- |]; [done |]. destruct (strchr set c); [auto | done].
Qed.

Lemma parseredirs_loop_run n ts : forall w h t s, lex b es s ts -> (length ts < n)%nat ->
  agrees w h (parseredirs_loop n (ptr (length h) t) s es (mkShell w b (h ++ layout (length h) t))) (predirs ts t).
Proof.
  revert ts. induction n as [| n IH]; intros ts w h t s Hl Hn; [lia |]. cbn [parseredirs_loop]. rewrite gets_buf.
  destruct (peek_lex b es Hlen Hend Hin (str "<>") s ts (sub_symbols (str "<>") eq_refl) Hl) as [-> Hl1]. rewrite look_some. set (s1 := skips _ _ _ _) in *.
  destruct ts as [| k ts]; [by exists w, s1; eauto using calls |]. rewrite next_redir. cbn [predirs].
  destruct (redir_of (ty k)) as [[mode fd] |] eqn:Er; cbn [negb]; [| by exists w, s1; eauto using calls].
  destruct (lex_cons b es Hlen Hend Hin s1 k ts Hl1) as (_ & c & e & s' & Ek & _ & _ & -> & Hl2). rewrite look_some. cbn iota.
  destruct ts as [| [[c' q'] e'] ts].
  - destruct (gettoken_cases b es Hlen Hend Hin s' ltac:(pose proof (lex_le b es s' _ Hl2); lia)) as [[_ ->] | (Hlt & _)];
      [by apply panic_exits | inversion Hl2; subst; lia].
  - destruct (lex_cons b es Hlen Hend Hin s' _ ts Hl2) as (_ & c2 & e2 & s2 & [= -> -> ->] & _ & _ & -> & Hl3). rewrite look_some. cbn iota.
    destruct (c2 =? chr "a"); cbn [negb]; [| by apply panic_exits].
    destruct (new_on 40 _ w h t (PRedir t (skips (es - s') (has whitespace) b s') e2 mode fd) eq_refl) as (w1 & Hc1 & E).
    subst k. unfold redir_of in Er. cbn [ty fst] in Er.
    destruct (c =? chr "<"); [injection Er as <- <- | destruct (c =? chr ">"); [injection Er as <- <- | destruct (c =? chr "+"); [injection Er as <- <- | done]]];
      (unfold redircmd; erewrite bind_ok by exact E; eapply agrees_after; [exact Hc1 | apply IH; [done | cbn [length] in Hn; lia]]).
Qed.

Lemma parseredirs_run ts w h t s : lex b es s ts ->
  agrees w h (parseredirs (ptr (length h) t) s es (mkShell w b (h ++ layout (length h) t))) (predirs ts t).
Proof. intros H. apply parseredirs_loop_run; [done |]. pose proof (lex_le b es s ts H). lia. Qed.

Lemma parsebacks_run n ts : forall w h t s, lex b es s ts -> (length ts < n)%nat ->
  agrees w h (parsebacks n (ptr (length h) t) s es (mkShell w b (h ++ layout (length h) t))) (PDone (pbacks ts t)).
Proof.
  revert ts. induction n as [| n IH]; intros ts w h t s Hl Hn; [lia |]. cbn [parsebacks]. rewrite gets_buf. change (str "&") with [chr "&"].
  destruct (peek_lex b es Hlen Hend Hin [chr "&"] s ts (sub_symbols [chr "&"] eq_refl) Hl) as [-> Hl1]. rewrite look_some. set (s1 := skips _ _ _ _) in *.
  rewrite next_one by done. destruct ts as [| k ts]; [by exists w, s1; eauto using calls |]. cbn [pbacks expect].
  destruct (ty k =? chr "&"); cbn [negb]; [| by exists w, s1; eauto using calls].
  destruct (lex_cons b es Hlen Hend Hin s1 k ts Hl1) as (_ & c & e & s' & Ek & _ & _ & -> & Hl2). rewrite look_some. cbn iota.
  destruct (new_on 16 _ w h t (PBack t) eq_refl) as (w1 & Hc1 & E). unfold backcmd. erewrite bind_ok by exact E.
  eapply agrees_after; [exact Hc1 |]. apply IH; [done |]. cbn [length] in Hn. lia.
Qed.

(** *** Simple commands *)

Definition redir_free (ts : list token) : Prop := match ts with k :: _ => redir_of (ty k) = None | [] => True end.

Lemma predirs_post n ts t t' ts' : (length ts <= n)%nat -> predirs ts t = PDone (t', ts') ->
  exec_args t' = exec_args t /\ (length ts' <= length ts)%nat /\ redir_free ts' /\
  forall argc, pargs ts t argc = pargs ts' t' argc.
Proof.
  revert ts t. induction n as [| n IH]; intros ts t Hn; (destruct ts as [| k ts]; [by intros [= <- <-] |]); [cbn in Hn; lia |].
  cbn [predirs]. destruct (redir_of (ty k)) as [[mode fd] |] eqn:Er; [| by intros [= <- <-]].
  destruct ts as [| [[c q] e] ts]; [done |]. destruct (c =? chr "a") eqn:Ea; [| done]. intros H. cbn [length] in Hn.
  destruct (IH ts _ ltac:(lia) H) as (E1 & E2 & E3 & E4). cbn [exec_args] in E1. split; [done |]. split; [cbn [length]; lia |].
  split; [done |]. intros argc. rewrite <- E4. cbn [pargs].
  by rewrite (redir_not_stop _ _ Er), Er, Ea.
Qed.

Lemma predirs_err ts t argc : predirs ts t = PErr -> pargs ts t argc = PErr.
Proof.
  remember (length ts) as n eqn:En. revert ts t En. induction n as [n IH] using lt_wf_ind. intros ts t ->.
  destruct ts as [| k ts]; [done |]. cbn [predirs pargs]. destruct (redir_of (ty k)) as [[mode fd] |] eqn:Er; [| done].
  rewrite (redir_not_stop _ _ Er). destruct ts as [| [[c q] e] ts]; [done |]. destruct (c =? chr "a"); [| done].
  apply (IH (length ts)); [cbn [length]; lia | done].
Qed.

Lemma set_arg_run w h t args (q e : option nat) (t' : ptree) k : layout (length h) t = NExec (slots (args.*1)) (slots (args.*2)) :: k ->
  (length args < MAXARGS)%nat ->
  layout (length h) t' = NExec (<[length args := q]> (slots (args.*1))) (<[length args := e]> (slots (args.*2))) :: k ->
  set_arg (length h) (length args) q e (mkShell w b (h ++ layout (length h) t)) = Ok tt (mkShell w b (h ++ layout (length h) t')).
Proof.
  intros E Hl E'. unfold set_arg. erewrite bind_ok with (a := NExec (slots (args.*1)) (slots (args.*2))).
  2:{ unfold get_node. erewrite bind_ok by reflexivity. cbn [sh_heap]. by rewrite E, lookup_app_r, Nat.sub_diag by lia. }
  erewrite bind_ok by reflexivity. cbn [sh_heap]. rewrite bool_decide_eq_true_2 by (rewrite !length_slots; rewrite ?length_fmap; lia).
  unfold set_heap, modify. cbn [sh_world sh_buf]. rewrite insert_app_r_alt, Nat.sub_diag by lia. by rewrite E'.
Qed.

Lemma parseargs_run n ts : forall w h t s args, lex b es s ts -> (length ts < n)%nat -> redir_free ts ->
  exec_args t = Some args -> (length args < MAXARGS)%nat ->
  match pargs ts t (length args) with
  | PDone (t', ts') => exists w' s' args', calls w w' /\ exec_args t' = Some args' /\ (length args' < MAXARGS)%nat /\ lex b es s' ts' /\
      parseargs n (length h) (ptr (length h) t) (length args) s es (mkShell w b (h ++ layout (length h) t)) =
        Ok (length args', ptr (length h) t', s') (mkShell w' b (h ++ layout (length h) t'))
  | PErr => exits w (parseargs n (length h) (ptr (length h) t) (length args) s es (mkShell w b (h ++ layout (length h) t)))
  | POut => True
  end.
Proof.
  revert ts. induction n as [| n IH]; intros ts w h t s args Hl Hn Hf Ht Ha; [lia |]. cbn [parseargs]. rewrite gets_buf.
  destruct (peek_lex b es Hlen Hend Hin (str "|)&;") s ts (sub_symbols (str "|)&;") eq_refl) Hl) as [-> Hl1]. rewrite look_some. set (s1 := skips _ _ _ _) in *.
  destruct ts as [| k ts].
  - cbn [next pargs]. destruct (gettoken_cases b es Hlen Hend Hin s1 ltac:(pose proof (lex_le b es s1 _ Hl1); lia)) as [[_ ->] | (Hlt & _)];
      [| inversion Hl1; subst; lia].
    rewrite look_some. cbn iota. exists w, es, args. split; [constructor |]. split; [done |]. split; [done |]. split; [| done].
    constructor; [done | by rewrite Nat.sub_diag].
  - cbn [next pargs]. destruct (has (str "|)&;") (tychar (ty k))); [by exists w, s1, args; eauto using calls |]. cbn in Hf. rewrite Hf.
    destruct (lex_cons b es Hlen Hend Hin s1 k ts Hl1) as (_ & c & e & s' & Ek & _ & Hk & -> & Hl2). rewrite look_some. cbn iota. subst k. cbn [ty fst snd].
    rewrite (proj2 (Z.eqb_neq _ _) (tok_at_nonzero b es _ _ _ Hk)). set (q := skips _ _ b s1) in *. destruct (c =? chr "a"); cbn [negb]; [| by apply panic_exits].
    destruct (layout_exec (length h) t args Ht) as (k & E1 & E2). specialize (E2 (q, e)). rewrite !fmap_app in E2. cbn [fmap list_fmap fst snd] in E2.
    rewrite <- !slots_insert, !length_fmap in E2 by (rewrite length_fmap; lia).
    erewrite bind_ok by (eapply (set_arg_run w h t args); [exact E1 | done | exact E2]).
    destruct (bool_decide _) eqn:Em; [by apply panic_exits |]. apply bool_decide_eq_false in Em.
    pose proof (parseredirs_run ts w h (add_arg t (q, e)) s' Hl2) as Hr. unfold ptr in Hr at 1. rewrite size_add in Hr. fold (ptr (length h) t) in Hr.
    destruct (predirs ts (add_arg t (q, e))) as [[t1 ts1] | |] eqn:Ep; cbn [agrees] in Hr.
    + destruct Hr as (w1 & s2 & Hc1 & E & Hl3). erewrite bind_ok by exact E. cbn [fst snd].
      destruct (predirs_post _ _ _ _ _ (le_n _) Ep) as (X1 & X2 & X3 & X4). rewrite X4.
      specialize (IH ts1 w1 h t1 s2 (args ++ [(q, e)]) Hl3). rewrite length_app in IH. cbn [length] in IH, Hn. rewrite Nat.add_1_r in IH.
      specialize (IH ltac:(lia) X3 ltac:(by rewrite X1; apply exec_args_add) ltac:(lia)).
      destruct (pargs ts1 t1 _) as [[t2 ts2] | |]; [| by eapply exits_after | done].
      destruct IH as (w' & s3 & args' & Hc & IH). exists w', s3, args'. split; [by eapply calls_trans | exact IH].
    + rewrite (predirs_err _ _ _ Ep). by apply exits_bind.
    + by apply predirs_total in Ep.
Qed.

Lemma ptr_exec base args : ptr base (PExec args) = base.
Proof. unfold ptr. cbn. lia. Qed.

Lemma parsesimple_run ts w h s : lex b es s ts -> agrees w h (parsesimple s es (mkShell w b h)) (pargs ts (PExec []) 0).
Proof.
  intros Hl. unfold parsesimple.
  destruct (new_run 168 (NExec (replicate MAXARGS None) (replicate MAXARGS None)) w h) as (w1 & Hc1 & E). unfold execcmd. erewrite bind_ok by exact E.
  eapply agrees_after; [exact Hc1 |]. change [NExec _ _] with (layout (length h) (PExec [])). pose proof (parseredirs_run ts w1 h (PExec []) s Hl) as Hr. rewrite ptr_exec in Hr.
  destruct (predirs ts (PExec [])) as [[t1 ts1] | |] eqn:Ep; cbn [agrees] in Hr.
  - destruct Hr as (w2 & s2 & Hc2 & E2 & Hl2). eapply agrees_after; [exact Hc2 |]. erewrite bind_ok by exact E2. cbn [fst snd].
    destruct (predirs_post _ _ _ _ _ (le_n _) Ep) as (X1 & X2 & X3 & X4). rewrite X4.
    pose proof (parseargs_run (S (es - s2)) ts1 w2 h t1 s2 [] Hl2 ltac:(pose proof (lex_le b es s2 ts1 Hl2); lia) X3 X1 ltac:(cbn; unfold MAXARGS; lia)) as Ha.
    cbn [length] in Ha. destruct (pargs ts1 t1 0) as [[t2 ts2] | |]; cbn [agrees].
    + destruct Ha as (w3 & s3 & args & Hc3 & Ht & Hlen3 & Hl3 & E3). erewrite bind_ok by exact E3. cbn iota.
      destruct (layout_exec (length h) t2 args Ht) as (k & E4 & _).
      erewrite bind_ok; [by exists w3, s3 |]. apply (set_arg_run w3 h t2 args None None t2 k E4 Hlen3).
      rewrite <- (length_fmap fst args) at 1. rewrite slots_last by (rewrite length_fmap; lia).
      rewrite <- (length_fmap snd args). by rewrite slots_last by (rewrite length_fmap; lia).
    + by apply exits_bind.
    + done.
  - rewrite (predirs_err _ _ _ Ep). by apply exits_bind.
  - by apply predirs_total in Ep.
Qed.

(** *** Composed commands *)

(** Looking for one symbol, and taking it. *)
Lemma expect_run c s ts : c <> 0 -> c <> chr "+" -> c <> chr ">" -> has symbols c = true -> lex b es s ts ->
  exists s1, peek b s es [c] = Some (match expect c ts with Some _ => true | None => false end, s1) /\ lex b es s1 ts /\
    forall ts', expect c ts = Some ts' -> exists k q e s2, gettoken b s1 es = Some (k, q, e, s2) /\ lex b es s2 ts'.
Proof.
  intros H0 H1 H2 Hs Hl. assert (Hset : forall x, has [c] x = true -> has symbols x = true).
  { apply sub_symbols. cbn [forallb]. by rewrite Hs. }
  destruct (peek_lex b es Hlen Hend Hin [c] s ts Hset Hl) as [E Hl1]. eexists. split; [by rewrite E, next_one |]. split; [done |].
  intros ts' He. destruct ts as [| k ts]; [done |]. cbn [expect] in He. destruct (ty k =? c); [| done]. injection He as <-.
  destruct (lex_cons b es Hlen Hend Hin _ k ts Hl1) as (_ & c' & e & s' & _ & _ & _ & Eg & Hl2). by do 4 eexists.
Qed.

(** Another tree behind the first, and a structure over both. *)
Lemma both_on n x w h l r t : layout (length h) t = layout (length h) l ++ layout (length h + size l) r ++ [x] ->
  let h1 := h ++ layout (length h) l in
  exists w', calls w w' /\ new n x (mkShell w b (h1 ++ layout (length h1) r)) = Ok (ptr (length h) t) (mkShell w' b (h ++ layout (length h) t)).
Proof.
  intros E h1. destruct (new_run n x w (h1 ++ layout (length h1) r)) as (w' & Hc & ->). exists w'. split; [done |].
  assert (Ep : length (h1 ++ layout (length h1) r) = ptr (length h) t).
  { apply (f_equal length) in E. rewrite !length_app, !layout_length in E. cbn in E.
    unfold ptr, h1. rewrite !length_app, !layout_length. lia. }
  rewrite Ep. do 2 f_equal. unfold h1. by rewrite length_app, layout_length, E, <- !app_assoc.
Qed.

Lemma parse_refines n :
  (forall w h s ts, lex b es s ts -> agrees w h (parseline n s es (mkShell w b h)) (pline n ts)) /\
  (forall w h s ts, lex b es s ts -> agrees w h (parsepipe n s es (mkShell w b h)) (ppipe n ts)) /\
  (forall w h s ts, lex b es s ts -> agrees w h (parseexec n s es (mkShell w b h)) (pexec n ts)) /\
  (forall w h s ts, lex b es s ts -> agrees w h (parseblock n s es (mkShell w b h)) (pblock n ts)).
Proof.
  induction n as [| n (IHl & IHp & IHe & IHb)]; [done |]. repeat split; intros w h s ts Hl.
  - cbn [parseline pline]. specialize (IHp w h s ts Hl). destruct (ppipe n ts) as [[t ts1] | |]; cbn [agrees rbind fst snd] in *; [| by apply exits_bind | done].
    destruct IHp as (w1 & s1 & Hc1 & E & Hl1). eapply agrees_after; [exact Hc1 |]. erewrite bind_ok by exact E. cbn [fst snd].
    pose proof (parsebacks_run (S (es - s1)) ts1 w1 h t s1 Hl1 ltac:(pose proof (lex_le b es s1 ts1 Hl1); lia)) as Hb.
    destruct (pbacks ts1 t) as [t2 ts2]. cbn [agrees] in Hb. destruct Hb as (w2 & s2 & Hc2 & E2 & Hl2). eapply agrees_after; [exact Hc2 |]. erewrite bind_ok by exact E2. cbn [fst snd].
    rewrite gets_buf. destruct (expect_run (chr ";") s2 ts2 ltac:(done) ltac:(done) ltac:(done) eq_refl Hl2) as (s3 & Ep & Hl3 & Hg).
    change (str ";") with [chr ";"]. rewrite Ep, look_some. destruct (expect (chr ";") ts2) as [ts3 |]; cbn [negb agrees]; [| by exists w2, s3; eauto using calls].
    destruct (Hg ts3 eq_refl) as (k & q & e & s4 & -> & Hl4). rewrite look_some. cbn iota.
    set (h1 := h ++ layout (length h) t2). specialize (IHl w2 h1 s4 ts3 Hl4).
    destruct (pline n ts3) as [[t5 ts5] | |]; cbn [agrees rbind fst snd] in *; [| by apply exits_bind | done].
    destruct IHl as (w5 & s5 & Hc5 & E5 & Hl5). erewrite bind_ok by exact E5. cbn [fst snd]. unfold listcmd.
    assert (Eh : length h1 = (length h + size t2)%nat) by (unfold h1; by rewrite length_app, layout_length).
    destruct (both_on 24 (NList (ptr (length h) t2) (ptr (length h1) t5)) w5 h t2 t5 (PList t2 t5)) as (w6 & Hc6 & E6); [cbn [layout]; by rewrite Eh |].
    fold h1 in E6. erewrite bind_ok by exact E6. exists w6, s5. split; [by eapply calls_trans | done].
  - cbn [parsepipe ppipe]. specialize (IHe w h s ts Hl). destruct (pexec n ts) as [[t ts1] | |]; cbn [agrees rbind fst snd] in *; [| by apply exits_bind | done].
    destruct IHe as (w1 & s1 & Hc1 & E & Hl1). eapply agrees_after; [exact Hc1 |]. erewrite bind_ok by exact E. cbn [fst snd].
    rewrite gets_buf. destruct (expect_run (chr "|") s1 ts1 ltac:(done) ltac:(done) ltac:(done) eq_refl Hl1) as (s3 & Ep & Hl3 & Hg).
    change (str "|") with [chr "|"]. rewrite Ep, look_some. destruct (expect (chr "|") ts1) as [ts3 |]; cbn [negb agrees]; [| by exists w1, s3; eauto using calls].
    destruct (Hg ts3 eq_refl) as (k & q & e & s4 & -> & Hl4). rewrite look_some. cbn iota.
    set (h1 := h ++ layout (length h) t). specialize (IHp w1 h1 s4 ts3 Hl4).
    destruct (ppipe n ts3) as [[t5 ts5] | |]; cbn [agrees rbind fst snd] in *; [| by apply exits_bind | done].
    destruct IHp as (w5 & s5 & Hc5 & E5 & Hl5). erewrite bind_ok by exact E5. cbn [fst snd]. unfold pipecmd.
    assert (Eh : length h1 = (length h + size t)%nat) by (unfold h1; by rewrite length_app, layout_length).
    destruct (both_on 24 (NPipe (ptr (length h) t) (ptr (length h1) t5)) w5 h t t5 (PPipe t t5)) as (w6 & Hc6 & E6); [cbn [layout]; by rewrite Eh |].
    fold h1 in E6. erewrite bind_ok by exact E6. exists w6, s5. split; [by eapply calls_trans | done].
  - cbn [parseexec pexec]. rewrite gets_buf.
    destruct (expect_run (chr "(") s ts ltac:(done) ltac:(done) ltac:(done) eq_refl Hl) as (s3 & Ep & Hl3 & _).
    change (str "(") with [chr "("]. rewrite Ep, look_some. destruct (expect (chr "(") ts); [by apply IHb | by apply parsesimple_run].
  - cbn [parseblock pblock]. rewrite gets_buf.
    destruct (expect_run (chr "(") s ts ltac:(done) ltac:(done) ltac:(done) eq_refl Hl) as (s3 & Ep & Hl3 & Hg).
    change (str "(") with [chr "("]. rewrite Ep, look_some. destruct (expect (chr "(") ts) as [ts3 |]; cbn [negb]; [| by apply panic_exits].
    destruct (Hg ts3 eq_refl) as (k & q & e & s4 & -> & Hl4). rewrite look_some. cbn iota. specialize (IHl w h s4 ts3 Hl4).
    destruct (pline n ts3) as [[t5 ts5] | |]; cbn [agrees rbind fst snd] in *; [| by apply exits_bind | done].
    destruct IHl as (w5 & s5 & Hc5 & E5 & Hl5). eapply agrees_after; [exact Hc5 |]. erewrite bind_ok by exact E5. cbn [fst snd]. rewrite gets_buf.
    destruct (expect_run (chr ")") s5 ts5 ltac:(done) ltac:(done) ltac:(done) eq_refl Hl5) as (s6 & Ep6 & Hl6 & Hg6).
    change (str ")") with [chr ")"]. rewrite Ep6, look_some. destruct (expect (chr ")") ts5) as [ts7 |]; cbn [negb]; [| by apply panic_exits].
    destruct (Hg6 ts7 eq_refl) as (k7 & q7 & e7 & s7 & -> & Hl7). rewrite look_some. cbn iota. by apply parseredirs_run.
Qed.
End Refine.
