(* ===== verification/ShThms.v ===== *)
(** * user/sh.c: the shell understands its command language

    [sh_parses]: the parser accepts exactly the sentences of the language, builds
    their trees in the heap with the strings terminated in the buffer, and exits with
    a message on anything else. *)

From S2P Require Import Prelude Riscv Mem StringLib Spinlock Kalloc Vm Proc State Uart Printf Fs File Exec Syscall Sysfile User Ulib Uprintf Sh ShLex ShParse ShGrammar ShRefine.
From Stdlib Require Import Ascii.

(** ** Terminating the strings *)

Definition nuls (b : list Z) (es : list nat) : list Z := foldl (fun b e => <[e := 0]> b) b es.
Definition ends (t : ptree) : list nat := (spans t).*2.

Lemma length_nuls es b : length (nuls b es) = length b.
Proof. revert b. induction es as [| e es IH]; intros b; cbn; [done |]. rewrite IH. apply length_insert. Qed.

Lemma nuls_app b es es' : nuls b (es ++ es') = nuls (nuls b es) es'.
Proof. apply foldl_app. Qed.

Lemma lookup_nuls es b i : (i < length b)%nat -> nuls b es !! i = if decide (i ∈ es) then Some 0 else b !! i.
Proof.
  revert b. induction es as [| e es IH]; intros b Hi; cbn [nuls foldl]; [by rewrite decide_False by apply not_elem_of_nil |].
  fold (nuls (<[e := 0]> b) es). rewrite IH by (by rewrite length_insert). destruct (decide (i ∈ es)); [by rewrite decide_True by (by right) |].
  destruct (decide (i = e)) as [-> | Hne]; [by rewrite list_lookup_insert_eq, decide_True by (done || by left) |].
  rewrite list_lookup_insert_ne by done. rewrite decide_False; [done |]. by rewrite elem_of_cons; intros [|].
Qed.

Section Nul.
Context {OS : Os}.

Lemma nul_args_run l1 l2 m w b h : length l1 = length l2 -> Forall (fun e => (e < length b)%nat) l2 ->
  nul_args ((Some <$> l1) ++ replicate m None) ((Some <$> l2) ++ replicate m None) (mkShell w b h) = Ok tt (mkShell w (nuls b l2) h).
Proof.
  revert l2 b. induction l1 as [| x l1 IH]; intros [| e l2] b Hl Hf; try done; [by destruct m |].
  apply Forall_cons in Hf as [He Hf]. cbn [fmap list_fmap app nul_args]. unfold set_nul. rewrite (bind_ok _ _ _ tt (mkShell w (<[e := 0]> b) h)).
  - injection Hl as Hl. apply (IH l2 (<[e := 0]> b) Hl). by rewrite length_insert.
  - rewrite gets_buf. by rewrite bool_decide_eq_true_2.
Qed.

(** The structure at the end of a tree's layout. *)
Lemma get_node_at h1 l x h2 w b : get_node (length h1 + length l) (mkShell w b (h1 ++ (l ++ [x]) ++ h2)) = Ok x (mkShell w b (h1 ++ (l ++ [x]) ++ h2)).
Proof.
  unfold get_node. erewrite bind_ok by reflexivity. cbn [sh_heap]. rewrite lookup_app_r by lia. rewrite <- app_assoc, lookup_app_r by lia.
  by replace (length h1 + length l - length h1 - length l)%nat with 0%nat by lia.
Qed.

(** The same, with the address as the tree's pointer. *)
Lemma get_node_ptr base t l x h1 h2 w b : base = length h1 -> layout base t = l ++ [x] ->
  get_node (ptr base t) (mkShell w b (h1 ++ layout base t ++ h2)) = Ok x (mkShell w b (h1 ++ layout base t ++ h2)).
Proof.
  intros -> E. rewrite E. replace (ptr (length h1) t) with (length h1 + length l)%nat; [apply get_node_at |].
  apply (f_equal length) in E. rewrite layout_length, length_app in E. cbn in E. unfold ptr. lia.
Qed.

Lemma nulterminate_run t : forall n base h1 h2 w b, base = length h1 -> (ptr base t < n)%nat -> Forall (fun e => (e < length b)%nat) (ends t) ->
  nulterminate n (ptr base t) (mkShell w b (h1 ++ layout base t ++ h2)) = Ok tt (mkShell w (nuls b (ends t)) (h1 ++ layout base t ++ h2)).
Proof.
  assert (Hb : forall b es e, (e < length b)%nat -> (e < length (nuls b es))%nat) by (intros; by rewrite length_nuls).
  assert (Hsub : forall n base base' l t, (base' + size l <= base + size t - 1)%nat -> (ptr base t < S n)%nat -> (ptr base' l < n)%nat).
  { unfold ptr. intros n base base' l t'. pose proof (size_pos l). lia. }
  induction t as [args | c IH q e mode fd | l IHl r IHr | l IHl r IHr | c IH]; intros n base h1 h2 w b Hbase Hn Hf;
    (destruct n as [| n]; [lia |]); cbn [nulterminate].
  - erewrite bind_ok by (eapply (get_node_ptr base (PExec args) []); [done | reflexivity]). unfold slots. rewrite !length_fmap.
    apply (nul_args_run (args.*1) (args.*2)); [by rewrite !length_fmap | exact Hf].
  - erewrite bind_ok by (eapply get_node_ptr; [done | reflexivity]). unfold ends in Hf |- *. cbn [spans] in Hf |- *. rewrite fmap_app in Hf |- *.
    apply Forall_app in Hf as [Hf1 [He _]%Forall_cons]. cbn [layout]. rewrite <- !app_assoc.
    erewrite bind_ok by (apply IH; [done | eapply Hsub; [| exact Hn]; cbn; lia | done]). unfold set_nul. rewrite gets_buf.
    rewrite bool_decide_eq_true_2 by (by apply Hb). by rewrite nuls_app.
  - erewrite bind_ok by (eapply get_node_ptr; [done | cbn [layout]; by rewrite app_assoc]). unfold ends in Hf |- *. cbn [spans] in Hf |- *. rewrite fmap_app in Hf |- *.
    apply Forall_app in Hf as [Hf1 Hf2]. cbn [layout]. rewrite <- !app_assoc.
    erewrite bind_ok by (apply IHl; [done | eapply Hsub; [| exact Hn]; cbn; lia | done]). rewrite (app_assoc h1), nuls_app.
    apply IHr; [by rewrite length_app, layout_length, Hbase | eapply Hsub; [| exact Hn]; cbn; lia |]. eapply Forall_impl; [exact Hf2 | intros; by apply Hb].
  - erewrite bind_ok by (eapply get_node_ptr; [done | cbn [layout]; by rewrite app_assoc]). unfold ends in Hf |- *. cbn [spans] in Hf |- *. rewrite fmap_app in Hf |- *.
    apply Forall_app in Hf as [Hf1 Hf2]. cbn [layout]. rewrite <- !app_assoc.
    erewrite bind_ok by (apply IHl; [done | eapply Hsub; [| exact Hn]; cbn; lia | done]). rewrite (app_assoc h1), nuls_app.
    apply IHr; [by rewrite length_app, layout_length, Hbase | eapply Hsub; [| exact Hn]; cbn; lia |]. eapply Forall_impl; [exact Hf2 | intros; by apply Hb].
  - erewrite bind_ok by (eapply get_node_ptr; [done | reflexivity]). cbn [layout]. rewrite <- !app_assoc.
    apply IH; [done | eapply Hsub; [| exact Hn]; cbn; lia | done].
Qed.
End Nul.

Lemma cstr_stop w l : Forall (fun c => c <> 0) w -> cstr (w ++ 0 :: l) = w.
Proof. induction 1 as [| c w Hc Hw IH]; [done |]. cbn [app cstr]. by rewrite (proj2 (Z.eqb_neq _ _) Hc), IH. Qed.

(** Words stay as they are: only characters that are not in words are overwritten. *)
Lemma cstring_nuls b es l q e : (forall q e, (q, e) ∈ l -> is_word b es q e) -> (es < length b)%nat -> (q, e) ∈ l ->
  cstring (nuls b (l.*2)) q = span b q e.
Proof.
  intros Hw Hes Hin. pose proof (Hw q e Hin) as ([Hq He] & Hf & _).
  assert (Hl : length (span b q e) = (e - q)%nat) by (unfold span; rewrite length_take, length_drop; lia).
  assert (E : drop q (nuls b l.*2) = span b q e ++ 0 :: drop (S e) (nuls b l.*2)).
  { apply list_eq. intros i. rewrite lookup_drop. destruct (decide (i < e - q)%nat).
    - rewrite lookup_app_l by lia. rewrite lookup_nuls by lia. unfold span. rewrite lookup_take_lt, lookup_drop by lia.
      rewrite decide_False; [done |]. intros [[q' e'] [Ei Hin']]%list_elem_of_fmap. cbn in Ei. subst e'.
      destruct (Hw _ _ Hin') as (_ & _ & Hn). rewrite Forall_lookup in Hf. destruct (b !! (q + i)%nat) as [c |] eqn:Ec; [| apply lookup_ge_None in Ec; lia].
      assert (Er : rd b (q + i) = c) by (unfold rd; by rewrite Ec). rewrite Er, (Hf i c) in Hn; [done |]. unfold span. by rewrite lookup_take_lt, lookup_drop by lia.
    - rewrite lookup_app_r by lia. rewrite Hl. destruct (decide (i = e - q)%nat) as [-> |].
      + rewrite Nat.sub_diag. replace (q + (e - q))%nat with e by lia. rewrite lookup_nuls by lia. rewrite decide_True; [done |].
        apply list_elem_of_fmap. by exists (q, e).
      + rewrite lookup_cons_ne_0, lookup_drop by lia. f_equal. lia. }
  unfold cstring. rewrite E. apply cstr_stop. eapply Forall_impl; [exact Hf |]. intros c Hc. by apply wordc_facts in Hc as (_ & _ & _ & ?).
Qed.

(** ** The command that a pointer leads to *)

(** The tree of the structures, with the C strings that [argv] and [file] point to. *)
Inductive reads (b : list Z) (h : list node) : nat -> ast -> Prop :=
| reads_exec p argv eargv : h !! p = Some (NExec argv eargv) -> reads b h p (AExec (arg_strings b argv))
| reads_redir p c q e mode fd a : h !! p = Some (NRedir c q e mode fd) -> reads b h c a -> reads b h p (ARedir a (cstring b q) mode fd)
| reads_pipe p l r a a' : h !! p = Some (NPipe l r) -> reads b h l a -> reads b h r a' -> reads b h p (APipe a a')
| reads_list p l r a a' : h !! p = Some (NList l r) -> reads b h l a -> reads b h r a' -> reads b h p (AList a a')
| reads_back p c a : h !! p = Some (NBack c) -> reads b h c a -> reads b h p (ABack a).

Lemma arg_strings_slots b l m : arg_strings b ((Some <$> l) ++ replicate m None) = cstring b <$> l.
Proof. induction l as [| q l IH]; [by destruct m |]. cbn. by f_equal. Qed.

Lemma lookup_ptr base t l x h1 h2 : base = length h1 -> layout base t = l ++ [x] -> (h1 ++ layout base t ++ h2) !! ptr base t = Some x.
Proof.
  intros -> E. rewrite E. replace (ptr (length h1) t) with (length h1 + length l)%nat.
  - rewrite lookup_app_r, <- app_assoc, lookup_app_r by lia. by replace (length h1 + length l - length h1 - length l)%nat with 0%nat by lia.
  - apply (f_equal length) in E. rewrite layout_length, length_app in E. cbn in E. unfold ptr. lia.
Qed.

(** The strings of the tree are where its pointers point. *)
Definition strings_at (b b' : list Z) (t : ptree) : Prop := forall q e, (q, e) ∈ spans t -> cstring b' q = span b q e.

Lemma exec_strings b b' args : strings_at b b' (PExec args) -> arg_strings b' (slots (args.*1)) = (fun a => span b a.1 a.2) <$> args.
Proof.
  intros H. unfold slots. rewrite arg_strings_slots, <- list_fmap_compose. apply list_fmap_ext. intros i [q e] Hi. cbn. apply H. by eapply list_elem_of_lookup_2.
Qed.

Lemma reads_layout b b' t : forall base h1 h2, base = length h1 -> strings_at b b' t ->
  reads b' (h1 ++ layout base t ++ h2) (ptr base t) (ast_of b t).
Proof.
  induction t as [args | c IH q e mode fd | l IHl r IHr | l IHl r IHr | c IH]; intros base h1 h2 Hb Hs; cbn [ast_of].
  - rewrite <- (exec_strings b b' args Hs). eapply reads_exec. by apply (lookup_ptr base (PExec args) []).
  - rewrite <- (Hs q e) by (cbn; rewrite elem_of_app, list_elem_of_singleton; by right).
    eapply reads_redir; [by eapply lookup_ptr |]. cbn [layout]. rewrite <- app_assoc. apply IH; [done |]. intros q' e' Hq. apply Hs. cbn. rewrite elem_of_app. by left.
  - eapply reads_pipe; [eapply lookup_ptr; [done | cbn [layout]; by rewrite app_assoc] | |]; cbn [layout]; rewrite <- !app_assoc.
    + apply IHl; [done |]. intros q' e' Hq. apply Hs. cbn. rewrite elem_of_app. by left.
    + rewrite (app_assoc h1). apply IHr; [by rewrite length_app, layout_length, Hb |]. intros q' e' Hq. apply Hs. cbn. rewrite elem_of_app. by right.
  - eapply reads_list; [eapply lookup_ptr; [done | cbn [layout]; by rewrite app_assoc] | |]; cbn [layout]; rewrite <- !app_assoc.
    + apply IHl; [done |]. intros q' e' Hq. apply Hs. cbn. rewrite elem_of_app. by left.
    + rewrite (app_assoc h1). apply IHr; [by rewrite length_app, layout_length, Hb |]. intros q' e' Hq. apply Hs. cbn. rewrite elem_of_app. by right.
  - eapply reads_back; [by eapply lookup_ptr |]. cbn [layout]. rewrite <- app_assoc. by apply IH.
Qed.

(** ** Parsing a line *)

Lemma cstr_split buf : 0 ∈ buf -> exists r, buf = cstr buf ++ 0 :: r.
Proof.
  induction buf as [| c buf IH]; [by rewrite elem_of_nil |]. cbn [cstr]. destruct (Z.eqb_spec c 0) as [-> |]; [by exists buf |].
  rewrite elem_of_cons. intros [? | H]; [congruence |]. destruct (IH H) as [r E]. exists r. cbn. by rewrite <- E.
Qed.

Lemma cstr_nonzero buf : Forall (fun c => c <> 0) (cstr buf).
Proof. induction buf as [| c buf IH]; cbn; [constructor |]. destruct (Z.eqb_spec c 0); by constructor. Qed.

(** The end of the string. *)
Lemma line_end buf : 0 ∈ buf -> let es := length (cstr buf) in
  rd buf es = 0 /\ (es < length buf)%nat /\ (forall i, (i < es)%nat -> rd buf i <> 0) /\ rest buf es 0 = cstr buf.
Proof.
  intros H. destruct (cstr_split buf H) as [r E]. pose proof (cstr_nonzero buf) as Hz. revert E Hz. generalize (cstr buf) as c. clear H. intros c -> Hz es.
  unfold rd, rest, es. rewrite Nat.sub_0_r, drop_0. split; [| split; [| split]].
  - by rewrite lookup_app_r, Nat.sub_diag by lia.
  - rewrite length_app. cbn. lia.
  - intros i Hi. rewrite lookup_app_l by lia. rewrite Forall_lookup in Hz.
    destruct (c !! i) as [x |] eqn:Ec; [by apply (Hz i x) | apply lookup_ge_None in Ec; lia].
  - by rewrite take_app_length.
Qed.

Section Parse.
Context {OS : Os} {WR : Writes OS} {MA : Mallocs OS}.
Context (buf : list Z) (Hnul : 0 ∈ buf).

(** The outcome in terms of the parser of tokens. *)
Lemma parsecmd_run w h : let es := length (cstr buf) in exists ts, lex buf es 0 ts /\
  match pline (4 * es + 4) ts with
  | PDone (t, []) => exists w', calls w w' /\ parsecmd (mkShell w buf h) =
      Ok (ptr (length h) t) (mkShell w' (nuls buf (ends t)) (h ++ layout (length h) t)) /\ strings_at buf (nuls buf (ends t)) t
  | PDone _ | PErr => exits w (parsecmd (mkShell w buf h))
  | POut => False
  end.
Proof.
  intros es. destruct (line_end buf Hnul) as (Hend & Hlen & Hin & _). fold es in Hend, Hlen, Hin.
  destruct (lex_exists buf es Hlen Hend Hin 0 ltac:(lia)) as [ts Hl]. exists ts. split; [done |].
  unfold parsecmd. rewrite !gets_buf. rewrite strlen_cstr, Nat2Z.id. fold es.
  pose proof (proj1 (parse_refines buf es Hlen Hend Hin (4 * es + 4)) w h 0%nat ts Hl) as Hr.
  assert (Hn : (4 * length ts + 4 <= 4 * es + 4)%nat) by (pose proof (lex_le buf es 0 ts Hl); lia).
  pose proof (proj1 (parse_total buf (4 * es + 4)) ts Hn) as Ht.
  destruct (pline (4 * es + 4) ts) as [[t ts'] | |] eqn:Ep; cbn [agrees] in Hr; [| by apply exits_bind | done].
  destruct Hr as (w1 & s1 & Hc1 & E & Hl1). rewrite !(bind_ok _ _ _ _ _ E). cbn [fst snd]. rewrite !gets_buf.
  rewrite (peek_some buf es Hlen [] s1), !look_some by (by inversion Hl1). set (s2 := skips _ _ _ _). destruct ts' as [| k ts'].
  - assert (s2 = es) as -> by (by inversion Hl1). rewrite Nat.eqb_refl. cbn [negb].
    destruct (proj1 (parse_sound buf (4 * es + 4)) _ _ _ Ep) as (l & x1 & Ex & _ & _ & _ & Hf). rewrite app_nil_r in Ex. subst x1.
    assert (Hw : forall q e, (q, e) ∈ spans t -> is_word buf es q e) by (intros q e Hq; by apply (lex_word buf es Hlen Hend Hin 0 ts), Hf).
    exists w1. split; [done |]. split; [| intros q e Hq; by apply (cstring_nuls buf es)].
    rewrite (bind_ok _ _ _ tt (mkShell w1 (nuls buf (ends t)) (h ++ layout (length h) t))); [done |].
    rewrite <- (app_nil_r (layout _ _)). apply nulterminate_run; [done | lia |].
    unfold ends. rewrite Forall_fmap, Forall_forall. intros [q e] Hq. destruct (Hw q e Hq) as [[_ He] _]. cbn. lia.
  - destruct (lex_cons buf es Hlen Hend Hin s1 k ts' Hl1) as (Hlt & _). fold s2 in Hlt. destruct (Nat.eqb_spec s2 es); [lia |]. cbn [negb].
    destruct (fprintf_string 2 (str "leftovers: %s" ++ [NL]) 11 (cstring buf s2) w1 eq_refl) as [w2 E2].
    rewrite (bind_ok _ _ _ tt (mkShell w2 buf (h ++ layout (length h) t))) by (apply (zoom_ok Lworld); exact E2).
    eapply exits_after; [exact Hc1 | apply panic_after; [done | right; by eexists]].
Qed.
End Parse.

(** The text of the buffer is a sentence with fewer than MAXARGS words in each command. *)
Definition sentence (buf : list Z) (l : line) : Prop := lexes (cstr buf) (print_line l) /\ few_line l.

(** What the parser of tokens does with a sentence. *)
Lemma sentence_parse buf ts l : 0 ∈ buf -> let es := length (cstr buf) in lex buf es 0 ts -> sentence buf l ->
  exists t, pline (4 * es + 4) ts = PDone (t, []) /\ ast_of buf t = ast_line l.
Proof.
  intros Hnul es Hl [Hx Hf]. destruct (line_end buf Hnul) as (Hend & Hlen & Hin & Hr). fold es in Hend, Hlen, Hin, Hr.
  pose proof (lex_lexes buf es Hlen Hend Hin 0 ts Hl) as Hts. rewrite Hr in Hts. pose proof (lexes_fun _ _ _ Hts Hx) as E.
  pose proof (lex_le buf es 0 ts Hl). destruct (proj1 (parse_complete buf) l Hf ts [] (4 * es + 4)%nat E I) as (t & E1 & E2); [rewrite app_nil_r; lia |].
  rewrite app_nil_r in E1. by exists t.
Qed.


#[export] Instance FileIo_mallocs : Mallocs FileIo.
Proof. intros n w. by eexists. Qed.

(** A check that a text has given tokens. *)
Fixpoint lex_check (n : nat) (t : list Z) (ts : list stok) : bool :=
  match n with
  | O => false
  | S n =>
      match t, ts with
      | [], [] => true
      | c :: t', _ =>
          (isspace c && lex_check n t' ts) ||
          match ts with
          | SSym d :: ts' => (c =? d) && (single c || ((c =? chr ">") && negb (default 0 (head t') =? chr ">"))) && lex_check n t' ts'
          | SApp :: ts' => match t' with c' :: t' => (c =? chr ">") && (c' =? chr ">") && lex_check n t' ts' | [] => false end
          | SWord w :: ts' =>
              let k := length w in
              negb (Nat.eqb k 0) && forallb wordc w && bool_decide (take k t = w) && negb (wordc (default 0 (head (drop k t)))) && lex_check n (drop k t) ts'
          | [] => false
          end
      | _, _ => false
      end
  end.

Lemma head_starts P l : P (default 0 (head l)) = false -> starts_not P l.
Proof. by destruct l. Qed.

Lemma lexes_check n : forall t ts, lex_check n t ts = true -> lexes t ts.
Proof.
  induction n as [| n IH]; intros t ts; [done |]. cbn [lex_check]. destruct t as [| c t]; [destruct ts; [constructor | done] |].
  intros [[Hc H]%andb_prop | H]%orb_prop; [by constructor; [| apply IH] |]. destruct ts as [| [w | d |] ts]; [done | | |].
  - apply andb_prop in H as [[[[Hk%negb_true_iff Hw]%andb_prop Ht%bool_decide_eq_true]%andb_prop Hn%negb_true_iff]%andb_prop H].
    rewrite <- (take_drop (length w) (c :: t)), Ht. apply lexes_word; [by intros -> | | by apply head_starts | by apply IH].
    rewrite forallb_forall in Hw. apply Forall_forall. intros x Hx. apply Hw. by apply list_elem_of_In.
  - apply andb_prop in H as [[->%Z.eqb_eq Hs]%andb_prop H]. apply orb_prop in Hs as [Hs | [->%Z.eqb_eq Hg%negb_true_iff]%andb_prop].
    + by apply lexes_sym; [| apply IH].
    + apply lexes_gt; [by apply (head_starts (fun c => c =? chr ">")) | by apply IH].
  - destruct t as [| c' t]; [done |]. apply andb_prop in H as [[->%Z.eqb_eq ->%Z.eqb_eq]%andb_prop H]. apply lexes_app. by apply IH.
Qed.

Definition sample_line : list Z := str "(echo hi;cat <in)|wc >>out &" ++ [NL; 0; 0].

Definition sample_cmd : line :=
  LLast (PiMore (CBlock (LSeq (PiLast (CSimple [IWord (str "echo"); IWord (str "hi")])) 0
                          (LLast (PiLast (CSimple [IWord (str "cat"); IRedir RIn (str "in")])) 0)) [])
          (PiLast (CSimple [IWord (str "wc"); IRedir RApp (str "out")]))) 1.

Lemma sample_nul : 0 ∈ sample_line.
Proof. apply list_elem_of_In. vm_compute. tauto. Qed.

Lemma sample_sentence : sentence sample_line sample_cmd.
Proof. split; [apply (lexes_check 100); vm_compute; reflexivity | cbn; unfold MAXARGS; lia]. Qed.


(** A line that is not a sentence: what the shell has written. *)
Example sample_bad_line :
  match @parsecmd FileIo (@mkShell FileIo (mkIow [] [] []) (str "a ) b" ++ [NL; 0]) []) with
  | Panic msg st => msg = "exit"%string /\ w_out (sh_world st) = str "leftovers: ) b" ++ [NL; NL] ++ str "syntax" ++ [NL]
  | _ => False
  end.
Proof. vm_compute. done. Qed.
