(* ===== verification/ShRun.v ===== *)
(** * user/sh.c: what runs when a line is run

    An environment with file descriptors: [open], [dup] and [pipe] take the lowest
    free descriptors, as [fdalloc] of kernel/sysfile.c does. The results of [fork] are
    given, so that a run can follow any process of the tree that the shell makes.
    [sh_runs]: every process gets the arguments and the descriptors that the line
    says. *)

From S2P Require Import Prelude Riscv Mem StringLib Spinlock Kalloc Vm Proc State Uart Printf Fs File Exec Syscall Sysfile User Ulib Uprintf Sh ShLex ShParse ShGrammar ShRefine ShThms.
From Stdlib Require Import Ascii.

(** What a descriptor refers to: something inherited, a file opened by the shell, or
    an end of one of its pipes. *)
Inductive fobj := OInherited (n : nat) | OFile (path : list Z) (mode : Z) | OPipeR (n : nat) | OPipeW (n : nat).
(** How a process of the shell ends: with its program and descriptors, or exiting. *)
Inductive verdict := Execed (argv : list (list Z)) (fds : list (option fobj)) | Exited (status : Z).

Record penv := mkPenv { pe_fds : list (option fobj); pe_forks : list Z; pe_pipes : nat; pe_end : option verdict }.

Fixpoint first_free (fds : list (option fobj)) : option nat :=
  match fds with [] => None | None :: _ => Some O | Some _ :: fds => S <$> first_free fds end.

Definition fd_open (fds : list (option fobj)) (fd : Z) : option fobj := if fd <? 0 then None else default None (fds !! Z.to_nat fd).

Section Env.
Context (can_open : list Z -> Z -> bool) (can_exec : list Z -> bool).

Definition e_fds (f : list (option fobj)) (w : penv) : penv := mkPenv f (pe_forks w) (pe_pipes w) (pe_end w).

Definition e_alloc (o : fobj) : M penv Z := fun w =>
  match first_free (pe_fds w) with
  | Some fd => Ok (Z.of_nat fd) (e_fds (<[fd := Some o]> (pe_fds w)) w)
  | None => Ok (-1) w
  end.
Definition e_close (fd : Z) : M penv Z := fun w =>
  match fd_open (pe_fds w) fd with
  | Some _ => Ok 0 (e_fds (<[Z.to_nat fd := None]> (pe_fds w)) w)
  | None => Ok (-1) w
  end.
Definition e_dup (fd : Z) : M penv Z := fun w =>
  match fd_open (pe_fds w) fd with Some o => e_alloc o w | None => Ok (-1) w end.
Definition e_open (path : list Z) (mode : Z) : M penv Z := if can_open path mode then e_alloc (OFile path mode) else ret (-1).

(** Two free descriptors, or failure with nothing changed. *)
Definition e_pipe : M penv (Z * (Z * Z)) := fun w =>
  let n := pe_pipes w in
  match first_free (pe_fds w) with
  | Some p0 =>
      let f := <[p0 := Some (OPipeR n)]> (pe_fds w) in
      match first_free f with
      | Some p1 => Ok (0, (Z.of_nat p0, Z.of_nat p1)) (mkPenv (<[p1 := Some (OPipeW n)]> f) (pe_forks w) (S n) (pe_end w))
      | None => Ok (-1, (0, 0)) w
      end
  | None => Ok (-1, (0, 0)) w
  end.
Definition e_fork : M penv Z := fun w =>
  match pe_forks w with
  | [] => Ok (-1) w
  | pid :: l => Ok pid (mkPenv (pe_fds w) l (pe_pipes w) (pe_end w))
  end.
Definition e_end (v : verdict) (w : penv) : penv := mkPenv (pe_fds w) (pe_forks w) (pe_pipes w) (Some v).
Definition e_exec (path : list Z) (argv : list (list Z)) : M penv Z := fun w =>
  if can_exec path then Panic "exec" (e_end (Execed argv (pe_fds w)) w) else Ok (-1) w.

Definition ProcEnv : Os := {|
  world := penv; u_read _ _ := ret (0, []); u_write _ bs := ret (Z.of_nat (length bs));
  u_open := e_open; u_close := e_close; u_fork := e_fork; u_wait := ret (-1); u_pipe := e_pipe; u_dup := e_dup;
  u_exec := e_exec; u_chdir _ := ret (-1); u_mknod _ _ _ := ret (-1); u_unlink _ := ret (-1); u_link _ _ := ret (-1);
  u_mkdir _ := ret (-1); u_fstat _ := ret (-1, no_stat); u_kill _ := ret (-1); u_sleep _ := ret 0; u_ps _ _ := ret (-1);
  u_malloc _ := ret true; u_exited st w := e_end (Exited st) w |}.

#[local] Instance ProcEnv_writes : Writes ProcEnv.
Proof. intros fd bs w. by do 2 eexists. Qed.
#[local] Instance ProcEnv_mallocs : Mallocs ProcEnv.
Proof. intros n w. by eexists. Qed.

(** ** What a tree says of the process that a sequence of forks leads to *)

Definition two_free (fds : list (option fobj)) : bool :=
  match first_free fds with Some p0 => bool_decide (first_free (<[p0 := Some (OInherited 0)]> fds) <> None) | None => false end.

Fixpoint run_ast (a : ast) (forks : list Z) (fds : list (option fobj)) (pipes : nat) : verdict :=
  match a with
  | AExec [] => Exited 1
  | AExec (path :: args) => if can_exec path then Execed (path :: args) fds else Exited 0
  | ARedir c file mode fd =>
      if can_open file mode then run_ast c forks (<[Z.to_nat fd := Some (OFile file mode)]> fds) pipes else Exited 1
  | AList l r =>
      match forks with
      | pid :: forks => if pid =? -1 then Exited 1 else if pid =? 0 then run_ast l forks fds pipes else run_ast r forks fds pipes
      | [] => Exited 1
      end
  | APipe l r =>
      if negb (two_free fds) then Exited 1 else
      match forks with
      | pid :: forks =>
          if pid =? -1 then Exited 1
          else if pid =? 0 then run_ast l forks (<[1%nat := Some (OPipeW pipes)]> fds) (S pipes)
          else
            match forks with
            | pid :: forks =>
                if pid =? -1 then Exited 1
                else if pid =? 0 then run_ast r forks (<[0%nat := Some (OPipeR pipes)]> fds) (S pipes)
                else Exited 0
            | [] => Exited 1
            end
      | [] => Exited 1
      end
  | ABack c =>
      match forks with
      | pid :: forks => if pid =? -1 then Exited 1 else if pid =? 0 then run_ast c forks fds pipes else Exited 0
      | [] => Exited 1
      end
  end.

(** ** The shell does it *)

Definition ends_with {A} (v : verdict) (o : outcome (@shell ProcEnv) A) : Prop :=
  exists msg st, o = Panic msg st /\ pe_end (sh_world st) = Some v.

Abbreviation sh w b h := (@mkShell ProcEnv w b h).
Abbreviation pos := (@os ProcEnv _).

Lemma os_ok {A} (m : M penv A) w b h a w' : m w = Ok a w' -> @os ProcEnv A m (sh w b h) = Ok a (sh w' b h).
Proof. intros H. exact (zoom_ok (@Lworld ProcEnv) m (sh w b h) a w' H). Qed.

Lemma ends_bind {A B} v (m : M (@shell ProcEnv) A) (f : A -> M (@shell ProcEnv) B) st : ends_with v (m st) -> ends_with v (bind m f st).
Proof. intros (msg & st' & E & Hv). exists msg, st'. split; [by apply bind_panic | done]. Qed.

Lemma panic_ends {A} msg w b h : ends_with (Exited 1) (@panic ProcEnv A msg (sh w b h)).
Proof. destruct (@panic_run ProcEnv _ A msg w b h) as (w' & _ & ->). by do 2 eexists. Qed.

Lemma exit_ends {A} st w b h : ends_with (Exited st) (@os ProcEnv A (@u_exit ProcEnv A st) (sh w b h)).
Proof. by do 2 eexists. Qed.

Lemma fork1_run {A} v w b h (k : Z -> M (@shell ProcEnv) A) :
  match pe_forks w with
  | pid :: l => if pid =? -1 then v = Exited 1 else ends_with v (k pid (sh (mkPenv (pe_fds w) l (pe_pipes w) (pe_end w)) b h))
  | [] => v = Exited 1
  end -> ends_with v (bind fork1 k (sh w b h)).
Proof.
  destruct w as [fds [| pid l] pipes e]; cbn [pe_forks].
  - intros ->. apply ends_bind. unfold fork1. erewrite bind_ok by (apply os_ok; reflexivity). rewrite Z.eqb_refl. apply panic_ends.
  - destruct (Z.eqb_spec pid (-1)) as [-> | Hp].
    + intros ->. apply ends_bind. unfold fork1. erewrite bind_ok by (apply os_ok; reflexivity). rewrite Z.eqb_refl. apply panic_ends.
    + intros H. erewrite bind_ok; [exact H |]. unfold fork1. erewrite bind_ok by (apply os_ok; reflexivity). by rewrite (proj2 (Z.eqb_neq _ _) Hp).
Qed.

Lemma fork1_then {A B} v w b h (k : Z -> M (@shell ProcEnv) A) (e : M (@shell ProcEnv) B) :
  match pe_forks w with
  | pid :: l => if pid =? -1 then v = Exited 1 else ends_with v ((k pid ;;; e) (sh (mkPenv (pe_fds w) l (pe_pipes w) (pe_end w)) b h))
  | [] => v = Exited 1
  end -> ends_with v ((bind fork1 k ;;; e) (sh w b h)).
Proof.
  intros H. change ((bind fork1 k ;;; e) (sh w b h)) with (obind (obind (fork1 (sh w b h)) k) (fun _ => e)).
  pose proof (fork1_run v w b h (fun pid => k pid ;;; e) H) as (msg & st & E & Hv).
  change (bind fork1 (fun pid => k pid ;;; e) (sh w b h)) with (obind (fork1 (sh w b h)) (fun pid => k pid ;;; e)) in E.
  exists msg, st. split; [| done]. destruct (fork1 (sh w b h)); cbn [obind] in *; done.
Qed.

Lemma e_close_at k fds o l n e : fds !! k = Some (Some o) -> e_close (Z.of_nat k) (mkPenv fds l n e) = Ok 0 (mkPenv (<[k := None]> fds) l n e).
Proof. intros H. unfold e_close, fd_open, e_fds. cbn [pe_fds]. rewrite (proj2 (Z.ltb_ge _ _)) by lia. by rewrite Nat2Z.id, H. Qed.

Lemma e_dup_at k fds o l n e j : fds !! k = Some (Some o) -> first_free fds = Some j ->
  e_dup (Z.of_nat k) (mkPenv fds l n e) = Ok (Z.of_nat j) (mkPenv (<[j := Some o]> fds) l n e).
Proof. intros H Hj. unfold e_dup, e_alloc, fd_open, e_fds. cbn [pe_fds]. rewrite (proj2 (Z.ltb_ge _ _)) by lia. by rewrite Nat2Z.id, H, Hj. Qed.

Lemma first_free_at fds i : first_free fds = Some i -> fds !! i = Some None.
Proof.
  revert i. induction fds as [| [o |] fds IH]; intros i; cbn [first_free]; [done | | by intros [= <-]].
  destruct (first_free fds) as [j |]; [| done]. intros [= <-]. by apply IH.
Qed.

Lemma first_free_object fds i o o' : first_free (<[i := Some o]> fds) = first_free (<[i := Some o']> fds).
Proof. revert i. induction fds as [| [x |] fds IH]; intros [| i]; cbn; try done. apply (f_equal (fmap S)), IH. Qed.

(** Closing both ends of a pipe leaves the descriptors as they were. *)
Lemma pipe_closed (f : list (option fobj)) i j r w : f !! i = Some None -> f !! j = Some None -> i <> j ->
  <[j := None]> (<[i := None]> (<[j := Some w]> (<[i := Some r]> f))) = f.
Proof.
  intros Hi Hj Hne. rewrite (list_insert_insert_ne _ i j) by done. rewrite list_insert_insert_eq, list_insert_insert_eq.
  rewrite (list_insert_id f i None Hi). by apply list_insert_id.
Qed.

(** Standard input and output are open. *)
Definition std_open (fds : list (option fobj)) : Prop := exists a c rest, fds = Some a :: Some c :: rest.

(** Redirections are of standard input or output. *)
Fixpoint std_ast (t : ast) : Prop :=
  match t with
  | AExec _ => True
  | ARedir c _ _ fd => (fd = 0 \/ fd = 1) /\ std_ast c
  | APipe l r | AList l r => std_ast l /\ std_ast r
  | ABack c => std_ast c
  end.

Lemma std_wraps rs a : std_ast a -> std_ast (wraps rs a).
Proof. revert a. induction rs as [| [k f] rs IH]; intros a Ha; [done |]. apply IH. split; [destruct k; cbn; auto | done]. Qed.

Lemma std_sentence : (forall l, std_ast (ast_line l)) /\ (forall p, std_ast (ast_pipe p)) /\ (forall c, std_ast (ast_command c)).
Proof.
  assert (Hb : forall n a, std_ast a -> std_ast (backs_of n a)) by (induction n; cbn; auto).
  apply syntax_ind; cbn; intros; try split; auto; by apply std_wraps.
Qed.

Lemma std_set fds k o : std_open fds -> (k < 2)%nat -> std_open (<[k := Some o]> fds).
Proof. intros (a & c & rest & ->) Hk. destruct k as [| [| k]]; [by do 3 eexists | by do 3 eexists | lia]. Qed.

(** Closing standard input or output and opening: the new descriptor is the old one. *)
Lemma redirect fds k : std_open fds -> (k < 2)%nat -> exists o,
  fds !! k = Some (Some o) /\ first_free (<[k := None]> fds) = Some k.
Proof. intros (a & c & rest & ->) Hk. destruct k as [| [| k]]; [by eexists | by eexists | lia]. Qed.

(** The pipe's descriptors are above standard input and output. *)
Lemma e_pipe_run fds l n e : std_open fds ->
  if two_free fds then
    exists i j, (2 <= i)%nat /\ (2 <= j)%nat /\ i <> j /\ fds !! i = Some None /\ fds !! j = Some None /\
      e_pipe (mkPenv fds l n e) = Ok (0, (Z.of_nat i, Z.of_nat j)) (mkPenv (<[j := Some (OPipeW n)]> (<[i := Some (OPipeR n)]> fds)) l (S n) e)
  else e_pipe (mkPenv fds l n e) = Ok (-1, (0, 0)) (mkPenv fds l n e).
Proof.
  intros (a & c & rest & Ef). unfold two_free, e_pipe. cbn [pe_fds pe_pipes pe_forks pe_end].
  destruct (first_free fds) as [i |] eqn:Ei; [| done]. rewrite (first_free_object fds i (OInherited 0) (OPipeR n)).
  destruct (first_free (<[i := Some (OPipeR n)]> fds)) as [j |] eqn:Ej; [| done]. rewrite bool_decide_eq_true_2 by done.
  pose proof (first_free_at _ _ Ei) as Hi. pose proof (first_free_at _ _ Ej) as Hj. exists i, j.
  assert (Hne : i <> j) by (intros <-; rewrite list_lookup_insert_eq in Hj; [done | by apply lookup_lt_Some in Hi]).
  rewrite list_lookup_insert_ne in Hj by done. assert (H2 : forall k, fds !! k = Some None -> (2 <= k)%nat).
  { subst fds. intros [| [| k]]; [done | done | lia]. }
  repeat split; auto.
Qed.

(** The child of a pipe: descriptor [k] becomes one end, and both others are closed. *)
Lemma pipe_child {A} fds l n e b h i j k (o : fobj) (m : M (@shell ProcEnv) A) v : std_open fds -> (k < 2)%nat ->
  (2 <= i)%nat -> (2 <= j)%nat -> i <> j -> fds !! i = Some None -> fds !! j = Some None ->
  let f := <[j := Some (OPipeW n)]> (<[i := Some (OPipeR n)]> fds) in
  forall p, (p = i \/ p = j) -> f !! p = Some (Some o) ->
  ends_with v (m (sh (mkPenv (<[k := Some o]> fds) l (S n) e) b h)) ->
  ends_with v ((pos (e_close (Z.of_nat k)) ;;; pos (e_dup (Z.of_nat p)) ;;; pos (e_close (Z.of_nat i)) ;;; pos (e_close (Z.of_nat j)) ;;; m)
    (sh (mkPenv f l (S n) e) b h)).
Proof.
  intros Hs Hk Hi Hj Hne Ei Ej f p Hp Ho Hv.
  assert (Li : (i < length fds)%nat) by (by eapply lookup_lt_Some). assert (Lj : (j < length fds)%nat) by (by eapply lookup_lt_Some).
  assert (Hs' : std_open f) by (destruct Hs as (a & c & rest & ->); destruct i as [| [| i]], j as [| [| j]]; try lia; by do 3 eexists).
  destruct (redirect f k Hs' Hk) as (x & Ex & Ef). assert (Hpk : k <> p) by (destruct Hp; lia).
  erewrite bind_ok by (apply os_ok; eapply e_close_at; exact Ex).
  erewrite bind_ok by (apply os_ok; eapply (e_dup_at p); [rewrite list_lookup_insert_ne by done; exact Ho | exact Ef]).
  rewrite list_insert_insert_eq. set (g := <[k := Some o]> f).
  assert (Gi : g !! i = Some (Some (OPipeR n))).
  { unfold g, f. rewrite list_lookup_insert_ne by lia. rewrite list_lookup_insert_ne by done. by apply list_lookup_insert_eq. }
  assert (Gj : g !! j = Some (Some (OPipeW n))).
  { unfold g, f. rewrite list_lookup_insert_ne by lia. apply list_lookup_insert_eq. by rewrite length_insert. }
  erewrite bind_ok by (apply os_ok; eapply e_close_at; exact Gi).
  erewrite bind_ok by (apply os_ok; eapply (e_close_at j); rewrite list_lookup_insert_ne by done; exact Gj).
  replace (<[j := None]> (<[i := None]> g)) with (<[k := Some o]> fds); [exact Hv |].
  unfold g. rewrite (list_insert_insert_ne _ i k), (list_insert_insert_ne _ j k) by lia. f_equal. unfold f. by rewrite pipe_closed.
Qed.

Lemma fprintf_os fmt p str w b h : one_string fmt p = true -> exists w', pos (@fprintf ProcEnv 2 fmt [VStr str]) (sh w b h) = Ok tt (sh w' b h).
Proof. intros H. destruct (@fprintf_string ProcEnv _ 2 fmt p str w H) as [w' E]. exists w'. by apply os_ok. Qed.

Lemma exec_run path argv w b h : ends_with (if can_exec path then Execed argv (pe_fds w) else Exited 0)
  (((pos (e_exec path argv) ;;; pos (@fprintf ProcEnv 2 (str "exec %s failed" ++ [NL]) [VStr path])) ;;; pos (@u_exit ProcEnv unit 0)) (sh w b h)).
Proof.
  destruct (can_exec path) eqn:E.
  - do 2 apply ends_bind. unfold os, zoom, e_exec. cbn [lget Lworld sh_world]. rewrite E. by do 2 eexists.
  - destruct (fprintf_os (str "exec %s failed" ++ [NL]) 5 path w b h eq_refl) as [w' E'].
    rewrite (bind_ok _ _ _ tt (sh w' b h)); [apply exit_ends |].
    rewrite (bind_ok _ _ _ (-1) (sh w b h)) by (apply os_ok; unfold e_exec; by rewrite E). exact E'.
Qed.

(** The process of the child, if this is the child. *)
Lemma when_child {A} v (m : M (@shell ProcEnv) unit) (k : M (@shell ProcEnv) A) pid st :
  (if pid =? 0 then ends_with v (m st) else ends_with v (k st)) -> ends_with v ((when (pid =? 0) m ;;; k) st).
Proof. destruct (pid =? 0); [by apply ends_bind | done]. Qed.

Lemma when_child_then {A B} v (m : M (@shell ProcEnv) unit) (k : M (@shell ProcEnv) A) (e : M (@shell ProcEnv) B) pid st :
  (if pid =? 0 then ends_with v (m st) else ends_with v ((k ;;; e) st)) -> ends_with v (((when (pid =? 0) m ;;; k) ;;; e) st).
Proof. destruct (pid =? 0); [intros H; by do 2 apply ends_bind | done]. Qed.

Lemma bind_ok_then {S A B C} (m : M S A) (f : A -> M S B) (g : B -> M S C) s a s' : m s = Ok a s' -> bind (bind m f) g s = bind (f a) g s'.
Proof. intros H. unfold bind. by rewrite H. Qed.

Section Run.
Context (b b' : list Z).

(** The shell runs the tree at [base] as it says. *)
Definition runs (t : ptree) : Prop := forall n base h1 h2 w, base = length h1 -> (ptr base t < n)%nat -> strings_at b b' t ->
  std_open (pe_fds w) -> std_ast (ast_of b t) ->
  ends_with (run_ast (ast_of b t) (pe_forks w) (pe_fds w) (pe_pipes w)) (runcmd n (ptr base t) (sh w b' (h1 ++ layout base t ++ h2))).

Lemma run_exec args : runs (PExec args).
Proof.
  intros n base h1 h2 w Hb Hn Hs Hf _. destruct n as [| n]; [lia |]. cbn [runcmd].
  erewrite bind_ok by (eapply (get_node_ptr base (PExec args) []); [done | reflexivity]). rewrite gets_buf. cbn [ast_of run_ast].
  rewrite (exec_strings b b' args Hs). destruct (_ <$> args) as [| path l]; [apply ends_bind, exit_ends | apply exec_run].
Qed.

Lemma run_redir c q e mode fd : runs c -> runs (PRedir c q e mode fd).
Proof.
  intros IH n base h1 h2 [fds l pipes en] Hb Hn Hs Hf [Hfd Ht]. destruct n as [| n]; [lia |]. cbn [runcmd].
  erewrite bind_ok by (eapply get_node_ptr; [done | reflexivity]). rewrite gets_buf. cbn [ast_of run_ast pe_fds pe_forks pe_pipes] in *. apply ends_bind.
  rewrite (Hs q e) by (cbn; rewrite elem_of_app, list_elem_of_singleton; by right).
  assert (Hk : exists k, fd = Z.of_nat k /\ (k < 2)%nat) by (destruct Hfd as [-> | ->]; [exists 0%nat | exists 1%nat]; lia).
  destruct Hk as (k & -> & Hk). rewrite Nat2Z.id. destruct (redirect fds k Hf Hk) as (o & Ho & Hfree).
  erewrite bind_ok by (apply os_ok, (e_close_at k fds o); exact Ho). destruct (can_open (span b q e) mode) eqn:Eo.
  - rewrite (bind_ok _ _ _ (Z.of_nat k) (sh (mkPenv (<[k := Some (OFile (span b q e) mode)]> fds) l pipes en) b' (h1 ++ layout base (PRedir c q e mode (Z.of_nat k)) ++ h2))).
    2:{ apply os_ok. unfold u_open, ProcEnv, e_open, e_alloc. rewrite Eo. cbn [pe_fds]. rewrite Hfree. unfold e_fds. cbn [pe_fds pe_forks pe_pipes pe_end].
        by rewrite list_insert_insert_eq. }
    rewrite (proj2 (Z.ltb_ge _ _)) by lia. erewrite bind_ok by reflexivity. cbn [layout]. rewrite <- app_assoc.
    apply (IH n base h1 _ (mkPenv _ l pipes en)); [done | | | by apply std_set | done].
    + unfold ptr in *. cbn [size] in Hn. pose proof (size_pos c). lia.
    + intros q' e' Hq. apply Hs. cbn. rewrite elem_of_app. by left.
  - erewrite bind_ok by (apply os_ok; unfold u_open, ProcEnv, e_open; by rewrite Eo). apply ends_bind.
    change (-1 <? 0) with true. cbn iota.
    match goal with |- ends_with _ (_ (sh ?w b' ?h)) => destruct (fprintf_os (str "open %s failed" ++ [NL]) 5 (span b q e) w b' h eq_refl) as [w' E'] end.
    rewrite (bind_ok _ _ _ _ _ E'). apply exit_ends.
Qed.

Lemma run_list lt rt : runs lt -> runs rt -> runs (PList lt rt).
Proof.
  intros IHl IHr n base h1 h2 [fds l pipes en] Hb Hn Hs Hf [Htl Htr]. destruct n as [| n]; [lia |]. cbn [runcmd].
  erewrite bind_ok by (eapply get_node_ptr; [done | cbn [layout]; by rewrite app_assoc]). rewrite gets_buf. cbn [ast_of run_ast pe_fds pe_forks pe_pipes] in *. apply ends_bind.
  apply fork1_run. cbn [pe_forks pe_fds pe_pipes pe_end]. destruct l as [| pid l]; [done |]. destruct (pid =? -1); [done |]. apply when_child.
  unfold ptr in Hn. cbn [size] in Hn. pose proof (size_pos lt). pose proof (size_pos rt). cbn [layout]. rewrite <- !app_assoc. destruct (pid =? 0).
  - apply (IHl n base h1 _ (mkPenv fds l pipes en)); [done | unfold ptr; lia | | done | done]. intros q' e' Hq. apply Hs. cbn. rewrite elem_of_app. by left.
  - erewrite bind_ok by (apply os_ok; reflexivity). rewrite (app_assoc h1).
    apply (IHr n _ _ _ (mkPenv fds l pipes en)); [by rewrite length_app, layout_length, Hb | unfold ptr; lia | | done | done].
    intros q' e' Hq. apply Hs. cbn. rewrite elem_of_app. by right.
Qed.

Lemma run_back c : runs c -> runs (PBack c).
Proof.
  intros IH n base h1 h2 [fds l pipes en] Hb Hn Hs Hf Ht. destruct n as [| n]; [lia |]. cbn [runcmd].
  erewrite bind_ok by (eapply get_node_ptr; [done | reflexivity]). rewrite gets_buf. cbn [ast_of run_ast pe_fds pe_forks pe_pipes] in *.
  unfold ptr in Hn. cbn [size] in Hn. pose proof (size_pos c). cbn [layout]. rewrite <- !app_assoc.
  apply fork1_then. cbn [pe_forks pe_fds pe_pipes pe_end]. destruct l as [| pid l]; [done |]. destruct (pid =? -1); [done |]. apply when_child.
  destruct (pid =? 0); [| apply exit_ends]. by apply (IH n base h1 _ (mkPenv fds l pipes en)); [| unfold ptr; lia | | |].
Qed.

Lemma run_pipe lt rt : runs lt -> runs rt -> runs (PPipe lt rt).
Proof.
  intros IHl IHr n base h1 h2 [fds l pipes en] Hb Hn Hs Hf [Htl Htr]. destruct n as [| n]; [lia |]. cbn [runcmd].
  erewrite bind_ok by (eapply get_node_ptr; [done | cbn [layout]; by rewrite app_assoc]). rewrite gets_buf. cbn [ast_of run_ast pe_fds pe_forks pe_pipes] in *.
  unfold ptr in Hn. cbn [size] in Hn. pose proof (size_pos lt). pose proof (size_pos rt). cbn [layout]. rewrite <- !app_assoc.
  pose proof (e_pipe_run fds l pipes en Hf) as Hp. destruct (two_free fds); cbn [negb].
  2:{ apply ends_bind. erewrite bind_ok by (apply os_ok; exact Hp). cbn iota. change (-1 <? 0) with true. cbn iota. apply ends_bind, panic_ends. }
  destruct Hp as (i & j & Hi & Hj & Hne & Ei & Ej & Hp). set (f := <[j := _]> _) in Hp.
  assert (Li : (i < length fds)%nat) by (by eapply lookup_lt_Some). assert (Lj : (j < length fds)%nat) by (by eapply lookup_lt_Some).
  assert (Fi : f !! i = Some (Some (OPipeR pipes))) by (unfold f; rewrite list_lookup_insert_ne by done; by apply list_lookup_insert_eq).
  assert (Fj : f !! j = Some (Some (OPipeW pipes))) by (unfold f; apply list_lookup_insert_eq; by rewrite length_insert).
  erewrite bind_ok_then by (apply os_ok; exact Hp). cbn iota. erewrite bind_ok_then by reflexivity.
  apply fork1_then. cbn [pe_forks pe_fds pe_pipes pe_end]. destruct l as [| pid l]; [done |]. destruct (pid =? -1); [done |]. apply when_child_then.
  destruct (pid =? 0).
  { apply (pipe_child fds l pipes en b' _ i j 1 (OPipeW pipes)); try done; [lia | by right |].
    apply (IHl n base h1 _ (mkPenv _ l (S pipes) en)); [done | unfold ptr; lia | | by apply std_set; [| lia] | done].
    intros q' e' Hq. apply Hs. cbn. rewrite elem_of_app. by left. }
  apply fork1_then. cbn [pe_forks pe_fds pe_pipes pe_end]. destruct l as [| pid' l]; [done |]. destruct (pid' =? -1); [done |]. apply when_child_then.
  destruct (pid' =? 0).
  { apply (pipe_child fds l pipes en b' _ i j 0 (OPipeR pipes)); try done; [lia | by left |]. rewrite (app_assoc h1).
    apply (IHr n _ _ _ (mkPenv _ l (S pipes) en)); [by rewrite length_app, layout_length, Hb | unfold ptr; lia | | by apply std_set; [| lia] | done].
    intros q' e' Hq. apply Hs. cbn. rewrite elem_of_app. by right. }
  erewrite bind_ok_then by (apply os_ok; eapply (e_close_at i); exact Fi).
  erewrite bind_ok_then by (apply os_ok; eapply (e_close_at j); rewrite list_lookup_insert_ne by done; exact Fj).
  do 2 erewrite bind_ok_then by (apply os_ok; reflexivity). erewrite bind_ok by reflexivity. apply exit_ends.
Qed.

Lemma run_tree t : runs t.
Proof. induction t; auto using run_exec, run_redir, run_list, run_pipe, run_back. Qed.
End Run.

(** ** A line is parsed and run *)

(** Memory costs the process nothing. *)
Lemma calls_same w w' : @calls ProcEnv w w' -> w' = w.
Proof. induction 1 as [| n w w1 w2 E _ IH]; [done |]. injection E as <-. exact IH. Qed.

Lemma run_line buf l fds forks pipes e h : 0 ∈ buf -> sentence buf l -> std_open fds ->
  ends_with (run_ast (ast_line l) forks fds pipes)
    ((let* cmd := @parsecmd ProcEnv in runcmd (S cmd) cmd) (sh (mkPenv fds forks pipes e) buf h)).
Proof.
  intros Hn Hs Hf. destruct (@parsecmd_run ProcEnv _ _ buf Hn (mkPenv fds forks pipes e) h) as (ts & Hl & Hp).
  destruct (sentence_parse buf ts l Hn Hl Hs) as (t & Et & Ea). rewrite Et in Hp. destruct Hp as (w' & ->%calls_same & E & Hst).
  rewrite (bind_ok _ _ _ _ _ E), <- Ea, <- (app_nil_r (layout _ _)).
  apply (run_tree buf _ t (S (ptr (length h) t)) (length h) h [] (mkPenv fds forks pipes e)); [done | lia | done | done |].
  rewrite Ea. apply std_sentence.
Qed.
End Env.

(** C10: a line that is a sentence is parsed and run as it says. Whatever forks the
    process took, it ends by running the program with the arguments of its part of the
    line, its redirections opened as descriptors 0 and 1 and its pipe ends in place of
    them, and no other descriptor of a pipe left open; or it exits where the tree has
    no command for it, or where [open], [exec], [fork] or [pipe] fails. *)
Theorem sh_runs can_open can_exec buf l fds forks pipes h : 0 ∈ buf -> sentence buf l -> std_open fds ->
  exists msg st, (let* cmd := @parsecmd (ProcEnv can_open can_exec) in runcmd (S cmd) cmd)
      (@mkShell (ProcEnv can_open can_exec) (mkPenv fds forks pipes None) buf h) = Panic msg st /\
    pe_end (sh_world st) = Some (run_ast can_open can_exec (ast_line l) forks fds pipes).
Proof. intros Hn Hs Hf. by apply run_line. Qed.

Definition sample_fds : list (option fobj) := [Some (OInherited 0); Some (OInherited 0); Some (OInherited 0); None; None; None].

(** The process of [wc] in the sample line: the forks are those of the ampersand (the
    child) and of the pipe (first the parent, then the child). *)
Lemma sh_runs_witness :
  exists msg st, (let* cmd := @parsecmd (ProcEnv (fun _ _ => true) (fun _ => true)) in runcmd (S cmd) cmd)
      (@mkShell (ProcEnv (fun _ _ => true) (fun _ => true)) (mkPenv sample_fds [0; 7; 0] 0 None) sample_line []) = Panic msg st /\
    pe_end (sh_world st) =
      Some (Execed [str "wc"] [Some (OPipeR 0); Some (OFile (str "out") (Z.lor O_WRONLY O_CREATE)); Some (OInherited 0); None; None; None]).
Proof.
  destruct (sh_runs (fun _ _ => true) (fun _ => true) sample_line sample_cmd sample_fds [0; 7; 0] 0 [] sample_nul sample_sentence) as (msg & st & E & Hv);
    [by do 3 eexists |].
  exists msg, st. split; [exact E |]. rewrite Hv. reflexivity.
Defined.
