(* ===== verification/Filters.v ===== *)
(** * user/cat.c, user/echo.c, user/wc.c

    An argument of a program is the bytes from its pointer on. *)

From S2P Require Import Prelude Riscv Mem Bytes StringLib Spinlock Kalloc Vm Proc State Uart Printf Fs File Exec Syscall Sysfile User Ulib Uprintf.
From Stdlib Require Import Ascii.

(** A format with its newline. *)
Definition ln (s : string) : list Z := str s ++ [NL].

Section Programs.
Context `{OS : Os}.

(** ** cat *)

Fixpoint cat (n : nat) (fd : Z) : M world unit :=
  match n with
  | O => fun _ => NoFuel
  | S n =>
      let* r := u_read fd 512 in
      if 0 <? r.1 then
        let* k := u_write 1 (take (Z.to_nat r.1) r.2) in
        if negb (k =? r.1) then fprintf 2 (ln "cat: write error") [] ;;; u_exit 1
        else cat n fd
      else if r.1 <? 0 then fprintf 2 (ln "cat: read error") [] ;;; u_exit 1
      else ret tt
  end.

Fixpoint cat_files (n : nat) (argv : list (list Z)) : M world unit :=
  match argv with
  | [] => ret tt
  | a :: argv =>
      let* fd := u_open (cstr a) O_RDONLY in
      (if fd <? 0 then fprintf 2 (ln "cat: cannot open %s") [VStr a] ;;; u_exit 1 else ret tt) ;;;
      cat n fd ;;;
      u_close fd ;;;
      cat_files n argv
  end.

Definition cat_main (n : nat) (argv : list (list Z)) : M world unit :=
  if (length argv <=? 1)%nat then cat n 0 ;;; u_exit 0
  else cat_files n (tail argv) ;;; u_exit 0.

(** ** echo *)

Definition BACKSLASH : Z := 92.

(** What the character after a backslash stands for. *)
Definition escape (c : Z) : option Z :=
  if c =? chr "b" then Some 8
  else if c =? chr "n" then Some 10
  else if c =? chr "t" then Some 9
  else if c =? chr "r" then Some 13
  else if c =? chr "v" then Some 11
  else if c =? BACKSLASH then Some BACKSLASH
  else None.

(** After a backslash the pointer moves over one more character, even over a nul. *)
Fixpoint write_with_escape_sequences (s : list Z) : M world unit :=
  match s with
  | [] => ret tt
  | c :: s =>
      if c =? 0 then ret tt
      else if c =? BACKSLASH then
        match s with
        | [] => u_write 1 [BACKSLASH] ;;; u_undef
        | d :: s =>
            (match escape d with
             | Some x => u_write 1 [x] ;;; ret tt
             | None => u_write 1 [BACKSLASH] ;;; (if negb (d =? 0) then u_write 1 [d] ;;; ret tt else ret tt)
             end) ;;;
            write_with_escape_sequences s
        end
      else u_write 1 [c] ;;; write_with_escape_sequences s
  end.

Fixpoint echo_args (argv : list (list Z)) : M world unit :=
  match argv with
  | [] => ret tt
  | a :: argv =>
      write_with_escape_sequences a ;;;
      u_write 1 (match argv with [] => [NL] | _ => [32] end) ;;;
      echo_args argv
  end.

Definition echo_main (argv : list (list Z)) : M world unit := echo_args (tail argv) ;;; u_exit 0.

(** ** wc *)

Definition NUMBER_OF_BYTES : Z := 1.
Definition NUMBER_OF_WORDS : Z := 2.
Definition NUMBER_OF_CHARS : Z := 4.
Definition NUMBER_OF_LINES : Z := 8.
Definition DEFAULT_OUTPUTS : Z := Z.lor (Z.lor NUMBER_OF_BYTES NUMBER_OF_WORDS) NUMBER_OF_LINES.

Record counts := mkCounts { c_l : Z; c_w : Z; c_c : Z; c_m : Z }.

Definition write_output (name : list Z) (format : Z) (k : counts) : M world unit :=
  (if truthy (Z.land format NUMBER_OF_LINES) then printf (str "%d ") [VInt (c_l k)] else ret tt) ;;;
  (if truthy (Z.land format NUMBER_OF_WORDS) then printf (str "%d ") [VInt (c_w k)] else ret tt) ;;;
  (if truthy (Z.land format NUMBER_OF_CHARS) then printf (str "%d ") [VInt (i32 (c_c k - c_m k))] else ret tt) ;;;
  (if truthy (Z.land format NUMBER_OF_BYTES) then printf (str "%d ") [VInt (c_c k)] else ret tt) ;;;
  printf (ln "%s") [VStr name].

(** The body of the loop over the buffer; with the flag [inword]. *)
Definition wc_byte (st : counts * bool) (cur : Z) : counts * bool :=
  let '(k, inword) := st in
  if Z.land cur 0xC0 =? 0x80 then (mkCounts (c_l k) (c_w k) (c_c k) (i32 (c_m k + 1)), inword)
  else if ((9 <=? cur) && (cur <=? 13)) || (cur =? 32) then
    ((if cur =? NL then mkCounts (i32 (c_l k + 1)) (c_w k) (c_c k) (c_m k) else k), false)
  else if negb inword then (mkCounts (c_l k) (i32 (c_w k + 1)) (c_c k) (c_m k), true)
  else (k, inword).

(** The reads; returns the last result of [read] with the counts. *)
Fixpoint wc_loop (n : nat) (fd : Z) (st : counts * bool) : M world (Z * counts) :=
  match n with
  | O => fun _ => NoFuel
  | S n =>
      let* r := u_read fd 512 in
      if 0 <? r.1 then
        let k := mkCounts (c_l st.1) (c_w st.1) (i32 (c_c st.1 + r.1)) (c_m st.1) in
        wc_loop n fd (foldl wc_byte (k, st.2) (take (Z.to_nat r.1) r.2))
      else ret (r.1, st.1)
  end.

Definition wc (n : nat) (fd : Z) (name : list Z) (format : Z) (total : counts) : M world counts :=
  let* r := wc_loop n fd (mkCounts 0 0 0 0, false) in
  if r.1 <? 0 then printf (ln "wc: read error") [] ;;; ret total else
  let k := r.2 in
  write_output name format k ;;;
  ret (mkCounts (i32 (c_l total + c_l k)) (i32 (c_w total + c_w k)) (i32 (c_c total + c_c k)) (i32 (c_m total + c_m k))).

(** The letters of an option. *)
Fixpoint option_letters (s : list Z) (output : Z) : M world Z :=
  match s with
  | [] => ret output
  | c :: s =>
      if c =? 0 then ret output
      else if c =? chr "c" then option_letters s (Z.lor output NUMBER_OF_BYTES)
      else if c =? chr "w" then option_letters s (Z.lor output NUMBER_OF_WORDS)
      else if c =? chr "l" then option_letters s (Z.lor output NUMBER_OF_LINES)
      else if c =? chr "m" then option_letters s (Z.lor output NUMBER_OF_CHARS)
      else printf (ln "wc: invalid option -- '%c'") [VInt c] ;;; u_exit 1
  end.

Fixpoint parse_args (argv items : list (list Z)) (output : Z) : M world (list (list Z) * Z) :=
  match argv with
  | [] => ret (items, output)
  | a :: argv =>
      if default 0 (head a) =? chr "-" then
        if default 0 (a !! 1%nat) =? chr "-" then printf (ln "wc: unrecognized option '%s'") [VStr a] ;;; u_exit 1 else
        let* output := option_letters (tail a) output in
        if 1 <? strlen a then parse_args argv items output
        else parse_args argv (items ++ [a]) output
      else parse_args argv (items ++ [a]) output
  end.

Fixpoint wc_items (n : nat) (items : list (list Z)) (output : Z) (total : counts) : M world counts :=
  match items with
  | [] => ret total
  | a :: items =>
      let c0 := default 0 (head a) in
      let* fd :=
        (if (c0 =? chr "-") && (default 0 (a !! 1%nat) =? 0) || (c0 =? 0) then ret 0 else
         let* fd := u_open (cstr a) O_RDONLY in
         (if fd <? 0 then printf (ln "wc: cannot open %s") [VStr a] else ret tt) ;;;
         ret fd) in
      let* total :=
        (if 0 <=? fd then
           let* t := wc n fd a output total in
           (if 2 <? fd then u_close fd ;;; ret tt else ret tt) ;;;
           ret t
         else ret total) in
      wc_items n items output total
  end.

Definition wc_main (n : nat) (argv : list (list Z)) : M world unit :=
  let* ok := u_malloc (8 * Z.of_nat (length argv)) in
  if negb ok then u_undef else
  let* r := parse_args (tail argv) [] 0 in
  let output := if r.2 =? 0 then DEFAULT_OUTPUTS else r.2 in
  let items := match r.1 with [] => [[]] | l => l end in
  let* total := wc_items n items output (mkCounts 0 0 0 0) in
  (if (1 <? length items)%nat then write_output (str "total") output total else ret tt) ;;;
  u_exit 0.

End Programs.

(** ** cat copies its input *)

Lemma cat_run n w fd : (length (w_in w) < n)%nat ->
  exists s, cat (OS := FileIo) n fd w = Ok tt (mkIow [] s (w_out w ++ w_in w)).
Proof.
  revert w. induction n as [| n IH]; intros w Hn; [lia |]. cbn [cat]. destruct (w_in w) as [| c l] eqn:Ei.
  - destruct (io_read_end fd 512 w Ei) as [s E]. exists s. rewrite (bind_ok _ _ _ _ _ E). cbn [fst]. by rewrite app_nil_r.
  - destruct (io_read_run fd 512 w) as (k & s & E & _ & Hk); [lia | by rewrite Ei |]. rewrite (bind_ok _ _ _ _ _ E). cbn [fst snd].
    rewrite (proj2 (Z.ltb_lt _ _)) by lia. rewrite Nat2Z.id, take_take, Nat.min_id.
    rewrite (bind_ok _ _ _ (Z.of_nat (S k)) (mkIow (drop (S k) (w_in w)) s (w_out w ++ take (S k) (w_in w)))).
    2:{ cbn. unfold io_write. rewrite length_take, Nat.min_l by lia. done. }
    rewrite Z.eqb_refl. cbn [negb].
    destruct (IH (mkIow (drop (S k) (w_in w)) s (w_out w ++ take (S k) (w_in w)))) as [s' E']; [cbn [w_in]; rewrite length_drop, Ei in *; lia |].
    exists s'. rewrite E'. cbn [w_in w_out]. by rewrite <- app_assoc, take_drop, Ei.
Qed.

(** ** echo *)

(** The text with its escape sequences replaced; [None] if it ends in a backslash. *)
Fixpoint unescape (s : list Z) : option (list Z) :=
  match s with
  | [] => Some []
  | c :: s =>
      if c =? BACKSLASH then
        match s with
        | [] => None
        | d :: s => (app (match escape d with Some x => [x] | None => [BACKSLASH; d] end)) <$> unescape s
        end
      else app [c] <$> unescape s
  end.

(** A text that does not end in a backslash is printed unescaped, whatever is behind it
    in memory. *)
Lemma echo_prints n s : (length s <= n)%nat -> Forall (fun c => c <> 0) s -> forall t rest w, unescape s = Some t ->
  write_with_escape_sequences (OS := FileIo) (s ++ 0 :: rest) w = Ok tt (mkIow (w_in w) (w_sched w) (w_out w ++ t)).
Proof.
  revert s. induction n as [| n IH]; intros s Hn Hf t rest w Ht; (destruct s as [| c s]; [injection Ht as <-; destruct w; cbn; by rewrite app_nil_r |]); [cbn in Hn; lia |].
  apply Forall_cons in Hf as [Hc Hf]. cbn [app write_with_escape_sequences length] in *. rewrite (proj2 (Z.eqb_neq _ _) Hc). cbn [unescape] in Ht.
  destruct (c =? BACKSLASH).
  - destruct s as [| d s]; [done |]. apply Forall_cons in Hf as [Hd Hf]. cbn [app length] in *.
    destruct (unescape s) as [t' |] eqn:E; [| done]. injection Ht as <-.
    destruct (escape d) as [x |]; [| rewrite (proj2 (Z.eqb_neq _ _) Hd); cbn [negb]].
    + etransitivity; [exact (IH s ltac:(lia) Hf t' rest (mkIow (w_in w) (w_sched w) (w_out w ++ [x])) E) |]. cbn. by rewrite <- app_assoc.
    + etransitivity; [exact (IH s ltac:(lia) Hf t' rest (mkIow (w_in w) (w_sched w) ((w_out w ++ [BACKSLASH]) ++ [d])) E) |]. cbn. by rewrite <- !app_assoc.
  - destruct (unescape s) as [t' |] eqn:E; [| done]. injection Ht as <-.
    etransitivity; [exact (IH s ltac:(lia) Hf t' rest (mkIow (w_in w) (w_sched w) (w_out w ++ [c])) E) |]. cbn. by rewrite <- app_assoc.
Qed.

(** After a backslash at the end of an argument, echo goes on behind the nul. *)
Lemma echo_overruns rest w : write_with_escape_sequences (OS := FileIo) (BACKSLASH :: 0 :: rest) w =
  write_with_escape_sequences (OS := FileIo) rest (mkIow (w_in w) (w_sched w) (w_out w ++ [BACKSLASH])).
Proof. reflexivity. Qed.

(** ** What wc counts *)

Definition continuation (c : Z) : bool := Z.land c 0xC0 =? 0x80.
Definition blank (c : Z) : bool := ((9 <=? c) && (c <=? 13)) || (c =? 32).

(** The pieces of a text between blanks. *)
Fixpoint pieces (l : list Z) : list (list Z) :=
  match l with
  | [] => [[]]
  | c :: l => if blank c then [] :: pieces l else match pieces l with p :: ps => (c :: p) :: ps | [] => [[c]] end
  end.

Definition count (p : Z -> bool) (l : list Z) : Z := Z.of_nat (length (filter (fun c => p c = true) l)).
Definition lines_of (l : list Z) : Z := count (fun c => c =? NL) l.
Definition conts_of (l : list Z) : Z := count continuation l.
(** The words of the characters that are not continuation bytes. *)
Definition words_of (l : list Z) : Z :=
  Z.of_nat (length (filter (fun p => p <> []) (pieces (filter (fun c => continuation c = false) l)))).

(** The words that start in [l], [inword] telling whether one is under way. *)
Fixpoint word_starts (inword : bool) (l : list Z) : Z :=
  match l with
  | [] => 0
  | c :: l =>
      if continuation c then word_starts inword l
      else if blank c then word_starts false l
      else (if inword then 0 else 1) + word_starts true l
  end.

Lemma pieces_cons l : exists p ps, pieces l = p :: ps.
Proof. destruct l as [| c l]; cbn; [by do 2 eexists |]. destruct (blank c); [by do 2 eexists |]. destruct (pieces l); by do 2 eexists. Qed.

Lemma word_starts_pieces l :
  word_starts false l = words_of l /\
  word_starts true l = Z.of_nat (length (filter (fun p => p <> []) (tail (pieces (filter (fun c => continuation c = false) l))))).
Proof.
  unfold words_of. induction l as [| c l [IH1 IH2]]; [done |]. cbn [word_starts]. rewrite filter_cons.
  destruct (continuation c); [by rewrite decide_False by done |]. rewrite decide_True by done. cbn [pieces].
  destruct (blank c).
  - rewrite filter_cons, decide_False by tauto. cbn [tail]. done.
  - destruct (pieces_cons (filter (fun c => continuation c = false) l)) as (p & ps & E). rewrite E in *. cbn [tail] in *.
    rewrite filter_cons, decide_True by done. cbn [length]. split; [rewrite IH2; lia | rewrite IH2; lia].
Qed.

Lemma word_starts_bound b l : 0 <= word_starts b l <= Z.of_nat (length l).
Proof.
  revert b. induction l as [| c l IH]; intros b; cbn [word_starts length]; [lia |]. pose proof (IH true). pose proof (IH false). pose proof (IH b).
  destruct (continuation c); [lia |]. destruct (blank c); [lia |]. destruct b; lia.
Qed.

Lemma count_cons p c l : count p (c :: l) = (if p c then 1 else 0) + count p l.
Proof. unfold count. rewrite filter_cons. destruct (p c); [rewrite decide_True by done; cbn [length]; lia | by rewrite decide_False by done]. Qed.

Lemma count_app p l l' : count p (l ++ l') = count p l + count p l'.
Proof. induction l as [| c l IH]; [done |]. cbn [app]. rewrite !count_cons, IH. lia. Qed.

Lemma count_bound p l : 0 <= count p l <= Z.of_nat (length l).
Proof. unfold count. pose proof (length_filter (fun c => p c = true) l). lia. Qed.

(** Is a word under way after [l]? *)
Fixpoint inword_after (b : bool) (l : list Z) : bool :=
  match l with [] => b | c :: l => inword_after (if continuation c then b else negb (blank c)) l end.

Lemma word_starts_app b l l' : word_starts b (l ++ l') = word_starts b l + word_starts (inword_after b l) l'.
Proof.
  revert b. induction l as [| c l IH]; intros b; cbn [app word_starts inword_after]; [lia |]. rewrite !IH.
  destruct (continuation c); [lia |]. destruct (blank c); cbn [negb]; lia.
Qed.

Lemma inword_app b l l' : inword_after b (l ++ l') = inword_after (inword_after b l) l'.
Proof. revert b. induction l as [| c l IH]; intros b; cbn; auto. Qed.

Lemma nl_blank c : (c =? NL) = true -> continuation c = false /\ blank c = true.
Proof. intros ->%Z.eqb_eq. done. Qed.

(** The counts of a text, from a count so far that leaves room. *)
Definition add_counts (k : counts) (b : bool) (l : list Z) : counts :=
  mkCounts (c_l k + lines_of l) (c_w k + word_starts b l) (c_c k) (c_m k + conts_of l).
Definition room (k : counts) (n : Z) : Prop := 0 <= c_l k /\ 0 <= c_w k /\ 0 <= c_m k /\ c_l k + n < 2^31 /\ c_w k + n < 2^31 /\ c_m k + n < 2^31.

Lemma wc_bytes l : forall k b, room k (Z.of_nat (length l)) -> foldl wc_byte (k, b) l = (add_counts k b l, inword_after b l).
Proof.
  assert (H32 : forall x, 0 <= x < 2^31 -> i32 x = x).
  { intros x Hx. apply i32_small. lia. }
  induction l as [| c l IH]; intros [kl kw kc km] b Hr; cbn [foldl].
  { unfold add_counts. cbn. rewrite !Z.add_0_r. done. }
  unfold room in Hr. cbn [c_l c_w c_m length] in Hr. unfold wc_byte at 2. fold (continuation c) (blank c). cbn [c_l c_w c_c c_m inword_after word_starts].
  unfold add_counts, lines_of, conts_of. rewrite !count_cons. cbn [word_starts c_l c_w c_c c_m].
  destruct (continuation c) eqn:Ec; [| destruct (blank c) eqn:Eb; [| destruct b]]; cbn [negb];
    try (destruct (c =? NL) eqn:En; [destruct (nl_blank c En); congruence |]).
  - rewrite IH by (unfold room; cbn; rewrite H32 by lia; lia). unfold add_counts, lines_of, conts_of. cbn [c_l c_w c_c c_m]. rewrite H32 by lia. do 2 f_equal; lia.
  - destruct (c =? NL); rewrite IH by (unfold room; cbn; rewrite ?H32 by lia; lia); unfold add_counts, lines_of, conts_of; cbn [c_l c_w c_c c_m]; rewrite ?H32 by lia; do 2 f_equal; lia.
  - rewrite IH by (unfold room; cbn; lia). unfold add_counts, lines_of, conts_of. cbn [c_l c_w c_c c_m]. do 2 f_equal; lia.
  - rewrite IH by (unfold room; cbn; rewrite H32 by lia; lia). unfold add_counts, lines_of, conts_of. cbn [c_l c_w c_c c_m]. rewrite H32 by lia. do 2 f_equal; lia.
Qed.

(** However the input is cut into pieces, the whole of it is counted. *)
Lemma wc_loop_run n : forall w fd k b, (length (w_in w) < n)%nat -> room k (Z.of_nat (length (w_in w))) ->
  0 <= c_c k -> c_c k + Z.of_nat (length (w_in w)) < 2^31 ->
  exists s, wc_loop (OS := FileIo) n fd (k, b) w =
    Ok (0, mkCounts (c_l k + lines_of (w_in w)) (c_w k + word_starts b (w_in w)) (c_c k + Z.of_nat (length (w_in w))) (c_m k + conts_of (w_in w)))
       (mkIow [] s (w_out w)).
Proof.
  induction n as [| n IH]; intros w fd k b Hn Hr H0 Hc; [lia |]. cbn [wc_loop]. destruct (w_in w) as [| c l] eqn:Ei.
  - destruct (io_read_end fd 512 w Ei) as [s E]. exists s. rewrite (bind_ok _ _ _ _ _ E). cbn. destruct k. cbn. by rewrite !Z.add_0_r.
  - destruct (io_read_run fd 512 w) as (j & s & E & _ & Hk); [lia | by rewrite Ei |]. rewrite (bind_ok _ _ _ _ _ E). cbn [fst snd]. rewrite <- Ei in Hn, Hr, Hc |- *.
    rewrite (proj2 (Z.ltb_lt _ _)) by lia. rewrite Nat2Z.id, take_take, Nat.min_id. set (x := take (S j) (w_in w)). set (y := drop (S j) (w_in w)).
    assert (Lx : length x = S j) by (unfold x; rewrite length_take; lia).
    assert (Exy : w_in w = x ++ y) by (symmetry; apply take_drop). pose proof (f_equal length Exy) as Len. rewrite length_app in Len.
    pose proof (count_bound (fun c => c =? NL) x) as B1. pose proof (count_bound continuation x) as B2. pose proof (word_starts_bound b x) as B3.
    unfold room in Hr. rewrite (i32_small (c_c k + _)) by lia. rewrite wc_bytes by (unfold room; cbn [c_l c_w c_m]; lia).
    destruct (IH (mkIow y s (w_out w)) fd (add_counts (mkCounts (c_l k) (c_w k) (c_c k + Z.of_nat (S j)) (c_m k)) b x) (inword_after b x)) as [s' E'].
    1-4: unfold add_counts, room, lines_of, conts_of; cbn [w_in c_l c_w c_c c_m]; lia.
    exists s'. rewrite E'. unfold add_counts. cbn [w_in w_out c_l c_w c_c c_m]. rewrite Exy, word_starts_app. unfold lines_of, conts_of. rewrite !count_app, length_app. f_equal. f_equal. f_equal; lia.
Qed.

(** ** What wc prints *)

Definition decimal (x : Z) : list Z := rev (printint_digits 32 x 10).

(** It is the number in decimal, without leading zeros. *)
Lemma decimal_value x : 0 <= x < 2^31 -> value 10 (rev (decimal x)) = x /\ (0 < x -> head (decimal x) <> Some (digit 0)).
Proof.
  intros Hx. unfold decimal. rewrite rev_involutive. destruct (printint_digits_value 32 10 x) as [Hv Hl]; [lia | simpl; lia |].
  split; [done |]. intros Hp. rewrite rev_alt. change (rev_append (printint_digits 32 x 10) []) with (reverse (printint_digits 32 x 10)). rewrite head_reverse. by apply Hl.
Qed.

Lemma digits_bytes n x : Forall (fun c => u8 c = c) (printint_digits n x 10).
Proof.
  assert (Hd : forall d, u8 (digit d) = digit d).
  { intros d. unfold digit, digits. destruct (str "0123456789ABCDEF" !! Z.to_nat d) as [c |] eqn:E; [| done]. cbn.
    apply list_elem_of_lookup_2 in E. change (str "0123456789ABCDEF") with [48;49;50;51;52;53;54;55;56;57;65;66;67;68;69;70] in E.
    rewrite !elem_of_cons, elem_of_nil in E. destruct_or! E; try done; by subst. }
  revert x. induction n as [| n IH]; intros x; [done |]. cbn [printint_digits]. constructor; [apply Hd |]. destruct (truthy _); [apply IH | constructor].
Qed.

Lemma map_bytes l : Forall (fun c => u8 c = c) l -> (u8 <$> l) = l.
Proof. induction 1 as [| c l Hc Hl IH]; [done |]. rewrite fmap_cons. by f_equal. Qed.

Lemma print_number x w : 0 <= x < 2^31 -> @printf FileIo (str "%d ") [VInt x] w = Ok tt (mkIow (w_in w) (w_sched w) (w_out w ++ decimal x ++ [32])).
Proof.
  intros Hx. unfold printf, vprintf. change (length (str "%d ")) with 3%nat. cbn [vprintf_loop].
  change (fmt_at (str "%d ") 0) with (chr "%"). change (fmt_at (str "%d ") (0 + 1)) with (chr "d"). change (chr "%" =? 0) with false. change (chr "d" =? 0) with false. cbn iota.
  change (chr "%" =? chr "%") with true. cbn [negb].
  erewrite bind_ok.
  2:{ unfold conversion. change (fmt_at (str "%d ") (0 + 1)) with (chr "d"). change (chr "d" =? chr "d") with true. cbn iota.
      erewrite bind_ok by reflexivity. cbn [fst snd]. rewrite (i32_small x) by lia. unfold printint, printint_buf. rewrite (proj2 (Z.ltb_ge x 0)) by lia. cbn [andb]. rewrite u32_small by lia.
      rewrite app_nil_r. erewrite bind_ok by (apply puts_io). reflexivity. }
  cbn [fst snd]. change (fmt_at (str "%d ") (0 + 1 + 0 + 1)) with 32. change (32 =? 0) with false. change (32 =? chr "%") with false. cbn iota.
  erewrite bind_ok by reflexivity. cbn [w_in w_sched w_out]. rewrite map_bytes by (apply Forall_rev, digits_bytes).
  rewrite <- app_assoc. reflexivity.
Qed.

Lemma print_name name w : Forall (fun c => u8 c = c) name ->
  @printf FileIo (ln "%s") [VStr name] w = Ok tt (mkIow (w_in w) (w_sched w) (w_out w ++ cstr name ++ [NL])).
Proof.
  intros Hn. unfold printf, vprintf. change (length (ln "%s")) with 3%nat. cbn [vprintf_loop].
  change (fmt_at (ln "%s") 0) with (chr "%"). change (fmt_at (ln "%s") (0 + 1)) with (chr "s"). change (chr "%" =? 0) with false. change (chr "s" =? 0) with false. cbn iota.
  change (chr "%" =? chr "%") with true. cbn [negb].
  erewrite bind_ok.
  2:{ rewrite conversion_s by reflexivity. erewrite bind_ok by reflexivity. cbn [fst snd]. erewrite bind_ok by (apply puts_io). reflexivity. }
  cbn [fst snd]. change (fmt_at (ln "%s") (0 + 1 + 0 + 1)) with NL. change (NL =? 0) with false. change (NL =? chr "%") with false. cbn iota.
  erewrite bind_ok by reflexivity. cbn [w_in w_sched w_out]. rewrite map_bytes.
  - rewrite <- app_assoc. reflexivity.
  - clear -Hn. induction Hn as [| c l Hc Hl IH]; cbn; [constructor |]. destruct (c =? 0); by constructor.
Qed.

(** C39: wc counts what it is given. For an input of less than 2 GB, however the reads
    cut it into pieces, [wc] terminates having read all of it, prints the number of
    newlines, of words and of bytes in decimal and the name, and adds the counts to
    the totals. Words are the maximal runs of characters between blanks, where bytes
    that continue a UTF-8 character are passed over. *)
Theorem wc_correct (input name : list Z) (sched : list nat) (out : list Z) (fd : Z)
    (Hlen : Z.of_nat (length input) < 2^31) (Hname : Forall (fun c => u8 c = c) name) :
  exists s, wc (OS := FileIo) (S (length input)) fd name DEFAULT_OUTPUTS (mkCounts 0 0 0 0) (mkIow input sched out) =
    Ok (mkCounts (lines_of input) (words_of input) (Z.of_nat (length input)) (conts_of input))
       (mkIow [] s (out ++ decimal (lines_of input) ++ 32 :: decimal (words_of input) ++ 32 ::
                    decimal (Z.of_nat (length input)) ++ 32 :: cstr name ++ [NL])).
Proof.
  pose proof (count_bound (fun c => c =? NL) input) as B1. pose proof (count_bound continuation input) as B2. pose proof (word_starts_bound false input) as B3.
  fold (lines_of input) in B1. fold (conts_of input) in B2. rewrite (proj1 (word_starts_pieces input)) in B3.
  destruct (wc_loop_run (S (length input)) (mkIow input sched out) fd (mkCounts 0 0 0 0) false) as [s E]; cbn [w_in w_out c_l c_w c_c c_m] in *;
    [lia | unfold room; cbn [c_l c_w c_c c_m]; lia | lia | lia |].
  exists s. unfold wc. rewrite (bind_ok _ _ _ _ _ E). rewrite (proj1 (word_starts_pieces input)), !Z.add_0_l. cbn [fst snd Z.ltb Z.compare].
  change (0 <? 0) with false. cbn iota. unfold write_output. cbn [c_l c_w c_c c_m].
  change (truthy (Z.land DEFAULT_OUTPUTS NUMBER_OF_LINES)) with true. change (truthy (Z.land DEFAULT_OUTPUTS NUMBER_OF_WORDS)) with true.
  change (truthy (Z.land DEFAULT_OUTPUTS NUMBER_OF_CHARS)) with false. change (truthy (Z.land DEFAULT_OUTPUTS NUMBER_OF_BYTES)) with true. cbn iota.
  rewrite (bind_ok _ _ _ tt (mkIow [] s (out ++ decimal (lines_of input) ++ 32 :: decimal (words_of input) ++ 32 ::
                    decimal (Z.of_nat (length input)) ++ 32 :: cstr name ++ [NL]))).
  - rewrite !i32_small by lia. done.
  - do 2 (erewrite bind_ok by (apply print_number; lia)). erewrite bind_ok by reflexivity. erewrite bind_ok by (apply print_number; lia).
    rewrite print_name by done. cbn [w_in w_sched w_out]. rewrite <- !app_assoc. done.
Qed.

Lemma wc_correct_witness :
  exists s, wc (OS := FileIo) 9 0 (str "f") DEFAULT_OUTPUTS (mkCounts 0 0 0 0) (mkIow (str "a bc" ++ NL :: str " d" ++ [195]) [0; 2; 7]%nat []) =
    Ok (mkCounts 1 3 8 0) (mkIow [] s (str "1 3 8 f" ++ [NL])).
Proof.
  destruct (wc_correct (str "a bc" ++ NL :: str " d" ++ [195]) (str "f") [0; 2; 7]%nat [] 0) as [s E].
  - vm_compute. reflexivity.
  - repeat constructor.
  - exists s. exact E.
Defined.
