(* ===== verification/Progs.v ===== *)
(** * The small programs of user/: ls, mkdir, rm, ln, kill, sleep, init, zombie, ps, forktest, stressfs

    As in Filters.v, an argument is the bytes from its pointer on. With the random
    numbers of user/grind.c. *)

From S2P Require Import Prelude Riscv Mem Bytes StringLib Spinlock Kalloc Vm Proc State Uart Printf Console Fs File Exec Syscall Sysfile User Ulib Uprintf Filters.
From Stdlib Require Import Ascii.

Section Programs.
Context `{OS : Os}.

(** ** ls *)

Fixpoint after_slash (s p : list Z) : list Z :=
  match s with [] => p | c :: s => if c =? chr "/" then after_slash s s else after_slash s p end.

(** The name after the last slash, padded with blanks. *)
Definition fmtname (path : list Z) : list Z :=
  let p := after_slash (cstr path) (cstr path) in
  if DIRSIZ <=? Z.of_nat (length p) then p else p ++ replicate (Z.to_nat DIRSIZ - length p) 32.

(** The characters before the first blank. The scan does not stop at the end of the
    name. *)
Fixpoint before_blank (s : list Z) : option (list Z) :=
  match s with [] => None | c :: s => if c =? 32 then Some [] else (fun t => c :: t) <$> before_blank s end.
Definition clean_fmtname (name : list Z) : M world (list Z) :=
  match before_blank name with Some t => ret t | None => u_undef end.

(** A file or device; [tag] is what [-l] shows for it. *)
Definition ls_file (tag : string) (path : list Z) (st : Fs.stat) (l_flag m_flag : bool) : M world unit :=
  if m_flag then let* t := clean_fmtname (fmtname path) in printf (str "%s") [VStr t]
  else if l_flag then printf (ln "%s %d %s %d") [VStr (str tag); VInt (st_nlink st); VStr (fmtname path); VInt (st_size st)]
  else printf (ln "%s %d %d %d") [VStr (fmtname path); VInt (st_type st); VInt (st_ino st); VInt (st_size st)].

(** A directory inside the listed one. *)
Definition ls_dir (path : list Z) (st : Fs.stat) (l_flag p_flag m_flag : bool) : M world unit :=
  let name := fmtname path in
  let slashed := take (length name - 1) name ++ [chr "/"] in
  if m_flag && p_flag then let* t := clean_fmtname name in printf (str "%s/") [VStr t]
  else if m_flag then let* t := clean_fmtname name in printf (str "%s") [VStr t]
  else
    let shown := if p_flag then slashed else fmtname path in
    if l_flag then printf (ln "%s %d %s %d") [VStr (str "d"); VInt (st_nlink st); VStr shown; VInt (st_size st)]
    else printf (ln "%s %d %d %d") [VStr shown; VInt (st_type st); VInt (st_ino st); VInt (st_size st)].

(** The number of entries in use. *)
Fixpoint ls_count (n : nat) (fd : Z) (total : Z) : M world Z :=
  match n with
  | O => fun _ => NoFuel
  | S n =>
      let* r := u_read fd dirent_size in
      if negb (r.1 =? dirent_size) then ret total
      else ls_count n fd (if de_inum (dirent_of r.2) =? 0 then total else total + 1)
  end.

Fixpoint ls_entries (n : nat) (fd : Z) (path : list Z) (l_flag p_flag m_flag : bool) (total curr : Z) : M world unit :=
  match n with
  | O => fun _ => NoFuel
  | S n =>
      let* r := u_read fd dirent_size in
      if negb (r.1 =? dirent_size) then ret tt else
      let de := dirent_of r.2 in
      if de_inum de =? 0 then ls_entries n fd path l_flag p_flag m_flag total curr else
      let buf := cstr path ++ chr "/" :: cstr (de_name de) in
      let* s := Ulib.stat buf in
      if s.1 <? 0 then
        printf (ln "ls: cannot stat %s") [VStr buf] ;;;
        ls_entries n fd path l_flag p_flag m_flag total curr
      else
        let st := s.2 in
        (if st_type st =? T_DEVICE then ls_file "-" buf st l_flag m_flag
         else if st_type st =? T_FILE then ls_file "f" buf st l_flag m_flag
         else if st_type st =? T_DIR then ls_dir buf st l_flag p_flag m_flag
         else ret tt) ;;;
        let curr := curr + 1 in
        (if m_flag && (curr <? total) then printf (str ", ") [] else ret tt) ;;;
        ls_entries n fd path l_flag p_flag m_flag total curr
  end.

Definition ls (n : nat) (path : list Z) (l_flag p_flag m_flag : bool) : M world unit :=
  let* fd := u_open (cstr path) O_RDONLY in
  if fd <? 0 then fprintf 2 (ln "ls: cannot open %s") [VStr path] else
  let* r := u_fstat fd in
  if r.1 <? 0 then fprintf 2 (ln "ls: cannot stat %s") [VStr path] ;;; u_close fd ;;; ret tt else
  let st := r.2 in
  let* fd :=
    (if st_type st =? T_DEVICE then ls_file "-" path st l_flag m_flag ;;; ret fd
     else if st_type st =? T_FILE then ls_file "f" path st l_flag m_flag ;;; ret fd
     else if st_type st =? T_DIR then
       if 512 <? strlen path + 1 + DIRSIZ + 1 then printf (ln "ls: path too long") [] ;;; ret fd else
       let* total := ls_count n fd 0 in
       u_close fd ;;;
       let* fd := u_open (cstr path) O_RDONLY in
       ls_entries n fd path l_flag p_flag m_flag total 0 ;;;
       ret fd
     else ret fd) in
  u_close fd ;;;
  ret tt.

Definition is_arg (s : string) (a : list Z) : bool := strcmp a (str s) =? 0.

Fixpoint ls_args (n : nat) (argv : list (list Z)) (l_flag p_flag m_flag : bool) : M world unit :=
  match argv with
  | [] => ret tt
  | a :: argv =>
      (if is_arg "-l" a || is_arg "-p" a || is_arg "-m" a then ret tt else
       ls n a l_flag p_flag m_flag ;;;
       (if m_flag && negb (bool_decide (argv = [])) then printf (str ", ") [] else ret tt)) ;;;
      ls_args n argv l_flag p_flag m_flag
  end.

Definition ls_main (n : nat) (argv : list (list Z)) : M world unit :=
  let args := tail argv in
  let l_flag := existsb (is_arg "-l") args in
  let p_flag := existsb (is_arg "-p") args in
  let m_flag := existsb (is_arg "-m") args in
  let only_flags := forallb (fun a => default 0 (head a) =? chr "-") args in
  (if only_flags then ls n (str ".") l_flag p_flag m_flag else ls_args n args l_flag p_flag m_flag) ;;;
  (if m_flag then printf [NL] [] else ret tt) ;;;
  u_exit 0.

(** ** mkdir *)

(** What [strncpy] of mkdir.c copies. *)
Fixpoint strncpy (length : nat) (start : list Z) : list Z :=
  match length, start with
  | S n, c :: start => if c =? 0 then [] else c :: strncpy n start
  | _, _ => []
  end.

Fixpoint not_slash (s : list Z) : nat := match s with c :: s => if (c =? chr "/") || (c =? 0) then O else S (not_slash s) | [] => O end.

(** The loop over the path; returns the directories entered, or [None] for -1. The first
    [skip] characters belong to the name just made ([start = end] in the code). *)
Fixpoint mkdir_p_loop (start : list Z) (skip count : nat) : M world (option nat) :=
  match start, skip with
  | [], _ => ret (Some count)
  | _ :: rest, S skip => mkdir_p_loop rest skip count
  | c :: rest, O =>
      if c =? 0 then ret (Some count)
      else if c =? chr "/" then mkdir_p_loop rest 0 count
      else
        let len := not_slash start in
        let* ok := u_malloc (Z.of_nat len + 1) in
        if negb ok then fprintf 2 (ln "mkdir: memory allocation failed") [] ;;; ret None else
        let directory := strncpy len start in
        let* fd := u_open directory O_RDONLY in
        let* made := (if fd <? 0 then u_mkdir directory else ret 0) in
        if made <? 0 then fprintf 2 (ln "mkdir: failed to create directory %s") [VStr directory] ;;; ret None else
        let* e := u_chdir directory in
        if e <? 0 then fprintf 2 (ln "mkdir: failed to change into %s directory") [VStr directory] ;;; ret None else
        mkdir_p_loop rest (len - 1) (S count)
  end.

Fixpoint go_back (count : nat) : M world Z :=
  match count with
  | O => ret 0
  | S count =>
      let* e := u_chdir (str "..") in
      if e <? 0 then fprintf 2 (str "mkdir: failed to go back to original directory") [] ;;; ret (-1) else go_back count
  end.

Definition mkdir_p (path : list Z) : M world Z :=
  let* e := (if default 0 (head path) =? chr "/" then u_chdir (str "/") else ret 0) in
  if e <? 0 then fprintf 2 (ln "mkdir: failed to change to root directory") [] ;;; ret (-1) else
  let* r := mkdir_p_loop path 0 0 in
  match r with None => ret (-1) | Some count => go_back count end.

(** Call [f] on the arguments until one fails. *)
Fixpoint until_failure (f : list Z -> M world Z) (msg : list Z) (argv : list (list Z)) : M world unit :=
  match argv with
  | [] => ret tt
  | a :: argv =>
      let* e := f a in
      if e <? 0 then fprintf 2 msg [VStr a] else until_failure f msg argv
  end.

Definition mkdir_main (argv : list (list Z)) : M world unit :=
  match argv with
  | [] | [_] => fprintf 2 (ln "Usage: mkdir [-p] directories...") [] ;;; u_exit 1
  | _ :: a :: files =>
      (if is_arg "-p" a then
         match files with
         | [] => fprintf 2 (ln "mkdir: missing argument for -p") [] ;;; u_exit 1
         | _ => until_failure mkdir_p (ln "mkdir: %s failed to create") files
         end
       else until_failure (fun a => u_mkdir (cstr a)) (ln "mkdir: %s failed to create") (a :: files)) ;;;
      u_exit 0
  end.

(** ** rm, ln, kill, sleep *)

Definition rm_main (argv : list (list Z)) : M world unit :=
  if (length argv <? 2)%nat then fprintf 2 (ln "Usage: rm files...") [] ;;; u_exit 1 else
  until_failure (fun a => u_unlink (cstr a)) (ln "rm: %s failed to delete") (tail argv) ;;;
  u_exit 0.

Definition ln_main (argv : list (list Z)) : M world unit :=
  match argv with
  | [_; old; new] =>
      let* e := u_link (cstr old) (cstr new) in
      (if e <? 0 then fprintf 2 (ln "link %s %s: failed") [VStr old; VStr new] else ret tt) ;;;
      u_exit 0
  | _ => fprintf 2 (ln "Usage: ln old new") [] ;;; u_exit 1
  end.

Fixpoint kill_args (argv : list (list Z)) : M world unit :=
  match argv with [] => ret tt | a :: argv => u_kill (Ulib.atoi a) ;;; kill_args argv end.
Definition kill_main (argv : list (list Z)) : M world unit :=
  if (length argv <? 2)%nat then fprintf 2 (ln "usage: kill pid...") [] ;;; u_exit 1 else
  kill_args (tail argv) ;;;
  u_exit 0.

Definition sleep_main (argv : list (list Z)) : M world unit :=
  match argv with
  | _ :: a :: _ => let* r := u_sleep (i32 (Ulib.atoi a * 10)) in u_exit r
  | _ => fprintf 2 (ln "Sleep missing instruction ...") [] ;;; u_exit 1
  end.

(** ** init, zombie *)

Fixpoint init_wait (n : nat) (pid : Z) : M world unit :=
  match n with
  | O => fun _ => NoFuel
  | S n =>
      let* wpid := u_wait in
      if wpid =? pid then ret tt
      else if wpid <? 0 then printf (ln "init: wait returned an error") [] ;;; u_exit 1
      else init_wait n pid
  end.

(** The endless loop; [n] bounds the shells started, and the waits for each. *)
Fixpoint init_loop (n : nat) : M world unit :=
  match n with
  | O => fun _ => NoFuel
  | S n =>
      printf (ln "init: starting sh") [] ;;;
      let* pid := u_fork in
      (if pid <? 0 then printf (ln "init: fork failed") [] ;;; u_exit 1
       else if pid =? 0 then
         u_exec (str "sh") [str "sh"] ;;;
         printf (ln "init: exec sh failed") [] ;;;
         u_exit 1
       else ret tt) ;;;
      init_wait n pid ;;;
      init_loop n
  end.

Definition init_main (n : nat) : M world unit :=
  let* fd := u_open (str "console") O_RDWR in
  (if fd <? 0 then u_mknod (str "console") CONSOLE 0 ;;; u_open (str "console") O_RDWR ;;; ret tt else ret tt) ;;;
  u_dup 0 ;;;
  u_dup 0 ;;;
  init_loop n.

Definition zombie_main : M world unit :=
  let* pid := u_fork in
  (if 0 <? pid then u_sleep 5 ;;; ret tt else ret tt) ;;;
  u_exit 0.

(** ** ps *)

Definition isValidFlag (arg : list Z) : bool :=
  (strcmp (str "r") arg =? 0) || (strcmp (str "-l") arg =? 0) || (strcmp (str "-p") arg =? 0).
Definition isValidPidList (arg : list Z) : bool :=
  forallb (fun c => ((48 <=? c) && (c <=? 57)) || (c =? chr ",")) (cstr arg).
Definition printErr (msg : string) : M world unit :=
  printf (ln "error: %s") [VStr (str msg)] ;;;
  printf (ln "Usage:") [] ;;;
  printf (ln " ps [options]") [].

(** The index moves on by two after each flag. A list behind the last argument is read
    through the null pointer that ends [argv]. *)
Fixpoint ps_check (args : list (list Z)) : M world unit :=
  match args with
  | [] => ret tt
  | a :: rest =>
      if negb (isValidFlag a) then printErr "unsupported SysV option" ;;; u_exit 1
      else if is_arg "-p" a then
        match rest with
        | [] => u_undef
        | b :: rest =>
            if negb (isValidPidList b) then printErr "process ID list syntax error" ;;; u_exit 1
            else ps_check rest
        end
      else match rest with [] => ret tt | _ :: rest => ps_check rest end
  end.

Definition ps_main (argv : list (list Z)) : M world unit :=
  ps_check (tail argv) ;;;
  u_ps (Z.of_nat (length argv)) (cstr <$> argv) ;;;
  u_exit 0.

(** ** forktest, stressfs *)

Definition print (s : list Z) : M world unit := u_write 1 s ;;; ret tt.

(** The forks that succeeded, or [None] when all of them did. *)
Fixpoint fork_loop (todo : nat) (n : Z) : M world (option Z) :=
  match todo with
  | O => ret None
  | S todo =>
      let* pid := u_fork in
      if pid <? 0 then ret (Some n)
      else if pid =? 0 then u_exit 0
      else fork_loop todo (n + 1)
  end.
Fixpoint wait_loop (n : nat) : M world unit :=
  match n with
  | O => ret tt
  | S n => let* r := u_wait in if r <? 0 then print (ln "wait stopped early") ;;; u_exit 1 else wait_loop n
  end.

Definition forktest : M world unit :=
  print (ln "fork test") ;;;
  let* r := fork_loop (Z.to_nat 1000) 0 in
  match r with
  | None => print (ln "fork claimed to work N times!") ;;; u_exit 1
  | Some n =>
      wait_loop (Z.to_nat n) ;;;
      let* r := u_wait in
      (if negb (r =? -1) then print (ln "wait got too many") ;;; u_exit 1 else ret tt) ;;;
      print (ln "fork test OK")
  end.
Definition forktest_main : M world unit := forktest ;;; u_exit 0.

Fixpoint stress_forks (todo : nat) (i : Z) : M world Z :=
  match todo with
  | O => ret i
  | S todo => let* pid := u_fork in if 0 <? pid then ret i else stress_forks todo (i + 1)
  end.
Fixpoint repeat_call (n : nat) (m : M world unit) : M world unit :=
  match n with O => ret tt | S n => m ;;; repeat_call n m end.

Definition stressfs_main : M world unit :=
  printf (ln "stressfs starting") [] ;;;
  let data := replicate 512 (chr "a") in
  let* i := stress_forks 4 0 in
  printf (ln "write %d") [VInt i] ;;;
  let path := str "stressfs" ++ [chr "0" + i] in
  let* fd := u_open path (Z.lor O_CREATE O_RDWR) in
  repeat_call 20 (u_write fd data ;;; ret tt) ;;;
  u_close fd ;;;
  printf (ln "read") [] ;;;
  let* fd := u_open path O_RDONLY in
  repeat_call 20 (u_read fd 512 ;;; ret tt) ;;;
  u_close fd ;;;
  u_wait ;;;
  u_exit 0.

End Programs.

(** [ps] looks at every second argument only: what follows [-l] is not checked. *)
Lemma ps_skips_argument `{OS : Os} (a : list Z) : ps_check [str "-l"; a] = ret tt.
Proof. reflexivity. Qed.

(** ** The random numbers of user/grind.c *)

(** The new value of [*ctx], which is also the result. *)
Definition do_rand (ctx : Z) : Z :=
  let x := u64 ctx mod 0x7ffffffe + 1 in
  let hi := x / 127773 in
  let lo := x mod 127773 in
  let x := 16807 * lo - 2836 * hi in
  let x := if x <? 0 then x + 0x7fffffff else x in
  x - 1.

(** The multiplication without overflow is the one it stands for, and the number is in
    the range that the comment gives. *)
Lemma do_rand_spec ctx : do_rand ctx = (16807 * (u64 ctx mod 0x7ffffffe + 1)) mod 0x7fffffff - 1 /\ 0 <= do_rand ctx <= 0x7ffffffd.
Proof.
  unfold do_rand. set (x := u64 ctx mod 0x7ffffffe + 1). assert (Hx : 1 <= x <= 0x7ffffffe) by (unfold x; pose proof (Z.mod_pos_bound (u64 ctx) 0x7ffffffe ltac:(lia)); lia).
  pose proof (Z.div_mod x 127773 ltac:(lia)) as E. pose proof (Z.mod_pos_bound x 127773 ltac:(lia)) as Hlo.
  assert (Hhi : 0 <= x / 127773 < 16808) by (split; [apply Z.div_pos; lia | apply Z.div_lt_upper_bound; lia]).
  set (hi := x / 127773) in *. set (lo := x mod 127773) in *.
  assert (Em : (if 16807 * lo - 2836 * hi <? 0 then 16807 * lo - 2836 * hi + 0x7fffffff else 16807 * lo - 2836 * hi) = (16807 * x) mod 0x7fffffff).
  { destruct (Z.ltb_spec (16807 * lo - 2836 * hi) 0).
    - apply Z.mod_unique with (q := hi - 1); lia.
    - apply Z.mod_unique with (q := hi); lia. }
  rewrite Em. split; [done |]. pose proof (Z.mod_pos_bound (16807 * x) 0x7fffffff ltac:(lia)) as Hm.
  assert (Hnz : (16807 * x) mod 0x7fffffff <> 0).
  { intros Hz. apply Z.mod_divide in Hz; [| lia]. apply Z.gauss in Hz; [| reflexivity]. apply Z.divide_pos_le in Hz; lia. }
  lia.
Qed.
