(* ===== verification/Umalloc.v ===== *)
(** * user/umalloc.c: the memory allocator of user programs

    The heap is user memory from the static header [base] up to the break. A
    header is 16 bytes: the pointer to the next free block, and the size of the
    block, in units of 16 bytes, header included. The free blocks form a circular
    list in the order of their addresses. *)

From S2P Require Import Prelude Riscv Mem.

(** ** The code *)

Record uheap := mkUheap { uh_mem : mem; uh_freep : Z; uh_brk : Z }.
Definition set_uh_mem (m : mem) (s : uheap) : uheap := mkUheap m (uh_freep s) (uh_brk s).
Definition set_uh_freep (p : Z) (s : uheap) : uheap := mkUheap (uh_mem s) p (uh_brk s).
Definition set_uh_brk (b : Z) (s : uheap) : uheap := mkUheap (uh_mem s) (uh_freep s) b.

Definition HEADER : Z := 16.
Definition hdr_ptr (p : Z) : M uheap Z := gets (fun s => rd64 (uh_mem s) p).
Definition hdr_size (p : Z) : M uheap Z := gets (fun s => rd32 (uh_mem s) (p + 8)).
Definition set_ptr (p v : Z) : M uheap unit := modify (fun s => set_uh_mem (wr64 (uh_mem s) p v) s).
Definition set_size (p v : Z) : M uheap unit := modify (fun s => set_uh_mem (wr32 (uh_mem s) (p + 8) v) s).
Definition freep : M uheap Z := gets uh_freep.
Definition set_freep (p : Z) : M uheap unit := modify (set_uh_freep p).

(** Loops over the free list are bounded by the number of headers below the break. *)
Definition list_fuel : M uheap nat := gets (fun s => S (S (Z.to_nat (uh_brk s / HEADER)))).

Section Malloc.
(** The address of the static header, and whether the kernel can grow the process. *)
Context (base : Z) (grow_ok : Z -> Z -> bool).

(** The system call: the old break, or -1 with nothing changed. *)
Definition sbrk (n : Z) : M uheap Z := fun s =>
  if (0 <? n) && negb (grow_ok (uh_brk s) n) then Ok (-1) s else Ok (uh_brk s) (set_uh_brk (uh_brk s + n) s).

Fixpoint free_loop (fuel : nat) (bp p : Z) : M uheap Z :=
  match fuel with
  | O => fun _ => NoFuel
  | S fuel =>
      let* q := hdr_ptr p in
      if (p <? bp) && (bp <? q) then ret p
      else if (q <=? p) && ((p <? bp) || (bp <? q)) then ret p
      else free_loop fuel bp q
  end.

Definition free (ap : Z) : M uheap unit :=
  let bp := ap - HEADER in
  let* p := freep in
  let* fuel := list_fuel in
  let* p := free_loop fuel bp p in
  let* q := hdr_ptr p in
  let* size := hdr_size bp in
  (if bp + size * HEADER =? q then
     let* qsize := hdr_size q in
     set_size bp (u32 (size + qsize)) ;;;
     let* qq := hdr_ptr q in
     set_ptr bp qq
   else set_ptr bp q) ;;;
  let* psize := hdr_size p in
  (if p + psize * HEADER =? bp then
     let* size := hdr_size bp in
     set_size p (u32 (psize + size)) ;;;
     let* q := hdr_ptr bp in
     set_ptr p q
   else set_ptr p bp) ;;;
  set_freep p.

Definition morecore (nu : Z) : M uheap Z :=
  let nu := if nu <? 4096 then 4096 else nu in
  let* p := sbrk (i32 (nu * HEADER)) in
  if p =? -1 then ret 0 else
  set_size p nu ;;;
  free (p + HEADER) ;;;
  freep.

Fixpoint malloc_loop (fuel : nat) (nunits prevp p : Z) : M uheap Z :=
  match fuel with
  | O => fun _ => NoFuel
  | S fuel =>
      let* size := hdr_size p in
      if nunits <=? size then
        let* p :=
          (if size =? nunits then
             let* q := hdr_ptr p in
             set_ptr prevp q ;;;
             ret p
           else
             set_size p (size - nunits) ;;;
             let p := p + (size - nunits) * HEADER in
             set_size p nunits ;;;
             ret p) in
        set_freep prevp ;;;
        ret (p + HEADER)
      else
        let* fp := freep in
        if p =? fp then
          let* p := morecore nunits in
          if p =? 0 then ret 0
          else let* q := hdr_ptr p in malloc_loop fuel nunits p q
        else let* q := hdr_ptr p in malloc_loop fuel nunits p q
  end.

Definition malloc (nbytes : Z) : M uheap Z :=
  let nunits := u32 ((nbytes + HEADER - 1) / HEADER + 1) in
  let* fp := freep in
  let* prevp :=
    (if fp =? 0 then set_freep base ;;; set_ptr base base ;;; set_size base 0 ;;; ret base
     else ret fp) in
  let* fuel := list_fuel in
  let* p := hdr_ptr prevp in
  malloc_loop (fuel + S fuel) nunits prevp p.

End Malloc.

(** ** The free list *)

(** A block: the address of its header and its size in units. *)
Abbreviation block := (Z * Z)%type.

Definition first (l : list block) (e : Z) : Z := match l with [] => e | b :: _ => b.1 end.

(** The blocks of [l] are linked in this order, and the last one to [e]. *)
Fixpoint seg (m : mem) (l : list block) (e : Z) : Prop :=
  match l with
  | [] => True
  | b :: l => rd64 m b.1 = first l e /\ rd32 m (b.1 + 8) = b.2 /\ seg m l e
  end.

Lemma first_app l1 l2 e : first (l1 ++ l2) e = first l1 (first l2 e).
Proof. by destruct l1. Qed.

Lemma seg_app m l1 l2 e : seg m (l1 ++ l2) e <-> seg m l1 (first l2 e) /\ seg m l2 e.
Proof.
  induction l1 as [| b l1 IH]; cbn [seg app]; [tauto |]. rewrite IH, first_app. tauto.
Qed.

(** [m'] has the header [a] of [m]. *)
Definition same_hdr (m m' : mem) (a : Z) : Prop := rd64 m' a = rd64 m a /\ rd32 m' (a + 8) = rd32 m (a + 8).

Lemma seg_frame m m' l e : Forall (fun b => same_hdr m m' b.1) l -> seg m l e -> seg m' l e.
Proof.
  induction 1 as [| b l [H1 H2] _ IH]; cbn [seg]; [done |]. intros (E1 & E2 & Hs). split_and!; [congruence | congruence | auto].
Qed.

Lemma same_hdr_ext m m' a : (forall x, a <= x < a + HEADER -> rd8 m' x = rd8 m x) -> same_hdr m m' a.
Proof.
  unfold HEADER. intros Hx. split; [apply rd64_ext | apply rd_le_ext]; intros; apply Hx; lia.
Qed.

Lemma same_hdr_out m p v b : b + HEADER <= p \/ p + HEADER <= b ->
  same_hdr m (wr64 m p v) b /\ same_hdr m (wr32 m (p + 8) v) b.
Proof.
  unfold HEADER. intros Ho. split; apply same_hdr_ext; unfold HEADER; intros x Hx; [apply rd8_wr64_out; lia | apply rd8_wr_le_out; lia].
Qed.

Lemma same_hdr_trans m1 m2 m3 a : same_hdr m1 m2 a -> same_hdr m2 m3 a -> same_hdr m1 m3 a.
Proof. unfold same_hdr. intuition congruence. Qed.

(** The two fields of a header are apart. *)
Lemma hdr_fields m p v : rd32 (wr64 m p v) (p + 8) = rd32 m (p + 8) /\ rd64 (wr32 m (p + 8) v) p = rd64 m p.
Proof. split; [apply rd_le_ext; intros; apply rd8_wr64_out; lia | apply rd64_ext; intros; apply rd8_wr_le_out; lia]. Qed.

Lemma rd32_wr32_eq m a v : 0 <= v < 2^32 -> rd32 (wr32 m a v) a = v.
Proof. intros Hv. unfold rd32, wr32. rewrite rd_le_wr_le. apply Z.mod_small. exact Hv. Qed.

(** Ascending addresses, with room for a header. *)
Fixpoint asc (lo : Z) (l : list block) : Prop :=
  match l with [] => True | b :: l => lo + HEADER <= b.1 /\ asc b.1 l end.

Lemma asc_app lo l1 l2 : asc lo (l1 ++ l2) <-> asc lo l1 /\ asc (default lo (fst <$> last l1)) l2.
Proof.
  revert lo. induction l1 as [| b l1 IH]; intros lo; cbn [asc app]; [cbn; tauto |]. rewrite IH.
  destruct l1 as [| c l1]; [cbn; tauto |]. rewrite last_cons_cons. 
  destruct (last_is_Some (c :: l1)) as [_ [x ->]]; [done |]. cbn. tauto.
Qed.

Lemma asc_above lo l b : asc lo l -> b ∈ l -> lo + HEADER <= b.1.
Proof.
  revert lo. induction l as [| c l IH]; intros lo; cbn [asc]; [by intros _ ?%elem_of_nil |].
  intros [H1 H2] [-> | Hb]%elem_of_cons; [done |]. specialize (IH _ H2 Hb). unfold HEADER in *. lia.
Qed.

(** ** Disjoint blocks *)

Definition disj (x y : block) : Prop := x.1 + HEADER * x.2 <= y.1 \/ y.1 + HEADER * y.2 <= x.1.

Fixpoint disjs (l : list block) : Prop :=
  match l with [] => True | x :: l => Forall (disj x) l /\ disjs l end.

#[global] Instance disj_sym : Symmetric disj.
Proof. intros x y. unfold disj. tauto. Qed.

#[global] Instance disjs_perm : Proper ((≡ₚ) ==> iff) disjs.
Proof.
  assert (Himp : forall l l', l ≡ₚ l' -> disjs l -> disjs l').
  { induction 1 as [| x l l' Hp IH | x y l | l1 l2 l3 H1 IH1 H2 IH2]; cbn [disjs]; [done | | | auto].
    - intros [Hx Hd]. split; [by rewrite <- Hp | by apply IH].
    - rewrite !Forall_cons. pose proof (disj_sym x y). pose proof (disj_sym y x). tauto. }
  intros l l' Hp. split; apply Himp; [done | by symmetry].
Qed.

(** Two adjacent blocks joined. *)
Lemma disjs_join a s1 s2 l : 1 <= s1 -> 1 <= s2 -> Forall (fun b : block => 1 <= b.2) l ->
  disjs ((a, s1) :: (a + HEADER * s1, s2) :: l) -> disjs ((a, s1 + s2) :: l).
Proof.
  intros H1 H2 Hl. cbn [disjs]. rewrite Forall_cons. intros ((_ & Ha) & Hb & Hd). split; [| done].
  rewrite Forall_forall in *. intros y Hy. specialize (Ha y Hy). specialize (Hb y Hy). specialize (Hl y Hy).
  unfold disj, HEADER in *. cbn [fst snd] in *. lia.
Qed.

(** A block cut in two. *)
Lemma disjs_cut a s1 s2 l : 1 <= s1 -> 1 <= s2 ->
  disjs ((a, s1 + s2) :: l) -> disjs ((a, s1) :: (a + HEADER * s1, s2) :: l).
Proof.
  intros H1 H2. cbn [disjs]. rewrite Forall_cons. intros (Ha & Hd). split_and!; try done.
  - left. cbn. lia.
  - eapply Forall_impl; [exact Ha |]. intros y. unfold disj, HEADER. cbn. lia.
  - eapply Forall_impl; [exact Ha |]. intros y. unfold disj, HEADER. cbn. lia.
Qed.

(** ** The heap *)

Section Heap.
Context (base : Z) (grow_ok : Z -> Z -> bool).

(** The free blocks are the header [base] and [rest]; [live] are the blocks in use. *)
Record heap_inv (s : uheap) (rest live : list block) : Prop := {
  hi_base : 0 < base;
  hi_brk : base + HEADER <= uh_brk s <= 2^36;
  hi_seg : seg (uh_mem s) ((base, 0) :: rest) base;
  hi_asc : asc base rest;
  hi_disj : disjs (rest ++ live);
  hi_range : Forall (fun b => base + HEADER <= b.1 /\ 1 <= b.2 /\ b.1 + HEADER * b.2 <= uh_brk s) (rest ++ live);
  hi_live : Forall (fun b => rd32 (uh_mem s) (b.1 + 8) = b.2) live;
  hi_freep : exists sz, (uh_freep s, sz) ∈ (base, 0) :: rest }.

(** The search of [free] stops at the last free block below [bp]. *)
Section Search.
Context (s : uheap) (r1 r2 : list block) (bp : Z).
Hypothesis Hseg : seg (uh_mem s) (((base, 0) :: r1) ++ r2) base.
Hypothesis Hasc : asc base (r1 ++ r2).
Hypothesis Hlow : Forall (fun b => b.1 < bp) r1.
Hypothesis Hhigh : Forall (fun b => bp < b.1) r2.
Hypothesis Hbp : base < bp.

Lemma search_low l2 : forall fuel l1 c cs, (base, 0) :: r1 = l1 ++ (c, cs) :: l2 -> (length l2 < fuel)%nat ->
  free_loop fuel bp c s = Ok (default c (fst <$> last l2)) s.
Proof.
  induction l2 as [| [d ds] l2 IH]; intros fuel l1 c cs E Hf; (destruct fuel as [| fuel]; [simpl in Hf; lia |]).
  all: pose proof Hseg as Hs; rewrite E, <- app_assoc in Hs; apply seg_app in Hs as [_ Hs]; cbn [seg app fst] in Hs; destruct Hs as (Eq & _ & _).
  all: assert (Hc : c < bp) by (assert (Hin : (c, cs) ∈ (base, 0) :: r1) by (rewrite E; set_solver);
    apply elem_of_cons in Hin as [[= -> _] | Hin]; [done | exact (proj1 (Forall_forall _ _) Hlow _ Hin)]).
  all: cbn [free_loop]; unfold bind at 1, hdr_ptr, gets; cbn [obind]; rewrite Eq; cbn [first fst app].
  - rewrite (proj2 (Z.ltb_lt c bp) Hc). cbn [andb orb]. destruct r2 as [| [q qs] r2']; cbn [first fst].
    + destruct (Z.ltb_spec bp base); [lia |]. rewrite (proj2 (Z.leb_le base c)); [done |].
      assert (Hin : (c, cs) ∈ (base, 0) :: r1) by (rewrite E; set_solver).
      apply elem_of_cons in Hin as [[= -> _] | Hin]; [done |]. apply asc_app in Hasc as [Ha _]. pose proof (asc_above _ _ _ Ha Hin). unfold HEADER in *. cbn in *. lia.
    + apply Forall_cons in Hhigh as [Hq _]. cbn in Hq. by rewrite (proj2 (Z.ltb_lt bp q) Hq).
  - assert (Hd : c + HEADER <= d /\ d < bp).
    { destruct l1 as [| b l1]; [injection E as <- _ Er | injection E as _ Er].
      - rewrite Er in Hlow, Hasc. apply Forall_cons in Hlow as [Hd _]. cbn [asc app fst] in Hasc. cbn in Hd. tauto.
      - rewrite Er in Hlow, Hasc. apply Forall_app in Hlow as [_ Hl]. apply Forall_cons in Hl as [_ Hl]. apply Forall_cons in Hl as [Hd _].
        apply asc_app in Hasc as [Ha _]. apply asc_app in Ha as [_ Ha]. cbn [asc fst] in Ha. cbn in Hd. tauto. }
    unfold HEADER in Hd. rewrite (proj2 (Z.ltb_ge bp d)), andb_false_r, (proj2 (Z.leb_gt d c)) by lia. cbn [andb].
    rewrite (IH fuel (l1 ++ [(c, cs)]) d ds); [| by rewrite <- app_assoc | simpl in Hf; lia].
    destruct l2 as [| e l2]; [done |]. rewrite last_cons_cons. by destruct (proj2 (last_is_Some (e :: l2)) ltac:(done)) as [z ->].
Qed.

Lemma search_high y : forall fuel x c cs, r2 = x ++ (c, cs) :: y -> (length y + S (length r1) < fuel)%nat ->
  free_loop fuel bp c s = Ok (default base (fst <$> last r1)) s.
Proof.
  induction y as [| [d ds] y IH]; intros fuel x c cs E Hf; (destruct fuel as [| fuel]; [simpl in Hf; lia |]).
  all: pose proof Hseg as Hs; apply seg_app in Hs as [_ Hs]; rewrite E in Hs; apply seg_app in Hs as [_ Hs]; cbn [seg fst] in Hs; destruct Hs as (Eq & _ & _).
  all: assert (Hc : bp < c) by (rewrite E in Hhigh; apply Forall_app in Hhigh as [_ Hh]; apply Forall_cons in Hh as [Hh _]; exact Hh).
  all: cbn [free_loop]; unfold bind at 1, hdr_ptr, gets; cbn [obind]; rewrite Eq; cbn [first fst].
  all: rewrite (proj2 (Z.ltb_ge c bp)) by lia; cbn [andb orb].
  - rewrite (proj2 (Z.ltb_ge bp base)), andb_false_r by lia. apply (search_low r1 fuel [] base 0); [done | simpl in Hf; lia].
  - assert (Hd : c + HEADER <= d).
    { rewrite E in Hasc. apply asc_app in Hasc as [_ Ha]. apply asc_app in Ha as [_ Ha]. cbn [asc fst] in Ha. tauto. }
    unfold HEADER in Hd. rewrite (proj2 (Z.leb_gt d c)) by lia. cbn [andb].
    apply (IH fuel (x ++ [(c, cs)]) d ds); [by rewrite <- app_assoc, E | simpl in Hf; lia].
Qed.

(** From any free block. *)
Lemma search_run fuel c cs : (c, cs) ∈ ((base, 0) :: r1) ++ r2 -> (length r1 + length r2 + 2 < fuel)%nat ->
  free_loop fuel bp c s = Ok (default base (fst <$> last r1)) s.
Proof.
  intros [Hc | Hc]%elem_of_app Hf.
  - apply list_elem_of_split in Hc as (l1 & l2 & E). rewrite (search_low l2 fuel l1 c cs E).
    + destruct l1 as [| b l1]; [injection E as <- _ <-; done | injection E as _ Er]. subst r1.
      rewrite last_app_cons. destruct l2 as [| d l2]; [done |]. rewrite last_cons_cons.
      by destruct (proj2 (last_is_Some (d :: l2)) ltac:(done)) as [z ->].
    + apply (f_equal length) in E. rewrite length_app in E. simpl in E. lia.
  - apply list_elem_of_split in Hc as (x & y & E). apply (search_high y fuel x c cs E). apply (f_equal length) in E. rewrite length_app in E. simpl in E. lia.
Qed.

End Search.

(** ** free *)

Definition in_heap (brk : Z) (b : block) : Prop := base + HEADER <= b.1 /\ 1 <= b.2 /\ b.1 + HEADER * b.2 <= brk.

Lemma asc_split lo l bp : asc lo l -> Forall (fun b => b.1 <> bp) l ->
  exists r1 r2, l = r1 ++ r2 /\ Forall (fun b => b.1 < bp) r1 /\ Forall (fun b => bp < b.1) r2.
Proof.
  revert lo. induction l as [| b l IH]; intros lo Ha Hn; [by exists [], [] |]. cbn [asc] in Ha. destruct Ha as [_ Ha].
  apply Forall_cons in Hn as [Hb Hn]. destruct (decide (b.1 < bp)) as [Hlt | Hge].
  - destruct (IH _ Ha Hn) as (r1 & r2 & -> & H1 & H2). exists (b :: r1), r2. split_and!; [done | by apply Forall_cons | done].
  - exists [], (b :: l). split_and!; [done | done |]. apply Forall_cons. split; [lia |]. apply Forall_forall. intros c Hc.
    pose proof (asc_above _ _ _ Ha Hc). unfold HEADER in *. lia.
Qed.

(** A list is ascending when its parts are, on both sides of [bp]. *)
Lemma asc_insert lo r1 r2 bp n : asc lo (r1 ++ r2) -> lo + HEADER <= bp -> Forall (fun b => b.1 + HEADER <= bp) r1 ->
  Forall (fun b => bp + HEADER <= b.1) r2 -> asc lo (r1 ++ (bp, n) :: r2).
Proof.
  intros Ha Hlo H1 H2. apply asc_app in Ha as [A1 A2]. apply asc_app. split; [done |]. cbn [asc fst]. split.
  - destruct (last r1) as [b |] eqn:E; [| done]. cbn. rewrite Forall_forall in H1. apply H1. by apply last_Some_elem_of.
  - destruct r2 as [| b r2]; [done |]. cbn [asc] in *. apply Forall_cons in H2 as [H2 _]. tauto.
Qed.

Lemma disjs_elem x l y : disjs (x :: l) -> y ∈ l -> disj x y.
Proof. intros [H _] Hy. exact (proj1 (Forall_forall _ _) H y Hy). Qed.

(** The memory outside the header [a] is that of [m]. *)
Definition but_hdr (a : Z) (m m' : mem) : Prop := forall x, x < a \/ a + HEADER <= x -> rd8 m' x = rd8 m x.

Lemma but_hdr_ptr a m v : but_hdr a m (wr64 m a v).
Proof. unfold but_hdr, HEADER. intros x Hx. apply rd8_wr64_out. lia. Qed.
Lemma but_hdr_size a m v : but_hdr a m (wr32 m (a + 8) v).
Proof. unfold but_hdr, HEADER. intros x Hx. apply rd8_wr_le_out. lia. Qed.
Lemma but_hdr_trans a m1 m2 m3 : but_hdr a m1 m2 -> but_hdr a m2 m3 -> but_hdr a m1 m3.
Proof. intros H1 H2 x Hx. by rewrite H2, H1. Qed.
Lemma but_hdr_same a m m' b : but_hdr a m m' -> b + HEADER <= a \/ a + HEADER <= b -> same_hdr m m' b.
Proof. intros Hb Ho. apply same_hdr_ext. intros x Hx. apply Hb. unfold HEADER in *. lia. Qed.

(** The block [bp], of [bs] units, joined with the one above it. *)
Lemma free_right s r1 r2 live bp bs (m := uh_mem s) : base + HEADER <= uh_brk s <= 2^36 -> 0 < base ->
  seg m r2 base -> asc base (r1 ++ r2) -> disjs ((bp, bs) :: r1 ++ r2 ++ live) -> Forall (in_heap (uh_brk s)) ((bp, bs) :: r1 ++ r2 ++ live) ->
  rd32 m (bp + 8) = bs -> Forall (fun b => b.1 < bp) r1 -> Forall (fun b => bp < b.1) r2 ->
  exists m1 nbs r2n,
    (if bp + bs * HEADER =? first r2 base then
       let* qsize := hdr_size (first r2 base) in
       set_size bp (u32 (bs + qsize)) ;;;
       let* qq := hdr_ptr (first r2 base) in
       set_ptr bp qq
     else set_ptr bp (first r2 base)) s = Ok tt (set_uh_mem m1 s) /\
    but_hdr bp m m1 /\ rd64 m1 bp = first r2n base /\ rd32 m1 (bp + 8) = nbs /\ bs <= nbs /\ seg m r2n base /\
    asc base (r1 ++ (bp, nbs) :: r2n) /\ disjs ((bp, nbs) :: r1 ++ r2n ++ live) /\
    Forall (in_heap (uh_brk s)) ((bp, nbs) :: r1 ++ r2n ++ live) /\ Forall (fun b => bp + HEADER <= b.1) r2n /\ (length r2n <= length r2)%nat.
Proof.
  intros Hbrk Hb0 Hseg Hasc Hdis Hran Hsz Hlow Hhigh. pose proof Hran as [(Hb1 & Hb2 & Hb3) Hran2]%Forall_cons. cbn [fst snd] in *.
  assert (Hlow' : Forall (fun b => b.1 + HEADER <= bp) r1).
  { rewrite Forall_forall in *. intros b Hb. pose proof (disjs_elem _ _ b Hdis ltac:(set_solver)) as Hd. specialize (Hlow b Hb).
    destruct (Hran2 b ltac:(set_solver)) as (_ & ? & _). unfold disj, HEADER in *. cbn [fst snd] in Hd. lia. }
  assert (Hhigh' : Forall (fun b => bp + HEADER * bs <= b.1) r2).
  { rewrite Forall_forall in *. intros b Hb. pose proof (disjs_elem _ _ b Hdis ltac:(set_solver)) as Hd. specialize (Hhigh b Hb).
    destruct (Hran2 b ltac:(set_solver)) as (_ & ? & _). unfold disj, HEADER in *. cbn [fst snd] in Hd. lia. }
  assert (Hh2 : Forall (fun b => bp + HEADER <= b.1) r2) by (eapply Forall_impl; [exact Hhigh' |]; intros b Hb; unfold HEADER in *; lia).
  destruct (Z.eqb_spec (bp + bs * HEADER) (first r2 base)) as [E | E].
  - destruct r2 as [| [q qs] r2]; cbn [first fst] in *; [unfold HEADER in *; lia |]. cbn [seg fst snd] in Hseg. destruct Hseg as (S1 & S2 & S3).
    apply Forall_cons in Hh2 as [Hq Hh2]. cbn in Hq. rewrite Forall_app in Hran2. destruct Hran2 as [R1 R2].
    cbn [app] in R2. apply Forall_cons in R2 as [(Hq1 & Hq2 & Hq3) R2]. cbn [fst snd] in *.
    assert (Eu : u32 (bs + qs) = bs + qs) by (apply Z.mod_small; unfold HEADER in *; lia).
    exists (wr64 (wr32 m (bp + 8) (bs + qs)) bp (first r2 base)), (bs + qs), r2. split.
    { unfold bind, hdr_size, hdr_ptr, set_size, set_ptr, gets, modify. cbn [obind uh_mem set_uh_mem]. fold m. rewrite S2, Eu.
      destruct (same_hdr_out m bp (bs + qs) q) as [_ [-> _]]; [unfold HEADER in *; lia |]. by rewrite S1. }
    assert (Hfr : 0 <= first r2 base < 2^64).
    { destruct r2 as [| [z zs] r2]; cbn [first fst]; [unfold HEADER in *; lia |]. apply Forall_cons in R2 as [(Z1 & Z2 & Z3) _]. cbn [fst snd] in *. unfold HEADER in *. lia. }
    split_and!.
    + eapply but_hdr_trans; [apply but_hdr_size | apply but_hdr_ptr].
    + by apply rd64_wr64_eq.
    + destruct (hdr_fields (wr32 m (bp + 8) (bs + qs)) bp (first r2 base)) as [-> _]. apply rd32_wr32_eq. unfold HEADER in *. lia.
    + lia.
    + done.
    + apply asc_insert; [| done | done | done]. apply asc_app in Hasc as [A1 A2]. cbn [asc fst] in A2. apply asc_app. split; [done |].
      destruct r2 as [| z r2]; [done |]. cbn [asc] in *. unfold HEADER in *. split; [lia | tauto].
    + apply disjs_join; [done | done | |].
      * eapply Forall_impl; [apply Forall_app; exact (conj R1 R2) |]. by intros b (_ & ? & _).
      * replace (bp + HEADER * bs) with q by (unfold HEADER in *; lia). cbn [app] in Hdis. rewrite <- Permutation_middle in Hdis. exact Hdis.
    + apply Forall_cons. split; [| by apply Forall_app]. unfold in_heap, HEADER in *. cbn [fst snd]. lia.
    + done.
    + simpl. lia.
  - exists (wr64 m bp (first r2 base)), bs, r2. split; [done |].
    assert (Hfr : 0 <= first r2 base < 2^64).
    { destruct r2 as [| [z zs] r2]; cbn [first fst]; [unfold HEADER in *; lia |]. rewrite !Forall_app in Hran2. destruct Hran2 as (_ & R2 & _).
      apply Forall_cons in R2 as [(Z1 & Z2 & Z3) _]. cbn [fst snd] in *. unfold HEADER in *. lia. }
    split_and!; try done; [apply but_hdr_ptr | by apply rd64_wr64_eq | by rewrite (proj1 (hdr_fields m bp _)) | apply asc_insert; done].
Qed.

Lemma seg_replace m m' pre p ps old new ps' : seg m (pre ++ (p, ps) :: old) base -> rd64 m' p = first new base -> rd32 m' (p + 8) = ps' ->
  seg m' new base -> Forall (fun b => same_hdr m m' b.1) pre -> seg m' (pre ++ (p, ps') :: new) base.
Proof.
  intros Hs H1 H2 Hn Hp. apply seg_app in Hs as [Hs _]. apply seg_app. split; [| by cbn [seg fst snd]]. by apply (seg_frame m).
Qed.

(** The rest of [free]: the block is linked after [p], or joined with it. *)
Lemma free_left s1 pre p ps r2 bp nbs (m1 := uh_mem s1) : 0 <= bp < 2^64 -> 0 <= ps -> 0 <= nbs -> ps + nbs < 2^32 -> 0 <= first r2 base < 2^64 ->
  p + HEADER <= bp -> rd32 m1 (p + 8) = ps -> rd64 m1 bp = first r2 base -> rd32 m1 (bp + 8) = nbs ->
  exists m2, (let* psize := hdr_size p in
    (if p + psize * HEADER =? bp then
       let* size := hdr_size bp in
       set_size p (u32 (psize + size)) ;;;
       let* q := hdr_ptr bp in
       set_ptr p q
     else set_ptr p bp) ;;;
    set_freep p) s1 = Ok tt (set_uh_freep p (set_uh_mem m2 s1)) /\
    but_hdr p m1 m2 /\
    (if p + ps * HEADER =? bp then rd64 m2 p = first r2 base /\ rd32 m2 (p + 8) = ps + nbs else rd64 m2 p = bp /\ rd32 m2 (p + 8) = ps) /\
    (forall q e, seg m1 (pre ++ (p, ps) :: q) e -> Forall (fun b => same_hdr m1 m2 b.1) pre -> seg m2 pre p).
Proof.
  intros Hbp Hps Hnbs Hsum Hfr Happ E1 E2 E3. unfold bind at 1, hdr_size at 1, gets. cbn [obind]. fold m1. rewrite E1.
  assert (Hpre : forall m2 q e, seg m1 (pre ++ (p, ps) :: q) e -> Forall (fun b => same_hdr m1 m2 b.1) pre -> seg m2 pre p).
  { intros m2 q e [Hs _]%seg_app Hf. by apply (seg_frame m1). }
  destruct (Z.eqb_spec (p + ps * HEADER) bp) as [E | E].
  - exists (wr64 (wr32 m1 (p + 8) (ps + nbs)) p (first r2 base)).
    assert (Eu : u32 (ps + nbs) = ps + nbs) by (apply Z.mod_small; lia). split_and!; [| | | |].
    + unfold bind, hdr_size, hdr_ptr, set_size, set_ptr, set_freep, gets, modify. cbn [obind uh_mem set_uh_mem]. fold m1. rewrite E3, Eu.
      destruct (same_hdr_out m1 p (ps + nbs) bp) as [_ [-> _]]; [unfold HEADER in *; lia |]. by rewrite E2.
    + eapply but_hdr_trans; [apply but_hdr_size | apply but_hdr_ptr].
    + by apply rd64_wr64_eq.
    + destruct (hdr_fields (wr32 m1 (p + 8) (ps + nbs)) p (first r2 base)) as [-> _]. apply rd32_wr32_eq. lia.
    + apply Hpre.
  - exists (wr64 m1 p bp). split_and!; [done | apply but_hdr_ptr | by apply rd64_wr64_eq | by rewrite (proj1 (hdr_fields m1 p _)) | apply Hpre].
Qed.

Lemma asc_length lo l hi : asc lo l -> Forall (fun b => b.1 + HEADER <= hi) l -> lo + HEADER <= hi ->
  lo + HEADER * (Z.of_nat (length l) + 1) <= hi.
Proof.
  revert lo. induction l as [| b l IH]; intros lo; cbn [asc length]; [unfold HEADER; lia |]. intros [Hb Ha] [Hh Hl]%Forall_cons _.
  specialize (IH _ Ha Hl Hh). unfold HEADER in *. lia.
Qed.

Lemma heap_length s rest live : heap_inv s rest live -> (S (length rest) <= Z.to_nat (uh_brk s / HEADER))%nat.
Proof.
  intros [H0 H1 _ Ha _ Hr _ _]. apply Forall_app in Hr as [Hr _].
  assert (base + HEADER * (Z.of_nat (length rest) + 1) <= uh_brk s).
  { apply asc_length; [done | | lia]. eapply Forall_impl; [exact Hr |]. intros b (_ & ? & ?). unfold HEADER in *. lia. }
  assert (Z.of_nat (length rest) + 1 <= uh_brk s / HEADER) by (apply Z.div_le_lower_bound; [done | lia]). lia.
Qed.

Lemma asc_drop lo l1 p a bp b c l2 : asc lo (l1 ++ (p, a) :: (bp, b) :: l2) -> asc lo (l1 ++ (p, c) :: l2).
Proof.
  intros [A1 A2]%asc_app. apply asc_app. split; [done |]. cbn [asc fst] in *. split; [tauto |]. destruct l2 as [| z l2]; [done |].
  cbn [asc] in *. unfold HEADER in *. split; [lia | tauto].
Qed.

(** The last free block below [bp]. *)
Lemma last_low r1 (p := default base (fst <$> last r1)) : exists pre ps, (base, 0) :: r1 = pre ++ [(p, ps)] /\
  (r1 = [] /\ pre = [] /\ p = base /\ ps = 0 \/ exists r1', r1 = r1' ++ [(p, ps)] /\ pre = (base, 0) :: r1').
Proof.
  subst p. destruct r1 as [| b r1 _] using rev_ind; cbn.
  - exists [], 0. split; [done | by left].
  - rewrite last_snoc. destruct b as [p ps]. cbn. exists ((base, 0) :: r1), ps. split; [done |]. right. by exists r1.
Qed.

Lemma asc_before lo l p ps : asc lo (l ++ [(p, ps)]) -> lo + HEADER <= p /\ Forall (fun b => b.1 + HEADER <= p) l.
Proof.
  revert lo. induction l as [| b l IH]; intros lo; cbn [asc app fst]; [intros [? _]; split; [done | constructor] |].
  intros [Hb Ha]. destruct (IH _ Ha) as [H1 H2]. split; [unfold HEADER in *; lia |]. by apply Forall_cons.
Qed.

(** The list after [free], from its parts: [pre] is kept, and [(p, ps')] is followed by [new]. *)
Lemma free_seg m m2 pre p ps ps' old new : seg m (pre ++ (p, ps) :: old) base -> rd64 m2 p = first new base -> rd32 m2 (p + 8) = ps' ->
  Forall (fun b => same_hdr m m2 b.1) pre -> seg m2 new base -> seg m2 (pre ++ (p, ps') :: new) base.
Proof. intros. by eapply seg_replace. Qed.

(** What [free] keeps of a live block. *)
Lemma live_keep m m2 p bp live brk : (forall x, (x < bp \/ bp + HEADER <= x) -> (x < p \/ p + HEADER <= x) -> rd8 m2 x = rd8 m x) ->
  Forall (in_heap brk) live -> Forall (fun b => b.1 + HEADER * b.2 <= bp \/ bp + HEADER <= b.1) live ->
  Forall (fun b => b.1 + HEADER * b.2 <= p \/ p + HEADER <= b.1) live -> Forall (fun b => rd32 m (b.1 + 8) = b.2) live ->
  Forall (fun b => rd32 m2 (b.1 + 8) = b.2) live /\
  forall b x, b ∈ live -> b.1 <= x < b.1 + HEADER * b.2 -> rd8 m2 x = rd8 m x.
Proof.
  rewrite !Forall_forall. intros Hk Hr Hb Hp Hl.
  assert (Hx : forall b x, b ∈ live -> b.1 <= x < b.1 + HEADER * b.2 -> rd8 m2 x = rd8 m x).
  { intros b x Hin Hx. specialize (Hb b Hin). specialize (Hp b Hin). apply Hk; unfold HEADER in *; lia. }
  split; [| done]. intros b Hin. rewrite <- (Hl b Hin). apply rd_le_ext. intros x Hx'. apply (Hx b x Hin).
  destruct (Hr b Hin) as (_ & ? & _). unfold HEADER in *. lia.
Qed.

Lemma disj_apart x l brk : disjs (x :: l) -> Forall (in_heap brk) (x :: l) ->
  Forall (fun b => b.1 + HEADER * b.2 <= x.1 \/ x.1 + HEADER <= b.1) l.
Proof.
  intros Hd [(_ & Hx & _) Hr]%Forall_cons. apply Forall_forall. intros b Hb. pose proof (disjs_elem _ _ b Hd Hb) as H.
  rewrite Forall_forall in Hr. destruct (Hr b Hb) as (_ & ? & _). unfold disj, HEADER in *. lia.
Qed.

(** The heap once [(bp, nbs)] has been linked after [p] or joined with it. *)
Lemma free_close s m1 pre p ps r1 r2 r2n bp nbs live : 0 < base -> base + HEADER <= uh_brk s <= 2^36 ->
  seg (uh_mem s) (pre ++ (p, ps) :: r2) base -> (base, 0) :: r1 = pre ++ [(p, ps)] ->
  (r1 = [] /\ pre = [] /\ p = base /\ ps = 0 \/ exists r1', r1 = r1' ++ [(p, ps)] /\ pre = (base, 0) :: r1') ->
  Forall (fun b => rd32 (uh_mem s) (b.1 + 8) = b.2) live ->
  but_hdr bp (uh_mem s) m1 -> rd64 m1 bp = first r2n base -> rd32 m1 (bp + 8) = nbs -> seg (uh_mem s) r2n base ->
  asc base (r1 ++ (bp, nbs) :: r2n) -> disjs ((bp, nbs) :: r1 ++ r2n ++ live) ->
  Forall (in_heap (uh_brk s)) ((bp, nbs) :: r1 ++ r2n ++ live) -> Forall (fun b => bp + HEADER <= b.1) r2n ->
  exists s' rest', (let* psize := hdr_size p in
    (if p + psize * HEADER =? bp then
       let* size := hdr_size bp in
       set_size p (u32 (psize + size)) ;;;
       let* q := hdr_ptr bp in
       set_ptr p q
     else set_ptr p bp) ;;;
    set_freep p) (set_uh_mem m1 s) = Ok tt s' /\ heap_inv s' rest' live /\ uh_brk s' = uh_brk s /\
    (exists b, b ∈ rest' /\ nbs <= b.2) /\ (length rest' <= S (length r1 + length r2n))%nat /\
    (forall b x, b ∈ live -> b.1 <= x < b.1 + HEADER * b.2 -> rd8 (uh_mem s') x = rd8 (uh_mem s) x).
Proof.
  intros Hb0 Hbrk Hseg Epre Hpre Hlive K1 F1 F2 Sn An Dn Rn Hn. pose proof Rn as [(Hp1 & Hp2 & Hp3) Rn2]%Forall_cons. cbn [fst snd] in *.
  pose proof Rn2 as [Rr1 [Rr2 Rl]%Forall_app]%Forall_app. pose proof (disj_apart _ _ _ Dn Rn) as Hap. cbn [fst] in Hap.
  apply Forall_app in Hap as [Hap1 Hap]. apply Forall_app in Hap as [_ Hapl].
  (* p is below bp *)
  assert (Hpre2 : p + HEADER <= bp /\ 0 <= ps /\ ps + nbs < 2^32 /\ Forall (fun b => b.1 + HEADER <= p) pre /\
    Forall (fun b => b.1 + HEADER * b.2 <= p \/ p + HEADER <= b.1) live).
  { pose proof An as [A1 [A2 _]]%asc_app. destruct Hpre as [(-> & -> & -> & ->) | (r1' & -> & ->)].
    - split_and!; [done | done | unfold HEADER in *; lia | done |]. eapply Forall_impl; [exact Rl |]. intros b (? & _). right. done.
    - rewrite last_snoc in A2. cbn in A2. apply Forall_app in Rr1 as [_ [(R1 & R2 & R3) _]%Forall_cons]. cbn [fst snd] in *.
      apply asc_before in A1 as [A3 A4]. split_and!; [done | lia | | by apply Forall_cons |].
      + assert (p + HEADER * ps <= bp); [| unfold HEADER in *; lia]. apply Forall_app in Hap1 as [_ [Ha _]%Forall_cons]. cbn [fst snd] in Ha. unfold HEADER in *. lia.
      + cbn [disjs] in Dn. destruct Dn as [_ Dn]. rewrite <- app_assoc in Dn. cbn [app] in Dn. rewrite <- Permutation_middle in Dn.
        assert (Rp : Forall (in_heap (uh_brk s)) ((p, ps) :: r1' ++ r2n ++ live)).
        { apply Forall_app in Rn2 as [Rn2 Rn3]. apply Forall_app in Rn2 as [Rn2 _]. apply Forall_cons. split; [done |]. by apply Forall_app. }
        pose proof (disj_apart _ _ _ Dn Rp) as Hq. cbn [fst] in Hq.
        apply Forall_app in Hq as [_ Hq]. by apply Forall_app in Hq as [_ Hq]. }
  destruct Hpre2 as (Hpb & Hps & Hsum & Hpp & Hpl).
  assert (Hfr : 0 <= first r2n base < 2^64).
  { destruct r2n as [| [z zs] r2n]; cbn [first fst]; [unfold HEADER in *; lia |]. apply Forall_cons in Rr2 as [(Z1 & Z2 & Z3) _]. cbn [fst snd] in *. unfold HEADER in *. lia. }
  pose proof Hseg as (_ & _ & Ep & _)%seg_app. cbn [fst snd] in Ep.
  assert (E1 : rd32 m1 (p + 8) = ps) by (rewrite <- Ep; apply (but_hdr_same bp _ _ p K1); by left).
  destruct (free_left (set_uh_mem m1 s) pre p ps r2n bp nbs) as (m2 & E & K2 & Fp & _); try done; try (unfold HEADER in *; lia).
  cbn [uh_mem set_uh_mem] in K2.
  assert (Hk : forall x, (x < bp \/ bp + HEADER <= x) -> (x < p \/ p + HEADER <= x) -> rd8 m2 x = rd8 (uh_mem s) x).
  { intros x X1 X2. by rewrite (K2 x X2), (K1 x X1). }
  destruct (live_keep (uh_mem s) m2 p bp live (uh_brk s) Hk Rl Hapl Hpl Hlive) as [Hlive2 Hkeep].
  assert (Hsp : Forall (fun b => same_hdr (uh_mem s) m2 b.1) pre).
  { eapply Forall_impl; [exact Hpp |]. intros b Hb. apply same_hdr_ext. intros x Hx. apply Hk; unfold HEADER in *; lia. }
  assert (Hsn : seg m2 r2n base).
  { apply (seg_frame (uh_mem s)); [| done]. eapply Forall_impl; [exact Hn |]. intros b Hb. apply same_hdr_ext. intros x Hx. apply Hk; unfold HEADER in *; lia. }
  set (s' := set_uh_freep p (set_uh_mem m2 (set_uh_mem m1 s))) in *. exists s'.
  destruct (Z.eqb_spec (p + ps * HEADER) bp) as [Ej | Ej].
  - destruct Hpre as [(-> & _ & -> & ->) | (r1' & -> & ->)]; [unfold HEADER in *; lia |]. destruct Fp as [Fp1 Fp2].
    exists (r1' ++ (p, ps + nbs) :: r2n). split_and!; [exact E | | done | exists (p, ps + nbs); split; [set_solver | cbn; lia] | rewrite !length_app; simpl; lia | done].
    apply Forall_app in Rr1 as [Rr1 [(R1 & R2 & R3) _]%Forall_cons]. cbn [fst snd] in *. split; try done.
    + exact (free_seg _ m2 ((base, 0) :: r1') p ps (ps + nbs) r2 r2n Hseg Fp1 Fp2 Hsp Hsn).
    + rewrite <- app_assoc in An. eapply asc_drop. exact An.
    + rewrite <- app_assoc. cbn [app]. rewrite <- Permutation_middle. apply disjs_join; [done | done | |].
      * eapply Forall_impl; [apply Forall_app; split; [exact Rr1 | apply Forall_app; exact (conj Rr2 Rl)] |]. by intros b (_ & ? & _).
      * replace (p + HEADER * ps) with bp by (unfold HEADER in *; lia). rewrite <- !app_assoc in Dn. cbn [app] in Dn.
        rewrite <- Permutation_middle in Dn. rewrite Permutation_swap. exact Dn.
    + rewrite <- app_assoc. cbn [app]. rewrite <- Permutation_middle. apply Forall_cons. change (uh_brk s') with (uh_brk s).
      split; [unfold HEADER in *; cbn [fst snd]; lia |]. apply Forall_app. split; [done | apply Forall_app; done].
    + exists (ps + nbs). set_solver.
  - destruct Fp as [Fp1 Fp2]. exists (r1 ++ (bp, nbs) :: r2n).
    split_and!; [exact E | | done | exists (bp, nbs); split; [set_solver | done] | rewrite length_app; simpl; lia | done]. split; try done.
    + change ((base, 0) :: r1 ++ (bp, nbs) :: r2n) with (((base, 0) :: r1) ++ (bp, nbs) :: r2n). rewrite Epre, <- app_assoc.
      apply (free_seg _ m2 pre p ps ps r2 ((bp, nbs) :: r2n) Hseg); [done | done | done |]. cbn [seg fst snd].
      destruct (but_hdr_same p m1 m2 bp K2) as [-> ->]; [by right |]. by rewrite F1, F2.
    + rewrite <- app_assoc. cbn [app]. by rewrite <- Permutation_middle.
    + rewrite <- app_assoc. cbn [app]. by rewrite <- Permutation_middle.
    + exists ps. change ((base, 0) :: r1 ++ (bp, nbs) :: r2n) with (((base, 0) :: r1) ++ (bp, nbs) :: r2n). rewrite Epre. set_solver.
Qed.

Lemma free_run s rest live bp bs : heap_inv s rest ((bp, bs) :: live) ->
  exists s' rest', free (bp + HEADER) s = Ok tt s' /\ heap_inv s' rest' live /\ uh_brk s' = uh_brk s /\
    (exists b, b ∈ rest' /\ bs <= b.2) /\ (length rest' <= S (length rest))%nat /\
    (forall b x, b ∈ live -> b.1 <= x < b.1 + HEADER * b.2 -> rd8 (uh_mem s') x = rd8 (uh_mem s) x).
Proof.
  intros Hinv. pose proof (heap_length _ _ _ Hinv) as Hlen. pose proof Hinv as [Hb0 Hbrk Hseg Hasc Hdis Hran Hlive (fs & Hfp)].
  rewrite <- Permutation_middle in Hdis. assert (Hran' : Forall (in_heap (uh_brk s)) ((bp, bs) :: rest ++ live)) by (by rewrite <- Permutation_middle in Hran).
  apply Forall_cons in Hlive as [Hsz Hlive]. cbn [fst snd] in Hsz. pose proof Hran' as [(Hp1 & Hp2 & Hp3) Hr2]%Forall_cons. cbn [fst snd] in *.
  pose proof (disj_apart _ _ _ Hdis Hran') as Hap. cbn [fst] in Hap.
  assert (Hne : Forall (fun b => b.1 <> bp) rest).
  { apply Forall_app in Hap as [Hap _]. apply Forall_app in Hr2 as [Hr2 _]. rewrite Forall_forall in *. intros b Hb Eb.
    specialize (Hap b Hb). destruct (Hr2 b Hb) as (_ & ? & _). unfold HEADER in *. lia. }
  destruct (asc_split base rest bp Hasc Hne) as (r1 & r2 & -> & Hlow & Hhigh).
  destruct (last_low r1) as (pre & ps & Epre & Hpre). set (p := default base (fst <$> last r1)) in *.
  rewrite <- app_assoc in Hdis, Hran'. change ((base, 0) :: r1 ++ r2) with (((base, 0) :: r1) ++ r2) in Hseg, Hfp.
  pose proof (search_run s r1 r2 bp Hseg Hasc Hlow Hhigh ltac:(unfold HEADER in *; lia)
    (S (S (Z.to_nat (uh_brk s / HEADER)))) _ _ Hfp ltac:(rewrite length_app in Hlen; lia)) as Hsearch. fold p in Hsearch.
  assert (Hseg2 : seg (uh_mem s) (pre ++ (p, ps) :: r2) base) by (rewrite Epre, <- app_assoc in Hseg; exact Hseg).
  apply seg_app in Hseg as [_ Sr2]. pose proof Hseg2 as (_ & Sp1 & Sp2 & _)%seg_app. cbn [fst snd] in Sp1, Sp2.
  destruct (free_right s r1 r2 live bp bs Hbrk Hb0 Sr2 Hasc Hdis Hran' Hsz Hlow Hhigh) as
    (m1 & nbs & r2n & Eright & K1 & F1 & F2 & F3 & Sn & An & Dn & Rn & Hn & Hln). set (s1 := set_uh_mem m1 s) in *.
  unfold free. rewrite Z.add_simpl_r. unfold bind at 1, freep, gets. cbn [obind]. unfold bind at 1, list_fuel, gets. cbn [obind].
  rewrite (bind_ok _ _ _ _ _ Hsearch). unfold bind at 1, hdr_ptr at 1, gets. cbn [obind]. rewrite Sp1.
  unfold bind at 1, hdr_size at 1, gets. cbn [obind]. rewrite Hsz, (bind_ok _ _ _ _ _ Eright).
  destruct (free_close s m1 pre p ps r1 r2 r2n bp nbs live) as (s' & rest' & E & Hi & Eb & (b & Hb & Hbs) & Hl & Hk); try done.
  exists s', rest'. split_and!; try done; [exists b; split; [done | lia] | rewrite length_app; lia].
Qed.

(** ** morecore *)

(** The kernel does not grow a process beyond its address space. *)
Definition grow_limit : Prop := forall b n, 0 < n -> grow_ok b n = true -> b + n <= 2^36.

(** What the allocator keeps of the live blocks. *)
Definition keeps (live : list block) (s s' : uheap) : Prop :=
  forall b x, b ∈ live -> b.1 <= x < b.1 + HEADER * b.2 -> rd8 (uh_mem s') x = rd8 (uh_mem s) x.

Lemma keeps_trans live s1 s2 s3 : keeps live s1 s2 -> keeps live s2 s3 -> keeps live s1 s3.
Proof. intros H1 H2 b x Hb Hx. by rewrite (H2 b x), (H1 b x). Qed.

Lemma above_brk s rest live v (m' := wr32 (uh_mem s) (uh_brk s + 8) v) : heap_inv s rest live ->
  seg m' ((base, 0) :: rest) base /\ Forall (fun b => rd32 m' (b.1 + 8) = b.2) live /\
  forall b x, b ∈ live -> b.1 <= x < b.1 + HEADER * b.2 -> rd8 m' x = rd8 (uh_mem s) x.
Proof.
  intros [Hb0 Hbrk Hseg Hasc Hdis Hran Hlive _]. apply Forall_app in Hran as [Hr Hl].
  assert (Hk : forall x, x < uh_brk s -> rd8 m' x = rd8 (uh_mem s) x) by (intros x Hx; apply rd8_wr_le_out; lia).
  split_and!.
  - apply (seg_frame (uh_mem s)); [| done]. apply Forall_cons. split; [apply same_hdr_ext; intros x Hx; apply Hk; cbn [fst] in *; lia |].
    eapply Forall_impl; [exact Hr |]. intros b (B1 & B2 & B3). apply same_hdr_ext. intros x Hx. apply Hk. unfold HEADER in *. lia.
  - rewrite Forall_forall in *. intros b Hb. rewrite <- (Hlive b Hb). apply rd_le_ext. intros x Hx. destruct (Hl b Hb) as (B1 & B2 & B3).
    apply Hk. unfold HEADER in *. lia.
  - intros b x Hb Hx. rewrite Forall_forall in Hl. destruct (Hl b Hb) as (B1 & B2 & B3). apply Hk. lia.
Qed.

(** The bytes [morecore] asks the kernel for. *)
Definition request (nunits : Z) : Z := Z.max nunits 4096 * HEADER.

Lemma morecore_run s rest live nunits : heap_inv s rest live -> grow_limit -> 1 <= nunits -> nunits * HEADER < 2^31 ->
  (morecore grow_ok nunits s = Ok 0 s /\ grow_ok (uh_brk s) (request nunits) = false) \/
  exists s' rest', morecore grow_ok nunits s = Ok (uh_freep s') s' /\ heap_inv s' rest' live /\
    (exists b, b ∈ rest' /\ nunits <= b.2) /\ keeps live s s' /\ (length rest' <= S (length rest))%nat.
Proof.
  intros Hinv Hlim Hn Hmax. unfold morecore. set (nu := if nunits <? 4096 then 4096 else nunits).
  assert (Hnu : nunits <= nu /\ 4096 <= nu /\ nu * HEADER < 2^31 /\ request nunits = nu * HEADER).
  { unfold nu, request. destruct (Z.ltb_spec nunits 4096); unfold HEADER in *; lia. } clearbody nu. destruct Hnu as (N1 & N2 & N3 & ->).
  assert (Ei : i32 (nu * HEADER) = nu * HEADER) by (apply i32_small; unfold HEADER in *; lia). rewrite Ei.
  assert (E0 : (0 <? nu * HEADER) = true) by (apply Z.ltb_lt; unfold HEADER in *; lia). 
  pose proof Hinv as [Hb0 Hbrk Hseg Hasc Hdis Hran Hlive Hfp].
  destruct (grow_ok (uh_brk s) (nu * HEADER)) eqn:Hg; [right | left; unfold bind, sbrk; rewrite E0, Hg; eauto].
  specialize (Hlim (uh_brk s) (nu * HEADER) ltac:(unfold HEADER in *; lia) Hg).
  assert (Es : sbrk grow_ok (nu * HEADER) s = Ok (uh_brk s) (set_uh_brk (uh_brk s + nu * HEADER) s)) by (unfold sbrk; by rewrite E0, Hg).
  rewrite (bind_ok _ _ _ _ _ Es). rewrite (proj2 (Z.eqb_neq (uh_brk s) (-1))) by (unfold HEADER in *; lia).
  unfold bind at 1, set_size, modify. cbn [obind]. set (s1 := set_uh_mem _ _).
  destruct (above_brk s rest live nu Hinv) as (S1 & S2 & S3).
  assert (Hinv1 : heap_inv s1 rest ((uh_brk s, nu) :: live)).
  { split; try done; change (uh_brk s1) with (uh_brk s + nu * HEADER); [unfold HEADER in *; lia | | |].
    - rewrite <- Permutation_middle. cbn [disjs]. split; [| done]. eapply Forall_impl; [exact Hran |]. intros b (B1 & B2 & B3). right. exact B3.
    - rewrite <- Permutation_middle. apply Forall_cons. cbn [fst snd]. split; [unfold HEADER in *; lia |].
      eapply Forall_impl; [exact Hran |]. intros b (B1 & B2 & B3). unfold HEADER in *. lia.
    - apply Forall_cons. split; [| done]. cbn [fst snd]. apply rd32_wr32_eq. unfold HEADER in *. lia. }
  destruct (free_run s1 rest live (uh_brk s) nu Hinv1) as (s' & rest' & E & Hi & _ & (b & Hb & Hbs) & Hl & Hk).
  exists s', rest'. split; [by rewrite (bind_ok _ _ _ _ _ E) |]. split_and!; [done | exists b; split; [done | lia] | | done].
  intros c x Hc Hx. rewrite (Hk c x Hc Hx). by apply (S3 c x).
Qed.

(** ** malloc *)

(** Blocks that are too small are passed over. *)
Lemma malloc_skip s nunits u : forall v e fuel prev, seg (uh_mem s) (u ++ v) e -> Forall (fun b => b.2 < nunits /\ b.1 <> uh_freep s) u ->
  malloc_loop grow_ok (length u + fuel) nunits prev (first (u ++ v) e) s =
  malloc_loop grow_ok fuel nunits (default prev (fst <$> last u)) (first v e) s.
Proof.
  induction u as [| [a sz] u IH]; intros v e fuel prev Hs Hu; [done |]. cbn [app seg fst snd] in Hs. destruct Hs as (S1 & S2 & S3).
  apply Forall_cons in Hu as [[U1 U2] Hu]. cbn [fst snd] in *. cbn [length Nat.add malloc_loop app first fst].
  unfold bind at 1, hdr_size, gets. cbn [obind]. rewrite S2, (proj2 (Z.leb_gt nunits sz)) by done. unfold bind at 1, freep, gets. cbn [obind].
  rewrite (proj2 (Z.eqb_neq a (uh_freep s))) by done. unfold bind at 1, hdr_ptr, gets. cbn [obind]. rewrite S1, (IH v e fuel a S3 Hu).
  f_equal. destruct u as [| b u]; [done |]. rewrite last_cons_cons. by destruct (proj2 (last_is_Some (b :: u)) ltac:(done)) as [z ->].
Qed.

(** The predecessor of a block in the ring, which is not [base]. *)
Lemma ring_pred l1 (f : block) l2 u pv x v : (f :: l2) ++ (l1 ++ [f]) = u ++ pv :: x :: v -> head (l1 ++ [f]) <> Some x ->
  exists X Y, l1 ++ f :: l2 = X ++ pv :: x :: Y.
Proof.
  intros E Hx. change (l1 ++ f :: l2) with (l1 ++ [f] ++ l2). apply app_eq_inv in E as [(k & E1 & E2) | (k & E1 & E2)].
  - destruct k as [| z [| y k]]; cbn [app] in E2.
    + exists [], (v ++ l2). rewrite app_assoc, <- E2. done.
    + injection E2 as <- E2. rewrite <- E2 in Hx. done.
    + injection E2 as <- <- _. exists (l1 ++ u), k. change ([f] ++ l2) with (f :: l2). rewrite E1. by rewrite <- app_assoc.
  - exists k, (v ++ l2). rewrite app_assoc, E2. by rewrite <- app_assoc.
Qed.

(** The block [(a, sz)] found after [(pv, psz)] is taken, whole or in part. *)
Definition taken (s : uheap) (live : list block) (nunits : Z) (r : Z) (s' : uheap) : Prop :=
  exists rest', heap_inv s' rest' ((r - HEADER, nunits) :: live) /\ keeps live s s'.

Lemma fl_cases X pv psz a sz Y rest : 1 <= sz -> (base, 0) :: rest = X ++ (pv, psz) :: (a, sz) :: Y ->
  exists X', rest = X' ++ (a, sz) :: Y /\ X ++ [(pv, psz)] = (base, 0) :: X'.
Proof.
  intros Hsz E. destruct X as [| b X]; [injection E as <- <- -> | injection E as <- ->].
  - by exists [].
  - exists (X ++ [(pv, psz)]). by rewrite <- app_assoc.
Qed.

Lemma apart_hdr s rest live p psz : heap_inv s rest live -> (p, psz) ∈ (base, 0) :: rest ->
  Forall (fun b => b.1 + HEADER * b.2 <= p \/ p + HEADER <= b.1) live.
Proof.
  intros [Hb0 Hbrk Hseg Hasc Hdis Hran Hlive _] [[= -> ->] | Hp]%elem_of_cons.
  - apply Forall_app in Hran as [_ Hran]. eapply Forall_impl; [exact Hran |]. intros b (B & _). by right.
  - apply list_elem_of_split in Hp as (x & y & ->). rewrite <- app_assoc in Hdis, Hran. cbn [app] in Hdis, Hran.
    rewrite <- Permutation_middle in Hdis, Hran. pose proof (disj_apart _ _ _ Hdis Hran) as Hq. cbn [fst] in Hq.
    apply Forall_app in Hq as [_ Hq]. by apply Forall_app in Hq as [_ Hq].
Qed.

Lemma live_frame (m m' : mem) (live : list block) : Forall (fun b => 1 <= b.2) live ->
  (forall b x, b ∈ live -> b.1 <= x < b.1 + HEADER * b.2 -> rd8 m' x = rd8 m x) ->
  Forall (fun b => rd32 m (b.1 + 8) = b.2) live -> Forall (fun b => rd32 m' (b.1 + 8) = b.2) live.
Proof.
  rewrite !Forall_forall. intros H1 Hk Hl b Hb. rewrite <- (Hl b Hb). apply rd_le_ext. intros x Hx. apply (Hk b x Hb).
  specialize (H1 b Hb). unfold HEADER in *. lia.
Qed.

(** The free list around the block [(a, sz)], which follows [(pv, psz)]. *)
Record around (s : uheap) (rest live : list block) (pv psz a sz : Z) (X Y X' : list block) : Prop := {
  ar_rest : rest = X' ++ (a, sz) :: Y;
  ar_fl : X ++ [(pv, psz)] = (base, 0) :: X';
  ar_seg : seg (uh_mem s) (X ++ (pv, psz) :: (a, sz) :: Y) base;
  ar_low : Forall (fun b => b.1 + HEADER <= pv) X;
  ar_pv : pv + HEADER <= a;
  ar_high : Forall (fun b => a + HEADER <= b.1) Y;
  ar_ran : Forall (in_heap (uh_brk s)) ((a, sz) :: (X' ++ Y) ++ live);
  ar_dis : disjs ((a, sz) :: (X' ++ Y) ++ live);
  ar_first : 0 <= first Y base < 2^64 }.

Lemma around_of s rest live pv psz a sz X Y : heap_inv s rest live -> (base, 0) :: rest = X ++ (pv, psz) :: (a, sz) :: Y -> 1 <= sz ->
  exists X', around s rest live pv psz a sz X Y X'.
Proof.
  intros [Hb0 Hbrk Hseg Hasc Hdis Hran Hlive _] E Hsz. destruct (fl_cases X pv psz a sz Y rest Hsz E) as (X' & Er & EX). exists X'.
  assert (Hfl : asc (base - HEADER) (X ++ (pv, psz) :: (a, sz) :: Y)) by (rewrite <- E; cbn [asc fst]; split; [lia | done]).
  rewrite E in Hseg. pose proof Hfl as (A1 & A2 & A3 & A4)%asc_app. cbn [fst] in *.
  assert (Hran2 : Forall (in_heap (uh_brk s)) ((a, sz) :: (X' ++ Y) ++ live)).
  { rewrite Er, <- app_assoc in Hran. cbn [app] in Hran. rewrite <- Permutation_middle, app_assoc in Hran. exact Hran. }
  split; try done.
  - replace (X ++ (pv, psz) :: (a, sz) :: Y) with ((X ++ [(pv, psz)]) ++ (a, sz) :: Y) in Hfl by (by rewrite <- app_assoc).
    apply asc_app in Hfl as [Hfl _]. by apply asc_before in Hfl as [_ Hfl].
  - apply Forall_forall. intros b Hb. exact (asc_above _ _ _ A4 Hb).
  - rewrite Er, <- app_assoc in Hdis. cbn [app] in Hdis. rewrite <- Permutation_middle, app_assoc in Hdis. exact Hdis.
  - apply Forall_cons in Hran2 as [_ [[_ HrY]%Forall_app _]%Forall_app].
    destruct Y as [| [z zs] Y]; cbn [first fst]; [unfold HEADER in *; lia |]. apply Forall_cons in HrY as [(Z1 & Z2 & Z3) _]. cbn [fst snd] in *. unfold HEADER in *. lia.
Qed.

(** A whole block is taken. *)
Lemma take_whole s rest live pv psz a sz X Y : heap_inv s rest live -> (base, 0) :: rest = X ++ (pv, psz) :: (a, sz) :: Y -> 1 <= sz ->
  taken s live sz (a + HEADER) (set_uh_freep pv (set_uh_mem (wr64 (uh_mem s) pv (first Y base)) s)).
Proof.
  intros Hinv E Hsz. destruct (around_of s rest live pv psz a sz X Y Hinv E Hsz) as (X' & [Er EX Hseg HX Hpv HY Hran Hdis Hfr]).
  assert (Hap : Forall (fun b => b.1 + HEADER * b.2 <= pv \/ pv + HEADER <= b.1) live).
  { apply (apart_hdr s rest live pv psz Hinv). rewrite E. set_solver. }
  pose proof Hinv as [Hb0 Hbrk _ Hasc _ _ Hlive _]. pose proof Hran as [_ [HrXY Hrl]%Forall_app]%Forall_cons.
  set (m' := wr64 (uh_mem s) pv (first Y base)). assert (Hm : but_hdr pv (uh_mem s) m') by apply but_hdr_ptr.
  pose proof Hseg as (S1 & S2 & S3 & S4 & S5 & S6)%seg_app. cbn [fst snd] in *.
  assert (Hk : keeps live s (set_uh_freep pv (set_uh_mem m' s))).
  { intros b x Hb Hx. cbn [uh_mem set_uh_freep set_uh_mem]. apply Hm. rewrite Forall_forall in Hap. specialize (Hap b Hb). lia. }
  exists (X' ++ Y). split; [| exact Hk]. rewrite Z.add_simpl_r. split; cbn [uh_mem uh_brk uh_freep set_uh_freep set_uh_mem]; try done.
  - change ((base, 0) :: X' ++ Y) with (((base, 0) :: X') ++ Y). rewrite <- EX, <- app_assoc. cbn [app].
    apply (free_seg (uh_mem s) m' X pv psz psz ((a, sz) :: Y) Y Hseg); [by apply rd64_wr64_eq | | |].
    + unfold m'. by rewrite (proj1 (hdr_fields (uh_mem s) pv _)).
    + eapply Forall_impl; [exact HX |]. intros b Hb. apply (but_hdr_same pv _ _ _ Hm). by left.
    + apply (seg_frame (uh_mem s)); [| done]. eapply Forall_impl; [exact HY |]. intros b Hb. apply (but_hdr_same pv _ _ _ Hm).
      right. unfold HEADER in *. lia.
  - subst rest. apply asc_app in Hasc as [C1 C2]. apply asc_app. split; [done |]. destruct Y as [| z Y]; [done |]. cbn [asc fst] in *.
    unfold HEADER in *. split; [lia | tauto].
  - by rewrite <- Permutation_middle.
  - by rewrite <- Permutation_middle.
  - apply Forall_cons. cbn [fst snd]. split.
    + destruct (but_hdr_same pv _ _ a Hm) as [_ ->]; [by right | done].
    + apply (live_frame (uh_mem s)); [| exact Hk | done]. eapply Forall_impl; [exact Hrl |]. by intros b (_ & ? & _).
  - exists psz. change ((base, 0) :: X' ++ Y) with (((base, 0) :: X') ++ Y). rewrite <- EX. set_solver.
Qed.

(** The end of a block is taken. *)
Lemma take_part s rest live pv psz a sz nunits X Y (a' := a + (sz - nunits) * HEADER) : heap_inv s rest live ->
  (base, 0) :: rest = X ++ (pv, psz) :: (a, sz) :: Y -> 1 <= nunits < sz ->
  taken s live nunits (a' + HEADER)
    (set_uh_freep pv (set_uh_mem (wr32 (wr32 (uh_mem s) (a + 8) (sz - nunits)) (a' + 8) nunits) s)).
Proof.
  intros Hinv E Hn. destruct (around_of s rest live pv psz a sz X Y Hinv E ltac:(lia)) as (X' & [Er EX Hseg HX Hpv HY Hran Hdis Hfr]).
  pose proof Hinv as [Hb0 Hbrk _ Hasc _ _ Hlive _]. pose proof Hran as [(R1 & R2 & R3) [HrXY Hrl]%Forall_app]%Forall_cons.
  pose proof HrXY as [_ HrY]%Forall_app. pose proof Hseg as (S1 & S2 & S3 & S4 & S5 & S6)%seg_app. cbn [fst snd] in *.
  set (m' := wr32 (wr32 (uh_mem s) (a + 8) (sz - nunits)) (a' + 8) nunits).
  assert (Hm : forall x, x < a \/ a + HEADER * sz <= x -> rd8 m' x = rd8 (uh_mem s) x).
  { intros x Hx. unfold m', a', HEADER in *. unfold wr32. rewrite !rd8_wr_le_out by lia. done. }
  pose proof Hdis as [Hda _]. rewrite !Forall_app in Hda. destruct Hda as [[_ HdY] Hdl].
  assert (Hk : keeps live s (set_uh_freep pv (set_uh_mem m' s))).
  { intros b x Hb Hx. cbn [uh_mem set_uh_freep set_uh_mem]. apply Hm. rewrite Forall_forall in Hdl, Hrl. specialize (Hdl b Hb). unfold disj in Hdl. cbn [fst snd] in Hdl. lia. }
  assert (Hlowm : forall b, b + HEADER <= a -> same_hdr (uh_mem s) m' b) by (intros b Hb; apply same_hdr_ext; intros x Hx; apply Hm; lia).
  exists (X' ++ (a, sz - nunits) :: Y). split; [| exact Hk]. rewrite Z.add_simpl_r. split; cbn [uh_mem uh_brk uh_freep set_uh_freep set_uh_mem]; try done.
  - change ((base, 0) :: X' ++ (a, sz - nunits) :: Y) with (((base, 0) :: X') ++ (a, sz - nunits) :: Y). rewrite <- EX, <- app_assoc. cbn [app].
    apply (free_seg (uh_mem s) m' X pv psz psz ((a, sz) :: Y) ((a, sz - nunits) :: Y) Hseg).
    + by destruct (Hlowm pv Hpv) as [-> _].
    + by destruct (Hlowm pv Hpv) as [_ ->].
    + eapply Forall_impl; [exact HX |]. intros b Hb. apply Hlowm. unfold HEADER in *. lia.
    + cbn [seg fst snd]. split_and!.
      * rewrite <- S4. unfold m', a', HEADER in *. apply rd64_ext. intros x Hx. unfold wr32. rewrite !rd8_wr_le_out by lia. done.
      * unfold m', a', HEADER in *. transitivity (rd32 (wr32 (uh_mem s) (a + 8) (sz - nunits)) (a + 8)); [| apply rd32_wr32_eq; lia].
        apply rd_le_ext. intros x Hx. apply rd8_wr_le_out. lia.
      * apply (seg_frame (uh_mem s)); [| done]. rewrite Forall_forall in *. intros b Hb. specialize (HdY b Hb). specialize (HY b Hb).
        destruct (HrY b Hb) as (_ & ? & _). apply same_hdr_ext. intros x Hx. apply Hm. unfold disj, HEADER in *. cbn [fst snd] in HdY. lia.
  - subst rest. apply asc_app in Hasc as [C1 C2]. apply asc_app. split; [done |]. exact C2.
  - rewrite <- app_assoc. cbn [app]. rewrite <- Permutation_middle. rewrite app_assoc, <- Permutation_middle.
    replace a' with (a + HEADER * (sz - nunits)) by (unfold a'; lia). apply disjs_cut; [lia | lia |]. by replace (sz - nunits + nunits) with sz by lia.
  - rewrite <- app_assoc. cbn [app]. rewrite <- Permutation_middle. rewrite app_assoc, <- Permutation_middle. rewrite !Forall_cons. cbn [fst snd].
    split_and!; try (apply Forall_app; done); unfold a', HEADER in *; lia.
  - apply Forall_cons. cbn [fst snd]. split; [apply rd32_wr32_eq; unfold HEADER in *; lia |].
    apply (live_frame (uh_mem s)); [| exact Hk | done]. eapply Forall_impl; [exact Hrl |]. by intros b (_ & ? & _).
  - exists psz. change ((base, 0) :: X' ++ (a, sz - nunits) :: Y) with (((base, 0) :: X') ++ (a, sz - nunits) :: Y). rewrite <- EX. set_solver.
Qed.

(** At a block that is large enough, the loop returns. *)
Lemma malloc_hit s rest live pv psz a sz nunits X Y fuel : heap_inv s rest live -> (base, 0) :: rest = X ++ (pv, psz) :: (a, sz) :: Y ->
  1 <= nunits <= sz -> exists r s', malloc_loop grow_ok (S fuel) nunits pv a s = Ok r s' /\ r <> 0 /\ taken s live nunits r s'.
Proof.
  intros Hinv E Hn. destruct (around_of s rest live pv psz a sz X Y Hinv E ltac:(lia)) as (X' & [_ _ Hseg _ _ _ Hran _ _]).
  pose proof (hi_base _ _ _ Hinv) as Hb0. pose proof Hran as [(R1 & R2 & R3) _]%Forall_cons. cbn [fst snd] in *.
  apply seg_app in Hseg as (_ & _ & _ & S4 & S5 & _). cbn [fst snd] in *.
  cbn [malloc_loop]. unfold bind at 1, hdr_size, gets. cbn [obind]. rewrite S5, (proj2 (Z.leb_le nunits sz)) by lia.
  destruct (Z.eqb_spec sz nunits) as [<- | Hne].
  - do 2 eexists. split; [unfold bind, hdr_ptr, gets; cbn [obind]; rewrite S4; reflexivity |]. split; [unfold HEADER in *; lia |].
    exact (take_whole s rest live pv psz a sz X Y Hinv E ltac:(lia)).
  - do 2 eexists. split; [reflexivity |]. split; [unfold HEADER in *; lia |].
    exact (take_part s rest live pv psz a sz nunits X Y Hinv E ltac:(lia)).
Qed.

(** The ring, as a search that starts after [freep] meets it. *)
Lemma ring_of s rest live : heap_inv s rest live -> exists l1 fsz l2, (base, 0) :: rest = l1 ++ (uh_freep s, fsz) :: l2 /\
  seg (uh_mem s) ((l2 ++ l1) ++ [(uh_freep s, fsz)]) (first l2 base) /\
  rd64 (uh_mem s) (uh_freep s) = first ((l2 ++ l1) ++ [(uh_freep s, fsz)]) (first l2 base) /\
  Forall (fun b => b.1 <> uh_freep s) (l2 ++ l1).
Proof.
  intros [Hb0 _ Hseg Hasc _ _ _ (fsz & Hf)]. apply list_elem_of_split in Hf as (l1 & l2 & E). exists l1, fsz, l2. split; [done |].
  assert (Hb : first (l1 ++ [(uh_freep s, fsz)]) (first l2 base) = base) by (destruct l1 as [| [? ?] ?]; cbn in *; congruence).
  assert (Hfl : asc (base - HEADER) (l1 ++ (uh_freep s, fsz) :: l2)) by (rewrite <- E; cbn [asc fst]; split; [lia | done]).
  rewrite E in Hseg. apply seg_app in Hseg as (S1 & S2 & S3 & S4). cbn [fst snd first] in *. split_and!.
  - rewrite <- app_assoc. apply seg_app. rewrite Hb. split; [done |]. apply seg_app. cbn [first seg fst snd]. done.
  - rewrite S2, <- app_assoc, first_app, Hb. done.
  - apply asc_app in Hfl as [A1 A2]. cbn [asc fst] in A2. destruct A2 as [A2 A3]. apply Forall_app. split; apply Forall_forall; intros b Hin Eb.
    + pose proof (asc_above _ _ _ A3 Hin). unfold HEADER in *. lia.
    + assert (Hq : asc (base - HEADER) (l1 ++ [(uh_freep s, fsz)])) by (apply asc_app; by cbn [asc fst]).
      apply asc_before in Hq as [_ Hq]. rewrite Forall_forall in Hq. specialize (Hq b Hin). unfold HEADER in *. lia.
Qed.

(** The first block of a list that satisfies a decidable property. *)
Lemma first_such (P : block -> Prop) `{!forall x, Decision (P x)} l : Forall (fun x => ~ P x) l \/
  exists u x v, l = u ++ x :: v /\ P x /\ Forall (fun x => ~ P x) u.
Proof.
  induction l as [| x l [IH | (u & y & v & -> & Hy & Hu)]]; [by left | |]; destruct (decide (P x)) as [Hx | Hx].
  - right. by exists [], x, l.
  - left. by constructor.
  - right. by exists [], x, (u ++ y :: v).
  - right. exists (x :: u), y, v. split_and!; [done | done | by constructor].
Qed.

(** A block that is large enough is found. *)
Lemma malloc_found s rest live nunits fuel : heap_inv s rest live -> 1 <= nunits -> (exists b, b ∈ rest /\ nunits <= b.2) ->
  (S (length rest) < fuel)%nat -> exists r s', malloc_loop grow_ok fuel nunits (uh_freep s) (rd64 (uh_mem s) (uh_freep s)) s = Ok r s' /\
    r <> 0 /\ taken s live nunits r s'.
Proof.
  intros Hinv Hn (b & Hb & Hbn) Hfuel. destruct (ring_of s rest live Hinv) as (l1 & fsz & l2 & E & Hseg & -> & Hne).
  assert (Hlen : length (l2 ++ l1) = length rest). { apply (f_equal length) in E. cbn in E. rewrite length_app in E. cbn in E. rewrite length_app. lia. }
  assert (Hb' : b ∈ (l2 ++ l1) ++ [(uh_freep s, fsz)]).
  { assert (Hin : b ∈ (base, 0) :: rest) by set_solver. rewrite E in Hin. set_solver. }
  set (R := l2 ++ l1) in *.
  destruct (first_such (fun x => nunits <= x.2) (R ++ [(uh_freep s, fsz)])) as [Hall | (u & [a sz] & v & ER & Hsz & Hu)].
  { rewrite Forall_forall in Hall. by specialize (Hall b Hb'). }
  assert (Hlu : (length u <= length rest)%nat). { apply (f_equal length) in ER. rewrite !length_app in ER. cbn in ER. lia. }
  assert (Huf : Forall (fun x : block => x.2 < nunits /\ x.1 <> uh_freep s) u).
  { assert (Hpre : exists k, R = u ++ k).
    { destruct (exists_last (l := (a, sz) :: v)) as (w & z & Ew); [done |]. rewrite Ew, app_assoc in ER. apply app_inj_tail in ER as [-> _]. by exists w. }
    destruct Hpre as (k & Ek). rewrite Ek in Hne. apply Forall_app in Hne as [Hne _]. rewrite Forall_forall in *.
    intros x Hx. split; [specialize (Hu x Hx); cbn beta in Hu; lia | by apply Hne]. }
  rewrite ER. replace fuel with (length u + S (fuel - length u - 1))%nat by lia. rewrite ER in Hseg. rewrite (malloc_skip s nunits u ((a, sz) :: v) _ _ _ Hseg Huf).
  cbn [first fst]. assert (Hpv : exists w psz, (uh_freep s, fsz) :: u = w ++ [(default (uh_freep s) (fst <$> last u), psz)]).
  { destruct u as [| x u _] using rev_ind; [by exists [], fsz |]. exists ((uh_freep s, fsz) :: u), x.2. rewrite last_snoc. by destruct x. }
  destruct Hpv as (w & psz & Ew).
  destruct (ring_pred l1 (uh_freep s, fsz) l2 w (default (uh_freep s) (fst <$> last u), psz) (a, sz) v) as (X & Y & EXY).
  - cbn [app]. rewrite app_assoc. fold R. rewrite ER. change (w ++ (?p :: ?q :: v)) with (w ++ [p] ++ q :: v). rewrite app_assoc, <- Ew. done.
  - intros Hh. assert (Hh' : head (l1 ++ [(uh_freep s, fsz)]) = Some (base, 0)) by (destruct l1; cbn in *; congruence).
    rewrite Hh in Hh'. injection Hh' as _ ->. cbn [snd] in Hsz. lia.
  - apply (malloc_hit s rest live _ psz a sz nunits X Y); [done | by rewrite E, EXY | cbn [snd] in Hsz; lia].
Qed.

(** Back at [freep], more memory is asked for. *)
Lemma malloc_more s nunits fuel fsz prev : rd32 (uh_mem s) (uh_freep s + 8) = fsz -> fsz < nunits ->
  malloc_loop grow_ok (S fuel) nunits prev (uh_freep s) s =
  (let* p := morecore grow_ok nunits in
   if p =? 0 then ret 0 else let* q := hdr_ptr p in malloc_loop grow_ok fuel nunits p q) s.
Proof.
  intros S2 Hf. cbn [malloc_loop]. unfold bind at 1, hdr_size, gets. cbn [obind].
  rewrite S2, (proj2 (Z.leb_gt nunits fsz)) by done. unfold bind at 1, freep, gets. cbn [obind]. by rewrite Z.eqb_refl.
Qed.

Lemma freep_nz s rest live : heap_inv s rest live -> uh_freep s <> 0.
Proof.
  intros [Hb _ _ _ _ Hr _ (z & Hz)]. apply elem_of_cons in Hz as [[= -> _] | Hz]; [lia |]. apply Forall_app in Hr as [Hr _].
  rewrite Forall_forall in Hr. destruct (Hr _ Hz) as (? & _). cbn [fst] in *. unfold HEADER in *. lia.
Qed.

(** A search over the whole ring, with more memory if there is no block. *)
Lemma malloc_loop_run s rest live nunits fuel : heap_inv s rest live -> grow_limit -> 1 <= nunits -> nunits * HEADER < 2^31 ->
  (length rest + S (S (S (length rest))) < fuel)%nat ->
  let o := malloc_loop grow_ok fuel nunits (uh_freep s) (rd64 (uh_mem s) (uh_freep s)) s in
  (o = Ok 0 s /\ grow_ok (uh_brk s) (request nunits) = false) \/ exists r s', o = Ok r s' /\ r <> 0 /\ taken s live nunits r s'.
Proof.
  intros Hinv Hlim Hn Hmax Hfuel o. subst o. destruct (first_such (fun x => nunits <= x.2) rest) as [Hall | (u & x & v & -> & Hx & _)]; cycle 1.
  { right. apply (malloc_found s (u ++ x :: v) live); [done | done | exists x; split; [set_solver | done] | lia]. }
  destruct (ring_of s rest live Hinv) as (l1 & fsz & l2 & E & Hseg & -> & Hne).
  assert (Hlen : length (l2 ++ l1) = length rest). { apply (f_equal length) in E. cbn in E. rewrite length_app in E. cbn in E. rewrite length_app. lia. }
  assert (Hsmall : Forall (fun x : block => x.2 < nunits) ((base, 0) :: rest)).
  { constructor; [cbn [snd]; lia |]. eapply Forall_impl; [exact Hall |]. intros x Hx. cbn beta in Hx. lia. }
  rewrite E in Hsmall. apply Forall_app in Hsmall as [Hs1 [Hsf Hs2]%Forall_cons]. cbn [snd] in Hsf.
  replace fuel with (length (l2 ++ l1) + S (fuel - length rest - 1))%nat by lia. rewrite (malloc_skip s nunits (l2 ++ l1) [(uh_freep s, fsz)] _ _ _ Hseg).
  2: { apply Forall_and. split; [by apply Forall_app | done]. }
  apply seg_app in Hseg as [_ (_ & S2 & _)]. cbn [fst snd first] in *. rewrite (malloc_more s nunits _ fsz) by done.
  destruct (morecore_run s rest live nunits Hinv Hlim Hn Hmax) as [[Em Hg] | (s1 & rest1 & Em & Hinv1 & Hb & Hk & Hl)].
  { left. split; [| done]. rewrite (bind_ok _ _ _ _ _ Em). done. }
  right. destruct (malloc_found s1 rest1 live nunits (fuel - length rest - 1) Hinv1 Hn Hb ltac:(lia)) as (r & s' & Er & Hr & (rest' & Hi & Hk')).
  exists r, s'. split_and!; [| done | exists rest'; split; [done | by eapply keeps_trans]].
  rewrite (bind_ok _ _ _ _ _ Em), (proj2 (Z.eqb_neq (uh_freep s1) 0)) by (by eapply freep_nz). exact Er.
Qed.

(** The allocator, before or after its first call. *)
Definition heap_ok (s : uheap) (live : list block) : Prop :=
  (uh_freep s = 0 /\ live = [] /\ 0 < base /\ base + HEADER <= uh_brk s <= 2^36) \/ exists rest, heap_inv s rest live.

Definition units (nbytes : Z) : Z := (nbytes + HEADER - 1) / HEADER + 1.

Lemma units_bounds n : 0 <= n < 2^31 - 32 -> 1 <= units n /\ n + HEADER <= units n * HEADER < 2^31.
Proof.
  intros Hn. unfold units, HEADER. pose proof (Z.div_mod (n + 16 - 1) 16 ltac:(lia)). pose proof (Z.mod_pos_bound (n + 16 - 1) 16 ltac:(lia)). lia.
Qed.

(** The first call makes the ring of [base] alone. *)
Lemma malloc_init s : uh_freep s = 0 -> 0 < base -> base + HEADER <= uh_brk s <= 2^36 ->
  heap_inv (set_uh_mem (wr32 (wr64 (uh_mem s) base base) (base + 8) 0) (set_uh_freep base s)) [] [].
Proof.
  intros Hf Hb Hbrk. split; cbn [uh_mem uh_brk uh_freep set_uh_mem set_uh_freep]; try done.
  - cbn [seg fst snd first]. split_and!; [| by apply rd32_wr32_eq | done]. rewrite (proj2 (hdr_fields _ base 0)). apply rd64_wr64_eq.
    unfold HEADER in *. lia.
  - exists 0. set_solver.
Qed.

Lemma malloc_run s live n : heap_ok s live -> grow_limit -> 0 <= n < 2^31 - 32 ->
  exists r s', malloc base grow_ok n s = Ok r s' /\ keeps live s s' /\
    ((r = 0 /\ heap_ok s' live /\ grow_ok (uh_brk s) (request (units n)) = false) \/
     (r <> 0 /\ exists rest, heap_inv s' rest ((r - HEADER, units n) :: live))).
Proof.
  intros Hok Hlim Hn. pose proof (units_bounds n Hn) as (U1 & U2 & U3). unfold malloc. fold (units n).
  rewrite u32_small by (unfold HEADER in *; lia).
  assert (Hrun : forall s1 rest, heap_inv s1 rest live -> exists r s',
    (let* fuel := list_fuel in let* p := hdr_ptr (uh_freep s1) in malloc_loop grow_ok (fuel + S fuel) (units n) (uh_freep s1) p) s1 = Ok r s' /\
    keeps live s1 s' /\ ((r = 0 /\ heap_ok s' live /\ grow_ok (uh_brk s1) (request (units n)) = false) \/
    (r <> 0 /\ exists rest, heap_inv s' rest ((r - HEADER, units n) :: live)))).
  { intros s1 rest Hinv. pose proof (heap_length _ _ _ Hinv) as Hlen. unfold bind, list_fuel, hdr_ptr, gets. cbn [obind].
    destruct (malloc_loop_run s1 rest live (units n) (S (S (Z.to_nat (uh_brk s1 / HEADER))) + S (S (S (Z.to_nat (uh_brk s1 / HEADER)))))%nat
      Hinv Hlim U1 U3 ltac:(lia)) as [[E Hg] | (r & s' & E & Hr & (rest' & Hi & Hk))].
    - exists 0, s1. split_and!; [exact E | by intros b x | left]. split_and!; [done | by right; exists rest | done].
    - exists r, s'. split_and!; [exact E | done | right; split; [done | by exists rest']]. }
  destruct Hok as [(Hf & -> & Hb & Hbrk) | (rest & Hinv)].
  - destruct (Hrun _ [] (malloc_init s Hf Hb Hbrk)) as (r & s' & E & Hk & HQ). exists r, s'. split_and!; [| by intros b x Hb0%elem_of_nil | done].
    rewrite <- E. unfold bind at 1, freep, gets. cbn [obind]. rewrite Hf, Z.eqb_refl. reflexivity.
  - destruct (Hrun s rest Hinv) as (r & s' & E & HQ). exists r, s'. split; [| done]. rewrite <- E. unfold bind at 1, freep, gets. cbn [obind].
    rewrite (proj2 (Z.eqb_neq (uh_freep s) 0)) by (by eapply freep_nz). reflexivity.
Qed.

End Heap.

(** ** A program that uses the allocator *)

(** A block as the program sees it: the pointer, the size asked for, and the
    bytes the program stored, by offset. *)
Record ublk := mkUblk { ub_ptr : Z; ub_size : Z; ub_data : gmap Z Z }.

Inductive mop := MAlloc (nbytes : Z) | MFree (i : nat) | MStore (i : nat) (off v : Z).

Section Client.
Context (base : Z) (grow_ok : Z -> Z -> bool).

(** A call of [malloc] that returned 0: the size asked for and the break at the call. *)
Abbreviation failure := (Z * Z)%type.

(** One operation, on the blocks in use and on the calls that failed so far. *)
Definition run_op (op : mop) (st : list failure * list ublk) : M uheap (list failure * list ublk) :=
  let (failed, live) := st in
  match op with
  | MAlloc n =>
      let* brk := gets uh_brk in
      let* r := malloc base grow_ok n in
      ret (if r =? 0 then ((n, brk) :: failed, live) else (failed, mkUblk r n ∅ :: live))
  | MFree i =>
      match live !! i with
      | Some b => free (ub_ptr b) ;;; ret (failed, delete i live)
      | None => ret st
      end
  | MStore i off v =>
      match live !! i with
      | Some b =>
          if (0 <=? off) && (off <? ub_size b) then
            modify (fun s => set_uh_mem (wr8 (uh_mem s) (ub_ptr b + off) v) s) ;;;
            ret (failed, <[i := mkUblk (ub_ptr b) (ub_size b) (<[off := u8 v]> (ub_data b))]> live)
          else ret st
      | None => ret st
      end
  end.

Fixpoint run_ops (ops : list mop) (st : list failure * list ublk) : M uheap (list failure * list ublk) :=
  match ops with
  | [] => ret st
  | op :: ops => let* st := run_op op st in run_ops ops st
  end.

Definition blk_of (b : ublk) : block := (ub_ptr b - HEADER, units (ub_size b)).

(** What holds between any two operations. *)
Record client_ok (s : uheap) (live : list ublk) : Prop := {
  co_heap : heap_ok base s (blk_of <$> live);
  co_size : Forall (fun b => 0 <= ub_size b < 2^31 - 32) live;
  co_data : Forall (fun b => forall off v, ub_data b !! off = Some v -> 0 <= off < ub_size b /\ rd8 (uh_mem s) (ub_ptr b + off) = v) live }.

(** The kernel refused what the failed call needed. *)
Definition refused (f : failure) : Prop := grow_ok f.2 (request (units f.1)) = false.

Definition op_fits (op : mop) : Prop := match op with MAlloc n => 0 <= n < 2^31 - 32 | _ => True end.

Lemma heap_ok_perm s l1 l2 : l1 ≡ₚ l2 -> heap_ok base s l1 -> heap_ok base s l2.
Proof.
  intros Hp [(Hf & -> & Hb) | (rest & [H1 H2 H3 H4 H5 H6 H7 H8])]; [left; apply Permutation_nil in Hp as ->; done | right].
  exists rest. split; try done; by rewrite <- Hp.
Qed.

Lemma client_ok_perm s l1 l2 : l1 ≡ₚ l2 -> client_ok s l1 -> client_ok s l2.
Proof. intros Hp [H1 H2 H3]. split; [eapply heap_ok_perm; [| exact H1]; by rewrite Hp | by rewrite <- Hp | by rewrite <- Hp]. Qed.

Lemma heap_ok_cons s b live : heap_ok base s (b :: live) -> exists rest, heap_inv base s rest (b :: live).
Proof. intros [(_ & ? & _) | ?]; done. Qed.

(** The bytes of a block lie within it. *)
Lemma blk_bytes b off : 0 <= ub_size b < 2^31 - 32 -> 0 <= off < ub_size b ->
  (blk_of b).1 + HEADER <= ub_ptr b + off < (blk_of b).1 + HEADER * (blk_of b).2.
Proof. intros Hs Ho. pose proof (units_bounds _ Hs). unfold blk_of. cbn [fst snd]. lia. Qed.

Lemma data_keeps s s' live : Forall (fun b => 0 <= ub_size b < 2^31 - 32) live -> keeps (blk_of <$> live) s s' ->
  Forall (fun b => forall off v, ub_data b !! off = Some v -> 0 <= off < ub_size b /\ rd8 (uh_mem s) (ub_ptr b + off) = v) live ->
  Forall (fun b => forall off v, ub_data b !! off = Some v -> 0 <= off < ub_size b /\ rd8 (uh_mem s') (ub_ptr b + off) = v) live.
Proof.
  rewrite !Forall_forall. intros Hs Hk Hd b Hb off v Hv. destruct (Hd b Hb off v Hv) as [Ho Hr]. split; [done |].
  rewrite (Hk (blk_of b)); [done | by apply list_elem_of_fmap_2 | pose proof (blk_bytes b off (Hs b Hb) Ho); unfold HEADER in *; lia].
Qed.

(** A store into a block in use changes no header and no other block. *)
Lemma store_inv s rest bp bs live x v : heap_inv base s rest ((bp, bs) :: live) -> bp + HEADER <= x < bp + HEADER * bs ->
  heap_inv base (set_uh_mem (wr8 (uh_mem s) x v) s) rest ((bp, bs) :: live) /\ keeps live s (set_uh_mem (wr8 (uh_mem s) x v) s).
Proof.
  intros [Hb0 Hbrk Hseg Hasc Hdis Hran Hlive Hfp] Hx. set (m' := wr8 (uh_mem s) x v).
  assert (Hm : forall y, y <> x -> rd8 m' y = rd8 (uh_mem s) y) by (intros y Hy; unfold m'; rewrite rd8_wr8; destruct (Z.eqb_spec x y); congruence).
  pose proof Hdis as Hd. pose proof Hran as Hr. rewrite <- Permutation_middle in Hd, Hr. destruct Hd as [Hd _]. apply Forall_app in Hd as [Hd1 Hd2].
  apply Forall_cons in Hr as [(B1 & B2 & B3) [Hr1 Hr2]%Forall_app]. cbn [fst snd] in *.
  assert (Hk : keeps live s (set_uh_mem m' s)).
  { intros b y Hb Hy. apply Hm. rewrite Forall_forall in Hd2. specialize (Hd2 b Hb). unfold disj, HEADER in *. cbn [fst snd] in Hd2. lia. }
  split; [| exact Hk]. split; cbn [uh_mem uh_brk uh_freep set_uh_mem]; try done.
  - apply (seg_frame (uh_mem s)); [| done]. constructor; [apply same_hdr_ext; intros y Hy; apply Hm; cbn [fst] in *; lia |].
    rewrite Forall_forall in *. intros b Hb. apply same_hdr_ext. intros y Hy. apply Hm. specialize (Hd1 b Hb). destruct (Hr1 b Hb) as (_ & ? & _).
    unfold disj, HEADER in *. cbn [fst snd] in Hd1. lia.
  - apply Forall_cons in Hlive as [Hl1 Hl2]. constructor; cbn [fst snd] in *.
    + transitivity (rd32 (uh_mem s) (bp + 8)); [| exact Hl1]. apply rd_le_ext. intros y Hy. apply Hm. unfold HEADER in *. lia.
    + apply (live_frame (uh_mem s)); [| exact Hk | done]. eapply Forall_impl; [exact Hr2 |]. by intros b (_ & ? & _).
Qed.

Lemma delete_insert_same (i : nat) (x : ublk) (l : list ublk) : delete i (<[i := x]> l) = delete i l.
Proof. revert i. induction l as [| y l IH]; intros [| i]; cbn; try done. f_equal. apply IH. Qed.

Lemma run_op_ok op s failed live : client_ok s live -> Forall refused failed -> grow_limit grow_ok -> op_fits op ->
  exists failed' live' s', run_op op (failed, live) s = Ok (failed', live') s' /\ client_ok s' live' /\ Forall refused failed'.
Proof.
  intros Hok Hfd Hlim Hop. destruct op as [n | i | i off v]; cbn [run_op op_fits] in *.
  - pose proof Hok as [Hh Hs Hd]. destruct (malloc_run base grow_ok s _ n Hh Hlim Hop) as (r & s' & E & Hk & Hr).
    unfold bind at 1, gets. cbn [obind]. rewrite (bind_ok _ _ _ _ _ E). destruct Hr as [(-> & Hh' & Hg) | (Hr & rest & Hi)].
    + exists ((n, uh_brk s) :: failed), live, s'. split_and!; [done | | by constructor]. split; [done | done | by eapply data_keeps].
    + rewrite (proj2 (Z.eqb_neq r 0)) by done. exists failed, (mkUblk r n ∅ :: live), s'. split_and!; [done | | done]. split.
      * right. by exists rest.
      * by constructor.
      * constructor; [intros off v Hv; cbn [ub_data] in Hv; by apply lookup_empty_Some in Hv | by eapply data_keeps].
  - destruct (live !! i) as [b |] eqn:Hi; [| exists failed, live, s; split_and!; [done | done | done]].
    apply (client_ok_perm _ _ _ (delete_Permutation _ _ _ Hi)) in Hok as [Hh [Hs1 Hs]%Forall_cons [Hd1 Hd]%Forall_cons].
    apply heap_ok_cons in Hh as (rest & Hh). change (blk_of b) with ((ub_ptr b - HEADER, units (ub_size b))) in Hh.
    destruct (free_run base grow_ok s rest _ _ _ Hh) as (s' & rest' & E & Hi' & _ & _ & _ & Hk). rewrite Z.sub_add in E.
    exists failed, (delete i live), s'. rewrite (bind_ok _ _ _ _ _ E). split_and!; [done | | done].
    split; [right; by exists rest' | done | by eapply data_keeps].
  - destruct (live !! i) as [b |] eqn:Hi; [| exists failed, live, s; split_and!; [done | done | done]].
    destruct ((0 <=? off) && (off <? ub_size b)) eqn:Ho; [| exists failed, live, s; split_and!; [done | done | done]].
    assert (Hoff : 0 <= off < ub_size b) by lia. set (b' := mkUblk (ub_ptr b) (ub_size b) (<[off := u8 v]> (ub_data b))).
    set (s' := set_uh_mem (wr8 (uh_mem s) (ub_ptr b + off) v) s). exists failed, (<[i := b']> live), s'. split_and!; [done | | done].
    apply (client_ok_perm s' (b' :: delete i live)).
    { rewrite (delete_Permutation (<[i := b']> live) i b') by (apply list_lookup_insert_eq; by eapply lookup_lt_Some). by rewrite delete_insert_same. }
    apply (client_ok_perm _ _ _ (delete_Permutation _ _ _ Hi)) in Hok as [Hh [Hs1 Hs]%Forall_cons [Hd1 Hd]%Forall_cons].
    apply heap_ok_cons in Hh as (rest & Hh). destruct (store_inv _ _ _ _ _ _ v Hh (blk_bytes b off Hs1 Hoff)) as [Hinv Hk]. split.
    + right. by exists rest.
    + by constructor.
    + constructor; [| by eapply data_keeps]. intros o w Hw. cbn [ub_data ub_ptr ub_size b'] in *. unfold s'. cbn [uh_mem set_uh_mem]. rewrite rd8_wr8.
      apply lookup_insert_Some in Hw as [[<- <-] | [Hne Hw]]; [by rewrite Z.eqb_refl |]. destruct (Hd1 o w Hw) as [? <-].
      split; [done |]. destruct (Z.eqb_spec (ub_ptr b + off) (ub_ptr b + o)); [lia | done].
Qed.

Lemma run_ops_ok ops : forall s failed live, client_ok s live -> Forall refused failed -> grow_limit grow_ok -> Forall op_fits ops ->
  exists failed' live' s', run_ops ops (failed, live) s = Ok (failed', live') s' /\ client_ok s' live' /\ Forall refused failed'.
Proof.
  induction ops as [| op ops IH]; intros s failed live Hok Hfd Hlim Hf; [by exists failed, live, s |].
  apply Forall_cons in Hf as [H1 H2]. destruct (run_op_ok op s failed live Hok Hfd Hlim H1) as (f1 & l1 & s1 & E1 & O1 & F1).
  destruct (IH s1 f1 l1 O1 F1 Hlim H2) as (f2 & l2 & s2 & E2 & O2 & F2). exists f2, l2, s2. cbn [run_ops]. by rewrite (bind_ok _ _ _ _ _ E1).
Qed.

End Client.

(** ** The theorem *)

(** Two blocks share no byte. *)
Definition apart (b c : ublk) : Prop := ub_ptr b + ub_size b <= ub_ptr c \/ ub_ptr c + ub_size c <= ub_ptr b.

Lemma blocks_apart base s live i j b c : client_ok base s live -> live !! i = Some b -> live !! j = Some c -> i <> j -> apart b c.
Proof.
  intros Hok Hi Hj Hij. assert (Hj' : exists k, delete i live !! k = Some c).
  { destruct (decide (j < i)%nat); [exists j; by rewrite list_lookup_delete_lt | exists (j - 1)%nat].
    rewrite list_lookup_delete_ge by lia. by replace (S (j - 1)) with j by lia. }
  destruct Hj' as (k & Hk). apply (client_ok_perm _ _ _ _ (delete_Permutation _ _ _ Hi)) in Hok as [Hh [Hs1 Hs]%Forall_cons _].
  apply heap_ok_cons in Hh as (rest & Hh). pose proof (hi_disj _ _ _ _ Hh) as Hd. cbn [fmap list_fmap] in Hd. rewrite <- Permutation_middle in Hd.
  pose proof (Forall_lookup_1 _ _ _ _ Hs Hk) as Hs2. cbn beta in Hs2. apply (disjs_elem _ _ (blk_of c)) in Hd.
  - pose proof (units_bounds _ Hs1). pose proof (units_bounds _ Hs2). unfold disj, blk_of, apart, HEADER in *. cbn [fst snd] in Hd. lia.
  - apply elem_of_app. right. apply list_elem_of_fmap_2. by eapply list_elem_of_lookup_2.
Qed.

Lemma block_in_heap base s live b : client_ok base s live -> b ∈ live -> base + HEADER <= ub_ptr b /\ ub_ptr b + ub_size b <= uh_brk s.
Proof.
  intros [[(_ & E & _) | (rest & Hh)] Hs _] Hb; [destruct live; [by apply elem_of_nil in Hb | done] |]. pose proof (hi_range _ _ _ _ Hh) as [_ Hr]%Forall_app.
  rewrite Forall_forall in Hr. rewrite Forall_forall in Hs. destruct (Hr (blk_of b)) as (R1 & R2 & R3); [by apply list_elem_of_fmap_2 |]. specialize (Hs b Hb). cbn beta in Hs.
  pose proof (units_bounds _ Hs). unfold blk_of, HEADER in *. cbn [fst snd] in *. lia.
Qed.

(** C9: whatever a program allocates, stores and frees, [malloc] and [free] return. The
    blocks in use lie between the static header and the break, no two of them share a
    byte, and each still holds what the program stored in it. A call of [malloc] for
    [n] bytes at the break [brk] fails only if the kernel refuses to grow the process
    from [brk] by the units needed for [n] bytes and a header, 4096 units at least. *)
Theorem malloc_correct base grow_ok ops m brk : 0 < base -> base + HEADER <= brk <= 2^36 -> grow_limit grow_ok -> Forall op_fits ops ->
  exists failed live s, run_ops base grow_ok ops ([], []) (mkUheap m 0 brk) = Ok (failed, live) s /\
    (forall b, b ∈ live -> base + HEADER <= ub_ptr b /\ ub_ptr b + ub_size b <= uh_brk s) /\
    (forall i j b c, live !! i = Some b -> live !! j = Some c -> i <> j -> apart b c) /\
    (forall b off v, b ∈ live -> ub_data b !! off = Some v -> rd8 (uh_mem s) (ub_ptr b + off) = v) /\
    (forall n brk, (n, brk) ∈ failed -> grow_ok brk (Z.max ((n + HEADER - 1) / HEADER + 1) 4096 * HEADER) = false).
Proof.
  intros Hb Hbrk Hlim Hops. destruct (run_ops_ok base grow_ok ops (mkUheap m 0 brk) [] []) as (failed & live & s & E & Hok & Hf); try done.
  { split; [left | done | done]. split_and!; try done; apply Hbrk. }
  exists failed, live, s. split_and!; [done | intros b; by apply block_in_heap | intros i j b c; by eapply blocks_apart | | ].
  - intros b off v Hin Hv. pose proof (co_data _ _ _ Hok) as Hd. rewrite Forall_forall in Hd. by apply (Hd b Hin off v).
  - intros n b Hin. rewrite Forall_forall in Hf. exact (Hf _ Hin).
Qed.

(** The allocator on a run that splits, stores, frees and joins blocks. *)
Definition sample_grow (b n : Z) : bool := b + n <=? 2^27.
Definition sample_ops : list mop :=
  [MAlloc 10; MAlloc 100; MStore 0 99 7; MAlloc 33; MStore 0 0 300; MFree 1; MAlloc 64; MStore 0 5 9; MAlloc (2^27); MFree 2].

Lemma malloc_correct_witness : exists failed live s, run_ops 4096 sample_grow sample_ops ([], []) (mkUheap ∅ 0 8192) = Ok (failed, live) s /\
  (forall b, b ∈ live -> 4096 + HEADER <= ub_ptr b /\ ub_ptr b + ub_size b <= uh_brk s) /\
  (forall i j b c, live !! i = Some b -> live !! j = Some c -> i <> j -> apart b c) /\
  (forall b off v, b ∈ live -> ub_data b !! off = Some v -> rd8 (uh_mem s) (ub_ptr b + off) = v) /\
  (forall n brk, (n, brk) ∈ failed -> sample_grow brk (Z.max ((n + HEADER - 1) / HEADER + 1) 4096 * HEADER) = false).
Proof.
  apply (malloc_correct 4096 sample_grow sample_ops ∅ 8192).
  - lia.
  - unfold HEADER. lia.
  - intros b n Hn Hg. unfold sample_grow in Hg. lia.
  - unfold sample_ops. repeat (constructor; [cbn [op_fits]; first [exact I | lia] |]). constructor.
Defined.

(** The values of that run: two blocks are in use, and of the calls only the last,
    for 2^27 bytes, failed. *)
Example sample_ops_run :
  match run_ops 4096 sample_grow sample_ops ([], []) (mkUheap ∅ 0 8192) with
  | Ok (failed, live) s => failed = [(2^27, 8192 + 65536)] /\ map ub_size live = [64; 33] /\ (map (fun b => rd8 (uh_mem s) (ub_ptr b + 5)) live) = [9; 0]
  | _ => False
  end.
Proof. vm_compute. repeat split. Qed.
