(* ===== verification/Grep.v ===== *)
(** * user/grep.c: regular expressions and the line filter

    The matcher against an inductive definition of what a pattern matches, and the
    program against the list of lines of its input. *)

From S2P Require Import Prelude Riscv Mem StringLib Spinlock Kalloc Vm Proc State Uart Printf User Ulib Uprintf.
From Stdlib Require Import Ascii.

Definition STAR : Z := chr "*".
Definition DOT : Z := chr ".".
Definition DOLLAR : Z := chr "$".
Definition CARET : Z := chr "^".

(** ** The matcher *)

(** The loop of [matchstar]; [m] is [matchhere(re, .)]. *)
Fixpoint matchstar (c : Z) (m : list Z -> bool) (text : list Z) : bool :=
  if m text then true else
  match text with
  | [] => false
  | t :: text => if (t =? c) || (c =? DOT) then matchstar c m text else false
  end.

Fixpoint matchhere (re : list Z) : list Z -> bool := fun text =>
  match re with
  | [] => true
  | c :: re1 =>
      match re1 with
      | d :: re2 =>
          if d =? STAR then matchstar c (matchhere re2) text
          else
            match text with
            | [] => false
            | t :: text => if (c =? DOT) || (c =? t) then matchhere re1 text else false
            end
      | [] =>
          if c =? DOLLAR then bool_decide (text = [])
          else
            match text with
            | [] => false
            | t :: text => if (c =? DOT) || (c =? t) then matchhere re1 text else false
            end
      end
  end.

Fixpoint match_loop (re text : list Z) : bool :=
  if matchhere re text then true else
  match text with [] => false | _ :: text => match_loop re text end.

Definition match_ (re text : list Z) : bool :=
  match re with
  | c :: re1 => if c =? CARET then matchhere re1 text else match_loop re text
  | [] => match_loop re text
  end.

(** ** The program *)

Section Grep.
Context `{OS : Os}.

(** The loop over the lines in the buffer; returns what is left. *)
Fixpoint grep_lines (fuel : nat) (pattern p : list Z) : M world (list Z) :=
  match fuel with
  | O => fun _ => NoFuel
  | S fuel =>
      match strchr p NL with
      | None => ret p
      | Some q =>
          (if match_ pattern (take q p) then u_write 1 (take (S q) p) ;;; ret tt else ret tt) ;;;
          grep_lines fuel pattern (drop (S q) p)
      end
  end.

(** [buf] has the [m] bytes carried over. *)
Fixpoint grep_loop (fuel : nat) (pattern : list Z) (fd : Z) (buf : list Z) : M world unit :=
  match fuel with
  | O => fun _ => NoFuel
  | S fuel =>
      let* r := u_read fd (1024 - Z.of_nat (length buf) - 1) in
      if 0 <? r.1 then
        let buf := buf ++ r.2 in
        let* rest := grep_lines (S (length buf)) pattern buf in
        grep_loop fuel pattern fd rest
      else ret tt
  end.

Definition grep (fuel : nat) (pattern : list Z) (fd : Z) : M world unit := grep_loop fuel pattern fd [].

Fixpoint grep_files (n : nat) (pattern : list Z) (argv : list (list Z)) : M world unit :=
  match argv with
  | [] => ret tt
  | a :: argv =>
      let* fd := u_open (cstr a) 0 in
      (if fd <? 0 then Uprintf.printf (str "grep: cannot open %s" ++ [NL]) [VStr a] ;;; u_exit 1 else ret tt) ;;;
      grep n pattern fd ;;;
      u_close fd ;;;
      grep_files n pattern argv
  end.

Definition grep_main (n : nat) (argv : list (list Z)) : M world unit :=
  match argv with
  | [] | [_] => fprintf 2 (str "usage: grep pattern [file ...]" ++ [NL]) [] ;;; u_exit 1
  | [_; pattern] => grep n (cstr pattern) 0 ;;; u_exit 0
  | _ :: pattern :: files => grep_files n (cstr pattern) files ;;; u_exit 0
  end.

End Grep.

(** ** What a pattern matches *)

(** Does character [t] match [c]? *)
Definition char_match (c t : Z) : Prop := c = DOT \/ t = c.
(** Is the pattern [re] headed by a star (so that the character before it repeats)? *)
Definition starred (re : list Z) : Prop := exists re', re = STAR :: re'.

(** Pattern [re] matches a prefix of the text. *)
Inductive matches : list Z -> list Z -> Prop :=
| m_nil text : matches [] text
| m_end : matches [DOLLAR] []
| m_char c re t text : ~ starred re -> ~ (c = DOLLAR /\ re = []) -> char_match c t -> matches re text ->
    matches (c :: re) (t :: text)
| m_star c re pre text : Forall (char_match c) pre -> matches re text -> matches (c :: STAR :: re) (pre ++ text).

Lemma matchstar_spec c m text :
  matchstar c m text = true <-> exists pre suf, text = pre ++ suf /\ Forall (char_match c) pre /\ m suf = true.
Proof.
  induction text as [| t text IH]; simpl.
  - destruct (m []) eqn:E; (split; [| intros (pre & suf & H & _ & Hm)]).
    + intros _. by exists [], [].
    + done.
    + done.
    + symmetry in H. apply app_eq_nil in H as [-> ->]. congruence.
  - destruct (m (t :: text)) eqn:E.
    { split; [intros _ | done]. by exists [], (t :: text). }
    destruct ((t =? c) || (c =? DOT)) eqn:Ec.
    + rewrite IH. split.
      * intros (pre & suf & -> & Hp & Hm). exists (t :: pre), suf. split; [done |]. split; [| done]. constructor; [| done].
        unfold char_match. apply orb_prop in Ec as [Ec | Ec]; apply Z.eqb_eq in Ec; auto.
      * intros (pre & suf & H & Hp & Hm). destruct pre as [| p pre]; simpl in H.
        -- subst suf. congruence.
        -- injection H as <- ->. inversion Hp; subst. by exists pre, suf.
    + split; [done |]. intros (pre & suf & H & Hp & Hm). destruct pre as [| p pre]; simpl in H; [subst suf; congruence |].
      injection H as <- ->. inversion Hp as [| ? ? Hc]; subst. apply orb_false_iff in Ec as [E1 E2].
      apply Z.eqb_neq in E1, E2. by destruct Hc.
Qed.

Lemma matchhere_char c t : ((c =? DOT) || (c =? t)) = true <-> char_match c t.
Proof. unfold char_match. rewrite orb_true_iff, !Z.eqb_eq. intuition congruence. Qed.

(** The cases of [matchhere] that the code tests in turn. *)
Lemma matchhere_spec_aux n : forall re text, (length re <= n)%nat -> matchhere re text = true <-> matches re text.
Proof.
  induction n as [| n IH]; intros re text Hlen.
  { destruct re; [| simpl in Hlen; lia]. split; [constructor | done]. }
  destruct re as [| c re1]; [split; [constructor | done] |]. simpl in Hlen.
  assert (Hchar : ~ starred re1 -> ~ (c = DOLLAR /\ re1 = []) ->
    match text with [] => false | t :: text => if (c =? DOT) || (c =? t) then matchhere re1 text else false end = true <-> matches (c :: re1) text).
  { intros Hs Hd. destruct text as [| t text].
    - split; [done |]. intros H. inversion H as [| | | ? ? ? ? ? ? E1 E2]; subst; [by destruct Hd | by destruct Hs; eexists].
    - destruct ((c =? DOT) || (c =? t)) eqn:Ec.
      + rewrite (IH re1 text) by lia. apply (matchhere_char c t) in Ec. split; [by constructor |].
        intros H. inversion H; subst; [done | by destruct Hs; eexists].
      + split; [done |]. intros H. inversion H as [| | ? ? ? ? ? ? Hc | ]; subst; [| by destruct Hs; eexists].
        apply (matchhere_char c t) in Hc. congruence. }
  destruct re1 as [| d re2].
  - change (matchhere [c] text) with (if c =? DOLLAR then bool_decide (text = []) else
      match text with [] => false | t :: text => if (c =? DOT) || (c =? t) then matchhere [] text else false end).
    destruct (Z.eqb_spec c DOLLAR) as [-> | Hc].
    + rewrite bool_decide_eq_true. split; [intros ->; constructor |]. intros H. inversion H as [| | ? ? ? ? _ Hd | ]; subst; [done |]. by destruct Hd.
    + apply Hchar; [by intros [? ?] | by intros [? _]].
  - change (matchhere (c :: d :: re2) text) with (if d =? STAR then matchstar c (matchhere re2) text else
      match text with [] => false | t :: text => if (c =? DOT) || (c =? t) then matchhere (d :: re2) text else false end).
    destruct (Z.eqb_spec d STAR) as [-> | Hd].
    + rewrite matchstar_spec. split.
      * intros (pre & suf & -> & Hp & Hm). constructor; [done |]. by rewrite <- (IH re2 suf) by (simpl in Hlen; lia).
      * intros H. inversion H as [| | ? ? ? ? Hs | ? ? pre suf Hp Hm]; subst; [destruct Hs; by eexists |].
        exists pre, suf. split_and!; [done | done |]. by apply IH; [simpl in Hlen; lia |].
    + apply Hchar; [intros [? [= ? ?]]; done | by intros [_ ?]].
Qed.

Lemma matchhere_spec re text : matchhere re text = true <-> matches re text.
Proof. by apply (matchhere_spec_aux (length re)). Qed.

Lemma match_loop_spec re text : match_loop re text = true <-> exists pre suf, text = pre ++ suf /\ matches re suf.
Proof.
  induction text as [| t text IH]; simpl.
  - destruct (matchhere re []) eqn:E.
    + split; [| done]. intros _. exists [], []. split; [done |]. by apply matchhere_spec.
    + split; [done |]. intros (pre & suf & H & Hm). symmetry in H. apply app_eq_nil in H as [-> ->]. apply matchhere_spec in Hm. congruence.
  - destruct (matchhere re (t :: text)) eqn:E.
    + split; [| done]. intros _. exists [], (t :: text). split; [done |]. by apply matchhere_spec.
    + rewrite IH. split; intros (pre & suf & H & Hm).
      * subst. by exists (t :: pre), suf.
      * destruct pre as [| p pre]; simpl in H; [subst; apply matchhere_spec in Hm; congruence |]. injection H as -> ->. by exists pre, suf.
Qed.

(** ** Lines *)

(** The complete lines of a text, and the characters after the last newline. *)
Fixpoint split_lines (l : list Z) : list (list Z) * list Z :=
  match l with
  | [] => ([], [])
  | c :: l =>
      let '(ls, r) := split_lines l in
      if c =? NL then ([] :: ls, r)
      else match ls with [] => ([], c :: r) | x :: ls => ((c :: x) :: ls, r) end
  end.

Definition grep_out (pattern : list Z) (ls : list (list Z)) : list Z :=
  concat ((fun l => l ++ [NL]) <$> filter (fun l => match_ pattern l = true) ls).

(** Every line, also an unfinished one, fits in the buffer of [grep]. *)
Definition short_lines (l : list Z) : Prop :=
  Forall (fun x => (length x < 1023)%nat) (split_lines l).1 /\ (length (split_lines l).2 < 1023)%nat.

Lemma split_prefix a b : NL ∉ a ->
  split_lines (a ++ b) = match split_lines b with (l :: ls, r) => ((a ++ l) :: ls, r) | ([], r) => ([], a ++ r) end.
Proof.
  induction a as [| c a IH]; intros Ha; simpl; [by destruct (split_lines b) as [[] ?] |].
  apply not_elem_of_cons in Ha as [Hc Ha]. rewrite (IH Ha). destruct (Z.eqb_spec c NL); [congruence |].
  by destruct (split_lines b) as [[| l ls] r].
Qed.

Lemma split_rest l : NL ∉ (split_lines l).2.
Proof.
  induction l as [| c l IH]; simpl; [apply not_elem_of_nil |]. destruct (split_lines l) as [ls r]. simpl in IH.
  destruct (Z.eqb_spec c NL); [done |]. destruct ls; simpl; [| done]. apply not_elem_of_cons. split; [congruence | done].
Qed.

Lemma split_rest_elem l x : x ∈ (split_lines l).2 -> x ∈ l.
Proof.
  induction l as [| c l IH]; simpl; [done |]. destruct (split_lines l) as [ls r]. simpl in IH.
  destruct (c =? NL); [by right; apply IH |]. destruct ls; simpl; [| by right; apply IH].
  intros [-> | H]%elem_of_cons; [by left | by right; apply IH].
Qed.

Lemma split_app a b : split_lines (a ++ b) =
  let '(la, ra) := split_lines a in let '(lb, rb) := split_lines (ra ++ b) in (la ++ lb, rb).
Proof.
  induction a as [| c a IH]; simpl; [by destruct (split_lines b) |]. rewrite IH.
  destruct (split_lines a) as [la ra]. destruct (Z.eqb_spec c NL) as [-> | Hc].
  - by destruct (split_lines (ra ++ b)).
  - destruct la as [| x la]; simpl; [| by destruct (split_lines (ra ++ b))].
    rewrite (proj2 (Z.eqb_neq c NL) Hc). by destruct (split_lines (ra ++ b)) as [[| y lb] rb].
Qed.

Lemma strchr_some p q : strchr p NL = Some q ->
  p = take q p ++ NL :: drop (S q) p /\ (NL ∉ take q p) /\ length (take q p) = q.
Proof.
  revert q. induction p as [| x p IH]; intros q; simpl; [done |].
  destruct (Z.eqb_spec x 0); [done |]. destruct (Z.eqb_spec x NL) as [-> | Hx].
  - intros [= <-]. simpl. split; [by rewrite drop_0 |]. split; [apply not_elem_of_nil | done].
  - destruct (strchr p NL) as [k |]; [| done]. intros [= <-]. destruct (IH k eq_refl) as (E & Hn & Hl).
    cbn [take drop app]. split; [by f_equal |]. split; [apply not_elem_of_cons; split; [congruence | done] | simpl; by rewrite Hl].
Qed.

Lemma strchr_none p : strchr p NL = None -> 0 ∉ p -> NL ∉ p.
Proof.
  induction p as [| x p IH]; simpl; intros H H0; [apply not_elem_of_nil |]. apply not_elem_of_cons in H0 as [Hx H0].
  destruct (Z.eqb_spec x 0); [congruence |]. destruct (Z.eqb_spec x NL); [done |]. destruct (strchr p NL); [done |].
  apply not_elem_of_cons. split; [congruence | auto].
Qed.

Lemma split_found p q : strchr p NL = Some q ->
  split_lines p = (take q p :: (split_lines (drop (S q) p)).1, (split_lines (drop (S q) p)).2).
Proof.
  intros H. destruct (strchr_some p q H) as (E & Hn & _). rewrite E at 1. rewrite split_prefix by done.
  cbn [split_lines]. change (NL =? NL) with true. destruct (split_lines (drop (S q) p)) as [ls r]. simpl. by rewrite app_nil_r.
Qed.

Lemma grep_out_cons pattern l ls :
  grep_out pattern (l :: ls) = (if match_ pattern l then l ++ [NL] else []) ++ grep_out pattern ls.
Proof. unfold grep_out. rewrite filter_cons. destruct (match_ pattern l); [by rewrite decide_True | by rewrite decide_False]. Qed.

Lemma grep_lines_run fuel pattern p w : (length p < fuel)%nat -> 0 ∉ p ->
  grep_lines (OS := FileIo) fuel pattern p w =
    Ok (split_lines p).2 (mkIow (w_in w) (w_sched w) (w_out w ++ grep_out pattern (split_lines p).1)).
Proof.
  revert p w. induction fuel as [| fuel IH]; intros p w Hf H0; [lia |]. cbn [grep_lines].
  destruct (strchr p NL) as [q |] eqn:E.
  - destruct (strchr_some p q E) as (Ep & Hn & Hl). rewrite (split_found p q E). cbn [fst snd]. rewrite grep_out_cons.
    assert (Hlen : (length p = q + S (length (drop (S q) p)))%nat) by (rewrite Ep at 1; rewrite length_app, Hl; done).
    assert (H0' : 0 ∉ drop (S q) p). { intros H. apply H0. rewrite Ep. apply elem_of_app. right. by apply elem_of_cons; right. }
    assert (Et : take (S q) p = take q p ++ [NL]).
    { transitivity (take (S q) (take q p ++ NL :: drop (S q) p)); [by rewrite <- Ep |].
      rewrite take_app_ge by lia. rewrite Hl. by replace (S q - q)%nat with 1%nat by lia. }
    unfold bind. destruct (match_ pattern (take q p)); cbn [u_write FileIo io_write obind ret].
    + rewrite Et. rewrite IH by (lia || done). simpl. by rewrite !app_assoc.
    + rewrite IH by (lia || done). done.
  - pose proof (strchr_none p E H0) as Hn. rewrite <- (app_nil_r p) at 2 3. rewrite split_prefix by done. simpl.
    rewrite app_nil_r. unfold grep_out. simpl. rewrite app_nil_r. by destruct w.
Qed.

Lemma short_rest buf l : NL ∉ buf -> short_lines (buf ++ l) -> (length buf < 1023)%nat.
Proof.
  intros Hn [Hl Hr]. rewrite split_prefix in Hl, Hr by done. destruct (split_lines l) as [[| x ls] r]; simpl in *.
  - rewrite length_app in Hr. lia.
  - apply Forall_cons in Hl as [Hl _]. rewrite length_app in Hl. lia.
Qed.

Lemma grep_loop_run fuel pattern fd buf w : (length (w_in w) < fuel)%nat -> NL ∉ buf -> 0 ∉ buf ++ w_in w ->
  short_lines (buf ++ w_in w) ->
  exists w', grep_loop (OS := FileIo) fuel pattern fd buf w = Ok tt w' /\ w_in w' = [] /\
    w_out w' = w_out w ++ grep_out pattern (split_lines (buf ++ w_in w)).1.
Proof.
  revert buf w. induction fuel as [| fuel IH]; intros buf w Hf Hn H0 Hs; [lia |]. cbn [grep_loop]. unfold bind at 1.
  pose proof (short_rest _ _ Hn Hs) as Hb. destruct (w_in w) as [| c l] eqn:Ei.
  - destruct (io_read_end fd (1024 - Z.of_nat (length buf) - 1) w Ei) as [s E]. cbn [u_read FileIo]. rewrite E. simpl.
    eexists. split; [reflexivity |]. split; [done |]. simpl. rewrite app_nil_r, <- (app_nil_r buf), split_prefix by done. simpl.
    by rewrite app_nil_r.
  - destruct (io_read_run fd (1024 - Z.of_nat (length buf) - 1) w) as (k & s & E & Hk & Hk2); [lia | by rewrite Ei |].
    rewrite Ei in E, Hk2. cbn [u_read FileIo]. rewrite E. cbn [obind fst snd].
    destruct (Z.ltb_spec 0 (Z.of_nat (S k))); [| lia]. set (chunk := take (S k) (c :: l)) in *. set (l' := drop (S k) (c :: l)) in *.
    assert (El : c :: l = chunk ++ l') by (symmetry; apply take_drop). rewrite El in H0, Hs |- *. rewrite !app_assoc in *.
    unfold bind at 1. rewrite grep_lines_run.
    2: { lia. }
    2: { intros H'. apply H0. apply elem_of_app. by left. }
    cbn [obind w_in w_sched w_out].
    pose proof (split_app (buf ++ chunk) l') as Esp. pose proof (split_rest (buf ++ chunk)) as Hr.
    destruct (split_lines (buf ++ chunk)) as [la ra] eqn:Ea. destruct (split_lines (ra ++ l')) as [lb rb] eqn:Eb. cbn [fst snd] in *.
    destruct (IH ra (mkIow l' s (w_out w ++ grep_out pattern la))) as (w' & Ew & Ei' & Eo); cbn [w_in w_out] in *.
    + rewrite El, length_app in Hf. unfold chunk in Hf. rewrite length_take in Hf. lia.
    + done.
    + intros H'. apply H0. apply elem_of_app in H' as [H' | H']; apply elem_of_app; [left | by right].
      apply split_rest_elem. by rewrite Ea.
    + unfold short_lines in *. rewrite Eb. rewrite Esp in Hs. simpl in Hs. destruct Hs as [Hs1 Hs2]. by apply Forall_app in Hs1 as [_ ?].
    + exists w'. split; [exact Ew |]. split; [done |]. rewrite Eo, Eb, Esp. simpl. unfold grep_out.
      rewrite filter_app, fmap_app, concat_app. by rewrite app_assoc.
Qed.

(** ** Properties *)

(** C35: The matcher decides the pattern language. [match] returns 1 exactly when
    the pattern matches at some position of the text, or at its start for a pattern
    that begins with a caret, where [matches] says inductively what literal
    characters, the dot, the star and a final dollar match. *)
Theorem match_correct (re text : list Z) :
  match_ re text = true <->
    match re with
    | c :: re' => if c =? CARET then matches re' text else exists pre suf, text = pre ++ suf /\ matches re suf
    | [] => True
    end.
Proof.
  unfold match_. destruct re as [| c re].
  - rewrite match_loop_spec. split; [done |]. intros _. exists [], text. split; [done | constructor].
  - destruct (c =? CARET); [apply matchhere_spec | apply match_loop_spec].
Qed.

(** C36: [grep] prints the matching lines. However the reads of its input are cut
    into pieces, if every line is shorter than the buffer and no byte is nul, it
    terminates having written exactly the newline-terminated lines that match the
    pattern, in order. *)
Theorem grep_prints_matching_lines (pattern input : list Z) (sched : list nat) (fd : Z)
    (H0 : 0 ∉ input) (Hs : short_lines input) :
  exists w, grep (OS := FileIo) (S (length input)) pattern fd (mkIow input sched []) = Ok tt w /\
    w_in w = [] /\ w_out w = grep_out pattern (split_lines input).1.
Proof. apply (grep_loop_run _ pattern fd [] (mkIow input sched [])); [simpl; lia | apply not_elem_of_nil | done | done]. Qed.

Lemma grep_prints_matching_lines_witness :
  exists w, grep (OS := FileIo) 13 (str "^b.*r$") 0 (mkIow (str "foo" ++ NL :: str "bazr" ++ NL :: str "br") [0; 1; 4]%nat []) = Ok tt w /\
    w_out w = str "bazr" ++ [NL].
Proof.
  destruct (grep_prints_matching_lines (str "^b.*r$") (str "foo" ++ NL :: str "bazr" ++ NL :: str "br") [0; 1; 4]%nat 0) as (w & E & _ & Eo).
  - apply (bool_decide_unpack _). vm_compute. exact I.
  - split; [repeat constructor | vm_compute]; lia.
  - exists w. split; [exact E |]. rewrite Eo. vm_compute. reflexivity.
Defined.
